(* ===== verification/_CoqProject ===== *)
-Q . S2P
Prelude.v
Effects.v
Promises.v
Js.v
Text.v
PtyGate.v
Regex.v
TelegramFormat.v
TelegramTags.v
TelegramMessages.v
Registry.v
Store.v
AuditApi.v
AuditLog.v
AuditTx.v
Hitl.v
Approval.v
AtMostOnce.v
ApprovalSpec.v
Autonomy.v
AutonomySafety.v
FeatureFlags.v
Models.v
Budget.v
Frame.v
TerminalClient.v
OwnerTerminal.v
TerminalPty.v
TerminalSafety.v
TerminalKeys.v
Relay.v
RelaySafety.v
Throttle.v
Sanitizer.v
Memory.v
Agent.v
Orchestrator.v
TelegramBot.v
TelegramSafety.v
Delegation.v
Push.v
PushService.v
PushSafety.v
Previews.v
PreviewSafety.v
Integrations.v
IntegrationTools.v
IntegrationSafety.v
ErrorFilter.v
Gateways.v
TerminalGateway.v
TerminalController.v
Vendors.v
VendorSafety.v
Configs.v
Startup.v
Snapshots.v
Mcp.v
Endpoints.v
Migrations.v
