(* ===== verification/Prelude.v ===== *)
(** * Jin_Core: a verification development

    Jin_Core is the server of a personal agent.  The owner writes to it from Telegram, a
    web chat or a terminal; models of three vendors answer and ask for tools; a tool that
    changes something outside waits for the approval of the owner; every decision goes to
    a log chained by hashes.  This library translates that server into executable
    definitions and proves what its parts promise.

    ** How the code is modelled

    A method of a service is a [prog] ([Effects.v]): a tree of atomic actions on a store,
    one for each database statement, clock reading, call to another program or stretch of
    code between two awaits.  [run] executes a method alone.  [pool_step] and [reachable]
    interleave any number of methods; a method that stops moving is a process that died.
    [steps] (each action respects a relation), [follows] (each action follows a protocol
    with phases) and [zoom] (a method on a part of a larger store) are the logic of the
    proofs.  [Store.v] has the tables of [src/db/schema.ts], the errors, the events, and
    the fault function that decides which statements fail, so that every theorem about
    [run] or [reachable] covers failures of the database as well.  Errors are the values
    of [JinError], thrown and caught as in the code.

    ** The files, in order

    Foundations.  [Prelude.v]: lists, strings, tactics.  [Effects.v]: programs.
    [Promises.v]: [Promise.all] under a schedule.  [Js.v] and [Text.v]: JSON, dates,
    numbers, UTF-8 bytes, UTF-16 units, [length] and [slice] of a string,
    [toWellFormed] of what a database keeps, [StringDecoder], base64.  [Regex.v]: the regular
    expressions of the language, with backtracking.  [Store.v]: the world.

    Approvals of the owner.  [Registry.v] ([src/tools/registry.ts], the types of
    [src/hitl]); [AuditApi.v], [AuditLog.v] ([src/audit]; [append_tx] is
    what an append does when nothing comes between), [AuditTx.v] (the transaction of
    [appendRow] statement by statement, with its lock); [Hitl.v], [Approval.v]
    ([src/hitl]); [AtMostOnce.v] and [ApprovalSpec.v], what holds of them under
    concurrency; [Autonomy.v] and [AutonomySafety.v] ([src/autonomy]); [FeatureFlags.v] ([src/feature-flags],
    [src/hitl-policy]).

    Models and agents.  [Models.v] and [Vendors.v] ([src/model-provider]: the choice of a
    model, and the translations for Anthropic, Google and OpenAI); [VendorSafety.v], the
    agent loop and those translations together; [Budget.v] ([src/budget]);
    [Sanitizer.v] ([src/security]); [Memory.v] ([src/memory], [src/corpus]); [Agent.v],
    [Orchestrator.v], [Delegation.v] ([src/agent]); [Frame.v], what these methods leave
    alone.

    Terminal.  [PtyGate.v], [TerminalClient.v], [OwnerTerminal.v], [TerminalPty.v],
    [TerminalSafety.v], [TerminalKeys.v], [TerminalGateway.v], [TerminalController.v]
    ([src/terminal]: the filter of the keys, the client of the executor, the workspaces of
    the owner, the interactive sessions, their socket, the endpoints).

    Telegram.  [TelegramFormat.v], [TelegramTags.v], [TelegramMessages.v]
    ([src/telegram/telegram-format.ts]); [TelegramBot.v], [TelegramSafety.v]
    ([src/telegram/telegram-bot.service.ts]: conversation, commands, buttons, alarms);
    [Relay.v], [RelaySafety.v] ([src/relay]).  [Throttle.v] ([src/rate-limit]).

    Notifications.  [Push.v] (the payloads), [PushService.v] (devices, the client of
    Apple, the listeners), [PushSafety.v] ([src/push]).

    Previews.  [Previews.v], [PreviewSafety.v] ([src/executor-client]): variables and
    their vault, templates, the client of the executor, publication by the owner.

    Integrations.  [Integrations.v] (the clients of Gmail, Calendar and Canvas, with their
    windows of requests), [IntegrationTools.v] (their tools, the report of midnight and the
    alert of the morning), [IntegrationSafety.v] ([src/integrations]); [Mcp.v] ([src/mcp],
    the client of the documentation servers).

    Edges.  [ErrorFilter.v] ([src/common]: the answer to each error); [Gateways.v]
    ([src/auth], [src/chat], [src/realtime]); [Endpoints.v] (the controllers of the log, of
    the runs, of the preferences, of the memory and of the bridge); [Snapshots.v]
    ([src/project-snapshots]).

    Start.  [Configs.v] (the parsers of [config/*.yaml], and those files as data);
    [Startup.v] ([src/config], the order of [main.ts], [src/health]); [Migrations.v]
    ([migrate-down.ts] and the scripts of [drizzle/]: [reverting_is_all_or_nothing],
    [every_migration_is_undone]).

    Inside a file a service is a Module of the name of its class, a table is a Record of
    the name of its row, and an operation keeps the name of its method.

    ** Interfaces

    [AuditApi] with its laws [AuditApiLaws] is what the log promises to those who write
    to it ([AuditLog.v] implements it); [ModelRouterApi] and [ModelRouterLaws],
    [BudgetGuardedApi] and [AgentApi] do the same for models and agents.  [NodeCrypto],
    [JsonParse], [ZodUuid], [UnicodeTable], [VectorSpace], [DateParse], [Credentials],
    [ConfigFiles], [UrlSyntax], [InfisicalSdk], [McpNetwork], [AnthropicSdk], [GoogleSdk]
    and [OpenAISdk] stand for code that is not of the repository.

    ** What the theorems show

    - Approvals: an approved action executes at most once, with its approval in the log,
      for every interleaving; every step of any pool of methods is a step of an abstract
      case, in which a row is taken by one method at a time and is asked for once; what
      runs is what was asked; what each decision does on its branches, and that a locked
      log stops it.
    - Levels: a level is lowered only by an autonomy mode in force or an approved
      override; a relaxed mode needs an unexpired row and is bounded by a circuit breaker, up to
      one call more for each of those that run at once (a finding); supervision comes back,
      and is announced, even if the log refuses to write.
    - Log: the chain stays verifiable under concurrency, for the texts that the database
      keeps as they came (a finding: half of a pair of units is hashed as it is and kept as
      another character); two verified logs with the same last hash are the same log, or
      the hash is broken on two inputs that the verification itself hashes.
    - Models and budget: no lost usage, limits enforced, the kill switch stays until it is
      lifted, a stream shows the text of one attempt.
    - Agents: a supervised agent executes only unattended tools; turns and delegations
      terminate within their limits, counted at the router that is called; external content stays inside its tag; what the
      loop sends to a vendor answers every call that the model made, for the rules of the
      three vendors, before and after a compaction.
    - Memory: a search returns the nearest entries that match.
    - Terminal: each step of the gate reaches the executor after the line it ends is in the
      log, message boundaries
      do not matter, no token is shown, keys arrive in order, operations are recorded
      first.
    - Terminal at its edges: a terminal without listeners is counted down from the minutes
      of its configuration, second by second, whatever sockets come and go; a preview keeps
      the method and the headers it forwards, and three [..] of a path lead it to an address
      outside the port it is for (a finding).
    - Telegram: only known tags reach the chat, messages fit, a message of the owner is
      read once, an answer that Telegram cannot parse arrives as plain text, transcripts
      stay short.  Requests beyond the limit of a window do not pass.
    - Notifications: the listeners change no table of the other services and throw nothing
      into them; the tokens shown to Apple are fresh and few.
    - Integrations: the requests of each client stay under its limit, a mail reads as it
      was approved, the morning tells of the night; only two tools of a documentation
      server are called, and only on the servers of the file.
    - Edges and start: a socket stays open only with the token of the owner; a copy of a
      project holds no secret; the pages of runs list each run once when no two began at
      the same instant; the configuration that is accepted is within the limits that the
      other theorems assume; the credentials of the vault go only to the site that the
      owner set.
    - Previews: no file whose name, on one line, is of a kind of secrets that the guard
      knows is published (a finding: others pass), the values of variables stay in memory
      until a launch takes them.

    ** Fuel and bounds

    [recordApproval] recurses at most once (fuel 2, [recordApproval_recurses_once]);
    [Regex.walk] gets as many rounds as the subject has units, enough by [enough_rounds];
    [slices] gets the length of its list; the agent loop counts its iterations as the code
    does; the loop of batches has the fuel that [delegation_comes_to_an_end] proves
    enough; [schema_ok] descends six levels, the depth of the table.  [exec_complete] of
    [Regex.v] shows that the search with backtracking finds a match when there is one.

    ** Assumptions

    Numbers are exact: costs, ratios and [Number(text)] are rationals or integers, without
    the rounding of doubles.  The time zone is a constant offset.  A string is the
    bytes of its UTF-8, in which half of a pair of units has the three bytes that its number
    would have; the log turns it into U+FFFD when it is kept, the other tables keep a
    string as it came.  The text of the terminal and of Telegram are UTF-16 units.  A value
    that a column does not take (a NUL) is a statement that fails, so the oracle of faults
    covers it.  Rows that tie
    in an order keep that of the table.  Identifiers drawn at random are never drawn
    twice.  The clients of the vendors, the executors of the tools, the answers of other
    programs (Telegram, Redis, the executor of pods), SHA-256, [JSON.parse], the texts of
    Zod, localised dates and the Unicode table of letters are parameters or oracles.
    Listeners do not throw.

    ** Not modelled

    The SDKs of the vendors, the HTTP server, the pipes and the modules of NestJS, the
    metrics and applying the migrations: calls of libraries with no logic of the
    repository.  The
    schemas that only document an answer are modelled where a stored value can break them
    (the board of a run, the preference of the chat).  The connection between the endpoint
    of a live preview and the browser is not: what is copied through it are bytes.  A
    payload of another shape than the type its tool declares is refused where the code
    casts it.  The golden set of [src/security] is data for tests. *)
From stdpp Require Export base tactics list gmap strings pretty.
From Stdlib Require Export ZArith Lia.
From Stdlib Require Import Sorted.

(** Notations of the development live in this scope. *)
Declare Scope jin_scope.
Delimit Scope jin_scope with jin.

(** Lemmas that the automation may use freely. *)
Create HintDb jin.
Create Rewrite HintDb jin_run.

(** A double quote, which no Rocq string literal of this library spells. *)
Definition dq : string := String (Ascii.ascii_of_nat 34) EmptyString.

(** A string between double quotes, as the messages of the program print names. *)
Definition quoted (s : string) : string := dq +:+ s +:+ dq.

(** [truthy s] is JavaScript's truth value of a string: only the empty one is false. *)
Definition truthy (s : string) : bool :=
  match s with EmptyString => false | _ => true end.

(** [join sep l] is [l.join(sep)]. *)
Fixpoint join (sep : string) (l : list string) : string :=
  match l with
  | [] => ""
  | [x] => x
  | x :: l' => x +:+ sep +:+ join sep l'
  end.

(** ** Automation *)

(** Break every [match] of the hypothesis or the goal, clearing absurd cases. *)
Ltac break :=
  repeat first [ progress simplify_eq/= | case_match | case_decide ].

(** Conjunctions of the goal, one subgoal each. *)
Ltac splits := repeat match goal with |- _ /\ _ => split end.

(** ** Strings *)

#[global] Arguments String.append !s1 s2 / : simpl nomatch.

Lemma string_app_assoc (a b c : string) : (a +:+ b) +:+ c = a +:+ (b +:+ c).
Proof. induction a as [|x a IH]; [done|cbn; by f_equal]. Qed.

Lemma string_app_nil_r (a : string) : a +:+ "" = a.
Proof. induction a as [|x a IH]; [done|cbn; by f_equal]. Qed.

Lemma string_length_app (a b : string) :
  String.length (a +:+ b) = (String.length a + String.length b)%nat.
Proof. induction a as [|x a IH]; [done|cbn; by f_equal]. Qed.

(** Two concatenations with left parts of one length have equal parts. *)
Lemma string_app_inj_length (a b c d : string) :
  String.length a = String.length b -> a +:+ c = b +:+ d -> a = b /\ c = d.
Proof.
  revert b; induction a as [|x a IH]; intros [|y b] Hlen Heq; simpl in *;
    simplify_eq; [done|].
  destruct (IH b ltac:(lia) ltac:(done)) as [-> ->]. done.
Qed.

Lemma string_app_inj_l (a c d : string) : a +:+ c = a +:+ d -> c = d.
Proof. intros H. by apply (string_app_inj_length a a c d) in H as [_ ?]. Qed.

(** ** Lists *)

Lemma Forall_app_single {A} (P : A -> Prop) (l : list A) (x : A) :
  Forall P l -> P x -> Forall P (l ++ [x]).
Proof. intros. apply Forall_app; auto. Qed.

Lemma last_snoc_some {A} (l : list A) (x : A) : last (l ++ [x]) = Some x.
Proof. apply last_snoc. Qed.

#[export] Hint Resolve Forall_app_single : jin.

(** ** Sums over maps *)

Definition map_sum `{Countable K} {V} (f : V -> Z) (m : gmap K V) : Z :=
  map_fold (fun _ v acc => (f v + acc)%Z) 0%Z m.

Definition opt_sum {V} (f : V -> Z) (o : option V) : Z := match o with Some v => f v | None => 0%Z end.

Lemma map_sum_insert_new `{Countable K} {V} (f : V -> Z) (m : gmap K V) k v :
  m !! k = None -> map_sum f (<[k := v]> m) = (f v + map_sum f m)%Z.
Proof. intros Hk. unfold map_sum. rewrite map_fold_insert_L; [done|intros; lia|done]. Qed.

Lemma map_sum_insert `{Countable K} {V} (f : V -> Z) (m : gmap K V) k v :
  map_sum f (<[k := v]> m) = (map_sum f m - opt_sum f (m !! k) + f v)%Z.
Proof.
  destruct (m !! k) as [v0|] eqn:Hk; cbn [opt_sum].
  - rewrite <- (insert_delete_id m k v0 Hk) at 2.
    rewrite <- insert_delete_eq, !map_sum_insert_new by apply lookup_delete_eq. lia.
  - rewrite map_sum_insert_new by done. lia.
Qed.

Lemma map_sum_list `{Countable K} {V} (f : V -> Z) (m : gmap K V) :
  map_sum f m = foldr (fun v acc => f v + acc)%Z 0%Z (map_to_list m).*2.
Proof.
  unfold map_sum. rewrite map_fold_foldr.
  induction (map_to_list m) as [|[k v] l IH]; cbn; [done|]. by rewrite IH.
Qed.

Lemma map_sum_filter `{Countable K} {V} (f : V -> Z) (P : K * V -> Prop) `{!forall x, Decision (P x)}
    (m : gmap K V) :
  map_sum f (filter P m) = foldr (fun v acc => f v + acc)%Z 0%Z (filter P (map_to_list m)).*2.
Proof.
  rewrite map_sum_list, map_filter_alt.
  assert (Hnd : NoDup (filter P (map_to_list m)).*1).
  { eapply sublist_NoDup; [apply (NoDup_fst_map_to_list m)|].
    apply fmap_sublist, sublist_filter. }
  generalize (map_to_list_to_map _ Hnd). generalize (map_to_list (list_to_map (filter P (map_to_list m)) : gmap K V)).
  clear Hnd. intros l1 Hl. induction Hl as [|x l l' _ IH|x y l|l l' l'' _ IH1 _ IH2]; rewrite ?fmap_cons; cbn [foldr].
  - done.
  - by rewrite IH.
  - lia.
  - by rewrite IH1.
Qed.

(** ** Slices *)

(** Consecutive slices of [n] elements; [fuel] is at least their number. *)
Fixpoint slices {A} (fuel n : nat) (l : list A) : list (list A) :=
  match fuel, l with
  | S fuel', _ :: _ => take n l :: slices fuel' n (drop n l)
  | _, _ => []
  end.

Lemma slices_concat {A} fuel n (l : list A) :
  (0 < n)%nat -> (length l <= fuel)%nat ->
  concat (slices fuel n l) = l /\ Forall (fun s => (length s <= n)%nat) (slices fuel n l).
Proof.
  intros Hn. revert l. induction fuel as [|fuel IH]; intros l Hl; [by destruct l; [split|cbn in Hl; lia]|].
  destruct l as [|a l]; [by split|]. cbn [slices concat].
  destruct (IH (drop n (a :: l))) as [H1 H2].
  { rewrite length_drop. cbn in *. lia. }
  split; [by rewrite H1, take_drop|]. constructor; [rewrite length_take; lia|done].
Qed.

(** ** Lists filtered by a boolean test *)

Lemma Permutation_filter_bool {A} (f : A -> bool) (l l' : list A) : l ≡ₚ l' -> List.filter f l ≡ₚ List.filter f l'.
Proof.
  induction 1 as [|x l l' _ IH|x y l|l l' l'' _ IH1 _ IH2]; cbn; [done| | |by rewrite IH1].
  - destruct (f x); [by constructor|done].
  - destruct (f x), (f y); try done. apply Permutation_swap.
Qed.

Lemma StronglySorted_filter_bool {A} (R : A -> A -> Prop) (P : A -> bool) l :
  StronglySorted R l -> StronglySorted R (List.filter P l).
Proof.
  induction 1 as [|x l Hl IH Hx]; cbn; [constructor|]. destruct (P x); [|done]. constructor; [done|].
  rewrite Forall_forall in *. intros y Hy%list_elem_of_In%List.filter_In. apply Hx, list_elem_of_In. tauto.
Qed.

(** How many elements satisfy a test. *)
Fixpoint tally {A} (f : A -> bool) (l : list A) : nat :=
  match l with
  | [] => 0
  | x :: l' => (if f x then 1 else 0) + tally f l'
  end%nat.

Lemma tally_app {A} (f : A -> bool) l1 l2 : tally f (l1 ++ l2) = (tally f l1 + tally f l2)%nat.
Proof. induction l1 as [|x l1 IH]; cbn; [done|]. rewrite IH. lia. Qed.

Lemma tally_middle {A} (f : A -> bool) l1 x l2 :
  tally f (l1 ++ x :: l2) = ((if f x then 1 else 0) + tally f (l1 ++ l2))%nat.
Proof. rewrite !tally_app. cbn. lia. Qed.

Lemma tally_le {A} (f g : A -> bool) l :
  (forall x, f x = true -> g x = true) -> (tally f l <= tally g l)%nat.
Proof.
  intros H. induction l as [|x l IH]; cbn; [lia|]. specialize (H x).
  destruct (f x), (g x); first [lia | by specialize (H eq_refl)].
Qed.
