(* ===== verification/Effects.v ===== *)
(** * Effects: programs over a shared store

    The services of Jin_Core are [async] methods: each [await] of a database
    statement, of the clock or of another service is a point where other
    requests may run.  A method is modelled as a [prog]: a tree whose nodes are
    the atomic actions of the method, in order.  [run] executes one method
    alone; [pool_step] interleaves the atomic actions of any number of them.
    [throws] and [try/catch] are the exceptions of the language: the store keeps
    what the method had already written when it throws. *)
From S2P Require Import Prelude.

Section Programs.
Context {W E : Type}.

Inductive prog (A : Type) : Type :=
| Ret (a : A)
| Throw (e : E)
| Act {X : Type} (f : W -> W * X) (k : X -> prog A).

Arguments Ret {A} a.
Arguments Throw {A} e.
Arguments Act {A X} f k.

Fixpoint bind {A B} (p : prog A) (k : A -> prog B) : prog B :=
  match p with
  | Ret a => k a
  | Throw e => Throw e
  | Act f c => Act f (fun x => bind (c x) k)
  end.

(** [try { p } catch (e) { h e }] *)
Fixpoint catch {A} (p : prog A) (h : E -> prog A) : prog A :=
  match p with
  | Ret a => Ret a
  | Throw e => h e
  | Act f c => Act f (fun x => catch (c x) h)
  end.

(** [try { a = p } catch (e) { return h(e) }; return k(a)]: [h] does not guard [k]. *)
Fixpoint try_with {A B} (p : prog A) (k : A -> prog B) (h : E -> prog B) : prog B :=
  match p with
  | Ret a => k a
  | Throw e => h e
  | Act f c => Act f (fun x => try_with (c x) k h)
  end.

(** One method alone, to its end. *)
Fixpoint run {A} (p : prog A) (w : W) : W * (E + A) :=
  match p with
  | Ret a => (w, inr a)
  | Throw e => (w, inl e)
  | Act f c => let '(w', x) := f w in run (c x) w'
  end.

(** [for (const x of l) await body(x)] *)
Fixpoint for_each {X} (l : list X) (body : X -> prog unit) : prog unit :=
  match l with
  | [] => Ret tt
  | x :: l' => bind (body x) (fun _ => for_each l' body)
  end.

(** Reading the store. *)
Definition reads {X} (f : W -> X) : prog X := Act (fun w => (w, f w)) Ret.
(** Writing the store. *)
Definition writes (f : W -> W) : prog unit := Act (fun w => (f w, tt)) Ret.

(** ** Equations of [run] *)

Lemma run_bind {A B} (p : prog A) (k : A -> prog B) (w : W) :
  run (bind p k) w =
  match run p w with
  | (w', inr a) => run (k a) w'
  | (w', inl e) => (w', inl e)
  end.
Proof.
  revert w; induction p as [a|e|X f c IH]; intros w; simpl; [done..|].
  destruct (f w) as [w' x]. apply IH.
Qed.

Lemma run_catch {A} (p : prog A) (h : E -> prog A) (w : W) :
  run (catch p h) w =
  match run p w with
  | (w', inr a) => (w', inr a)
  | (w', inl e) => run (h e) w'
  end.
Proof.
  revert w; induction p as [a|e|X f c IH]; intros w; simpl; [done..|].
  destruct (f w) as [w' x]. apply IH.
Qed.

Lemma run_try_with {A B} (p : prog A) (k : A -> prog B) (h : E -> prog B) (w : W) :
  run (try_with p k h) w =
  match run p w with
  | (w', inr a) => run (k a) w'
  | (w', inl e) => run (h e) w'
  end.
Proof.
  revert w; induction p as [a|e|X f c IH]; intros w; simpl; [done..|].
  destruct (f w) as [w' x]. apply IH.
Qed.

Lemma run_reads {X} (f : W -> X) w : run (reads f) w = (w, inr (f w)).
Proof. done. Qed.

Lemma run_writes f w : run (writes f) w = (f w, inr tt).
Proof. done. Qed.

(** ** What every atomic action of a program does

    [steps R p]: each action of [p], from any store, relates the store before
    it to the store after it by [R].  This holds of [p] whatever other
    programs do between its actions. *)
Section Steps.
Context (R : W -> W -> Prop).

Fixpoint steps {A} (p : prog A) : Prop :=
  match p with
  | Ret _ | Throw _ => True
  | Act f c => (forall w, R w (f w).1) /\ forall x, steps (c x)
  end.

Lemma steps_bind {A B} (p : prog A) (k : A -> prog B) :
  steps p -> (forall a, steps (k a)) -> steps (bind p k).
Proof.
  intros Hp Hk; induction p as [a|e|X f c IH]; simpl in *; [done..|].
  destruct Hp as [Hf Hc]; split; auto.
Qed.

Lemma steps_catch {A} (p : prog A) (h : E -> prog A) :
  steps p -> (forall e, steps (h e)) -> steps (catch p h).
Proof.
  intros Hp Hk; induction p as [a|e|X f c IH]; simpl in *; [done..|].
  destruct Hp as [Hf Hc]; split; auto.
Qed.

Lemma steps_try_with {A B} (p : prog A) (k : A -> prog B) (h : E -> prog B) :
  steps p -> (forall a, steps (k a)) -> (forall e, steps (h e)) ->
  steps (try_with p k h).
Proof.
  intros Hp Hk Hh; induction p as [a|e|X f c IH]; simpl in *; [done..|].
  destruct Hp as [Hf Hc]; split; auto.
Qed.

Lemma steps_for_each {X} (l : list X) (body : X -> prog unit) :
  (forall x, steps (body x)) -> steps (for_each l body).
Proof. intros Hb; induction l; simpl; [done|apply steps_bind; auto]. Qed.

Lemma steps_run `{!Reflexive R, !Transitive R} {A} (p : prog A) (w : W) :
  steps p -> R w (run p w).1.
Proof.
  revert w; induction p as [a|e|X f c IH]; intros w Hp; simpl in *; [reflexivity..|].
  destruct Hp as [Hf Hc]. specialize (Hf w). destruct (f w) as [w' x]; simpl in *.
  etrans; [exact Hf|]. by apply IH.
Qed.
End Steps.

Lemma steps_mono {A} (R S : W -> W -> Prop) (p : prog A) :
  (forall w w', R w w' -> S w w') -> steps R p -> steps S p.
Proof. intros HRS; induction p as [a|e|X f c IH]; simpl; [done..|]. intros [Hf Hc]; eauto. Qed.

Lemma steps_and {A} (R S : W -> W -> Prop) (p : prog A) :
  steps R p -> steps S p -> steps (fun w w' => R w w' /\ S w w') p.
Proof. induction p as [a|e|X f c IH]; cbn; [done..|]. intros [Hf Hc] [Hf' Hc']. split; auto. Qed.
End Programs.

Arguments prog W E A : clear implicits.
Arguments Ret {W E A} a.
Arguments Throw {W E A} e.
Arguments Act {W E A X} f k.

Notation "x <- p ;; q" := (bind p (fun x => q))
  (at level 100, p at next level, right associativity) : jin_scope.
Notation "p ;;; q" := (bind p (fun _ => q))
  (at level 100, right associativity) : jin_scope.

(** ** Interleaving

    A configuration is the store and the remaining part of each method in
    flight.  A method may stop being scheduled for ever: that is the death of its
    process. *)
Section Interleaving.
Context {W E A : Type}.

Record config := Config { c_store : W; c_pool : list (prog W E A) }.

(** [env] is what may happen outside the methods (the clock advances);
    [client] are the methods a new request may start. *)
Context (env : W -> W -> Prop) (client : prog W E A -> Prop).

Inductive pool_step : config -> config -> Prop :=
| step_act w l1 l2 X (f : W -> W * X) (c : X -> prog W E A) :
    pool_step (Config w (l1 ++ Act f c :: l2))
              (Config (f w).1 (l1 ++ c (f w).2 :: l2))
| step_spawn w l p : client p -> pool_step (Config w l) (Config w (l ++ [p]))
| step_env w w' l : env w w' -> pool_step (Config w l) (Config w' l).

Inductive reachable (w0 : W) : config -> Prop :=
| reach_init : reachable w0 (Config w0 [])
| reach_step c c' : reachable w0 c -> pool_step c c' -> reachable w0 c'.

(** Reached through configurations of [K] only. *)
Inductive reachable_within (K : config -> Prop) (w0 : W) : config -> Prop :=
| within_init : reachable_within K w0 (Config w0 [])
| within_step c c' : reachable_within K w0 c -> pool_step c c' -> K c' -> reachable_within K w0 c'.
End Interleaving.

Arguments config W E A : clear implicits.

(** How many methods have not ended. *)
Definition in_flight {W E A} (pool : list (prog W E A)) : nat :=
  tally (fun p => match p with Act _ _ => true | _ => false end) pool.

(** A method whose result nobody reads. *)
Definition discard {W E A} (p : prog W E A) : prog W E unit := bind p (fun _ => Ret tt).

(** An invariant kept by every atomic action of every client is kept by any
    interleaving of them. *)
Section Invariants.
Context {W E A : Type} (env : W -> W -> Prop) (client : prog W E A -> Prop).
Context (I : W -> Prop).
Let keeps (w w' : W) : Prop := I w -> I w'.

Lemma pool_invariant w0 c :
  (forall p, client p -> steps keeps p) -> (forall w w', env w w' -> I w -> I w') ->
  I w0 -> reachable env client w0 c ->
  I (c_store c) /\ Forall (steps keeps) (c_pool c).
Proof.
  intros Hcl Henv H0 Hr; induction Hr as [|c c' _ [IHI IHp] Hs]; [by split|].
  destruct Hs as [w l1 l2 X f k|w l p Hp|w w' l He]; cbn in *.
  - apply Forall_app in IHp as [Hl1 Hl2]. apply Forall_cons in Hl2 as [[Hf Hk] Hl2].
    split; [by apply Hf|]. apply Forall_app; split; [done|]. by constructor.
  - split; [done|]. apply Forall_app; split; [done|]. constructor; [by apply Hcl|done].
  - split; [by eapply Henv|done].
Qed.
End Invariants.

(** What each action of every client does, each step of any interleaving does. *)
Lemma reachable_steps {W E A} (env : W -> W -> Prop) (client : prog W E A -> Prop) (R : W -> W -> Prop) w0 c :
  (forall p, client p -> steps R p) -> reachable env client w0 c -> Forall (steps R) (c_pool c).
Proof.
  intros Hcl Hr. induction Hr as [|c c' _ IH Hs]; [constructor|].
  destruct Hs as [w l1 l2 X f k|w l p Hp|w w' l He]; cbn in *; [|by apply Forall_app_single; auto|done].
  apply Forall_app in IH as [Hl1 [[Hf Hk] Hl2]%Forall_cons]. apply Forall_app. split; [done|]. by constructor.
Qed.

Lemma pool_step_steps {W E A} (env : W -> W -> Prop) (client : prog W E A -> Prop) (R : W -> W -> Prop)
    `{!Reflexive R} w0 c c' :
  (forall p, client p -> steps R p) -> (forall w w', env w w' -> R w w') ->
  reachable env client w0 c -> pool_step env client c c' -> R (c_store c) (c_store c').
Proof.
  intros Hcl Henv Hr Hs. pose proof (reachable_steps env client R w0 c Hcl Hr) as Hp.
  destruct Hs as [w l1 l2 X f k|w l p _|w w' l He]; cbn in *; [|reflexivity|by apply Henv].
  apply Forall_app in Hp as [_ [[Hf _] _]%Forall_cons]. apply Hf.
Qed.

(** Start a program, let it take its first action, read its configuration. *)
Lemma reachable_run1 {W E A} (env : W -> W -> Prop) (client : prog W E A -> Prop) w0 w l1 l2 p w' r :
  reachable env client w0 (Config w (l1 ++ p :: l2)) ->
  run p w = (w', inr r) ->
  reachable env client w0 (Config w' (l1 ++ Ret r :: l2)).
Proof.
  revert w; induction p as [a|e|X f k IH]; intros w Hr Hrun; cbn in Hrun.
  - by injection Hrun as -> ->.
  - discriminate Hrun.
  - destruct (f w) as [w1 x] eqn:Ef. apply (IH x w1); [|done].
    eapply reach_step; [exact Hr|]. 
    pose proof (step_act env client w l1 l2 X f k) as Hst. by rewrite Ef in Hst.
Qed.

(** A method of the pool may run to its end without a switch. *)
Lemma pool_run {W E A} (env : W -> W -> Prop) (client : prog W E A -> Prop) w l1 l2 p w' r :
  run p w = (w', inr r) ->
  rtc (pool_step env client) (Config w (l1 ++ p :: l2)) (Config w' (l1 ++ Ret r :: l2)).
Proof.
  revert w; induction p as [a|e|X f k IH]; intros w Hrun; cbn in Hrun.
  - by injection Hrun as -> ->.
  - discriminate Hrun.
  - destruct (f w) as [w1 x] eqn:Ef. eapply rtc_l; [|apply (IH x w1), Hrun].
    pose proof (step_act env client w l1 l2 X f k) as Hst. by rewrite Ef in Hst.
Qed.

(** ** A protocol logic for interleaved methods

    A protocol fixes, for each method in flight, a [Phase] (what it may assume
    and owes), the store assertion [holds] of a phase and the guarantee [moves]:
    the change an action may make to the store together with its phase.
    [follows ph p Q] says that [p], started in phase [ph], keeps to the protocol
    at each action and ends in a phase and with an outcome that satisfy [Q]. *)
Section Protocol.
Context {W E : Type} {Phase : Type}.
Context (holds : Phase -> W -> Prop) (moves : Phase -> W -> W -> Phase -> Prop).

Fixpoint follows {A} (ph : Phase) (p : prog W E A) (Q : Phase -> E + A -> Prop) : Prop :=
  match p with
  | Ret a => Q ph (inr a)
  | Throw e => Q ph (inl e)
  | Act f c =>
      forall w, holds ph w ->
        exists ph', moves ph w (f w).1 ph' /\ follows ph' (c (f w).2) Q
  end.

Lemma follows_mono {A} ph (p : prog W E A) (Q Q' : Phase -> E + A -> Prop) :
  follows ph p Q -> (forall ph' r, Q ph' r -> Q' ph' r) -> follows ph p Q'.
Proof.
  intros Hp HQ; revert ph Hp; induction p as [a|e|X f c IH]; intros ph Hp; simpl in *;
    [auto..|].
  intros w Hw. destruct (Hp w Hw) as (ph' & Hm & Hc). eauto.
Qed.

Lemma follows_bind {A B} ph (p : prog W E A) (k : A -> prog W E B) Q :
  follows ph p (fun ph' r =>
    match r with inr a => follows ph' (k a) Q | inl e => Q ph' (inl e) end) ->
  follows ph (bind p k) Q.
Proof.
  revert ph; induction p as [a|e|X f c IH]; intros ph Hp; simpl in *; [done..|].
  intros w Hw. destruct (Hp w Hw) as (ph' & Hm & Hc). eauto.
Qed.

Lemma follows_catch {A} ph (p : prog W E A) (h : E -> prog W E A) Q :
  follows ph p (fun ph' r =>
    match r with inr a => Q ph' (inr a) | inl e => follows ph' (h e) Q end) ->
  follows ph (catch p h) Q.
Proof.
  revert ph; induction p as [a|e|X f c IH]; intros ph Hp; simpl in *; [done..|].
  intros w Hw. destruct (Hp w Hw) as (ph' & Hm & Hc). eauto.
Qed.

Lemma follows_try_with {A B} ph (p : prog W E A) (k : A -> prog W E B) (h : E -> prog W E B) Q :
  follows ph p (fun ph' r =>
    match r with inr a => follows ph' (k a) Q | inl e => follows ph' (h e) Q end) ->
  follows ph (try_with p k h) Q.
Proof.
  revert ph; induction p as [a|e|X f c IH]; intros ph Hp; simpl in *; [done..|].
  intros w Hw. destruct (Hp w Hw) as (ph' & Hm & Hc). eauto.
Qed.

(** Actions that the phase tolerates at any point leave it as it is. *)
Lemma follows_steps {A} ph (R : W -> W -> Prop) (p : prog W E A) :
  (forall w w', holds ph w -> R w w' -> moves ph w w' ph) ->
  steps R p -> follows ph p (fun ph' _ => ph' = ph).
Proof.
  intros HR; induction p as [a|e|X f c IH]; simpl; [done..|].
  intros [Hf Hc] w Hw. exists ph. eauto.
Qed.
End Protocol.

(** ** What every atomic action of a program does, and how the program ends

    The case of one phase: [steps_to R p Q] is [steps R p] with a postcondition. *)
Section StepsTo.
Context {W E : Type} (R : W -> W -> Prop).

Definition steps_to {A} (p : prog W E A) (Q : E + A -> Prop) : Prop :=
  follows (fun (_ : unit) _ => True) (fun _ w w' _ => R w w') tt p (fun _ r => Q r).

Lemma steps_to_steps {A} (p : prog W E A) : steps R p -> steps_to p (fun _ => True).
Proof. intros Hp. eapply follows_mono; [by apply (follows_steps _ _ tt R)|done]. Qed.

Lemma steps_to_mono {A} (p : prog W E A) (Q Q' : E + A -> Prop) :
  steps_to p Q -> (forall r, Q r -> Q' r) -> steps_to p Q'.
Proof. intros Hp HQ. eapply follows_mono; [exact Hp|]. intros []. auto. Qed.

Lemma steps_to_bind {A B} (p : prog W E A) (k : A -> prog W E B) Q :
  steps_to p (fun r => match r with inr a => steps_to (k a) Q | inl e => Q (inl e) end) ->
  steps_to (bind p k) Q.
Proof. intros Hp. apply follows_bind. eapply follows_mono; [exact Hp|]. by intros [] []. Qed.

Lemma steps_to_catch {A} (p : prog W E A) (h : E -> prog W E A) Q :
  steps_to p (fun r => match r with inr a => Q (inr a) | inl e => steps_to (h e) Q end) ->
  steps_to (catch p h) Q.
Proof. intros Hp. apply follows_catch. eapply follows_mono; [exact Hp|]. by intros [] []. Qed.

(** Nothing is known of how the first part ends. *)
Lemma steps_to_any {A B} (p : prog W E A) (k : A -> prog W E B) (Q : E + B -> Prop) :
  steps R p -> (forall e, Q (inl e)) -> (forall a, steps_to (k a) Q) -> steps_to (bind p k) Q.
Proof.
  intros Hp He Hk. apply steps_to_bind. eapply steps_to_mono; [by apply steps_to_steps|].
  intros [e|a] _; auto.
Qed.

Lemma steps_to_done {A} (p : prog W E A) (Q : E + A -> Prop) :
  steps R p -> (forall r, Q r) -> steps_to p Q.
Proof. intros Hp HQ. eapply steps_to_mono; [by apply steps_to_steps|auto]. Qed.
End StepsTo.

(** Protocols compose along a map of their phases. *)
Lemma follows_lift {W E A Ph1 Ph2} (g : Ph1 -> Ph2)
    (holds1 : Ph1 -> W -> Prop) (moves1 : Ph1 -> W -> W -> Ph1 -> Prop)
    (holds2 : Ph2 -> W -> Prop) (moves2 : Ph2 -> W -> W -> Ph2 -> Prop)
    ph (p : prog W E A) Q :
  (forall ph w, holds2 (g ph) w -> holds1 ph w) ->
  (forall ph w w' ph', moves1 ph w w' ph' -> moves2 (g ph) w w' (g ph')) ->
  follows holds1 moves1 ph p Q ->
  follows holds2 moves2 (g ph) p (fun ph' r => exists ph1, ph' = g ph1 /\ Q ph1 r).
Proof.
  intros Hh Hm; revert ph; induction p as [a|e|X f c IH]; intros ph Hp; simpl in *; [eauto..|].
  intros w Hw. destruct (Hp w (Hh _ _ Hw)) as (ph' & Hmv & Hc). eauto.
Qed.

(** A loop whose body comes back to the phase it started in. *)
Lemma follows_for_each {W E X Phase} (holds : Phase -> W -> Prop)
    (moves : Phase -> W -> W -> Phase -> Prop) ph (l : list X) (body : X -> prog W E unit) :
  (forall x, x ∈ l -> follows holds moves ph (body x)
     (fun ph' r => match r with inr _ => ph' = ph | inl _ => True end)) ->
  follows holds moves ph (for_each l body)
     (fun ph' r => match r with inr _ => ph' = ph | inl _ => True end).
Proof.
  induction l as [|x l IH]; intros Hb; cbn; [done|].
  apply follows_bind. eapply follows_mono; [apply Hb; by left|].
  intros ph' [e|[]]; [done|]. intros ->. apply IH. intros y Hy. apply Hb. by right.
Qed.

(** A relation of an abstract state with the store and the phases of the methods in flight
    is kept by any interleaving of methods that follow the protocol, when each move of the
    protocol is a step of the abstract state: a forward simulation, one step for one step.
    [K] restricts the configurations, and [Bound] is what it says of the phases. *)
Section ProtocolSimulation.
Context {W E A Phase S : Type} (env : W -> W -> Prop) (client : prog W E A -> Prop).
Context (holds : Phase -> W -> Prop) (moves : Phase -> W -> W -> Phase -> Prop).
Context (Inv : S -> W -> list Phase -> Prop) (start : Phase) (stepS : S -> S -> Prop).
Context (K : config W E A -> Prop) (Bound : W -> list Phase -> Prop).
Context (Q : Phase -> E + A -> Prop).
Context (Bound_pool : forall c phs, K c ->
  Forall2 (fun ph p => follows holds moves ph p Q) phs (c_pool c) -> Bound (c_store c) phs).
Context (Inv_holds : forall s w l1 ph l2, Inv s w (l1 ++ ph :: l2) -> holds ph w).
Context (Inv_moves : forall s w w' l1 ph ph' l2,
  Bound w (l1 ++ ph :: l2) -> Inv s w (l1 ++ ph :: l2) -> moves ph w w' ph' ->
  exists s', stepS s s' /\ Inv s' w' (l1 ++ ph' :: l2)).
Context (Inv_env : forall s w w' l, env w w' -> Inv s w l -> exists s', stepS s s' /\ Inv s' w' l).
Context (Inv_spawn : forall s w l, Inv s w l -> exists s', stepS s s' /\ Inv s' w (l ++ [start])).
Context (client_follows : forall p, client p -> follows holds moves start p Q).

Definition simulated (s : S) (c : config W E A) : Prop :=
  exists phs, Inv s (c_store c) phs /\ Forall2 (fun ph p => follows holds moves ph p Q) phs (c_pool c).

Lemma protocol_simulation s c c' :
  K c -> simulated s c -> pool_step env client c c' -> exists s', stepS s s' /\ simulated s' c'.
Proof.
  intros Hk (phs & HI & Hp) Hs. pose proof (Bound_pool c phs Hk Hp) as Hb.
  destruct Hs as [w l1 l2 X f k|w l p Hcl|w w' l He]; cbn in *.
  - apply Forall2_app_inv_r in Hp as (ph1 & ph2 & H1 & H2 & ->).
    apply Forall2_cons_inv_r in H2 as (ph & ph2' & Hf & H2 & ->).
    destruct (Hf w (Inv_holds _ _ _ _ _ HI)) as (ph' & Hm & Hc).
    destruct (Inv_moves _ _ _ _ _ _ _ Hb HI Hm) as (s' & Hs & HI').
    exists s'. split; [done|]. exists (ph1 ++ ph' :: ph2'). split; [done|].
    apply Forall2_app; [done|]. by constructor.
  - destruct (Inv_spawn _ _ _ HI) as (s' & Hs & HI'). exists s'. split; [done|].
    exists (phs ++ [start]). split; [done|]. apply Forall2_app; [done|]. constructor; auto.
  - destruct (Inv_env _ _ _ _ He HI) as (s' & Hs & HI'). exists s'. split; [done|]. by exists phs.
Qed.

(** Every configuration is simulated by some state. *)
Lemma protocol_within s0 w0 c :
  Inv s0 w0 [] -> K (Config w0 []) -> reachable_within env client K w0 c ->
  K c /\ exists s, rtc stepS s0 s /\ simulated s c.
Proof.
  intros H0 Hk Hr. induction Hr as [|c c' _ [Hkc (s & Hs & Hsim)] Hstep Hk']; [split; [done|]; exists s0; split; [done|by exists []]|].
  split; [done|]. destruct (protocol_simulation s c c' Hkc Hsim Hstep) as (s' & Hs' & Hsim').
  exists s'. split; [by eapply rtc_r|done].
Qed.
End ProtocolSimulation.

(** An invariant of the store and of the phases of the methods in flight, kept
    by every move of the protocol, holds of any interleaving of methods that
    follow the protocol. *)
Section ProtocolInvariant.
Context {W E A Phase : Type} (env : W -> W -> Prop) (client : prog W E A -> Prop).
Context (holds : Phase -> W -> Prop) (moves : Phase -> W -> W -> Phase -> Prop).
Context (Inv : W -> list Phase -> Prop) (start : Phase).
Context (Inv_holds : forall w l1 ph l2, Inv w (l1 ++ ph :: l2) -> holds ph w).
Context (Inv_moves : forall w w' l1 ph ph' l2,
  Inv w (l1 ++ ph :: l2) -> moves ph w w' ph' -> Inv w' (l1 ++ ph' :: l2)).
Context (Inv_env : forall w w' l, env w w' -> Inv w l -> Inv w' l).
Context (Inv_spawn : forall w l, Inv w l -> Inv w (l ++ [start])).
Context (Q : Phase -> E + A -> Prop).
Context (client_follows : forall p, client p -> follows holds moves start p Q).

Lemma protocol_outcomes w0 c :
  Inv w0 [] -> reachable env client w0 c ->
  exists phs, Inv (c_store c) phs /\
    Forall2 (fun ph p => follows holds moves ph p Q) phs (c_pool c).
Proof.
  intros H0 Hr. induction Hr as [|c c' _ Hsim Hstep]; [by exists []|].
  destruct (protocol_simulation env client holds moves (fun _ : unit => Inv) start (fun _ _ => True)
    (fun _ => True) (fun _ _ => True) Q) with (s := tt) (c := c) (c' := c') as ([] & _ & Hs'); eauto 6.
Qed.
End ProtocolInvariant.

(** The case where the outcomes do not matter. *)
Definition protocol_invariant {W E A Phase : Type} (env : W -> W -> Prop) (client : prog W E A -> Prop)
    (holds : Phase -> W -> Prop) (moves : Phase -> W -> W -> Phase -> Prop) Inv start Hh Hm He Hs :=
  protocol_outcomes env client holds moves Inv start Hh Hm He Hs (fun _ _ => True).

(** The case of one phase: [I] is kept, and each method still ends in its postcondition. *)
Lemma steps_to_outcomes {W E A} (env : W -> W -> Prop) (client : prog W E A -> Prop) (R : W -> W -> Prop)
    (I : W -> Prop) (Q : E + A -> Prop) w0 c :
  (forall p, client p -> steps_to R p Q) ->
  (forall w w', R w w' -> I w -> I w') -> (forall w w', env w w' -> I w -> I w') ->
  I w0 -> reachable env client w0 c -> I (c_store c) /\ Forall (fun p => steps_to R p Q) (c_pool c).
Proof.
  intros Hcl HR Henv H0 Hr.
  destruct (protocol_outcomes env client (fun (_ : unit) _ => True) (fun _ w w' _ => R w w')
    (fun w _ => I w) tt) with (Q := fun (_ : unit) (r : E + A) => Q r) (w0 := w0) (c := c)
    as (phs & HI & Hp); eauto.
  split; [exact HI|]. clear -Hp. induction Hp as [|[] p phs ps Hp _ IH]; by constructor.
Qed.

Lemma steps_to_invariant {W E A} (env : W -> W -> Prop) (client : prog W E A -> Prop) (I : W -> Prop) w0 c :
  (forall p, client p -> steps_to (fun w w' => I w -> I w') p (fun _ => True)) ->
  (forall w w', env w w' -> I w -> I w') ->
  I w0 -> reachable env client w0 c -> I (c_store c).
Proof. intros Hcl Henv H0 Hr. eapply steps_to_outcomes; [exact Hcl| |exact Henv|exact H0|exact Hr]. auto. Qed.

(** ** A program on a part of the store

    [zoom get put p] runs [p] on the part of a larger store that [get] reads and
    [put] writes back. *)
Section Zoom.
Context {W V E : Type} (get : V -> W) (put : W -> V -> V).
Context (get_put : forall w v, get (put w v) = w).

Fixpoint zoom {A} (p : prog W E A) : prog V E A :=
  match p with
  | Ret a => Ret a
  | Throw e => Throw e
  | Act f c => Act (fun v => (put (f (get v)).1 v, (f (get v)).2)) (fun x => zoom (c x))
  end.

Lemma steps_zoom {A} (R : W -> W -> Prop) (S : V -> V -> Prop) (p : prog W E A) :
  (forall w' v, R (get v) w' -> S v (put w' v)) -> steps R p -> steps S (zoom p).
Proof. intros HS; induction p as [a|e|X f c IH]; cbn; [done..|]. intros [Hf Hc]; eauto. Qed.

Lemma run_zoom {A} (p : prog W E A) (v : V) :
  (forall w w' v, put w (put w' v) = put w v) -> (forall v, put (get v) v = v) ->
  run (zoom p) v = (put (run p (get v)).1 v, (run p (get v)).2).
Proof.
  intros Hpp Hpg. revert v. induction p as [a|e|X f c IH]; intros v; cbn; [by rewrite Hpg..|].
  destruct (f (get v)) as [w' x] eqn:Ef. cbn. rewrite IH, get_put, Hpp.
  by destruct (run (c x) w').
Qed.

(** A protocol on the part is a protocol on the whole. *)
Lemma follows_zoom {A Phase} (holds : Phase -> W -> Prop) (moves : Phase -> W -> W -> Phase -> Prop)
    (holds' : Phase -> V -> Prop) (moves' : Phase -> V -> V -> Phase -> Prop)
    ph (p : prog W E A) Q :
  (forall ph v, holds' ph v -> holds ph (get v)) ->
  (forall ph v w' ph', moves ph (get v) w' ph' -> moves' ph v (put w' v) ph') ->
  follows holds moves ph p Q -> follows holds' moves' ph (zoom p) Q.
Proof.
  intros Hh Hm; revert ph; induction p as [a|e|X f c IH]; intros ph Hp; cbn in *; [done..|].
  intros v Hv. destruct (Hp _ (Hh _ _ Hv)) as (ph' & Hmv & Hc). eauto.
Qed.
End Zoom.

(** ** A schedule of a pool

    [interleave sched w pool] lets the methods whose places are in [sched] take one
    action each, in that order; a method that has ended is passed over. *)
Fixpoint interleave {W E A} (sched : list nat) (w : W) (pool : list (prog W E A)) : config W E A :=
  match sched with
  | [] => Config w pool
  | i :: sched' =>
      match nth_error pool i with
      | Some (Act f c) => interleave sched' (f w).1 (firstn i pool ++ c (f w).2 :: skipn (S i) pool)
      | _ => interleave sched' w pool
      end
  end.

Lemma skipn_middle {A} (l1 : list A) x l2 : skipn (S (length l1)) (l1 ++ x :: l2) = l2.
Proof. by induction l1. Qed.

Lemma interleave_steps {W E A} (env : W -> W -> Prop) (client : prog W E A -> Prop) sched : forall w pool,
  rtc (pool_step env client) (Config w pool) (interleave sched w pool).
Proof.
  induction sched as [|i sched IH]; intros w pool; cbn [interleave]; [apply rtc_refl|].
  destruct (nth_error pool i) as [[a|e|X f c]|] eqn:Ei; [apply IH..| |apply IH].
  apply nth_error_split in Ei as (l1 & l2 & -> & <-).
  rewrite firstn_app, Nat.sub_diag, firstn_all. cbn [firstn]. rewrite app_nil_r.
  rewrite skipn_middle.
  eapply rtc_l; [apply step_act|apply IH].
Qed.

Lemma reachable_rtc {W E A} (env : W -> W -> Prop) (client : prog W E A -> Prop) w0 c c' :
  reachable env client w0 c -> rtc (pool_step env client) c c' -> reachable env client w0 c'.
Proof. intros Hr Hs. induction Hs as [|c1 c2 c3 H12 _ IH]; [done|]. apply IH. by eapply reach_step. Qed.

(** Methods started together. *)
Lemma reachable_spawned {W E A} (env : W -> W -> Prop) (client : prog W E A -> Prop) w0 pool :
  Forall client pool -> reachable env client w0 (Config w0 pool).
Proof.
  induction pool as [|p pool IH] using rev_ind; intros Hp; [apply reach_init|].
  apply Forall_app in Hp as [Hp Hq]. apply Forall_cons in Hq as [Hq _].
  eapply reach_step; [by apply IH|by apply step_spawn].
Qed.

(** The same through configurations of [K], when it only asks for a store that the methods
    keep and for no more methods than these. *)
Lemma within_spawned {W E A} (env : W -> W -> Prop) (client : prog W E A -> Prop) K w0 pool :
  Forall client pool ->
  (forall pool' : list (prog W E A), (length pool' <= length pool)%nat -> K (Config w0 pool')) ->
  reachable_within env client K w0 (Config w0 pool).
Proof.
  induction pool as [|p pool IH] using rev_ind; intros Hp Hk; [apply within_init|].
  apply Forall_app in Hp as [Hp Hq]. apply Forall_cons in Hq as [Hq _].
  eapply within_step; [apply IH; [done|]|by apply step_spawn|by apply Hk].
  intros pool' Hl. apply Hk. rewrite length_app. cbn. lia.
Qed.

Lemma interleave_within {W E A} (env : W -> W -> Prop) (client : prog W E A -> Prop) K (P : W -> Prop) w0 sched :
  forall w pool, P w -> Forall (steps (fun w w' => P w -> P w')) pool ->
  (forall w' (pool' : list (prog W E A)), P w' -> length pool' = length pool -> K (Config w' pool')) ->
  reachable_within env client K w0 (Config w pool) ->
  reachable_within env client K w0 (interleave sched w pool).
Proof.
  induction sched as [|i sched IH]; intros w pool Hw Hp Hk Hr; cbn [interleave]; [done|].
  destruct (nth_error pool i) as [[a|e|X f c]|] eqn:Ei; [by apply IH..| |by apply IH].
  apply nth_error_split in Ei as (l1 & l2 & -> & <-).
  rewrite firstn_app, Nat.sub_diag, firstn_all. cbn [firstn]. rewrite app_nil_r.
  rewrite skipn_middle.
  apply Forall_app in Hp as [H1 [[Hf Hc] H2]%Forall_cons].
  assert (Hlen : length (l1 ++ c (f w).2 :: l2) = length (l1 ++ Act f c :: l2)) by (rewrite !length_app; done).
  apply IH; [by apply Hf|by apply Forall_app; split; [|constructor]| |].
  - intros w' pool' Hw' Hl. apply Hk; [done|congruence].
  - eapply within_step; [exact Hr|apply step_act|]. apply Hk; [by apply Hf|exact Hlen].
Qed.

Lemma in_flight_length {W E A} (pool : list (prog W E A)) : (in_flight pool <= length pool)%nat.
Proof. unfold in_flight. induction pool as [|[a|e|X f k] pool IH]; cbn; lia. Qed.
