(* ===== verification/Promises.v ===== *)
(** * Promises: what [Promise.all] does with several methods in flight

    [Promise.all(tasks)] is one [await] of the method that calls it, during
    which the atomic actions of the tasks interleave.  The interleaving is an
    argument: a schedule names, action by action, the task that moves, and the
    theorems hold for every schedule.  When a task rejects, the call rejects at
    once and the other tasks go on: they are returned as the part of the program
    that keeps running in the background ([alongside]). *)
From S2P Require Import Prelude Effects.

Section Promise.
Context {W E : Type}.

Abbreviation task := (prog W E unit).

(** The first rejected task, and the others. *)
Fixpoint first_rejection (tasks : list task) : option (E * list task) :=
  match tasks with
  | [] => None
  | Throw e :: tasks' => Some (e, tasks')
  | p :: tasks' =>
      match first_rejection tasks' with
      | Some (e, rest) => Some (e, p :: rest)
      | None => None
      end
  end.

(** The end of a schedule: each task runs to its end, in order. *)
Fixpoint in_order (tasks : list task) : prog W E (option E * list task) :=
  match tasks with
  | [] => Ret (None, [])
  | p :: tasks' => try_with p (fun _ => in_order tasks') (fun e => Ret (Some e, tasks'))
  end.

(** [Promise.all(tasks)]: the error it rejects with, if it does, and the tasks
    that are still running then. *)
Fixpoint Promise_all (schedule : list nat) (tasks : list task) : prog W E (option E * list task) :=
  match first_rejection tasks with
  | Some (e, rest) => Ret (Some e, rest)
  | None =>
      match schedule with
      | [] => in_order tasks
      | i :: schedule' =>
          match tasks !! i with
          | Some (Act f c) => Act f (fun x => Promise_all schedule' (<[i := c x]> tasks))
          | _ => Promise_all schedule' tasks
          end
      end
  end.

(** A method that goes on while tasks run in the background: [None] is an
    action of the method.  What is left of the tasks when it returns goes on
    after it. *)
Fixpoint alongside {A} (schedule : list (option nat)) (background : list task) (p : prog W E A) :
    prog W E A :=
  match schedule with
  | [] => p
  | None :: schedule' =>
      match p with
      | Act f c => Act f (fun x => alongside schedule' background (c x))
      | _ => p
      end
  | Some i :: schedule' =>
      match background !! i with
      | Some (Act f c) => Act f (fun x => alongside schedule' (<[i := c x]> background) p)
      | _ => alongside schedule' background p
      end
  end.

Lemma first_rejection_some tasks e rest :
  first_rejection tasks = Some (e, rest) -> Throw e ∈ tasks /\ forall p, p ∈ rest -> p ∈ tasks.
Proof.
  revert rest. induction tasks as [|p l IH]; intros rest; cbn; [done|].
  assert (Hrec : match first_rejection l with Some (e0, r) => Some (e0, p :: r) | None => None end
                 = Some (e, rest) -> Throw e ∈ p :: l /\ forall q, q ∈ rest -> q ∈ p :: l).
  { destruct (first_rejection l) as [[e0 r]|]; [|done]. intros [= -> <-].
    destruct (IH r eq_refl) as [H1 H2]. split; [by right|].
    intros q [->|Hq]%elem_of_cons; [by left|right; auto]. }
  destruct p; [exact Hrec| |exact Hrec]. intros [= -> <-]. split; [by left|by right].
Qed.

(** ** Every action of every task *)

Lemma steps_first_rejection (R : W -> W -> Prop) tasks e rest :
  Forall (steps R) tasks -> first_rejection tasks = Some (e, rest) -> Forall (steps R) rest.
Proof.
  rewrite !Forall_forall. intros H [_ Hr]%first_rejection_some p Hp. auto.
Qed.

Lemma steps_alongside {A} (R : W -> W -> Prop) schedule background (p : prog W E A) :
  Forall (steps R) background -> steps R p -> steps R (alongside schedule background p).
Proof.
  revert background p. induction schedule as [|[i|] s IH]; intros bg p Hb Hp; cbn; [done|..].
  - destruct (bg !! i) as [[a|e|X f c]|] eqn:Ei; [by apply IH..| |by apply IH].
    rewrite Forall_lookup in Hb. destruct (Hb i _ Ei) as [Hf Hc].
    split; [done|]. intros x. apply IH; [|done].
    apply Forall_insert; [by apply Forall_lookup|apply Hc].
  - destruct p as [a|e|X f c]; [done..|]. destruct Hp as [Hf Hc]. split; [done|]. intros x. by apply IH.
Qed.

(** The tasks left over by a run of [Promise_all] do what the tasks do. *)
Lemma run_in_order_steps (R : W -> W -> Prop) `{!PreOrder R} tasks w :
  Forall (steps R) tasks ->
  exists w' oe rest, run (in_order tasks) w = (w', inr (oe, rest)) /\ R w w' /\ Forall (steps R) rest.
Proof.
  intros Hs. revert w. induction Hs as [|p l Hp Hl IH]; intros w; cbn.
  { by exists w, None, []. }
  rewrite run_try_with. pose proof (steps_run R p w Hp) as HR.
  destruct (run p w) as [w1 [e|[]]]; cbn in *.
  - by exists w1, (Some e), l.
  - destruct (IH w1) as (w' & oe & rest & -> & HR' & Hr). exists w', oe, rest. splits; [done|by etrans|done].
Qed.

Lemma run_Promise_all_steps (R : W -> W -> Prop) `{!PreOrder R} schedule tasks w :
  Forall (steps R) tasks ->
  exists w' oe rest, run (Promise_all schedule tasks) w = (w', inr (oe, rest)) /\ R w w' /\
    Forall (steps R) rest.
Proof.
  revert tasks w. induction schedule as [|i s IH]; intros tasks w Hs; cbn [Promise_all];
    (destruct (first_rejection tasks) as [[e rest]|] eqn:Ef;
     [exists w, (Some e), rest; splits; [done|done|by eapply steps_first_rejection]|]).
  - by apply run_in_order_steps.
  - destruct (tasks !! i) as [[a|e|X f c]|] eqn:Ei; [by apply IH..| |by apply IH].
    rewrite Forall_lookup in Hs. destruct (Hs i _ Ei) as [Hf Hc]. cbn [run].
    specialize (Hf w). destruct (f w) as [w1 x]. cbn in Hf.
    destruct (IH (<[i:=c x]> tasks) w1) as (w' & oe & rest & -> & HR & Hr).
    { apply Forall_insert; [by apply Forall_lookup|apply Hc]. }
    exists w', oe, rest. splits; [done|by etrans|done].
Qed.
End Promise.

(** A method that follows a protocol which the background respects. *)
Lemma run_alongside {W E A Phase} (holds : Phase -> W -> Prop) (R : W -> W -> Prop)
    schedule background ph (p : prog W E A) Q w :
  (forall ph w w', R w w' -> holds ph w -> holds ph w') -> Forall (steps R) background ->
  follows holds (fun _ _ w' ph' => holds ph' w') ph p Q -> holds ph w ->
  exists ph', holds ph' (run (alongside schedule background p) w).1 /\
              Q ph' (run (alongside schedule background p) w).2.
Proof.
  intros HR. revert background ph p w. induction schedule as [|[i|] s IH]; intros bg ph p w Hb Hp Hw.
  - cbn [alongside]. revert ph w Hp Hw.
    induction p as [a|e|X f c IH]; intros ph w Hp Hw; cbn in *; [by exists ph..|].
    destruct (Hp w Hw) as (ph' & Hw' & Hc). destruct (f w) as [w' x]. by apply (IH x ph').
  - cbn [alongside]. destruct (bg !! i) as [[a|e|X f c]|] eqn:Ei;
      [by apply (IH bg ph)|by apply (IH bg ph)| |by apply (IH bg ph)].
    rewrite Forall_lookup in Hb. destruct (Hb i _ Ei) as [Hf Hc]. cbn [run].
    specialize (Hf w). destruct (f w) as [w' x]. apply (IH _ ph); [|done|by eapply HR].
    apply Forall_insert; [by apply Forall_lookup|apply Hc].
  - cbn [alongside]. destruct p as [a|e|X f c]; [by exists ph..|]. cbn [run].
    destruct (Hp w Hw) as (ph' & Hw' & Hc). cbn in Hw'. destruct (f w) as [w' x]. by apply (IH bg ph').
Qed.

(** ** Tasks that each look after a part of the store

    Each task has an identifier and follows its own protocol: [holds i ph] is
    what the task [i] knows of the store in phase [ph], and no move of another
    task spoils it. *)
Section Threads.
Context {W E I Phase : Type}.
Context (holds : I -> Phase -> W -> Prop) (moves : I -> Phase -> W -> W -> Phase -> Prop).
Context (moves_holds : forall i ph w w' ph', moves i ph w w' ph' -> holds i ph' w').
Context (holds_stable : forall i j ph phj w w' ph',
  i <> j -> holds i ph w -> moves j phj w w' ph' -> holds i ph w').
Context (R : W -> W -> Prop) `{!PreOrder R} (ids : list I).
Context (moves_R : forall i ph w w' ph', i ∈ ids -> moves i ph w w' ph' -> R w w').
Context (Q : I -> Phase -> E + unit -> Prop).

Record thread := Thread { th_id : I; th_phase : Phase; th_task : prog W E unit }.

Definition abides (t : thread) : Prop :=
  follows (holds (th_id t)) (moves (th_id t)) (th_phase t) (th_task t) (Q (th_id t)).

Definition knows (w : W) (t : thread) : Prop := holds (th_id t) (th_phase t) w.

(** What no task of [ts] spoils. *)
Definition spares (ts : list thread) (w w' : W) : Prop :=
  forall j ph, j ∉ map th_id ts -> holds j ph w -> holds j ph w'.

(** How a call of [Promise.all] over [ts] may end. *)
Definition outcome (ts : list thread) (w' : W) (oe : option E) (rest : list (prog W E unit)) : Prop :=
  match oe with
  | None => rest = [] /\ Forall (fun i => exists ph, holds i ph w' /\ Q i ph (inr tt)) (map th_id ts)
  | Some e => exists i ph, i ∈ map th_id ts /\ Q i ph (inl e)
  end.

Lemma run_thread {A} i ph (p : prog W E A) (Q' : Phase -> E + A -> Prop) w :
  i ∈ ids -> holds i ph w -> follows (holds i) (moves i) ph p Q' ->
  exists ph', holds i ph' (run p w).1 /\ Q' ph' (run p w).2 /\ R w (run p w).1 /\
    forall j phj, j <> i -> holds j phj w -> holds j phj (run p w).1.
Proof.
  intros Hi. revert ph w. induction p as [a|e|X f c IH]; intros ph w Hh Hp; cbn in *.
  - by exists ph.
  - by exists ph.
  - destruct (Hp w Hh) as (ph1 & Hm & Hc).
    pose proof (moves_R _ _ _ _ _ Hi Hm) as HR. pose proof (moves_holds _ _ _ _ _ Hm) as Hh1.
    assert (Hs : forall j phj, j <> i -> holds j phj w -> holds j phj (f w).1) by eauto.
    destruct (f w) as [w1 x]. cbn in *.
    destruct (IH x ph1 w1 Hh1 Hc) as (ph2 & H1 & H2 & H3 & H4). exists ph2.
    splits; [done|done|by etrans|eauto].
Qed.

Lemma first_rejection_thread ts e rest :
  Forall abides ts -> first_rejection (map th_task ts) = Some (e, rest) ->
  exists i ph, i ∈ map th_id ts /\ Q i ph (inl e).
Proof.
  intros Ha [He _]%first_rejection_some. apply list_elem_of_fmap in He as (t & He & Ht).
  rewrite Forall_forall in Ha. specialize (Ha t Ht). unfold abides in Ha. rewrite <- He in Ha.
  exists (th_id t), (th_phase t). split; [|exact Ha]. apply list_elem_of_fmap. by exists t.
Qed.

Lemma run_in_order ts w :
  NoDup (map th_id ts) -> Forall (fun i => i ∈ ids) (map th_id ts) -> Forall abides ts -> Forall (knows w) ts ->
  exists w' oe rest, run (in_order (map th_task ts)) w = (w', inr (oe, rest)) /\
    R w w' /\ spares ts w w' /\ outcome ts w' oe rest.
Proof.
  revert w. induction ts as [|t ts IH]; intros w Hnd Hin Ha Hk; cbn.
  { exists w, None, []. splits; [done|done|by intros j ph|]. by split. }
  apply NoDup_cons in Hnd as [Ht Hnd]. apply Forall_cons in Hin as [Hit Hin], Ha as [Hat Ha], Hk as [Hkt Hk].
  destruct (run_thread (th_id t) (th_phase t) (th_task t) (Q (th_id t)) w) as (ph & H1 & H2 & H3 & H4);
    [done..|].
  rewrite run_try_with. destruct (run (th_task t) w) as [w1 [e|[]]]; cbn in *.
  - exists w1, (Some e), (map th_task ts). splits; [done|done| |].
    + intros j phj Hj Hh. apply H4; [|done]. intros ->. apply Hj. by left.
    + exists (th_id t), ph. split; [by left|done].
  - destruct (IH w1) as (w' & oe & rest & -> & HR & Hsp & Ho); [done..| |].
    { rewrite Forall_forall in *. intros t' Ht'. apply H4; [|by apply Hk].
      intros He. apply Ht. rewrite <- He. apply list_elem_of_fmap. by exists t'. }
    exists w', oe, rest. splits; [done|by etrans| |].
    + intros j phj Hj Hh. apply Hsp; [intros Hj'; apply Hj; by right|].
      apply H4; [|done]. intros ->. apply Hj. by left.
    + destruct oe as [e|]; cbn in *.
      * destruct Ho as (i & phi & Hi & HQ). exists i, phi. split; [by right|done].
      * destruct Ho as [-> Ho]. split; [done|]. constructor; [|done]. exists ph. split; [|done].
        by apply Hsp.
Qed.

(** For every schedule: nothing outside is touched but by [R], and when the call
    resolves every task has ended well, and what it knows then still holds. *)
Lemma run_Promise_all schedule ts w :
  NoDup (map th_id ts) -> Forall (fun i => i ∈ ids) (map th_id ts) -> Forall abides ts -> Forall (knows w) ts ->
  exists w' oe rest, run (Promise_all schedule (map th_task ts)) w = (w', inr (oe, rest)) /\
    R w w' /\ spares ts w w' /\ outcome ts w' oe rest.
Proof.
  revert ts w. induction schedule as [|n s IH]; intros ts w Hnd Hin Ha Hk; cbn [Promise_all];
    (destruct (first_rejection (map th_task ts)) as [[e rest]|] eqn:Ef;
     [exists w, (Some e), rest; splits; [done|done|by intros j ph|by eapply first_rejection_thread]|]).
  - by apply run_in_order.
  - rewrite list_lookup_fmap. destruct (ts !! n) as [t|] eqn:Et; [|by apply IH].
    cbn. destruct (th_task t) as [a|e|X f c] eqn:Ep; [by apply IH..|].
    cbn [run]. pose proof (list_elem_of_lookup_2 _ _ _ Et) as Htin.
    assert (Hat := Ha). assert (Hkt := Hk). rewrite Forall_forall in Hat, Hkt.
    specialize (Hat t Htin). specialize (Hkt t Htin). unfold abides in Hat. rewrite Ep in Hat.
    destruct (Hat w Hkt) as (ph' & Hm & Hc).
    assert (Hit : th_id t ∈ ids).
    { rewrite Forall_forall in Hin. apply Hin. apply list_elem_of_fmap. by exists t. }
    pose proof (moves_R _ _ _ _ _ Hit Hm) as HR. pose proof (moves_holds _ _ _ _ _ Hm) as Hh.
    assert (Hs : forall j phj, j <> th_id t -> holds j phj w -> holds j phj (f w).1) by eauto.
    destruct (f w) as [w1 x]. cbn in *.
    set (t' := Thread (th_id t) ph' (c x)).
    assert (Hids : map th_id (<[n:=t']> ts) = map th_id ts).
    { etransitivity; [apply (list_fmap_insert th_id)|]. cbn. apply list_insert_id.
      by rewrite list_lookup_fmap, Et. }
    assert (Hkt' : Forall (knows w1) (<[n:=t']> ts)).
    { apply Forall_lookup_2. intros m u Hu. destruct (decide (m = n)) as [->|Hmn].
      - rewrite list_lookup_insert_eq in Hu by (by eapply lookup_lt_Some). injection Hu as <-. exact Hh.
      - rewrite list_lookup_insert_ne in Hu by done. rewrite Forall_lookup in Hk.
        apply Hs; [|by eapply Hk]. intros He. apply Hmn. apply (NoDup_lookup _ m n (th_id t) Hnd).
        + change (map th_id ts) with (th_id <$> ts). by rewrite list_lookup_fmap, Hu, <- He.
        + change (map th_id ts) with (th_id <$> ts). by rewrite list_lookup_fmap, Et. }
    destruct (IH (<[n:=t']> ts) w1) as (w' & oe & rest & Hrun & HR' & Hsp & Ho);
      [by rewrite Hids|by rewrite Hids|by apply Forall_insert|done|].
    exists w', oe, rest.
    replace (<[n:=c x]> (map th_task ts)) with (map th_task (<[n:=t']> ts))
      by apply (list_fmap_insert th_task).
    splits; [done|by etrans| |].
    + intros j phj Hj Hj'. apply Hsp; [by rewrite Hids|]. apply Hs; [|done].
      intros ->. apply Hj. apply list_elem_of_fmap. by exists t.
    + unfold outcome in *. by rewrite Hids in Ho.
Qed.
End Threads.
