(* ===== verification/Js.v ===== *)
(** * Js: the part of the JavaScript standard library the services use

    JSON values and [JSON.stringify], [Date.prototype.toISOString], decimal
    printing, [Math.ceil]/[Math.trunc] on exact numbers.  A JavaScript string is
    a [string] of bytes: its code points in UTF-8, where a lone surrogate (a unit
    of UTF-16 that is not part of a pair, as [slice] leaves when it cuts one) is
    written in the same way, as three bytes that UTF-8 itself does not allow.
    Numbers are exact. *)
From S2P Require Import Prelude.
From Stdlib Require Import Ascii String.
Open Scope stdpp_scope.
Local Open Scope Z_scope.

(** ** JSON *)

#[warnings="-register-all"]
Inductive json :=
| JNull
| JBool (b : bool)
| JNum (n : Z)
| JStr (s : string)
| JArr (l : list json)
| JObj (l : list (string * json)).

(** One code unit inside a JSON string literal. *)
Definition hex_digit (n : nat) : ascii :=
  match n with
  | 0 => "0" | 1 => "1" | 2 => "2" | 3 => "3" | 4 => "4" | 5 => "5" | 6 => "6" | 7 => "7"
  | 8 => "8" | 9 => "9" | 10 => "a" | 11 => "b" | 12 => "c" | 13 => "d" | 14 => "e" | _ => "f"
  end%char%nat.

Definition escape_char (c : ascii) : string :=
  let n := nat_of_ascii c in
  let esc (x : ascii) := String "\" (String x "") in
  if (n =? 8)%nat then esc "b"%char
  else if (n =? 9)%nat then esc "t"%char
  else if (n =? 10)%nat then esc "n"%char
  else if (n =? 12)%nat then esc "f"%char
  else if (n =? 13)%nat then esc "r"%char
  else if (n =? 34)%nat then esc (ascii_of_nat 34)
  else if (n =? 92)%nat then esc (ascii_of_nat 92)
  else if (n <? 32)%nat then
    "\u00" +:+ String (hex_digit (n / 16)) (String (hex_digit (n mod 16)) "")
  else String c "".

(** The bytes of a lone surrogate. *)
Definition surrogate_bytes (a b c : ascii) : bool :=
  let n := nat_of_ascii b in let m := nat_of_ascii c in
  ((nat_of_ascii a =? 237) && (160 <=? n) && (n <=? 191) && (128 <=? m) && (m <=? 191))%nat.

(** Its escape: a backslash, [u] and its four hexadecimal digits, the first of which is [d]. *)
Definition escape_surrogate (b c : ascii) : string :=
  let n := (nat_of_ascii b - 128)%nat in let m := (nat_of_ascii c - 128)%nat in
  "\ud" +:+ String (hex_digit (n / 4)) (String (hex_digit (n mod 4 * 4 + m / 16))
    (String (hex_digit (m mod 16)) "")).

(** [JSON.stringify] is well formed: it writes no lone surrogate. *)
Fixpoint escape (s : string) : string :=
  match s with
  | EmptyString => ""
  | String c s' =>
      match s' with
      | String c2 (String c3 r) =>
          if surrogate_bytes c c2 c3 then escape_surrogate c2 c3 +:+ escape r
          else escape_char c +:+ escape s'
      | _ => escape_char c +:+ escape s'
      end
  end.

(** What reading the UTF-8 of a string gives: each lone surrogate is written as U+FFFD. *)
Fixpoint to_well_formed (s : string) : string :=
  match s with
  | EmptyString => ""
  | String c s' =>
      match s' with
      | String c2 (String c3 r) =>
          if surrogate_bytes c c2 c3
          then String (ascii_of_nat 239) (String (ascii_of_nat 191) (String (ascii_of_nat 189) (to_well_formed r)))
          else String c (to_well_formed s')
      | _ => String c (to_well_formed s')
      end
  end.

Definition well_formed (s : string) : Prop := to_well_formed s = s.

(** [JSON.stringify] of a string. *)
Definition json_quote (s : string) : string := dq +:+ escape s +:+ dq.

Fixpoint stringify (v : json) : string :=
  match v with
  | JNull => "null"
  | JBool b => if b then "true" else "false"
  | JNum n => pretty n
  | JStr s => json_quote s
  | JArr l => "[" +:+ join "," (map stringify l) +:+ "]"
  | JObj l =>
      "{" +:+ join "," (map (fun kv => json_quote kv.1 +:+ ":" +:+ stringify kv.2) l) +:+ "}"
  end.

(** A column that may be [null]. *)
Definition json_opt (o : option string) : json :=
  match o with Some s => JStr s | None => JNull end.

(** ** Dates *)

(** [w] decimal digits of [n], zero padded. *)
Fixpoint digits (w : nat) (n : Z) : string :=
  match w with
  | O => ""
  | S w' => digits w' (n / 10) +:+ String (ascii_of_nat (48 + Z.to_nat (n mod 10))) ""
  end.

(** Year, month (1-12) and day (1-31) of the [z]-th day after 1970-01-01, in the
    proleptic Gregorian calendar.  Years start in March while counting. *)
Definition civil_of_days (z : Z) : Z * Z * Z :=
  let z := z + 719468 in
  let era := z / 146097 in
  let doe := z mod 146097 in
  let century := Z.min (doe / 36524) 3 in
  let doc := doe - 36524 * century in
  let quad := Z.min (doc / 1461) 24 in
  let doq := doc - 1461 * quad in
  let yoq := Z.min (doq / 365) 3 in
  let doy := doq - 365 * yoq in
  let mp := (5 * doy + 2) / 153 in
  let d := doy - (153 * mp + 2) / 5 + 1 in
  let m := if mp <? 10 then mp + 3 else mp - 9 in
  let y := 400 * era + 100 * century + 4 * quad + yoq in
  (if m <=? 2 then y + 1 else y, m, d).

Definition days_of_civil (ymd : Z * Z * Z) : Z :=
  let '(y, m, d) := ymd in
  let y := if m <=? 2 then y - 1 else y in
  let era := y / 400 in
  let yoe := y mod 400 in
  let mp := if 2 <? m then m - 3 else m + 9 in
  let doy := (153 * mp + 2) / 5 + d - 1 in
  let doe := 36524 * (yoe / 100) + 1461 * (yoe mod 100 / 4) + 365 * (yoe mod 4) + doy in
  146097 * era + doe - 719468.

Definition ms_per_day : Z := 86400000.

(** [toISOString] of the instant [t] (milliseconds since the epoch); years
    outside 0-9999 print with a sign and six digits. *)
Definition year_string (y : Z) : string :=
  if (0 <=? y) && (y <=? 9999) then digits 4 y
  else if y <? 0 then "-" +:+ digits 6 (- y) else "+" +:+ digits 6 y.

Definition to_iso_string (t : Z) : string :=
  let '(y, m, d) := civil_of_days (t / ms_per_day) in
  let r := t mod ms_per_day in
  year_string y +:+ "-" +:+ digits 2 m +:+ "-" +:+ digits 2 d +:+ "T" +:+
  digits 2 (r / 3600000) +:+ ":" +:+ digits 2 (r / 60000 mod 60) +:+ ":" +:+
  digits 2 (r / 1000 mod 60) +:+ "." +:+ digits 3 (r mod 1000) +:+ "Z".

(** Instants whose year prints with four digits. *)
Definition four_digit_year (t : Z) : Prop := -62167219200000 <= t < 253402300800000.

(** ** Numbers *)

(** [Math.ceil(n / d)] for integers, [0 < d]. *)
Definition ceil_div (n d : Z) : Z := - ((- n) / d).

(** ** JSON strings can be read back *)

(** The value of a hexadecimal digit. *)
Definition hex_value (c : ascii) : nat :=
  let n := nat_of_ascii c in if (n <? 58)%nat then (n - 48)%nat else (n - 87)%nat.

(** The first character of an escaped string, and the rest. *)
Definition unescape_char (s : string) : option (string * string) :=
  match s with
  | String "\" (String "u" (String "d" (String x (String y (String z r))))) =>
      let n := (4 * hex_value x + hex_value y / 4)%nat in
      let m := (hex_value y mod 4 * 16 + hex_value z)%nat in
      Some (String (ascii_of_nat 237) (String (ascii_of_nat (n + 128)) (String (ascii_of_nat (m + 128)) "")), r)
  | String "\" (String "u" (String _ (String _ (String h (String l r))))) =>
      Some (String (ascii_of_nat (16 * hex_value h + hex_value l)) "", r)
  | String "\" (String c r) =>
      let n := nat_of_ascii c in
      Some (String (if (n =? 98)%nat then ascii_of_nat 8 else if (n =? 116)%nat then ascii_of_nat 9
            else if (n =? 110)%nat then ascii_of_nat 10 else if (n =? 102)%nat then ascii_of_nat 12
            else if (n =? 114)%nat then ascii_of_nat 13 else c) "", r)
  | String c r => if (nat_of_ascii c =? 34)%nat then None else Some (String c "", r)
  | EmptyString => None
  end.

Lemma unescape_escape_char c r : unescape_char (escape_char c +:+ r) = Some (String c "", r).
Proof. by destruct c as [[] [] [] [] [] [] [] []]. Qed.

Lemma hex_value_digit n : (n < 16)%nat -> hex_value (hex_digit n) = n.
Proof. intros Hn. do 16 (destruct n as [|n]; [reflexivity|]). lia. Qed.

Lemma unescape_escape_surrogate a b c r :
  surrogate_bytes a b c = true ->
  unescape_char (escape_surrogate b c +:+ r) = Some (String a (String b (String c "")), r).
Proof.
  unfold surrogate_bytes. intros H. rewrite !andb_true_iff, Nat.eqb_eq, !Nat.leb_le in H.
  destruct H as ((((Ha & Hb) & Hb') & Hc) & Hc').
  assert (D : forall n k, (0 < k)%nat -> n = (k * (n / k) + n mod k)%nat /\ (n mod k < k)%nat)
    by (intros; split; [by apply Nat.div_mod_eq|apply Nat.mod_upper_bound; lia]).
  destruct (D (nat_of_ascii b - 128)%nat 4%nat ltac:(lia)) as [E1 B1].
  destruct (D (nat_of_ascii c - 128)%nat 16%nat ltac:(lia)) as [E2 B2].
  unfold escape_surrogate. cbn [append unescape_char]. rewrite !hex_value_digit by lia.
  assert (M : forall u v, (v < 4 -> (u * 4 + v) / 4 = u /\ (u * 4 + v) mod 4 = v)%nat).
  { intros u v Hv. pose proof (Nat.div_mod_eq (u * 4 + v) 4).
    pose proof (Nat.mod_upper_bound (u * 4 + v) 4 ltac:(lia)). lia. }
  destruct (M ((nat_of_ascii b - 128) mod 4) ((nat_of_ascii c - 128) / 16) ltac:(lia))%nat as [-> ->].
  repeat f_equal.
  - rewrite <- Ha. apply ascii_nat_embedding.
  - rewrite <- E1. replace (nat_of_ascii b - 128 + 128)%nat with (nat_of_ascii b) by lia. apply ascii_nat_embedding.
  - rewrite (Nat.mul_comm _ 16), <- E2.
    replace (nat_of_ascii c - 128 + 128)%nat with (nat_of_ascii c) by lia. apply ascii_nat_embedding.
Qed.

(** An escaped string starts with the escape of its first character. *)
Lemma unescape_escape s r :
  s <> "" -> exists piece rest, s = piece +:+ rest /\ (String.length rest < String.length s)%nat /\
    unescape_char (escape s +:+ r) = Some (piece, escape rest +:+ r).
Proof.
  destruct s as [|c s]; [done|]. intros _.
  assert (Hchar : escape (String c s) = escape_char c +:+ escape s -> exists piece rest,
    String c s = piece +:+ rest /\ (String.length rest < String.length (String c s))%nat /\
    unescape_char (escape (String c s) +:+ r) = Some (piece, escape rest +:+ r)).
  { intros ->. exists (String c ""), s. rewrite string_app_assoc, unescape_escape_char.
    splits; [done|cbn; lia|done]. }
  destruct s as [|c2 [|c3 s]]; [by apply Hchar..|].
  destruct (surrogate_bytes c c2 c3) eqn:E; [clear Hchar|apply Hchar; cbn [escape]; by rewrite E].
  exists (String c (String c2 (String c3 ""))), s. cbn [escape]. rewrite E, string_app_assoc.
  rewrite (unescape_escape_surrogate c) by done. splits; [done|cbn; lia|done].
Qed.

(** A quoted string followed by anything determines the string and the rest. *)
Lemma escape_dq_inj (s1 s2 r1 r2 : string) :
  escape s1 +:+ dq +:+ r1 = escape s2 +:+ dq +:+ r2 -> s1 = s2 /\ r1 = r2.
Proof.
  remember (String.length s1) as n eqn:Hn. revert s1 s2 Hn.
  induction (lt_wf n) as [n _ IH]; intros s1 s2 -> H.
  destruct (decide (s1 = "")) as [->|N1], (decide (s2 = "")) as [->|N2].
  - by apply (string_app_inj_l dq) in H.
  - destruct (unescape_escape s2 (dq +:+ r2) N2) as (? & ? & _ & _ & E). rewrite <- H in E. discriminate E.
  - destruct (unescape_escape s1 (dq +:+ r1) N1) as (? & ? & _ & _ & E). rewrite H in E. discriminate E.
  - destruct (unescape_escape s1 (dq +:+ r1) N1) as (p1 & t1 & -> & Hl & E1).
    destruct (unescape_escape s2 (dq +:+ r2) N2) as (p2 & t2 & -> & _ & E2).
    rewrite H, E2 in E1. injection E1 as -> E1. symmetry in E1.
    by destruct (IH _ Hl t1 t2 eq_refl E1) as [-> ->].
Qed.

Lemma json_quote_inj (s1 s2 r1 r2 : string) :
  json_quote s1 +:+ r1 = json_quote s2 +:+ r2 -> s1 = s2 /\ r1 = r2.
Proof.
  unfold json_quote; rewrite !string_app_assoc; intros H.
  apply string_app_inj_l in H. by apply escape_dq_inj.
Qed.

Lemma json_opt_inj (o1 o2 : option string) (r1 r2 : string) :
  stringify (json_opt o1) +:+ r1 = stringify (json_opt o2) +:+ r2 -> o1 = o2 /\ r1 = r2.
Proof.
  destruct o1 as [s1|], o2 as [s2|]; cbn [json_opt stringify]; intros H.
  - by apply json_quote_inj in H as [-> ->].
  - discriminate H.
  - discriminate H.
  - by apply string_app_inj_l in H.
Qed.

(** Half of the pair of an emoji, as [slice] may leave it, is escaped; where UTF-8 is
    written it is U+FFFD. *)
Definition half_emoji : string :=
  String (ascii_of_nat 237) (String (ascii_of_nat 160) (String (ascii_of_nat 189) "")).
Example json_quote_half : escape half_emoji = "\ud83d".
Proof. reflexivity. Qed.
Example half_emoji_read : to_well_formed ("a" +:+ half_emoji +:+ "é") = "a�é".
Proof. reflexivity. Qed.

(** An ASCII character is no part of a surrogate: what is on each side of it is read alone. *)
Lemma surrogate_bytes_ascii a b c :
  (nat_of_ascii a < 128 \/ nat_of_ascii b < 128 \/ nat_of_ascii c < 128)%nat -> surrogate_bytes a b c = false.
Proof.
  intros H. unfold surrogate_bytes. rewrite !andb_false_iff, Nat.eqb_neq, !Nat.leb_gt. lia.
Qed.

Lemma to_well_formed_cons c s :
  (nat_of_ascii c < 128)%nat -> to_well_formed (String c s) = String c (to_well_formed s).
Proof. intros Hc. destruct s as [|c2 [|c3 s]]; [done..|]. cbn [to_well_formed]. by rewrite surrogate_bytes_ascii by auto. Qed.

Lemma to_well_formed_around a c r :
  (nat_of_ascii c < 128)%nat ->
  to_well_formed (a +:+ String c r) = to_well_formed a +:+ String c (to_well_formed r).
Proof.
  intros Hc. remember (String.length a) as n eqn:Hn. revert a Hn.
  induction (lt_wf n) as [n _ IH]. intros a ->.
  destruct a as [|x [|y [|z a]]].
  - by apply to_well_formed_cons.
  - cbn [append]. rewrite <- (to_well_formed_cons c r) by done. destruct r as [|d r]; [done|].
    change (to_well_formed (String x (String c (String d r)))) with
      (if surrogate_bytes x c d
       then String (ascii_of_nat 239) (String (ascii_of_nat 191) (String (ascii_of_nat 189) (to_well_formed r)))
       else String x (to_well_formed (String c (String d r)))).
    by rewrite surrogate_bytes_ascii by auto.
  - specialize (IH 1%nat ltac:(cbn; lia) (String y "") eq_refl).
    change (String x (String y "") +:+ String c r) with (String x (String y (String c r))).
    change (to_well_formed (String x (String y (String c r)))) with
      (if surrogate_bytes x y c
       then String (ascii_of_nat 239) (String (ascii_of_nat 191) (String (ascii_of_nat 189) (to_well_formed r)))
       else String x (to_well_formed (String y (String c r)))).
    rewrite surrogate_bytes_ascii by auto. cbn [append] in IH. by rewrite IH.
  - cbn [append]. change (to_well_formed (String x (String y (String z ?s)))) with
      (if surrogate_bytes x y z
       then String (ascii_of_nat 239) (String (ascii_of_nat 191) (String (ascii_of_nat 189) (to_well_formed s)))
       else String x (to_well_formed (String y (String z s)))).
    destruct (surrogate_bytes x y z).
    + by rewrite (IH (String.length a) ltac:(cbn; lia) a eq_refl).
    + pose proof (IH (String.length (String y (String z a))) ltac:(cbn; lia) (String y (String z a)) eq_refl) as H.
      cbn [append] in H. by rewrite H.
Qed.

(** ** Dates can be read back *)

Lemma digits_length w n : String.length (digits w n) = w.
Proof.
  revert n; induction w as [|w IH]; intros n; [done|].
  cbn [digits]; rewrite string_length_app, IH; cbn; lia.
Qed.

Lemma digits_inj w n m :
  0 <= n < 10 ^ Z.of_nat w -> 0 <= m < 10 ^ Z.of_nat w -> digits w n = digits w m -> n = m.
Proof.
  revert n m; induction w as [|w IH]; intros n m Hn Hm H; [cbn in *; lia|].
  cbn [digits] in H. rewrite Nat2Z.inj_succ, Z.pow_succ_r in Hn, Hm by lia.
  apply string_app_inj_length in H as [Hd Hc]; [|by rewrite !digits_length].
  apply IH in Hd; [|split; [apply Z.div_pos|apply Z.div_lt_upper_bound]; lia..].
  injection Hc as Hc. apply (f_equal nat_of_ascii) in Hc.
  pose proof (Z.mod_pos_bound n 10 ltac:(lia)). pose proof (Z.mod_pos_bound m 10 ltac:(lia)).
  rewrite !nat_ascii_embedding in Hc by lia.
  rewrite (Z.div_mod n 10), (Z.div_mod m 10) by lia. lia.
Qed.

Ltac div_mod_lia := Z.div_mod_to_equations; lia.

Lemma civil_of_days_bounds z y m d :
  civil_of_days z = (y, m, d) -> 1 <= m <= 12 /\ 1 <= d <= 31.
Proof.
  unfold civil_of_days; intros [= <- <- <-].
  set (doe := (z + 719468) mod 146097).
  assert (0 <= doe < 146097) by (apply Z.mod_pos_bound; lia).
  set (c := Z.min (doe / 36524) 3). assert (0 <= c <= 3 /\ 0 <= doe - 36524 * c <= 36524) by (subst c; div_mod_lia).
  set (doc := doe - 36524 * c) in *.
  set (q := Z.min (doc / 1461) 24). assert (0 <= q <= 24 /\ 0 <= doc - 1461 * q <= 1460) by (subst q; div_mod_lia).
  set (doq := doc - 1461 * q) in *.
  set (yq := Z.min (doq / 365) 3). assert (0 <= yq <= 3 /\ 0 <= doq - 365 * yq <= 365) by (subst yq; div_mod_lia).
  set (doy := doq - 365 * yq) in *. clearbody doy.
  destruct (_ <? _) eqn:E; div_mod_lia.
Qed.

Lemma days_of_civil_of_days z : days_of_civil (civil_of_days z) = z.
Proof.
  unfold civil_of_days, days_of_civil.
  assert (Hz : z + 719468 = 146097 * ((z + 719468) / 146097) + (z + 719468) mod 146097)
    by (apply Z.div_mod; lia).
  set (era := (z + 719468) / 146097) in *. set (doe := (z + 719468) mod 146097) in *.
  assert (0 <= doe < 146097) by (apply Z.mod_pos_bound; lia).
  set (c := Z.min (doe / 36524) 3). assert (0 <= c <= 3 /\ 0 <= doe - 36524 * c <= 36524) by (subst c; div_mod_lia).
  set (doc := doe - 36524 * c) in *.
  set (q := Z.min (doc / 1461) 24). assert (0 <= q <= 24 /\ 0 <= doc - 1461 * q <= 1460) by (subst q; div_mod_lia).
  set (doq := doc - 1461 * q) in *.
  set (yq := Z.min (doq / 365) 3). assert (0 <= yq <= 3 /\ 0 <= doq - 365 * yq <= 365) by (subst yq; div_mod_lia).
  set (doy := doq - 365 * yq) in *.
  set (mp := (5 * doy + 2) / 153). assert (0 <= mp <= 11) by (subst mp; clearbody doy; div_mod_lia).
  set (y := 400 * era + 100 * c + 4 * q + yq).
  assert (Hy : y / 400 = era /\ y mod 400 = 100 * c + 4 * q + yq).
  { assert (y = era * 400 + (100 * c + 4 * q + yq)) as -> by lia.
    rewrite Z.div_add_l, Z.div_small by lia. rewrite (Z.add_comm (era * 400)), Z.mod_add, Z.mod_small by lia. lia. }
  assert (Hyoe : (100 * c + 4 * q + yq) / 100 = c /\ (100 * c + 4 * q + yq) mod 100 / 4 = q
    /\ (100 * c + 4 * q + yq) mod 4 = yq) by (clear - H0 H1 H2; div_mod_lia).
  set (y' := if (if mp <? 10 then mp + 3 else mp - 9) <=? 2 then y + 1 else y).
  cbv zeta. fold mp. fold y'.
  replace (if (if mp <? 10 then mp + 3 else mp - 9) <=? 2 then y' - 1 else y') with y
    by (subst y'; destruct (mp <? 10); case_match; lia).
  destruct Hy as [-> ->]. destruct Hyoe as (-> & -> & ->).
  replace (if 2 <? (if mp <? 10 then mp + 3 else mp - 9)
           then (if mp <? 10 then mp + 3 else mp - 9) - 3
           else (if mp <? 10 then mp + 3 else mp - 9) + 9) with mp
    by (destruct (mp <? 10) eqn:E; case_match; lia).
  lia.
Qed.

Lemma civil_year_bounds z y m d :
  -719528 <= z < 2932897 -> civil_of_days z = (y, m, d) -> 0 <= y <= 9999.
Proof.
  unfold civil_of_days; intros Hz [= <- <- <-].
  assert (Hdm : z + 719468 = 146097 * ((z + 719468) / 146097) + (z + 719468) mod 146097)
    by (apply Z.div_mod; lia).
  set (era := (z + 719468) / 146097) in *. set (doe := (z + 719468) mod 146097) in *.
  assert (0 <= doe < 146097) by (apply Z.mod_pos_bound; lia).
  set (c := Z.min (doe / 36524) 3). assert (0 <= c <= 3 /\ 0 <= doe - 36524 * c <= 36524) by (subst c; div_mod_lia).
  set (doc := doe - 36524 * c) in *.
  set (q := Z.min (doc / 1461) 24). assert (0 <= q <= 24 /\ 0 <= doc - 1461 * q <= 1460) by (subst q; div_mod_lia).
  set (doq := doc - 1461 * q) in *.
  set (yq := Z.min (doq / 365) 3). assert (0 <= yq <= 3 /\ 0 <= doq - 365 * yq <= 365) by (subst yq; div_mod_lia).
  set (doy := doq - 365 * yq) in *.
  assert (Hmp : (5 * doy + 2) / 153 < 10 <-> doy < 306) by (clearbody doy; div_mod_lia).
  assert (-1 <= era <= 24) by lia.
  destruct (Z.ltb_spec ((5 * doy + 2) / 153) 10); case_match; div_mod_lia.
Qed.

Lemma year_string_inj y1 y2 r1 r2 :
  0 <= y1 <= 9999 -> 0 <= y2 <= 9999 ->
  year_string y1 +:+ r1 = year_string y2 +:+ r2 -> y1 = y2 /\ r1 = r2.
Proof.
  intros H1 H2. unfold year_string.
  assert ((0 <=? y1) && (y1 <=? 9999) = true) as -> by lia.
  assert ((0 <=? y2) && (y2 <=? 9999) = true) as -> by lia.
  intros H. apply string_app_inj_length in H as [H ->]; [|by rewrite !digits_length].
  split; [|done]. apply (digits_inj 4) in H; cbn; lia.
Qed.

Lemma digits_app_inj w n1 n2 r1 r2 :
  0 <= n1 < 10 ^ Z.of_nat w -> 0 <= n2 < 10 ^ Z.of_nat w ->
  digits w n1 +:+ r1 = digits w n2 +:+ r2 -> n1 = n2 /\ r1 = r2.
Proof.
  intros H1 H2 H. apply string_app_inj_length in H as [H ->]; [|by rewrite !digits_length].
  split; [|done]. by apply (digits_inj w).
Qed.

(** The ISO form of an instant determines the instant. *)
Lemma to_iso_string_inj t1 t2 :
  four_digit_year t1 -> four_digit_year t2 -> to_iso_string t1 = to_iso_string t2 -> t1 = t2.
Proof.
  unfold four_digit_year, to_iso_string, ms_per_day; intros R1 R2.
  pose proof (days_of_civil_of_days (t1 / 86400000)) as D1.
  pose proof (days_of_civil_of_days (t2 / 86400000)) as D2.
  destruct (civil_of_days (t1 / 86400000)) as [[y1 m1] d1] eqn:C1.
  destruct (civil_of_days (t2 / 86400000)) as [[y2 m2] d2] eqn:C2.
  assert (Y1 : 0 <= y1 <= 9999) by (apply civil_year_bounds in C1; [done|div_mod_lia]).
  assert (Y2 : 0 <= y2 <= 9999) by (apply civil_year_bounds in C2; [done|div_mod_lia]).
  apply civil_of_days_bounds in C1 as [Hm1 Hd1], C2 as [Hm2 Hd2].
  pose proof (Z.mod_pos_bound t1 86400000 ltac:(lia)) as B1.
  pose proof (Z.mod_pos_bound t2 86400000 ltac:(lia)) as B2.
  pose proof (Z.div_mod t1 86400000 ltac:(lia)) as M1.
  pose proof (Z.div_mod t2 86400000 ltac:(lia)) as M2.
  set (u1 := t1 mod 86400000) in *. set (u2 := t2 mod 86400000) in *.
  intros H. apply year_string_inj in H as [-> H]; [|done..]. apply string_app_inj_l in H.
  apply (digits_app_inj 2) in H as [-> H]; [|cbn; lia..]. apply string_app_inj_l in H.
  apply (digits_app_inj 2) in H as [-> H]; [|cbn; lia..]. apply string_app_inj_l in H.
  apply (digits_app_inj 2) in H as [E1 H]; [|cbn; div_mod_lia..]. apply string_app_inj_l in H.
  apply (digits_app_inj 2) in H as [E2 H]; [|cbn; div_mod_lia..]. apply string_app_inj_l in H.
  apply (digits_app_inj 2) in H as [E3 H]; [|cbn; div_mod_lia..]. apply string_app_inj_l in H.
  apply (digits_app_inj 3) in H as [E4 _]; [|cbn; div_mod_lia..].
  assert (u1 = u2) by (clearbody u1 u2; clear - E1 E2 E3 E4 B1 B2; div_mod_lia).
  congruence.
Qed.

Example to_iso_string_epoch : to_iso_string 1790035200123 = "2026-09-22T00:00:00.123Z".
Proof. reflexivity. Qed.

(** ** node:crypto

    [createHash('sha256').update(s).digest('hex')] is not code of the
    repository: it is a parameter, with its documented output length as a law. *)
Class NodeCrypto := { sha256hex : string -> string }.
Class NodeCryptoLaws `{NodeCrypto} := {
  sha256hex_length : forall s, String.length (sha256hex s) = 64%nat
}.

(** ** Decimal numerals: [BigInt(s)] on the strings that [toString] prints *)

Definition digit_value (c : ascii) : option Z :=
  let n := Z.of_nat (nat_of_ascii c) in
  if (48 <=? n) && (n <=? 57) then Some (n - 48) else None.

Fixpoint parse_digits (acc : Z) (s : string) : option Z :=
  match s with
  | EmptyString => Some acc
  | String c s' =>
      match digit_value c with
      | Some d => parse_digits (10 * acc + d) s'
      | None => None
      end
  end.

(** A decimal numeral with an optional minus sign; [None] is the [SyntaxError]. *)
Definition parse_bigint (s : string) : option Z :=
  match s with
  | EmptyString => Some 0
  | String "-" s' => if truthy s' then option_map Z.opp (parse_digits 0 s') else None
  | _ => parse_digits 0 s
  end.

Lemma parse_digits_pretty_go (x : N) (s : string) :
  parse_digits 0 (pretty_N_go x s) = parse_digits (Z.of_N x) s.
Proof.
  revert s; induction (N.lt_wf_0 x) as [x _ IH]; intros s.
  destruct (decide (x = 0)%N) as [->|Hx]; [done|].
  rewrite pretty_N_go_step by lia.
  rewrite IH by (apply N.div_lt; lia).
  assert (Hd : digit_value (pretty_N_char (x `mod` 10)) = Some (Z.of_N (x `mod` 10))).
  { assert (x `mod` 10 < 10)%N as Hlt by (apply N.mod_lt; lia).
    revert Hlt; generalize (x `mod` 10)%N as d; intros d Hd.
    destruct d as [|p]; [done|].
    do 9 (destruct p as [p|p|]; try done; try lia). }
  cbn [parse_digits]. rewrite Hd.
  replace (10 * Z.of_N (x `div` 10) + Z.of_N (x `mod` 10)) with (Z.of_N x); [done|].
  rewrite N2Z.inj_div, N2Z.inj_mod. pose proof (Z.div_mod (Z.of_N x) 10). lia.
Qed.

(** What [toString] prints, [BigInt] reads. *)
Lemma parse_bigint_pretty (z : Z) : 0 <= z -> parse_bigint (pretty z) = Some z.
Proof.
  intros Hz. destruct z as [|p|p]; [done| |lia].
  change (pretty (Z.pos p)) with (pretty_N_go (N.pos p) "").
  transitivity (parse_digits 0 (pretty_N_go (N.pos p) "")); [|by rewrite parse_digits_pretty_go].
  destruct (pretty_N_go (N.pos p) "") as [|c s] eqn:E; [done|].
  pose proof (parse_digits_pretty_go (N.pos p) "") as H. rewrite E in H. cbn [parse_digits] in H.
  destruct (digit_value c) eqn:Ec; [|done]. unfold parse_bigint. by destruct c as [[] [] [] [] [] [] [] []].
Qed.

(** A concrete stand-in for the hash function, for concrete runs: 64 decimal
    digits of a positional code of the input. *)
Definition toy_crypto : NodeCrypto := {|
  sha256hex := fun s =>
    digits 64 (fold_left (fun acc c => (257 * acc + Z.of_nat (nat_of_ascii c) + 1) mod 10 ^ 64)
                         (list_ascii_of_string s) 7) |}.

Lemma toy_crypto_laws : @NodeCryptoLaws toy_crypto.
Proof. constructor. intros s. apply digits_length. Qed.

(** ** Reading JSON values *)

(** [v.key] of an object; [undefined] is [None]. *)
Definition json_field (key : string) (v : json) : option json :=
  match v with
  | JObj fields => snd <$> List.find (fun kv => String.eqb kv.1 key) fields
  | _ => None
  end.

(** [JSON.parse]: [None] is its [SyntaxError]. *)
Class JsonParse := { json_parse : string -> option json }.

Definition newline : string := String (ascii_of_nat 10) "".

(** A string field. *)
Definition json_string (key : string) (v : json) : option string :=
  match json_field key v with Some (JStr s) => Some s | _ => None end.

(** [encodeURIComponent], over the UTF-8 bytes of the string. *)
Definition hex_upper (n : nat) : ascii :=
  if (n <? 10)%nat then ascii_of_nat (48 + n) else ascii_of_nat (55 + n).

Definition uri_unescaped (c : ascii) : bool :=
  let n := nat_of_ascii c in
  ((48 <=? n) && (n <=? 57) || (65 <=? n) && (n <=? 90) || (97 <=? n) && (n <=? 122)
   || existsb (Nat.eqb n) [45; 95; 46; 33; 126; 42; 39; 40; 41])%nat.

Fixpoint encodeURIComponent (s : string) : string :=
  match s with
  | EmptyString => ""
  | String c s' =>
      let n := nat_of_ascii c in
      (if uri_unescaped c then String c ""
       else String "%" (String (hex_upper (n / 16)) (String (hex_upper (n mod 16)) "")))
      +:+ encodeURIComponent s'
  end.

Example encodeURIComponent_path : encodeURIComponent "a/b c?" = "a%2Fb%20c%3F".
Proof. reflexivity. Qed.

(** ** Hashes of inputs

    [hashOf] of [src/autonomy/autonomy.service.ts] and [computeInputsHash] of
    [src/agent/agent.logic.ts], where [null] and [undefined] hash as [{}]. *)
Section Hashes.
Context `{Crypto : NodeCrypto}.

Definition hashOf (value : json) : string := sha256hex (stringify value).

Definition computeInputsHash (data : option json) : string :=
  sha256hex (stringify (match data with Some JNull | None => JObj [] | Some v => v end)).
End Hashes.

(** [z.string().uuid()] of Zod: the service only relies on it accepting what
    [randomUUID] returns. *)
Class ZodUuid := { zod_uuid : string -> bool }.
