(* ===== verification/Text.v ===== *)
(** * Text: strings and bytes of the runtime, at their width

    The terminal handles raw bytes and text that is not ASCII.  A byte is a [Z] in
    [0, 256); a JavaScript string is the list of its UTF-16 code units, a [Z] in
    [0, 65536).  This file has what the code uses of them: white space, [trim],
    [replace] with a global pattern, the UTF-8 encoder and decoder with the
    [StringDecoder] of [node:string_decoder] over them, and base64. *)
From S2P Require Import Prelude Js.
From Stdlib Require Import Ascii String.
Open Scope stdpp_scope.
Local Open Scope Z_scope.

Abbreviation bytes := (list Z).
Abbreviation text := (list Z).

Definition is_byte (b : Z) : bool := (0 <=? b) && (b <? 256).

(** The code units of an ASCII literal. *)
Definition units (s : string) : text := map (fun c => Z.of_nat (nat_of_ascii c)) (list_ascii_of_string s).

(** ** White space *)

(** The class [\s], which is also what [trim] removes. *)
Definition is_space (c : Z) : bool :=
  ((9 <=? c) && (c <=? 13)) || (c =? 32) || (c =? 160) || (c =? 5760)
  || ((8192 <=? c) && (c <=? 8202)) || (c =? 8232) || (c =? 8233) || (c =? 8239)
  || (c =? 8287) || (c =? 12288) || (c =? 65279).

Fixpoint drop_while (f : Z -> bool) (s : text) : text :=
  match s with
  | c :: s' => if f c then drop_while f s' else s
  | [] => []
  end.

Definition trim_end (f : Z -> bool) (s : text) : text := rev (drop_while f (rev s)).

Definition trim (s : text) : text := trim_end is_space (drop_while is_space s).

(** [s.replace(/\s+/g, ' ')] *)
Fixpoint collapse_from (in_space : bool) (s : text) : text :=
  match s with
  | [] => []
  | c :: s' =>
      if is_space c then (if in_space then collapse_from true s' else 32 :: collapse_from true s')
      else c :: collapse_from false s'
  end.
Definition collapse_spaces (s : text) : text := collapse_from false s.

(** [s.replace(pattern, replacement)] with the flag [g]: [m prev s] is what the
    pattern matches at the start of [s], after the unit [prev]: the length of the
    match and its replacement.  [skip] counts the matched units still to pass. *)
Fixpoint replace_from (m : option Z -> text -> option (nat * text)) (prev : option Z) (skip : nat)
    (s : text) : text :=
  match s with
  | [] => []
  | c :: s' =>
      match skip with
      | S k => replace_from m (Some c) k s'
      | O =>
          match m prev s with
          | Some (S n, replacement) => replacement ++ replace_from m (Some c) n s'
          | _ => c :: replace_from m (Some c) 0 s'
          end
      end
  end.
Definition replace_all m (s : text) : text := replace_from m None 0 s.

(** [Array.from(s).slice(0, -1).join('')]: the last code point goes, be it one
    unit or a surrogate pair. *)
Definition is_high_surrogate (c : Z) : bool := (55296 <=? c) && (c <? 56320).
Definition is_low_surrogate (c : Z) : bool := (56320 <=? c) && (c <? 57344).

Definition drop_last_char (s : text) : text :=
  match rev s with
  | [] => []
  | [_] => []
  | lo :: hi :: r =>
      if is_low_surrogate lo && is_high_surrogate hi then rev r else rev (hi :: r)
  end.

(** [s] without the prefix [p], when it has it. *)
Fixpoint strip_prefix (p s : text) : option text :=
  match p, s with
  | [], _ => Some s
  | a :: p', b :: s' => if a =? b then strip_prefix p' s' else None
  | _, [] => None
  end.

Lemma strip_prefix_spec p s r : strip_prefix p s = Some r <-> s = p ++ r.
Proof.
  revert s. induction p as [|a p IH]; intros s; cbn; [naive_solver|].
  destruct s as [|b s]; [naive_solver|].
  destruct (Z.eqb_spec a b) as [->|]; [rewrite IH|]; naive_solver.
Qed.

(** The longest run of units that satisfy [f], and what follows. *)
Fixpoint span (f : Z -> bool) (s : text) : text * text :=
  match s with
  | c :: s' => if f c then let '(a, b) := span f s' in (c :: a, b) else ([], s)
  | [] => ([], [])
  end.

(** ** UTF-8 *)

(** The units of a code point. *)
Definition utf16 (cp : Z) : text :=
  if cp <? 65536 then [cp]
  else [55296 + (cp - 65536) / 1024; 56320 + (cp - 65536) mod 1024].

Definition utf8 (cp : Z) : bytes :=
  if cp <? 128 then [cp]
  else if cp <? 2048 then [192 + cp / 64; 128 + cp mod 64]
  else if cp <? 65536 then [224 + cp / 4096; 128 + cp / 64 mod 64; 128 + cp mod 64]
  else [240 + cp / 262144; 128 + cp / 4096 mod 64; 128 + cp / 64 mod 64; 128 + cp mod 64].

(** A Unicode scalar value. *)
Definition is_scalar (cp : Z) : bool :=
  (0 <=? cp) && (cp <? 1114112) && negb ((55296 <=? cp) && (cp <? 57344)).

Definition REPLACEMENT : Z := 65533.

(** The decoder of the Encoding Standard: how many bytes the character still
    needs, the value so far, and the range of the next byte. *)
Inductive Utf8State :=
| between
| within (needed : nat) (cp lower upper : Z).

Definition utf8_start (b : Z) : Utf8State * text :=
  if b <? 128 then (between, [b])
  else if (194 <=? b) && (b <=? 223) then (within 1 (b - 192) 128 191, [])
  else if (224 <=? b) && (b <=? 239) then
    (within 2 (b - 224) (if b =? 224 then 160 else 128) (if b =? 237 then 159 else 191), [])
  else if (240 <=? b) && (b <=? 244) then
    (within 3 (b - 240) (if b =? 240 then 144 else 128) (if b =? 244 then 143 else 191), [])
  else (between, [REPLACEMENT]).

Definition utf8_step (st : Utf8State) (b : Z) : Utf8State * text :=
  match st with
  | between => utf8_start b
  | within needed cp lower upper =>
      if (lower <=? b) && (b <=? upper) then
        let cp := 64 * cp + (b - 128) in
        match needed with
        | S (S n) => (within (S n) cp 128 191, [])
        | _ => (between, utf16 cp)
        end
      else let '(st', out) := utf8_start b in (st', REPLACEMENT :: out)
  end.

Fixpoint utf8_decode_from (st : Utf8State) (l : bytes) : text :=
  match l with
  | [] => match st with between => [] | _ => [REPLACEMENT] end
  | b :: l' => let '(st', out) := utf8_step st b in out ++ utf8_decode_from st' l'
  end.
Definition utf8_decode : bytes -> text := utf8_decode_from between.

(** The code points of a text; a lone surrogate is one of them. *)
Fixpoint code_points (s : text) : list Z :=
  match s with
  | [] => []
  | hi :: s' =>
      match s' with
      | lo :: r =>
          if is_high_surrogate hi && is_low_surrogate lo
          then 65536 + 1024 * (hi - 55296) + (lo - 56320) :: code_points r
          else hi :: code_points s'
      | [] => [hi]
      end
  end.

Definition string_of_bytes (l : bytes) : string :=
  string_of_list_ascii (map (fun b => ascii_of_nat (Z.to_nat b)) l).

(** A text as a [string]. *)
Definition written (s : text) : string := string_of_bytes (List.concat (map utf8 (code_points s))).

(** The units of a string: UTF-8, where a lone surrogate is three bytes too. *)
Definition units_step (st : Utf8State) (b : Z) : Utf8State * text :=
  match st with
  | between => if b =? 237 then (within 2 13 128 191, []) else utf8_start b
  | within _ _ _ _ => utf8_step st b
  end.

Fixpoint units_from (st : Utf8State) (l : bytes) : text :=
  match l with
  | [] => match st with between => [] | _ => [REPLACEMENT] end
  | b :: l' => let '(st', out) := units_step st b in out ++ units_from st' l'
  end.

(** The text of a string, its [length] and [slice(0, n)]. *)
Definition text_of (s : string) : text := units_from between (units s).
Definition js_length (s : string) : Z := Z.of_nat (List.length (text_of s)).
Definition js_slice (n : nat) (s : string) : string := written (take n (text_of s)).

(** [s.split(sep)] for a separator of one character. *)
Fixpoint split_on (sep : ascii) (s : string) : list string :=
  match s with
  | EmptyString => [""]
  | String c s' =>
      if Ascii.eqb c sep then "" :: split_on sep s'
      else match split_on sep s' with
           | x :: l => String c x :: l
           | [] => [String c ""]
           end
  end.

(** [s.toLowerCase()] of ASCII letters. *)
Definition lower_char (c : ascii) : ascii :=
  let n := nat_of_ascii c in
  if ((65 <=? n) && (n <=? 90))%nat then ascii_of_nat (n + 32) else c.
Fixpoint lower (s : string) : string :=
  match s with EmptyString => "" | String c s' => String (lower_char c) (lower s') end.

(** ** [StringDecoder('utf8')] *)

(** The bytes of an incomplete character and how many are missing. *)
Record StringDecoder := { sd_buffer : bytes; sd_missing : Z }.

Definition new_StringDecoder : StringDecoder := {| sd_buffer := []; sd_missing := 0 |}.

(** A byte outside an incomplete character. *)
Definition decoder_begin (b : Z) : StringDecoder * text :=
  if b <? 128 then (new_StringDecoder, [b])
  else if b <? 192 then (new_StringDecoder, utf8_decode [b])
  else if b <? 224 then ({| sd_buffer := [b]; sd_missing := 1 |}, [])
  else if b <? 240 then ({| sd_buffer := [b]; sd_missing := 2 |}, [])
  else if b <? 248 then ({| sd_buffer := [b]; sd_missing := 3 |}, [])
  else (new_StringDecoder, utf8_decode [b]).

(** [write] of a buffer of one byte. *)
Definition decoder_write (d : StringDecoder) (b : Z) : StringDecoder * text :=
  if 0 <? sd_missing d then
    if (128 <=? b) && (b <? 192) then
      let buffer := sd_buffer d ++ [b] in
      if sd_missing d =? 1 then (new_StringDecoder, utf8_decode buffer)
      else ({| sd_buffer := buffer; sd_missing := sd_missing d - 1 |}, [])
    else let '(d', out) := decoder_begin b in (d', utf8_decode (sd_buffer d) ++ out)
  else decoder_begin b.

(** [end()] *)
Definition decoder_end (d : StringDecoder) : StringDecoder * text :=
  (new_StringDecoder, utf8_decode (sd_buffer d)).

(** ** Base64 *)

Definition base64_alphabet : string :=
  "ABCDEFGHIJKLMNOPQRSTUVWXYZabcdefghijklmnopqrstuvwxyz0123456789+/".

Definition base64_char (n : Z) : ascii :=
  default "A"%char (String.get (Z.to_nat n) base64_alphabet).

Fixpoint base64_encode (l : bytes) : string :=
  match l with
  | [] => ""
  | [a] => String (base64_char (a / 4)) (String (base64_char (a mod 4 * 16)) "==")
  | [a; b] =>
      String (base64_char (a / 4)) (String (base64_char (a mod 4 * 16 + b / 16))
        (String (base64_char (b mod 16 * 4)) "="))
  | a :: b :: c :: l' =>
      String (base64_char (a / 4)) (String (base64_char (a mod 4 * 16 + b / 16))
        (String (base64_char (b mod 16 * 4 + c / 64)) (String (base64_char (c mod 64))
          (base64_encode l'))))
  end.

(** [Buffer.from(input).toString('base64url')] *)
Fixpoint url_alphabet (s : string) : string :=
  match s with
  | EmptyString => ""
  | String c s' =>
      (if Ascii.eqb c "=" then ""
       else String (if Ascii.eqb c "+" then "-" else if Ascii.eqb c "/" then "_" else c)%char "") +:+ url_alphabet s'
  end.
Definition base64url (l : bytes) : string := url_alphabet (base64_encode l).

(** The value of a character; [Buffer.from(s, 'base64')] also reads the alphabet
    of URLs. *)
Definition base64_value (c : ascii) : option Z :=
  let n := Z.of_nat (nat_of_ascii c) in
  if (65 <=? n) && (n <=? 90) then Some (n - 65)
  else if (97 <=? n) && (n <=? 122) then Some (n - 71)
  else if (48 <=? n) && (n <=? 57) then Some (n + 4)
  else if (n =? 43) || (n =? 45) then Some 62
  else if (n =? 47) || (n =? 95) then Some 63
  else None.

(** The digits before the first [=]; other characters are skipped. *)
Fixpoint base64_digits (s : string) : list Z :=
  match s with
  | EmptyString => []
  | String c s' =>
      if (nat_of_ascii c =? 61)%nat then []
      else match base64_value c with
           | Some v => v :: base64_digits s'
           | None => base64_digits s'
           end
  end.

Fixpoint base64_groups (l : list Z) : bytes :=
  match l with
  | a :: b :: c :: d :: l' =>
      a * 4 + b / 16 :: b mod 16 * 16 + c / 4 :: c mod 4 * 64 + d :: base64_groups l'
  | [a; b; c] => [a * 4 + b / 16; b mod 16 * 16 + c / 4]
  | [a; b] => [a * 4 + b / 16]
  | _ => []
  end.

(** [Buffer.from(s, 'base64')] *)
Definition base64_decode (s : string) : bytes := base64_groups (base64_digits s).

(** * Lemmas *)

Ltac z_bools :=
  repeat match goal with
  | H : _ && _ = true |- _ => apply andb_true_iff in H as [? ?]
  | H : negb _ = true |- _ => apply negb_true_iff in H
  | H : _ && _ = false |- _ => apply andb_false_iff in H
  end.

(** ** Decoding what was encoded *)

(** The range of the second byte of a character of three or four bytes. *)
Lemma utf8_second3 cp :
  2048 <= cp < 65536 -> cp < 55296 \/ 57344 <= cp ->
  (if 224 + cp / 4096 =? 224 then 160 else 128) <= 128 + cp / 64 mod 64
  <= (if 224 + cp / 4096 =? 237 then 159 else 191).
Proof.
  intros H Hs. replace (cp / 4096) with (cp / 64 / 64) by (rewrite Z.div_div; [done|lia..]).
  assert (32 <= cp / 64 /\ (cp / 64 < 864 \/ 896 <= cp / 64)) by div_mod_lia.
  generalize dependent (cp / 64). intros q Hq. case_match; case_match; div_mod_lia.
Qed.

Lemma utf8_second4 cp :
  65536 <= cp < 1114112 ->
  (if 240 + cp / 262144 =? 240 then 144 else 128) <= 128 + cp / 4096 mod 64
  <= (if 240 + cp / 262144 =? 244 then 143 else 191).
Proof.
  intros H. replace (cp / 262144) with (cp / 4096 / 64) by (rewrite Z.div_div; [done|lia..]).
  assert (16 <= cp / 4096 < 272) by div_mod_lia.
  generalize dependent (cp / 4096). intros q Hq. case_match; case_match; div_mod_lia.
Qed.

Lemma utf8_decode_char cp l :
  is_scalar cp = true -> utf8_decode_from between (utf8 cp ++ l) = utf16 cp ++ utf8_decode_from between l.
Proof.
  unfold is_scalar, utf8. intros H. z_bools.
  assert (cp < 55296 \/ 57344 <= cp) by lia.
  assert (E2 : forall n, 64 * (n / 64) + (128 + n mod 64 - 128) = n) by (intros; div_mod_lia).
  destruct (Z.ltb_spec cp 128); [|destruct (Z.ltb_spec cp 2048); [|destruct (Z.ltb_spec cp 65536)]];
    cbn [app utf8_decode_from utf8_step]; unfold utf8_start.
  - rewrite (proj2 (Z.ltb_lt cp 128)) by done. cbn. unfold utf16.
    by rewrite (proj2 (Z.ltb_lt cp 65536)) by lia.
  - assert (194 <= 192 + cp / 64 <= 223) by div_mod_lia.
    rewrite (proj2 (Z.ltb_ge _ 128)) by lia.
    rewrite (proj2 (Z.leb_le 194 _)), (proj2 (Z.leb_le _ 223)) by lia. cbn [andb app utf8_decode_from utf8_step].
    rewrite (proj2 (Z.leb_le 128 _)), (proj2 (Z.leb_le _ 191)) by div_mod_lia.
    cbn [andb app utf8_decode_from utf8_step]. replace (192 + cp / 64 - 192) with (cp / 64) by lia. by rewrite E2.
  - assert (224 <= 224 + cp / 4096 <= 239) by div_mod_lia.
    rewrite (proj2 (Z.ltb_ge _ 128)) by lia.
    rewrite (proj2 (Z.leb_gt _ 223)) by lia. rewrite andb_false_r.
    rewrite (proj2 (Z.leb_le 224 _)), (proj2 (Z.leb_le _ 239)) by lia. cbn [andb app utf8_decode_from utf8_step].
    destruct (utf8_second3 cp ltac:(lia) ltac:(done)) as [Hlo Hhi].
    rewrite (proj2 (Z.leb_le _ _) Hlo), (proj2 (Z.leb_le _ _) Hhi). cbn [andb app utf8_decode_from utf8_step].
    rewrite (proj2 (Z.leb_le 128 _)), (proj2 (Z.leb_le _ 191)) by div_mod_lia. cbn [andb].
    do 2 f_equal. div_mod_lia.
  - assert (240 <= 240 + cp / 262144 <= 244) by div_mod_lia.
    rewrite (proj2 (Z.ltb_ge _ 128)) by lia.
    rewrite (proj2 (Z.leb_gt _ 223)), (proj2 (Z.leb_gt _ 239)) by lia. rewrite !andb_false_r.
    rewrite (proj2 (Z.leb_le 240 _)), (proj2 (Z.leb_le _ 244)) by lia. cbn [andb app utf8_decode_from utf8_step].
    destruct (utf8_second4 cp ltac:(lia)) as [Hlo Hhi].
    rewrite (proj2 (Z.leb_le _ _) Hlo), (proj2 (Z.leb_le _ _) Hhi). cbn [andb app utf8_decode_from utf8_step].
    do 2 (rewrite (proj2 (Z.leb_le 128 _)), (proj2 (Z.leb_le _ 191)) by div_mod_lia;
          cbn [andb app utf8_decode_from utf8_step]).
    do 2 f_equal. div_mod_lia.
Qed.

(** Writing bytes one at a time. *)
Fixpoint decoder_write_all (d : StringDecoder) (l : bytes) : StringDecoder * text :=
  match l with
  | [] => (d, [])
  | b :: l' =>
      let '(d1, out) := decoder_write d b in
      let '(d2, out') := decoder_write_all d1 l' in (d2, out ++ out')
  end.

Lemma decoder_write_last buffer b :
  128 <= b < 192 ->
  decoder_write {| sd_buffer := buffer; sd_missing := 1 |} b = (new_StringDecoder, utf8_decode (buffer ++ [b])).
Proof.
  intros Hb. unfold decoder_write; cbn. by rewrite (proj2 (Z.leb_le 128 _)), (proj2 (Z.ltb_lt _ 192)) by lia.
Qed.

Lemma decoder_write_more buffer missing b :
  128 <= b < 192 -> 1 < missing ->
  decoder_write {| sd_buffer := buffer; sd_missing := missing |} b =
  ({| sd_buffer := buffer ++ [b]; sd_missing := missing - 1 |}, []).
Proof.
  intros Hb Hm. unfold decoder_write; cbn [sd_missing sd_buffer].
  rewrite (proj2 (Z.ltb_lt 0 _)), (proj2 (Z.leb_le 128 _)), (proj2 (Z.ltb_lt _ 192)) by lia. cbn [andb].
  by rewrite (proj2 (Z.eqb_neq _ 1)) by lia.
Qed.

(** A character comes out with its last byte. *)
Lemma decoder_write_char cp :
  is_scalar cp = true -> decoder_write_all new_StringDecoder (utf8 cp) = (new_StringDecoder, utf16 cp).
Proof.
  intros H. pose proof (utf8_decode_char cp [] H) as Hd. rewrite !app_nil_r in Hd.
  revert H Hd. unfold is_scalar, utf8. intros H. z_bools.
  destruct (Z.ltb_spec cp 128); [|destruct (Z.ltb_spec cp 2048); [|destruct (Z.ltb_spec cp 65536)]];
    intros Hd; cbn [decoder_write_all];
    change (decoder_write new_StringDecoder ?b) with (decoder_begin b); unfold decoder_begin.
  - rewrite (proj2 (Z.ltb_lt cp 128)) by done. unfold utf16. by rewrite (proj2 (Z.ltb_lt cp 65536)) by lia.
  - assert (194 <= 192 + cp / 64 <= 223) by div_mod_lia.
    rewrite (proj2 (Z.ltb_ge _ 128)), (proj2 (Z.ltb_ge _ 192)), (proj2 (Z.ltb_lt _ 224)) by lia.
    rewrite decoder_write_last by div_mod_lia. cbn [app]. rewrite app_nil_r. by f_equal.
  - assert (224 <= 224 + cp / 4096 <= 239) by div_mod_lia.
    rewrite (proj2 (Z.ltb_ge _ 128)), (proj2 (Z.ltb_ge _ 192)), (proj2 (Z.ltb_ge _ 224)),
      (proj2 (Z.ltb_lt _ 240)) by lia.
    rewrite decoder_write_more by div_mod_lia. change (2 - 1) with 1.
    rewrite decoder_write_last by div_mod_lia. cbn [app]. rewrite app_nil_r. by f_equal.
  - assert (240 <= 240 + cp / 262144 <= 244) by div_mod_lia.
    rewrite (proj2 (Z.ltb_ge _ 128)), (proj2 (Z.ltb_ge _ 192)), (proj2 (Z.ltb_ge _ 224)),
      (proj2 (Z.ltb_ge _ 240)), (proj2 (Z.ltb_lt _ 248)) by lia.
    rewrite decoder_write_more by div_mod_lia. change (3 - 1) with 2.
    rewrite decoder_write_more by div_mod_lia. change (2 - 1) with 1.
    rewrite decoder_write_last by div_mod_lia. cbn [app]. rewrite app_nil_r. by f_equal.
Qed.

Lemma decoder_write_all_app d l1 l2 :
  decoder_write_all d (l1 ++ l2) =
  let '(d1, o1) := decoder_write_all d l1 in
  let '(d2, o2) := decoder_write_all d1 l2 in (d2, o1 ++ o2).
Proof.
  revert d. induction l1 as [|b l1 IH]; intros d; cbn.
  { by destruct (decoder_write_all d l2). }
  destruct (decoder_write d b) as [d1 o1]. rewrite IH.
  destruct (decoder_write_all d1 l1) as [d2 o2]. destruct (decoder_write_all d2 l2) as [d3 o3].
  by rewrite app_assoc.
Qed.

(** ** Base64 *)

Lemma base64_value_char n :
  0 <= n < 64 -> base64_value (base64_char n) = Some n /\ nat_of_ascii (base64_char n) <> 61%nat.
Proof.
  intros Hn. replace n with (Z.of_nat (Z.to_nat n)) by lia.
  assert (Hl : (Z.to_nat n < 64)%nat) by lia. revert Hl. generalize (Z.to_nat n) as k. intros k Hk.
  do 64 (destruct k as [|k]; [by vm_compute|]). lia.
Qed.

Lemma base64_digits_char n s : 0 <= n < 64 -> base64_digits (String (base64_char n) s) = n :: base64_digits s.
Proof.
  intros Hn. destruct (base64_value_char n Hn) as [Hv He]. cbn [base64_digits].
  apply Nat.eqb_neq in He. by rewrite He, Hv.
Qed.

(** What is encoded is read back. *)
Lemma base64_decode_encode l :
  Forall (fun b => is_byte b = true) l -> base64_decode (base64_encode l) = l.
Proof.
  unfold base64_decode.
  assert (Hind : forall n l, (List.length l <= n)%nat -> Forall (fun b => is_byte b = true) l ->
    base64_groups (base64_digits (base64_encode l)) = l).
  { clear l. induction n as [|n IH]; intros l Hn Hb; [by destruct l; [|cbn in Hn; lia]|].
    assert (Hr : forall b, is_byte b = true -> 0 <= b < 256) by (unfold is_byte; intros; lia).
    destruct l as [|a [|b [|c l]]]; [done|..]; cbn [base64_encode];
      repeat match goal with H : Forall _ (_ :: _) |- _ => apply Forall_cons in H as [?%Hr H] end;
      rewrite !base64_digits_char by div_mod_lia; cbn [base64_digits base64_groups nat_of_ascii].
    - cbn. f_equal. div_mod_lia.
    - cbn. repeat f_equal; div_mod_lia.
    - rewrite IH by (cbn in Hn; lia || done). repeat f_equal; div_mod_lia. }
  by apply (Hind (List.length l)).
Qed.

(** The alphabet of URLs, without padding, is read back too. *)
Lemma url_digits_char n s :
  0 <= n < 64 -> base64_digits (url_alphabet (String (base64_char n) s)) = n :: base64_digits (url_alphabet s).
Proof.
  intros Hn. replace n with (Z.of_nat (Z.to_nat n)) by lia.
  assert (Hl : (Z.to_nat n < 64)%nat) by lia. revert Hl. generalize (Z.to_nat n) as k. intros k Hk.
  do 64 (destruct k as [|k]; [reflexivity|]). lia.
Qed.

Lemma base64url_digits l :
  Forall (fun b => is_byte b = true) l -> base64_digits (base64url l) = base64_digits (base64_encode l).
Proof.
  unfold base64url.
  assert (Hind : forall n l, (List.length l <= n)%nat -> Forall (fun b => is_byte b = true) l ->
    base64_digits (url_alphabet (base64_encode l)) = base64_digits (base64_encode l)).
  { clear l. induction n as [|n IH]; intros l Hn Hb; [by destruct l; [|cbn in Hn; lia]|].
    assert (Hr : forall b, is_byte b = true -> 0 <= b < 256) by (unfold is_byte; intros; lia).
    destruct l as [|a [|b [|c l]]]; [done|..]; cbn [base64_encode];
      repeat match goal with H : Forall _ (_ :: _) |- _ => apply Forall_cons in H as [?%Hr H] end;
      rewrite !base64_digits_char, !url_digits_char by div_mod_lia; [done|done|].
    by rewrite IH by (cbn in Hn; lia || done). }
  by apply (Hind (List.length l)).
Qed.

Lemma base64_decode_url l : Forall (fun b => is_byte b = true) l -> base64_decode (base64url l) = l.
Proof. intros Hl. unfold base64_decode. rewrite base64url_digits by done. by apply base64_decode_encode. Qed.
