(* ===== verification/PtyGate.v ===== *)
(** * PtyGate: the lines typed in the terminal, and what the audit shows of them

    [src/terminal/pty-input-gate.ts], the machine that finds the line that each
    Enter submits, and [src/terminal/redact-secrets.ts], which removes secrets
    from it before it is written to the audit log. *)
From S2P Require Import Prelude Js Text.
Local Open Scope stdpp_scope.
Local Open Scope Z_scope.

(** ** pty-input-gate.ts *)

Record PtyInputStep := { ps_bytes : bytes; ps_line : option text }.

Definition MAX_LINE_CHARS : Z := 4096.
Definition ESC : Z := 27.
Definition CR : Z := 13.
Definition LF : Z := 10.
Definition BACKSPACE : Z := 8.
Definition DEL : Z := 127.
Definition CTRL_C : Z := 3.
Definition CTRL_U : Z := 21.
Definition CTRL_W : Z := 23.

Inductive EscapeState := esc_none | esc_esc | esc_csi | esc_ss3.
#[export] Instance EscapeState_eq_dec : EqDecision EscapeState.
Proof. solve_decision. Defined.

Record PtyInputGate := { g_line : text; g_decoder : StringDecoder; g_escape : EscapeState }.

Definition new_PtyInputGate : PtyInputGate :=
  {| g_line := []; g_decoder := new_StringDecoder; g_escape := esc_none |}.

Module PtyGate.

(** Fields [line], [decoder] and [escape] of the object, assigned. *)
Definition set_line (line : text) (g : PtyInputGate) : PtyInputGate :=
  {| g_line := line; g_decoder := g_decoder g; g_escape := g_escape g |}.
Definition set_decoder (d : StringDecoder) (g : PtyInputGate) : PtyInputGate :=
  {| g_line := g_line g; g_decoder := d; g_escape := g_escape g |}.
Definition set_escape (e : EscapeState) (g : PtyInputGate) : PtyInputGate :=
  {| g_line := g_line g; g_decoder := g_decoder g; g_escape := e |}.

Definition reset (g : PtyInputGate) : PtyInputGate := new_PtyInputGate.

Definition normalize_line (line : text) : text := trim (collapse_spaces line).

Definition takeLine (g : PtyInputGate) : PtyInputGate * option text :=
  let '(decoder, rest) := decoder_end (g_decoder g) in
  let line := normalize_line (g_line g ++ rest) in
  ({| g_line := []; g_decoder := decoder; g_escape := g_escape g |},
   match line with [] => None | _ => Some line end).

Definition consumeEscape (byte : Z) (g : PtyInputGate) : PtyInputGate :=
  match g_escape g with
  | esc_esc =>
      if byte =? 91 then set_escape esc_csi g
      else if byte =? 79 then set_escape esc_ss3 g
      else set_escape esc_none g
  | esc_csi => if (64 <=? byte) && (byte <=? 126) then set_escape esc_none g else g
  | _ => set_escape esc_none g
  end.

(** [line.replace(/\s*\S*$/, '')]: the last run of other units, and the white
    space before it. *)
Definition drop_last_word (line : text) : text :=
  trim_end is_space (trim_end (fun c => negb (is_space c)) line).

Definition applyKey (byte : Z) (g : PtyInputGate) : PtyInputGate :=
  if (byte =? BACKSPACE) || (byte =? DEL) then set_line (drop_last_char (g_line g)) g
  else if (byte =? CTRL_C) || (byte =? CTRL_U) then set_line [] (set_decoder new_StringDecoder g)
  else if byte =? CTRL_W then set_line (drop_last_word (g_line g)) g
  else if byte <? 32 then g
  else
    let '(decoder, s) := decoder_write (g_decoder g) byte in
    let g := set_decoder decoder g in
    if Z.of_nat (length (g_line g)) <? MAX_LINE_CHARS then set_line (g_line g ++ s) g else g.

(** The loop of [feed]; [held] are the bytes from [start] to [index]. *)
Fixpoint feed_loop (held data : bytes) (g : PtyInputGate) : list PtyInputStep * PtyInputGate :=
  match data with
  | [] =>
      (match held with [] => [] | _ => [{| ps_bytes := held; ps_line := None |}] end, g)
  | byte :: data' =>
      if negb (bool_decide (g_escape g = esc_none)) then
        feed_loop (held ++ [byte]) data' (consumeEscape byte g)
      else if byte =? ESC then feed_loop (held ++ [byte]) data' (set_escape esc_esc g)
      else if (byte =? CR) || (byte =? LF) then
        let '(g, line) := takeLine g in
        let '(steps, g) := feed_loop [] data' g in
        ({| ps_bytes := held ++ [byte]; ps_line := line |} :: steps, g)
      else feed_loop (held ++ [byte]) data' (applyKey byte g)
  end.

Definition feed (data : bytes) (g : PtyInputGate) : list PtyInputStep * PtyInputGate :=
  feed_loop [] data g.
End PtyGate.

(** ** redact-secrets.ts *)

Module Redact.

Definition is_word (c : Z) : bool :=
  ((48 <=? c) && (c <=? 57)) || ((65 <=? c) && (c <=? 90)) || ((97 <=? c) && (c <=? 122)) || (c =? 95).

(** [A-Za-z0-9_-] *)
Definition is_token_char (c : Z) : bool := is_word c || (c =? 45).

Definition SK_ANT : text := units "sk-ant-".
Definition OMITTED : text := units "[omitido]".

(** [/sk-ant-[A-Za-z0-9_-]+/g], replaced by ['sk-ant-[omitido]']. *)
Definition ANTHROPIC_TOKEN (prev : option Z) (s : text) : option (nat * text) :=
  match strip_prefix SK_ANT s with
  | Some r =>
      match span is_token_char r with
      | ([], _) => None
      | (token, _) => Some ((length SK_ANT + length token)%nat, SK_ANT ++ OMITTED)
      end
  | None => None
  end.

Definition SECRET_NAMES : list text :=
  [units "CLAUDE_CODE_OAUTH_TOKEN"; units "ANTHROPIC_API_KEY"; units "ANTHROPIC_AUTH_TOKEN"].

(** The value: between double or single quotes, the last of which may be missing,
    or a run of other units than white space; its length. *)
Definition secret_value (s : text) : option nat :=
  let quoted_value q r :=
    let '(a, b) := span (fun c => negb (c =? q)) r in
    (1 + length a + match b with [] => 0 | _ => 1 end)%nat in
  match s with
  | 34 :: r => Some (quoted_value 34 r)
  | 39 :: r => Some (quoted_value 39 r)
  | _ => match span (fun c => negb (is_space c)) s with ([], _) => None | (v, _) => Some (length v) end
  end.

Fixpoint strip_first (names : list text) (s : text) : option (text * text) :=
  match names with
  | [] => None
  | n :: names' => match strip_prefix n s with Some r => Some (n, r) | None => strip_first names' s end
  end.

(** A name at a word boundary, an equals sign with white space around it and a
    value; replaced by ['$1$2[omitido]'], the name, the sign and the mark. *)
Definition SECRET_ASSIGNMENT (prev : option Z) (s : text) : option (nat * text) :=
  if match prev with Some c => is_word c | None => false end then None
  else
    '(name, r) ← strip_first SECRET_NAMES s;
    let '(before, r) := span is_space r in
    match r with
    | 61 :: r =>
        let '(after, r) := span is_space r in
        n ← secret_value r;
        let middle := before ++ [61] ++ after in
        Some ((length name + length middle + n)%nat, name ++ middle ++ OMITTED)
    | _ => None
    end.

Definition redactSecrets (s : text) : text :=
  replace_all ANTHROPIC_TOKEN (replace_all SECRET_ASSIGNMENT s).

Definition auditPreview (s : text) (len : nat) : text :=
  take len (trim (collapse_spaces (redactSecrets s))).
End Redact.

Module PtyGateExamples.
Import PtyGate Redact.

Definition typed (s : string) : bytes := units s.
Definition lines (chunks : list bytes) : list (option text) :=
  (fold_left (fun '(acc, g) c => let '(st, g) := feed c g in (acc ++ map ps_line st, g))
     chunks ([], new_PtyInputGate)).1.

Example a_line : (feed (typed "ls -la" ++ [13]) new_PtyInputGate).1 =
  [{| ps_bytes := typed "ls -la" ++ [13]; ps_line := Some (units "ls -la") |}].
Proof. reflexivity. Qed.
Example backspaces : lines [typed "cat" ++ [8; 8; 8] ++ typed "pwd" ++ [13]] = [Some (units "pwd")].
Proof. reflexivity. Qed.
Example multibyte_backspace :
  lines [typed "echo " ++ [195; 177; 127] ++ typed "a" ++ [13]] = [Some (units "echo a")].
Proof. reflexivity. Qed.
Example last_word : lines [typed "git commit -m fix" ++ [23; 13]] = [Some (units "git commit -m")].
Proof. reflexivity. Qed.
Example arrows :
  lines [typed "ls" ++ [27] ++ typed "[A" ++ [27] ++ typed "[1;5C -l" ++ [27] ++ typed "OA" ++ [13]]
  = [Some (units "ls -l")].
Proof. reflexivity. Qed.
Example split_character : lines [typed "echo " ++ [195]; [177; 13]] = [None; Some (units "echo " ++ [241])].
Proof. reflexivity. Qed.
Example tab : lines [typed "ls" ++ [9; 13]] = [Some (units "ls")].
Proof. reflexivity. Qed.
Example redact_token : redactSecrets (units "use sk-ant-oat01-Ab_9, then") = units "use sk-ant-[omitido], then".
Proof. reflexivity. Qed.
Example redact_assignment :
  redactSecrets (units "export ANTHROPIC_API_KEY = 'a b' x; ANTHROPIC_AUTH_TOKEN=abc d")
  = units "export ANTHROPIC_API_KEY = [omitido] x; ANTHROPIC_AUTH_TOKEN=[omitido] d".
Proof. reflexivity. Qed.
Example redact_boundary : redactSecrets (units "MY_ANTHROPIC_API_KEY=a") = units "MY_ANTHROPIC_API_KEY=a".
Proof. reflexivity. Qed.
End PtyGateExamples.

(** * The gate *)

Module PtyGateProperties.
Import PtyGate.

(** The specification of the gate, one byte at a time: [press] tells whether the
    byte is an Enter, and of which line; [submitted] lists the lines that are not
    blank, each with the number of bytes up to its Enter. *)
Definition press (byte : Z) (g : PtyInputGate) : PtyInputGate * option text :=
  if negb (bool_decide (g_escape g = esc_none)) then (consumeEscape byte g, None)
  else if byte =? ESC then (set_escape esc_esc g, None)
  else if (byte =? CR) || (byte =? LF) then takeLine g
  else (applyKey byte g, None).

Fixpoint submitted (pos : nat) (data : bytes) (g : PtyInputGate) :
    list (nat * text) * PtyInputGate :=
  match data with
  | [] => ([], g)
  | byte :: data' =>
      let '(g, line) := press byte g in
      let '(lines, g) := submitted (S pos) data' g in
      (match line with Some l => (S pos, l) :: lines | None => lines end, g)
  end.

(** The lines of the steps, each with the number of bytes forwarded with it. *)
Fixpoint audited (pos : nat) (steps : list PtyInputStep) : list (nat * text) :=
  match steps with
  | [] => []
  | s :: steps' =>
      let pos := (pos + length (ps_bytes s))%nat in
      match ps_line s with Some l => (pos, l) :: audited pos steps' | None => audited pos steps' end
  end.

(** Several messages, one after the other. *)
Fixpoint feed_all (chunks : list bytes) (g : PtyInputGate) : list PtyInputStep * PtyInputGate :=
  match chunks with
  | [] => ([], g)
  | c :: chunks' =>
      let '(steps, g) := feed c g in
      let '(steps', g) := feed_all chunks' g in (steps ++ steps', g)
  end.

Lemma feed_loop_bytes held data g :
  concat (map ps_bytes (feed_loop held data g).1) = held ++ data.
Proof.
  revert held g. induction data as [|b data IH]; intros held g; cbn [feed_loop].
  { destruct held; cbn; by rewrite ?app_nil_r. }
  repeat case_match; rewrite ?IH, <- ?app_assoc; try done.
  match goal with H : feed_loop [] _ _ = _ |- _ => specialize (IH [] p); rewrite H in IH end.
  cbn in *. by rewrite IH, <- app_assoc.
Qed.

Lemma submitted_app pos l1 l2 g :
  submitted pos (l1 ++ l2) g =
  let '(r1, g1) := submitted pos l1 g in
  let '(r2, g2) := submitted (pos + length l1) l2 g1 in (r1 ++ r2, g2).
Proof.
  revert pos g. induction l1 as [|b l1 IH]; intros pos g; cbn.
  { rewrite Nat.add_0_r. by destruct (submitted pos l2 g). }
  destruct (press b g) as [g1 line]. rewrite IH. replace (pos + S (length l1))%nat with (S pos + length l1)%nat by lia.
  destruct (submitted (S pos) l1 g1) as [r1 g2]. destruct (submitted _ l2 g2) as [r2 g3]. by destruct line.
Qed.

Lemma audited_app pos s1 s2 :
  audited pos (s1 ++ s2) = audited pos s1 ++ audited (pos + length (concat (map ps_bytes s1))) s2.
Proof.
  revert pos. induction s1 as [|s s1 IH]; intros pos; cbn; [by rewrite Nat.add_0_r|].
  rewrite length_app, Nat.add_assoc. destruct (ps_line s); cbn; by rewrite IH.
Qed.

(** A message is handled as its bytes, one at a time. *)
Lemma feed_loop_submitted pos held data g :
  (audited pos (feed_loop held data g).1, (feed_loop held data g).2) =
  submitted (pos + length held) data g.
Proof.
  revert pos held g. induction data as [|b data IH]; intros pos held g; cbn [feed_loop submitted].
  { by destruct held. }
  assert (Hn : S (pos + length held) = (pos + length (held ++ [b]))%nat)
    by (rewrite length_app; cbn; lia).
  rewrite Hn.
  unfold press. destruct (negb _); [|destruct (b =? ESC); [|destruct (_ || _)]];
    try (rewrite <- IH; done).
  destruct (takeLine g) as [g1 line].
  specialize (IH (pos + length (held ++ [b]))%nat [] g1). rewrite Nat.add_0_r in IH. rewrite <- IH.
  destruct (feed_loop [] data g1) as [steps g2]. by destruct line.
Qed.

(** C22. However the keys of the owner are split into messages, the terminal
    forwards every byte once and in order, and finds the same lines at the same
    Enters, as a machine that reads one byte at a time: a message boundary, even
    inside a character or an escape sequence, changes nothing. *)
Theorem message_boundaries_do_not_matter (g : PtyInputGate) (chunks : list bytes) :
  let '(steps, g') := feed_all chunks g in
  concat (map ps_bytes steps) = concat chunks /\
  (audited 0 steps, g') = submitted 0 (concat chunks) g.
Proof.
  assert (H : forall pos g, let '(steps, g') := feed_all chunks g in
    concat (map ps_bytes steps) = concat chunks /\
    (audited pos steps, g') = submitted pos (concat chunks) g); [|apply H].
  clear g. induction chunks as [|c chunks IH]; intros pos g; cbn [feed_all concat]; [done|].
  pose proof (feed_loop_bytes [] c g) as Hb. pose proof (feed_loop_submitted pos [] c g) as Hf.
  unfold feed. rewrite Nat.add_0_r in Hf.
  destruct (feed_loop [] c g) as [s1 g1]. cbn in Hb, Hf.
  rewrite submitted_app, <- Hf. specialize (IH (pos + length c)%nat g1).
  destruct (feed_all chunks g1) as [s2 g2]. destruct IH as [H1 H2].
  split; [by rewrite map_app, concat_app, Hb, H1|].
  by rewrite <- H2, audited_app, Hb.
Qed.

(** ** Typing a line *)

Definition printable (cp : Z) : bool := is_scalar cp && (32 <=? cp) && negb (cp =? DEL).

(** A byte of a character that is not a control character. *)
Definition plain_byte (b : Z) : Prop := 32 <= b /\ b <> DEL.

Definition apply_keys (keys : bytes) (g : PtyInputGate) : PtyInputGate :=
  fold_left (fun g b => applyKey b g) keys g.

Lemma utf8_plain cp : printable cp = true -> Forall plain_byte (utf8 cp).
Proof.
  unfold printable, is_scalar, utf8, plain_byte, DEL. intros H. z_bools.
  repeat case_match; repeat constructor; div_mod_lia.
Qed.

Lemma applyKey_plain b g :
  plain_byte b ->
  applyKey b g =
  let '(d, s) := decoder_write (g_decoder g) b in
  if Z.of_nat (length (g_line g)) <? MAX_LINE_CHARS
  then set_line (g_line g ++ s) (set_decoder d g) else set_decoder d g.
Proof.
  unfold plain_byte, DEL. intros [H1 H2]. unfold applyKey, BACKSPACE, DEL, CTRL_C, CTRL_U, CTRL_W.
  rewrite !(proj2 (Z.eqb_neq b _)) by lia. cbn [orb]. by rewrite (proj2 (Z.ltb_ge b 32)) by lia.
Qed.

Lemma apply_keys_plain keys g d out :
  Forall plain_byte keys -> decoder_write_all (g_decoder g) keys = (d, out) ->
  Z.of_nat (length (g_line g ++ out)) <= MAX_LINE_CHARS ->
  apply_keys keys g = {| g_line := g_line g ++ out; g_decoder := d; g_escape := g_escape g |}.
Proof.
  intros Hk. revert g d out. induction Hk as [|b keys Hb Hk IH]; intros g d out; cbn [decoder_write_all].
  { intros [= <- <-] _. rewrite app_nil_r. by destruct g. }
  destruct (decoder_write (g_decoder g) b) as [d1 o1] eqn:E1.
  destruct (decoder_write_all d1 keys) as [d2 o2] eqn:E2. intros [= <- <-] Hlen.
  unfold apply_keys. cbn [fold_left]. rewrite applyKey_plain by done. rewrite E1.
  assert (Hg : (if Z.of_nat (length (g_line g)) <? MAX_LINE_CHARS
                then set_line (g_line g ++ o1) (set_decoder d1 g) else set_decoder d1 g)
               = set_line (g_line g ++ o1) (set_decoder d1 g)).
  { case_match eqn:Hl; [done|]. apply Z.ltb_ge in Hl. rewrite !length_app in Hlen.
    destruct o1; [by rewrite app_nil_r|cbn in Hlen; lia]. }
  rewrite Hg. rewrite app_assoc in Hlen |- *. by apply (IH (set_line (g_line g ++ o1) (set_decoder d1 g))).
Qed.

Lemma feed_loop_keys held keys data g :
  g_escape g = esc_none -> Forall plain_byte keys ->
  feed_loop held (keys ++ data) g = feed_loop (held ++ keys) data (apply_keys keys g).
Proof.
  intros He Hk. revert held g He. induction Hk as [|b keys Hb Hk IH]; intros held g He.
  { by rewrite app_nil_r. }
  cbn [app feed_loop]. rewrite bool_decide_true by done. cbn [negb].
  destruct Hb as [H1 H2]. unfold ESC, CR, LF. rewrite !(proj2 (Z.eqb_neq b _)) by lia. cbn [orb].
  rewrite IH, <- app_assoc; [done|]. rewrite applyKey_plain by done.
  by destruct (decoder_write _ _); case_match.
Qed.

Lemma decoder_write_chars cps :
  Forall (fun cp => is_scalar cp = true) cps ->
  decoder_write_all new_StringDecoder (concat (map utf8 cps)) = (new_StringDecoder, concat (map utf16 cps)).
Proof.
  induction 1 as [|cp cps Hc _ IH]; [done|]. cbn.
  by rewrite decoder_write_all_app, decoder_write_char, IH.
Qed.

(** C23. What the owner types is what is audited: for any text without control
    characters, in any script, typed at an empty prompt and followed by Enter,
    the terminal forwards exactly those bytes, in one step with the line whose
    white space is normalised (none if it is blank), as long as the line has at
    most 4096 code units, and the prompt is empty again. *)
Theorem a_typed_line_is_audited_as_typed (cps : list Z) (enter : Z) :
  Forall (fun cp => printable cp = true) cps ->
  enter = CR \/ enter = LF ->
  Z.of_nat (length (concat (map utf16 cps))) <= MAX_LINE_CHARS ->
  let data := concat (map utf8 cps) ++ [enter] in
  let line := normalize_line (concat (map utf16 cps)) in
  feed data new_PtyInputGate =
  ([{| ps_bytes := data; ps_line := match line with [] => None | _ => Some line end |}],
   new_PtyInputGate).
Proof.
  intros Hp He Hlen. cbv zeta. unfold feed.
  assert (Hplain : Forall plain_byte (concat (map utf8 cps))).
  { clear - Hp. induction Hp; cbn; [done|]. apply Forall_app; split; [by apply utf8_plain|done]. }
  assert (Hs : Forall (fun cp => is_scalar cp = true) cps).
  { eapply Forall_impl; [exact Hp|]. unfold printable. cbn. intros cp H. by z_bools. }
  rewrite feed_loop_keys by done. cbn [app].
  rewrite (apply_keys_plain _ new_PtyInputGate _ _ Hplain (decoder_write_chars cps Hs)) by done.
  cbn [feed_loop g_escape]. rewrite bool_decide_true by done. cbn [negb].
  assert (enter =? ESC = false /\ (enter =? CR) || (enter =? LF) = true) as [-> ->]
    by (by destruct He as [-> | ->]).
  unfold takeLine. cbn. by rewrite app_nil_r.
Qed.

Lemma a_typed_line_is_audited_as_typed_witness :
  feed (concat (map utf8 (units "echo  ")) ++ utf8 241 ++ utf8 128512 ++ [CR]) new_PtyInputGate =
  ([{| ps_bytes := concat (map utf8 (units "echo  ")) ++ utf8 241 ++ utf8 128512 ++ [CR];
       ps_line := Some (units "echo " ++ [241; 55357; 56832]) |}], new_PtyInputGate).
Proof.
  refine (a_typed_line_is_audited_as_typed (units "echo  " ++ [241; 128512]) CR _ _ _).
  - repeat constructor.
  - by left.
  - by vm_compute.
Defined.

(** ** The memory of the gate is bounded *)

(** At most three bytes of an incomplete character are kept. *)
Definition decoder_ok (d : StringDecoder) : Prop :=
  Z.of_nat (length (sd_buffer d)) + sd_missing d <= 4 /\ (length (sd_buffer d) <= 3)%nat.

Definition gate_ok (g : PtyInputGate) : Prop :=
  (length (g_line g) <= 4099)%nat /\ decoder_ok (g_decoder g).

Lemma utf8_start_length b : (length (utf8_start b).2 <= match (utf8_start b).1 with between => 1 | _ => 0 end)%nat.
Proof. unfold utf8_start. do 4 (match goal with |- context [if ?c then _ else _] => destruct c end; [cbn; lia|]). cbn; lia. Qed.

Lemma utf16_length cp : (length (utf16 cp) <= 2)%nat.
Proof. unfold utf16. case_match; cbn; lia. Qed.

Lemma utf8_decode_length l : (length (utf8_decode l) <= length l)%nat.
Proof.
  assert (H : forall st, (length (utf8_decode_from st l) <=
    length l + match st with between => 0 | _ => 1 end)%nat).
  { induction l as [|b l IH]; intros st; cbn; [by destruct st|].
    destruct st as [|n cp lo hi]; cbn [utf8_step].
    - pose proof (utf8_start_length b). destruct (utf8_start b) as [st' out]. cbn in *.
      rewrite length_app. specialize (IH st'). destruct st'; cbn in *; lia.
    - destruct (_ && _).
      + pose proof (utf16_length (64 * cp + (b - 128))).
        pose proof (IH between) as Hb.
        destruct n as [|[|n]]; [rewrite length_app; cbn in Hb; lia..|].
        specialize (IH (within (S n) (64 * cp + (b - 128)) 128 191)). cbn [app length] in *. lia.
      + pose proof (utf8_start_length b). destruct (utf8_start b) as [st' out]. cbn in *.
        rewrite length_app. specialize (IH st'). destruct st'; cbn in *; lia. }
  specialize (H between). unfold utf8_decode; cbn in *; lia.
Qed.

Lemma decoder_begin_ok b : decoder_ok (decoder_begin b).1 /\ (length (decoder_begin b).2 <= 1)%nat.
Proof.
  unfold decoder_begin, decoder_ok. pose proof (utf8_decode_length [b]).
  repeat case_match; cbn [fst snd sd_buffer sd_missing new_StringDecoder length] in *; lia.
Qed.

Lemma decoder_write_ok d b :
  decoder_ok d -> decoder_ok (decoder_write d b).1 /\ (length (decoder_write d b).2 <= 4)%nat.
Proof.
  intros [Hd1 Hd2]. unfold decoder_write. pose proof (decoder_begin_ok b) as [Hb1 Hb2].
  pose proof (utf8_decode_length (sd_buffer d ++ [b])) as Hl. rewrite length_app in Hl. cbn in Hl.
  pose proof (utf8_decode_length (sd_buffer d)) as Hl2.
  destruct (Z.ltb_spec 0 (sd_missing d)); [|by split; [|lia]].
  destruct (_ && _).
  - destruct (Z.eqb_spec (sd_missing d) 1); cbn; [split; [split; cbn; lia|lia]|].
    unfold decoder_ok; cbn. rewrite length_app; cbn. lia.
  - destruct (decoder_begin b) as [d' out]. cbn in *. rewrite length_app. split; [done|lia].
Qed.

Lemma drop_while_length f s : (length (drop_while f s) <= length s)%nat.
Proof. induction s as [|c s IH]; cbn; [done|]. case_match; cbn; lia. Qed.

Lemma trim_end_length f s : (length (trim_end f s) <= length s)%nat.
Proof. unfold trim_end. rewrite length_rev. etrans; [apply drop_while_length|]. by rewrite length_rev. Qed.

Lemma collapse_length b s : (length (collapse_from b s) <= length s)%nat.
Proof.
  revert b. induction s as [|c s IH]; intros b; cbn; [done|].
  pose proof (IH true). pose proof (IH false). repeat case_match; cbn; lia.
Qed.

Lemma normalize_line_length s : (length (normalize_line s) <= length s)%nat.
Proof.
  unfold normalize_line, trim, collapse_spaces.
  pose proof (collapse_length false s).
  pose proof (drop_while_length is_space (collapse_from false s)).
  pose proof (trim_end_length is_space (drop_while is_space (collapse_from false s))). lia.
Qed.

Lemma drop_last_char_length s : (length (drop_last_char s) <= length s)%nat.
Proof.
  unfold drop_last_char. rewrite <- (length_rev s).
  destruct (rev s) as [|a [|b r]]; cbn [length]; [lia..|].
  destruct (_ && _); rewrite length_rev; cbn; lia.
Qed.

Lemma applyKey_ok b g : gate_ok g -> gate_ok (applyKey b g).
Proof.
  intros [Hl Hd]. unfold applyKey, gate_ok.
  pose proof (decoder_write_ok (g_decoder g) b Hd) as [Hw1 Hw2].
  pose proof (drop_last_char_length (g_line g)).
  pose proof (trim_end_length is_space (trim_end (fun c => negb (is_space c)) (g_line g))).
  pose proof (trim_end_length (fun c => negb (is_space c)) (g_line g)).
  destruct (decoder_write (g_decoder g) b) as [d out].
  assert (Hnew : decoder_ok new_StringDecoder) by (split; cbn; lia).
  destruct (_ || _); [split; [cbn; lia|done]|].
  destruct (_ || _); [split; [cbn; lia|done]|].
  destruct (_ =? _); [split; [cbn; unfold drop_last_word; lia|done]|].
  destruct (_ <? _); [done|]. unfold MAX_LINE_CHARS.
  case_match; cbn in *; (split; [rewrite ?length_app; lia|done]).
Qed.

Lemma press_ok b g :
  gate_ok g -> gate_ok (press b g).1 /\
  match (press b g).2 with Some l => (length l <= 4102)%nat | None => True end.
Proof.
  intros Hg. unfold press. pose proof (applyKey_ok b g Hg) as Hk. destruct Hg as [Hl Hd].
  destruct (negb _); [|destruct (b =? ESC); [done|destruct (_ || _); [|done]]].
  - split; [|done]. unfold consumeEscape. by repeat case_match.
  - unfold takeLine, decoder_end. pose proof (utf8_decode_length (sd_buffer (g_decoder g))).
    pose proof (normalize_line_length (g_line g ++ utf8_decode (sd_buffer (g_decoder g)))) as Hn.
    rewrite length_app in Hn. destruct Hd as [_ Hd]. split; [split; [cbn; lia|split; cbn; lia]|].
    cbn [snd]. destruct (normalize_line _) as [|c l]; [done|]. cbn in *. lia.
Qed.

(** An endless line does not fill the memory: whatever the owner or the app
    sends, the line kept is at most 4099 code units long (the limit of 4096 is
    checked before a character is added), the decoder keeps at most three bytes,
    and no line of more than 4102 units reaches the audit. *)
Lemma the_gate_is_bounded (chunks : list bytes) :
  let '(steps, g) := feed_all chunks new_PtyInputGate in
  (length (g_line g) <= 4099)%nat /\ (length (sd_buffer (g_decoder g)) <= 3)%nat /\
  Forall (fun s => match ps_line s with Some l => (length l <= 4102)%nat | None => True end) steps.
Proof.
  assert (Hloop : forall data held g, gate_ok g ->
    gate_ok (feed_loop held data g).2 /\
    Forall (fun s => match ps_line s with Some l => (length l <= 4102)%nat | None => True end)
      (feed_loop held data g).1).
  { induction data as [|b data IH]; intros held g Hg; cbn [feed_loop].
    - split; [done|]. destruct held; repeat constructor.
    - pose proof (press_ok b g Hg) as [Hp1 Hp2]. unfold press in Hp1, Hp2.
      destruct (negb _); [by apply IH|]. destruct (b =? ESC); [by apply IH|].
      destruct (_ || _); [|by apply IH]. destruct (takeLine g) as [g1 line].
      destruct (IH [] g1 Hp1) as [H1 H2]. destruct (feed_loop [] data g1) as [steps g2].
      split; [done|]. by constructor. }
  assert (H : forall g, gate_ok g -> gate_ok (feed_all chunks g).2 /\
    Forall (fun s => match ps_line s with Some l => (length l <= 4102)%nat | None => True end)
      (feed_all chunks g).1).
  { induction chunks as [|c chunks IH]; intros g Hg; cbn [feed_all]; [done|].
    destruct (Hloop c [] g Hg) as [H1 H2]. unfold feed. destruct (feed_loop [] c g) as [s1 g1].
    destruct (IH g1 H1) as [H3 H4]. destruct (feed_all chunks g1) as [s2 g2].
    split; [done|]. by apply Forall_app. }
  destruct (H new_PtyInputGate) as [[H1 [_ H2]] H3]; [split; [cbn; lia|split; cbn; lia]|].
  by destruct (feed_all chunks new_PtyInputGate).
Qed.

(** An Enter inside an escape sequence passes unseen: typed right after the
    Escape key, or while a sequence that begins with Escape and a bracket is
    open, it is forwarded with no line to audit, and the gate goes on with the
    line as if it had not been submitted. *)
Lemma an_enter_after_escape_is_not_a_line (g : PtyInputGate) (enter : Z) :
  enter = CR \/ enter = LF -> g_escape g = esc_none ->
  feed [ESC; enter] g = ([{| ps_bytes := [ESC; enter]; ps_line := None |}], g) /\
  feed [ESC; 91; enter; 65] g = ([{| ps_bytes := [ESC; 91; enter; 65]; ps_line := None |}], g).
Proof. intros [-> | ->] He; destruct g as [line d e]; cbn in He; subst e; done. Qed.

Lemma an_enter_after_escape_is_not_a_line_witness :
  (feed (units "rm -rf x;" ++ [ESC; CR]) new_PtyInputGate).1 =
    [{| ps_bytes := units "rm -rf x;" ++ [ESC; CR]; ps_line := None |}] /\
  feed [ESC; CR] new_PtyInputGate = ([{| ps_bytes := [ESC; CR]; ps_line := None |}], new_PtyInputGate).
Proof.
  split; [reflexivity|].
  exact (proj1 (an_enter_after_escape_is_not_a_line new_PtyInputGate CR (or_introl eq_refl) eq_refl)).
Defined.
End PtyGateProperties.

(** * The preview of the audit *)

Module RedactProperties.
Import PtyGate Redact.

(** The text shows [sk-ant-] followed by a character of a token. *)
Definition leaks (s : text) : Prop :=
  exists pre c post, s = pre ++ SK_ANT ++ c :: post /\ is_token_char c = true.

(** A token starts here. *)
Definition token_here (s : text) : Prop :=
  exists c post, s = SK_ANT ++ c :: post /\ is_token_char c = true.

Lemma no_match_no_token prev s : ANTHROPIC_TOKEN prev s = None -> ~ token_here s.
Proof.
  intros H (c & post & -> & Hc). revert H. unfold ANTHROPIC_TOKEN.
  rewrite (proj2 (strip_prefix_spec SK_ANT (SK_ANT ++ c :: post) (c :: post)) eq_refl).
  cbn [span]. rewrite Hc. by destruct (span is_token_char post).
Qed.

(** A match is longer than it looks, and its replacement is the mark. *)
Lemma match_replacement prev s n r :
  ANTHROPIC_TOKEN prev s = Some (n, r) -> (exists m, n = S m) /\ r = SK_ANT ++ OMITTED /\ token_here s.
Proof.
  unfold ANTHROPIC_TOKEN. destruct (strip_prefix SK_ANT s) as [rest|] eqn:E; [|done].
  apply strip_prefix_spec in E. destruct rest as [|c rest]; [done|]. cbn [span].
  destruct (is_token_char c) eqn:Ec; [|done].
  destruct (span is_token_char rest) as [tok r']. intros [= <- <-].
  split; [by eexists|]. split; [done|]. by exists c, rest.
Qed.

(** The units after the first of [sk-ant-] are not an [s]: what follows the
    output of a replacement cannot be the tail of a token that began before it. *)
Lemma output_continues tail d prev s post :
  115 ∉ tail -> is_token_char d = true ->
  replace_from ANTHROPIC_TOKEN prev 0 s = tail ++ d :: post ->
  exists d' post', s = tail ++ d' :: post' /\ is_token_char d' = true.
Proof.
  revert prev s. induction tail as [|x tail IH]; intros prev s Hx Hd; (destruct s as [|c s]; [done|]); cbn [replace_from app].
  - destruct (ANTHROPIC_TOKEN prev (c :: s)) as [[n r]|] eqn:E.
    + apply match_replacement in E as ([m ->] & -> & c' & post' & Hs & _).
      intros _. injection Hs as -> _. by eexists _, _.
    + intros [= -> _]. by exists d, s.
  - destruct (ANTHROPIC_TOKEN prev (c :: s)) as [[n r]|] eqn:E.
    + apply match_replacement in E as ([m ->] & -> & _). intros H.
      apply (f_equal head) in H. assert (Hx' : x = 115) by (by injection H).
      destruct Hx. rewrite Hx'. by left.
    + intros [= -> H]. apply not_elem_of_cons in Hx as [_ Hx].
      destruct (IH _ _ Hx Hd H) as (d' & post' & -> & Hd'). by exists d', post'.
Qed.

(** [p] holds at no suffix. *)
Fixpoint nowhere (p : text -> Prop) (s : text) : Prop :=
  match s with [] => True | _ :: s' => ~ p s /\ nowhere p s' end.

Lemma nowhere_leaks s : nowhere token_here s -> ~ leaks s.
Proof.
  intros H (pre & c & post & -> & Hc). induction pre as [|x pre IH]; cbn in H.
  - destruct H as [H _]. apply H. by exists c, post.
  - destruct H as [_ H]. by apply IH.
Qed.

(** Tokens begin with an [s]. *)
Lemma nowhere_app_no_s l s : 115 ∉ l -> nowhere token_here s -> nowhere token_here (l ++ s).
Proof.
  induction l as [|x l IH]; intros Hl Hs; [done|]. apply not_elem_of_cons in Hl as [Hx Hl].
  split; [|by apply IH]. intros (c & post & H & _). by injection H as ->.
Qed.

Lemma no_token_after_replacement prev skip s :
  nowhere token_here (replace_from ANTHROPIC_TOKEN prev skip s).
Proof.
  revert prev skip. induction s as [|c s IH]; intros prev skip; [done|]. cbn [replace_from].
  destruct skip as [|k]; [|apply IH].
  destruct (ANTHROPIC_TOKEN prev (c :: s)) as [[n r]|] eqn:E.
  - apply match_replacement in E as ([m ->] & -> & _).
    change (nowhere token_here (115 :: (units "k-ant-[omitido]" ++ replace_from ANTHROPIC_TOKEN (Some c) m s))).
    split; [|apply nowhere_app_no_s, IH; apply (bool_decide_unpack _); by vm_compute].
    intros (d & post & H & Hd). change (units "k-ant-[omitido]") with (units "k-ant-" ++ 91 :: units "omitido]") in H.
    apply (f_equal (fun l => l !! 7%nat)) in H. cbn in H. injection H as <-. done.
  - split; [|apply IH]. intros (d & post & H & Hd). injection H as -> H.
    change (replace_from ANTHROPIC_TOKEN (Some 115) 0 s = units "k-ant-" ++ d :: post) in H.
    apply output_continues in H as (d' & post' & -> & Hd'); [|apply (bool_decide_unpack _); by vm_compute|done].
    eapply no_match_no_token; [exact E|]. by exists d', post'.
Qed.

(** ** White space and cuts do not make a token appear *)

Lemma leaks_app a s b : leaks s -> leaks (a ++ s ++ b).
Proof.
  intros (pre & c & post & -> & Hc). exists (a ++ pre), c, (post ++ b).
  split; [|done]. by rewrite <- !app_assoc.
Qed.

Lemma leaks_take n s : leaks (take n s) -> leaks s.
Proof. intros H. rewrite <- (take_drop n s). by apply (leaks_app []). Qed.

Lemma drop_while_suffix f s : exists a, s = a ++ drop_while f s.
Proof.
  induction s as [|c s [a Ha]]; cbn; [by exists []|]. case_match; [|by exists []].
  exists (c :: a). cbn. by f_equal.
Qed.

Lemma trim_end_prefix f s : exists b, s = trim_end f s ++ b.
Proof.
  destruct (drop_while_suffix f (rev s)) as [a Ha]. exists (rev a).
  apply (f_equal (@rev Z)) in Ha. by rewrite rev_involutive, rev_app_distr in Ha.
Qed.

Lemma leaks_trim s : leaks (trim s) -> leaks s.
Proof.
  unfold trim. intros H. destruct (drop_while_suffix is_space s) as [a Ha].
  destruct (trim_end_prefix is_space (drop_while is_space s)) as [b Hb].
  rewrite Ha, Hb. by apply leaks_app.
Qed.

(** Units that are not white space stay next to each other. *)
Lemma collapse_word w r b s :
  Forall (fun c => is_space c = false) w -> w <> [] ->
  collapse_from b s = w ++ r -> exists a r', s = a ++ w ++ r'.
Proof.
  intros Hw Hne. revert b. induction s as [|c s IH]; intros b H; [by destruct w|].
  destruct w as [|x w]; [done|]. apply Forall_cons in Hw as [Hx Hw]. cbn in H.
  destruct (is_space c) eqn:Ec.
  - destruct b.
    + destruct (IH true H) as (a & r' & ->). by exists (c :: a), r'.
    + injection H as <- _. done.
  - injection H as -> H. clear IH Hx Hne. exists []. cbn.
    assert (Hw' : exists r', s = w ++ r').
    { clear Ec. revert s H. induction Hw as [|y w Hy Hw IHw]; intros s H; [by exists s|].
      destruct s as [|c s]; [done|]. cbn in H. destruct (is_space c); [by injection H as <- _|].
      injection H as -> H. destruct (IHw s H) as [r' ->]. by exists r'. }
    destruct Hw' as [r' ->]. by exists r'.
Qed.

Lemma collapse_infix w b s pre post :
  Forall (fun c => is_space c = false) w -> w <> [] ->
  collapse_from b s = pre ++ w ++ post -> exists a r', s = a ++ w ++ r'.
Proof.
  intros Hw Hne. revert b pre. induction s as [|c s IH]; intros b pre H.
  { destruct pre; [by destruct w|done]. }
  destruct pre as [|x pre]; [by eapply collapse_word|]. cbn in H.
  assert (Hs : forall b', collapse_from b' s = pre ++ w ++ post -> exists a r', c :: s = a ++ w ++ r').
  { intros b' H'. destruct (IH b' pre H') as (a & r' & ->). by exists (c :: a), r'. }
  destruct (is_space c); [|injection H as _ H; by eapply Hs].
  destruct b; [|injection H as _ H; by eapply Hs].
  destruct (IH true (x :: pre) H) as (a & r' & ->). by exists (c :: a), r'.
Qed.

Lemma leaks_collapse s : leaks (collapse_spaces s) -> leaks s.
Proof.
  intros (pre & c & post & H & Hc).
  assert (Hsp : is_space c = false).
  { revert Hc. unfold is_token_char, is_word, is_space. intros Hc.
    repeat (apply orb_true_iff in Hc as [Hc|Hc]); z_bools; lia. }
  unfold collapse_spaces in H.
  change (SK_ANT ++ c :: post) with ((SK_ANT ++ [c]) ++ post) in H.
  apply collapse_infix in H as (a & r' & ->); [| |by destruct SK_ANT].
  - exists a, c, r'. split; [|done]. by rewrite <- app_assoc.
  - apply Forall_app. split; [by repeat constructor|by constructor].
Qed.

(** C24. No Anthropic token reaches the audit log through the preview of a command:
    whatever the line, however it is cut, its preview never shows [sk-ant-]
    followed by a character of a token. *)
Theorem no_token_in_the_preview (line : text) (len : nat) : ~ leaks (auditPreview line len).
Proof.
  intros H. unfold auditPreview, redactSecrets in H.
  apply leaks_take, leaks_trim, leaks_collapse in H. revert H.
  apply nowhere_leaks, no_token_after_replacement.
Qed.
End RedactProperties.
