(* ===== verification/Regex.v ===== *)
(** * Regex: the regular expressions of the language

    Backtracking matching as the language defines it: the alternatives are tried in
    order, a greedy quantifier prefers one more round and a lazy one prefers to
    stop, and a round beyond the least number must consume something.  [matches] is
    what an expression means and [walk_sound] relates the two; [replace] is
    [s.replace(r, f)] with the flag [g], where [f] may keep a state. *)
From S2P Require Import Prelude Text.
From Stdlib Require Import String.
Open Scope stdpp_scope.
Local Open Scope Z_scope.

(** A position in the subject: the units already passed, the last one first, and
    those to come; [groups] are the captures so far. *)
Record Cursor := {
  behind : text;
  ahead : text;
  groups : list (nat * text)
}.

Inductive regex :=
| Empty
| One (p : Z -> bool)                                        (* a class *)
| Cat (a b : regex)
| Or (a b : regex)
| Group (n : nat) (a : regex)
| Many (greedy : bool) (least : nat) (most : option nat) (a : regex)
| Look (p : text -> text -> bool).                           (* an assertion *)

Definition left (x : Cursor) : nat := List.length (ahead x).

Definition advance (c : Z) (x : Cursor) (s : text) : Cursor :=
  {| behind := c :: behind x; ahead := s; groups := groups x |}.

(** What was passed from [x] to [y] becomes the group [n]. *)
Definition capture (n : nat) (x y : Cursor) : Cursor :=
  {| behind := behind y; ahead := ahead y;
     groups := (n, take (left x - left y) (ahead x)) :: groups y |}.

Definition group (n : nat) (y : Cursor) : text :=
  match find (fun g => (fst g =? n)%nat) (groups y) with Some g => snd g | None => [] end.

(** ** Matching *)

(** The rounds of a quantifier around [step], the matcher of its body. *)
Fixpoint rounds (step : Cursor -> (Cursor -> option Cursor) -> option Cursor) (greedy : bool)
    (k : Cursor -> option Cursor) (fuel least : nat) (most : option nat) (x : Cursor) : option Cursor :=
  match most with
  | Some O => k x
  | _ =>
      let one_more (_ : unit) :=
        match fuel with
        | O => None
        | S fuel =>
            step x (fun y =>
              if ((least =? 0) && (left y =? left x))%nat then None
              else rounds step greedy k fuel (Nat.pred least) (Nat.pred <$> most) y)
        end in
      match least with
      | S _ => one_more tt
      | O => if greedy then match one_more tt with Some z => Some z | None => k x end
             else match k x with Some z => Some z | None => one_more tt end
      end
  end.

Fixpoint walk (r : regex) (x : Cursor) (k : Cursor -> option Cursor) : option Cursor :=
  match r with
  | Empty => k x
  | One p =>
      match ahead x with
      | c :: s => if p c then k (advance c x s) else None
      | [] => None
      end
  | Cat a b => walk a x (fun y => walk b y k)
  | Or a b => match walk a x k with Some z => Some z | None => walk b x k end
  | Group n a => walk a x (fun y => k (capture n x y))
  | Many greedy least most a => rounds (walk a) greedy k (least + S (left x)) least most x
  | Look p => if p (behind x) (ahead x) then k x else None
  end.

(** The match of [r] that begins here; the group 0 is all of it. *)
Definition exec (r : regex) (before s : text) : option Cursor :=
  walk (Group 0 r) {| behind := before; ahead := s; groups := [] |} Some.

(** [skip] counts the units of the last match still to pass. *)
Fixpoint replace_from {S} (r : regex) (f : S -> Cursor -> S * text) (st : S) (before : text)
    (skip : nat) (s : text) : S * text :=
  let copy st skip :=
    match s with
    | [] => (st, [])
    | c :: s' => replace_from r f st (c :: before) skip s'
    end in
  match skip with
  | S k => copy st k
  | O =>
      match exec r before s with
      | None => let '(st', out) := copy st 0%nat in (st', take 1 s ++ out)
      | Some y =>
          let '(st', new) := f st y in
          let n := (List.length s - left y)%nat in
          let '(st'', out) := copy st' (Nat.pred n) in
          (st'', new ++ (if (n =? 0)%nat then take 1 s else []) ++ out)
      end
  end.

Definition replace {S} (r : regex) (f : S -> Cursor -> S * text) (st : S) (s : text) : S * text :=
  replace_from r f st [] 0 s.

(** A replacement that keeps no state. *)
Definition substitute (r : regex) (f : Cursor -> text) (s : text) : text :=
  snd (replace r (fun (_ : unit) y => (tt, f y)) tt s).

(** ** Classes and assertions *)

Definition chars (s : string) : Z -> bool := fun c => existsb (Z.eqb c) (units s).
Definition not_in (p : Z -> bool) : Z -> bool := fun c => negb (p c).
Definition exactly (c : Z) : Z -> bool := Z.eqb c.
Definition either (p q : Z -> bool) : Z -> bool := fun c => p c || q c.
Definition any : Z -> bool := fun _ => true.

Definition LF : Z := 10.
Definition is_line_end (c : Z) : bool := (c =? 10) || (c =? 13) || (c =? 8232) || (c =? 8233).
(** The dot, and white space other than a line feed. *)
Definition dot : Z -> bool := not_in is_line_end.
Definition blank (c : Z) : bool := is_space c && negb (c =? LF).

Definition line_start (b _ : text) : bool := match b with [] => true | c :: _ => is_line_end c end.
Definition line_end (_ s : text) : bool := match s with [] => true | c :: _ => is_line_end c end.

(** The code points next to a position, for a pattern with the flag [u]. *)
Definition point_behind (b : text) : option Z :=
  match b with
  | lo :: hi :: _ =>
      if is_high_surrogate hi && is_low_surrogate lo
      then Some (65536 + 1024 * (hi - 55296) + (lo - 56320)) else Some lo
  | [c] => Some c
  | [] => None
  end.
Definition point_ahead (s : text) : option Z := match code_points s with c :: _ => Some c | [] => None end.
Definition not_behind (p : Z -> bool) (b _ : text) : bool :=
  match point_behind b with Some c => negb (p c) | None => true end.
Definition not_ahead (p : Z -> bool) (_ s : text) : bool :=
  match point_ahead s with Some c => negb (p c) | None => true end.

Fixpoint lit (s : text) : regex :=
  match s with [] => Empty | c :: s' => Cat (One (exactly c)) (lit s') end.
Definition star p := Many true 0 None (One p).
Definition plus p := Many true 1 None (One p).
Definition opt r := Many true 0 (Some 1%nat) r.

(** [s.replaceAll(pattern, replacement)] of two strings. *)
Definition replaceAll (pattern replacement : text) : text -> text :=
  substitute (lit pattern) (fun _ => replacement).

(** ** What an expression means *)

Definition at_most (n : nat) (most : option nat) : Prop :=
  match most with Some m => (n <= m)%nat | None => True end.

(** An expression read as a relation between positions; the bounds of a
    quantifier are those the number of rounds obeys. *)
Fixpoint matches (r : regex) (x y : Cursor) : Prop :=
  match r with
  | Empty => y = x
  | One p => exists c s, ahead x = c :: s /\ p c = true /\ y = advance c x s
  | Cat a b => exists z, matches a x z /\ matches b z y
  | Or a b => matches a x y \/ matches b x y
  | Group n a => exists z, matches a x z /\ y = capture n x z
  | Many _ least most a =>
      exists n, (at_most least most -> (least <= n)%nat) /\ at_most n most /\ nsteps (matches a) n x y
  | Look p => p (behind x) (ahead x) = true /\ y = x
  end.

(** ** Soundness: a match found is a match *)

Definition next_round step greedy k fuel least most x (y : Cursor) : option Cursor :=
  if ((least =? 0) && (left y =? left x))%nat then None
  else rounds step greedy k fuel (Nat.pred least) (Nat.pred <$> most) y.

(** A quantifier that succeeds either stopped here or made one more round. *)
Lemma rounds_cases step greedy k fuel least most x z :
  rounds step greedy k fuel least most x = Some z ->
  (k x = Some z /\ (at_most least most -> least = 0%nat)) \/
  (exists fuel', fuel = S fuel' /\ at_most 1 most /\
    step x (next_round step greedy k fuel' least most x) = Some z).
Proof.
  unfold next_round. destruct fuel as [|fuel]; cbn [rounds]; intros H;
    destruct most as [[|m]|], least as [|l]; try destruct greedy; break;
    first [ left; split; [done|cbn; lia] | right; exists fuel; split; [done|split; [cbn; lia|done]] ].
Qed.

Lemma rounds_sound step a greedy k :
  (forall x k z, step x k = Some z -> exists y, matches a x y /\ k y = Some z) ->
  forall fuel least most x z,
  rounds step greedy k fuel least most x = Some z ->
  exists n y, (at_most least most -> (least <= n)%nat) /\ at_most n most /\
    nsteps (matches a) n x y /\ k y = Some z.
Proof.
  intros Hstep fuel. induction fuel as [|fuel IH]; intros least most x z H;
    destruct (rounds_cases _ _ _ _ _ _ _ _ H) as [[Hk Hz]|(f & Hf & Hm & Hs)];
    try (exists 0%nat, x; split; [intros; rewrite Hz by done; lia|split; [destruct most; cbn; lia|by split; [constructor|]]]).
  - done.
  - injection Hf as ->. destruct (Hstep _ _ _ Hs) as (y & Hy & Hn). unfold next_round in Hn. case_match; [done|].
    destruct (IH _ _ _ _ Hn) as (n & w & H1 & H2 & H3 & H4). exists (S n), w.
    split; [|split; [|split; [by econstructor|done]]]; destruct most as [m|]; cbn in *; lia.
Qed.

Lemma walk_sound r : forall x k z, walk r x k = Some z -> exists y, matches r x y /\ k y = Some z.
Proof.
  induction r as [|p|a IHa b IHb|a IHa b IHb|n a IHa|greedy least most a IHa|p]; intros x k z H; cbn [walk matches] in *.
  - eauto.
  - destruct (ahead x) as [|c s] eqn:E; [done|]. case_match; [|done]. eexists; split; [|done]. eauto.
  - destruct (IHa _ _ _ H) as (y & Hy & Hk). destruct (IHb _ _ _ Hk) as (w & Hw & Hz). eauto.
  - case_match eqn:E; [simplify_eq|].
    + destruct (IHa _ _ _ E) as (y & Hy & Hk). eauto.
    + destruct (IHb _ _ _ H) as (y & Hy & Hk). eauto.
  - destruct (IHa _ _ _ H) as (y & Hy & Hk). eauto.
  - destruct (rounds_sound _ a _ _ IHa _ _ _ _ _ H) as (n & y & H1 & H2 & H3 & H4). eauto 10.
  - case_match; [|done]. eauto.
Qed.

(** ** Completeness: the rounds of a quantifier that always consumes find every match *)

(** Every round of every quantifier of [r] consumes something, and its bounds make sense. *)
Fixpoint advances (r : regex) : Prop :=
  match r with
  | Cat a b | Or a b => advances a /\ advances b
  | Group _ a => advances a
  | Many _ least most a =>
      advances a /\ at_most least most /\ forall x y, matches a x y -> (left y < left x)%nat
  | _ => True
  end.

Lemma rounds_complete (a : regex) step greedy k :
  (forall x k y, matches a x y -> k y <> None -> step x k <> None) ->
  (forall x y, matches a x y -> (left y < left x)%nat) ->
  forall n fuel least most x y,
  nsteps (matches a) n x y -> (least <= n)%nat -> at_most n most -> (n < fuel)%nat -> k y <> None ->
  rounds step greedy k fuel least most x <> None.
Proof.
  intros Hstep Hless n. induction n as [|n IH]; intros fuel least most x y Hn Hleast Hmost Hfuel Hk;
    inversion Hn as [|? ? z ? Ha Hz]; subst; clear Hn.
  - assert (least = 0%nat) as -> by lia. destruct fuel as [|fuel]; cbn [rounds];
      destruct most as [[|m]|], greedy; try done; repeat (case_match; try done).
  - destruct fuel as [|fuel]; [lia|].
    assert (Hone : step x (fun w => if ((least =? 0) && (left w =? left x))%nat then None
      else rounds step greedy k fuel (Nat.pred least) (Nat.pred <$> most) w) <> None).
    { apply (Hstep x _ z Ha). pose proof (Hless _ _ Ha).
      replace (left z =? left x)%nat with false by (symmetry; apply Nat.eqb_neq; lia). rewrite andb_false_r.
      apply (IH fuel _ _ z y); [done|lia|destruct most; cbn in *; lia|lia|done]. }
    destruct most as [[|m]|]; cbn in Hmost; [lia| |]; cbn [rounds]; destruct least; [destruct greedy| |destruct greedy|];
      try exact Hone; repeat (case_match; try congruence).
Qed.

Lemma nsteps_left (a : regex) n x y :
  (forall x y, matches a x y -> (left y < left x)%nat) -> nsteps (matches a) n x y -> (n + left y <= left x)%nat.
Proof. intros Ha Hn. induction Hn as [x|n x z y Hxz _ IH]; [lia|]. specialize (Ha _ _ Hxz). lia. Qed.

(** A match that the rest of the expression accepts is found, or another one is. *)
Lemma walk_complete r : advances r -> forall x k y, matches r x y -> k y <> None -> walk r x k <> None.
Proof.
  induction r as [|p|a IHa b IHb|a IHa b IHb|n a IHa|greedy least most a IHa|p]; cbn [advances matches walk]; intros Hc x k y H Hk.
  - by subst.
  - destruct H as (c & s & -> & -> & ->). done.
  - destruct Hc as [Ha Hb], H as (z & Hz & Hy). eapply IHa; [done|exact Hz|]. by eapply IHb.
  - destruct Hc as [Ha Hb]. case_match eqn:E; [done|]. destruct H as [H|H]; [|by eapply IHb].
    exfalso. by apply (IHa Ha _ _ _ H Hk).
  - destruct H as (z & Hz & ->). by eapply IHa.
  - destruct Hc as (Ha & Hm & Hless), H as (n & Hn & Hmost & Hsteps).
    apply (rounds_complete a (walk a) greedy k (fun x k y H Hk => IHa Ha x k y H Hk) Hless n _ _ _ x y); auto.
    pose proof (nsteps_left a n x y Hless Hsteps). lia.
  - destruct H as [-> ->]. done.
Qed.

(** ** What a match passes over *)

Definition passes (x : Cursor) (m : text) (y : Cursor) : Prop :=
  ahead x = m ++ ahead y /\ behind y = rev m ++ behind x.

Lemma passes_refl x : passes x [] x.
Proof. done. Qed.

Lemma passes_trans x m y n z : passes x m y -> passes y n z -> passes x (m ++ n) z.
Proof.
  intros [H1 H2] [H3 H4]. split; [by rewrite H1, H3, app_assoc|].
  by rewrite H4, H2, rev_app_distr, app_assoc.
Qed.

Lemma matches_passes r : forall x y, matches r x y -> exists m, passes x m y.
Proof.
  induction r as [|p|a IHa b IHb|a IHa b IHb|n a IHa|greedy least most a IHa|p]; intros x y H; cbn [matches] in H.
  - subst. eexists. apply passes_refl.
  - destruct H as (c & s & Hc & _ & ->). by exists [c].
  - destruct H as (z & Ha & Hb). destruct (IHa _ _ Ha) as [m Hm], (IHb _ _ Hb) as [n Hn].
    eexists. by eapply passes_trans.
  - destruct H as [H|H]; eauto.
  - destruct H as (z & Ha & ->). destruct (IHa _ _ Ha) as [m [H1 H2]]. by exists m.
  - destruct H as (n & _ & _ & H). induction H as [x|n x y z Ha H IH]; [eexists; apply passes_refl|].
    destruct (IHa _ _ Ha) as [m Hm], IH as [k Hk]. eexists. by eapply passes_trans.
  - destruct H as [_ ->]. eexists. apply passes_refl.
Qed.

Lemma passes_left x m y : passes x m y -> left x = (List.length m + left y)%nat.
Proof. intros [H _]. unfold left. by rewrite H, length_app. Qed.

(** A group is what its body passed over. *)
Lemma capture_passes n x m y : passes x m y -> passes x m (capture n x y) /\ group n (capture n x y) = m.
Proof.
  intros [H1 H2]. split; [done|]. unfold group. cbn. rewrite Nat.eqb_refl. cbn.
  unfold left. rewrite H1, length_app. rewrite take_app_length'; [done|lia].
Qed.

(** Passing [m] without a capture. *)
Definition takes (x : Cursor) (m : text) (y : Cursor) : Prop := passes x m y /\ groups y = groups x.

Lemma takes_trans x m y n z : takes x m y -> takes y n z -> takes x (m ++ n) z.
Proof. intros [H1 H2] [H3 H4]. split; [by eapply passes_trans|congruence]. Qed.

Lemma matches_one p x y : matches (One p) x y -> exists c, p c = true /\ takes x [c] y.
Proof. intros (c & s & H1 & H2 & ->). by exists c. Qed.

Lemma matches_many p g least most x y :
  matches (Many g least most (One p)) x y ->
  exists m, Forall (fun c => p c = true) m /\ (at_most least most -> (least <= List.length m)%nat) /\
    at_most (List.length m) most /\ takes x m y.
Proof.
  intros (n & H1 & H2 & H). enough (exists m, Forall (fun c => p c = true) m /\ List.length m = n /\ takes x m y)
    as (m & ? & <- & ?) by eauto 10. clear H1 H2.
  induction H as [x|n x y z Ha H IH]; [by exists []|].
  destruct (matches_one _ _ _ Ha) as (c & Hc & Ht), IH as (m & Hm & Hl & Hu).
  exists (c :: m). split; [by constructor|split; [cbn; lia|]]. by apply (takes_trans x [c] y m z).
Qed.

Lemma matches_lit s : forall x y, matches (lit s) x y -> takes x s y.
Proof.
  induction s as [|c s IH]; intros x y H; cbn [lit] in H; [by rewrite H|].
  destruct H as (z & H1 & H2). destruct (matches_one _ _ _ H1) as (d & Hd & Ht).
  apply Z.eqb_eq in Hd as ->. apply (takes_trans x [d] z s y); eauto.
Qed.

(** ** The words of an expression

    An expression without captures and assertions is a set of texts. *)
Fixpoint plain (r : regex) : Prop :=
  match r with
  | Empty | One _ => True
  | Cat a b | Or a b => plain a /\ plain b
  | Many _ _ _ a => plain a
  | Group _ _ | Look _ => False
  end.

Fixpoint lang (r : regex) (m : text) : Prop :=
  match r with
  | Empty => m = []
  | One p => exists c, p c = true /\ m = [c]
  | Cat a b => exists m1 m2, m = m1 ++ m2 /\ lang a m1 /\ lang b m2
  | Or a b => lang a m \/ lang b m
  | Many _ least most a =>
      exists ms, m = List.concat ms /\ Forall (lang a) ms /\
        (at_most least most -> (least <= List.length ms)%nat) /\ at_most (List.length ms) most
  | Group _ a => lang a m
  | Look _ => False
  end.

Lemma takes_split x m1 m2 y : takes x (m1 ++ m2) y -> exists z, takes x m1 z /\ takes z m2 y.
Proof.
  intros [[Ha Hb] Hg]. exists {| behind := rev m1 ++ behind x; ahead := m2 ++ ahead y; groups := groups x |}.
  split; (split; [split|]); cbn; [by rewrite Ha, app_assoc|done|done|done|by rewrite Hb, rev_app_distr, app_assoc|done].
Qed.

Lemma takes_nil x y : takes x [] y <-> y = x.
Proof.
  split; [|by intros ->]. intros [[Ha Hb] Hg]. destruct x, y; cbn in *. by subst.
Qed.

Lemma matches_lang r : plain r -> forall x y, matches r x y <-> exists m, takes x m y /\ lang r m.
Proof.
  induction r as [|p|a IHa b IHb|a IHa b IHb|n a IHa|greedy least most a IHa|p]; cbn [plain matches lang]; intros Hp x y.
  - split; [intros ->; by exists []|]. intros (m & Ht & ->). by apply takes_nil in Ht.
  - split.
    + intros H. destruct (matches_one p x y H) as (c & Hc & Ht). exists [c]. split; [done|by exists c].
    + intros (m & [[Ha Hb] Hg] & c & Hc & ->). exists c, (ahead y). split; [done|]. split; [done|].
      destruct x, y; cbn in *. by subst.
  - destruct Hp as [Hpa Hpb]. split.
    + intros (z & Ha & Hb). apply (IHa Hpa) in Ha as (m1 & H1 & L1). apply (IHb Hpb) in Hb as (m2 & H2 & L2).
      exists (m1 ++ m2). split; [by eapply takes_trans|by exists m1, m2].
    + intros (m & Ht & m1 & m2 & -> & L1 & L2). apply takes_split in Ht as (z & H1 & H2). exists z. split.
      * apply (IHa Hpa). by exists m1.
      * apply (IHb Hpb). by exists m2.
  - destruct Hp as [Hpa Hpb]. rewrite (IHa Hpa), (IHb Hpb). naive_solver.
  - done.
  - split.
    + intros (n & Hl & Hm & Hs). revert Hl Hm. enough (exists ms, takes x (List.concat ms) y /\ Forall (lang a) ms /\ List.length ms = n)
        as (ms & Ht & Hms & <-) by (intros; exists (List.concat ms); split; [done|by exists ms]).
      induction Hs as [x|n x z y Hxz _ IH]; [exists []; by rewrite takes_nil|].
      destruct IH as (ms & Ht & Hms & <-). apply (IHa Hp) in Hxz as (m & Hm & Lm).
      exists (m :: ms). split; [by eapply takes_trans|]. split; [by constructor|done].
    + intros (m & Ht & ms & -> & Hms & Hl & Hm). exists (List.length ms). split; [done|]. split; [done|].
      clear Hl Hm. revert x Ht. induction Hms as [|m ms Lm _ IH]; cbn [List.concat]; intros x Ht.
      * apply takes_nil in Ht as ->. constructor.
      * apply takes_split in Ht as (z & H1 & H2). econstructor; [apply (IHa Hp); by exists m|by apply IH].
  - done.
Qed.

Lemma lang_lit s m : lang (lit s) m <-> m = s.
Proof.
  revert m. induction s as [|c s IH]; intros m; cbn [lit lang]; [done|]. split.
  - intros (m1 & m2 & -> & (d & Hd & ->) & ->%IH). apply Z.eqb_eq in Hd as ->. done.
  - intros ->. exists [c], s. split; [done|]. split; [|by apply IH]. exists c. by rewrite (Z.eqb_refl c : exactly c c = true).
Qed.

Lemma lang_ones p ms : Forall (lang (One p)) ms -> Forall (fun c => p c = true) (List.concat ms) /\ List.length (List.concat ms) = List.length ms.
Proof.
  induction 1 as [|m ms (c & Hc & ->) _ [IH1 IH2]]; [done|]. cbn. split; [by constructor|by rewrite IH2].
Qed.

Lemma lang_many p greedy least most m :
  lang (Many greedy least most (One p)) m <->
  Forall (fun c => p c = true) m /\ (at_most least most -> (least <= List.length m)%nat) /\ at_most (List.length m) most.
Proof.
  cbn [lang]. split.
  - intros (ms & -> & Hms & Hl & Hm). destruct (lang_ones p ms Hms) as [H1 ->]. done.
  - intros (Hp & Hl & Hm). exists (map (fun c => [c]) m). rewrite length_map. split; [|split; [|done]].
    + clear. by induction m as [|c m IH]; cbn; [|rewrite <- IH].
    + apply Forall_map. eapply Forall_impl; [exact Hp|]. intros c Hc. cbn. by exists c.
Qed.

Lemma lang_opt r m : lang (opt r) m <-> m = [] \/ lang r m.
Proof.
  cbn [opt lang]. split.
  - intros ([|w [|w' ms]] & -> & Hms & _ & Hm); cbn in Hm; [by left| |lia].
    right. apply Forall_cons in Hms as [Hw _]. cbn. by rewrite app_nil_r.
  - intros [->|H].
    + exists []. cbn. split; [done|]. split; [constructor|lia].
    + exists [m]. cbn. rewrite app_nil_r. split; [done|]. split; [by constructor|lia].
Qed.

(** [exec] finds a match when there is one. *)
Lemma exec_complete r before s y :
  advances r -> matches r {| behind := before; ahead := s; groups := [] |} y -> exec r before s <> None.
Proof.
  intros Hr Hy. unfold exec. apply (walk_complete (Group 0 r) Hr _ _ (capture 0 {| behind := before; ahead := s; groups := [] |} y));
    [|done]. cbn [matches]. by exists y.
Qed.

(** ** Replacing *)

Lemma replace_from_skip {S} r (f : S -> Cursor -> S * text) st m : forall before s,
  replace_from r f st before (List.length m) (m ++ s) = replace_from r f st (rev m ++ before) 0 s.
Proof.
  induction m as [|c m IH]; intros before s; [done|]. cbn [List.length app replace_from rev].
  rewrite IH. by rewrite <- app_assoc.
Qed.

Lemma replace_from_nil {S} r (f : S -> Cursor -> S * text) st before :
  exec r before [] = None -> replace_from r f st before 0 [] = (st, []).
Proof. intros H. cbn [replace_from]. by rewrite H. Qed.

Lemma replace_from_copy {S} r (f : S -> Cursor -> S * text) st before c s :
  exec r before (c :: s) = None ->
  replace_from r f st before 0 (c :: s) =
  let '(st', out) := replace_from r f st (c :: before) 0 s in (st', c :: out).
Proof. intros H. cbn [replace_from]. rewrite H. by case_match. Qed.

Lemma replace_from_match {S} r (f : S -> Cursor -> S * text) st before m s y :
  exec r before (m ++ s) = Some y -> m <> [] -> ahead y = s ->
  replace_from r f st before 0 (m ++ s) =
  let '(st', new) := f st y in
  let '(st'', out) := replace_from r f st' (rev m ++ before) 0 s in (st'', new ++ out).
Proof.
  intros H Hm Hy. destruct m as [|c m]; [done|]. cbn [app] in *. cbn [replace_from].
  rewrite H. unfold left. rewrite Hy. cbn [List.length]. rewrite length_app.
  replace (Datatypes.S (List.length m + List.length s) - List.length s)%nat with (Datatypes.S (List.length m)) by lia.
  cbn [Nat.pred Nat.eqb]. destruct (f st y) as [st' new].
  rewrite replace_from_skip. cbn [rev]. by rewrite <- app_assoc.
Qed.

(** The match that [exec] finds, as a part of the subject. *)
Lemma exec_passes r before s y :
  exec r before s = Some y ->
  exists m z, matches r {| behind := before; ahead := s; groups := [] |} z /\
    y = capture 0 {| behind := before; ahead := s; groups := [] |} z /\
    s = m ++ ahead z /\ behind z = rev m ++ before.
Proof.
  unfold exec. intros H. destruct (walk_sound _ _ _ _ H) as (w & (z & Hz & ->) & Hs). simplify_eq.
  destruct (matches_passes _ _ _ Hz) as (m & H1 & H2). eauto 10.
Qed.

(** ** The rounds allowed to a quantifier are enough

    A round beyond the least number consumes a unit, so that more of them than
    units are to come change nothing. *)

Definition local step := forall x (k k' : Cursor -> option Cursor),
  (forall y, (left y <= left x)%nat -> k y = k' y) -> step x k = step x k' :> option Cursor.

Lemma rounds_fuel step greedy k : local step -> forall fuel more least most x,
  (least + left x < fuel)%nat ->
  rounds step greedy k (fuel + more) least most x = rounds step greedy k fuel least most x.
Proof.
  intros Hstep fuel. induction fuel as [|fuel IH]; intros more least most x Hf; [lia|].
  cbn [rounds Nat.add].
  assert (Hnext : step x (fun y => if ((least =? 0) && (left y =? left x))%nat then None
        else rounds step greedy k (fuel + more) (Nat.pred least) (Nat.pred <$> most) y) =
      step x (fun y => if ((least =? 0) && (left y =? left x))%nat then None
        else rounds step greedy k fuel (Nat.pred least) (Nat.pred <$> most) y)).
  { apply Hstep. intros y Hy. destruct (((least =? 0) && (left y =? left x))%nat) eqn:E; [done|].
    apply IH. destruct least; cbn in *; [apply Nat.eqb_neq in E; lia|lia]. }
  by rewrite Hnext.
Qed.

Lemma rounds_local step greedy : local step -> forall fuel least most x k k',
  (forall y, (left y <= left x)%nat -> k y = k' y) ->
  rounds step greedy k fuel least most x = rounds step greedy k' fuel least most x.
Proof.
  intros Hstep fuel. induction fuel as [|fuel IH]; intros least most x k k' Hk; cbn [rounds]; [by rewrite Hk|].
  rewrite (Hstep x _ (fun y => if ((least =? 0) && (left y =? left x))%nat then None
        else rounds step greedy k' fuel (Nat.pred least) (Nat.pred <$> most) y)); [by rewrite Hk|].
  intros y Hy. case_match; [done|]. apply IH. intros w Hw. apply Hk. lia.
Qed.

Lemma walk_local r : local (walk r).
Proof.
  induction r as [|p|a IHa b IHb|a IHa b IHb|n a IHa|greedy least most a IHa|p]; intros x k k' Hk; cbn [walk].
  - by apply Hk.
  - destruct (ahead x) as [|c s] eqn:E; [done|]. case_match; [|done]. apply Hk. unfold left, advance. cbn. rewrite E. cbn. lia.
  - apply IHa. intros y Hy. apply IHb. intros z Hz. apply Hk. lia.
  - by rewrite (IHa x k k'), (IHb x k k').
  - apply IHa. intros y Hy. by apply Hk.
  - by apply rounds_local.
  - case_match; [|done]. by apply Hk.
Qed.

(** Giving a quantifier more rounds than [walk] does changes nothing. *)
Lemma enough_rounds greedy least most a x k more :
  rounds (walk a) greedy k (least + S (left x) + more) least most x =
  walk (Many greedy least most a) x k.
Proof. cbn [walk]. apply rounds_fuel; [apply walk_local|lia]. Qed.

(** ** What the expressions of a subject are made of *)

Lemma matches_opt r x y : matches (opt r) x y -> y = x \/ matches r x y.
Proof.
  intros (n & _ & Hn & H). cbn in Hn. inversion H as [|? ? z ? Ha Hb]; subst; [by left|right].
  inversion Hb; subst; [done|cbn in Hn; lia].
Qed.

Lemma group_takes n x m y : takes x m y -> group n y = group n x.
Proof. intros [_ H]. unfold group. by rewrite H. Qed.

Lemma group_other n k x y : n <> k -> group n (capture k x y) = group n y.
Proof. intros H. unfold group. cbn. by destruct (Nat.eqb_spec k n). Qed.

(** Take a match apart into the texts it passes over. *)
Ltac take_apart :=
  repeat match goal with
  | H : matches (Cat _ _) _ _ |- _ => destruct H as (? & ? & ?)
  | H : matches (Or _ _) _ _ |- _ => destruct H as [H|H]
  | H : matches (Group _ _) _ _ |- _ => destruct H as (? & H & ->)
  | H : matches (Look _) _ _ |- _ => destruct H as [? ->]
  | H : matches (lit _) _ _ |- _ => apply matches_lit in H
  | H : matches (One _) _ _ |- _ => apply matches_one in H as (? & ? & H)
  | H : matches (Many _ _ _ (One _)) _ _ |- _ => apply matches_many in H as (? & ? & ? & ? & H)
  | H : matches (star _) _ _ |- _ => apply matches_many in H as (? & ? & _ & _ & H)
  | H : matches (plus _) _ _ |- _ => apply matches_many in H as (? & ? & ? & _ & H)
  | H : matches (opt _) _ _ |- _ => apply matches_opt in H as [->|H]
  end.

(** The equations of the texts passed. *)
Ltac passed :=
  repeat match goal with
  | H : takes _ _ _ |- _ => let A := fresh "Hahead" in let B := fresh "Hbehind" in let C := fresh "Hgroups" in
      destruct H as [[A B] C]; cbn [ahead behind groups capture] in A, B, C
  end.

(** An expression without groups captures nothing. *)
Fixpoint ungrouped (r : regex) : bool :=
  match r with
  | Cat a b | Or a b => ungrouped a && ungrouped b
  | Group _ _ => false
  | Many _ _ _ a => ungrouped a
  | Empty | One _ | Look _ => true
  end.

Lemma matches_groups r : ungrouped r = true -> forall x y, matches r x y -> groups y = groups x.
Proof.
  induction r as [|p|a IHa b IHb|a IHa b IHb|n a IHa|greedy least most a IHa|p]; cbn [ungrouped matches];
    rewrite ?andb_true_iff; intros Hr x y H; [by subst| | | |done| |by destruct H as [_ ->]].
  - by destruct H as (c & s & _ & _ & ->).
  - destruct Hr, H as (z & Ha & Hb). by rewrite (IHb ltac:(done) _ _ Hb), (IHa ltac:(done) _ _ Ha).
  - destruct Hr, H as [H|H]; eauto.
  - destruct H as (n & _ & _ & H). induction H as [|n x y z Ha H IH]; [done|]. by rewrite IH, (IHa Hr _ _ Ha).
Qed.

(** Every class of the expression is within [P]. *)
Fixpoint units_in (P : Z -> Prop) (r : regex) : Prop :=
  match r with
  | One p => forall c, p c = true -> P c
  | Cat a b | Or a b => units_in P a /\ units_in P b
  | Group _ a | Many _ _ _ a => units_in P a
  | Empty | Look _ => True
  end.

(** The expression passes over something. *)
Fixpoint consumes (r : regex) : bool :=
  match r with
  | One _ => true
  | Cat a b => consumes a || consumes b
  | Or a b => consumes a && consumes b
  | Group _ a => consumes a
  | Many _ least most a =>
      (0 <? least)%nat && match most with Some m => (least <=? m)%nat | None => true end && consumes a
  | Empty | Look _ => false
  end.

Lemma matches_units P r : units_in P r -> forall x y, matches r x y -> exists m, passes x m y /\ Forall P m.
Proof.
  induction r as [|p|a IHa b IHb|a IHa b IHb|n a IHa|greedy least most a IHa|p]; cbn [units_in matches]; intros Hr x y H.
  - subst. exists []. by split; [apply passes_refl|].
  - destruct H as (c & s & Hc & Hp & ->). exists [c]. split; [done|]. by repeat constructor; apply Hr.
  - destruct Hr, H as (z & Ha & Hb). destruct (IHa ltac:(done) _ _ Ha) as (m & Hm & Pm), (IHb ltac:(done) _ _ Hb) as (n & Hn & Pn).
    exists (m ++ n). split; [by eapply passes_trans|by apply Forall_app].
  - destruct Hr, H as [H|H]; eauto.
  - destruct H as (z & Ha & ->). destruct (IHa ltac:(done) _ _ Ha) as (m & [H1 H2] & Pm). by exists m.
  - destruct H as (n & _ & _ & H). induction H as [x|n x y z Ha H IH]; [exists []; by split; [apply passes_refl|]|].
    destruct (IHa ltac:(done) _ _ Ha) as (m & Hm & Pm), IH as (k & Hk & Pk). exists (m ++ k).
    split; [by eapply passes_trans|by apply Forall_app].
  - destruct H as [_ ->]. exists []. by split; [apply passes_refl|].
Qed.

Lemma consumes_left r : forall x y, matches r x y ->
  (left y <= left x)%nat /\ (consumes r = true -> (left y < left x)%nat).
Proof.
  induction r as [|p|a IHa b IHb|a IHa b IHb|n a IHa|greedy least most a IHa|p]; cbn [consumes matches]; intros x y H.
  - by subst.
  - destruct H as (c & s & Hc & _ & ->). unfold left, advance. cbn [ahead]. rewrite Hc. cbn. lia.
  - destruct H as (z & Ha & Hb). destruct (IHa _ _ Ha), (IHb _ _ Hb). rewrite orb_true_iff. naive_solver lia.
  - rewrite andb_true_iff. destruct H as [H|H]; [destruct (IHa _ _ H)|destruct (IHb _ _ H)]; naive_solver lia.
  - destruct H as (z & Ha & ->). by destruct (IHa _ _ Ha).
  - destruct H as (n & Hn & Hm & H). rewrite !andb_true_iff, Nat.ltb_lt.
    assert (Hs : (left y <= left x)%nat /\ ((0 < n)%nat -> consumes a = true -> (left y < left x)%nat)).
    { clear Hn Hm. induction H as [x|n x y z Ha H IH]; [split; [done|lia]|].
      destruct (IHa _ _ Ha), IH. naive_solver lia. }
    split; [apply Hs|]. intros [[Hl Hb] Hc]. apply Hs; [|done].
    enough (least <= n)%nat by lia. apply Hn. destruct most; cbn; [by apply Nat.leb_le|done].
  - destruct H as [_ ->]. naive_solver lia.
Qed.

(** ** Replacing a literal *)

Lemma walk_lit p : forall x k, walk (lit p) x k =
  match strip_prefix p (ahead x) with
  | Some s => k {| behind := rev p ++ behind x; ahead := s; groups := groups x |}
  | None => None
  end.
Proof.
  induction p as [|c p IH]; intros x k; [by destruct x|]. cbn [lit walk].
  destruct (ahead x) as [|d s]; [done|]. cbn [strip_prefix]. unfold exactly. destruct (c =? d) eqn:E; [|done].
  apply Z.eqb_eq in E as ->. rewrite IH. cbn [ahead behind advance groups]. case_match; [|done].
  cbn [rev]. by rewrite <- app_assoc.
Qed.

Lemma exec_lit p before s : exec (lit p) before s =
  match strip_prefix p s with
  | Some rest => Some (capture 0 {| behind := before; ahead := s; groups := [] |}
                        {| behind := rev p ++ before; ahead := rest; groups := [] |})
  | None => None
  end.
Proof. unfold exec. cbn [walk]. rewrite walk_lit. cbn [ahead]. by case_match. Qed.

Lemma replace_literal_before p r s : forall before before' n,
  snd (replace_from (lit p) (fun (_ : unit) (_ : Cursor) => (tt, r)) tt before n s) =
  snd (replace_from (lit p) (fun _ _ => (tt, r)) tt before' n s).
Proof.
  induction s as [|c s IH]; intros before before' n; destruct n as [|n]; cbn [replace_from]; [|done| |by apply IH].
  - rewrite !exec_lit. by destruct (strip_prefix p []).
  - rewrite !exec_lit. destruct (strip_prefix p (c :: s)) as [rest|].
    + unfold left. cbn [ahead capture].
      match goal with |- snd (let '(_, _) := replace_from _ _ _ _ ?k _ in _) = _ => specialize (IH (c :: before) (c :: before') k) end.
      destruct (replace_from _ _ _ _ _ s), (replace_from _ _ _ (c :: before') _ s). cbn in *. by rewrite IH.
    + specialize (IH (c :: before) (c :: before') 0%nat).
      destruct (replace_from _ _ _ _ _ s), (replace_from _ _ _ (c :: before') _ s). cbn in *. by rewrite IH.
Qed.

Lemma replaceAll_hit p r s : p <> [] -> replaceAll p r (p ++ s) = r ++ replaceAll p r s.
Proof.
  intros Hp. unfold replaceAll, substitute, replace.
  erewrite replace_from_match; [|by rewrite exec_lit, (proj2 (strip_prefix_spec p (p ++ s) s) eq_refl)|done|done].
  rewrite (replace_literal_before _ _ _ [] (rev p ++ [])). by case_match.
Qed.

Lemma replaceAll_miss p r c s : strip_prefix p (c :: s) = None -> replaceAll p r (c :: s) = c :: replaceAll p r s.
Proof.
  intros H. unfold replaceAll, substitute, replace. rewrite replace_from_copy by (by rewrite exec_lit, H).
  rewrite (replace_literal_before _ _ _ [] [c]). by case_match.
Qed.

Lemma replaceAll_nil p r : p <> [] -> replaceAll p r [] = [].
Proof. intros Hp. destruct p as [|c p]; [done|]. unfold replaceAll, substitute, replace. by rewrite replace_from_nil by (by rewrite exec_lit). Qed.

(** Replacing one unit. *)
Lemma replaceAll_unit c r s : replaceAll [c] r s = List.concat (map (fun d => if d =? c then r else [d]) s).
Proof.
  induction s as [|d s IH]; [by apply replaceAll_nil|]. cbn [map List.concat].
  destruct (Z.eqb_spec d c) as [->|H].
  - rewrite <- IH. by apply (replaceAll_hit [c]).
  - rewrite replaceAll_miss; [by rewrite IH|]. cbn. by rewrite (proj2 (Z.eqb_neq c d)).
Qed.

(** A pass that leaves a unit out: its replacements do, and the subject does. *)
Lemma substitute_Forall P r f s :
  (forall x y, matches r x y -> Forall P (ahead x) -> Forall P (f (capture 0 x y))) ->
  Forall P s -> Forall P (substitute r f s).
Proof.
  intros Hf. unfold substitute, replace. generalize (@nil Z) as before. generalize 0%nat as n.
  induction s as [|c s IH]; intros n before Hs; destruct n as [|n]; cbn [replace_from]; [|constructor| |].
  - destruct (exec r before []) as [y|] eqn:E; [|constructor]. apply exec_passes in E as (m & z & Hm & -> & _).
    case_match; cbn; rewrite ?app_nil_r; by apply (Hf _ _ Hm).
  - apply Forall_cons in Hs as [Hc Hs]. destruct (exec r before (c :: s)) as [y|] eqn:E.
    + apply exec_passes in E as (m & z & Hm & -> & _).
      match goal with |- context [replace_from _ _ _ _ ?k _] => specialize (IH k (c :: before) Hs) end.
      case_match. cbn in *. rewrite !Forall_app. split; [by apply (Hf _ _ Hm); constructor|].
      split; [case_match; repeat constructor; done|done].
    + specialize (IH 0%nat (c :: before) Hs). case_match. cbn in *. by constructor.
  - apply Forall_cons in Hs as [Hc Hs]. by apply IH.
Qed.

(** The state a replacement keeps. *)
Lemma replace_state {S} (I : S -> Prop) r f (st : S) s :
  (forall st x y, I st -> matches r x y -> I (fst (f st (capture 0 x y)))) -> I st -> I (fst (replace r f st s)).
Proof.
  intros Hf. unfold replace. generalize (@nil Z) as before. generalize 0%nat as n.
  revert st. induction s as [|c s IH]; intros st n before Hi; destruct n as [|n]; cbn [replace_from]; [|done| |by apply IH].
  - destruct (exec r before []) as [y|] eqn:E; [|done]. apply exec_passes in E as (m & z & Hm & -> & _).
    pose proof (Hf st _ _ Hi Hm). by destruct (f st _).
  - destruct (exec r before (c :: s)) as [y|] eqn:E.
    + apply exec_passes in E as (m & z & Hm & -> & _). pose proof (Hf st _ _ Hi Hm) as H.
      destruct (f st _) as [st' new]. cbn in H.
      match goal with |- context [replace_from _ _ _ _ ?k _] => specialize (IH st' k (c :: before) H) end.
      by case_match.
    + specialize (IH st 0%nat (c :: before) Hi). by case_match.
Qed.
