(* ===== verification/TelegramFormat.v ===== *)
(** * TelegramFormat: what the model writes, as messages of Telegram

    [src/telegram/telegram-format.ts]: the Markdown of a model becomes the few HTML
    tags Telegram accepts, is cut into messages, and has a plain version for when
    the HTML is rejected.  The text may quote untrusted content, so the tags of the
    result are only those this module writes.  The patterns are expressions of
    Regex.v; a pattern with the flag [u] differs from one without only in the code
    points its assertions look at, since its classes exclude nothing but units of
    the basic plane. *)
From S2P Require Import Prelude Text Regex.
From Stdlib Require Import String.
Open Scope stdpp_scope.
Local Open Scope Z_scope.

Definition TELEGRAM_CHUNK_LIMIT : nat := 3900.

Definition AMP : Z := 38.
Definition LT : Z := 60.
Definition GT : Z := 62.

Definition escapeHtml (t : text) : text :=
  replaceAll [GT] (units "&gt;") (replaceAll [LT] (units "&lt;") (replaceAll [AMP] (units "&amp;") t)).

(** The private markers that stand for code already formatted. *)
Definition OPEN : Z := 57344.
Definition CLOSE : Z := 57345.

(** ** The patterns *)

(** [s.replace(/\n$/, '')] *)
Definition drop_final_newline (s : text) : text :=
  match rev s with c :: r => if c =? LF then rev r else s | [] => s end.

Definition is_digit (c : Z) : bool := (48 <=? c) && (c <=? 57).
Definition language_char (c : Z) : bool :=
  ((65 <=? c) && (c <=? 90)) || ((97 <=? c) && (c <=? 122)) || is_digit c || chars "_+-" c.
Definition not_line (cs : string) : Z -> bool := not_in (either (chars cs) (exactly LF)).

Definition one (c : string) : regex := lit (units c).
Definition lazy_plus p := Many false 1 None (One p).

Definition fence : regex :=
  Cat (one "```") (Cat (Group 1 (star language_char)) (Cat (star blank) (Cat (opt (One (exactly LF)))
    (Cat (Group 2 (Many false 0 None (One any))) (one "```"))))).

Definition table : regex :=
  Many true 1 None (Cat (Look line_start) (Cat (one "|") (Cat (star dot) (Cat (one "|")
    (Cat (star blank) (Or (One (exactly LF)) (Look line_end))))))).

Definition inline_code : regex := Cat (one "`") (Cat (Group 1 (plus (not_line "`"))) (one "`")).

Definition link : regex :=
  Cat (one "[") (Cat (Group 1 (plus (not_line "]"))) (Cat (one "](")
    (Cat (Group 2 (Cat (one "http") (Cat (opt (one "s")) (Cat (one "://")
      (plus (not_in (either is_space (chars ")"))))))))
    (one ")")))).

Definition heading : regex :=
  Cat (Look line_start) (Cat (Many true 0 (Some 3%nat) (One blank))
    (Cat (Many true 1 (Some 6%nat) (One (chars "#"))) (Cat (plus blank)
      (Cat (Group 1 (lazy_plus dot)) (Cat (star blank) (Cat (star (chars "#")) (Cat (star blank)
        (Look line_end)))))))).

Definition three_or_more (c : string) : regex := Many true 3 None (One (chars c)).
Definition rule : regex :=
  Cat (Look line_start) (Cat (star blank)
    (Cat (Or (three_or_more "-") (Or (three_or_more "*") (three_or_more "_")))
      (Cat (star blank) (Look line_end)))).

Definition quote : regex :=
  Cat (Look line_start) (Cat (one "&gt;") (Cat (opt (One blank)) (Cat (Group 1 (star dot)) (Look line_end)))).

Definition bullet : regex :=
  Cat (Look line_start) (Cat (Group 1 (star blank)) (Cat (One (chars "-*+")) (plus blank))).

Definition bold : regex := Cat (one "**") (Cat (Group 1 (lazy_plus (not_line "*"))) (one "**")).
Definition strike : regex := Cat (one "~~") (Cat (Group 1 (lazy_plus (not_line "~"))) (one "~~")).

Definition marker : regex :=
  Cat (One (exactly OPEN)) (Cat (Group 1 (plus is_digit)) (One (exactly CLOSE))).

Definition html_tag : regex := Cat (one "<") (Cat (plus (not_in (chars ">"))) (one ">")).

(** [Number(index)] of decimal digits. *)
Definition index_of_digits (s : text) : nat := Z.to_nat (fold_left (fun n c => 10 * n + (c - 48)) s 0).

Definition tag (name : string) : text := LT :: units name ++ [GT].
Definition between_tags (name : string) (s : text) : text := tag name ++ s ++ tag ("/" ++ name).

(** The table of [\p{L}] and [\p{N}], data of the engine. *)
Class UnicodeTable := { is_letter_or_number : Z -> bool }.

Section Format.
Context `{!UnicodeTable}.

Definition wordlike (cs : string) : Z -> bool := either is_letter_or_number (chars cs).

Definition bold_ : regex :=
  Cat (Look (not_behind (wordlike "_"))) (Cat (one "__") (Cat (Group 1 (lazy_plus (not_line "_")))
    (Cat (one "__") (Look (not_ahead (wordlike "_")))))).

Definition emphasis (c : string) : regex :=
  Cat (Look (not_behind (wordlike c))) (Cat (one c)
    (Cat (Group 1 (Cat (One (not_in (either is_space (chars c)))) (Many false 0 None (One (not_line c)))))
      (Cat (one c) (Look (not_ahead (wordlike c)))))).

(** ** From Markdown to HTML *)

(** [stash]: the block is kept and its marker takes its place. *)
Definition stash (blocks : list text) (html : text) : list text * text :=
  (blocks ++ [html], OPEN :: units (pretty (List.length blocks)) ++ [CLOSE]).

Definition fence_html (language code : text) : text :=
  let body := escapeHtml (drop_final_newline code) in
  match language with
  | [] => tag "pre" ++ body ++ tag "/pre"
  | _ => tag "pre" ++ units "<code class=" ++ [34] ++ units "language-" ++ escapeHtml language ++ [34; GT]
         ++ body ++ tag "/code" ++ tag "/pre"
  end.

Definition stash_fences (blocks : list text) (s : text) : list text * text :=
  replace fence (fun blocks y => stash blocks (fence_html (group 1 y) (group 2 y))) blocks s.

Definition stash_code (blocks : list text) (s : text) : list text * text :=
  replace inline_code (fun blocks y => stash blocks (between_tags "code" (escapeHtml (group 1 y)))) blocks s.
(** A Markdown table is shown with a fixed width. *)
Definition stash_tables (blocks : list text) (s : text) : list text * text :=
  replace table (fun blocks y =>
    stash blocks (between_tags "pre" (escapeHtml (drop_final_newline (group 0 y))))) blocks s.

(** A link shows its address: never an anchor. *)
Definition show_link (y : Cursor) : text :=
  let '(label, url) := (group 1 y, group 2 y) in
  if bool_decide (trim label = url) then url else label ++ units " (" ++ url ++ units ")".

Definition HORIZONTAL : text := replicate 10 9472.

(** The passes over the escaped text. *)
Definition format_passes (s : text) : text :=
  let s := substitute link show_link s in
  let s := substitute heading (fun y => between_tags "b" (group 1 y)) s in
  let s := substitute rule (fun _ => HORIZONTAL) s in
  let s := substitute quote (fun y => between_tags "blockquote" (group 1 y)) s in
  let s := replaceAll (tag "/blockquote" ++ [LF] ++ tag "blockquote") [LF] s in
  let s := substitute bullet (fun y => group 1 y ++ [8226; 32]) s in
  let s := substitute bold (fun y => between_tags "b" (group 1 y)) s in
  let s := substitute bold_ (fun y => between_tags "b" (group 1 y)) s in
  let s := substitute strike (fun y => between_tags "s" (group 1 y)) s in
  let s := substitute (emphasis "*") (fun y => between_tags "i" (group 1 y)) s in
  substitute (emphasis "_") (fun y => between_tags "i" (group 1 y)) s.

Definition restore_block (blocks : list text) (y : Cursor) : text :=
  default [] (blocks !! index_of_digits (group 1 y)).

Definition drop_markers (s : text) : text := substitute (One (either (exactly OPEN) (exactly CLOSE))) (fun _ => []) s.

Definition markdownToTelegramHtml (markdown : text) : text :=
  let s := drop_markers (replaceAll [13; LF] [LF] markdown) in
  let '(blocks, s) := stash_fences [] s in
  let '(blocks, s) := stash_tables blocks s in
  let '(blocks, s) := stash_code blocks s in
  substitute marker (restore_block blocks) (format_passes (escapeHtml s)).

End Format.

(** ** Cutting into messages *)

Definition occurrences (r : regex) (s : text) : nat := fst (replace r (fun n _ => (S n, [])) 0%nat s).

Definition pre_open : regex := Or (lit (tag "pre")) (one "<pre ").
Definition pre_close : regex := lit (tag "/pre").

(** [html.split('\n')] *)
Fixpoint split_lines (s : text) : list text :=
  match s with
  | [] => [[]]
  | c :: s' =>
      if c =? LF then [] :: split_lines s'
      else match split_lines s' with l :: ls => (c :: l) :: ls | [] => [[c]] end
  end.

Definition split_pieces (limit : nat) (line : text) : list text :=
  if (limit <? List.length line)%nat then slices (List.length line) limit line else [line].

Record Split := { chunks : list text; current : text; inPre : bool }.

Definition all_blank (s : text) : bool := match trim s with [] => true | _ => false end.

Definition flush (x : Split) : Split :=
  if all_blank (current x) then x
  else {| chunks := chunks x ++ [if inPre x then current x ++ tag "/pre" else current x];
          current := if inPre x then tag "pre" else []; inPre := inPre x |}.

Definition add_piece (limit : nat) (x : Split) (piece : text) : Split :=
  let x := if (limit <? List.length (current x) + List.length piece + 1)%nat then flush x else x in
  let '(opens, closes) := (occurrences pre_open piece, occurrences pre_close piece) in
  {| chunks := chunks x;
     current := current x ++ (match current x with [] => [] | _ => [LF] end) ++ piece;
     inPre := if (opens <? closes)%nat then false else if (closes <? opens)%nat then true else inPre x |}.

Definition pieces (limit : nat) (html : text) : list text :=
  List.concat (map (split_pieces limit) (split_lines html)).

Definition splitForTelegram (html : text) (limit : nat) : list text :=
  if (List.length html <=? limit)%nat then [html]
  else
    let x := fold_left (add_piece limit) (pieces limit html) {| chunks := []; current := []; inPre := false |} in
    if all_blank (current x) then chunks x else chunks x ++ [current x].

Fixpoint join_text (sep : text) (l : list text) : text :=
  match l with [] => [] | [x] => x | x :: l' => x ++ sep ++ join_text sep l' end.

Definition modelFooter (modelsUsed : option (list text)) : text :=
  match modelsUsed with
  | None | Some [] => []
  | Some (first :: rest) =>
      [55358; 56598; 32] ++ match rest with [] => first | _ => join_text [32; 8594; 32] (first :: rest) end
  end.

Definition htmlToPlain (html : text) : text :=
  replaceAll (units "&amp;") [AMP]
    (replaceAll (units "&gt;") [GT]
      (replaceAll (units "&lt;") [LT] (substitute html_tag (fun _ => []) html))).

Module FormatExamples.

#[local] Instance latin : UnicodeTable :=
  {| is_letter_or_number c := ((65 <=? c) && (c <=? 90)) || ((97 <=? c) && (c <=? 122)) || is_digit c |}.

Definition shows (markdown html : string) : Prop := markdownToTelegramHtml (units markdown) = units html.

Example bold_and_italic :
  shows "a **b** *c* snake_case_name _d_ ~~e~~" "a <b>b</b> <i>c</i> snake_case_name <i>d</i> <s>e</s>".
Proof. by vm_compute. Qed.

Example links_show_their_address :
  shows "[Tu banco](https://x.io/a?b=1&c=2) <a href=x>" "Tu banco (https://x.io/a?b=1&amp;c=2) &lt;a href=x&gt;".
Proof. by vm_compute. Qed.

Definition lines (l : list string) : text := join_text [LF] (map units l).

Example blocks_and_lists :
  markdownToTelegramHtml (lines ["# T **x**"; "> one"; "> two"; "- item `a<b`"; "```"; "if (a < b) **x**"; "```"; "| a |"; "| - |"]) =
  lines ["<b>T <b>x</b></b>"; "<blockquote>one"; "two</blockquote>"]
  ++ [LF; 8226; 32] ++ lines ["item <code>a&lt;b</code>"; "<pre>if (a &lt; b) **x**</pre>"; "<pre>| a |"; "| - |</pre>"].
Proof. by vm_compute. Qed.

Example cut_inside_a_block :
  splitForTelegram (lines ["<pre>aaaa"; "bbbb</pre>"; "cc"]) 12 =
  [units "<pre>aaaa</pre>"; lines ["<pre>"; "bbbb</pre>"]; units "cc"].
Proof. by vm_compute. Qed.

End FormatExamples.
