(* ===== verification/TelegramTags.v ===== *)
(** * TelegramTags: only the tags of the closed list reach the chat

    A text is tagged when each of its opening angle brackets begins a tag of a
    family.  Escaping leaves none; each pass of [format_passes] keeps the text tagged,
    since what it matches begins outside the tags and is cut where no tag can be;
    the blocks of code are tagged when they are made. *)
From S2P Require Import Prelude Text Regex TelegramFormat.
From Stdlib Require Import String.
Open Scope stdpp_scope.
Local Open Scope Z_scope.

(** ** The tags of the result *)

(** The tags the passes write around text, and those of the code blocks. *)
Definition text_tags : list text :=
  map tag ["b"; "/b"; "i"; "/i"; "s"; "/s"; "blockquote"; "/blockquote"].
Definition code_tags : list text := map tag ["code"; "/code"; "pre"; "/pre"].

Definition language_tag (t : text) : Prop :=
  exists language, language <> [] /\ Forall (fun c => language_char c = true) language /\
    t = units "<code class=" ++ [34] ++ units "language-" ++ language ++ [34; GT].

Definition text_tag (t : text) : Prop := t ∈ text_tags.
Definition known_tag (t : text) : Prop := t ∈ text_tags \/ t ∈ code_tags \/ language_tag t.

(** A text whose [<] all begin a tag of the family. *)
Inductive tagged (T : text -> Prop) : text -> Prop :=
| tagged_nil : tagged T []
| tagged_unit c s : c <> LT -> tagged T s -> tagged T (c :: s)
| tagged_tag t s : T t -> tagged T s -> tagged T (t ++ s).
#[export] Hint Constructors tagged : jin.

Lemma tagged_app T a b : tagged T a -> tagged T b -> tagged T (a ++ b).
Proof. induction 1; intros; cbn; [done|constructor; auto|]. rewrite <- app_assoc. constructor; auto. Qed.

Lemma tagged_mono (T T' : text -> Prop) s : (forall t, T t -> T' t) -> tagged T s -> tagged T' s.
Proof. intros HT. induction 1; eauto with jin. Qed.

Lemma tagged_plain T s : LT ∉ s -> tagged T s.
Proof. induction s as [|c s IH]; intros H; [constructor|]. apply not_elem_of_cons in H as [H1 H2]. constructor; auto. Qed.

Lemma tagged_plain_app T a b : LT ∉ a -> tagged T b -> tagged T (a ++ b).
Proof. intros. apply tagged_app; [by apply tagged_plain|done]. Qed.

(** Every [<] of a tagged text begins a tag, at whatever place it is. *)
Lemma tagged_spec T s : (forall t, T t -> exists u, t = LT :: u /\ LT ∉ u) -> tagged T s ->
  forall a b, s = a ++ LT :: b -> exists t rest, T t /\ LT :: b = t ++ rest.
Proof.
  intros HT. induction 1 as [|c s Hc _ IH|t s Ht _ IH]; intros a b E.
  - by destruct a.
  - destruct a as [|d a]; cbn in E; injection E as -> E; [done|]. by apply (IH a).
  - destruct (HT t Ht) as (u & -> & Hu). destruct a as [|d a]; [by exists (LT :: u), s|].
    cbn in E. injection E as _ E. apply app_eq_inv in E as [(k & -> & E)|(k & -> & E)].
    + destruct k as [|e k]; cbn in E; [by apply (IH [] b)|]. injection E as <- _. set_solver.
    + by apply (IH k b).
Qed.

(** ** Cutting a tagged text where no tag can be *)

(** The units of the tags of the text. *)
Definition tag_char (c : Z) : bool := (c =? LT) || (c =? GT) || (c =? 47) || ((97 <=? c) && (c <=? 122)).

Definition breaks (s : text) : Prop := match s with [] => True | c :: _ => tag_char c = false end.

Lemma text_tag_chars t : text_tag t -> exists u, t = LT :: u /\ Forall (fun c => tag_char c = true) u /\ LT ∉ u.
Proof.
  unfold text_tag, text_tags. intros H. repeat (apply elem_of_cons in H as [->|H]; [eexists; repeat split;
    [repeat constructor|vm_compute; set_solver]|]). by apply elem_of_nil in H.
Qed.

Lemma tagged_break T c s : tag_char c = false -> tagged T (c :: s) -> tagged T s \/ exists t u, T t /\ c :: s = t ++ u.
Proof. intros Hc H. inversion H; subst; eauto. Qed.

Lemma tagged_cut a b : tagged text_tag (a ++ b) -> breaks b -> tagged text_tag a /\ tagged text_tag b.
Proof.
  remember (a ++ b) as s eqn:E. intros H. revert a b E.
  induction H as [|c s Hc H IH|t s Ht H IH]; intros a b E Hb.
  - symmetry in E. apply app_nil in E as [-> ->]. split; constructor.
  - destruct a as [|d a]; cbn in E.
    + subst b. split; [constructor|by constructor].
    + injection E as <- ->. destruct (IH a b eq_refl Hb). split; [by constructor|done].
  - destruct (text_tag_chars t Ht) as (u & -> & Hu & _). apply app_eq_inv in E as [(k & Ek & ->)|(k & -> & ->)].
    + destruct k as [|e k].
      * rewrite app_nil_r in Ek. subst a. destruct (IH [] _ eq_refl Hb). split; [rewrite <- (app_nil_r (LT :: u)); by constructor; [|constructor]|done].
      * destruct a as [|d a].
        { cbn in *. subst. split; [constructor|]. cbn in Hb. by injection Ek as <- <-. }
        exfalso. injection Ek as <- ->. apply Forall_app in Hu as [_ Hu]. apply Forall_inv in Hu.
        cbn in Hb. congruence.
    + destruct (IH k b eq_refl Hb). split; [by constructor|done].
Qed.

Lemma tagged_tail c s : tagged text_tag (c :: s) -> tag_char c = false -> tagged text_tag s.
Proof.
  intros H Hc. inversion H as [|c' s' H1 H2|t s' Ht H1 E]; subst; [done|].
  destruct (text_tag_chars t Ht) as (u & -> & _). cbn in E. injection E as <- _. done.
Qed.

(** A unit of a tag after its first. *)
Definition inner_char (c : Z) : bool := tag_char c && negb (c =? LT).

Definition starts_outside (m : text) : Prop := match m with [] => False | c :: _ => inner_char c = false end.

Definition start (before s : text) : Cursor := {| behind := before; ahead := s; groups := [] |}.

(** A pass over a tagged text whose matches begin outside the tags. *)
Section Pass.
Context (T : text -> Prop) (HT : forall t, text_tag t -> T t) (r : regex) (f : Cursor -> text).
Hypothesis r_starts : forall x y m, matches r x y -> ahead x = m ++ ahead y -> starts_outside m.
Hypothesis r_cuts : forall before s y, matches r (start before s) y -> tagged text_tag s ->
  tagged T (f (capture 0 (start before s) y)) /\ tagged text_tag (ahead y).

#[local] Definition fs := fun (_ : unit) y => (tt, f y).

Lemma replace_inside u : forall before s,
  Forall (fun c => inner_char c = true) u ->
  replace_from r fs tt before 0 (u ++ s) =
  let '(st, out) := replace_from r fs tt (rev u ++ before) 0 s in (st, u ++ out).
Proof.
  induction u as [|c u IH]; intros before s Hu; [by case_match|]. apply Forall_cons in Hu as [Hc Hu].
  cbn [app rev]. rewrite replace_from_copy; [rewrite IH by done; rewrite <- app_assoc; cbn [app]; by destruct (replace_from r fs tt (rev u ++ c :: before) 0 s)|].
  destruct (exec r before (c :: u ++ s)) as [y|] eqn:E; [|done].
  apply exec_passes in E as (m & z & Hm & -> & Hs & _). apply r_starts with (m := m) in Hm; [|done].
  destruct m as [|d m]; [done|]. cbn in *. simplify_eq. congruence.
Qed.

Lemma pass_tagged n : forall before s, (List.length s <= n)%nat -> tagged text_tag s ->
  tagged T (snd (replace_from r fs tt before 0 s)).
Proof.
  induction n as [|n IH]; intros before s Hn Hs;
    (destruct (exec r before s) as [y|] eqn:E;
     [apply exec_passes in E as Hy; destruct Hy as (m & z & Hm & -> & Hsm & _);
      pose proof (r_starts _ _ _ Hm Hsm) as Hout; destruct m as [|c m]; [done|]|]).
  - subst s. cbn in Hn. lia.
  - destruct s; [|cbn in Hn; lia]. rewrite replace_from_nil by done. constructor.
  - destruct (r_cuts _ _ _ Hm Hs) as [H1 H2]. rewrite Hsm, (replace_from_match _ _ _ _ (c :: m) _ (capture 0 (start before s) z))
      by (try done; by rewrite <- Hsm). unfold fs at 1.
    specialize (IH (rev (c :: m) ++ before) (ahead z)). case_match. cbn in *. apply tagged_app; [done|].
    apply IH; [|done]. rewrite Hsm in Hn. cbn in Hn. rewrite length_app in Hn. lia.
  - inversion Hs as [|c s' Hc Hs'|t s' Ht Hs']; subst.
    + rewrite replace_from_nil by done. constructor.
    + rewrite replace_from_copy by done. specialize (IH (c :: before) s'). case_match. cbn in *. constructor; [done|].
      apply IH; [lia|done].
    + destruct (text_tag_chars t Ht) as (u & -> & Hu & Hl). cbn [app] in *. rewrite replace_from_copy by done.
      rewrite replace_inside.
      2: { apply Forall_forall. intros c Hc. rewrite Forall_forall in Hu. unfold inner_char.
           rewrite Hu by done. destruct (Z.eqb_spec c LT) as [->|]; [done|done]. }
      specialize (IH (rev u ++ LT :: before) s'). destruct (replace_from r fs tt (rev u ++ LT :: before) 0 s'). cbn [snd] in *. apply (tagged_tag T (LT :: u)); [auto|].
      apply IH; [|done]. cbn in Hn. rewrite length_app in Hn. lia.
Qed.

Lemma substitute_tagged s : tagged text_tag s -> tagged T (substitute r f s).
Proof. intros. apply (pass_tagged (List.length s)); [lia|done]. Qed.
End Pass.

(** ** Each pass writes only its own tags *)

Lemma tagged_drop d s : LT ∉ d -> tagged text_tag (d ++ s) -> tagged text_tag s.
Proof.
  induction d as [|c d IH]; intros Hd H; [done|]. apply not_elem_of_cons in Hd as [Hc Hd].
  inversion H as [|c' s' H1 H2|t s' Ht H1 E]; subst; [by apply IH|].
  destruct (text_tag_chars t Ht) as (u & -> & _). cbn in E. by injection E as <- _.
Qed.

Lemma class_plain (p : Z -> bool) m : Forall (fun c => p c = true) m -> p LT = false -> LT ∉ m.
Proof. rewrite Forall_forall. intros H Hp Hm. apply H in Hm. congruence. Qed.

(** A match that keeps a part [g] of the text between two parts without tags. *)
Definition keeps_group (r : regex) : Prop :=
  forall x y, matches r x y -> exists d1 g d2,
    ahead x = d1 ++ g ++ d2 ++ ahead y /\ starts_outside d1 /\ LT ∉ d1 /\
    breaks (d2 ++ ahead y) /\ LT ∉ d2 /\ group 1 (capture 0 x y) = g.

Lemma keeps_group_starts r : keeps_group r -> forall x y m, matches r x y -> ahead x = m ++ ahead y -> starts_outside m.
Proof.
  intros Hr x y m H E. destruct (Hr x y H) as (d1 & g & d2 & E' & Hs & _).
  rewrite E, !app_assoc in E'. apply app_inv_tail in E' as ->. by destruct d1.
Qed.

Lemma keeps_group_cuts r s y before : keeps_group r -> matches r (start before s) y -> tagged text_tag s ->
  tagged text_tag (group 1 (capture 0 (start before s) y)) /\ tagged text_tag (ahead y).
Proof.
  intros Hr H Hs. destruct (Hr _ _ H) as (d1 & g & d2 & E & _ & H1 & Hb & H2 & ->). cbn in E. subst s.
  apply tagged_drop in Hs; [|done]. apply tagged_cut in Hs as [Hg Hs]; [|done].
  split; [done|by apply tagged_drop in Hs].
Qed.

Lemma between_tagged T name s :
  T (tag name) -> T (tag ("/" ++ name)) -> tagged T s -> tagged T (between_tags name s).
Proof.
  intros. unfold between_tags. apply tagged_tag; [done|]. apply tagged_app; [done|].
  rewrite <- (app_nil_r (tag _)). apply tagged_tag; [done|constructor].
Qed.

Lemma wrap_pass r name s :
  keeps_group r -> text_tag (tag name) -> text_tag (tag ("/" ++ name)) -> tagged text_tag s ->
  tagged text_tag (substitute r (fun y => between_tags name (group 1 y)) s).
Proof.
  intros Hr H1 H2. apply (substitute_tagged text_tag ltac:(done)); [by apply keeps_group_starts|].
  intros before s' y H Hs. destruct (keeps_group_cuts _ _ _ _ Hr H Hs). split; [by apply between_tagged|done].
Qed.

(** What was passed over, piece after piece. *)
Ltac regather := passed; cbn [start ahead] in *; repeat match goal with H : ahead _ = _ |- _ => rewrite H; clear H end;
  rewrite <- ?app_assoc; done.

Ltac no_tag := repeat first [ done | by eapply class_plain | apply not_elem_of_app; split
  | apply not_elem_of_cons; split | apply not_elem_of_nil ].

(** Delimiters on both sides of a group, looking around or not. *)
Lemma delimited_keeps r d a :
  starts_outside d -> LT ∉ d -> breaks d ->
  (forall x y, matches r x y -> exists z w, takes x d z /\ matches (Group 1 a) z w /\ takes w d y) ->
  keeps_group r.
Proof.
  intros Hs Hd Hb Hr x y H. destruct (Hr x y H) as (z & w & Hz & (u & Hu & ->) & Hy).
  apply matches_passes in Hu as (g & Hg). exists d, g, d. pose proof (proj1 Hg).
  split; [regather|]. split; [done|]. split; [done|]. split; [by destruct d|]. split; [done|].
  rewrite group_other, (group_takes _ _ _ _ Hy) by done. by apply capture_passes.
Qed.

Lemma bold_keeps : keeps_group bold.
Proof.
  eapply (delimited_keeps _ (units "**")); [done|vm_compute; set_solver|done|].
  intros x y (z & Hz & w & Hw & Hy). apply matches_lit in Hz, Hy. eauto.
Qed.

Lemma strike_keeps : keeps_group strike.
Proof.
  eapply (delimited_keeps _ (units "~~")); [done|vm_compute; set_solver|done|].
  intros x y (z & Hz & w & Hw & Hy). apply matches_lit in Hz, Hy. eauto.
Qed.

Lemma bold__keeps `{!UnicodeTable} : keeps_group bold_.
Proof.
  eapply (delimited_keeps _ (units "__")); [done|vm_compute; set_solver|done|].
  intros x y (? & [_ ->] & z & Hz & w & Hw & v & Hy & _ & ->). apply matches_lit in Hz, Hy. eauto.
Qed.

Lemma emphasis_keeps `{!UnicodeTable} c :
  starts_outside (units c) -> LT ∉ units c -> breaks (units c) -> keeps_group (emphasis c).
Proof.
  intros. eapply (delimited_keeps _ (units c)); [done|done|done|].
  intros x y (? & [_ ->] & z & Hz & w & Hw & v & Hy & _ & ->). apply matches_lit in Hz, Hy. eauto.
Qed.

Lemma line_end_breaks b s : line_end b s = true -> breaks s.
Proof.
  destruct s as [|c s]; [done|]. cbn. unfold is_line_end, tag_char, LT, GT. intros H.
  apply not_true_is_false. intros H'. lia.
Qed.

(** Blanks and delimiters at the end of a line. *)
Lemma class_breaks (p : Z -> bool) m s :
  Forall (fun c => p c = true) m -> (forall c, p c = true -> tag_char c = false) -> breaks s -> breaks (m ++ s).
Proof. intros H Hp Hs. destruct m as [|c m]; [done|]. cbn. by apply Hp, (Forall_inv H). Qed.

Lemma blank_no_tag c : blank c = true -> tag_char c = false.
Proof.
  unfold blank, is_space, tag_char, LT, GT, LF. rewrite andb_true_iff. intros [H _]. apply not_true_is_false.
  rewrite !orb_true_iff, !andb_true_iff in *. lia.
Qed.

Lemma hash_no_tag c : chars "#" c = true -> tag_char c = false.
Proof.
  unfold chars. intros H. assert (c = 35) as -> by (apply existsb_exists in H as (d & [<-|[]] & Hd%Z.eqb_eq); exact Hd).
  done.
Qed.

Lemma heading_keeps : keeps_group heading.
Proof.
  intros x y (? & [_ ->] & x1 & H1 & x2 & H2 & x3 & H3 & x4 & (x4' & H4 & ->) & x5 & H5 & x6 & H6 & x7 & H7 & He & ->).
  apply matches_many in H1 as (b1 & B1 & _ & _ & T1), H2 as (b2 & B2 & L2 & _ & T2), H3 as (b3 & B3 & _ & _ & T3),
    H4 as (g & _ & _ & _ & T4), H5 as (b5 & B5 & _ & _ & T5), H6 as (b6 & B6 & _ & _ & T6), H7 as (b7 & B7 & _ & _ & T7).
  exists (b1 ++ b2 ++ b3), g, (b5 ++ b6 ++ b7). split; [regather|].
  assert (Hout : breaks (b1 ++ b2 ++ b3)).
  { apply (class_breaks blank); [done|apply blank_no_tag|]. destruct b2 as [|c b2]; [cbn in L2; lia|].
    apply hash_no_tag, (Forall_inv B2). }
  split; [|split; [no_tag|split; [|split; [no_tag|]]]].
  - destruct (b1 ++ b2 ++ b3) as [|c m] eqn:E; [apply app_nil in E as [_ E]; apply app_nil in E as [-> _]; cbn in L2; lia|].
    cbn in *. unfold inner_char. by rewrite Hout.
  - rewrite <- !app_assoc. repeat (eapply class_breaks; [done|first [apply blank_no_tag|apply hash_no_tag]|]).
    by eapply line_end_breaks.
  - rewrite group_other, (group_takes _ _ _ _ T7), (group_takes _ _ _ _ T6), (group_takes _ _ _ _ T5) by done.
    apply capture_passes, T4.
Qed.

Lemma quote_keeps : keeps_group quote.
Proof.
  intros x y (? & [_ ->] & x1 & H1 & x2 & H2 & x3 & (x3' & H3 & ->) & He & ->).
  apply matches_lit in H1. apply matches_many in H2 as (b & B & _ & _ & T2), H3 as (g & _ & _ & _ & T3).
  exists (units "&gt;" ++ b), g, []. split; [regather|].
  split; [done|split; [no_tag|split; [by eapply line_end_breaks|split; [no_tag|]]]].
  rewrite group_other by done. apply capture_passes, T3.
Qed.

(** A pass whose matches have no unit of a tag. *)
Lemma apart_pass T r f s :
  (forall t, text_tag t -> T t) -> units_in (fun c => tag_char c = false) r -> consumes r = true ->
  (forall x y, matches r x y -> tagged T (f (capture 0 x y))) ->
  tagged text_tag s -> tagged T (substitute r f s).
Proof.
  intros HT Hu Hc Hf. apply substitute_tagged; [done| |].
  - intros x y m H E. destruct (matches_units _ _ Hu _ _ H) as (m' & [E' _] & Hm).
    rewrite E in E'. apply app_inv_tail in E' as <-. apply consumes_left in H as [_ H]. specialize (H Hc).
    unfold left in H. rewrite E, length_app in H. destruct m as [|c m]; cbn in *; [lia|].
    unfold inner_char. by rewrite (Forall_inv Hm).
  - intros before s' y H Hs. split; [by apply Hf|]. destruct (matches_units _ _ Hu _ _ H) as (m & [E _] & Hm).
    cbn in E. subst s'. apply tagged_drop in Hs; [done|]. rewrite Forall_forall in Hm. intros Hl%Hm. done.
Qed.

Lemma chars_no_tag cs c : Forall (fun d => tag_char d = false) (units cs) -> chars cs c = true -> tag_char c = false.
Proof. rewrite Forall_forall. intros H (d & Hd & ->%Z.eqb_eq)%existsb_exists. apply H. by apply list_elem_of_In. Qed.

Lemma rule_pass s : tagged text_tag s -> tagged text_tag (substitute rule (fun _ => HORIZONTAL) s).
Proof.
  apply apart_pass; [done| |done|].
  - unfold rule, bullet, star, plus, three_or_more. cbn [units_in].
    repeat split; first [exact blank_no_tag|intros c; apply chars_no_tag; by repeat constructor].
  - intros. apply tagged_plain. vm_compute. set_solver.
Qed.

Lemma bullet_pass s : tagged text_tag s -> tagged text_tag (substitute bullet (fun y => group 1 y ++ [8226; 32]) s).
Proof.
  apply apart_pass; [done| |done|].
  - unfold rule, bullet, star, plus, three_or_more. cbn [units_in].
    repeat split; first [exact blank_no_tag|intros c; apply chars_no_tag; by repeat constructor].
  - intros x y (? & [_ ->] & x1 & (x1' & H1 & ->) & x2 & H2 & H3). apply matches_one in H2 as (c & _ & T2).
    apply matches_many in H1 as (b & B & _ & _ & T1), H3 as (? & _ & _ & _ & T3).
    rewrite group_other, (group_takes _ _ _ _ T3), (group_takes _ _ _ _ T2) by done.
    rewrite (proj2 (capture_passes _ _ _ _ (proj1 T1))). apply tagged_plain. no_tag.
Qed.

(** ** Escaping *)

Definition esc (c : Z) : text :=
  if c =? AMP then units "&amp;" else if c =? LT then units "&lt;" else if c =? GT then units "&gt;" else [c].

(** The three replacements one after the other are one of each unit. *)
Lemma escapeHtml_spec t : escapeHtml t = List.concat (map esc t).
Proof.
  unfold escapeHtml. rewrite !replaceAll_unit. induction t as [|c t IH]; [done|].
  cbn [map List.concat]. rewrite !map_app, !concat_app, !map_app, !concat_app, <- IH. f_equal.
  unfold esc. destruct (Z.eqb_spec c AMP) as [->|H1]; [done|]. cbn [map List.concat].
  destruct (Z.eqb_spec c LT) as [->|H2]; [done|]. cbn [map List.concat].
  cbn. by destruct (Z.eqb_spec c GT) as [->|H3].
Qed.

Lemma escapeHtml_plain t : LT ∉ escapeHtml t.
Proof.
  rewrite escapeHtml_spec. induction t as [|c t IH]; cbn [map List.concat]; [apply not_elem_of_nil|].
  apply not_elem_of_app. split; [|done]. unfold esc. repeat case_match; [vm_compute; set_solver..|].
  apply not_elem_of_cons. split; [by apply not_eq_sym, Z.eqb_neq|apply not_elem_of_nil].
Qed.

Lemma link_pass s : LT ∉ s -> LT ∉ substitute link show_link s.
Proof.
  assert (Hn : forall t, LT ∉ t <-> Forall (fun c => c <> LT) t).
  { intros t. rewrite Forall_forall. set_solver. }
  rewrite !Hn. apply substitute_Forall.
  intros x y (x1 & H1 & x2 & (x2' & H2 & ->) & x3 & H3 & x4 & (x4' & H4 & ->) & H5) Hx.
  apply matches_lit in H1, H3, H5. apply matches_many in H2 as (label & _ & _ & _ & T2).
  pose proof H4 as G4. apply matches_groups in G4; [|done]. apply matches_passes in H4 as (url & T4).
  assert (Hg : group 1 (capture 0 x y) = label /\ group 2 (capture 0 x y) = url).
  { rewrite !group_other by done. rewrite !(group_takes _ _ _ _ H5). split; [|by apply capture_passes].
    rewrite group_other by done. rewrite (group_takes _ _ url _ (conj T4 G4)), (group_takes _ _ _ _ H3). apply capture_passes, T2. }
  unfold show_link. destruct Hg as [-> ->].
  assert (Ha : ahead x = units "[" ++ label ++ units "](" ++ url ++ units ")" ++ ahead y).
  { destruct T4 as [T4 _]. regather. }
  rewrite Ha, !Forall_app in Hx. destruct Hx as (_ & Hl & _ & Hu & _).
  case_bool_decide; [done|]. rewrite !Forall_app. repeat split; try done; repeat constructor; done.
Qed.

(** A tagged text that begins with a tag goes on after it. *)
Lemma tagged_after t u : t = tag "blockquote" \/ t = tag "/blockquote" -> tagged text_tag (t ++ u) -> tagged text_tag u.
Proof.
  intros Hn H. remember (t ++ u) as s eqn:E. destruct H as [|c s Hc _|w s Hw Hs].
  - by destruct Hn as [-> | ->].
  - destruct Hn as [-> | ->]; cbn in E; by injection E as -> _.
  - enough (s = u) as <- by done. unfold text_tag, text_tags in Hw.
    destruct Hn as [-> | ->];
      repeat (apply elem_of_cons in Hw as [->|Hw]; [cbn in E; by simplify_eq|]); by apply elem_of_nil in Hw.
Qed.

(** Two quotes in a row become one. *)
Lemma join_pass s : tagged text_tag s ->
  tagged text_tag (replaceAll (tag "/blockquote" ++ [LF] ++ tag "blockquote") [LF] s).
Proof.
  apply substitute_tagged; [done| |].
  - intros x y m H E. apply matches_lit in H as [[H _] _]. rewrite E in H. by apply app_inv_tail in H as ->.
  - intros before s' y H Hs. apply matches_lit in H as [[H _] _]. cbn [start ahead] in H. subst s'.
    split; [apply tagged_plain; vm_compute; set_solver|].
    rewrite <- !app_assoc in Hs. apply tagged_after in Hs; [|by right].
    apply tagged_drop in Hs; [|vm_compute; set_solver]. apply tagged_after in Hs; [done|by left].
Qed.

(** ** The tags of the whole *)

Lemma escaped_tagged T s : tagged T (escapeHtml s).
Proof. apply tagged_plain, escapeHtml_plain. Qed.

Lemma text_tag_known t : text_tag t -> known_tag t.
Proof. by left. Qed.

Lemma code_tag_known t : t ∈ code_tags -> known_tag t.
Proof. by right; left. Qed.

Lemma escape_language l : Forall (fun c => language_char c = true) l -> escapeHtml l = l.
Proof.
  rewrite escapeHtml_spec. induction 1 as [|c l Hc _ IH]; [done|]. cbn [map List.concat]. rewrite IH.
  unfold esc.
  do 3 (case_match; [match goal with E : (c =? _) = true |- _ => apply Z.eqb_eq in E as ->; by vm_compute in Hc end|]).
  done.
Qed.

(** The blocks of code hold nothing but code. *)
Lemma fence_html_tagged language code :
  Forall (fun c => language_char c = true) language -> tagged known_tag (fence_html language code).
Proof.
  intros Hl. unfold fence_html. destruct language as [|c l].
  - apply (between_tagged _ "pre"); [by apply code_tag_known; set_solver..|apply escaped_tagged].
  - rewrite escape_language by done.
    apply tagged_tag; [by apply code_tag_known; set_solver|].
    replace (units "<code class=" ++ _) with
      ((units "<code class=" ++ [34] ++ units "language-" ++ (c :: l) ++ [34; GT])
       ++ (escapeHtml (drop_final_newline code) ++ tag "/code" ++ tag "/pre")) by (rewrite <- !app_assoc; reflexivity).
    apply tagged_tag; [right; right; by exists (c :: l)|]. apply tagged_app; [apply escaped_tagged|].
    rewrite <- (app_nil_r (tag "/pre")). repeat (apply tagged_tag; [apply code_tag_known; set_solver|]). constructor.
Qed.

Definition code_blocks (blocks : list text) : Prop := Forall (tagged known_tag) blocks.

Lemma stash_blocks blocks html : code_blocks blocks -> tagged known_tag html -> code_blocks (stash blocks html).1.
Proof. intros. apply Forall_app. by repeat constructor. Qed.

Lemma code_between name s :
  tag name ∈ code_tags -> tag ("/" ++ name) ∈ code_tags -> tagged known_tag (between_tags name (escapeHtml s)).
Proof. intros. apply between_tagged; [by apply code_tag_known..|apply escaped_tagged]. Qed.

Lemma fences_blocks blocks s : code_blocks blocks -> code_blocks (stash_fences blocks s).1.
Proof.
  apply replace_state. intros st x y Hst (x1 & H1 & x2 & (x2' & H2 & ->) & x3 & H3 & x4 & H4 & x5 & (x5' & H5 & ->) & H6).
  apply stash_blocks; [done|]. apply fence_html_tagged. apply matches_lit in H6.
  apply matches_groups in H4; [|done]. apply matches_groups in H3; [|done]. apply matches_groups in H5; [|done].
  apply matches_many in H2 as (l & Hl & _ & _ & T2).
  rewrite group_other, (group_takes _ _ _ _ H6), group_other by done. unfold group. rewrite H5, H4, H3.
  pose proof (proj2 (capture_passes 1 x1 l x2' (proj1 T2))) as Hg. unfold group in Hg. by rewrite Hg.
Qed.

Lemma tables_blocks blocks s : code_blocks blocks -> code_blocks (stash_tables blocks s).1.
Proof.
  apply replace_state. intros st x y Hst _. apply stash_blocks; [done|]. apply code_between; set_solver.
Qed.

Lemma inline_blocks blocks s : code_blocks blocks -> code_blocks (stash_code blocks s).1.
Proof.
  apply replace_state. intros st x y Hst _. apply stash_blocks; [done|]. apply code_between; set_solver.
Qed.

Section Whole.
Context `{!UnicodeTable}.

(** The passes over escaped text write the tags of the text. *)
Lemma passes_tagged s : LT ∉ s -> tagged text_tag (format_passes s).
Proof.
  intros Hs. unfold format_passes.
  assert (Ht : forall name, name ∈ ["b"; "i"; "s"; "blockquote"] -> text_tag (tag name) /\ text_tag (tag ("/" ++ name))).
  { intros name Hn. unfold text_tag, text_tags.
    repeat (apply elem_of_cons in Hn as [->|Hn]; [cbn [map String.append]; set_solver|]). by apply elem_of_nil in Hn. }
  repeat first
    [ apply wrap_pass; [first [apply bold_keeps|apply bold__keeps|apply strike_keeps|apply heading_keeps|apply quote_keeps
        |apply emphasis_keeps; [done|vm_compute; set_solver|done]]|apply Ht; set_solver|apply Ht; set_solver|]
    | apply bullet_pass | apply rule_pass | apply join_pass ].
  by apply tagged_plain, link_pass.
Qed.

Lemma restore_tagged blocks s : code_blocks blocks -> tagged text_tag s ->
  tagged known_tag (substitute marker (restore_block blocks) s).
Proof.
  intros Hb. apply apart_pass; [apply text_tag_known| |done|].
  - unfold marker, plus. cbn [units_in]. unfold exactly, is_digit, tag_char, LT, GT, OPEN, CLOSE.
    repeat split; intros c Hc; apply not_true_is_false; lia.
  - intros x y _. unfold restore_block. destruct (blocks !! _) as [b|] eqn:E; [|constructor].
    eapply Forall_lookup_1; [exact Hb|done].
Qed.

Lemma result_tagged markdown : tagged known_tag (markdownToTelegramHtml markdown).
Proof.
  unfold markdownToTelegramHtml. destruct (stash_fences _ _) as [b1 s1] eqn:E1.
  destruct (stash_tables b1 s1) as [b2 s2] eqn:E2. destruct (stash_code b2 s2) as [b3 s3] eqn:E3.
  apply restore_tagged; [|apply passes_tagged, escapeHtml_plain].
  change b3 with (b3, s3).1. rewrite <- E3. apply inline_blocks.
  change b2 with (b2, s2).1. rewrite <- E2. apply tables_blocks.
  change b1 with (b1, s1).1. rewrite <- E1. apply fences_blocks. constructor.
Qed.

Lemma known_tag_shape t : known_tag t -> exists u, t = LT :: u /\ LT ∉ u.
Proof.
  intros [Hk|[Hk|(l & _ & Hl & ->)]].
  - destruct (text_tag_chars t Hk) as (u & ? & _ & ?). eauto.
  - unfold code_tags in Hk. repeat (apply elem_of_cons in Hk as [->|Hk]; [eexists; split; [reflexivity|vm_compute; set_solver]|]).
    by apply elem_of_nil in Hk.
  - exists (units "code class=" ++ [34] ++ units "language-" ++ l ++ [34; GT]). split; [done|].
    rewrite !not_elem_of_app. repeat split; [vm_compute; set_solver..| |vm_compute; set_solver].
    by eapply class_plain.
Qed.

(** C27. Whatever a model writes, every angle bracket that opens something in the HTML sent to Telegram
    and to the dashboard opens one of the tags of the closed list: emphasis, quotes, and code with a
    language name of letters, digits and three signs.  No link, script or attribute of the model's own
    gets through, whatever untrusted content it quotes. *)
Theorem only_known_tags_reach_the_chat markdown a b :
  markdownToTelegramHtml markdown = a ++ LT :: b ->
  exists t rest, known_tag t /\ LT :: b = t ++ rest.
Proof. intros E. eapply tagged_spec; [apply known_tag_shape|apply result_tagged|exact E]. Qed.

End Whole.

Lemma only_known_tags_reach_the_chat_witness :
  exists t rest, known_tag t /\ LT :: units "b>c</b>" = t ++ rest.
Proof.
  apply (@only_known_tags_reach_the_chat FormatExamples.latin (units "a **c**") (units "a ") (units "b>c</b>")).
  by vm_compute.
Defined.
