(* ===== verification/TelegramMessages.v ===== *)
(** * TelegramMessages: the plain version and the cutting of a message

    When Telegram rejects the HTML the plain text is sent instead, and a long text
    is cut into messages, a block of code that falls on a cut being closed and
    opened again. *)
From S2P Require Import Prelude Text Regex TelegramFormat TelegramTags.
From Stdlib Require Import String.
Open Scope stdpp_scope.
Local Open Scope Z_scope.

(** ** The plain version *)

Lemma substitute_none r f s :
  (forall x y, (exists a, s = a ++ ahead x) -> ~ matches r x y) -> substitute r f s = s.
Proof.
  intros Hr. unfold substitute, replace.
  enough (forall before u, (exists a, s = a ++ u) ->
    snd (replace_from r (fun (_ : unit) y => (tt, f y)) tt before 0 u) = u) as H by (apply H; by exists []).
  intros before u. revert before. induction u as [|c u IH]; intros before [a Ha].
  - rewrite replace_from_nil; [done|]. destruct (exec r before []) as [y|] eqn:E; [|done].
    apply exec_passes in E as (m & z & Hm & _). exfalso. eapply Hr, Hm. eauto.
  - rewrite replace_from_copy.
    + specialize (IH (c :: before)). case_match. cbn in *. f_equal. apply IH. exists (a ++ [c]).
      by rewrite <- app_assoc.
    + destruct (exec r before (c :: u)) as [y|] eqn:E; [|done].
      apply exec_passes in E as (m & z & Hm & _). exfalso. eapply Hr, Hm. eauto.
Qed.

Lemma replaceAll_concat p r (f g : Z -> text) t : p <> [] ->
  (forall c u, replaceAll p r (f c ++ u) = g c ++ replaceAll p r u) ->
  replaceAll p r (List.concat (map f t)) = List.concat (map g t).
Proof.
  intros Hp H. induction t as [|c t IH]; [by apply replaceAll_nil|]. cbn [map List.concat]. by rewrite H, IH.
Qed.

(** What is still escaped after the first and the second replacement. *)
Definition esc_without_lt (c : Z) : text :=
  if c =? AMP then units "&amp;" else if c =? GT then units "&gt;" else [c].
Definition esc_amp (c : Z) : text := if c =? AMP then units "&amp;" else [c].

(** A token of escaping is passed over when the pattern begins nowhere in it. *)
Ltac pass_over :=
  change (units "&amp;") with [AMP; 97; 109; 112; 59]; change (units "&gt;") with [AMP; 103; 116; 59];
  change (units "&lt;") with [AMP; 108; 116; 59]; cbn [app]; rewrite !replaceAll_miss by done; done.

Lemma strip_other a p c s : c <> a -> strip_prefix (a :: p) (c :: s) = None.
Proof. intros H. cbn. by rewrite (proj2 (Z.eqb_neq a c)). Qed.

Lemma unescape_lt t :
  replaceAll (units "&lt;") [LT] (List.concat (map esc t)) = List.concat (map esc_without_lt t).
Proof.
  apply replaceAll_concat; [done|]. intros c u. unfold esc, esc_without_lt.
  destruct (Z.eqb_spec c AMP) as [->|H1]; [pass_over|].
  destruct (Z.eqb_spec c LT) as [->|H2]; [by apply (replaceAll_hit (units "&lt;"))|].
  destruct (Z.eqb_spec c GT) as [->|H3]; [pass_over|].
  cbn [app]. rewrite replaceAll_miss; [done|]. by apply (strip_other 38).
Qed.

Lemma unescape_gt t :
  replaceAll (units "&gt;") [GT] (List.concat (map esc_without_lt t)) = List.concat (map esc_amp t).
Proof.
  apply replaceAll_concat; [done|]. intros c u. unfold esc_without_lt, esc_amp.
  destruct (Z.eqb_spec c AMP) as [->|H1]; [pass_over|].
  destruct (Z.eqb_spec c GT) as [->|H3]; [by apply (replaceAll_hit (units "&gt;"))|].
  cbn [app]. rewrite replaceAll_miss; [done|]. by apply (strip_other 38).
Qed.

Lemma unescape_amp t : replaceAll (units "&amp;") [AMP] (List.concat (map esc_amp t)) = t.
Proof.
  rewrite (replaceAll_concat _ _ _ (fun c => [c])); [by induction t as [|c t IH]; [|cbn; f_equal]|done|].
  intros c u. unfold esc_amp.
  destruct (Z.eqb_spec c AMP) as [->|H1]; [by apply (replaceAll_hit (units "&amp;"))|].
  cbn [app]. rewrite replaceAll_miss; [done|]. by apply (strip_other 38).
Qed.

(** The plain version undoes the escaping: a text that was only escaped is read back as it was, even
    when it contains ampersands, angle brackets or what looks like an escape. *)
Lemma the_plain_version_is_the_text t : htmlToPlain (escapeHtml t) = t.
Proof.
  unfold htmlToPlain. rewrite (substitute_none html_tag).
  - rewrite escapeHtml_spec, unescape_lt, unescape_gt. apply unescape_amp.
  - intros x y [a Ha] (z & Hz & _). apply matches_lit in Hz as [[Hz _] _]. apply (escapeHtml_plain t).
    rewrite Ha, Hz. cbn. set_solver.
Qed.

(** ** What a cut keeps *)

(** The units that are not white space. *)
Definition ink (s : text) : text := List.filter (fun c => negb (is_space c)) s.

Lemma ink_app a b : ink (a ++ b) = ink a ++ ink b.
Proof. apply List.filter_app. Qed.

Lemma all_blank_spec s : all_blank s = forallb is_space s.
Proof.
  unfold all_blank, trim, trim_end.
  assert (Hd : forall l, (forallb is_space l = true <-> drop_while is_space l = [])).
  { intros l. induction l as [|c l IH]; [done|]. cbn. destruct (is_space c); [done|by split]. }
  assert (Hrev : forall l, forallb is_space (rev l) = forallb is_space l).
  { intros l. apply Bool.eq_iff_eq_true. rewrite !forallb_forall. by setoid_rewrite <- in_rev. }
  destruct (forallb is_space s) eqn:E; [by rewrite (proj1 (Hd s) E)|].
  assert (Hw : forallb is_space (drop_while is_space s) = false).
  { clear Hd Hrev. induction s as [|c s IH]; [done|]. cbn in *. destruct (is_space c) eqn:Ec; [by apply IH|]. cbn. by rewrite Ec. }
  rewrite <- Hrev in Hw. destruct (rev (drop_while is_space (rev _))) as [|c l] eqn:Er; [|done].
  apply (f_equal (@rev Z)) in Er. rewrite rev_involutive in Er. cbn in Er. apply Hd in Er. congruence.
Qed.

Lemma blank_ink s : all_blank s = true -> ink s = [].
Proof.
  rewrite all_blank_spec. induction s as [|c s IH]; [done|]. cbn. rewrite andb_true_iff. intros [-> H]. by apply IH.
Qed.

Lemma all_blank_app a b : all_blank (a ++ b) = all_blank a && all_blank b.
Proof. rewrite !all_blank_spec. apply forallb_app. Qed.

Lemma split_lines_ink s : ink (List.concat (split_lines s)) = ink s.
Proof.
  induction s as [|c s IH]; [done|]. cbn [split_lines]. destruct (Z.eqb_spec c LF) as [->|H]; [done|].
  destruct (split_lines s) as [|l ls]; cbn in *; [by destruct (is_space c); f_equal|].
  rewrite ink_app in *. by destruct (is_space c); cbn; rewrite IH.
Qed.

Lemma pieces_concat limit html : (0 < limit)%nat -> List.concat (pieces limit html) = List.concat (split_lines html).
Proof.
  intros Hl. unfold pieces. induction (split_lines html) as [|l ls IH]; [done|]. cbn [map List.concat].
  rewrite concat_app, IH. f_equal. unfold split_pieces. case_match; [by apply slices_concat|]. apply app_nil_r.
Qed.

(** What a cut inside a block adds at the beginning and at the end of a message. *)
Definition reopened (b : bool) : text := if b then tag "pre" else [].
Definition closed (b : bool) : text := if b then tag "/pre" else [].

(** [seams b l t b']: the messages [l] show the text [t] when a block is open before
    them if [b] and after them if [b']: a message that begins inside a block opens
    it again, and one that ends inside a block closes it. *)
Inductive seams (b : bool) : list text -> text -> bool -> Prop :=
| seams_nil : seams b [] [] b
| seams_snoc l t b1 body b2 :
    seams b l t b1 ->
    seams b (l ++ [reopened b1 ++ body ++ closed b2]) (t ++ body) b2.

(** The text [t] is in the messages made and in the one under way. *)
Definition shows_so_far (x : Split) (t : text) : Prop :=
  exists b shown body, seams false (chunks x) shown b /\
    current x = reopened b ++ body /\ ink (shown ++ body) = ink t.

Lemma flush_shows x t : shows_so_far x t -> shows_so_far (flush x) t.
Proof.
  intros (b & shown & body & Hs & Hc & Hi). unfold flush. destruct (all_blank (current x)); [by exists b, shown, body|].
  exists (inPre x), (shown ++ body), []. cbn [chunks current].
  split; [|split; [by rewrite app_nil_r|by rewrite app_nil_r]].
  replace (if inPre x then _ else _) with (reopened b ++ body ++ closed (inPre x)); [by apply seams_snoc|].
  rewrite Hc. unfold closed. by destruct (inPre x); rewrite ?app_nil_r, <- ?app_assoc.
Qed.

Lemma add_piece_shows limit x t piece : shows_so_far x t -> shows_so_far (add_piece limit x piece) (t ++ piece).
Proof.
  intros Hx. unfold add_piece. set (y := if (limit <? _)%nat then flush x else x).
  assert (Hy : shows_so_far y t) by (subst y; case_match; [by apply flush_shows|done]).
  clearbody y. destruct Hy as (b & shown & body & Hs & Hc & Hi).
  set (sep := match current y with [] => [] | _ => [LF] end).
  assert (Hsep : ink sep = []) by (subst sep; by destruct (current y)).
  exists b, shown, (body ++ sep ++ piece). cbn [chunks current]. split; [done|].
  split; [by rewrite Hc, <- app_assoc|]. rewrite !ink_app in *. by rewrite Hsep, <- Hi, <- app_assoc.
Qed.

(** Cutting a long message loses nothing of it: the messages, read in order, show all of its text but
    white space, and a block of code that a cut falls in is closed at the end of one message and opened
    again at the beginning of the next, nowhere else. *)
Lemma a_cut_message_keeps_its_text html limit :
  (0 < limit)%nat ->
  exists shown, seams false (splitForTelegram html limit) shown false /\ ink shown = ink html.
Proof.
  intros Hl. unfold splitForTelegram. case_match.
  { exists html. split; [|done]. pose proof (seams_snoc false [] [] false html false (seams_nil _)) as H1.
    cbn in H1. by rewrite app_nil_r in H1. }
  assert (Hfold : forall ps x t, shows_so_far x t -> shows_so_far (fold_left (add_piece limit) ps x) (t ++ List.concat ps)).
  { intros ps. induction ps as [|p ps IH]; intros x t Hx; cbn [fold_left List.concat]; [by rewrite app_nil_r|].
    rewrite app_assoc. by apply IH, add_piece_shows. }
  destruct (Hfold (pieces limit html) {| chunks := []; current := []; inPre := false |} [])
    as (b & shown & body & Hs & Hc & Hi); [exists false, [], []; repeat constructor|].
  rewrite app_nil_l, pieces_concat, split_lines_ink in Hi by done.
  set (x := fold_left _ _ _) in *. clearbody x. destruct (all_blank (current x)) eqn:Eb.
  - rewrite Hc, all_blank_app in Eb. apply andb_true_iff in Eb as [Hb Hbody]. exists shown.
    destruct b; [done|]. split; [done|]. by rewrite <- Hi, ink_app, (blank_ink body), app_nil_r.
  - exists (shown ++ body). split; [|done]. rewrite Hc.
    pose proof (seams_snoc false _ _ _ body false Hs) as H1. by rewrite app_nil_r in H1.
Qed.

(** ** How long the messages are *)

Lemma split_pieces_length limit line :
  (0 < limit)%nat -> Forall (fun p => (List.length p <= limit)%nat) (split_pieces limit line).
Proof.
  intros Hl. unfold split_pieces. destruct (Nat.ltb_spec limit (List.length line)); [by apply slices_concat|].
  by repeat constructor.
Qed.

Definition fits (limit : nat) (x : Split) : Prop :=
  (List.length (current x) <= limit + 6)%nat /\ (all_blank (current x) = true -> current x = []) /\
  Forall (fun m => (List.length m <= limit + 12)%nat) (chunks x).

Lemma flush_fits limit x : fits limit x -> fits limit (flush x) /\
  (List.length (current (flush x)) <= 5)%nat.
Proof.
  intros Hx. pose proof Hx as (H1 & H2 & H3). unfold flush. destruct (all_blank (current x)) eqn:Eb.
  - split; [done|]. rewrite H2 by done. cbn. lia.
  - cbn [current chunks]. split; [|destruct (inPre x); cbn; lia]. split; [|split]; cbn [current chunks].
    + destruct (inPre x); cbn; lia.
    + by destruct (inPre x).
    + apply Forall_app. split; [done|]. repeat constructor. destruct (inPre x); rewrite ?length_app; cbn; lia.
Qed.

Lemma add_piece_fits limit x p :
  (List.length p <= limit)%nat -> p = [] \/ all_blank p = false -> fits limit x -> fits limit (add_piece limit x p).
Proof.
  intros Hp Hn Hx. unfold add_piece. set (y := if (limit <? _)%nat then flush x else x).
  assert (Hy : fits limit y /\ (List.length (current y) + 1 + List.length p <= limit + 6)%nat).
  { subst y. destruct (Nat.ltb_spec limit (List.length (current x) + List.length p + 1)).
    - destruct (flush_fits limit x Hx). split; [done|lia].
    - split; [done|lia]. }
  clearbody y. destruct Hy as [(H1 & H2 & H3) H4].
  split; [|split; [|done]]; cbn [current chunks].
  - rewrite !length_app. destruct (current y); cbn in *; lia.
  - rewrite !all_blank_app, !andb_true_iff. intros (Hb & _ & Hb'). rewrite H2 in * by done.
    destruct Hn as [->|Hn]; [done|congruence].
Qed.

(** When no line is made of spaces alone, every message is at most twelve units longer than the limit,
    the tags that close and open a block: 3912 of the 4096 that Telegram takes. *)
Lemma messages_fit_the_limit html limit :
  (0 < limit)%nat -> Forall (fun p => p = [] \/ all_blank p = false) (pieces limit html) ->
  Forall (fun m => (List.length m <= limit + 12)%nat) (splitForTelegram html limit).
Proof.
  intros Hl Hb. unfold splitForTelegram. destruct (Nat.leb_spec (List.length html) limit).
  { repeat constructor. lia. }
  assert (Hp : Forall (fun p => (List.length p <= limit)%nat) (pieces limit html)).
  { unfold pieces. apply Forall_concat, Forall_map, Forall_true. intros l. by apply split_pieces_length. }
  assert (Hx : fits limit {| chunks := []; current := []; inPre := false |}) by (repeat split; cbn; [lia|constructor]).
  revert Hx Hb Hp. generalize {| chunks := []; current := []; inPre := false |}. generalize (pieces limit html).
  intros ps. induction ps as [|p ps IH]; intros x Hx Hb Hp; cbn [fold_left].
  - destruct Hx as (H1 & H2 & H3). case_match; [done|]. apply Forall_app. split; [done|]. repeat constructor. lia.
  - apply Forall_cons in Hb as [Hb1 Hb], Hp as [Hp1 Hp]. apply IH; [|done|done]. by apply add_piece_fits.
Qed.

Lemma add_to_blank limit x p : all_blank (current x) = true ->
  chunks (add_piece limit x p) = chunks x /\
  current (add_piece limit x p) = current x ++ (match current x with [] => [] | _ => [LF] end) ++ p.
Proof.
  intros Hb. unfold add_piece. replace (if (limit <? _)%nat then flush x else x) with x; [done|].
  case_match; [|done]. unfold flush. by rewrite Hb.
Qed.

(** A line of spaces does break the limit: it is not sent by itself, so that a full line after it
    makes one message of both. *)
Lemma spaces_escape_the_limit limit k :
  (0 < k <= limit)%nat ->
  let html := replicate k 32 ++ [LF] ++ replicate limit 97 in
  splitForTelegram html limit = [html] /\ List.length html = (limit + k + 1)%nat.
Proof.
  intros Hk html.
  assert (Hline : forall n c u, c <> LF -> split_lines (replicate n c ++ LF :: u) = replicate n c :: split_lines u).
  { intros n c u Hc. induction n as [|n IH]; [done|]. cbn [replicate app split_lines]. rewrite IH.
    by rewrite (proj2 (Z.eqb_neq c LF)). }
  assert (Hlast : split_lines (replicate limit 97) = [replicate limit 97]).
  { clear. induction limit as [|n IH]; [done|]. cbn [replicate split_lines]. by rewrite IH. }
  assert (Hb : forall n, all_blank (replicate n 32) = true).
  { intros n. rewrite all_blank_spec. induction n as [|n IH]; [done|]. by cbn. }
  assert (Hlen : List.length html = (limit + k + 1)%nat).
  { subst html. rewrite !length_app, !length_replicate. cbn. lia. }
  split; [|done]. unfold splitForTelegram. rewrite Hlen, (proj2 (Nat.leb_gt _ _)) by lia.
  assert (Hp : pieces limit html = [replicate k 32; replicate limit 97]).
  { unfold pieces. subst html. cbn [app]. rewrite Hline, Hlast by done. cbn [map List.concat].
    unfold split_pieces. rewrite !length_replicate, !(proj2 (Nat.ltb_ge _ _)) by lia. done. }
  rewrite Hp. cbn [fold_left]. clear Hp Hlen Hline Hlast.
  pose proof (add_to_blank limit {| chunks := []; current := []; inPre := false |} (replicate k 32) eq_refl) as [C1 K1].
  set (x := add_piece limit _ (replicate k 32)) in *. cbn [chunks current app] in C1, K1.
  destruct (add_to_blank limit x (replicate limit 97)) as [C2 K2]; [by rewrite K1|].
  rewrite C2, C1, K2, K1. destruct k as [|k]; [lia|]. cbn [replicate app].
  change (32 :: replicate k 32 ++ LF :: replicate limit 97) with html.
  destruct (all_blank html) eqn:E; [|done]. exfalso. subst html. rewrite !all_blank_app, !andb_true_iff in E.
  destruct E as (_ & _ & E). destruct limit as [|l]; [lia|]. rewrite all_blank_spec in E. done.
Qed.

(** ** Witnesses *)

Lemma a_cut_message_keeps_its_text_witness :
  exists shown, seams false (splitForTelegram (FormatExamples.lines ["<pre>aaaa"; "bbbb</pre>"; "cc"]%string) 12) shown false /\
    ink shown = ink (FormatExamples.lines ["<pre>aaaa"; "bbbb</pre>"; "cc"]%string).
Proof. apply (a_cut_message_keeps_its_text _ 12). lia. Defined.

Lemma messages_fit_the_limit_witness :
  Forall (fun m => (List.length m <= 12 + 12)%nat)
    (splitForTelegram (FormatExamples.lines ["<pre>aaaa"; ""; "bbbb</pre>"; "cc"]%string) 12).
Proof.
  apply messages_fit_the_limit; [lia|]. vm_compute. repeat constructor; first [by left|by right].
Defined.

Lemma spaces_escape_the_limit_witness :
  let html := replicate 3 32 ++ [LF] ++ replicate 10 97 in
  splitForTelegram html 10 = [html] /\ List.length html = 14%nat.
Proof. apply (spaces_escape_the_limit 10 3). lia. Defined.
