(* ===== verification/Registry.v ===== *)
(** * Registry: HITL levels and the static tool registry

    [src/hitl/types.ts], [src/hitl/classifier.ts] (the pure part) and
    [src/tools/registry.ts].  The registry is the table of the source, entry by
    entry, schemas and descriptions included. *)
From S2P Require Import Prelude Js.
Local Open Scope string_scope.
Local Open Scope stdpp_scope.

(** ** Levels *)

Inductive HitlLevel := Auto | Notify | Confirm | DualConfirm.

#[export] Instance HitlLevel_eq_dec : EqDecision HitlLevel.
Proof. solve_decision. Defined.

(** The literals of the union, as stored in [text] columns. *)
Definition level_name (l : HitlLevel) : string :=
  match l with
  | Auto => "auto" | Notify => "notify" | Confirm => "confirm" | DualConfirm => "dual-confirm"
  end.

(** Declared in increasing order of restriction. *)
Definition HITL_LEVELS : list HitlLevel := [Auto; Notify; Confirm; DualConfirm].

(** [l.indexOf(x)] when [x] is in [l]. *)
Fixpoint index_of {A} `{EqDecision A} (x : A) (l : list A) : nat :=
  match l with
  | [] => 0
  | y :: l' => if decide (x = y) then 0 else S (index_of x l')
  end.

Definition hitlLevelOrdinal (level : HitlLevel) : nat := index_of level HITL_LEVELS.

Definition approvalsRequiredFor (level : HitlLevel) : nat :=
  match level with
  | Auto | Notify => 0
  | Confirm => 1
  | DualConfirm => 2
  end.

Record HitlDecision := {
  hd_requestId : string;
  hd_toolName : string;
  hd_level : HitlLevel;
  hd_approvalsRequired : nat;
  hd_notifyAfterExecution : bool;
  hd_relaxedBy : option string
}.

(** ** Tools *)

Inductive IntegrationName := Canvas | Google | Mcp | Telegram.

#[export] Instance IntegrationName_eq_dec : EqDecision IntegrationName.
Proof. solve_decision. Defined.

Inductive TimeoutBehavior := Discard | Escalate.

#[export] Instance TimeoutBehavior_eq_dec : EqDecision TimeoutBehavior.
Proof. solve_decision. Defined.

Record ToolDefinition := {
  td_name : string;
  td_hitlLevel : HitlLevel;
  td_description : string;
  td_timeoutBehavior : option TimeoutBehavior;
  td_inputSchema : json;
  td_integration : option IntegrationName;
  td_guardedInSemiAuto : option bool;
  td_humanDecision : option bool
}.

Definition tool_readEmails : ToolDefinition := {|
  td_name := "readEmails";
  td_hitlLevel := Auto;
  td_description := "Lee correos del usuario. Solo lectura, sin efectos secundarios.";
  td_timeoutBehavior := None;
  td_inputSchema := JObj [
      ("type", JStr "object");
      ("properties", JObj [
        ("query", JObj [
          ("type", JStr "string");
          ("description", JStr ("Query de búsqueda estilo Gmail (ej. " +:+ dq +:+ "is:unread label:INBOX" +:+ dq +:+ ")."))]);
        ("threadId", JObj [
          ("type", JStr "string");
          ("description", JStr "Si se provee, lee un hilo específico en vez de listar.")]);
        ("maxResults", JObj [
          ("type", JStr "number");
          ("description", JStr "Tope de mensajes a devolver.")])])];
  td_integration := Some Google;
  td_guardedInSemiAuto := None;
  td_humanDecision := None |}.

Definition tool_createCalendarEvent : ToolDefinition := {|
  td_name := "createCalendarEvent";
  td_hitlLevel := Notify;
  td_description := "Crea un evento en Google Calendar. Se ejecuta y se notifica después.";
  td_timeoutBehavior := None;
  td_inputSchema := JObj [
      ("type", JStr "object");
      ("properties", JObj [
        ("summary", JObj [
          ("type", JStr "string");
          ("description", JStr "Título del evento.")]);
        ("description", JObj [
          ("type", JStr "string")]);
        ("location", JObj [
          ("type", JStr "string")]);
        ("start", JObj [
          ("type", JStr "string");
          ("format", JStr "date-time");
          ("description", JStr "ISO 8601.")]);
        ("end", JObj [
          ("type", JStr "string");
          ("format", JStr "date-time");
          ("description", JStr "ISO 8601.")])]);
      ("required", JArr [JStr "summary"; JStr "start"; JStr "end"])];
  td_integration := Some Google;
  td_guardedInSemiAuto := None;
  td_humanDecision := None |}.

Definition tool_sendEmail : ToolDefinition := {|
  td_name := "sendEmail";
  td_hitlLevel := Confirm;
  td_description := "Envía un correo en nombre del usuario. Requiere 1 aprobación.";
  td_timeoutBehavior := Some Discard;
  td_inputSchema := JObj [
      ("type", JStr "object");
      ("properties", JObj [
        ("to", JObj [
          ("type", JStr "string");
          ("format", JStr "email")]);
        ("subject", JObj [
          ("type", JStr "string")]);
        ("body", JObj [
          ("type", JStr "string")]);
        ("threadId", JObj [
          ("type", JStr "string");
          ("description", JStr "Si se provee, responde en ese hilo en vez de crear uno nuevo.")])]);
      ("required", JArr [JStr "to"; JStr "subject"; JStr "body"])];
  td_integration := Some Google;
  td_guardedInSemiAuto := Some true;
  td_humanDecision := None |}.

Definition tool_canvasListAssignments : ToolDefinition := {|
  td_name := "canvasListAssignments";
  td_hitlLevel := Auto;
  td_description := "Lista tareas/entregables próximos de Canvas. Solo lectura, sin efectos secundarios.";
  td_timeoutBehavior := None;
  td_inputSchema := JObj [
      ("type", JStr "object");
      ("properties", JObj [
        ("courseId", JObj [
          ("type", JStr "number");
          ("description", JStr "Filtra por curso. Si se omite, lista de todos los cursos.")])])];
  td_integration := Some Canvas;
  td_guardedInSemiAuto := None;
  td_humanDecision := None |}.

Definition tool_canvasGetCourseContent : ToolDefinition := {|
  td_name := "canvasGetCourseContent";
  td_hitlLevel := Auto;
  td_description := "Lee materiales de un curso de Canvas (anuncios, archivos). Solo lectura.";
  td_timeoutBehavior := None;
  td_inputSchema := JObj [
      ("type", JStr "object");
      ("properties", JObj [
        ("courseIds", JObj [
          ("type", JStr "array");
          ("items", JObj [
            ("type", JStr "number")]);
          ("description", JStr "IDs de los cursos a consultar.")]);
        ("sinceDate", JObj [
          ("type", JStr "string");
          ("format", JStr "date");
          ("description", JStr "Solo contenido publicado desde esta fecha (ISO 8601).")])]);
      ("required", JArr [JStr "courseIds"])];
  td_integration := Some Canvas;
  td_guardedInSemiAuto := None;
  td_humanDecision := None |}.

Definition tool_canvasScheduleStudyBlock : ToolDefinition := {|
  td_name := "canvasScheduleStudyBlock";
  td_hitlLevel := Notify;
  td_description := "Crea un bloque de estudio sugerido en Google Calendar a partir de tareas de Canvas. Se ejecuta y se notifica después.";
  td_timeoutBehavior := None;
  td_inputSchema := JObj [
      ("type", JStr "object");
      ("properties", JObj [
        ("title", JObj [
          ("type", JStr "string")]);
        ("startTime", JObj [
          ("type", JStr "string");
          ("format", JStr "date-time");
          ("description", JStr "ISO 8601.")]);
        ("endTime", JObj [
          ("type", JStr "string");
          ("format", JStr "date-time");
          ("description", JStr "ISO 8601.")])]);
      ("required", JArr [JStr "title"; JStr "startTime"; JStr "endTime"])];
  td_integration := Some Canvas;
  td_guardedInSemiAuto := None;
  td_humanDecision := None |}.

Definition tool_listCalendarEvents : ToolDefinition := {|
  td_name := "listCalendarEvents";
  td_hitlLevel := Auto;
  td_description := "Lista eventos de Google Calendar. Solo lectura, sin efectos secundarios.";
  td_timeoutBehavior := None;
  td_inputSchema := JObj [
      ("type", JStr "object");
      ("properties", JObj [
        ("timeMin", JObj [
          ("type", JStr "string");
          ("format", JStr "date-time");
          ("description", JStr "ISO 8601.")]);
        ("timeMax", JObj [
          ("type", JStr "string");
          ("format", JStr "date-time");
          ("description", JStr "ISO 8601.")]);
        ("maxResults", JObj [
          ("type", JStr "number")])])];
  td_integration := Some Google;
  td_guardedInSemiAuto := None;
  td_humanDecision := None |}.

Definition tool_updateCalendarEvent : ToolDefinition := {|
  td_name := "updateCalendarEvent";
  td_hitlLevel := Notify;
  td_description := "Actualiza un evento existente en Google Calendar. Se ejecuta y se notifica después.";
  td_timeoutBehavior := None;
  td_inputSchema := JObj [
      ("type", JStr "object");
      ("properties", JObj [
        ("eventId", JObj [
          ("type", JStr "string")]);
        ("eventData", JObj [
          ("type", JStr "object");
          ("description", JStr "Solo los campos a cambiar.");
          ("properties", JObj [
            ("summary", JObj [
              ("type", JStr "string")]);
            ("description", JObj [
              ("type", JStr "string")]);
            ("location", JObj [
              ("type", JStr "string")]);
            ("start", JObj [
              ("type", JStr "string");
              ("format", JStr "date-time")]);
            ("end", JObj [
              ("type", JStr "string");
              ("format", JStr "date-time")])])])]);
      ("required", JArr [JStr "eventId"; JStr "eventData"])];
  td_integration := Some Google;
  td_guardedInSemiAuto := None;
  td_humanDecision := None |}.

Definition tool_deleteCalendarEventPast : ToolDefinition := {|
  td_name := "deleteCalendarEventPast";
  td_hitlLevel := Notify;
  td_description := "Borra un evento pasado de Google Calendar. Se ejecuta y se notifica después.";
  td_timeoutBehavior := None;
  td_inputSchema := JObj [
      ("type", JStr "object");
      ("properties", JObj [
        ("eventId", JObj [
          ("type", JStr "string")])]);
      ("required", JArr [JStr "eventId"])];
  td_integration := Some Google;
  td_guardedInSemiAuto := None;
  td_humanDecision := None |}.

Definition tool_deleteCalendarEventFuture : ToolDefinition := {|
  td_name := "deleteCalendarEventFuture";
  td_hitlLevel := Confirm;
  td_description := "Borra un evento futuro de Google Calendar. Requiere 1 aprobación.";
  td_timeoutBehavior := Some Discard;
  td_inputSchema := JObj [
      ("type", JStr "object");
      ("properties", JObj [
        ("eventId", JObj [
          ("type", JStr "string")])]);
      ("required", JArr [JStr "eventId"])];
  td_integration := Some Google;
  td_guardedInSemiAuto := Some true;
  td_humanDecision := None |}.

Definition tool_runCode : ToolDefinition := {|
  td_name := "runCode";
  td_hitlLevel := Confirm;
  td_description := "Ejecuta código TypeScript o Python en un entorno aislado (pod Deno local o sandbox de Modal para dependencias científicas como pandas). Requiere 1 aprobación.";
  td_timeoutBehavior := Some Discard;
  td_inputSchema := JObj [
      ("type", JStr "object");
      ("properties", JObj [
        ("code", JObj [
          ("type", JStr "string");
          ("description", JStr "Código fuente a ejecutar.")]);
        ("language", JObj [
          ("type", JStr "string");
          ("enum", JArr [JStr "typescript"; JStr "python"]);
          ("description", JStr "typescript corre local en un pod Deno aislado; python escala automáticamente a Modal (dependencias científicas).")])]);
      ("required", JArr [JStr "code"; JStr "language"])];
  td_integration := None;
  td_guardedInSemiAuto := None;
  td_humanDecision := None |}.

Definition tool_resolveAgentConflict : ToolDefinition := {|
  td_name := "resolveAgentConflict";
  td_hitlLevel := Confirm;
  td_description := "Escala al owner un conflicto material detectado entre sub-agentes durante una orquestación multi-agente, con una resolución propuesta. Requiere 1 aprobación.";
  td_timeoutBehavior := Some Discard;
  td_inputSchema := JObj [
      ("type", JStr "object");
      ("properties", JObj [
        ("ticketId", JObj [
          ("type", JStr "string")]);
        ("conflictSummary", JObj [
          ("type", JStr "string")]);
        ("proposedResolution", JObj [
          ("type", JStr "string")])]);
      ("required", JArr [JStr "ticketId"; JStr "conflictSummary"; JStr "proposedResolution"])];
  td_integration := None;
  td_guardedInSemiAuto := None;
  td_humanDecision := Some true |}.

Definition tool_mergeAgentBranch : ToolDefinition := {|
  td_name := "mergeAgentBranch";
  td_hitlLevel := Confirm;
  td_description := "Mergea a main la branch feature/agent/<ticket> de un sub-agente. Requiere 1 aprobación. NO IMPLEMENTADA todavía (501) — no existe hoy ninguna tool que le dé a un sub-agente la capacidad de producir una branch real.";
  td_timeoutBehavior := Some Discard;
  td_inputSchema := JObj [
      ("type", JStr "object");
      ("properties", JObj [
        ("ticketId", JObj [
          ("type", JStr "string")]);
        ("branchName", JObj [
          ("type", JStr "string")])]);
      ("required", JArr [JStr "ticketId"; JStr "branchName"])];
  td_integration := None;
  td_guardedInSemiAuto := Some true;
  td_humanDecision := None |}.

Definition tool_startPreviewService : ToolDefinition := {|
  td_name := "startPreviewService";
  td_hitlLevel := Confirm;
  td_description := ("Levanta un pod de servicio de larga vida expuesto bajo https://<slug>.jinserver.com, con TTL obligatorio. Requiere 1 aprobación: expone código de agentes a internet, aunque sea en el dominio sandbox. Dura hasta 7 días (ttlSeconds máximo 604800); para alargarla después usá extendPreviewService. Salvo template: " +:+ dq +:+ "node" +:+ dq +:+ " (que solo llega al proxy de npm de Jin), el pod NO tiene internet: para una web o mini-app usá template: " +:+ dq +:+ "static" +:+ dq +:+ " con un index.html; cargá React, Tailwind u otras librerías desde un CDN en el HTML (ej. <script src=" +:+ dq +:+ "https://cdn.tailwindcss.com" +:+ dq +:+ ">, import de https://esm.sh/react) y escribí JSX con <script type=" +:+ dq +:+ "text/babel" +:+ dq +:+ "> o JS plano. Mantené el proyecto chico (pocos archivos). Solo sin template se usan command y port, y solo si el comando no necesita instalar dependencias.");
  td_timeoutBehavior := Some Discard;
  td_inputSchema := JObj [
      ("type", JStr "object");
      ("properties", JObj [
        ("files", JObj [
          ("type", JStr "object");
          ("additionalProperties", JObj [
            ("type", JStr "string")]);
          ("description", JStr "Mapa ruta relativa -> contenido del proyecto a servir.")]);
        ("template", JObj [
          ("type", JStr "string");
          ("enum", JArr [JStr "static"; JStr "node"]);
          ("description", JStr ("Recomendado. " +:+ dq +:+ "static" +:+ dq +:+ ": Jin sirve los archivos con su propio servidor (necesita index.html); no se pasan command ni port. " +:+ dq +:+ "node" +:+ dq +:+ ": un backend de Node (frontend y API en el mismo servidor) con package.json (dependencies y scripts.start); el pod instala las dependencias (npm ci/install, SIN scripts de instalación) desde un proxy de npm de Jin y arranca con npm start; el servidor debe escuchar en process.env.PORT (8080). No se pasan command ni port."))]);
        ("command", JObj [
          ("type", JStr "array");
          ("items", JObj [
            ("type", JStr "string")]);
          ("description", JStr ("Solo sin template: argv del proceso principal (sin dependencias que instalar), ej. [" +:+ dq +:+ "node" +:+ dq +:+ "," +:+ dq +:+ "server.mjs" +:+ dq +:+ "]."))]);
        ("port", JObj [
          ("type", JStr "number");
          ("description", JStr "Solo sin template: puerto que expone el proceso.")]);
        ("ttlSeconds", JObj [
          ("type", JStr "number");
          ("description", JStr "Tiempo de vida antes de que el reaper lo destruya automáticamente (cap duro: 7 días = 604800). Para una demo a clientes elegí el tiempo que haga falta; se puede alargar con extendPreviewService.")]);
        ("db", JObj [
          ("type", JStr "string");
          ("enum", JArr [JStr "sqlite"; JStr "redis"; JStr "postgres"; JStr "mongodb"]);
          ("description", JStr ("Base de datos de DEMO (datos de prueba para mostrar un frontend, NO producción). " +:+ dq +:+ "sqlite" +:+ dq +:+ ": un archivo (process.env.SQLITE_PATH, funciona con node:sqlite sin instalar nada). " +:+ dq +:+ "redis" +:+ dq +:+ " / " +:+ dq +:+ "postgres" +:+ dq +:+ " / " +:+ dq +:+ "mongodb" +:+ dq +:+ ": un contenedor auxiliar dentro del mismo pod, solo en 127.0.0.1, con credenciales aleatorias; la app las recibe en process.env.REDIS_URL / DATABASE_URL / MONGODB_URI (usa template " +:+ dq +:+ "node" +:+ dq +:+ " y declara el cliente npm en package.json: ioredis, pg, mongodb). Los datos viven lo que viva el pod. La base puede tardar unos segundos en aceptar conexiones: la app debe reintentar al arrancar."))]);
        ("secrets", JObj [
          ("type", JStr "array");
          ("items", JObj [
            ("type", JStr "string")]);
          ("description", JStr ("NOMBRES de secretos de demo que la app necesita como variables de entorno (hoy solo " +:+ dq +:+ "brevo" +:+ dq +:+ ": BREVO_API_KEY, BREVO_SENDER_EMAIL, BREVO_SENDER_NAME, BREVO_PROXY, para enviar correo; úsalo junto con mailEgress). El owner ya los creó en el clúster: tú solo pones el nombre, JAMÁS pidas ni escribas el valor de una clave. Si el secreto no está habilitado o no existe, la demo no arranca."))]);
        ("mailEgress", JObj [
          ("type", JStr "boolean");
          ("description", JStr "Solo si la app debe ENVIAR CORREO (API de Brevo): el pod podrá salir únicamente a api.brevo.com:443 por un proxy de Jin. Sin esto, el pod no tiene ninguna salida. El owner lo ve en la aprobación.")]);
        ("slugHint", JObj [
          ("type", JStr "string");
          ("description", JStr "Nombre legible cosmético — la entropía real del subdominio la agrega el Executor.")])]);
      ("required", JArr [JStr "files"; JStr "ttlSeconds"])];
  td_integration := None;
  td_guardedInSemiAuto := None;
  td_humanDecision := None |}.

Definition tool_extendPreviewService : ToolDefinition := {|
  td_name := "extendPreviewService";
  td_hitlLevel := Confirm;
  td_description := "Alarga la vida de un pod de servicio activo (demo) sumando extraSeconds a su vencimiento actual, hasta 7 días desde que se creó. No funciona con uno ya vencido. Requiere 1 aprobación.";
  td_timeoutBehavior := None;
  td_inputSchema := JObj [
      ("type", JStr "object");
      ("properties", JObj [
        ("serviceId", JObj [
          ("type", JStr "string")]);
        ("extraSeconds", JObj [
          ("type", JStr "number");
          ("description", JStr "Segundos a sumar al vencimiento actual (máximo 604800 = 7 días).")])]);
      ("required", JArr [JStr "serviceId"; JStr "extraSeconds"])];
  td_integration := None;
  td_guardedInSemiAuto := None;
  td_humanDecision := None |}.

Definition tool_saveDemoToGithub : ToolDefinition := {|
  td_name := "saveDemoToGithub";
  td_hitlLevel := Confirm;
  td_description := "Guarda una demo (pod de servicio activo) en GitHub, en una rama huérfana demo/<slug> del repo compartido de demos del owner (nunca en main, nunca con --force). Requiere la aprobación del owner EN CADA USO: no la ofrezcas por defecto, solo si el owner pide guardar/subir la demo. Si ya existe la rama, agrega un commit encima.";
  td_timeoutBehavior := Some Discard;
  td_inputSchema := JObj [
      ("type", JStr "object");
      ("properties", JObj [
        ("serviceId", JObj [
          ("type", JStr "string");
          ("description", JStr "Id del pod de servicio (listPreviewServices).")]);
        ("slug", JObj [
          ("type", JStr "string");
          ("description", JStr ("Nombre de la rama: minúsculas, números y guiones (ej. " +:+ dq +:+ "sistema-reservas" +:+ dq +:+ "). Quedará como demo/<slug>."))])]);
      ("required", JArr [JStr "serviceId"; JStr "slug"])];
  td_integration := None;
  td_guardedInSemiAuto := None;
  td_humanDecision := Some true |}.

Definition tool_listGithubDemos : ToolDefinition := {|
  td_name := "listGithubDemos";
  td_hitlLevel := Auto;
  td_description := "Lista las demos guardadas en GitHub (ramas demo/* del repo de demos del owner). Solo lectura.";
  td_timeoutBehavior := None;
  td_inputSchema := JObj [
      ("type", JStr "object");
      ("properties", JObj [])];
  td_integration := None;
  td_guardedInSemiAuto := None;
  td_humanDecision := None |}.

Definition tool_stopPreviewService : ToolDefinition := {|
  td_name := "stopPreviewService";
  td_hitlLevel := Notify;
  td_description := "Detiene y destruye un pod de servicio activo antes de su TTL.";
  td_timeoutBehavior := None;
  td_inputSchema := JObj [
      ("type", JStr "object");
      ("properties", JObj [
        ("serviceId", JObj [
          ("type", JStr "string")])]);
      ("required", JArr [JStr "serviceId"])];
  td_integration := None;
  td_guardedInSemiAuto := None;
  td_humanDecision := None |}.

Definition tool_listPreviewServices : ToolDefinition := {|
  td_name := "listPreviewServices";
  td_hitlLevel := Auto;
  td_description := "Lista los pods de servicio activos del owner y su TTL restante. Solo lectura.";
  td_timeoutBehavior := None;
  td_inputSchema := JObj [
      ("type", JStr "object");
      ("properties", JObj [])];
  td_integration := None;
  td_guardedInSemiAuto := None;
  td_humanDecision := None |}.

Definition tool_indexEmailToCorpus : ToolDefinition := {|
  td_name := "indexEmailToCorpus";
  td_hitlLevel := Auto;
  td_description := "Indexa un correo (ya leído con readEmails) en el corpus propio para poder recuperarlo después por similitud semántica. Solo lectura desde la perspectiva del usuario -- no envía ni modifica nada.";
  td_timeoutBehavior := None;
  td_inputSchema := JObj [
      ("type", JStr "object");
      ("properties", JObj [
        ("messageId", JObj [
          ("type", JStr "string");
          ("description", JStr "ID del mensaje en Gmail (dedup real: reindexar el mismo ID actualiza, no duplica).")]);
        ("subject", JObj [
          ("type", JStr "string")]);
        ("from", JObj [
          ("type", JStr "string")]);
        ("date", JObj [
          ("type", JStr "string")]);
        ("body", JObj [
          ("type", JStr "string");
          ("description", JStr "Contenido del correo.")])]);
      ("required", JArr [JStr "messageId"; JStr "body"])];
  td_integration := Some Google;
  td_guardedInSemiAuto := None;
  td_humanDecision := None |}.

Definition tool_searchCorpus : ToolDefinition := {|
  td_name := "searchCorpus";
  td_hitlLevel := Auto;
  td_description := "Busca en el corpus propio (correos indexados) por similitud semántica. Solo lectura, sin efectos secundarios.";
  td_timeoutBehavior := None;
  td_inputSchema := JObj [
      ("type", JStr "object");
      ("properties", JObj [
        ("query", JObj [
          ("type", JStr "string");
          ("description", JStr "Qué se necesita encontrar.")]);
        ("limit", JObj [
          ("type", JStr "number");
          ("description", JStr "Tope de resultados (default 5).")])]);
      ("required", JArr [JStr "query"])];
  td_integration := None;
  td_guardedInSemiAuto := None;
  td_humanDecision := None |}.

Definition tool_queryExternalDocs : ToolDefinition := {|
  td_name := "queryExternalDocs";
  td_hitlLevel := Auto;
  td_description := ("Busca documentación oficial de una librería o framework externo (ej. " +:+ dq +:+ "react" +:+ dq +:+ ", " +:+ dq +:+ "tailwindcss" +:+ dq +:+ ") sobre un tema puntual. Solo lectura, vía MCP.");
  td_timeoutBehavior := None;
  td_inputSchema := JObj [
      ("type", JStr "object");
      ("properties", JObj [
        ("library", JObj [
          ("type", JStr "string");
          ("description", JStr ("Nombre de la librería/framework, ej. " +:+ dq +:+ "react" +:+ dq +:+ "."))]);
        ("query", JObj [
          ("type", JStr "string");
          ("description", JStr ("Qué se necesita saber, ej. " +:+ dq +:+ "hooks useEffect cleanup" +:+ dq +:+ "."))])]);
      ("required", JArr [JStr "library"; JStr "query"])];
  td_integration := None;
  td_guardedInSemiAuto := None;
  td_humanDecision := None |}.

Definition TOOL_REGISTRY : list ToolDefinition :=
  [tool_readEmails;
   tool_createCalendarEvent;
   tool_sendEmail;
   tool_canvasListAssignments;
   tool_canvasGetCourseContent;
   tool_canvasScheduleStudyBlock;
   tool_listCalendarEvents;
   tool_updateCalendarEvent;
   tool_deleteCalendarEventPast;
   tool_deleteCalendarEventFuture;
   tool_runCode;
   tool_resolveAgentConflict;
   tool_mergeAgentBranch;
   tool_startPreviewService;
   tool_extendPreviewService;
   tool_saveDemoToGithub;
   tool_listGithubDemos;
   tool_stopPreviewService;
   tool_listPreviewServices;
   tool_indexEmailToCorpus;
   tool_searchCorpus;
   tool_queryExternalDocs].

(** [new Map(entries)]: a later entry of a key replaces an earlier one. *)
Definition TOOL_REGISTRY_BY_NAME : gmap string ToolDefinition :=
  list_to_map (reverse (map (fun tool => (td_name tool, tool)) TOOL_REGISTRY)).

Definition getToolDefinition (name : string) : option ToolDefinition :=
  TOOL_REGISTRY_BY_NAME !! name.

Definition listRegisteredTools : list ToolDefinition := TOOL_REGISTRY.

(** ** Facts about the table *)

Lemma registry_names_nodup : NoDup (map td_name TOOL_REGISTRY).
Proof. apply (bool_decide_unpack _). vm_compute. exact I. Qed.

(** The index by name finds exactly the tools of the table. *)
Lemma getToolDefinition_spec (name : string) (t : ToolDefinition) :
  getToolDefinition name = Some t <-> t ∈ TOOL_REGISTRY /\ td_name t = name.
Proof.
  unfold getToolDefinition, TOOL_REGISTRY_BY_NAME.
  rewrite <- elem_of_list_to_map.
  - rewrite elem_of_reverse, list_elem_of_fmap. split.
    + intros (t' & [= -> ->] & Ht). done.
    + intros [Ht <-]. eauto.
  - rewrite fmap_reverse, reverse_Permutation, <- list_fmap_compose. apply registry_names_nodup.
Qed.

Lemma hitlLevelOrdinal_inj l1 l2 : hitlLevelOrdinal l1 = hitlLevelOrdinal l2 -> l1 = l2.
Proof. by destruct l1, l2. Qed.

Lemma approvalsRequiredFor_mono l1 l2 :
  (hitlLevelOrdinal l1 <= hitlLevelOrdinal l2)%nat ->
  (approvalsRequiredFor l1 <= approvalsRequiredFor l2)%nat.
Proof. destruct l1, l2; vm_compute; lia. Qed.

(** ** The schemas of the arguments

    JSON Schema as the table uses it: every schema has a type; an object lists its
    properties and requires only what it lists, or is a map whose values have a schema; an array
    says what its items are.
    [depth] bounds the nesting. *)
Definition schema_field (key : string) (fields : list (string * json)) : option json :=
  snd <$> find (fun f => String.eqb (fst f) key) fields.

Definition scalar_types : list string := ["string"; "number"; "boolean"].

Fixpoint schema_ok (depth : nat) (schema : json) : bool :=
  match depth, schema with
  | S depth, JObj fields =>
      match schema_field "type" fields with
      | Some (JStr "object") =>
          match schema_field "properties" fields, schema_field "additionalProperties" fields with
          | Some (JObj properties), _ =>
              forallb (fun p => schema_ok depth (snd p)) properties &&
              bool_decide (NoDup (map fst properties)) &&
              match schema_field "required" fields with
              | None => true
              | Some (JArr names) =>
                  forallb (fun n => match n with
                                    | JStr name => existsb (fun p => String.eqb (fst p) name) properties
                                    | _ => false
                                    end) names
              | Some _ => false
              end
          | None, Some values => schema_ok depth values
          | _, _ => false
          end
      | Some (JStr "array") =>
          match schema_field "items" fields with Some items => schema_ok depth items | None => false end
      | Some (JStr t) => existsb (String.eqb t) scalar_types
      | _ => false
      end
  | _, _ => false
  end.

(** The top level is an object, as the vendors of the models require. *)
Definition is_object_schema (schema : json) : bool :=
  match schema with
  | JObj fields => match schema_field "type" fields with Some (JStr t) => String.eqb t "object" | _ => false end
  | _ => false
  end.

Definition needs_approval (tool : ToolDefinition) : bool := (0 <? approvalsRequiredFor (td_hitlLevel tool))%nat.

Definition is_set (o : option bool) : bool := match o with Some b => b | None => false end.

Definition tool_ok (tool : ToolDefinition) : bool :=
  is_object_schema (td_inputSchema tool) && schema_ok 6 (td_inputSchema tool) &&
  match td_timeoutBehavior tool with Some _ => needs_approval tool | None => true end &&
  implb (is_set (td_guardedInSemiAuto tool)) (bool_decide (td_hitlLevel tool = Confirm)) &&
  implb (is_set (td_humanDecision tool)) (needs_approval tool).

(** C29. Every tool that the model can be offered is found by its own name and is well formed: its
    arguments are described by a schema of an object whose required arguments are all declared and
    typed, an expiry behaviour and the mark of a human decision are only on tools that need an
    approval, and only a 'confirm' tool is guarded in semi-auto. *)
Theorem every_tool_is_well_formed (name : string) (tool : ToolDefinition) :
  getToolDefinition name = Some tool ->
  td_name tool = name /\
  is_object_schema (td_inputSchema tool) = true /\ schema_ok 6 (td_inputSchema tool) = true /\
  (td_timeoutBehavior tool <> None -> needs_approval tool = true) /\
  (td_guardedInSemiAuto tool = Some true -> td_hitlLevel tool = Confirm) /\
  (td_humanDecision tool = Some true -> needs_approval tool = true).
Proof.
  intros [Ht Hn]%getToolDefinition_spec.
  assert (Hall : forallb tool_ok TOOL_REGISTRY = true) by (by vm_compute).
  rewrite forallb_forall in Hall. specialize (Hall tool (proj1 (list_elem_of_In _ _) Ht)).
  unfold tool_ok in Hall. rewrite !andb_true_iff in Hall. destruct Hall as [[[[H1 H2] H3] H4] H5].
  split; [done|]. split; [done|]. split; [done|]. split; [|split].
  - by destruct (td_timeoutBehavior tool).
  - intros E. rewrite E in H4. by apply bool_decide_eq_true in H4.
  - intros E. by rewrite E in H5.
Qed.

Lemma every_tool_is_well_formed_witness :
  td_name tool_sendEmail = "sendEmail" /\
  is_object_schema (td_inputSchema tool_sendEmail) = true /\ schema_ok 6 (td_inputSchema tool_sendEmail) = true /\
  (td_timeoutBehavior tool_sendEmail <> None -> needs_approval tool_sendEmail = true) /\
  (td_guardedInSemiAuto tool_sendEmail = Some true -> td_hitlLevel tool_sendEmail = Confirm) /\
  (td_humanDecision tool_sendEmail = Some true -> needs_approval tool_sendEmail = true).
Proof. apply (every_tool_is_well_formed "sendEmail" tool_sendEmail). by vm_compute. Defined.
