(* ===== verification/Store.v ===== *)
(** * Store: the tables, the errors and the atomic statements

    The rows of [src/db/schema.ts] (one record per table), the domain errors
    ([JinError] and its subclasses), the domain events, and the [World]: the
    database, the in-memory state of the services, the clock, the identifier
    supply and the trace of tool executions.  Every database statement goes
    through [db], which may fail: [fault n] says whether the [n]-th statement
    does (a lost connection, a constraint), and then the statement has no effect
    and the method throws. *)
From S2P Require Import Prelude Effects Js Text Registry.
From Stdlib Require Import QArith Qcanon.
Local Open Scope stdpp_scope.
Local Open Scope Z_scope.

(** ** Errors *)

Inductive JinError :=
| DbError
| ZodError (what : string)
| PlainError (message : string)
| UnknownToolError (toolName : string)
| ToolExecutorAlreadyRegisteredError (toolName : string)
| NoExecutorRegisteredError (toolName : string)
| PendingApprovalNotFoundError (requestId : string)
| SecondApprovalTooEarlyError (requestId : string) (availableAt : Z)
| ApprovalAlreadyResolvedError (requestId : string)
| AuditChainLockedError
| SessionBudgetExceededError (sessionId : string)
| DailyBudgetExceededError
| KillSwitchActiveError (reason : string)
| UnknownTaskProfileError (taskProfile : string)
| UnknownModelVendorError (modelId : string)
| InvalidChatModelOptionError (vendor modelId : string)
| AllProvidersFailedError (taskProfile primaryModelId fallbackModelId : string) (cause : JinError)
| StreamAlreadyPartiallyEmittedError (taskProfile modelId : string) (cause : JinError)
| AgentPlanStepOutOfBoundsError (stepIndex totalSteps : Z)
| TicketDecompositionParseError (rawContent : string)
| ReconciliationParseError (rawContent : string)
| InvalidSessionNonceError (sessionNonce : string)
| TerminalUpstreamError (code : string) (httpStatus : Z) (message : string)
| TerminalUnavailableError
| RelayQuotaExceededError
| RelayDisabledError
| TelegramError (description : string)   (* an error of the client of Telegram *)
| GrammyError (error_code : Z) (description message : string)   (* a call that Telegram rejects *)
| EmbeddingProviderError (message : string)
| ConsolidationParseError (rawResponse : string)
| PreviewTemplateInputError (message : string)
| BadRequestException (message : string)
| ExecutorApiError (statusCode : Z) (message : string)
| CanvasApiError (statusCode : Z) (message : string)
| CanvasRateLimitError
| GoogleGmailApiError (message : string)
| GoogleGmailRateLimitError
| GoogleCalendarApiError (message : string)
| GoogleCalendarRateLimitError
| ConflictException (message : string)
| NotFoundException (message : string)
| UnauthorizedException (message : string)
| InvalidCredentialsError
| UnknownMcpServerError (serverName : string)
| McpUnsupportedServerError (serverName : string) (availableTools : list string)
| McpUnexpectedResponseError (serverName toolName : string)
| RunNotFoundError (runId : string).

(** [err.message]; the text of a database or validation error is not modelled. *)
Definition messageOf (e : JinError) : string :=
  match e with
  | DbError => "database error"
  | ZodError what => what
  | PlainError m => m
  | UnknownToolError t => "Tool no registrada en el HITL registry: " +:+ quoted t
  | ToolExecutorAlreadyRegisteredError t =>
      "Ya hay un executor registrado para la tool " +:+ quoted t +:+ " — doble registro accidental."
  | NoExecutorRegisteredError t =>
      "No hay ningún executor registrado para la tool " +:+ quoted t
      +:+ " — no se puede ejecutar la acción aprobada."
  | PendingApprovalNotFoundError r => "No hay aprobación pendiente con requestId " +:+ quoted r
  | SecondApprovalTooEarlyError r t =>
      "La segunda aprobación de " +:+ quoted r +:+ " no se acepta antes de " +:+ to_iso_string t
  | ApprovalAlreadyResolvedError r =>
      "La aprobación " +:+ quoted r +:+ " ya está siendo ejecutada o ya fue resuelta por otra solicitud."
  | AuditChainLockedError =>
      "El audit log está bloqueado tras detectar corrupción en la cadena — requiere intervención manual (BLUEPRINT 9.5)."
  | SessionBudgetExceededError s =>
      "La sesión " +:+ quoted s +:+ " alcanzó su presupuesto máximo de tokens."
  | DailyBudgetExceededError =>
      "El presupuesto diario (tokens o USD) se agotó. Reset a las 00:00 hora local."
  | KillSwitchActiveError r =>
      "Kill switch activo: " +:+ r +:+ ". Requiere /unpause con aprobación humana."
  | UnknownTaskProfileError p => "TaskProfile " +:+ quoted p +:+ " no existe en config/models.yaml."
  | UnknownModelVendorError m =>
      "No se pudo determinar el vendor (Anthropic/Google/OpenAI) para el modelId " +:+ quoted m +:+ "."
  | InvalidChatModelOptionError v m =>
      quoted (v +:+ "/" +:+ m) +:+ " no está en el catálogo de modelos elegibles para el chat."
  | AllProvidersFailedError t p f _ =>
      "Tanto el modelo primary (" +:+ p +:+ ") como el fallback (" +:+ f
      +:+ ") fallaron para el profile " +:+ quoted t +:+ "."
  | StreamAlreadyPartiallyEmittedError t m _ =>
      "El modelo " +:+ quoted m +:+ " (profile " +:+ quoted t
      +:+ ") falló después de emitir contenido parcial al cliente — no se reintenta ni se cae a fallback para no mezclar texto de dos modelos en la misma respuesta."
  | AgentPlanStepOutOfBoundsError i n =>
      "updatePlanStep: índice " +:+ pretty i +:+ " fuera de rango (el plan tiene " +:+ pretty n +:+ " pasos)"
  | TicketDecompositionParseError r =>
      "Respuesta de descomposición de tickets no es JSON válido con la forma esperada: "
      +:+ js_slice 200 r
  | ReconciliationParseError r =>
      "Respuesta de reconciliación no es JSON válido con la forma esperada: "
      +:+ js_slice 200 r
  | InvalidSessionNonceError n =>
      "sessionNonce inválido: " +:+ quoted n +:+
      ". Se espera un hexadecimal de 16 caracteres generado por generateSessionNonce()."
  | TerminalUpstreamError _ _ m => m
  | TerminalUnavailableError => "No se pudo contactar al Executor para la terminal."
  | RelayQuotaExceededError =>
      "El puente ya mandó 30 mensajes en la última hora. Se corta para no inundar al owner."
  | RelayDisabledError =>
      "El puente Claude↔owner no está configurado en esta instancia (faltan TELEGRAM_RELAY_BOT_TOKEN y/o RELAY_TOKEN)."
  | TelegramError d => d
  | GrammyError _ _ m => m
  | EmbeddingProviderError m => "Error generando embedding: " +:+ m
  | ConsolidationParseError r =>
      "La respuesta del LLM de consolidación no es un JSON válido de entradas de memoria: "
      +:+ js_slice 200 r
  | PreviewTemplateInputError m | BadRequestException m | ConflictException m | NotFoundException m
  | UnauthorizedException m => m
  | ExecutorApiError code m => "Error en API del Executor (" +:+ pretty code +:+ "): " +:+ m
  | CanvasApiError code m => "Error en API de Canvas (" +:+ pretty code +:+ "): " +:+ m
  | CanvasRateLimitError => "Límite de peticiones a Canvas LMS superado (máximo 30 req/min)"
  | GoogleGmailApiError m => "Error en Gmail API: " +:+ m
  | GoogleGmailRateLimitError => "Límite de tasa (rate limit) de Gmail alcanzado (máximo 60 peticiones/minuto)."
  | GoogleCalendarApiError m => "Error en Google Calendar API: " +:+ m
  | GoogleCalendarRateLimitError =>
      "Límite de tasa (rate limit) de Google Calendar alcanzado (máximo 60 peticiones/minuto)."
  | InvalidCredentialsError => "Contraseña incorrecta."
  | UnknownMcpServerError s => "Servidor MCP " +:+ quoted s +:+ " no está en config/mcp-servers.yaml."
  | McpUnsupportedServerError s tools =>
      "El servidor MCP " +:+ quoted s +:+ " no expone las tools esperadas (resolve-library-id/get-library-docs). Tools disponibles: ["
      +:+ join ", " tools +:+ "]."
  | McpUnexpectedResponseError s t =>
      "El servidor MCP " +:+ quoted s +:+ " devolvió una respuesta inesperada para " +:+ quoted t
      +:+ " -- no se pudo extraer un resultado usable."
  | RunNotFoundError r => "Run de orquestación no encontrado: " +:+ r
  end.

(** ** Rows *)

Record PendingApprovalRow := {
  pa_requestId : string;
  pa_toolName : string;
  pa_level : string;
  pa_inputsHash : string;
  pa_planSummary : option string;
  pa_actor : option string;
  pa_externalInputsSummary : option string;
  pa_payload : json;
  pa_createdAt : Z;
  pa_firstApprovedAt : option Z;
  pa_firstApprover : option string;
  pa_availableAt : option Z;
  pa_escalatedAt : option Z;
  pa_executingAt : option Z;
  pa_executionError : option string
}.

(** The content of an audit row: what the hash of the chain covers. *)
Record HashableRow := {
  hr_requestId : string;
  hr_timestamp : Z;
  hr_actor : string;
  hr_actionType : string;
  hr_toolName : option string;
  hr_inputsHash : string;
  hr_planSummary : option string;
  hr_approvalStatus : string;
  hr_approver : option string;
  hr_externalInputsSummary : option string
}.

Record AuditLogRow := {
  al_id : Z;
  al_content : HashableRow;
  al_prevHash : string;
  al_currentHash : string
}.

Record AuditChainLockRow := {
  acl_locked : bool;
  acl_lockedAt : option Z;
  acl_reason : option string
}.

(** [audit_log] is listed by ascending [id]; [audit_seq] is the last value of its
    [bigserial] sequence. *)
Record AuditDb := {
  audit_log : list AuditLogRow;
  audit_seq : Z;
  audit_chain_lock : option AuditChainLockRow
}.

Record AutonomyModeStateRow := {
  am_mode : string;
  am_expiresAt : option Z;
  am_setBy : string;
  am_approvalRequestId : option string;
  am_changedAt : Z;
  am_relaxedCount : Z;
  am_windowStartedAt : Z
}.

Record FeatureFlagHitlOverrideRow := {
  ov_level : string;
  ov_approvedAt : Z;
  ov_approver : string
}.

(** [FeatureFlagsConfig] of [feature-flags.types.ts], the object the service keeps. *)
Record FeatureFlagsConfig := {
  ff_integrations : IntegrationName -> bool;
  ff_modelRouting : gmap string (option string);
  ff_hitlOverrides : gmap string HitlLevel
}.

Record UsageRow := {
  us_inputTokens : Z;
  us_outputTokens : Z;
  us_costUsd : Qc
}.

Record SessionUsage := { su_inputTokens : Z; su_outputTokens : Z }.

Record BudgetKillSwitchRow := {
  ks_active : bool;
  ks_activatedAt : option Z;
  ks_reason : option string
}.

Record BudgetDb := {
  budget_daily_usage : gmap string UsageRow;
  budget_hourly_usage : gmap Z UsageRow;
  budget_kill_switch : option BudgetKillSwitchRow;
  sessionUsage : gmap string SessionUsage
}.

Record ChatModelPreferenceRow := {
  cp_vendor : option string;
  cp_modelId : option string;
  cp_effort : option string;
  cp_setBy : string;
  cp_changedAt : Z
}.

(** [ChatModelPreference], as the service caches it. *)
Record ChatModelPreference := {
  cmp_vendor : string;
  cmp_modelId : string;
  cmp_effort : option string;
  cmp_setBy : string;
  cmp_changedAt : string
}.

Inductive AgentRunStatus := run_running | run_blocked | run_done | run_failed | run_killed.
Inductive AgentTicketStatus := tk_pending | tk_in_progress | tk_done | tk_failed | tk_blocked.

#[export] Instance AgentRunStatus_eq_dec : EqDecision AgentRunStatus.
Proof. solve_decision. Defined.
#[export] Instance AgentTicketStatus_eq_dec : EqDecision AgentTicketStatus.
Proof. solve_decision. Defined.

Record AgentOrchestrationRunRow := {
  run_objective : string;
  run_status : AgentRunStatus;
  run_parentSessionId : string;
  run_finalResponse : option string;
  run_createdAt : Z;
  run_completedAt : option Z
}.

(** [Ticket], the columns of [agent_tickets] that the code reads.  A dependency
    on a draft that does not exist is stored as [null]. *)
Record Ticket := {
  t_id : string;
  t_runId : string;
  t_description : string;
  t_status : AgentTicketStatus;
  t_assignedSubAgentId : option string;
  t_allowedTools : list string;
  t_dependsOn : list (option string);
  t_result : option string
}.

Record TicketComment := {
  tc_id : Z;
  tc_ticketId : string;
  tc_authorType : string;
  tc_authorId : option string;
  tc_kind : string;
  tc_body : string
}.

(** The tickets and the comments are listed in the order of their insertion. *)
Record LedgerDb := {
  agentOrchestrationRuns : gmap string AgentOrchestrationRunRow;
  agentTickets : list Ticket;
  agentTicketComments : list TicketComment
}.

(** The fields of [BudgetAlertMonitor]. *)
Record AlertState := {
  notifiedThresholdsToday : list Qc;
  lastResetDate : string;
  lastKillSwitchActive : bool
}.

(** What the process keeps in memory outside the tables: the local boolean
    variables that a call shares with its callbacks, the text shown live to the
    owner, the cached preference of the chat model and the state of the monitor
    of the budget. *)
Record Memory := {
  m_refs : list bool;
  m_deltas : list (string * string);
  m_chatPreference : option ChatModelPreference;
  m_alerts : AlertState
}.

Definition upd_refs f m := {| m_refs := f (m_refs m); m_deltas := m_deltas m;
  m_chatPreference := m_chatPreference m; m_alerts := m_alerts m |}.
Definition upd_deltas f m := {| m_refs := m_refs m; m_deltas := f (m_deltas m);
  m_chatPreference := m_chatPreference m; m_alerts := m_alerts m |}.
Definition upd_cachedPreference f m := {| m_refs := m_refs m; m_deltas := m_deltas m;
  m_chatPreference := f (m_chatPreference m); m_alerts := m_alerts m |}.
Definition upd_alerts f m := {| m_refs := m_refs m; m_deltas := m_deltas m;
  m_chatPreference := m_chatPreference m; m_alerts := f (m_alerts m) |}.

(** ** Events *)

Inductive DomainEvent :=
| PENDING_APPROVAL_CREATED_EVENT (requestId toolName : string) (level : HitlLevel)
| HITL_APPROVAL_ESCALATED_EVENT (requestId toolName : string)
| HITL_APPROVAL_ABANDONED_EVENT (requestId toolName : string)
| HITL_APPROVAL_STUCK_EVENT (requestId toolName : string)
| HITL_ACTION_NOTIFIED_EVENT (requestId toolName actor : string) (relaxedBy : option string)
| AUTONOMY_MODE_CHANGED_EVENT (mode previousMode reason : string) (expiresAt : option string) (setBy : string)
| BUDGET_THRESHOLD_CROSSED_EVENT (ratio threshold : Qc)
| KILL_SWITCH_ACTIVATED_EVENT (reason : option string) (activatedAt : option Z)
| ORCHESTRATION_RUN_CHANGED_EVENT (runId : string)
| METRIC (name : string) (value : Qc).

(** What the tool executors do, in order: the observations the safety theorems
    are about. *)
Inductive ExecEvent :=
| ExecStart (requestId toolName : string) (payload : json)
| ExecOk (requestId toolName : string)
| ExecFail (requestId toolName : string).

(** ** The store *)

Record Sys := {
  clock : Z;              (* Date.now(), in milliseconds *)
  statements : nat;       (* database statements issued so far *)
  fault : nat -> bool;    (* which of them fail *)
  uuids : nat             (* identifiers drawn so far *)
}.

Record World := mkWorld {
  w_sys : Sys;
  w_pending : gmap string PendingApprovalRow;
  w_audit : AuditDb;
  w_autonomy : option AutonomyModeStateRow;
  w_overrides : gmap string FeatureFlagHitlOverrideRow;
  w_flags : FeatureFlagsConfig;
  w_budget : BudgetDb;
  w_chatPreference : option ChatModelPreferenceRow;
  w_events : list DomainEvent;
  w_execs : list ExecEvent;
  w_ledger : LedgerDb;
  w_mem : Memory
}.

Definition upd_sys f w := mkWorld (f (w_sys w)) (w_pending w) (w_audit w) (w_autonomy w)
  (w_overrides w) (w_flags w) (w_budget w) (w_chatPreference w) (w_events w) (w_execs w)
  (w_ledger w) (w_mem w).
Definition upd_pending f w := mkWorld (w_sys w) (f (w_pending w)) (w_audit w) (w_autonomy w)
  (w_overrides w) (w_flags w) (w_budget w) (w_chatPreference w) (w_events w) (w_execs w)
  (w_ledger w) (w_mem w).
Definition upd_audit f w := mkWorld (w_sys w) (w_pending w) (f (w_audit w)) (w_autonomy w)
  (w_overrides w) (w_flags w) (w_budget w) (w_chatPreference w) (w_events w) (w_execs w)
  (w_ledger w) (w_mem w).
Definition upd_autonomy f w := mkWorld (w_sys w) (w_pending w) (w_audit w) (f (w_autonomy w))
  (w_overrides w) (w_flags w) (w_budget w) (w_chatPreference w) (w_events w) (w_execs w)
  (w_ledger w) (w_mem w).
Definition upd_overrides f w := mkWorld (w_sys w) (w_pending w) (w_audit w) (w_autonomy w)
  (f (w_overrides w)) (w_flags w) (w_budget w) (w_chatPreference w) (w_events w) (w_execs w)
  (w_ledger w) (w_mem w).
Definition upd_flags f w := mkWorld (w_sys w) (w_pending w) (w_audit w) (w_autonomy w)
  (w_overrides w) (f (w_flags w)) (w_budget w) (w_chatPreference w) (w_events w) (w_execs w)
  (w_ledger w) (w_mem w).
Definition upd_budget f w := mkWorld (w_sys w) (w_pending w) (w_audit w) (w_autonomy w)
  (w_overrides w) (w_flags w) (f (w_budget w)) (w_chatPreference w) (w_events w) (w_execs w)
  (w_ledger w) (w_mem w).
Definition upd_chatPreference f w := mkWorld (w_sys w) (w_pending w) (w_audit w) (w_autonomy w)
  (w_overrides w) (w_flags w) (w_budget w) (f (w_chatPreference w)) (w_events w) (w_execs w)
  (w_ledger w) (w_mem w).
Definition upd_events f w := mkWorld (w_sys w) (w_pending w) (w_audit w) (w_autonomy w)
  (w_overrides w) (w_flags w) (w_budget w) (w_chatPreference w) (f (w_events w)) (w_execs w)
  (w_ledger w) (w_mem w).
Definition upd_execs f w := mkWorld (w_sys w) (w_pending w) (w_audit w) (w_autonomy w)
  (w_overrides w) (w_flags w) (w_budget w) (w_chatPreference w) (w_events w) (f (w_execs w))
  (w_ledger w) (w_mem w).
Definition upd_ledger f w := mkWorld (w_sys w) (w_pending w) (w_audit w) (w_autonomy w)
  (w_overrides w) (w_flags w) (w_budget w) (w_chatPreference w) (w_events w) (w_execs w)
  (f (w_ledger w)) (w_mem w).
Definition upd_mem f w := mkWorld (w_sys w) (w_pending w) (w_audit w) (w_autonomy w)
  (w_overrides w) (w_flags w) (w_budget w) (w_chatPreference w) (w_events w) (w_execs w)
  (w_ledger w) (f (w_mem w)).

(** ** Atomic statements *)

Abbreviation jin := (prog World JinError).

Definition tick (w : World) : World :=
  upd_sys (fun s => {| clock := clock s; statements := S (statements s); fault := fault s;
                       uuids := uuids s |}) w.

Definition faulty (w : World) : bool := fault (w_sys w) (statements (w_sys w)).

(** The next state and answer of a statement that may fail. *)
Definition db_act {X} (f : World -> World * X) (w : World) : World * (JinError + X) :=
  if faulty w then (tick w, inl DbError)
  else let '(w', x) := f (tick w) in (w', inr x).

(** A database statement, or a transaction: all or nothing. *)
Definition db {X} (f : World -> World * X) : jin X :=
  Act (db_act f) (fun r => match r with inl e => Throw e | inr x => Ret x end).

Definition db_read {X} (f : World -> X) : jin X := db (fun w => (w, f w)).
Definition db_write (f : World -> World) : jin unit := db (fun w => (f w, tt)).

(** [new Date()] *)
Definition now : jin Z := reads (fun w => clock (w_sys w)).

(** [randomUUID()]: identifiers are never drawn twice. *)
Definition uuid_string (n : nat) : string := "uuid-" +:+ pretty n.
Definition randomUUID : jin string :=
  Act (fun w => (upd_sys (fun s => {| clock := clock s; statements := statements s;
                                      fault := fault s; uuids := S (uuids s) |}) w,
                 uuid_string (uuids (w_sys w)))) Ret.

(** [eventEmitter.emit] *)
Definition emit (e : DomainEvent) : jin unit := writes (upd_events (fun l => l ++ [e])).

(** The trace of executions. *)
Definition observe (e : ExecEvent) : jin unit := writes (upd_execs (fun l => l ++ [e])).

(** No statement fails from now on. *)
Definition healthy (w : World) : Prop := forall n, fault (w_sys w) n = false.

(** The clock moves forward; nothing else happens by itself. *)
Definition advance (t : Z) (w : World) : World :=
  upd_sys (fun s => {| clock := t; statements := statements s; fault := fault s; uuids := uuids s |}) w.

Definition time_passes (w w' : World) : Prop :=
  exists t, clock (w_sys w) <= t /\ w' = advance t w.

(** A store with empty tables, a healthy database and its clock at [t]. *)
Definition empty_world (t : Z) : World := mkWorld
  {| clock := t; statements := 0; fault := fun _ => false; uuids := 0 |}
  ∅ {| audit_log := []; audit_seq := 0; audit_chain_lock := None |} None ∅
  {| ff_integrations := fun _ => true; ff_modelRouting := ∅; ff_hitlOverrides := ∅ |}
  {| budget_daily_usage := ∅; budget_hourly_usage := ∅; budget_kill_switch := None;
     sessionUsage := ∅ |}
  None [] []
  {| agentOrchestrationRuns := ∅; agentTickets := []; agentTicketComments := [] |}
  {| m_refs := []; m_deltas := []; m_chatPreference := None;
     m_alerts := {| notifiedThresholdsToday := []; lastResetDate := "";
                    lastKillSwitchActive := false |} |}.

(** ** Running statements *)

Lemma run_db {X} (f : World -> World * X) (w : World) :
  run (db f) w =
  if faulty w then (tick w, inl DbError) else let '(w', x) := f (tick w) in (w', inr x).
Proof. unfold db, db_act; cbn. destruct (faulty w); [done|]. by destruct (f (tick w)). Qed.

Lemma run_db_ok {X} (f : World -> World * X) (w : World) :
  healthy w -> run (db f) w = let '(w', x) := f (tick w) in (w', inr x).
Proof. intros H. rewrite run_db. by rewrite (H (statements (w_sys w)) : faulty w = false). Qed.

Lemma run_now w : run now w = (w, inr (clock (w_sys w))).
Proof. done. Qed.

Lemma run_emit e w : run (emit e) w = (upd_events (fun l => l ++ [e]) w, inr tt).
Proof. done. Qed.

Lemma run_observe e w : run (observe e) w = (upd_execs (fun l => l ++ [e]) w, inr tt).
Proof. done. Qed.

Lemma healthy_not_faulty w : healthy w -> faulty w = false.
Proof. intros H. apply H. Qed.

Lemma healthy_tick w : healthy w -> healthy (tick w).
Proof. done. Qed.

#[export] Hint Resolve healthy_not_faulty healthy_tick : jin.
#[export] Hint Rewrite @run_bind @run_catch @run_try_with @run_db @run_reads @run_writes : jin_run.

(** A statement does to the store what its body does, or only counts itself. *)
Lemma steps_db {X} (R : World -> World -> Prop) (f : World -> World * X) :
  (forall w, R w (tick w)) -> (forall w, R w (f (tick w)).1) -> steps R (db f).
Proof.
  intros Ht Hf; split.
  - intros w; unfold db_act. destruct (faulty w); [apply Ht|].
    specialize (Hf w). by destruct (f (tick w)).
  - by intros [e|x].
Qed.

Lemma steps_db_read {X} (R : World -> World -> Prop) (f : World -> X) :
  (forall w, R w (tick w)) -> steps R (db_read f).
Proof. intros; by apply steps_db. Qed.

Lemma steps_now (R : World -> World -> Prop) : (forall w, R w w) -> steps R now.
Proof. done. Qed.

(** ** Stores that hold more than the [World]

    A part of the program with tables of its own keeps them beside the [World], whose
    connection and clock it shares: [statement_on] is one statement on these tables. *)
Section Beside.
Context {V : Type} (world : V -> World) (put_world : World -> V -> V).

Definition statement_act {X} (f : V -> V * X) (v : V) : V * (JinError + X) :=
  match db_act (fun w => (w, tt)) (world v) with
  | (w, inl e) => (put_world w v, inl e)
  | (w, inr _) => let '(v', x) := f (put_world w v) in (v', inr x)
  end.

Definition statement_on {X} (f : V -> V * X) : prog V JinError X :=
  Act (statement_act f) (fun r => match r with inl e => Throw e | inr x => Ret x end).

Lemma steps_statement_on {X} (R : V -> V -> Prop) (f : V -> V * X) :
  (forall v, R v (put_world (tick (world v)) v)) -> (forall v, R v (f (put_world (tick (world v)) v)).1) ->
  steps R (statement_on f).
Proof.
  intros Ht Hf. split; [|by intros [e|x]]. intros v. unfold statement_act, db_act.
  destruct (faulty (world v)); [apply Ht|]. specialize (Hf v). by destruct (f _).
Qed.

(** The same with what the statement returns. *)
Lemma steps_to_statement_on {X} (R : V -> V -> Prop) (f : V -> V * X) (Q : JinError + X -> Prop) :
  (forall v, R v (put_world (tick (world v)) v)) -> (forall v, R v (f (put_world (tick (world v)) v)).1) ->
  (forall v, Q (inr (f v).2)) -> Q (inl DbError) -> steps_to R (statement_on f) Q.
Proof.
  intros Ht Hf HQ He v _. exists tt. unfold statement_act, db_act.
  destruct (faulty (world v)); [by split; [apply Ht|]|]. specialize (Hf v).
  pose proof (HQ (put_world (tick (world v)) v)) as Hr. cbn in *. by destruct (f _).
Qed.

Lemma run_statement_on {X} (f : V -> V * X) v :
  run (statement_on f) v =
  let v' := put_world (tick (world v)) v in
  if faulty (world v) then (v', inl DbError) else ((f v').1, inr (f v').2).
Proof.
  unfold statement_on. cbn [run]. unfold statement_act, db_act. destruct (faulty (world v)); [done|]. cbn.
  by destruct (f _).
Qed.
End Beside.

(** Unfold a run one statement further. *)
Ltac run_simpl :=
  repeat (autorewrite with jin_run; cbn [run fst snd]).

(** Under [H : healthy w], no statement of a run from [w] fails. *)
Ltac no_fault H := rewrite ?healthy_not_faulty by (exact H).
