(* ===== verification/AuditApi.v ===== *)
(** * AuditApi: what the audit service promises to its clients

    The services that record what they do ([src/hitl], [src/autonomy],
    [src/agent], [src/orchestrator]) call [AuditService] through the methods of
    the class [AuditApi]; the class [AuditApiLaws] is what their theorems use.
    [AuditLog.v] implements the methods and discharges the laws. *)
From S2P Require Import Prelude Effects Js Registry Store.
Local Open Scope stdpp_scope.
Local Open Scope Z_scope.
Local Open Scope jin_scope.

(** [Omit<HashableRow, 'timestamp'>] *)
Record AppendableRow := {
  ar_requestId : string;
  ar_actor : string;
  ar_actionType : string;
  ar_toolName : option string;
  ar_inputsHash : string;
  ar_planSummary : option string;
  ar_approvalStatus : string;
  ar_approver : option string;
  ar_externalInputsSummary : option string
}.

(** [{ ...data, timestamp }] *)
Definition with_timestamp (data : AppendableRow) (timestamp : Z) : HashableRow := {|
  hr_requestId := ar_requestId data;
  hr_timestamp := timestamp;
  hr_actor := ar_actor data;
  hr_actionType := ar_actionType data;
  hr_toolName := ar_toolName data;
  hr_inputsHash := ar_inputsHash data;
  hr_planSummary := ar_planSummary data;
  hr_approvalStatus := ar_approvalStatus data;
  hr_approver := ar_approver data;
  hr_externalInputsSummary := ar_externalInputsSummary data |}.

(** A row as the table keeps it: its texts go to the database in UTF-8. *)
Definition stored (row : HashableRow) : HashableRow := {|
  hr_requestId := to_well_formed (hr_requestId row);
  hr_timestamp := hr_timestamp row;
  hr_actor := to_well_formed (hr_actor row);
  hr_actionType := to_well_formed (hr_actionType row);
  hr_toolName := to_well_formed <$> hr_toolName row;
  hr_inputsHash := to_well_formed (hr_inputsHash row);
  hr_planSummary := to_well_formed <$> hr_planSummary row;
  hr_approvalStatus := to_well_formed (hr_approvalStatus row);
  hr_approver := to_well_formed <$> hr_approver row;
  hr_externalInputsSummary := to_well_formed <$> hr_externalInputsSummary row |}.

(** The content of the row that records [data] at an instant. *)
Definition logged (data : AppendableRow) (timestamp : Z) : HashableRow :=
  stored (with_timestamp data timestamp).

(** No text of the row has a lone surrogate. *)
Definition well_formed_row (data : AppendableRow) : Prop :=
  forall timestamp, logged data timestamp = with_timestamp data timestamp.

(** ** The rows each method appends *)

Definition tool_call_row (requestId actor toolName inputsHash : string)
    (planSummary : option string) (approvalStatus : string)
    (externalInputsSummary : option string) : AppendableRow :=
  {| ar_requestId := requestId; ar_actor := actor; ar_actionType := "tool_call";
     ar_toolName := Some toolName; ar_inputsHash := inputsHash; ar_planSummary := planSummary;
     ar_approvalStatus := approvalStatus; ar_approver := None;
     ar_externalInputsSummary := externalInputsSummary |}.

Definition approval_row (requestId approver toolName inputsHash : string) : AppendableRow :=
  {| ar_requestId := requestId; ar_actor := "user"; ar_actionType := "approval";
     ar_toolName := Some toolName; ar_inputsHash := inputsHash; ar_planSummary := None;
     ar_approvalStatus := "approved"; ar_approver := Some approver;
     ar_externalInputsSummary := None |}.

Definition rejection_row (requestId approver toolName inputsHash : string) : AppendableRow :=
  {| ar_requestId := requestId; ar_actor := "user"; ar_actionType := "rejection";
     ar_toolName := Some toolName; ar_inputsHash := inputsHash; ar_planSummary := None;
     ar_approvalStatus := "rejected"; ar_approver := Some approver;
     ar_externalInputsSummary := None |}.

Definition execution_failure_row (requestId toolName inputsHash : string) : AppendableRow :=
  {| ar_requestId := requestId; ar_actor := "system"; ar_actionType := "execution_failed";
     ar_toolName := Some toolName; ar_inputsHash := inputsHash; ar_planSummary := None;
     ar_approvalStatus := "failed"; ar_approver := None; ar_externalInputsSummary := None |}.

(** [status] is ['timeout'] or ['abandoned']. *)
Definition timeout_row (requestId toolName inputsHash status : string) : AppendableRow :=
  {| ar_requestId := requestId; ar_actor := "system"; ar_actionType := "timeout";
     ar_toolName := Some toolName; ar_inputsHash := inputsHash; ar_planSummary := None;
     ar_approvalStatus := status; ar_approver := None; ar_externalInputsSummary := None |}.

(** ** What appending a row does to the store *)

(** All of the store but the audit tables and the statement counter. *)
Definition outside_audit (w : World) :=
  (clock (w_sys w), uuids (w_sys w), fault (w_sys w), w_pending w, w_autonomy w,
   (w_overrides w, w_flags w, w_budget w, w_chatPreference w, w_events w, w_execs w,
    w_ledger w, w_mem w)).

Definition audit_only (w w' : World) : Prop :=
  outside_audit w' = outside_audit w /\
  audit_log (w_audit w) `prefix_of` audit_log (w_audit w').

#[export] Instance audit_only_preorder : PreOrder audit_only.
Proof.
  split; [by split|]. intros w1 w2 w3 [H1 L1] [H2 L2]. split; [congruence|by etrans].
Qed.

(** The log holds a row with this content. *)
Definition recorded (data : AppendableRow) (w : World) : Prop :=
  exists row t, row ∈ audit_log (w_audit w) /\ al_content row = logged data t.

Lemma recorded_prefix data w w' :
  audit_log (w_audit w) `prefix_of` audit_log (w_audit w') -> recorded data w -> recorded data w'.
Proof.
  intros [l Hl] (row & t & Hin & Hc). exists row, t. split; [|done].
  rewrite Hl. apply elem_of_app. by left.
Qed.

(** The log is open for writing. *)
Definition chain_locked (w : World) : bool :=
  match audit_chain_lock (w_audit w) with Some l => acl_locked l | None => false end.

(** [p] appends [data]: alone, it adds exactly that row or fails without adding
    any, and on a healthy unlocked store it succeeds; among other programs, each
    of its actions only touches the audit tables, and when it returns the row is
    in the log. *)
Record appends (data : AppendableRow) (p : jin AuditLogRow) : Prop := {
  appends_steps : steps audit_only p;
  appends_run w :
    match run p w with
    | (w', inr row) => audit_log (w_audit w') = audit_log (w_audit w) ++ [row] /\
                       al_content row = logged data (clock (w_sys w))
    | (w', inl _) => audit_log (w_audit w') = audit_log (w_audit w)
    end;
  appends_open w :
    healthy w -> chain_locked w = false ->
    exists w' row, run p w = (w', inr row) /\ chain_locked w' = false;
  appends_locked w :
    healthy w -> chain_locked w = true ->
    exists w', run p w = (w', inl AuditChainLockedError) /\ chain_locked w' = true;
  appends_follows :
    follows (fun (done : bool) w => done = true -> recorded data w)
            (fun done w w' done' => audit_only w w' /\ (done = true -> done' = true) /\
               (done' = true -> recorded data w'))
            false p (fun done r => match r with inr _ => done = true | inl _ => done = false end)
}.

Class AuditApi := {
  audit_toolCall (requestId actor toolName inputsHash : string) (planSummary : option string)
    (approvalStatus : string) (externalInputsSummary : option string) : jin AuditLogRow;
  audit_approval (requestId approver toolName inputsHash : string) : jin AuditLogRow;
  audit_rejection (requestId approver toolName inputsHash : string) : jin AuditLogRow;
  audit_executionFailure (requestId toolName inputsHash : string) : jin AuditLogRow;
  audit_timeout (requestId toolName inputsHash status : string) : jin AuditLogRow
}.

Class AuditApiLaws (Api : AuditApi) := {
  audit_toolCall_appends r a t h p s e :
    appends (tool_call_row r a t h p s e) (audit_toolCall r a t h p s e);
  audit_approval_appends r a t h : appends (approval_row r a t h) (audit_approval r a t h);
  audit_rejection_appends r a t h : appends (rejection_row r a t h) (audit_rejection r a t h);
  audit_executionFailure_appends r t h :
    appends (execution_failure_row r t h) (audit_executionFailure r t h);
  audit_timeout_appends r t h s : appends (timeout_row r t h s) (audit_timeout r t h s)
}.

#[export] Hint Resolve audit_toolCall_appends audit_approval_appends audit_rejection_appends
  audit_executionFailure_appends audit_timeout_appends appends_steps : jin.

(** The two ways a client uses the laws on a program that runs alone. *)
Lemma appends_ok data p w :
  appends data p -> healthy w -> chain_locked w = false ->
  exists w' row, run p w = (w', inr row) /\
    audit_log (w_audit w') = audit_log (w_audit w) ++ [row] /\
    al_content row = logged data (clock (w_sys w)) /\
    outside_audit w' = outside_audit w /\ chain_locked w' = false.
Proof.
  intros Hp Hh Hl. destruct (appends_open _ _ Hp w Hh Hl) as (w' & row & Hr & Hl').
  exists w', row. pose proof (appends_run _ _ Hp w) as Hlog. rewrite Hr in Hlog.
  pose proof (steps_run audit_only p w (appends_steps _ _ Hp)) as [Ho _]. rewrite Hr in Ho.
  by destruct Hlog.
Qed.

Lemma appends_fails data p w :
  appends data p -> healthy w -> chain_locked w = true ->
  exists w', run p w = (w', inl AuditChainLockedError) /\
    audit_log (w_audit w') = audit_log (w_audit w) /\
    outside_audit w' = outside_audit w /\ chain_locked w' = true.
Proof.
  intros Hp Hh Hl. destruct (appends_locked _ _ Hp w Hh Hl) as (w' & Hr & Hl').
  exists w'. pose proof (appends_run _ _ Hp w) as Hlog. rewrite Hr in Hlog.
  pose proof (steps_run audit_only p w (appends_steps _ _ Hp)) as [Ho _]. by rewrite Hr in Ho.
Qed.

Lemma healthy_outside w w' : outside_audit w' = outside_audit w -> healthy w -> healthy w'.
Proof. intros [= _ _ Hf _ _ _ _ _ _ _ _ _ _] H n. rewrite Hf. apply H. Qed.

Lemma outside_tick w : outside_audit (tick w) = outside_audit w.
Proof. done. Qed.

(** Read a field of a store that differs from another in its audit tables only. *)
Ltac outside H :=
  let Hc := fresh "Hclock" in let Hu := fresh "Huuids" in let Hp := fresh "Hpending" in
  let He := fresh "Hexecs" in let Hv := fresh "Hevents" in
  pose proof H as [= Hc Hu _ Hp _ _ _ _ _ Hv He _ _].
