(* ===== verification/AuditLog.v ===== *)
(** * Audit: the hash chained log

    [src/audit/hash-chain.ts], [audit.service.ts], [chain-verification.service.ts]
    and the handler of [audit.controller.ts]. *)
From S2P Require Import Prelude Effects Js Registry Store AuditApi.
From Stdlib Require Import Sorting.Sorted.
Local Open Scope stdpp_scope.
Local Open Scope Z_scope.
Local Open Scope jin_scope.

(** Hash of the row before the first one: ['0'.repeat(64)]. *)
Definition GENESIS_HASH : string := digits 64 0.

Definition canonicalizeRow (row : HashableRow) : string :=
  stringify (JObj [
    ("requestId", JStr (hr_requestId row));
    ("timestamp", JStr (to_iso_string (hr_timestamp row)));
    ("actor", JStr (hr_actor row));
    ("actionType", JStr (hr_actionType row));
    ("toolName", json_opt (hr_toolName row));
    ("inputsHash", JStr (hr_inputsHash row));
    ("planSummary", json_opt (hr_planSummary row));
    ("approvalStatus", JStr (hr_approvalStatus row));
    ("approver", json_opt (hr_approver row));
    ("externalInputsSummary", json_opt (hr_externalInputsSummary row))]).

Record ChainVerificationResult := { cv_valid : bool; cv_brokenAtId : option Z }.

Section Audit.
Context `{Crypto : NodeCrypto}.

(** ** hash-chain.ts *)

Definition computeHash (prevHash rowDataCanonical : string) : string :=
  sha256hex (prevHash +:+ rowDataCanonical).

Definition computeRowHash (prevHash : string) (row : HashableRow) : string :=
  computeHash prevHash (canonicalizeRow row).

(** The loop of [verifyChain], from the hash expected of the next row. *)
Fixpoint verify_from (expectedPrevHash : string) (rows : list AuditLogRow) :
    ChainVerificationResult :=
  match rows with
  | [] => {| cv_valid := true; cv_brokenAtId := None |}
  | row :: rows' =>
      if negb (String.eqb (al_prevHash row) expectedPrevHash)
      then {| cv_valid := false; cv_brokenAtId := Some (al_id row) |}
      else if negb (String.eqb (computeRowHash (al_prevHash row) (al_content row))
                               (al_currentHash row))
      then {| cv_valid := false; cv_brokenAtId := Some (al_id row) |}
      else verify_from (al_currentHash row) rows'
  end.

Definition verifyChain (rows : list AuditLogRow) : ChainVerificationResult :=
  verify_from GENESIS_HASH rows.

(** ** chain-verification.service.ts *)

Definition isLocked : jin bool :=
  db_read (fun w =>
    match audit_chain_lock (w_audit w) with Some l => acl_locked l | None => false end).

Definition upsertLock (l : AuditChainLockRow) : jin unit :=
  db_write (upd_audit (fun a => {| audit_log := audit_log a; audit_seq := audit_seq a;
                                   audit_chain_lock := Some l |})).

Definition unlock : jin unit :=
  upsertLock {| acl_locked := false; acl_lockedAt := None; acl_reason := None |}.

Definition broken_reason (brokenAtId : option Z) : string :=
  "Audit chain CORRUPTA en la fila id=" +:+
  match brokenAtId with Some i => pretty i | None => "undefined" end +:+ ".".

Definition verifyDaily : jin ChainVerificationResult :=
  rows <- db_read (fun w => audit_log (w_audit w)) ;;
  let result := verifyChain rows in
  (if cv_valid result then Ret tt
   else t <- now ;;
        upsertLock {| acl_locked := true; acl_lockedAt := Some t;
                      acl_reason := Some (broken_reason (cv_brokenAtId result)) |}) ;;;
  Ret result.

(** ** audit.service.ts *)

(** The transaction of [appendRow] as one step: the hash is that of the row as it comes,
    the table keeps its texts in UTF-8.  [AuditTx.v] has the transaction statement by
    statement, under its advisory lock, and shows that this is what it does. *)
Definition append_tx (data : AppendableRow) (w : World) : World * AuditLogRow :=
  let a := w_audit w in
  let prevHash :=
    match last (audit_log a) with Some l => al_currentHash l | None => GENESIS_HASH end in
  let timestamp := clock (w_sys w) in
  let row := {| al_id := audit_seq a + 1; al_content := logged data timestamp; al_prevHash := prevHash;
                al_currentHash := computeRowHash prevHash (with_timestamp data timestamp) |} in
  (upd_audit (fun a => {| audit_log := audit_log a ++ [row]; audit_seq := audit_seq a + 1;
                          audit_chain_lock := audit_chain_lock a |}) w, row).

Definition appendRow (data : AppendableRow) : jin AuditLogRow :=
  locked <- isLocked ;;
  if locked : bool then Throw AuditChainLockedError else db (append_tx data).

Definition recordToolCall (requestId actor toolName inputsHash : string)
    (planSummary : option string) (approvalStatus : string)
    (externalInputsSummary : option string) : jin AuditLogRow :=
  appendRow (tool_call_row requestId actor toolName inputsHash planSummary approvalStatus
                           externalInputsSummary).

Definition recordApproval (requestId approver toolName inputsHash : string) : jin AuditLogRow :=
  appendRow (approval_row requestId approver toolName inputsHash).

Definition recordRejection (requestId approver toolName inputsHash : string) : jin AuditLogRow :=
  appendRow (rejection_row requestId approver toolName inputsHash).

Definition recordExecutionFailure (requestId toolName inputsHash : string) : jin AuditLogRow :=
  appendRow (execution_failure_row requestId toolName inputsHash).

Definition recordTimeout (requestId toolName inputsHash status : string) : jin AuditLogRow :=
  appendRow (timeout_row requestId toolName inputsHash status).

(** [a ? p(a) : true] for the optional string filters of a query. *)
Definition when_given (o : option string) (p : string -> bool) : bool :=
  match o with Some s => if truthy s then p s else true | None => true end.

(** The rows a page is cut from: newest first. *)
Definition matching (bound : option Z) (requestId : option string) (rows : list AuditLogRow) :
    list AuditLogRow :=
  List.filter (fun row =>
    match bound with Some b => al_id row <? b | None => true end &&
    when_given requestId (fun r => String.eqb (hr_requestId (al_content row)) r))
    (reverse rows).

(** [input.cursor ? lt(auditLog.id, BigInt(input.cursor)) : undefined] *)
Definition parse_cursor (cursor : option string) : jin (option Z) :=
  match cursor with
  | Some c =>
      if truthy c then
        match parse_bigint c with
        | Some b => Ret (Some b)
        | None => Throw (PlainError "SyntaxError: Cannot convert to a BigInt")
        end
      else Ret None
  | None => Ret None
  end.

Definition listRecent (limit : nat) (cursor requestId : option string) :
    jin (list AuditLogRow * option string) :=
  bound <- parse_cursor cursor ;;
  rows <- db_read (fun w => take (limit + 1) (matching bound requestId (audit_log (w_audit w)))) ;;
  let hasMore := (limit <? length rows)%nat in
  let items := if hasMore then take limit rows else rows in
  let nextCursor := if hasMore then option_map (fun r => pretty (al_id r)) (last items) else None in
  Ret (items, nextCursor).
End Audit.

(** ** The canonical form of a row determines the row *)

Definition timestamp_in_range (row : HashableRow) : Prop := four_digit_year (hr_timestamp row).

Lemma json_str_inj (s1 s2 r1 r2 : string) :
  stringify (JStr s1) +:+ r1 = stringify (JStr s2) +:+ r2 -> s1 = s2 /\ r1 = r2.
Proof. apply json_quote_inj. Qed.

(** Peel the next field, read by [lem], off an equality of canonical forms. *)
Ltac next_field H lem E :=
  do 3 (rewrite ?string_app_assoc in H; apply string_app_inj_l in H);
  apply lem in H as [E H]; try subst.

Lemma canonicalizeRow_inj (r1 r2 : HashableRow) :
  timestamp_in_range r1 -> timestamp_in_range r2 ->
  canonicalizeRow r1 = canonicalizeRow r2 -> r1 = r2.
Proof.
  intros T1 T2. unfold canonicalizeRow. cbn [stringify map join fst snd].
  destruct r1 as [a1 t1 b1 c1 d1 e1 f1 g1 h1 i1], r2 as [a2 t2 b2 c2 d2 e2 f2 g2 h2 i2].
  unfold timestamp_in_range in *. cbn [hr_requestId hr_timestamp hr_actor hr_actionType hr_toolName
    hr_inputsHash hr_planSummary hr_approvalStatus hr_approver hr_externalInputsSummary] in *.
  change (json_quote a1) with (stringify (JStr a1)). change (json_quote a2) with (stringify (JStr a2)).
  intros H. apply string_app_inj_l in H.
  rewrite ?string_app_assoc in H; do 2 apply string_app_inj_l in H.
  apply json_str_inj in H as [-> H].
  next_field H json_str_inj Ht. apply to_iso_string_inj in Ht as ->; [|done..].
  next_field H json_str_inj E. next_field H json_str_inj E. next_field H json_opt_inj E.
  next_field H json_str_inj E. next_field H json_opt_inj E. next_field H json_str_inj E.
  next_field H json_opt_inj E. next_field H json_opt_inj E. done.
Qed.

(** ** The chain *)

Section Chain.
Context `{Crypto : NodeCrypto}.

Definition chain_valid (rows : list AuditLogRow) : Prop := cv_valid (verifyChain rows) = true.

(** The hash the row after [rows] must carry as [prevHash]. *)
Definition end_hash (h : string) (rows : list AuditLogRow) : string :=
  match last rows with Some r => al_currentHash r | None => h end.

(** A row that continues a chain ending in [h]. *)
Definition row_links (h : string) (row : AuditLogRow) : Prop :=
  al_prevHash row = h /\ computeRowHash h (al_content row) = al_currentHash row.

Lemma end_hash_cons h r rows : end_hash h (r :: rows) = end_hash (al_currentHash r) rows.
Proof. unfold end_hash. rewrite last_cons. by destruct (last rows). Qed.

Lemma end_hash_snoc h rows r : end_hash h (rows ++ [r]) = al_currentHash r.
Proof. unfold end_hash. by rewrite last_snoc. Qed.

Lemma verify_from_cons h r rows :
  verify_from h (r :: rows) =
  if decide (row_links h r) then verify_from (al_currentHash r) rows
  else {| cv_valid := false; cv_brokenAtId := Some (al_id r) |}.
Proof.
  cbn [verify_from]. unfold row_links.
  destruct (String.eqb_spec (al_prevHash r) h) as [->|Hne]; cbn [negb];
    [|case_decide; naive_solver].
  destruct (String.eqb_spec (computeRowHash h (al_content r)) (al_currentHash r));
    cbn [negb]; case_decide; naive_solver.
Qed.

Lemma verify_from_app h l1 l2 :
  verify_from h (l1 ++ l2) =
  if cv_valid (verify_from h l1) then verify_from (end_hash h l1) l2 else verify_from h l1.
Proof.
  revert h; induction l1 as [|r l1 IH]; intros h; [done|].
  rewrite <- app_comm_cons, !verify_from_cons, end_hash_cons. case_decide; [apply IH|done].
Qed.

Lemma verify_from_result h l :
  cv_valid (verify_from h l) = true -> verify_from h l = {| cv_valid := true; cv_brokenAtId := None |}.
Proof.
  revert h; induction l as [|r l IH]; intros h; [done|].
  rewrite verify_from_cons. case_decide; [apply IH|done].
Qed.

Lemma chain_valid_snoc rows r :
  chain_valid (rows ++ [r]) <-> chain_valid rows /\ row_links (end_hash GENESIS_HASH rows) r.
Proof.
  unfold chain_valid, verifyChain. rewrite verify_from_app.
  destruct (cv_valid (verify_from GENESIS_HASH rows)) eqn:E.
  - rewrite verify_from_cons. case_decide; cbn; naive_solver.
  - rewrite E. naive_solver.
Qed.

(** ** What an append does *)

(** A row that records [data] after a chain that ends in [h]. *)
Definition row_records (data : AppendableRow) (h : string) (row : AuditLogRow) : Prop :=
  exists timestamp, al_prevHash row = h /\ al_content row = logged data timestamp /\
    al_currentHash row = computeRowHash h (with_timestamp data timestamp).

Lemma row_records_links data h row : well_formed_row data -> row_records data h row -> row_links h row.
Proof. intros Hw (t & Hp & Hc & Hh). split; [done|]. by rewrite Hc, Hw. Qed.

Lemma append_tx_records data w :
  row_records data (end_hash GENESIS_HASH (audit_log (w_audit w))) (append_tx data w).2.
Proof. by exists (clock (w_sys w)). Qed.

Lemma append_tx_log data w :
  audit_log (w_audit (append_tx data w).1) = audit_log (w_audit w) ++ [(append_tx data w).2].
Proof. done. Qed.

Lemma run_appendRow data w :
  healthy w ->
  run (appendRow data) w =
  if chain_locked w then (tick w, inl AuditChainLockedError)
  else let '(w', row) := append_tx data (tick (tick w)) in (w', inr row).
Proof.
  intros Hw. unfold appendRow, isLocked, db_read. rewrite run_bind, run_db. no_fault Hw.
  change (w_audit (tick w)) with (w_audit w). fold (chain_locked w).
  destruct (chain_locked w); [done|]. rewrite run_db. by no_fault Hw.
Qed.

Lemma run_unlock w :
  healthy w ->
  run unlock w =
  (upd_audit (fun a => {| audit_log := audit_log a; audit_seq := audit_seq a;
     audit_chain_lock := Some {| acl_locked := false; acl_lockedAt := None;
                                 acl_reason := None |} |}) (tick w), inr tt).
Proof. intros Hw. unfold unlock, upsertLock, db_write. rewrite run_db. by no_fault Hw. Qed.

(** The table is as the migrations and the sequence keep it: increasing
    identifiers, none above the sequence, and an intact chain. *)
Definition audit_inv (w : World) : Prop :=
  let a := w_audit w in
  chain_valid (audit_log a) /\
  StronglySorted Z.lt (map al_id (audit_log a)) /\
  Forall (fun r => 0 < al_id r <= audit_seq a) (audit_log a) /\ 0 <= audit_seq a.

Lemma StronglySorted_snoc (l : list Z) x :
  StronglySorted Z.lt l -> Forall (fun y => y < x) l -> StronglySorted Z.lt (l ++ [x]).
Proof.
  induction 1 as [|y l Hs IH Hy]; intros Hx; cbn; [by repeat constructor|].
  apply Forall_cons in Hx as [Hyx Hx]. constructor; [auto|].
  apply Forall_app; split; [done|by constructor].
Qed.

Lemma append_tx_inv data w : well_formed_row data -> audit_inv w -> audit_inv (append_tx data w).1.
Proof.
  intros Hd (Hc & Hs & Hb & H0). unfold audit_inv. rewrite append_tx_log. splits.
  - apply chain_valid_snoc. split; [done|]. by eapply row_records_links, append_tx_records.
  - rewrite map_app. apply StronglySorted_snoc; [done|].
    apply Forall_map. eapply Forall_impl; [exact Hb|]. cbn; lia.
  - apply Forall_app_single; cbn; [|lia].
    eapply Forall_impl; [exact Hb|]. cbn; lia.
  - cbn; lia.
Qed.

(** ** Tamper evidence *)

(** What the hash of a row is taken of. *)
Definition hashed_input (row : AuditLogRow) : string := al_prevHash row +:+ canonicalizeRow (al_content row).

(** Two inputs of the list with one hash, or one whose hash is the constant that starts the chain. *)
Definition hash_broken_on (inputs : list string) : Prop :=
  (exists x y, x ∈ inputs /\ y ∈ inputs /\ x <> y /\ sha256hex x = sha256hex y) \/
  (exists x, x ∈ inputs /\ sha256hex x = GENESIS_HASH).

Lemma hash_broken_on_subset inputs inputs' :
  inputs ⊆ inputs' -> hash_broken_on inputs -> hash_broken_on inputs'.
Proof. intros Hs [(x & y & Hx & Hy & H)|(x & Hx & H)]; [left; exists x, y|right; exists x]; auto. Qed.

Definition rows_in_range (rows : list AuditLogRow) : Prop :=
  Forall (fun r => timestamp_in_range (al_content r)) rows.

Lemma end_hash_is_hash rows r :
  chain_valid (rows ++ [r]) ->
  al_prevHash r = end_hash GENESIS_HASH rows /\ sha256hex (hashed_input r) = al_currentHash r.
Proof. intros [_ [Hp Hc]]%chain_valid_snoc. split; [done|]. unfold hashed_input. by rewrite Hp. Qed.

Lemma end_hash_length `{!NodeCryptoLaws} rows :
  chain_valid rows -> String.length (end_hash GENESIS_HASH rows) = 64%nat.
Proof.
  destruct rows as [|r rows _] using rev_ind; [intros _; apply digits_length|].
  intros Hv. rewrite end_hash_snoc. destruct (end_hash_is_hash rows r Hv) as [_ <-]. apply sha256hex_length.
Qed.

(** Equal last hashes: equal contents, or the hash function fails on what the logs hash. *)
Lemma chain_determined `{!NodeCryptoLaws} rows1 rows2 :
  chain_valid rows1 -> chain_valid rows2 -> rows_in_range rows1 -> rows_in_range rows2 ->
  end_hash GENESIS_HASH rows1 = end_hash GENESIS_HASH rows2 ->
  map al_content rows1 = map al_content rows2 \/ hash_broken_on (map hashed_input (rows1 ++ rows2)).
Proof.
  revert rows2; induction rows1 as [|r1 rows1 IH] using rev_ind;
    intros rows2 V1 V2 R1 R2 He; destruct rows2 as [|r2 rows2 _] using rev_ind.
  - by left.
  - right; right. exists (hashed_input r2). destruct (end_hash_is_hash rows2 r2 V2) as [_ ->].
    rewrite end_hash_snoc in He. split; [|by symmetry]. apply list_elem_of_fmap_2. set_solver.
  - right; right. exists (hashed_input r1). destruct (end_hash_is_hash rows1 r1 V1) as [_ ->].
    rewrite end_hash_snoc in He. split; [|done]. apply list_elem_of_fmap_2. set_solver.
  - destruct (end_hash_is_hash _ _ V1) as [P1 H1]. destruct (end_hash_is_hash _ _ V2) as [P2 H2].
    rewrite !end_hash_snoc in He.
    apply chain_valid_snoc in V1 as [V1 _]. apply chain_valid_snoc in V2 as [V2 _].
    apply Forall_app in R1 as [R1 [T1 _]%Forall_cons]. apply Forall_app in R2 as [R2 [T2 _]%Forall_cons].
    destruct (decide (hashed_input r1 = hashed_input r2)) as [Hxy|Hxy].
    2:{ right; left. exists (hashed_input r1), (hashed_input r2).
        splits; [apply list_elem_of_fmap_2; set_solver..|done|congruence]. }
    unfold hashed_input in Hxy. rewrite P1, P2 in Hxy.
    apply string_app_inj_length in Hxy as [Hp Hc]; [|by rewrite !end_hash_length].
    apply canonicalizeRow_inj in Hc; [|done..].
    destruct (IH rows2 V1 V2 R1 R2 Hp) as [Heq|Hbr]; [left|right].
    + by rewrite !map_app, Heq; cbn; rewrite Hc.
    + eapply hash_broken_on_subset; [|exact Hbr]. intros x (r & -> & Hr)%list_elem_of_fmap.
      apply list_elem_of_fmap_2. set_solver.
Qed.
End Chain.

(** ** The log keeps the promises of the audit interface *)

Section Implements.
Context `{Crypto : NodeCrypto}.

Lemma append_tx_audit_only data w : audit_only w (append_tx data w).1.
Proof. split; [done|]. rewrite append_tx_log. by apply prefix_app_r. Qed.

Lemma append_tx_recorded data w : recorded data (append_tx data w).1.
Proof.
  exists (append_tx data w).2, (clock (w_sys w)). rewrite append_tx_log. split; [|done].
  apply elem_of_app; right; apply list_elem_of_singleton; done.
Qed.

Lemma audit_only_tick w : audit_only w (tick w).
Proof. by split. Qed.

Lemma appendRow_appends data : appends data (appendRow data).
Proof.
  split.
  - apply steps_bind; [by apply steps_db_read|]. intros []; [done|].
    apply steps_db; [done|]. intros w.
    etrans; [apply audit_only_tick|apply append_tx_audit_only].
  - intros w. unfold appendRow, isLocked, db_read. rewrite run_bind, run_db.
    destruct (faulty w); [done|].
    destruct (match audit_chain_lock _ with Some _ => _ | None => _ end); [done|].
    rewrite run_db. by destruct (faulty (tick w)).
  - intros w Hh Hl. rewrite run_appendRow, Hl by done. eexists _, _. split; [done|exact Hl].
  - intros w Hh Hl. rewrite run_appendRow, Hl by done. eexists. by split.
  - intros w _. unfold db_act. destruct (faulty w); cbn [fst snd]; [by exists false|].
    exists false. split; [done|]. cbn [bind follows].
    destruct (match audit_chain_lock _ with Some _ => _ | None => _ end); [done|].
    intros w2 _. unfold db_act. destruct (faulty w2); [by exists false|]. exists true.
    split; [|done]. splits; [|done|intros _; apply append_tx_recorded].
    etrans; [apply audit_only_tick|apply append_tx_audit_only].
Qed.

#[export] Instance auditService : AuditApi := {|
  audit_toolCall := recordToolCall;
  audit_approval := recordApproval;
  audit_rejection := recordRejection;
  audit_executionFailure := recordExecutionFailure;
  audit_timeout := recordTimeout |}.

#[export] Instance auditService_laws : AuditApiLaws auditService.
Proof. split; intros; apply appendRow_appends. Qed.
End Implements.

(** ** Pages *)

Section Pages.
Context `{Crypto : NodeCrypto}.

(** A client of [GET /api/audit] that follows [nextCursor] to the end. *)
Fixpoint all_pages (fuel limit : nat) (cursor requestId : option string) :
    jin (list AuditLogRow) :=
  match fuel with
  | O => Throw (PlainError "out of fuel")
  | S fuel' =>
      page <- listRecent limit cursor requestId ;;
      match page.2 with
      | None => Ret page.1
      | Some c => rest <- all_pages fuel' limit (Some c) requestId ;; Ret (page.1 ++ rest)
      end
  end.

Definition descending (l : list AuditLogRow) : Prop :=
  StronglySorted (fun a b => al_id b < al_id a) l.

Lemma descending_filter_drop (l : list AuditLogRow) j r :
  descending l -> l !! j = Some r ->
  List.filter (fun x => al_id x <? al_id r) l = drop (S j) l.
Proof.
  intros Hd; revert j; induction Hd as [|x l Hd IH Hx]; intros j Hj; [done|].
  destruct j as [|j]; cbn in Hj.
  - injection Hj as ->. cbn [List.filter]. rewrite Z.ltb_irrefl.
    cbn [drop]. clear -Hx. induction Hx as [|y l Hy _ IH]; [done|].
    cbn [List.filter]. apply Z.ltb_lt in Hy as ->. by rewrite IH.
  - cbn [List.filter]. rewrite (IH j Hj).
    assert (al_id r < al_id x) by (rewrite List.Forall_forall in Hx; apply Hx, list_elem_of_In, list_elem_of_lookup; eauto).
    destruct (Z.ltb_spec (al_id x) (al_id r)); [lia|done].
Qed.

Lemma descending_filter p l : descending l -> descending (List.filter p l).
Proof.
  induction 1 as [|x l Hd IH Hx]; [constructor|]. cbn. destruct (p x); [|done].
  constructor; [done|]. rewrite List.Forall_forall in Hx |- *.
  intros y [Hy _]%List.filter_In. auto.
Qed.

Lemma ascending_reverse rows :
  StronglySorted Z.lt (map al_id rows) -> descending (reverse rows).
Proof.
  induction rows as [|r rows IH]; [constructor|]. intros Hs; inversion Hs as [|? ? Hs' Hr]; subst.
  rewrite reverse_cons. specialize (IH Hs'). rewrite List.Forall_map in Hr.
  assert (Forall (fun x => al_id r < al_id x) (reverse rows)) as Hr'
    by (apply Forall_reverse; exact Hr).
  revert IH Hr'; generalize (reverse rows) as l; clear.
  induction 1 as [|x l Hd IH Hx]; intros Hr; cbn; [by repeat constructor|].
  apply Forall_cons in Hr as [Hrx Hr]. constructor; [exact (IH Hr)|].
  apply Forall_app; split; [done|by constructor].
Qed.

Lemma matching_bound b rid rows :
  matching (Some b) rid rows = List.filter (fun x => al_id x <? b) (matching None rid rows).
Proof.
  unfold matching. induction (reverse rows) as [|x l IH]; [done|].
  cbn [List.filter]. destruct (when_given rid _); cbn [List.filter andb];
    rewrite ?andb_true_r, ?andb_false_r, IH; [|done]. by destruct (al_id x <? b).
Qed.

Lemma matching_descending rid w : audit_inv w -> descending (matching None rid (audit_log (w_audit w))).
Proof. intros (_ & Hs & _). by apply descending_filter, ascending_reverse. Qed.

Lemma matching_positive rid w :
  audit_inv w -> Forall (fun r => 0 < al_id r) (matching None rid (audit_log (w_audit w))).
Proof.
  intros (_ & _ & Hb & _). rewrite List.Forall_forall in Hb |- *.
  intros r [Hr _]%List.filter_In. rewrite <- list_elem_of_In, elem_of_reverse, list_elem_of_In in Hr.
  apply Hb in Hr. lia.
Qed.

Lemma parse_cursor_pretty i : 0 < i -> parse_cursor (Some (pretty i)) = Ret (Some i).
Proof.
  intros Hi. pose proof (parse_bigint_pretty i ltac:(lia)) as Hp. unfold parse_cursor.
  destruct (pretty i) as [|c s]; [|by cbn [truthy]; rewrite Hp].
  injection Hp as <-. lia.
Qed.

(** One page, cut where the rows not yet read begin. *)
Lemma run_listRecent w limit cursor bound rid k :
  healthy w ->
  parse_cursor cursor = Ret bound ->
  let M := matching None rid (audit_log (w_audit w)) in
  matching bound rid (audit_log (w_audit w)) = drop k M ->
  run (listRecent limit cursor rid) w =
  (tick w, inr (if (k + limit <? length M)%nat
                then (take limit (drop k M),
                      option_map (fun r => pretty (al_id r)) (last (take limit (drop k M))))
                else (drop k M, None))).
Proof.
  intros Hw Hc M HM. unfold listRecent, db_read. rewrite Hc. cbn [bind].
  rewrite run_bind, run_db, healthy_not_faulty by done. cbn [run].
  change (w_audit (tick w)) with (w_audit w). rewrite HM. fold M.
  assert ((limit <? length (take (limit + 1) (drop k M)))%nat = (k + limit <? length M)%nat) as ->.
  { rewrite length_take, length_drop.
    destruct (Nat.ltb_spec (k + limit) (length M)); [apply Nat.ltb_lt|apply Nat.ltb_ge]; lia. }
  destruct (Nat.ltb_spec (k + limit) (length M)) as [Hlt|Hge].
  - rewrite take_take. replace (limit `min` (limit + 1))%nat with limit by lia. done.
  - rewrite take_ge; [done|]. rewrite length_drop. lia.
Qed.

Lemma run_all_pages fuel limit w cursor bound rid k :
  healthy w -> audit_inv w -> (0 < limit)%nat ->
  parse_cursor cursor = Ret bound ->
  let M := matching None rid (audit_log (w_audit w)) in
  matching bound rid (audit_log (w_audit w)) = drop k M ->
  (length M < k + fuel)%nat -> (0 < fuel)%nat ->
  exists w', run (all_pages fuel limit cursor rid) w = (w', inr (drop k M)).
Proof.
  revert w cursor bound k; induction fuel as [|fuel IH];
    intros w cursor bound k Hw Hi Hl Hc M HM Hf Hf0; [lia|].
  cbn [all_pages]. rewrite run_bind, (run_listRecent w limit cursor bound rid k) by done.
  fold M. destruct (Nat.ltb_spec (k + limit) (length M)) as [Hlt|Hge]; cbn [fst snd run]; [|eauto].
  assert (Hlast : exists r, M !! (k + limit - 1)%nat = Some r) by (apply lookup_lt_is_Some_2; lia).
  destruct Hlast as [r Hr].
  assert (last (take limit (drop k M)) = Some r) as ->.
  { rewrite last_lookup, length_take, length_drop, lookup_take_lt by lia.
    rewrite lookup_drop, <- Hr. f_equal. lia. }
  cbn [option_map]. rewrite run_bind.
  destruct (IH (tick w) (Some (pretty (al_id r))) (Some (al_id r)) (k + limit)%nat) as [w' Hrun]; try done.
  - apply parse_cursor_pretty.
    pose proof (matching_positive rid w Hi) as Hp. fold M in Hp.
    rewrite List.Forall_forall in Hp. by eapply Hp, list_elem_of_In, list_elem_of_lookup_2.
  - cbn. fold M. rewrite matching_bound.
    change (matching None rid _) with M.
    rewrite (descending_filter_drop M (k + limit - 1) r); [|by apply matching_descending|done].
    f_equal; lia.
  - cbn. fold M. lia.
  - lia.
  - rewrite Hrun. cbn [run]. eexists. repeat f_equal.
    by rewrite <- drop_drop, take_drop.
Qed.
End Pages.

(** ** Properties *)

Section Properties.
Context `{Crypto : NodeCrypto}.

(** C13. Tamper evidence: two logs that both verify and end in the same
    [current_hash] hold the same rows, unless SHA-256 fails on these very logs: two
    different texts among those whose hash one of their rows carries have the same hash,
    or the hash of one of them is 64 zeros. *)
Theorem verified_log_is_determined_by_its_last_hash `{!NodeCryptoLaws}
    (rows1 rows2 : list AuditLogRow) :
  cv_valid (verifyChain rows1) = true -> cv_valid (verifyChain rows2) = true ->
  rows_in_range rows1 -> rows_in_range rows2 ->
  end_hash GENESIS_HASH rows1 = end_hash GENESIS_HASH rows2 ->
  map al_content rows1 = map al_content rows2 \/ hash_broken_on (map hashed_input (rows1 ++ rows2)).
Proof. apply chain_determined. Qed.

(** [verifyChain] reports the first row that does not link: everything
    before it verifies, and it carries the wrong [prevHash] or a
    [currentHash] that is not the hash of its content. *)
Lemma verifyChain_finds_first_break (rows : list AuditLogRow) (i : Z) :
  verifyChain rows = {| cv_valid := false; cv_brokenAtId := Some i |} <->
  exists l1 row l2, rows = l1 ++ row :: l2 /\ al_id row = i /\ chain_valid l1 /\
    ~ row_links (end_hash GENESIS_HASH l1) row.
Proof.
  unfold verifyChain, chain_valid, verifyChain. generalize GENESIS_HASH as h.
  induction rows as [|r rows IH]; intros h.
  - split; [done|]. intros (l1 & row & l2 & Hl & _). by destruct l1.
  - rewrite verify_from_cons. case_decide as Hlink.
    + rewrite IH. split.
      * intros (l1 & row & l2 & -> & Hid & Hv & Hn). exists (r :: l1), row, l2.
        rewrite verify_from_cons, end_hash_cons. by case_decide.
      * intros (l1 & row & l2 & Hl & Hid & Hv & Hn). destruct l1 as [|r1 l1]; [by simplify_eq/=|].
        injection Hl as <- ->. rewrite end_hash_cons in Hn. exists l1, row, l2. splits; try done.
        revert Hv. rewrite verify_from_cons. by case_decide.
    + split.
      * intros [= <-]. by exists [], r, rows.
      * intros (l1 & row & l2 & Hl & <- & Hv & Hn). destruct l1 as [|r1 l1]; [by simplify_eq/=|].
        injection Hl as <- ->. revert Hv. rewrite verify_from_cons. by case_decide.
Qed.

(** A corrupt chain stops the log: the daily verification reports the break
    and persists the lock, and from then on every append is refused with
    [AuditChainLockedError] and leaves the log as it is, until [unlock], after
    which appends are accepted again. *)
Lemma corruption_stops_writes_until_unlock (w : World) (data : AppendableRow) :
  healthy w -> ~ chain_valid (audit_log (w_audit w)) ->
  let w1 := (run verifyDaily w).1 in
  (run verifyDaily w).2 = inr (verifyChain (audit_log (w_audit w))) /\
  (run (appendRow data) w1).2 = inl AuditChainLockedError /\
  w_audit (run (appendRow data) w1).1 = w_audit w1 /\
  audit_log (w_audit w1) = audit_log (w_audit w) /\
  exists row, (run (unlock ;;; appendRow data) w1).2 = inr row.
Proof.
  intros Hw Hbad. unfold chain_valid in Hbad. apply not_true_iff_false in Hbad.
  assert (Hrun : run verifyDaily w =
    (upd_audit (fun a => {| audit_log := audit_log a; audit_seq := audit_seq a;
       audit_chain_lock := Some {| acl_locked := true; acl_lockedAt := Some (clock (w_sys w));
         acl_reason := Some (broken_reason (cv_brokenAtId (verifyChain (audit_log (w_audit w))))) |} |})
      (tick (tick w)), inr (verifyChain (audit_log (w_audit w))))).
  { unfold verifyDaily, upsertLock, db_read, db_write. rewrite run_bind, run_db.
    no_fault Hw. cbn [fst snd]. change (w_audit (tick w)) with (w_audit w).
    rewrite Hbad. rewrite !run_bind, run_now, run_db. by no_fault Hw. }
  rewrite Hrun. cbv zeta. cbn [fst snd].
  rewrite run_bind, run_unlock by done. cbn [fst snd].
  rewrite !run_appendRow by done. cbn. splits; eauto.
Qed.

(** Following [nextCursor] page by page terminates and returns every
    matching row exactly once, newest first, for any positive page size. *)
Lemma pagination_covers_the_log (w : World) (limit : nat) (requestId : option string) :
  healthy w -> audit_inv w -> (0 < limit)%nat ->
  exists w', run (all_pages (S (length (audit_log (w_audit w)))) limit None requestId) w =
             (w', inr (matching None requestId (audit_log (w_audit w)))).
Proof.
  intros Hw Hi Hl. destruct (run_all_pages (S (length (audit_log (w_audit w)))) limit w None None
    requestId 0) as [w' Hr]; try done; [|lia|].
  - assert (length (matching None requestId (audit_log (w_audit w))) <=
            length (audit_log (w_audit w)))%nat; [|lia].
    unfold matching. rewrite <- (length_reverse (audit_log (w_audit w))). apply List.filter_length_le.
  - exists w'. by rewrite Hr, drop_0.
Qed.
End Properties.

(** ** Concrete runs *)

Module AuditExamples.
Definition approve (n : nat) : AppendableRow := {|
  ar_requestId := uuid_string n; ar_actor := "user"; ar_actionType := "approval";
  ar_toolName := Some "sendEmail"; ar_inputsHash := "h"; ar_planSummary := None;
  ar_approvalStatus := "approved"; ar_approver := Some "owner";
  ar_externalInputsSummary := None |}.

(** A log of three rows. *)
Definition recorded_approval (n : nat) (w : World) : World := (@append_tx toy_crypto (approve n) w).1.
Definition w3 : World := recorded_approval 3 (recorded_approval 2 (recorded_approval 1 (empty_world 1790035200123))).

(** The same log with the second row's approver rewritten. *)
Definition tampered : World :=
  upd_audit (fun a => {| audit_log := map (fun r =>
      if al_id r =? 2 then {| al_id := 2; al_content := with_timestamp (approve 7) 5;
                              al_prevHash := al_prevHash r; al_currentHash := al_currentHash r |}
      else r) (audit_log a);
    audit_seq := audit_seq a; audit_chain_lock := audit_chain_lock a |}) w3.

Lemma empty_audit_inv t : @audit_inv toy_crypto (empty_world t).
Proof. repeat split; try constructor. cbn. lia. Qed.

Lemma recorded_audit_inv n w :
  well_formed_row (approve n) -> @audit_inv toy_crypto w -> @audit_inv toy_crypto (recorded_approval n w).
Proof. apply append_tx_inv. Qed.

Lemma approve_well_formed n : (n < 4)%nat -> well_formed_row (approve n).
Proof. intros Hn t. by do 4 (destruct n as [|n]; [reflexivity|]); lia. Qed.

Lemma w3_audit_inv : @audit_inv toy_crypto w3.
Proof. repeat (apply recorded_audit_inv; [apply approve_well_formed; lia|]). apply empty_audit_inv. Qed.

Lemma recorded_in_range n w :
  rows_in_range (audit_log (w_audit w)) -> four_digit_year (clock (w_sys w)) ->
  rows_in_range (audit_log (w_audit (recorded_approval n w))).
Proof. intros Hw Hc. apply Forall_app_single; done. Qed.

Lemma w3_in_range : rows_in_range (audit_log (w_audit w3)).
Proof.
  assert (Hc : four_digit_year 1790035200123) by (vm_compute; repeat split; congruence).
  do 3 (apply recorded_in_range; [|exact Hc]). constructor.
Qed.
End AuditExamples.

Lemma verified_log_is_determined_by_its_last_hash_witness :
  let rows := audit_log (w_audit AuditExamples.w3) in
  map al_content rows = map al_content rows \/ @hash_broken_on toy_crypto (map hashed_input (rows ++ rows)).
Proof.
  cbv zeta. set (rows := audit_log (w_audit AuditExamples.w3)).
  pose proof AuditExamples.w3_audit_inv as [Hvalid _].
  exact (@verified_log_is_determined_by_its_last_hash toy_crypto toy_crypto_laws rows rows
    Hvalid Hvalid AuditExamples.w3_in_range AuditExamples.w3_in_range eq_refl).
Defined.

Lemma corruption_stops_writes_until_unlock_witness :
  (run (@appendRow toy_crypto (AuditExamples.approve 4))
       (run (@verifyDaily toy_crypto) AuditExamples.tampered).1).2 = inl AuditChainLockedError.
Proof.
  assert (Hh : healthy AuditExamples.tampered) by done.
  assert (Hbad : ~ @chain_valid toy_crypto (audit_log (w_audit AuditExamples.tampered)))
    by (vm_compute; discriminate).
  exact (proj1 (proj2 (@corruption_stops_writes_until_unlock toy_crypto AuditExamples.tampered
           (AuditExamples.approve 4) Hh Hbad))).
Defined.

Lemma pagination_covers_the_log_witness :
  exists w', run (@all_pages 4 2 None None) AuditExamples.w3 =
    (w', inr (reverse (audit_log (w_audit AuditExamples.w3)))).
Proof.
  apply (@pagination_covers_the_log toy_crypto AuditExamples.w3 2 None).
  - by intros n.
  - apply AuditExamples.w3_audit_inv.
  - lia.
Defined.
