(* ===== verification/AuditTx.v ===== *)
(** * AuditTx: the transaction of an append, statement by statement

    [AuditService.appendRow] of [src/audit/audit.service.ts] with its transaction as the
    database runs it: BEGIN, the advisory lock, the read of the last row, the INSERT, whose
    row nobody sees until the COMMIT, and the ROLLBACK of a transaction that fails.  Other
    methods act between any two statements, any statement may fail, and the connection of a
    transaction may be lost at any moment, its process with it. *)
From Stdlib Require Import Sorting.Sorted.
From S2P Require Import Prelude Effects Js Registry Store AuditApi AuditLog.
Local Open Scope stdpp_scope.
Local Open Scope Z_scope.
Local Open Scope jin_scope.

(** The store, the transactions that are open, the one that has the advisory lock, and how
    many were ever opened. *)
Record TxWorld := {
  tx_world : World;
  tx_open : gset nat;
  tx_lock : option nat;
  tx_count : nat
}.

Abbreviation txp := (prog TxWorld JinError).

Definition tx_put (w : World) (v : TxWorld) : TxWorld :=
  {| tx_world := w; tx_open := tx_open v; tx_lock := tx_lock v; tx_count := tx_count v |}.

(** A method of the services, on the store. *)
Definition on_store {A} (p : jin A) : txp A := zoom tx_world tx_put p.

(** A transaction ends: its lock is free. *)
Definition close (t : nat) (v : TxWorld) : TxWorld :=
  {| tx_world := tx_world v; tx_open := tx_open v ∖ {[t]};
     tx_lock := if decide (tx_lock v = Some t) then None else tx_lock v; tx_count := tx_count v |}.

(** A statement of the transaction [t]: it fails when its connection is gone. *)
Definition in_tx {X} (t : nat) (f : TxWorld -> TxWorld * X) : txp X :=
  Act (fun v =>
    if negb (bool_decide (t ∈ tx_open v)) then (v, inl DbError)
    else let ticked := tx_put (tick (tx_world v)) v in
         if faulty (tx_world v) then (ticked, inl DbError)
         else let '(v', x) := f ticked in (v', inr x))
    (fun r => match r with inl e => Throw e | inr x => Ret x end).

(** BEGIN *)
Definition begin_tx : txp nat :=
  Act (fun v => ({| tx_world := tx_world v; tx_open := {[tx_count v]} ∪ tx_open v;
                    tx_lock := tx_lock v; tx_count := S (tx_count v) |}, tx_count v)) Ret.

(** [SELECT pg_advisory_xact_lock(hashtext('jin_audit_log_chain'))] waits while another
    transaction has the lock; [patience] is how many times it looks before it is cancelled. *)
Fixpoint lock_chain (patience : nat) (t : nat) : txp unit :=
  match patience with
  | O => Throw DbError
  | S patience' =>
      free <- in_tx t (fun v =>
        match tx_lock v with
        | None => ({| tx_world := tx_world v; tx_open := tx_open v; tx_lock := Some t;
                      tx_count := tx_count v |}, true)
        | Some _ => (v, false)
        end) ;;
      if free : bool then Ret tt else lock_chain patience' t
  end.

Section Transaction.
Context `{Crypto : NodeCrypto}.

(** [SELECT current_hash ... ORDER BY id DESC LIMIT 1] *)
Definition select_last (t : nat) : txp (option string) :=
  in_tx t (fun v => (v, option_map al_currentHash (last (audit_log (w_audit (tx_world v)))))).

(** [INSERT ... RETURNING]: the identifier is drawn from the sequence, and is not given back. *)
Definition insert_row (t : nat) (content : HashableRow) (prevHash currentHash : string) : txp AuditLogRow :=
  in_tx t (fun v =>
    let a := w_audit (tx_world v) in
    (tx_put (upd_audit (fun a => {| audit_log := audit_log a; audit_seq := audit_seq a + 1;
                                    audit_chain_lock := audit_chain_lock a |}) (tx_world v)) v,
     {| al_id := audit_seq a + 1; al_content := stored content; al_prevHash := prevHash;
        al_currentHash := currentHash |})).

(** COMMIT: the row is in the table and the lock is free. *)
Definition commit (t : nat) (row : AuditLogRow) : txp unit :=
  in_tx t (fun v =>
    (close t (tx_put (upd_audit (fun a => {| audit_log := audit_log a ++ [row]; audit_seq := audit_seq a;
                                             audit_chain_lock := audit_chain_lock a |}) (tx_world v)) v), tt)).

(** ROLLBACK; when it fails too, the lock stays until the connection is lost. *)
Definition rollback (t : nat) : txp unit := in_tx t (fun v => (close t v, tt)).

Definition transaction (patience : nat) (data : AppendableRow) : txp AuditLogRow :=
  t <- begin_tx ;;
  catch
    (lock_chain patience t ;;;
     last <- select_last t ;;
     let prevHash := default GENESIS_HASH last in
     timestamp <- on_store now ;;
     let currentHash := computeRowHash prevHash (with_timestamp data timestamp) in
     inserted <- insert_row t (with_timestamp data timestamp) prevHash currentHash ;;
     commit t inserted ;;;
     Ret inserted)
    (fun e => rollback t ;;; Throw e).

Definition appendRow (patience : nat) (data : AppendableRow) : txp AuditLogRow :=
  locked <- on_store isLocked ;;
  if locked : bool then Throw AuditChainLockedError else transaction patience data.

Definition recordToolCall (patience : nat) (requestId actor toolName inputsHash : string)
    (planSummary : option string) (approvalStatus : string) (externalInputsSummary : option string) :=
  appendRow patience (tool_call_row requestId actor toolName inputsHash planSummary approvalStatus
                                    externalInputsSummary).
Definition recordApproval (patience : nat) (requestId approver toolName inputsHash : string) :=
  appendRow patience (approval_row requestId approver toolName inputsHash).
Definition recordRejection (patience : nat) (requestId approver toolName inputsHash : string) :=
  appendRow patience (rejection_row requestId approver toolName inputsHash).
Definition recordExecutionFailure (patience : nat) (requestId toolName inputsHash : string) :=
  appendRow patience (execution_failure_row requestId toolName inputsHash).
Definition recordTimeout (patience : nat) (requestId toolName inputsHash status : string) :=
  appendRow patience (timeout_row requestId toolName inputsHash status).

(** Every request the audit log serves, for the rows that [ok] allows. *)
Inductive audit_client (ok : AppendableRow -> Prop) : txp unit -> Prop :=
| client_tool_call patience rid actor tool hash plan st ext :
    ok (tool_call_row rid actor tool hash plan st ext) ->
    audit_client ok (discard (recordToolCall patience rid actor tool hash plan st ext))
| client_approval patience rid approver tool hash :
    ok (approval_row rid approver tool hash) ->
    audit_client ok (discard (recordApproval patience rid approver tool hash))
| client_rejection patience rid approver tool hash :
    ok (rejection_row rid approver tool hash) ->
    audit_client ok (discard (recordRejection patience rid approver tool hash))
| client_failure patience rid tool hash :
    ok (execution_failure_row rid tool hash) ->
    audit_client ok (discard (recordExecutionFailure patience rid tool hash))
| client_timeout patience rid tool hash st :
    ok (timeout_row rid tool hash st) ->
    audit_client ok (discard (recordTimeout patience rid tool hash st))
| client_daily : audit_client ok (discard (on_store verifyDaily))
| client_unlock : audit_client ok (on_store unlock).

(** Time passes, and connections are lost. *)
Inductive tx_env (v : TxWorld) : TxWorld -> Prop :=
| env_time w : time_passes (tx_world v) w -> tx_env v (tx_put w v)
| env_connection_lost t : tx_env v (close t v).

(** No transaction is open. *)
Definition no_transaction (w : World) : TxWorld :=
  {| tx_world := w; tx_open := ∅; tx_lock := None; tx_count := 0 |}.

(** [rows] record rows that [ok] allows, each after the one before, from [h] on. *)
Fixpoint records (ok : AppendableRow -> Prop) (h : string) (rows : list AuditLogRow) : Prop :=
  match rows with
  | [] => True
  | row :: rows' => (exists data, ok data /\ row_records data h row) /\ records ok (al_currentHash row) rows'
  end.

(** ** The rows of a chain *)

Lemma records_snoc ok h rows row :
  records ok h rows -> (exists data, ok data /\ row_records data (end_hash h rows) row) ->
  records ok h (rows ++ [row]).
Proof.
  revert h. induction rows as [|r rows IH]; intros h; cbn; [done|].
  rewrite end_hash_cons. intros [Hr Hrs] Hrow. auto.
Qed.

Lemma records_valid (ok : AppendableRow -> Prop) h rows :
  (forall data, ok data -> well_formed_row data) -> records ok h rows -> cv_valid (verify_from h rows) = true.
Proof.
  intros Hok. revert h. induction rows as [|r rows IH]; intros h; [done|].
  intros [(data & Hd & Hr) Hrs]. rewrite verify_from_cons.
  rewrite decide_True by (eapply row_records_links; eauto). auto.
Qed.

Lemma end_hash_app h l1 l2 : end_hash h (l1 ++ l2) = end_hash (end_hash h l1) l2.
Proof.
  revert h. induction l1 as [|r l1 IH]; intros h; [done|].
  cbn [app]. by rewrite !end_hash_cons, IH.
Qed.

(** ** The protocol of the transactions *)

Section Protocol.
Context (ok : AppendableRow -> Prop) (log0 : list AuditLogRow).

Definition log_of (v : TxWorld) : list AuditLogRow := audit_log (w_audit (tx_world v)).
Definition seq_of (v : TxWorld) : Z := audit_seq (w_audit (tx_world v)).

(** The log is the initial one and rows recorded one after the other, with increasing
    identifiers under the sequence. *)
Definition grown (v : TxWorld) : Prop :=
  (exists rows, log_of v = log0 ++ rows /\ records ok (end_hash GENESIS_HASH log0) rows) /\
  StronglySorted Z.lt (map al_id (log_of v)) /\
  Forall (fun r => 0 < al_id r <= seq_of v) (log_of v) /\ 0 <= seq_of v.

Inductive TxPhase :=
| tx_idle
| tx_begun (t : nat)                       (* the transaction is open *)
| tx_locked (t : nat)                      (* and has the lock *)
| tx_read (t : nat) (prev : string)        (* and knows the last hash *)
| tx_inserted (t : nat) (row : AuditLogRow). (* and has its row *)

Definition tx_holds (ph : TxPhase) (v : TxWorld) : Prop :=
  match ph with
  | tx_idle => True
  | tx_begun t => (t < tx_count v)%nat
  | tx_locked t => (t < tx_count v)%nat /\ (t ∈ tx_open v -> tx_lock v = Some t)
  | tx_read t prev =>
      (t < tx_count v)%nat /\
      (t ∈ tx_open v -> tx_lock v = Some t /\ prev = end_hash GENESIS_HASH (log_of v))
  | tx_inserted t row =>
      (t < tx_count v)%nat /\ 0 < al_id row <= seq_of v /\
      (t ∈ tx_open v -> tx_lock v = Some t /\
         (exists data, ok data /\ row_records data (end_hash GENESIS_HASH (log_of v)) row) /\
         Forall (fun r => al_id r < al_id row) (log_of v))
  end.

(** What an action does to the transactions and to the log. *)
Inductive tx_change (v v' : TxWorld) : Prop :=
| change_none : tx_open v' = tx_open v -> tx_lock v' = tx_lock v -> tx_count v' = tx_count v ->
    log_of v' = log_of v -> tx_change v v'
| change_begin : tx_open v' = {[tx_count v]} ∪ tx_open v -> tx_lock v' = tx_lock v ->
    tx_count v' = S (tx_count v) -> log_of v' = log_of v -> tx_change v v'
| change_lock t : t ∈ tx_open v -> tx_lock v = None -> tx_open v' = tx_open v -> tx_lock v' = Some t ->
    tx_count v' = tx_count v -> log_of v' = log_of v -> tx_change v v'
| change_close t : tx_open v' = tx_open v ∖ {[t]} ->
    tx_lock v' = (if decide (tx_lock v = Some t) then None else tx_lock v) ->
    tx_count v' = tx_count v -> log_of v' = log_of v -> tx_change v v'
| change_commit t row : t ∈ tx_open v -> tx_holds (tx_inserted t row) v -> tx_open v' = tx_open v ∖ {[t]} ->
    tx_lock v' = (if decide (tx_lock v = Some t) then None else tx_lock v) ->
    tx_count v' = tx_count v -> log_of v' = log_of v ++ [row] -> tx_change v v'.

Definition tx_moves (ph : TxPhase) (v v' : TxWorld) (ph' : TxPhase) : Prop :=
  tx_change v v' /\ seq_of v <= seq_of v' /\ tx_holds ph' v'.

(** What a phase knows is not changed by the others. *)
Lemma tx_holds_stable ph v v' :
  tx_change v v' -> seq_of v <= seq_of v' -> tx_holds ph v -> tx_holds ph v'.
Proof.
  intros Hc Hseq. 
  assert (Hcnt : (tx_count v <= tx_count v')%nat) by (destruct Hc; lia).
  assert (Hown : forall t, (t < tx_count v)%nat -> (t ∈ tx_open v -> tx_lock v = Some t) -> t ∈ tx_open v' ->
            t ∈ tx_open v /\ tx_lock v' = Some t /\ log_of v' = log_of v).
  { intros t Ht Hl. destruct Hc as [Ho Hk|Ho Hk|t' Hin Hn Ho Hk|t' Ho Hk|t' row Hin Hrow Ho Hk];
      rewrite Ho, Hk; intros Hopen.
    - auto.
    - apply elem_of_union in Hopen as [->%elem_of_singleton|Hopen]; [lia|auto].
    - specialize (Hl Hopen). congruence.
    - apply elem_of_difference in Hopen as [Hopen Hne]. rewrite elem_of_singleton in Hne.
      rewrite decide_False by (rewrite Hl by done; congruence). auto.
    - apply elem_of_difference in Hopen as [Hopen Hne]. rewrite elem_of_singleton in Hne.
      destruct Hrow as (_ & _ & Hrow). destruct (Hrow Hin) as [Hlock _]. rewrite Hl in Hlock by done. congruence. }
  destruct ph as [|t|t|t prev|t row]; cbn.
  - done.
  - lia.
  - intros [Ht Hl]. split; [lia|]. intros Hopen. by destruct (Hown t Ht Hl Hopen) as (_ & -> & _).
  - intros [Ht Hl]. split; [lia|]. intros Hopen.
    destruct (Hown t Ht (fun H => proj1 (Hl H)) Hopen) as (Hin & -> & ->). split; [done|by apply Hl].
  - intros (Ht & Hid & Hl). split; [lia|]. split; [lia|]. intros Hopen.
    destruct (Hown t Ht (fun H => proj1 (Hl H)) Hopen) as (Hin & -> & ->). split; [done|by apply Hl].
Qed.

Definition tx_inv (v : TxWorld) (phs : list TxPhase) : Prop :=
  grown v /\ Forall (fun ph => tx_holds ph v) phs.

(** A change keeps the log grown: only a commit adds a row, and it follows the last one. *)
Lemma grown_change v v' : tx_change v v' -> seq_of v <= seq_of v' -> grown v -> grown v'.
Proof.
  intros Hc Hseq (Hr & Hs & Hb & H0).
  assert (Hsame : log_of v' = log_of v -> grown v').
  { intros Hl. unfold grown. rewrite Hl. splits; [done..| |lia].
    eapply Forall_impl; [exact Hb|]. cbn. lia. }
  destruct Hc as [| | | |t row Hin Hrow _ _ _ Hl]; [auto..|].
  destruct Hrow as (_ & Hid & Hrow). destruct (Hrow Hin) as (_ & Hrec & Hlt). destruct Hr as (rows & Hrows & Hr).
  unfold grown. rewrite Hl. splits.
  - exists (rows ++ [row]). rewrite Hrows, app_assoc. split; [done|]. apply records_snoc; [done|].
    by rewrite <- end_hash_app, <- Hrows.
  - rewrite map_app. apply StronglySorted_snoc; [done|]. by apply Forall_map.
  - apply Forall_app_single; [|lia]. eapply Forall_impl; [exact Hb|]. cbn. lia.
  - lia.
Qed.

Definition tx_knows (ph : TxPhase) (v : TxWorld) : Prop := grown v /\ tx_holds ph v.

Abbreviation keeps_to ph p Q := (follows tx_knows tx_moves ph p Q).

(** An action that leaves the transactions and the log as they are keeps its phase. *)
Lemma tx_moves_same ph v w :
  tx_holds ph v -> audit_log (w_audit w) = log_of v -> seq_of v <= audit_seq (w_audit w) ->
  tx_moves ph v (tx_put w v) ph.
Proof.
  intros Hh Hl Hs. assert (Hc : tx_change v (tx_put w v)) by by apply change_none.
  split; [done|]. split; [done|]. by eapply tx_holds_stable.
Qed.

Lemma follows_on_store {A} ph (p : jin A) :
  steps (fun w w' => audit_log (w_audit w') = audit_log (w_audit w) /\ audit_seq (w_audit w') = audit_seq (w_audit w)) p ->
  keeps_to ph (on_store p) (fun ph' _ => ph' = ph).
Proof.
  intros Hp. apply (follows_steps _ _ ph (fun v v' => exists w, v' = tx_put w v /\
    audit_log (w_audit w) = log_of v /\ audit_seq (w_audit w) = seq_of v)).
  - intros v v' [_ Hh] (w & -> & Hl & Hs). apply tx_moves_same; [done..|lia].
  - eapply steps_zoom; [|exact Hp]. intros w v [Hl Hs]. by exists w.
Qed.

Lemma follows_in_tx {X A} ph t (f : TxWorld -> TxWorld * X) (k : X -> txp A) (Q : TxPhase -> JinError + A -> Prop) :
  Q ph (inl DbError) ->
  (forall v, grown v -> tx_holds ph v -> t ∈ tx_open v ->
     let v1 := tx_put (tick (tx_world v)) v in
     exists ph', tx_moves ph v (f v1).1 ph' /\ keeps_to ph' (k (f v1).2) Q) ->
  keeps_to ph (bind (in_tx t f) k) Q.
Proof.
  intros He Hf v [Hg Hv]. destruct (bool_decide_reflect (t ∈ tx_open v)) as [Ho|_]; cbn [negb].
  2:{ exists ph. split; [|exact He]. split; [by apply change_none|]. split; [done|exact Hv]. }
  destruct (faulty (tx_world v)).
  { exists ph. split; [|exact He]. apply tx_moves_same; [done|done|unfold seq_of; cbn; lia]. }
  specialize (Hf v Hg Hv Ho). cbv zeta in Hf. by destruct (f (tx_put (tick (tx_world v)) v)).
Qed.

Definition anyhow {A} : TxPhase -> JinError + A -> Prop := fun _ _ => True.

Lemma follows_rollback {A} ph t (e : JinError) : keeps_to ph (rollback t ;;; Throw e : txp A) anyhow.
Proof.
  apply follows_in_tx; [done|]. intros v _ Hv Ho. cbv zeta. exists tx_idle. split; [|done].
  split; [by apply (change_close _ _ t)|]. split; [done|exact I].
Qed.

Lemma follows_lock_chain patience t :
  keeps_to (tx_begun t) (lock_chain patience t)
    (fun ph r => match r with inr _ => ph = tx_locked t | inl _ => True end).
Proof.
  induction patience as [|n IH]; [exact I|]. cbn [lock_chain]. apply follows_in_tx; [exact I|].
  intros v _ Hv Ho. cbv zeta. cbn [tx_lock tx_put]. destruct (tx_lock v) eqn:El.
  - exists (tx_begun t). split; [|exact IH].
    apply tx_moves_same; [done|done|unfold seq_of; cbn; lia].
  - exists (tx_locked t). split; [|done]. split; [by apply (change_lock _ _ t)|]. split; [done|]. by split.
Qed.

Lemma follows_transaction patience data : ok data -> keeps_to tx_idle (transaction patience data) anyhow.
Proof.
  intros Hok v _. exists (tx_begun (tx_count v)). split.
  { split; [by apply change_begin|]. split; [done|]. cbn. lia. }
  cbn [fst snd bind]. generalize (tx_count v) as t. clear v. intros t.
  apply follows_catch. eapply (follows_mono _ _ _ _ anyhow); [|intros ph [e|row] _; [apply follows_rollback|exact I]].
  apply follows_bind. eapply follows_mono; [apply follows_lock_chain|]. intros ph [e|[]]; [done|]. intros ->.
  apply follows_in_tx; [exact I|]. intros v1 _ [Ht1 Hl1] _. cbv zeta. cbn [fst snd].
  set (prev := default GENESIS_HASH _). exists (tx_read t prev). split.
  { split; [by apply change_none|]. split; [done|]. split; [exact Ht1|]. intros Ho. split; [by apply Hl1|].
    subst prev. unfold end_hash, log_of. cbn. by destruct (last _). }
  clearbody prev. clear Ht1 Hl1 v1. cbn [on_store now reads zoom bind]. intros v2 [_ Hv2]. exists (tx_read t prev).
  split; [apply tx_moves_same; [done|done|done]|]. cbn [fst snd]. set (ts := clock _). clearbody ts. clear v2 Hv2.
  apply follows_in_tx; [exact I|]. intros v3 (_ & _ & Hb & H0) [Ht3 Hl3] _. cbv zeta. cbn [fst snd].
  set (row := {| al_id := _; al_content := _; al_prevHash := _; al_currentHash := _ |}).
  exists (tx_inserted t row). split.
  { split; [by apply change_none|]. unfold seq_of in Hb, H0 |- *. cbn [tx_put tx_world upd_audit w_audit audit_seq tick upd_sys].
    split; [lia|]. split; [done|]. split; [unfold seq_of; cbn; lia|]. intros [Hlock ->]%Hl3.
    split; [done|]. split; [exists data; split; [done|]; by exists ts|].
    eapply Forall_impl; [exact Hb|]. intros r [_ Hr]. change (al_id r < audit_seq (w_audit (tx_world v3)) + 1). lia. }
  clearbody row. clear v3 Hb H0 Ht3 Hl3. apply follows_in_tx; [exact I|]. intros v4 _ Hv4 Ho4. cbv zeta. exists tx_idle.
  split; [|exact I]. split; [by apply (change_commit _ _ t row)|]. split; [done|exact I].
Qed.

Lemma follows_appendRow patience data : ok data -> keeps_to tx_idle (appendRow patience data) anyhow.
Proof.
  intros Hok. apply follows_bind. eapply follows_mono; [apply follows_on_store, steps_db_read; auto|].
  intros ph [e|[]] ->; [exact I..|]. by apply follows_transaction.
Qed.

Lemma follows_discard {A} ph (p : txp A) : keeps_to ph p anyhow -> keeps_to ph (discard p) anyhow.
Proof. intros Hp. apply follows_bind. eapply follows_mono; [exact Hp|]. by intros ? []. Qed.

Lemma steps_upsertLock l :
  steps (fun w w' => audit_log (w_audit w') = audit_log (w_audit w) /\ audit_seq (w_audit w') = audit_seq (w_audit w))
    (upsertLock l).
Proof. apply steps_db; auto. Qed.

Lemma follows_client p : audit_client ok p -> keeps_to tx_idle p anyhow.
Proof.
  destruct 1; try (by apply follows_discard, follows_appendRow).
  - apply follows_discard. eapply follows_mono; [apply follows_on_store|done].
    apply steps_bind; [apply steps_db_read; auto|]. intros rows. apply steps_bind; [|done].
    destruct (cv_valid (verifyChain rows)); [done|].
    apply steps_bind; [apply steps_now; auto|intros; apply steps_upsertLock].
  - eapply follows_mono; [apply follows_on_store, steps_upsertLock|done].
Qed.

Lemma tx_inv_moves v v' l1 ph ph' l2 :
  tx_inv v (l1 ++ ph :: l2) -> tx_moves ph v v' ph' -> tx_inv v' (l1 ++ ph' :: l2).
Proof.
  intros [Hg Hp] (Hc & Hs & Hh). split; [by eapply grown_change|].
  apply Forall_app in Hp as [H1 [_ H2]%Forall_cons].
  apply Forall_app; split; [|constructor; [done|]];
    (eapply Forall_impl; [eassumption|]; intros; by eapply tx_holds_stable).
Qed.

Lemma tx_inv_env v v' phs : tx_env v v' -> tx_inv v phs -> tx_inv v' phs.
Proof.
  intros He [Hg Hp].
  assert (tx_change v v' /\ seq_of v <= seq_of v') as [Hc Hs].
  { destruct He as [w (t & _ & ->)|t]; [split; [by apply change_none|done]|].
    split; [by apply (change_close _ _ t)|done]. }
  split; [by eapply grown_change|]. eapply Forall_impl; [exact Hp|]. intros. by eapply tx_holds_stable.
Qed.

Lemma log_is_grown w0 c :
  log0 = audit_log (w_audit w0) -> audit_inv w0 ->
  reachable tx_env (audit_client ok) (no_transaction w0) c -> grown (c_store c).
Proof.
  intros Hl (_ & Hi) Hr.
  destruct (protocol_outcomes tx_env (audit_client ok) tx_knows tx_moves tx_inv tx_idle) with
    (Q := @anyhow unit) (w0 := no_transaction w0) (c := c) as (phs & [Hg _] & _); [..|done].
  - intros v l1 ph l2 [Hg Hp]. split; [done|]. by apply Forall_app in Hp as [_ [? _]%Forall_cons].
  - apply tx_inv_moves.
  - intros v v' l. apply tx_inv_env.
  - intros v l [Hg Hp]. split; [done|]. by apply Forall_app_single.
  - apply follows_client.
  - split; [|constructor]. split; [|exact Hi]. exists []. by rewrite app_nil_r, Hl.
  - exact Hr.
Qed.
End Protocol.

(** ** A transaction alone *)

Lemma run_in_tx {X A} t (f : TxWorld -> TxWorld * X) (k : X -> txp A) v :
  healthy (tx_world v) -> t ∈ tx_open v ->
  run (bind (in_tx t f) k) v = let '(v', x) := f (tx_put (tick (tx_world v)) v) in run (k x) v'.
Proof.
  intros Hh Ho. unfold in_tx. cbn [bind run]. rewrite bool_decide_eq_true_2 by done. cbn [negb].
  rewrite healthy_not_faulty by done. by destruct (f _).
Qed.

(** When the lock is free the transaction is the one step of [append_tx]. *)
Lemma transaction_is_append_tx patience data v :
  healthy (tx_world v) -> tx_lock v = None -> (0 < patience)%nat ->
  exists v', run (transaction patience data) v = (v', inr (append_tx data (tx_world v)).2) /\
    w_audit (tx_world v') = w_audit (append_tx data (tx_world v)).1 /\
    outside_audit (tx_world v') = outside_audit (tx_world v) /\ tx_lock v' = None.
Proof.
  intros Hh Hl Hp. destruct patience as [|n]; [lia|]. unfold transaction. rewrite run_bind. cbn [run begin_tx].
  rewrite run_catch. cbn [lock_chain].
  assert (Hassoc : forall A B C (p : txp A) (k : A -> txp B) (k' : B -> txp C) u,
    run (bind (bind p k) k') u = run (bind p (fun x => bind (k x) k')) u).
  { intros A B C p k k' u. rewrite !run_bind. destruct (run p u) as [u' [e|x]]; [done|]. by rewrite run_bind. }
  rewrite Hassoc, run_in_tx; [|exact Hh|set_solver]. cbn [tx_lock tx_put]. rewrite Hl. cbn [bind].
  unfold select_last. rewrite run_in_tx; [|exact Hh|cbn; set_solver]. cbn [tx_put].
  rewrite run_bind. cbn [run on_store zoom now reads tx_put].
  unfold insert_row, commit, rollback. rewrite run_in_tx; [|exact Hh|cbn; set_solver]. cbv beta iota zeta.
  rewrite run_in_tx; [|exact Hh|cbn; set_solver]. cbv beta iota zeta. cbn [run].
  eexists. splits.
  - unfold append_tx. cbn. repeat f_equal; by destruct (last _).
  - cbn. unfold append_tx. cbn. do 2 f_equal. f_equal. by destruct (last _).
  - done.
  - cbn. by rewrite decide_True.
Qed.

(** C4. The hash chain survives concurrency.  Appends run as the code runs them, statement by
    statement, among any other requests of the log (records of every kind, the daily
    verification, the manual unlock), whatever statements fail, whenever connections are
    lost and wherever a process dies, in a transaction or outside.  Then the log is the
    initial one and rows that each record a request and carry the hash of the row before
    them: concurrent appends never fork the chain; the identifiers strictly increase; and,
    when the texts of the requests are well formed (no text of a request has a lone
    surrogate), the chain verifies. *)
Theorem audit_chain_survives_concurrency (ok : AppendableRow -> Prop) (w0 : World)
    (c : config TxWorld JinError unit) :
  audit_inv w0 -> reachable tx_env (audit_client ok) (no_transaction w0) c ->
  let log0 := audit_log (w_audit w0) in
  let log := audit_log (w_audit (tx_world (c_store c))) in
  (exists rows, log = log0 ++ rows /\ records ok (end_hash GENESIS_HASH log0) rows) /\
  StronglySorted Z.lt (map al_id log) /\
  ((forall data, ok data -> well_formed_row data) -> cv_valid (verifyChain log) = true).
Proof.
  intros Hi Hr. destruct (log_is_grown ok _ w0 c eq_refl Hi Hr) as ((rows & Hl & Hrec) & Hs & _).
  cbv zeta. splits; [by exists rows|exact Hs|]. intros Hok.
  change (audit_log (w_audit (tx_world (c_store c)))) with (log_of (c_store c)). rewrite Hl.
  unfold verifyChain. rewrite verify_from_app. destruct Hi as (Hv & _). unfold chain_valid, verifyChain in Hv.
  rewrite Hv. by eapply records_valid.
Qed.
End Transaction.

(** ** Concrete runs *)

Module AuditTxExamples.
(** Two appends that take turns: the second one waits for the lock of the first. *)
Definition two_appends : list (txp unit) :=
  [discard (@recordApproval toy_crypto 9 "r1" "owner" "sendEmail" "h");
   discard (@recordApproval toy_crypto 9 "r2" "owner" "sendEmail" "h")].
Definition raced : config TxWorld JinError unit :=
  interleave (concat (replicate 16 [0; 1]))%nat (no_transaction (empty_world 0)) two_appends.

Example raced_rows :
  map (fun r => hr_requestId (al_content r)) (audit_log (w_audit (tx_world (c_store raced)))) = ["r1"; "r2"].
Proof. by vm_compute. Qed.

Lemma raced_reachable :
  reachable tx_env (@audit_client toy_crypto well_formed_row) (no_transaction (empty_world 0)) raced.
Proof.
  eapply reachable_rtc; [apply (reachable_spawned _ _ _ two_appends)|apply interleave_steps].
  constructor; [by apply client_approval|]. constructor; [by apply client_approval|constructor].
Qed.

(** A summary that was cut inside an emoji: the hash is taken of its escape, the table has
    U+FFFD, so the chain does not verify although nobody touched it, and the daily
    verification locks the log. *)
Definition cut_summary : AppendableRow :=
  tool_call_row "r" "owner" "terminal_write_file" "h" (Some ("terminal: guardar a" +:+ half_emoji)) "auto" None.

Example a_cut_summary_breaks_the_chain :
  let v := (run (@appendRow toy_crypto 1 cut_summary) (no_transaction (empty_world 0))).1 in
  let w := (run (@verifyDaily toy_crypto) (tx_world v)).1 in
  @verifyChain toy_crypto (audit_log (w_audit (tx_world v))) =
    {| cv_valid := false; cv_brokenAtId := Some 1 |} /\ chain_locked w = true.
Proof. by vm_compute. Qed.
End AuditTxExamples.

Lemma audit_chain_survives_concurrency_witness :
  let log := audit_log (w_audit (tx_world (c_store AuditTxExamples.raced))) in
  List.length log = 2%nat /\ cv_valid (@verifyChain toy_crypto log) = true.
Proof.
  destruct (@audit_chain_survives_concurrency toy_crypto well_formed_row (empty_world 0) AuditTxExamples.raced)
    as (_ & _ & Hv).
  - apply AuditExamples.empty_audit_inv.
  - apply AuditTxExamples.raced_reachable.
  - split; [by vm_compute|]. apply Hv. auto.
Defined.
