(* ===== verification/Hitl.v ===== *)
(** * Hitl: levels of approval, pending approvals and their expiry

    [src/hitl/classifier.ts], [dual-confirm.logic.ts], [dual-confirm.service.ts],
    [timeout.logic.ts], [timeout.service.ts] and [tool-executor.registry.ts]. *)
From S2P Require Import Prelude Effects Js Registry Store AuditApi AuditLog.
From stdpp Require Import sorting.
Local Open Scope stdpp_scope.
Local Open Scope Z_scope.
Local Open Scope jin_scope.

(** ** classifier.ts *)

Definition classifyToolCall (toolName : string) (_inputs : json) : jin HitlDecision :=
  match getToolDefinition toolName with
  | None => Throw (UnknownToolError toolName)
  | Some tool =>
      requestId <- randomUUID ;;
      Ret {| hd_requestId := requestId;
             hd_toolName := td_name tool;
             hd_level := td_hitlLevel tool;
             hd_approvalsRequired := approvalsRequiredFor (td_hitlLevel tool);
             hd_notifyAfterExecution := bool_decide (td_hitlLevel tool = Notify);
             hd_relaxedBy := None |}
  end.

(** ** dual-confirm.logic.ts *)

Definition DUAL_CONFIRM_DELAY_MS : Z := 30000.

Definition computeAvailableAt (firstApprovedAt : Z) : Z := firstApprovedAt + DUAL_CONFIRM_DELAY_MS.

Definition canAcceptSecondApproval (availableAt now : Z) : bool := availableAt <=? now.

(** ** timeout.logic.ts *)

Definition APPROVAL_TTL_MS : Z := 24 * 60 * 60 * 1000.
Definition ESCALATION_WARNING_MS : Z := 12 * 60 * 60 * 1000.

Inductive TimeoutOutcome := to_none | to_discard | to_escalate_warning | to_abandon.

Definition decideTimeoutOutcome (createdAt : Z) (timeoutBehavior : TimeoutBehavior)
    (alreadyEscalated : bool) (now : Z) : TimeoutOutcome :=
  let elapsedMs := now - createdAt in
  match timeoutBehavior with
  | Discard => if APPROVAL_TTL_MS <=? elapsedMs then to_discard else to_none
  | Escalate =>
      if APPROVAL_TTL_MS <=? elapsedMs then to_abandon
      else if (ESCALATION_WARNING_MS <=? elapsedMs) && negb alreadyEscalated
      then to_escalate_warning
      else to_none
  end.

(** ** tool-executor.registry.ts

    [ToolExecutor] takes the payload and the [requestId] of its context.  The
    executors of the integrations are arguments of the model. *)

Definition ToolExecutor : Type := json -> option string -> jin json.
Definition ToolExecutorRegistry : Type := gmap string ToolExecutor.

Definition register (executors : ToolExecutorRegistry) (toolName : string)
    (executor : ToolExecutor) : JinError + ToolExecutorRegistry :=
  match executors !! toolName with
  | Some _ => inl (ToolExecutorAlreadyRegisteredError toolName)
  | None => inr (<[toolName := executor]> executors)
  end.

(** [observe] marks the trace where the executor starts and how it ends; the
    code has no such statement. *)
Definition execute (executors : ToolExecutorRegistry) (toolName : string) (payload : json)
    (requestId : option string) : jin json :=
  match (executors !! toolName : option ToolExecutor) with
  | None => Throw (NoExecutorRegisteredError toolName)
  | Some executor =>
      let rid := default "" requestId in
      observe (ExecStart rid toolName payload) ;;;
      try_with (executor payload requestId)
        (fun result => observe (ExecOk rid toolName) ;;; Ret result)
        (fun err => observe (ExecFail rid toolName) ;;; Throw err)
  end.

(** ** dual-confirm.service.ts *)

Definition STUCK_CLAIM_AFTER_MS : Z := 15 * 60 * 1000.

Record CreatePendingApprovalInput := {
  cpa_requestId : string;
  cpa_toolName : string;
  cpa_level : HitlLevel;
  cpa_inputsHash : string;
  cpa_planSummary : option string;
  cpa_payload : option json;
  cpa_actor : option string;
  cpa_externalInputsSummary : option string
}.

Inductive ApprovalOutcome := resolved | awaiting_second.

(** [PendingApprovalLevelSchema.parse] *)
Definition parsePendingLevel (level : string) : jin HitlLevel :=
  if String.eqb level "confirm" then Ret Confirm
  else if String.eqb level "dual-confirm" then Ret DualConfirm
  else Throw (ZodError level).

(** The row as inserted: the columns the code leaves out take their defaults. *)
Definition new_pending_row (input : CreatePendingApprovalInput) (t : Z) : PendingApprovalRow := {|
  pa_requestId := cpa_requestId input;
  pa_toolName := cpa_toolName input;
  pa_level := level_name (cpa_level input);
  pa_inputsHash := cpa_inputsHash input;
  pa_planSummary := cpa_planSummary input;
  pa_actor := cpa_actor input;
  pa_externalInputsSummary := cpa_externalInputsSummary input;
  pa_payload := default JNull (cpa_payload input);
  pa_createdAt := t;
  pa_firstApprovedAt := None;
  pa_firstApprover := None;
  pa_availableAt := None;
  pa_escalatedAt := None;
  pa_executingAt := None;
  pa_executionError := None |}.

(** [insert]: the primary key refuses a second row with the same [requestId]. *)
Definition insertPending (input : CreatePendingApprovalInput) : jin unit :=
  inserted <- db (fun w =>
    match w_pending w !! cpa_requestId input with
    | Some _ => (w, false)
    | None => (upd_pending (insert (cpa_requestId input)
                 (new_pending_row input (clock (w_sys w)))) w, true)
    end) ;;
  if inserted : bool then Ret tt else Throw DbError.

Definition set_first_approval (now : Z) (approver : string) (availableAt : Z)
    (r : PendingApprovalRow) : PendingApprovalRow := {|
  pa_requestId := pa_requestId r; pa_toolName := pa_toolName r; pa_level := pa_level r;
  pa_inputsHash := pa_inputsHash r; pa_planSummary := pa_planSummary r; pa_actor := pa_actor r;
  pa_externalInputsSummary := pa_externalInputsSummary r; pa_payload := pa_payload r;
  pa_createdAt := pa_createdAt r;
  pa_firstApprovedAt := Some now; pa_firstApprover := Some approver;
  pa_availableAt := Some availableAt;
  pa_escalatedAt := pa_escalatedAt r; pa_executingAt := pa_executingAt r;
  pa_executionError := pa_executionError r |}.

Definition set_execution (executingAt : option Z) (executionError : option string)
    (r : PendingApprovalRow) : PendingApprovalRow := {|
  pa_requestId := pa_requestId r; pa_toolName := pa_toolName r; pa_level := pa_level r;
  pa_inputsHash := pa_inputsHash r; pa_planSummary := pa_planSummary r; pa_actor := pa_actor r;
  pa_externalInputsSummary := pa_externalInputsSummary r; pa_payload := pa_payload r;
  pa_createdAt := pa_createdAt r;
  pa_firstApprovedAt := pa_firstApprovedAt r; pa_firstApprover := pa_firstApprover r;
  pa_availableAt := pa_availableAt r; pa_escalatedAt := pa_escalatedAt r;
  pa_executingAt := executingAt; pa_executionError := executionError |}.

Definition set_escalated (now : Z) (r : PendingApprovalRow) : PendingApprovalRow := {|
  pa_requestId := pa_requestId r; pa_toolName := pa_toolName r; pa_level := pa_level r;
  pa_inputsHash := pa_inputsHash r; pa_planSummary := pa_planSummary r; pa_actor := pa_actor r;
  pa_externalInputsSummary := pa_externalInputsSummary r; pa_payload := pa_payload r;
  pa_createdAt := pa_createdAt r;
  pa_firstApprovedAt := pa_firstApprovedAt r; pa_firstApprover := pa_firstApprover r;
  pa_availableAt := pa_availableAt r; pa_escalatedAt := Some now;
  pa_executingAt := pa_executingAt r; pa_executionError := pa_executionError r |}.

(** [update(pendingApprovals).set(f).where(requestId and cond).returning()] *)
Definition update_pending (requestId : string) (cond : PendingApprovalRow -> bool)
    (f : PendingApprovalRow -> PendingApprovalRow) (w : World) :
    World * option PendingApprovalRow :=
  match w_pending w !! requestId with
  | Some r => if cond r then (upd_pending (insert requestId (f r)) w, Some (f r)) else (w, None)
  | None => (w, None)
  end.

(** [delete(pendingApprovals).where(requestId and cond).returning()] *)
Definition delete_pending (requestId : string) (cond : PendingApprovalRow -> bool) (w : World) :
    World * bool :=
  match w_pending w !! requestId with
  | Some r => if cond r then (upd_pending (delete requestId) w, true) else (w, false)
  | None => (w, false)
  end.

Definition is_null {A} (o : option A) : bool := match o with None => true | Some _ => false end.

Module DualConfirm.
Section Service.
Context `{Api : AuditApi}.

Definition createPendingApproval (input : CreatePendingApprovalInput) : jin unit :=
  insertPending input ;;;
  audit_toolCall (cpa_requestId input) (default "agent" (cpa_actor input))
    (cpa_toolName input) (cpa_inputsHash input) (cpa_planSummary input) "pending"
    (cpa_externalInputsSummary input) ;;;
  emit (PENDING_APPROVAL_CREATED_EVENT (cpa_requestId input) (cpa_toolName input)
          (cpa_level input)).

(** [orderBy(desc(createdAt))] *)
Definition newer_first (a b : PendingApprovalRow) : Prop := pa_createdAt b <= pa_createdAt a.
#[export] Instance newer_first_dec a b : Decision (newer_first a b).
Proof. unfold newer_first; apply _. Defined.

Definition listPending : jin (list PendingApprovalRow) :=
  db_read (fun w => merge_sort newer_first (map snd (map_to_list (w_pending w)))).

Definition getPending (requestId : string) : jin (option PendingApprovalRow) :=
  db_read (fun w => w_pending w !! requestId).

(** [fuel] bounds the recursion of the caller that loses the race for the
    first approval; see [recordApproval_recurses_once]. *)
Fixpoint recordApproval_rec (fuel : nat) (requestId approver : string) (now : Z) :
    jin ApprovalOutcome :=
  match fuel with
  | O => Throw (PlainError "Maximum call stack size exceeded")
  | S fuel' =>
      pending <- getPending requestId ;;
      match pending with
      | None => Throw (PendingApprovalNotFoundError requestId)
      | Some pending =>
          level <- parsePendingLevel (pa_level pending) ;;
          match level with
          | Confirm => Ret resolved
          | _ =>
              match pa_firstApprovedAt pending with
              | None =>
                  let availableAt := computeAvailableAt now in
                  won <- db (update_pending requestId
                               (fun r => is_null (pa_firstApprovedAt r))
                               (set_first_approval now approver availableAt)) ;;
                  match won with
                  | Some _ => Ret awaiting_second
                  | None => recordApproval_rec fuel' requestId approver now
                  end
              | Some firstApprovedAt =>
                  let availableAt :=
                    default (computeAvailableAt firstApprovedAt) (pa_availableAt pending) in
                  if negb (canAcceptSecondApproval availableAt now)
                  then Throw (SecondApprovalTooEarlyError requestId availableAt)
                  else Ret resolved
              end
          end
      end
  end.

(** [now] defaults to the time of the call. *)
Definition recordApproval (requestId approver : string) : jin ApprovalOutcome :=
  t <- now ;; recordApproval_rec 2 requestId approver t.

Definition claimForExecution (requestId : string) : jin (option PendingApprovalRow) :=
  t <- now ;;
  db (update_pending requestId (fun r => is_null (pa_executingAt r)) (set_execution (Some t) None)).

Definition releaseClaim (requestId : string) (error : option string) : jin unit :=
  db (update_pending requestId (fun _ => true) (set_execution None error)) ;;; Ret tt.

Definition removePending (requestId : string) : jin unit :=
  db (delete_pending requestId (fun _ => true)) ;;; Ret tt.

Definition removeIfNotExecuting (requestId : string) : jin bool :=
  t <- now ;;
  let stuckBefore := t - STUCK_CLAIM_AFTER_MS in
  db (delete_pending requestId (fun r =>
        match pa_executingAt r with None => true | Some e => e <? stuckBefore end)).
End Service.
End DualConfirm.

(** ** timeout.service.ts *)

Module Timeout.
Section Service.
Context `{Api : AuditApi}.

Definition claimAndAuditTimeout (pending : PendingApprovalRow) (status : string) : jin bool :=
  claimed <- DualConfirm.claimForExecution (pa_requestId pending) ;;
  match claimed with
  | None => Ret false
  | Some _ =>
      try_with (audit_timeout (pa_requestId pending) (pa_toolName pending)
                  (pa_inputsHash pending) status)
        (fun _ => Ret true)
        (fun err => DualConfirm.releaseClaim (pa_requestId pending) None ;;; Throw err)
  end.

Definition removePending (requestId : string) : jin unit :=
  db (delete_pending requestId (fun _ => true)) ;;; Ret tt.

Definition processPending (pending : PendingApprovalRow) (now : Z) : jin unit :=
  match pa_executingAt pending with
  | Some executingAt =>
      if STUCK_CLAIM_AFTER_MS <? now - executingAt
      then emit (HITL_APPROVAL_STUCK_EVENT (pa_requestId pending) (pa_toolName pending))
      else Ret tt
  | None =>
      let timeoutBehavior :=
        default Discard (getToolDefinition (pa_toolName pending) ≫= td_timeoutBehavior) in
      match decideTimeoutOutcome (pa_createdAt pending) timeoutBehavior
              (negb (is_null (pa_escalatedAt pending))) now with
      | to_none => Ret tt
      | to_discard =>
          ok <- claimAndAuditTimeout pending "timeout" ;;
          if ok : bool then removePending (pa_requestId pending) else Ret tt
      | to_escalate_warning =>
          db (update_pending (pa_requestId pending) (fun _ => true) (set_escalated now)) ;;;
          emit (HITL_APPROVAL_ESCALATED_EVENT (pa_requestId pending) (pa_toolName pending))
      | to_abandon =>
          ok <- claimAndAuditTimeout pending "abandoned" ;;
          if ok : bool then
            removePending (pa_requestId pending) ;;;
            emit (HITL_APPROVAL_ABANDONED_EVENT (pa_requestId pending) (pa_toolName pending))
          else Ret tt
      end
  end.

Definition sweep : jin unit :=
  t <- now ;;
  pending <- db_read (fun w => map snd (map_to_list (w_pending w))) ;;
  for_each pending (fun row => processPending row t).
End Service.
End Timeout.

(** ** Running one operation on a healthy store *)

Lemma run_claim rid w :
  healthy w ->
  run (DualConfirm.claimForExecution rid) w =
  let '(w', r) := update_pending rid (fun r => is_null (pa_executingAt r))
                    (set_execution (Some (clock (w_sys w))) None) (tick w) in (w', inr r).
Proof. intros Hw. unfold DualConfirm.claimForExecution. rewrite run_bind, run_now. by rewrite run_db_ok. Qed.

Lemma run_getPending rid w :
  healthy w -> run (DualConfirm.getPending rid) w = (tick w, inr (w_pending w !! rid)).
Proof. intros Hw. unfold DualConfirm.getPending, db_read. by rewrite run_db_ok. Qed.

Lemma run_release rid err w :
  healthy w ->
  run (DualConfirm.releaseClaim rid err) w =
  ((update_pending rid (fun _ => true) (set_execution None err) (tick w)).1, inr tt).
Proof.
  intros Hw. unfold DualConfirm.releaseClaim. rewrite run_bind, run_db_ok by done.
  by destruct (update_pending _ _ _ _).
Qed.

Lemma run_remove rid w :
  healthy w ->
  run (DualConfirm.removePending rid) w = ((delete_pending rid (fun _ => true) (tick w)).1, inr tt).
Proof.
  intros Hw. unfold DualConfirm.removePending. rewrite run_bind, run_db_ok by done.
  by destruct (delete_pending _ _ _).
Qed.

(** A claim of a row nobody holds, and its absence otherwise. *)
Lemma update_pending_hit rid cond f w r :
  w_pending w !! rid = Some r -> cond r = true ->
  update_pending rid cond f w = (upd_pending (insert rid (f r)) w, Some (f r)).
Proof. intros Hr Hc. unfold update_pending. by rewrite Hr, Hc. Qed.

Lemma update_pending_miss rid cond f w r :
  w_pending w !! rid = Some r -> cond r = false -> update_pending rid cond f w = (w, None).
Proof. intros Hr Hc. unfold update_pending. by rewrite Hr, Hc. Qed.

Lemma delete_pending_hit rid cond w r :
  w_pending w !! rid = Some r -> cond r = true ->
  delete_pending rid cond w = (upd_pending (delete rid) w, true).
Proof. intros Hr Hc. unfold delete_pending. by rewrite Hr, Hc. Qed.

(** ** Properties *)

Section Properties.
Context `{Laws : AuditApiLaws}.

(** Creating a pending approval inserts its row, unapproved and unclaimed,
    appends a permanent 'pending' row with the same [requestId] to the audit
    log, and then announces it; with a locked audit chain the caller gets
    [AuditChainLockedError] and nothing is announced. *)
Lemma createPendingApproval_leaves_a_trace (input : CreatePendingApprovalInput) (w : World) :
  healthy w -> w_pending w !! cpa_requestId input = None ->
  let r := run (DualConfirm.createPendingApproval input) w in
  w_pending r.1 = <[cpa_requestId input := new_pending_row input (clock (w_sys w))]> (w_pending w) /\
  w_execs r.1 = w_execs w /\
  if chain_locked w then
    r.2 = inl AuditChainLockedError /\ w_events r.1 = w_events w /\
    audit_log (w_audit r.1) = audit_log (w_audit w)
  else
    r.2 = inr tt /\
    w_events r.1 = w_events w ++ [PENDING_APPROVAL_CREATED_EVENT (cpa_requestId input)
                                    (cpa_toolName input) (cpa_level input)] /\
    exists row, audit_log (w_audit r.1) = audit_log (w_audit w) ++ [row] /\
      al_content row = logged
        (tool_call_row (cpa_requestId input) (default "agent" (cpa_actor input))
           (cpa_toolName input) (cpa_inputsHash input) (cpa_planSummary input) "pending"
           (cpa_externalInputsSummary input)) (clock (w_sys w)).
Proof.
  intros Hw Hn. unfold DualConfirm.createPendingApproval, insertPending. cbv zeta.
  rewrite !run_bind, run_db_ok by done. change (w_pending (tick w)) with (w_pending w).
  rewrite Hn. cbn [run]. rewrite run_bind. set (w1 := upd_pending _ (tick w)).
  pose proof (audit_toolCall_appends (cpa_requestId input) (default "agent" (cpa_actor input))
    (cpa_toolName input) (cpa_inputsHash input) (cpa_planSummary input) "pending"
    (cpa_externalInputsSummary input)) as Ha.
  change (chain_locked w) with (chain_locked w1). destruct (chain_locked w1) eqn:El.
  - destruct (appends_fails _ _ w1 Ha Hw El) as (w2 & -> & Hlog & Ho & _). outside Ho. by splits.
  - destruct (appends_ok _ _ w1 Ha Hw El) as (w2 & row & -> & Hlog & Hrow & Ho & _).
    outside Ho. rewrite run_emit. cbn. rewrite Hevents. splits; try done. by exists row.
Qed.

(** What an expiry leaves of a row: its deletion, once the timeout is in the log. *)
Lemma run_claim_and_remove row status w :
  healthy w -> chain_locked w = false ->
  w_pending w !! pa_requestId row = Some row -> pa_executingAt row = None ->
  exists w1 w' arow,
    (forall k : jin unit,
      run (ok <- Timeout.claimAndAuditTimeout row status ;; if ok : bool then k else Ret tt) w =
      run k w1) /\
    run (Timeout.removePending (pa_requestId row)) w1 = (w', inr tt) /\
    w_pending w' = delete (pa_requestId row) (w_pending w) /\
    audit_log (w_audit w') = audit_log (w_audit w) ++ [arow] /\
    al_content arow = logged (timeout_row (pa_requestId row) (pa_toolName row)
      (pa_inputsHash row) status) (clock (w_sys w)) /\
    w_events w' = w_events w /\ w_execs w' = w_execs w.
Proof.
  intros Hw Hl Hr Hn. set (rid := pa_requestId row) in *.
  set (w1 := upd_pending (insert rid (set_execution (Some (clock (w_sys w))) None row)) (tick w)).
  destruct (appends_ok _ _ w1 (audit_timeout_appends rid (pa_toolName row) (pa_inputsHash row) status)
    Hw Hl) as (w2 & arow & Hrun & Hlog & Hrow & Ho & _). outside Ho.
  assert (Hh : w_pending (tick w2) !! rid =
               Some (set_execution (Some (clock (w_sys w))) None row)).
  { change (w_pending (tick w2)) with (w_pending w2). rewrite Hpending. cbn. apply lookup_insert_eq. }
  exists w2, (upd_pending (delete rid) (tick w2)), arow. splits.
  - intros k. unfold Timeout.claimAndAuditTimeout. fold rid. rewrite !run_bind, run_claim by done.
    rewrite (update_pending_hit _ _ _ _ row) by (cbn; rewrite ?Hn; done).
    rewrite run_try_with. fold w1. by rewrite Hrun.
  - change (Timeout.removePending rid) with (DualConfirm.removePending rid).
    rewrite run_remove by (by eapply healthy_outside).
    by rewrite (delete_pending_hit _ _ _ _ Hh eq_refl).
  - cbn. rewrite Hpending. cbn. apply delete_insert_eq.
  - exact Hlog.
  - exact Hrow.
  - exact Hevents.
  - exact Hexecs.
Qed.

(** The sweep on one unclaimed row, by its age and its tool's
    [timeoutBehavior]: below 12 h (24 h for a tool that discards) nothing
    happens; between 12 h and 24 h an escalating tool warns once; from 24 h on
    the row is deleted, after a 'timeout' or 'abandoned' row in the audit log.
    No branch executes anything. *)
Lemma processPending_expires_by_age (row : PendingApprovalRow) (t : Z) (w : World) :
  healthy w -> chain_locked w = false ->
  w_pending w !! pa_requestId row = Some row -> pa_executingAt row = None ->
  let rid := pa_requestId row in
  let behavior := default Discard (getToolDefinition (pa_toolName row) ≫= td_timeoutBehavior) in
  let age := t - pa_createdAt row in
  let w' := (run (Timeout.processPending row t) w).1 in
  (run (Timeout.processPending row t) w).2 = inr tt /\
  w_execs w' = w_execs w /\
  if 24 * 3600000 <=? age then
    w_pending w' = delete rid (w_pending w) /\
    w_events w' = w_events w ++
      match behavior with
      | Discard => [] | Escalate => [HITL_APPROVAL_ABANDONED_EVENT rid (pa_toolName row)] end /\
    exists arow, audit_log (w_audit w') = audit_log (w_audit w) ++ [arow] /\
      al_content arow = logged (timeout_row rid (pa_toolName row) (pa_inputsHash row)
        match behavior with Discard => "timeout" | Escalate => "abandoned" end) (clock (w_sys w))
  else if (12 * 3600000 <=? age) && bool_decide (behavior = Escalate) && is_null (pa_escalatedAt row)
  then
    w_pending w' = <[rid := set_escalated t row]> (w_pending w) /\
    w_events w' = w_events w ++ [HITL_APPROVAL_ESCALATED_EVENT rid (pa_toolName row)] /\
    w_audit w' = w_audit w
  else w' = w.
Proof.
  intros Hw Hl Hr Hn. cbv zeta. unfold Timeout.processPending. rewrite Hn. cbv zeta.
  set (behavior := default Discard _). unfold decideTimeoutOutcome, APPROVAL_TTL_MS, ESCALATION_WARNING_MS.
  change (24 * 60 * 60 * 1000) with (24 * 3600000). change (12 * 60 * 60 * 1000) with (12 * 3600000).
  rewrite Bool.negb_involutive.
  destruct behavior; destruct (24 * 3600000 <=? t - pa_createdAt row).
  - destruct (run_claim_and_remove row "timeout" w)
      as (w1 & w' & arow & Hk & Hrm & Hp & Hlog & Hrow & He & Hx); [done..|].
    rewrite Hk, Hrm. cbn. rewrite app_nil_r. splits; eauto.
  - rewrite andb_false_r. done.
  - destruct (run_claim_and_remove row "abandoned" w)
      as (w1 & w' & arow & Hk & Hrm & Hp & Hlog & Hrow & He & Hx); [done..|].
    rewrite Hk, run_bind, Hrm, run_emit. cbn. rewrite He. splits; eauto.
  - rewrite bool_decide_true, andb_true_r by done. destruct (_ && _); [|done].
    rewrite run_bind, run_db_ok, (update_pending_hit _ _ _ _ row), run_emit by done. by splits.
Qed.
End Properties.

(** ** Approvals *)

(** A row whose first approval is set is never seen unapproved again. *)
Definition first_settled (rid : string) (w : World) : Prop :=
  forall r, w_pending w !! rid = Some r -> pa_firstApprovedAt r <> None.

(** The recursion of [recordApproval] after a lost race is at most one call
    deep: run among programs that never clear a first approval, it never needs a
    third call. *)
Lemma recordApproval_recurses_once (rid approver : string) (t : Z) :
  follows (fun (settled : bool) w => settled = true -> first_settled rid w)
          (fun settled w w' settled' =>
             (settled = true -> settled' = true) /\ (settled' = true -> first_settled rid w'))
          false (DualConfirm.recordApproval_rec 2 rid approver t)
          (fun _ r => r <> inl (PlainError "Maximum call stack size exceeded")).
Proof.
  cbn [DualConfirm.recordApproval_rec]. intros w _. exists false. split; [done|].
  unfold db_act. destruct (faulty w); [done|]. cbn.
  destruct (w_pending w !! rid) as [row|]; [|done].
  unfold parsePendingLevel. destruct (String.eqb _ _); [done|]. destruct (String.eqb _ _); [|done].
  cbn. destruct (pa_firstApprovedAt row); [by destruct (negb _)|].
  intros w2 _. unfold db_act. destruct (faulty w2); [by exists false|].
  unfold update_pending. change (w_pending (tick w2)) with (w_pending w2).
  destruct (w_pending w2 !! rid) as [row2|] eqn:E2; [destruct (pa_firstApprovedAt row2) eqn:F2|].
  2: { by exists false. }
  all: exists true; cbn; rewrite ?F2; split.
  1,3: split; [done|]; intros _ r Hr; cbn in Hr; congruence.
  all: intros w3 Hs; exists true; specialize (Hs eq_refl); unfold db_act.
  all: destruct (faulty w3); [by split|]; split; [by split|]; cbn.
  all: destruct (w_pending w3 !! rid) as [row3|] eqn:E3; [|done].
  all: unfold parsePendingLevel; destruct (String.eqb _ _); [done|]; destruct (String.eqb _ _); [|done].
  all: cbn; destruct (pa_firstApprovedAt row3) eqn:F3; [by destruct (negb _)|].
  all: by apply Hs in E3.
Qed.

(** 'dual-confirm': the first approval only arms the timer; a second one is
    refused with [SecondApprovalTooEarlyError] until 30 s have passed since the
    first, whoever gives it, and accepted from then on; no call changes anything
    but the first-approval columns. *)
Lemma second_approval_waits_30_seconds (rid approver1 approver2 : string) (t2 : Z)
    (row : PendingApprovalRow) (w : World) :
  healthy w -> w_pending w !! rid = Some row -> pa_level row = "dual-confirm" ->
  pa_firstApprovedAt row = None ->
  exists w1 w2,
    run (DualConfirm.recordApproval rid approver1) w = (w1, inr awaiting_second) /\
    w_pending w1 = <[rid := set_first_approval (clock (w_sys w)) approver1
                             (clock (w_sys w) + 30000) row]> (w_pending w) /\
    run (DualConfirm.recordApproval rid approver2) (advance t2 w1) =
      (w2, if t2 <? clock (w_sys w) + 30000
           then inl (SecondApprovalTooEarlyError rid (clock (w_sys w) + 30000))
           else inr resolved) /\
    w_pending w2 = w_pending w1 /\ w_execs w2 = w_execs w.
Proof.
  intros Hw Hr Hl Hn. unfold DualConfirm.recordApproval. cbn [DualConfirm.recordApproval_rec].
  rewrite run_bind, run_now, run_bind, run_getPending, Hr by done. unfold parsePendingLevel. rewrite Hl.
  cbn [String.eqb Ascii.eqb Bool.eqb bind]. rewrite Hn, run_bind, run_db_ok by done.
  rewrite (update_pending_hit _ _ _ _ row) by (cbn; rewrite ?Hn; done). cbn [run].
  eexists _, _. split; [done|]. split; [done|].
  rewrite run_bind, run_now, run_bind, run_getPending by done. cbn. rewrite lookup_insert_eq. cbn.
  rewrite Hl. cbn [String.eqb Ascii.eqb Bool.eqb bind pa_firstApprovedAt]. cbn.
  unfold canAcceptSecondApproval, computeAvailableAt, DUAL_CONFIRM_DELAY_MS.
  rewrite Z.leb_antisym, Bool.negb_involutive. by destruct (t2 <? _).
Qed.

(** ** Concrete runs *)

Module HitlExamples.
Definition input (tool : string) (level : HitlLevel) (id : string) : CreatePendingApprovalInput := {|
  cpa_requestId := id; cpa_toolName := tool; cpa_level := level;
  cpa_inputsHash := "h"; cpa_planSummary := None; cpa_payload := Some (JStr "body");
  cpa_actor := Some "web-chat"; cpa_externalInputsSummary := None |}.

(** A pending row of [tool], created at time 0. *)
Definition pending_row (tool : string) (level : HitlLevel) : PendingApprovalRow :=
  new_pending_row (input tool level (uuid_string 0)) 0.

Definition pending (tool : string) (level : HitlLevel) (t : Z) : World :=
  upd_pending (insert (uuid_string 0) (pending_row tool level)) (empty_world t).

Lemma pending_healthy tool level t : healthy (pending tool level t).
Proof. done. Qed.
End HitlExamples.

Lemma createPendingApproval_leaves_a_trace_witness :
  let input := HitlExamples.input "sendEmail" Confirm "req-1" in
  (run (@DualConfirm.createPendingApproval (@auditService toy_crypto) input) (empty_world 5)).2 =
  inr tt.
Proof.
  destruct (@createPendingApproval_leaves_a_trace (@auditService toy_crypto)
    (@auditService_laws toy_crypto) (HitlExamples.input "sendEmail" Confirm "req-1") (empty_world 5)
    ltac:(done) ltac:(done)) as (_ & _ & Hr & _).
  exact Hr.
Defined.

(** After 24 hours, an email nobody approved is gone. *)
Lemma processPending_expires_by_age_witness :
  let row := HitlExamples.pending_row "sendEmail" Confirm in
  let w := HitlExamples.pending "sendEmail" Confirm 86400000 in
  w_execs (run (@Timeout.processPending (@auditService toy_crypto) row 86400000) w).1 = [].
Proof.
  exact (proj1 (proj2 (@processPending_expires_by_age (@auditService toy_crypto)
    (@auditService_laws toy_crypto) (HitlExamples.pending_row "sendEmail" Confirm) 86400000
    (HitlExamples.pending "sendEmail" Confirm 86400000)
    ltac:(done) ltac:(done) ltac:(done) ltac:(done)))).
Defined.

Lemma second_approval_waits_30_seconds_witness :
  exists w1 w2,
    run (DualConfirm.recordApproval (uuid_string 0) "owner")
      (HitlExamples.pending "setHitlOverride" DualConfirm 1000) = (w1, inr awaiting_second) /\
    run (DualConfirm.recordApproval (uuid_string 0) "owner") (advance 30999 w1) =
      (w2, inl (SecondApprovalTooEarlyError (uuid_string 0) 31000)).
Proof.
  destruct (second_approval_waits_30_seconds (uuid_string 0) "owner" "owner" 30999
    (HitlExamples.pending_row "setHitlOverride" DualConfirm)
    (HitlExamples.pending "setHitlOverride" DualConfirm 1000)) as (w1 & w2 & H1 & _ & H2 & _);
    [done..|]. by exists w1, w2.
Defined.
