(* ===== verification/Approval.v ===== *)
(** * Approval: from a human decision to one execution

    [src/hitl/approval-execution.service.ts] and the handlers of
    [src/hitl/hitl.controller.ts]. *)
From S2P Require Import Prelude Effects Js Registry Store AuditApi AuditLog Hitl.
Local Open Scope stdpp_scope.
Local Open Scope Z_scope.
Local Open Scope jin_scope.

Inductive ResolveAndExecuteResult :=
| ResolveAndExecuteAwaitingSecond
| ResolveAndExecuteResolved (toolName : string) (result : json).

Module ApprovalExecution.
Section Service.
Context `{Api : AuditApi} (executors : ToolExecutorRegistry).

(** [resolveAndExecute] from the claim on: only one call gets here. *)
Definition executeClaimed (requestId approver : string) (claimed : PendingApprovalRow) :
    jin ResolveAndExecuteResult :=
  try_with (audit_approval requestId approver (pa_toolName claimed) (pa_inputsHash claimed))
    (fun _ => Ret tt)
    (fun err =>
       DualConfirm.releaseClaim requestId
         (Some ("audit falló antes de ejecutar: " +:+ messageOf err)) ;;;
       Throw err) ;;;
  result <- catch
    (execute executors (pa_toolName claimed) (pa_payload claimed) (Some requestId))
    (fun err =>
       DualConfirm.releaseClaim requestId (Some (messageOf err)) ;;;
       try_with (audit_executionFailure requestId (pa_toolName claimed) (pa_inputsHash claimed))
         (fun _ => Ret tt) (fun _ => Ret tt) ;;;
       Throw err) ;;
  catch (DualConfirm.removePending requestId) (fun _ => Ret tt) ;;;
  Ret (ResolveAndExecuteResolved (pa_toolName claimed) result).

Definition resolveAndExecute (requestId approver : string) : jin ResolveAndExecuteResult :=
  pending <- DualConfirm.getPending requestId ;;
  match pending with
  | None => Throw (PendingApprovalNotFoundError requestId)
  | Some _ =>
      outcome <- DualConfirm.recordApproval requestId approver ;;
      match outcome with
      | awaiting_second => Ret ResolveAndExecuteAwaitingSecond
      | resolved =>
          claimed <- DualConfirm.claimForExecution requestId ;;
          match claimed with
          | None => Throw (ApprovalAlreadyResolvedError requestId)
          | Some claimed => executeClaimed requestId approver claimed
          end
      end
  end.

Definition resolveRejection (requestId approver : string) : jin unit :=
  pending <- DualConfirm.getPending requestId ;;
  match pending with
  | None => Throw (PendingApprovalNotFoundError requestId)
  | Some pending =>
      claimed <- DualConfirm.claimForExecution requestId ;;
      match claimed with
      | None =>
          t <- now ;;
          let isStuck :=
            match pa_executingAt pending with
            | Some executingSince => STUCK_CLAIM_AFTER_MS <? t - executingSince
            | None => false
            end in
          if negb isStuck then Throw (ApprovalAlreadyResolvedError requestId)
          else
            audit_rejection requestId approver (pa_toolName pending) (pa_inputsHash pending) ;;;
            DualConfirm.removeIfNotExecuting requestId ;;;
            Ret tt
      | Some claimed =>
          try_with (audit_rejection requestId approver (pa_toolName claimed)
                      (pa_inputsHash claimed))
            (fun _ => Ret tt)
            (fun err => DualConfirm.releaseClaim requestId None ;;; Throw err) ;;;
          DualConfirm.removePending requestId
      end
  end.
End Service.
End ApprovalExecution.

(** ** hitl.controller.ts *)

Definition APPROVER : string := "owner".

Module HitlController.
Section Handlers.
Context `{Api : AuditApi} (executors : ToolExecutorRegistry).

Definition listPending : jin (list PendingApprovalRow) := DualConfirm.listPending.
Definition approve (requestId : string) : jin ResolveAndExecuteResult :=
  ApprovalExecution.resolveAndExecute executors requestId APPROVER.
Definition reject (requestId : string) : jin unit :=
  ApprovalExecution.resolveRejection requestId APPROVER.
End Handlers.
End HitlController.

(** ** Running a decision *)

(** A registered executor whose promise always settles as [r], on a store it
    leaves healthy and with the same approvals, trace and log. *)
Definition settles (ex : ToolExecutor) (payload : json) (rid : string) (r : JinError + json) : Prop :=
  forall w, healthy w -> exists w',
    run (ex payload (Some rid)) w = (w', r) /\ healthy w' /\
    w_pending w' = w_pending w /\ w_execs w' = w_execs w /\
    w_audit w' = w_audit w /\ clock (w_sys w) <= clock (w_sys w').

Section Runs.
Context `{Laws : AuditApiLaws} (executors : ToolExecutorRegistry).

Lemma run_recordApproval_confirm rid approver row w :
  healthy w -> w_pending w !! rid = Some row -> pa_level row = "confirm" ->
  run (DualConfirm.recordApproval rid approver) w = (tick w, inr resolved).
Proof.
  intros Hw Hr Hl. unfold DualConfirm.recordApproval. cbn [DualConfirm.recordApproval_rec].
  rewrite run_bind, run_now, run_bind, run_getPending, Hr by done.
  unfold parsePendingLevel. by rewrite Hl.
Qed.

(** The row as [claimForExecution] leaves and returns it. *)
Definition claimed_row (w : World) (row : PendingApprovalRow) : PendingApprovalRow :=
  set_execution (Some (clock (w_sys w))) None row.
Definition claimed_store (rid : string) (row : PendingApprovalRow) (w : World) : World :=
  upd_pending (insert rid (claimed_row w row)) (tick (tick (tick w))).

Lemma run_resolve_confirm rid approver row w :
  healthy w -> w_pending w !! rid = Some row -> pa_level row = "confirm" ->
  pa_executingAt row = None ->
  run (ApprovalExecution.resolveAndExecute executors rid approver) w =
  run (ApprovalExecution.executeClaimed executors rid approver (claimed_row w row))
      (claimed_store rid row w).
Proof.
  intros Hw Hr Hl Hn. unfold ApprovalExecution.resolveAndExecute.
  rewrite run_bind, run_getPending, Hr by done.
  rewrite run_bind, (run_recordApproval_confirm _ _ row) by done.
  rewrite run_bind, run_claim by done.
  by rewrite (update_pending_hit _ _ _ _ row) by (cbn; rewrite ?Hn; done).
Qed.

(** The audit of the intention, before anything executes. *)
Lemma run_executeClaimed_audited rid approver claimed w :
  healthy w -> chain_locked w = false ->
  exists w1 arow,
    audit_log (w_audit w1) = audit_log (w_audit w) ++ [arow] /\
    al_content arow = logged
      (approval_row rid approver (pa_toolName claimed) (pa_inputsHash claimed)) (clock (w_sys w)) /\
    outside_audit w1 = outside_audit w /\ chain_locked w1 = false /\
    run (ApprovalExecution.executeClaimed executors rid approver claimed) w =
    run (result <- catch
           (execute executors (pa_toolName claimed) (pa_payload claimed) (Some rid))
           (fun err =>
              DualConfirm.releaseClaim rid (Some (messageOf err)) ;;;
              try_with (audit_executionFailure rid (pa_toolName claimed) (pa_inputsHash claimed))
                (fun _ => Ret tt) (fun _ => Ret tt) ;;;
              Throw err) ;;
         catch (DualConfirm.removePending rid) (fun _ => Ret tt) ;;;
         Ret (ResolveAndExecuteResolved (pa_toolName claimed) result)) w1.
Proof.
  intros Hw Hl. unfold ApprovalExecution.executeClaimed.
  destruct (appends_ok _ _ w (audit_approval_appends rid approver (pa_toolName claimed)
    (pa_inputsHash claimed)) Hw Hl) as (w1 & arow & Hrun & Hlog & Hrow & Ho & Hl1).
  exists w1, arow. splits; try done. rewrite run_bind, run_try_with, Hrun. done.
Qed.

Lemma run_execute tool payload rid ex r w :
  executors !! tool = Some ex -> settles ex payload rid r -> healthy w ->
  exists w', run (execute executors tool payload (Some rid)) w = (w', r) /\ healthy w' /\
    w_pending w' = w_pending w /\ w_audit w' = w_audit w /\
    clock (w_sys w) <= clock (w_sys w') /\
    w_execs w' = w_execs w ++ [ExecStart rid tool payload;
      match r with inr _ => ExecOk rid tool | inl _ => ExecFail rid tool end].
Proof.
  intros He Hs Hw. unfold execute. rewrite He. cbv zeta. change (default "" (Some rid)) with rid. rewrite run_bind, run_observe, run_try_with.
  destruct (Hs (upd_execs (fun l => l ++ [ExecStart rid tool payload]) w) Hw)
    as (w1 & -> & Hw1 & Hp & Hx & Ha & Hc).
  destruct r as [e|res]; rewrite run_bind, run_observe; cbn; eexists; split; try done;
    cbn in *; rewrite Hx, <- app_assoc; by splits.
Qed.
End Runs.

(** ** Decisions as sequences of statements

    The relations between stores that every statement of a rejection or of an expiry
    of [r] respects: what holds of these statements holds of their programs. *)
Record decision_frame (R : World -> World -> Prop) (r : string) : Prop := {
  frame_preorder : PreOrder R;
  frame_audit w w' : audit_only w w' -> R w w';
  frame_emit e w : R w (upd_events (fun l => l ++ [e]) w);
  frame_execution cond t err w : R w (update_pending r cond (set_execution t err) w).1;
  frame_escalation cond t w : R w (update_pending r cond (set_escalated t) w).1;
  frame_delete cond w : R w (delete_pending r cond w).1
}.

Section Frames.
Context `{Laws : AuditApiLaws} (R : World -> World -> Prop).

Lemma steps_frame_db {X} r (f : World -> World * X) :
  decision_frame R r -> (forall w, R w (f w).1) -> steps R (db f).
Proof.
  intros F Hf. assert (Ht : forall w, R w (tick w)) by (intros w; by eapply frame_audit).
  destruct (frame_preorder _ _ F) as [_ Htr].
  apply steps_db; [done|]. intros w. eapply Htr; [apply Ht|apply Hf].
Qed.

Lemma steps_frame_read {X} r (f : World -> X) : decision_frame R r -> steps R (db_read f).
Proof. intros F. apply (steps_frame_db r _ F). intros w. by apply frame_preorder in F as []. Qed.

Lemma steps_frame_now r : decision_frame R r -> steps R now.
Proof. intros F. split; [|done]. intros w. by apply frame_preorder in F as []. Qed.

Lemma steps_frame_emit r e : decision_frame R r -> steps R (emit e).
Proof. intros F. split; [|done]. intros w. apply (frame_emit _ _ F). Qed.

Lemma steps_frame_appends r data p : decision_frame R r -> appends data p -> steps R p.
Proof. intros F [H _ _ _ _]. eapply steps_mono; [|exact H]. intros w w'. by eapply frame_audit. Qed.

Lemma steps_frame_claim r : decision_frame R r -> steps R (DualConfirm.claimForExecution r).
Proof.
  intros F. apply steps_bind; [by eapply steps_frame_now|]. intros t.
  apply (steps_frame_db r _ F), frame_execution, F.
Qed.

Lemma steps_frame_release r err : decision_frame R r -> steps R (DualConfirm.releaseClaim r err).
Proof. intros F. apply steps_bind; [|done]. apply (steps_frame_db r _ F), frame_execution, F. Qed.

Lemma steps_frame_removePending r : decision_frame R r -> steps R (DualConfirm.removePending r).
Proof. intros F. apply steps_bind; [|done]. apply (steps_frame_db r _ F), frame_delete, F. Qed.

Lemma steps_frame_removeIfNotExecuting r :
  decision_frame R r -> steps R (DualConfirm.removeIfNotExecuting r).
Proof.
  intros F. apply steps_bind; [by eapply steps_frame_now|]. intros t.
  apply (steps_frame_db r _ F). intros w. apply (frame_delete _ _ F).
Qed.

Lemma steps_frame_resolveRejection r approver :
  decision_frame R r -> steps R (ApprovalExecution.resolveRejection r approver).
Proof.
  intros F. apply steps_bind; [by eapply steps_frame_read|]. intros [row|]; [|done].
  apply steps_bind; [by apply steps_frame_claim|]. intros [c|].
  - apply steps_bind; [|intros; by apply steps_frame_removePending].
    apply steps_try_with; [eapply (steps_frame_appends r), audit_rejection_appends; done|done|].
    intros e. apply steps_bind; [by apply steps_frame_release|done].
  - apply steps_bind; [by eapply steps_frame_now|]. intros t. cbv zeta. destruct (negb _); [done|].
    apply steps_bind; [eapply (steps_frame_appends r), audit_rejection_appends; done|]. intros _.
    apply steps_bind; [by apply steps_frame_removeIfNotExecuting|done].
Qed.

Lemma steps_frame_processPending row t :
  decision_frame R (pa_requestId row) -> steps R (Timeout.processPending row t).
Proof.
  intros F. assert (Hc : forall st, steps R (Timeout.claimAndAuditTimeout row st)).
  { intros st. apply steps_bind; [by apply steps_frame_claim|]. intros [c|]; [|done].
    apply steps_try_with; [eapply (steps_frame_appends _ _ _ F), audit_timeout_appends|done|].
    intros e. apply steps_bind; [by apply steps_frame_release|done]. }
  unfold Timeout.processPending. destruct (pa_executingAt row).
  { case_match; [by eapply steps_frame_emit|done]. }
  destruct (decideTimeoutOutcome _ _ _ _); [done|..].
  - apply steps_bind; [apply Hc|]. intros []; [by apply steps_frame_removePending|done].
  - apply steps_bind; [|intros; by eapply steps_frame_emit].
    apply (steps_frame_db _ _ F), frame_escalation, F.
  - apply steps_bind; [apply Hc|]. intros []; [|done].
    apply steps_bind; [by apply steps_frame_removePending|intros; by eapply steps_frame_emit].
Qed.

Lemma steps_frame_sweep : (forall r, decision_frame R r) -> steps R Timeout.sweep.
Proof.
  intros F. apply steps_bind; [by apply (steps_frame_now "")|]. intros t.
  apply steps_bind; [by apply (steps_frame_read "")|].
  intros rows. apply steps_for_each. intros row. by apply steps_frame_processPending.
Qed.

(** A decision to approve, given what its executor and a first approval do. *)
Lemma steps_recordApproval `{!PreOrder R} r approver :
  (forall w, R w (tick w)) ->
  (forall cond t a available w, R w (update_pending r cond (set_first_approval t a available) w).1) ->
  steps R (DualConfirm.recordApproval r approver).
Proof.
  intros Ht Hfirst. apply steps_bind; [by split|]. intros t. generalize 2%nat as fuel.
  induction fuel as [|fuel IH]; cbn [DualConfirm.recordApproval_rec]; [done|].
  apply steps_bind; [by apply steps_db|]. intros [row|]; [|done].
  apply steps_bind; [unfold parsePendingLevel; by repeat case_match|].
  intros lvl. assert (steps R (won <- db (update_pending r (fun r => is_null (pa_firstApprovedAt r))
    (set_first_approval t approver (computeAvailableAt t))) ;;
    match won with Some _ => Ret awaiting_second
    | None => DualConfirm.recordApproval_rec fuel r approver t end)).
  { apply steps_bind; [|by intros [|]]. apply steps_db; [done|]. intros w. etrans; [apply Ht|apply Hfirst]. }
  destruct lvl; [..|done|]; (destruct (pa_firstApprovedAt row); [by case_match|done]).
Qed.

Lemma steps_frame_resolveAndExecute executors r approver :
  decision_frame R r ->
  (forall cond t a available w, R w (update_pending r cond (set_first_approval t a available) w).1) ->
  (forall tool payload, steps R (execute executors tool payload (Some r))) ->
  steps R (ApprovalExecution.resolveAndExecute executors r approver).
Proof.
  intros F Hfirst Hex. apply steps_bind; [by eapply steps_frame_read|]. intros [row|]; [|done].
  apply steps_bind.
  { pose proof (frame_preorder _ _ F). apply steps_recordApproval; [|done]. intros w. by eapply frame_audit. }
  intros [|]; [|done].
  apply steps_bind; [by apply steps_frame_claim|]. intros [c|]; [|done].
  apply steps_bind.
  { apply steps_try_with; [eapply (steps_frame_appends r), audit_approval_appends; done|done|].
    intros e. apply steps_bind; [by apply steps_frame_release|done]. }
  intros _. apply steps_bind.
  - apply steps_catch; [apply Hex|]. intros e.
    apply steps_bind; [by apply steps_frame_release|]. intros _. apply steps_bind; [|done].
    apply steps_try_with; [eapply (steps_frame_appends r), audit_executionFailure_appends; done|done..].
  - intros res. apply steps_bind; [|done]. apply steps_catch; [by apply steps_frame_removePending|done].
Qed.
End Frames.

(** ** Properties *)

Section Properties.
Context `{Laws : AuditApiLaws} (executors : ToolExecutorRegistry).

(** Approving a 'confirm' action that nobody has claimed executes it once:
    the approval of the owner is recorded, the executor runs on the stored
    payload, the pending row disappears and the result is returned. *)
Lemma approval_executes_the_stored_action (rid approver : string) (row : PendingApprovalRow)
    (ex : ToolExecutor) (res : json) (w : World) :
  healthy w -> chain_locked w = false ->
  w_pending w !! rid = Some row -> pa_level row = "confirm" -> pa_executingAt row = None ->
  executors !! pa_toolName row = Some ex -> settles ex (pa_payload row) rid (inr res) ->
  exists w' arow,
    run (ApprovalExecution.resolveAndExecute executors rid approver) w =
      (w', inr (ResolveAndExecuteResolved (pa_toolName row) res)) /\
    w_pending w' = delete rid (w_pending w) /\
    w_execs w' = w_execs w ++
      [ExecStart rid (pa_toolName row) (pa_payload row); ExecOk rid (pa_toolName row)] /\
    audit_log (w_audit w') = audit_log (w_audit w) ++ [arow] /\
    al_content arow = logged
      (approval_row rid approver (pa_toolName row) (pa_inputsHash row)) (clock (w_sys w)).
Proof.
  intros Hw Hl Hr Hc Hn He Hs. rewrite (run_resolve_confirm _ _ _ row) by done.
  destruct (run_executeClaimed_audited executors rid approver (claimed_row w row)
    (claimed_store rid row w) Hw Hl) as (w1 & arow & Hlog & Hrow & Ho & Hl1 & ->). outside Ho.
  rewrite run_bind, run_catch.
  destruct (run_execute executors (pa_toolName row) (pa_payload row) rid ex (inr res) w1)
    as (w2 & Hrun & Hw2 & Hp2 & Ha2 & _ & Hx2); [done..|by eapply healthy_outside|].
  cbn [claimed_row set_execution pa_toolName pa_payload] in *. rewrite Hrun.
  rewrite run_bind, run_catch, run_remove by done.
  assert (Hrow2 : w_pending (tick w2) !! rid = Some (claimed_row w row)).
  { change (w_pending (tick w2)) with (w_pending w2). rewrite Hp2, Hpending. apply lookup_insert_eq. }
  rewrite (delete_pending_hit _ _ _ _ Hrow2 eq_refl). cbn [run fst].
  eexists _, arow. split; [done|]. cbn. rewrite Hp2, Hx2, Ha2, Hpending, Hexecs. cbn.
  splits; [apply delete_insert_eq|done|exact Hlog|exact Hrow].
Qed.

(** When the executor fails, the approval is not consumed and nothing is
    retried: the row is free again and shows the error, both the approval and
    the failure are in the audit log, and the caller gets the executor's error. *)
Lemma failed_execution_returns_the_approval (rid approver : string) (row : PendingApprovalRow)
    (ex : ToolExecutor) (err : JinError) (w : World) :
  healthy w -> chain_locked w = false ->
  w_pending w !! rid = Some row -> pa_level row = "confirm" -> pa_executingAt row = None ->
  executors !! pa_toolName row = Some ex -> settles ex (pa_payload row) rid (inl err) ->
  exists w' arow frow t,
    run (ApprovalExecution.resolveAndExecute executors rid approver) w = (w', inl err) /\
    w_pending w' = <[rid := set_execution None (Some (messageOf err)) row]> (w_pending w) /\
    w_execs w' = w_execs w ++
      [ExecStart rid (pa_toolName row) (pa_payload row); ExecFail rid (pa_toolName row)] /\
    audit_log (w_audit w') = audit_log (w_audit w) ++ [arow; frow] /\
    al_content arow = logged
      (approval_row rid approver (pa_toolName row) (pa_inputsHash row)) (clock (w_sys w)) /\
    al_content frow = logged
      (execution_failure_row rid (pa_toolName row) (pa_inputsHash row)) t.
Proof.
  intros Hw Hl Hr Hc Hn He Hs. rewrite (run_resolve_confirm _ _ _ row) by done.
  destruct (run_executeClaimed_audited executors rid approver (claimed_row w row)
    (claimed_store rid row w) Hw Hl) as (w1 & arow & Hlog & Hrow & Ho & Hl1 & ->). outside Ho.
  rewrite run_bind, run_catch.
  destruct (run_execute executors (pa_toolName row) (pa_payload row) rid ex (inl err) w1)
    as (w2 & Hrun & Hw2 & Hp2 & Ha2 & _ & Hx2); [done..|by eapply healthy_outside|].
  cbn [claimed_row set_execution pa_toolName pa_payload pa_inputsHash] in *. rewrite Hrun.
  rewrite run_bind, run_release by done.
  assert (Hrow2 : w_pending (tick w2) !! rid = Some (claimed_row w row)).
  { change (w_pending (tick w2)) with (w_pending w2). rewrite Hp2, Hpending. apply lookup_insert_eq. }
  rewrite (update_pending_hit _ _ _ _ _ Hrow2 eq_refl). cbn [fst].
  set (w3 := upd_pending _ (tick w2)).
  assert (Hl3 : chain_locked w3 = false) by (unfold chain_locked in *; cbn; by rewrite Ha2).
  rewrite run_bind, run_try_with.
  destruct (appends_ok _ _ w3 (audit_executionFailure_appends rid (pa_toolName row)
    (pa_inputsHash row)) Hw2 Hl3) as (w4 & frow & -> & Hlog4 & Hrow4 & Ho4 & _).
  pose proof Ho4 as [= _ _ _ Hp4 _ _ _ _ _ _ Hx4 _ _]. cbn [run].
  eexists w4, arow, frow, _. split; [done|]. rewrite Hp4, Hx4, Hlog4. cbn.
  rewrite Hp2, Hx2, Ha2, Hpending, Hexecs, Hlog, <- app_assoc. cbn.
  splits; [|done|done|exact Hrow|exact Hrow4]. by rewrite insert_insert_eq.
Qed.

(** Fail closed: with the audit chain locked, an approval executes nothing;
    the caller gets [AuditChainLockedError] and the row stays, unclaimed, with
    the reason. *)
Lemma locked_audit_blocks_execution (rid approver : string) (row : PendingApprovalRow) (w : World) :
  healthy w -> chain_locked w = true ->
  w_pending w !! rid = Some row -> pa_level row = "confirm" -> pa_executingAt row = None ->
  exists w',
    run (ApprovalExecution.resolveAndExecute executors rid approver) w =
      (w', inl AuditChainLockedError) /\
    w_execs w' = w_execs w /\ audit_log (w_audit w') = audit_log (w_audit w) /\
    w_pending w' = <[rid := set_execution None (Some ("audit falló antes de ejecutar: " +:+
                             messageOf AuditChainLockedError)) row]> (w_pending w).
Proof.
  intros Hw Hl Hr Hc Hn. rewrite (run_resolve_confirm _ _ _ row) by done.
  unfold ApprovalExecution.executeClaimed. cbn [claimed_row set_execution pa_toolName pa_inputsHash].
  destruct (appends_fails _ _ (claimed_store rid row w) (audit_approval_appends rid approver
    (pa_toolName row) (pa_inputsHash row)) Hw Hl) as (w1 & Hrun & Hlog & Ho & _). outside Ho.
  rewrite run_bind, run_try_with, Hrun, run_bind, run_release by (by eapply healthy_outside).
  assert (Hrow1 : w_pending (tick w1) !! rid = Some (claimed_row w row)).
  { change (w_pending (tick w1)) with (w_pending w1). rewrite Hpending. apply lookup_insert_eq. }
  rewrite (update_pending_hit _ _ _ _ _ Hrow1 eq_refl). cbn [run fst].
  eexists. split; [done|]. cbn. rewrite Hpending. cbn.
  splits; [exact Hexecs|exact Hlog|by rewrite insert_insert_eq].
Qed.

(** A decision that resolves had what its level requires. *)
Lemma run_recordApproval_resolved rid approver w w' :
  run (DualConfirm.recordApproval rid approver) w = (w', inr resolved) ->
  exists row, w_pending w !! rid = Some row /\
    (pa_level row = "confirm" \/
     pa_level row = "dual-confirm" /\ exists t1, pa_firstApprovedAt row = Some t1 /\
       default (t1 + 30000) (pa_availableAt row) <= clock (w_sys w)).
Proof.
  unfold DualConfirm.recordApproval. cbn [DualConfirm.recordApproval_rec].
  rewrite run_bind, run_now, run_bind. unfold DualConfirm.getPending, db_read. rewrite run_db.
  destruct (faulty w); [done|]. change (w_pending (tick w)) with (w_pending w).
  destruct (w_pending w !! rid) as [row|] eqn:Er; [|done]. intros H. exists row. split; [done|].
  revert H. unfold parsePendingLevel.
  destruct (String.eqb_spec (pa_level row) "confirm"); [by left|].
  destruct (String.eqb_spec (pa_level row) "dual-confirm"); [|done].
  cbn [bind]. destruct (pa_firstApprovedAt row) as [t1|] eqn:E1.
  - unfold canAcceptSecondApproval, computeAvailableAt, DUAL_CONFIRM_DELAY_MS. intros H.
    right. split; [done|]. exists t1. split; [done|].
    destruct (Z.leb_spec (default (t1 + 30000) (pa_availableAt row)) (clock (w_sys w))); [done|].
    exfalso. revert H. cbn [negb]. done.
  - rewrite run_bind, run_db. destruct (faulty (tick w)); [done|].
    rewrite (update_pending_hit _ _ _ _ row) by (cbn; rewrite ?E1; done). done.
Qed.

Definition same_trace (w w' : World) : Prop := w_execs w' = w_execs w.

#[export] Instance same_trace_preorder : PreOrder same_trace.
Proof. split; [done|]. intros w1 w2 w3 H1 H2. unfold same_trace in *. congruence. Qed.

Lemma same_trace_update rid cond f w : same_trace w (update_pending rid cond f w).1.
Proof. unfold same_trace, update_pending. by repeat case_match. Qed.

Lemma same_trace_frame rid : decision_frame same_trace rid.
Proof.
  split; try apply _; try done.
  - by intros w w' [[= _ _ _ _ _ _ _ _ _ _ He _ _] _].
  - intros. apply same_trace_update.
  - intros. apply same_trace_update.
  - intros cond w. unfold same_trace, delete_pending. by repeat case_match.
Qed.

Lemma steps_trace_recordApproval rid approver :
  steps same_trace (DualConfirm.recordApproval rid approver).
Proof. apply (steps_recordApproval same_trace); [done|]. intros. apply same_trace_update. Qed.

(** Nothing executes without the approvals its level requires: if a call of
    [resolveAndExecute] changes the trace of executions, whatever fails during
    it, the row was 'confirm', or it was 'dual-confirm' with a first approval
    whose 30 s are over. *)
Lemma execution_requires_its_approvals (rid approver : string) (w : World) :
  w_execs (run (ApprovalExecution.resolveAndExecute executors rid approver) w).1 <> w_execs w ->
  exists row, w_pending w !! rid = Some row /\
    (pa_level row = "confirm" \/
     pa_level row = "dual-confirm" /\ exists t1, pa_firstApprovedAt row = Some t1 /\
       default (t1 + 30000) (pa_availableAt row) <= clock (w_sys w)).
Proof.
  unfold ApprovalExecution.resolveAndExecute. rewrite run_bind.
  unfold DualConfirm.getPending, db_read. rewrite run_db. destruct (faulty w); [done|].
  change (w_pending (tick w)) with (w_pending w). destruct (w_pending w !! rid) eqn:Er; [|done].
  rewrite run_bind. destruct (run (DualConfirm.recordApproval rid approver) (tick w))
    as [w1 r1] eqn:E1.
  pose proof (steps_run same_trace _ (tick w) (steps_trace_recordApproval rid approver)) as Ht.
  rewrite E1 in Ht. unfold same_trace in Ht. cbn in Ht.
  destruct r1 as [e|[|]]; [by intros []|intros _|by intros []].
  pose proof (run_recordApproval_resolved rid approver (tick w) w1 E1) as H.
  by rewrite <- Er.
Qed.

(** Rejections, expiries, creations and listings never execute a tool: no
    atomic step of theirs touches the trace of executions, whatever else runs. *)
Lemma only_approvals_execute (rid approver : string) (input : CreatePendingApprovalInput) :
  steps same_trace (ApprovalExecution.resolveRejection rid approver) /\
  steps same_trace Timeout.sweep /\
  steps same_trace (DualConfirm.createPendingApproval input) /\
  steps same_trace HitlController.listPending.
Proof.
  pose proof same_trace_frame as F. splits.
  - by apply steps_frame_resolveRejection.
  - by apply steps_frame_sweep.
  - apply steps_bind; [|intros _; apply steps_bind;
      [eapply (steps_frame_appends _ ""), audit_toolCall_appends; done|done]].
    apply steps_bind; [|by intros []]. apply (steps_frame_db _ ""); [done|]. intros w. by case_match.
  - by apply (steps_frame_read _ "").
Qed.

(** Rejecting: a free row is removed after its rejection is recorded; a row
    being executed is left alone and the caller gets
    [ApprovalAlreadyResolvedError]; a claim older than 15 minutes, left by a
    dead process, is recorded as rejected and removed. *)
Lemma rejection_respects_executions (rid approver : string) (row : PendingApprovalRow) (w : World) :
  healthy w -> chain_locked w = false -> w_pending w !! rid = Some row ->
  let r := run (ApprovalExecution.resolveRejection rid approver) w in
  let stuck := match pa_executingAt row with
               | Some e => STUCK_CLAIM_AFTER_MS <? clock (w_sys w) - e | None => true end in
  if stuck then
    r.2 = inr tt /\ w_pending r.1 = delete rid (w_pending w) /\
    exists arow, audit_log (w_audit r.1) = audit_log (w_audit w) ++ [arow] /\
      al_content arow = logged
        (rejection_row rid approver (pa_toolName row) (pa_inputsHash row)) (clock (w_sys w))
  else r.2 = inl (ApprovalAlreadyResolvedError rid) /\ w_pending r.1 = w_pending w /\
       w_audit r.1 = w_audit w.
Proof.
  intros Hw Hl Hr. unfold ApprovalExecution.resolveRejection. cbv zeta.
  rewrite !run_bind, run_getPending, Hr, run_bind, run_claim by done.
  destruct (pa_executingAt row) as [e|] eqn:En.
  - rewrite (update_pending_miss _ _ _ _ row) by (cbn; rewrite ?En; done).
    rewrite run_bind, run_now. change (clock (w_sys (tick (tick w)))) with (clock (w_sys w)).
    cbv zeta. destruct (STUCK_CLAIM_AFTER_MS <? clock (w_sys w) - e) eqn:Est; cbn [negb]; [|done].
    destruct (appends_ok _ _ (tick (tick w)) (audit_rejection_appends rid approver (pa_toolName row)
      (pa_inputsHash row)) Hw Hl) as (w1 & arow & Hrun & Hlog & Hrow & Ho & _).
    outside Ho. pose proof Ho as [= Hclk _ _ _ _ _ _ _ _ _ _ _ _].
    rewrite run_bind, Hrun, run_bind. unfold DualConfirm.removeIfNotExecuting.
    rewrite run_bind, run_now, run_db_ok by (by eapply healthy_outside).
    rewrite (delete_pending_hit _ _ _ row); cycle 1.
    { change (w_pending (tick w1)) with (w_pending w1). by rewrite Hpending. }
    { rewrite Hclk, En. cbn. apply Z.ltb_lt in Est. apply Z.ltb_lt. lia. }
    cbn. rewrite Hpending. splits; try done. by exists arow.
  - rewrite (update_pending_hit _ _ _ _ row) by (cbn; rewrite ?En; done).
    set (w1 := upd_pending _ (tick (tick w))). cbn [set_execution pa_toolName pa_inputsHash].
    destruct (appends_ok _ _ w1 (audit_rejection_appends rid approver (pa_toolName row)
      (pa_inputsHash row)) Hw Hl) as (w2 & arow & Hrun & Hlog & Hrow & Ho & _). outside Ho.
    rewrite run_bind, run_try_with, Hrun. cbn [run].
    rewrite run_remove by (by eapply healthy_outside).
    assert (Hh : w_pending (tick w2) !! rid = Some (claimed_row w row)).
    { change (w_pending (tick w2)) with (w_pending w2). rewrite Hpending. apply lookup_insert_eq. }
    rewrite (delete_pending_hit _ _ _ _ Hh eq_refl). cbn [fst snd].
    split; [done|]. cbn. rewrite Hpending. split; [apply delete_insert_eq|]. by exists arow.
Qed.
End Properties.

(** ** Concrete runs *)

Module ApprovalExamples.
Definition row : PendingApprovalRow := HitlExamples.pending_row "sendEmail" Confirm.
Definition store : World := HitlExamples.pending "sendEmail" Confirm 1000.

(** Sending returns an id; or the provider refuses. *)
Definition sends : ToolExecutor := fun _ _ => Ret (JStr "sent").
Definition refuses : ToolExecutor := fun _ _ => Throw (PlainError "401").

Lemma sends_settles p r : settles sends p r (inr (JStr "sent")).
Proof. intros w Hw. exists w. by splits. Qed.
Lemma refuses_settles p r : settles refuses p r (inl (PlainError "401")).
Proof. intros w Hw. exists w. by splits. Qed.

(** The same store once the chain is found corrupt. *)
Definition locked_store : World :=
  upd_audit (fun a => {| audit_log := audit_log a; audit_seq := audit_seq a;
    audit_chain_lock := Some {| acl_locked := true; acl_lockedAt := Some 5;
                                acl_reason := None |} |}) store.
End ApprovalExamples.

Lemma approval_executes_the_stored_action_witness :
  exists w', run (@ApprovalExecution.resolveAndExecute (@auditService toy_crypto)
      {[ "sendEmail" := ApprovalExamples.sends ]} (uuid_string 0) "owner") ApprovalExamples.store =
    (w', inr (ResolveAndExecuteResolved "sendEmail" (JStr "sent"))).
Proof.
  destruct (@approval_executes_the_stored_action (@auditService toy_crypto)
    (@auditService_laws toy_crypto) {[ "sendEmail" := ApprovalExamples.sends ]} (uuid_string 0) "owner"
    ApprovalExamples.row ApprovalExamples.sends (JStr "sent") ApprovalExamples.store)
    as (w' & arow & H & _); [done..|apply lookup_singleton_eq|apply ApprovalExamples.sends_settles|].
  by exists w'.
Defined.

Lemma failed_execution_returns_the_approval_witness :
  exists w', run (@ApprovalExecution.resolveAndExecute (@auditService toy_crypto)
      {[ "sendEmail" := ApprovalExamples.refuses ]} (uuid_string 0) "owner") ApprovalExamples.store =
    (w', inl (PlainError "401")).
Proof.
  destruct (@failed_execution_returns_the_approval (@auditService toy_crypto)
    (@auditService_laws toy_crypto) {[ "sendEmail" := ApprovalExamples.refuses ]} (uuid_string 0) "owner"
    ApprovalExamples.row ApprovalExamples.refuses (PlainError "401") ApprovalExamples.store)
    as (w' & arow & frow & t & H & _);
    [done..|apply lookup_singleton_eq|apply ApprovalExamples.refuses_settles|].
  by exists w'.
Defined.

Lemma locked_audit_blocks_execution_witness :
  exists w', run (@ApprovalExecution.resolveAndExecute (@auditService toy_crypto)
      {[ "sendEmail" := ApprovalExamples.sends ]} (uuid_string 0) "owner")
      ApprovalExamples.locked_store = (w', inl AuditChainLockedError).
Proof.
  destruct (@locked_audit_blocks_execution (@auditService toy_crypto)
    (@auditService_laws toy_crypto) {[ "sendEmail" := ApprovalExamples.sends ]} (uuid_string 0) "owner"
    ApprovalExamples.row ApprovalExamples.locked_store) as (w' & H & _); [done..|].
  by exists w'.
Defined.

Lemma execution_requires_its_approvals_witness :
  exists row, w_pending ApprovalExamples.store !! uuid_string 0 = Some row /\
    (pa_level row = "confirm" \/
     pa_level row = "dual-confirm" /\ exists t1, pa_firstApprovedAt row = Some t1 /\
       default (t1 + 30000) (pa_availableAt row) <= clock (w_sys ApprovalExamples.store)).
Proof.
  apply (@execution_requires_its_approvals (@auditService toy_crypto)
    {[ "sendEmail" := ApprovalExamples.sends ]} (uuid_string 0) "owner").
  vm_compute. discriminate.
Defined.

Lemma rejection_respects_executions_witness :
  (run (@ApprovalExecution.resolveRejection (@auditService toy_crypto) (uuid_string 0) "owner")
     ApprovalExamples.store).2 = inr tt.
Proof.
  exact (proj1 (@rejection_respects_executions (@auditService toy_crypto)
    (@auditService_laws toy_crypto) (uuid_string 0) "owner"
    ApprovalExamples.row ApprovalExamples.store ltac:(done) ltac:(done) ltac:(done))).
Defined.

Lemma only_approvals_execute_witness :
  steps same_trace (@ApprovalExecution.resolveRejection (@auditService toy_crypto) (uuid_string 0) "owner").
Proof.
  exact (proj1 (@only_approvals_execute (@auditService toy_crypto) (@auditService_laws toy_crypto)
    (uuid_string 0) "owner" (HitlExamples.input "sendEmail" Confirm "h"))).
Defined.
