(* ===== verification/AtMostOnce.v ===== *)
(** * AtMostOnce: approvals under concurrency

    Requests, expiries and rejections run at the same time, statements fail and
    processes die.  For each approval the trace of executions refines the
    automaton [exec_step]: an execution starts only when none is running and none
    has succeeded, and only after its approval is in the audit log. *)
From S2P Require Import Prelude Effects Js Registry Store AuditApi AuditLog Hitl Approval.
Local Open Scope stdpp_scope.
Local Open Scope Z_scope.
Local Open Scope jin_scope.

(** ** The abstract specification *)

Inductive ExecState := Idle | Running | Done | Broken.

Definition exec_step (rid : string) (s : ExecState) (e : ExecEvent) : ExecState :=
  match e with
  | ExecStart r _ _ =>
      if decide (r = rid) then match s with Idle => Running | _ => Broken end else s
  | ExecOk r _ =>
      if decide (r = rid) then match s with Running => Done | _ => Broken end else s
  | ExecFail r _ =>
      if decide (r = rid) then match s with Running => Idle | _ => Broken end else s
  end.

Definition exec_state (rid : string) (trace : list ExecEvent) : ExecState :=
  fold_left (exec_step rid) trace Idle.

Lemma exec_state_snoc rid l e : exec_state rid (l ++ [e]) = exec_step rid (exec_state rid l) e.
Proof. unfold exec_state. by rewrite fold_left_app. Qed.

Lemma exec_state_event rid e w :
  exec_state rid (w_execs (upd_execs (fun l => l ++ [e]) w)) =
  exec_step rid (exec_state rid (w_execs w)) e.
Proof. apply exec_state_snoc. Qed.

(** What an executor may do: anything but touch the pending approvals and the
    trace, or rewrite the audit log. *)
Definition executor_frame (w w' : World) : Prop :=
  w_pending w' = w_pending w /\ w_execs w' = w_execs w /\
  (uuids (w_sys w) <= uuids (w_sys w'))%nat /\
  audit_log (w_audit w) `prefix_of` audit_log (w_audit w').

Definition well_behaved (executors : ToolExecutorRegistry) : Prop :=
  forall tool ex, executors !! tool = Some ex ->
  forall payload rid, steps executor_frame (ex payload rid).

(** The requests of the HITL system: a tool call that needs approval (its id is
    drawn by [classifyToolCall]), a decision of the owner, the hourly sweep, a
    listing, and anything that only writes to the audit log. *)
Inductive hitl_client `{Api : AuditApi} (executors : ToolExecutorRegistry) : jin unit -> Prop :=
| client_create input :
    (forall id, cpa_requestId (input id) = id) ->
    hitl_client executors
      (requestId <- randomUUID ;; DualConfirm.createPendingApproval (input requestId))
| client_approve rid approver :
    hitl_client executors (discard (ApprovalExecution.resolveAndExecute executors rid approver))
| client_reject rid approver :
    hitl_client executors (ApprovalExecution.resolveRejection rid approver)
| client_sweep : hitl_client executors Timeout.sweep
| client_list : hitl_client executors (discard HitlController.listPending)
| client_audit p : steps audit_only p -> hitl_client executors p.

(** A store as a (re)start finds it: nothing has executed since, and every pending
    row carries an identifier already drawn. *)
Definition start_store (w : World) : Prop :=
  w_execs w = [] /\ forall n, (uuids (w_sys w) <= n)%nat -> w_pending w !! uuid_string n = None.

Lemma uuid_string_inj n m : uuid_string n = uuid_string m -> n = m.
Proof. unfold uuid_string. intros H%string_app_inj_l. by apply (inj pretty) in H. Qed.

(** ** The protocol of one approval *)

Section Protocol.
Context (rid : string).

Definition row_free (w : World) : Prop :=
  exists r, w_pending w !! rid = Some r /\ pa_executingAt r = None.

Definition undrawn (w : World) : Prop :=
  exists n, (uuids (w_sys w) <= n)%nat /\ rid = uuid_string n.

Definition idle (w : World) : Prop := exec_state rid (w_execs w) = Idle.

(** The approval of [rid] for [tool] is in the log. *)
Definition approved (tool : string) (w : World) : Prop :=
  exists approver hash, recorded (approval_row rid approver tool hash) w.

Definition started (tool : string) (w : World) : Prop :=
  exists payload, ExecStart rid tool payload ∈ w_execs w.

Inductive Phase :=
| ph_out                       (* holds nothing *)
| ph_fresh                     (* has drawn [rid] and not inserted its row yet *)
| ph_claimed                   (* has claimed the row *)
| ph_audited (tool approver hash : string)   (* and recorded its approval *)
| ph_running.                  (* and started the executor *)

(** Changes that do not concern the executions of [rid]. *)
Record quiet (w w' : World) : Prop := {
  quiet_uuids : (uuids (w_sys w) <= uuids (w_sys w'))%nat;
  quiet_log : audit_log (w_audit w) `prefix_of` audit_log (w_audit w');
  quiet_state : exec_state rid (w_execs w') = exec_state rid (w_execs w);
  quiet_started tool : started tool w' -> started tool w
}.

(** ... nor give [rid] a row to claim. *)
Record tolerable (w w' : World) : Prop := {
  tolerable_quiet : quiet w w';
  tolerable_free : row_free w' -> row_free w;
  tolerable_none : w_pending w !! rid = None -> w_pending w' !! rid = None
}.

Definition ph_holds (ph : Phase) (w : World) : Prop :=
  match ph with
  | ph_audited tool approver hash => recorded (approval_row rid approver tool hash) w
  | _ => True
  end.

Inductive ph_moves : Phase -> World -> World -> Phase -> Prop :=
| mv_stay ph w w' : tolerable w w' -> ph_moves ph w w' ph
| mv_claim w w' : tolerable w w' -> row_free w -> ~ row_free w' -> ph_moves ph_out w w' ph_claimed
| mv_draw w w' : tolerable w w' -> undrawn w -> ~ undrawn w' -> ph_moves ph_out w w' ph_fresh
| mv_drop ph w w' : ph <> ph_running -> ph <> ph_out -> quiet w w' -> ph_moves ph w w' ph_out
| mv_audit tool approver hash w w' :
    tolerable w w' -> recorded (approval_row rid approver tool hash) w' ->
    ph_moves ph_claimed w w' (ph_audited tool approver hash)
| mv_start tool approver hash payload w :
    ph_moves (ph_audited tool approver hash) w (upd_execs (fun l => l ++ [ExecStart rid tool payload]) w) ph_running
| mv_ok tool w :
    ph_moves ph_running w (upd_execs (fun l => l ++ [ExecOk rid tool]) w) ph_out
| mv_fail tool w :
    ph_moves ph_running w (upd_execs (fun l => l ++ [ExecFail rid tool]) w) ph_claimed.

Abbreviation ph_follows := (follows ph_holds ph_moves).

#[export] Instance quiet_preorder : PreOrder quiet.
Proof.
  split; [by split|]. intros w1 w2 w3 [U1 L1 S1 T1] [U2 L2 S2 T2].
  split; [lia|by etrans|congruence|auto].
Qed.

#[export] Instance tolerable_preorder : PreOrder tolerable.
Proof.
  split; [by split|]. intros w1 w2 w3 [Q1 F1 N1] [Q2 F2 N2].
  split; [by etrans|auto|auto].
Qed.

(** ** The invariant of the protocol *)

(** No other method can start an execution of [rid] unless it is idle. *)
Definition resting (w : World) : Prop :=
  (row_free w -> idle w) /\ (undrawn w -> w_pending w !! rid = None /\ idle w).

Definition owned (ph : Phase) (w : World) : Prop :=
  ~ row_free w /\ ~ undrawn w /\
  match ph with
  | ph_out => False
  | ph_fresh => w_pending w !! rid = None /\ idle w
  | ph_claimed => idle w
  | ph_audited tool approver hash => idle w /\ recorded (approval_row rid approver tool hash) w
  | ph_running => exec_state rid (w_execs w) = Running
  end.

#[export] Instance Phase_eq_dec : EqDecision Phase.
Proof. solve_decision. Defined.

Definition owners (phs : list Phase) : list Phase := filter (fun ph => ph <> ph_out) phs.

(** At most one method owns the approval, and no execution ran without one. *)
Definition clean (w : World) : Prop :=
  exec_state rid (w_execs w) <> Broken /\ forall tool, started tool w -> approved tool w.

Definition ph_inv (w : World) (phs : list Phase) : Prop :=
  clean w /\
  match owners phs with
  | [] => resting w
  | [ph] => owned ph w
  | _ => False
  end.

Lemma owners_out l1 l2 : owners (l1 ++ ph_out :: l2) = owners l1 ++ owners l2.
Proof. unfold owners. rewrite filter_app, filter_cons. case_decide; [done|]. done. Qed.

Lemma owners_in l1 ph l2 : ph <> ph_out -> owners (l1 ++ ph :: l2) = owners l1 ++ ph :: owners l2.
Proof. intros H. unfold owners. rewrite filter_app, filter_cons. by case_decide. Qed.

(** The method that owns the approval is the only one. *)
Lemma owned_alone l1 ph l2 (w : World) :
  ph <> ph_out ->
  match owners (l1 ++ ph :: l2) with [] => resting w | [p] => owned p w | _ => False end ->
  owners l1 = [] /\ owners l2 = [] /\ owned ph w.
Proof.
  intros Hne. rewrite owners_in by done.
  destruct (owners l1) as [|a la]; cbn; [|by destruct (la ++ ph :: owners l2) eqn:E; [destruct la|]].
  by destruct (owners l2).
Qed.

Lemma approved_quiet tool w w' : quiet w w' -> approved tool w -> approved tool w'.
Proof. intros [_ L _ _] (a & h & Hr). exists a, h. by eapply recorded_prefix. Qed.

Lemma undrawn_quiet w w' : quiet w w' -> undrawn w' -> undrawn w.
Proof. intros [U _ _ _] (n & Hn & ->). exists n. split; [lia|done]. Qed.

Lemma resting_tolerable w w' : tolerable w w' -> resting w -> resting w'.
Proof.
  intros [Q F N] [H1 H2]. pose proof (quiet_state _ _ Q) as Hs. unfold idle in *. split.
  - unfold idle; intros Hf. rewrite Hs. auto.
  - unfold idle; intros Hu. rewrite Hs. destruct (H2 (undrawn_quiet _ _ Q Hu)). auto.
Qed.

Lemma owned_tolerable ph w w' : tolerable w w' -> owned ph w -> owned ph w'.
Proof.
  intros [Q F N] (Hf & Hu & Ho). pose proof (quiet_state _ _ Q) as Hs. unfold owned, idle in *.
  splits; [auto|eauto using undrawn_quiet|].
  destruct ph; rewrite ?Hs; try done; naive_solver eauto using recorded_prefix, quiet_log.
Qed.

Lemma clean_quiet w w' : quiet w w' -> clean w -> clean w'.
Proof.
  intros Q [Hb Ha]. split; [by rewrite (quiet_state _ _ Q)|].
  intros tool Hs. eapply approved_quiet; [done|]. apply Ha. by eapply quiet_started.
Qed.

Lemma clean_tolerable w w' : tolerable w w' -> clean w -> clean w'.
Proof. intros [Q _ _]. by apply clean_quiet. Qed.

Lemma ph_inv_holds w l1 ph l2 : ph_inv w (l1 ++ ph :: l2) -> ph_holds ph w.
Proof.
  intros (_ & Ho). destruct ph; try done.
  apply owned_alone in Ho as (_ & _ & Ho); [|done]. by destruct Ho as (_ & _ & _ & ?).
Qed.

(** An event of the execution of [rid] that the automaton allows. *)
Lemma clean_event e w :
  clean w -> exec_step rid (exec_state rid (w_execs w)) e <> Broken ->
  (forall tool payload, e = ExecStart rid tool payload -> approved tool w) ->
  clean (upd_execs (fun l => l ++ [e]) w).
Proof.
  intros [Hb Ha] He Hs. split; [by rewrite exec_state_event|].
  intros tool (p & Hp). cbn in Hp. apply elem_of_app in Hp as [Hp|Hp%list_elem_of_singleton].
  - apply Ha. by exists p.
  - by eapply Hs.
Qed.

Lemma ph_inv_claim w w' l1 l2 :
  ph_inv w (l1 ++ ph_out :: l2) -> tolerable w w' -> row_free w -> ~ row_free w' ->
  ph_inv w' (l1 ++ ph_claimed :: l2).
Proof.
  intros (Hc & Ho) Ht Hf Hnf. split; [by eapply clean_tolerable|].
  pose proof (tolerable_quiet _ _ Ht) as Q.
  rewrite owners_out in Ho. rewrite owners_in by done.
  destruct (owners l1 ++ owners l2) as [|p [|p' lp]] eqn:E; [|by destruct Ho as (Hnf' & _)|done].
  apply app_eq_nil in E as [-> ->]. destruct Ho as [H1 H2]. split; [done|]. split.
  - intros Hu%(undrawn_quiet _ _ Q). destruct (H2 Hu) as [Hn _], Hf as (r & Hr & _). congruence.
  - unfold idle. rewrite (quiet_state _ _ Q). by apply H1.
Qed.

Lemma ph_inv_draw w w' l1 l2 :
  ph_inv w (l1 ++ ph_out :: l2) -> tolerable w w' -> undrawn w -> ~ undrawn w' ->
  ph_inv w' (l1 ++ ph_fresh :: l2).
Proof.
  intros (Hc & Ho) Ht Hu Hnu. split; [by eapply clean_tolerable|].
  rewrite owners_out in Ho. rewrite owners_in by done.
  destruct (owners l1 ++ owners l2) as [|p [|p' lp]] eqn:E; [|by destruct Ho as (_ & Hnu' & _)|done].
  apply app_eq_nil in E as [-> ->]. destruct (proj2 Ho Hu) as [Hn Hi].
  apply (tolerable_none _ _ Ht) in Hn. split; [|split; [done|split; [done|]]].
  - intros (r & Hr & _). congruence.
  - unfold idle. by rewrite (quiet_state _ _ (tolerable_quiet _ _ Ht)).
Qed.

Lemma ph_inv_drop w w' l1 ph l2 :
  ph <> ph_running -> ph <> ph_out -> ph_inv w (l1 ++ ph :: l2) -> quiet w w' ->
  ph_inv w' (l1 ++ ph_out :: l2).
Proof.
  intros Hnr Hno (Hc & Ho) Q. split; [by eapply clean_quiet|].
  apply owned_alone in Ho as (E1 & E2 & _ & Hnu & Ho); [|done].
  rewrite owners_out, E1, E2. split.
  - intros _. unfold idle in *. rewrite (quiet_state _ _ Q). destruct ph; naive_solver.
  - by intros Hu%(undrawn_quiet _ _ Q).
Qed.

Lemma ph_inv_moves w w' l1 ph ph' l2 :
  ph_inv w (l1 ++ ph :: l2) -> ph_moves ph w w' ph' -> ph_inv w' (l1 ++ ph' :: l2).
Proof.
  intros Hi Hm.
  destruct Hm as [ph w w' Ht|w w' Ht Hf Hnf|w w' Ht Hu Hnu|ph w w' Hnr Hno Hq|tool approver hash w w' Ht Ha
                 |tool approver hash payload w|tool w|tool w].
  - destruct Hi as [Hc Ho]. split; [by eapply clean_tolerable|].
    destruct (owners (l1 ++ ph :: l2)) as [|p [|p' lp]];
      [by eapply resting_tolerable|by eapply owned_tolerable|done].
  - by eapply ph_inv_claim.
  - by eapply ph_inv_draw.
  - by eapply ph_inv_drop.
  - destruct Hi as [Hc Ho]. split; [by eapply clean_tolerable|].
    apply owned_alone in Ho as (E1 & E2 & Ho); [|done].
    rewrite owners_in, E1, E2 by done. apply (owned_tolerable _ _ _ Ht) in Ho.
    by destruct Ho as (? & ? & ?).
  - destruct Hi as [Hc Ho]. apply owned_alone in Ho as (E1 & E2 & Hnf & Hnu & Hid & Hap); [|done].
    unfold idle in Hid. split.
    + apply clean_event; [done|cbn; by rewrite Hid, decide_True|]. intros ? ? [= -> ->]. by exists approver, hash.
    + rewrite owners_in, E1, E2 by done. do 2 (split; [done|]).
      rewrite exec_state_event, Hid. cbn. by rewrite decide_True.
  - destruct Hi as [Hc Ho]. apply owned_alone in Ho as (E1 & E2 & Hnf & Hnu & Hr); [|done].
    split; [apply clean_event; [done|cbn; by rewrite Hr, decide_True|done]|].
    by rewrite owners_out, E1, E2.
  - destruct Hi as [Hc Ho]. apply owned_alone in Ho as (E1 & E2 & Hnf & Hnu & Hr); [|done].
    split; [apply clean_event; [done|cbn; by rewrite Hr, decide_True|done]|].
    rewrite owners_in, E1, E2 by done. do 2 (split; [done|]). unfold idle.
    rewrite exec_state_event, Hr. cbn. by rewrite decide_True.
Qed.
End Protocol.

(** ** The statements keep to the protocol *)

Section Statements.
Context (rid : string).
Abbreviation tol := (tolerable rid).

Lemma tolerable_audit w w' : audit_only w w' -> tol w w'.
Proof.
  intros [[= _ Hu _ Hp _ _ _ _ _ _ He _ _] Hl].
  split; [split|..]; unfold row_free, started; rewrite ?Hu, ?He, ?Hp; auto.
Qed.

Lemma tolerable_executor w w' : executor_frame w w' -> tol w w'.
Proof.
  intros (Hp & He & Hu & Hl).
  split; [split|..]; unfold row_free, started; rewrite ?He, ?Hp; auto.
Qed.

(** Only the pending approvals change. *)
Lemma tolerable_pending m w :
  ((exists r, m !! rid = Some r /\ pa_executingAt r = None) -> row_free rid w) ->
  (w_pending w !! rid = None -> m !! rid = None) ->
  tol w (upd_pending (fun _ => m) w).
Proof. intros Hf Hn. by split. Qed.

Lemma quiet_pending m w : quiet rid w (upd_pending (fun _ => m) w).
Proof. by split. Qed.

Lemma tolerable_update r cond f w :
  r <> rid \/ (forall row, pa_executingAt (f row) = None -> pa_executingAt row = None) ->
  tol w (update_pending r cond f w).1.
Proof.
  intros H. unfold update_pending. destruct (w_pending w !! r) as [row|] eqn:E; [|done].
  destruct (cond row); [|done]. apply tolerable_pending.
  - intros (x & Hx & Hn). apply lookup_insert_Some in Hx as [[-> <-]|[Hne Hx]]; [|by exists x].
    destruct H as [H|H]; [done|]. exists row. auto.
  - intros Hn. destruct (decide (r = rid)) as [->|]; [congruence|]. by rewrite lookup_insert_ne.
Qed.

Lemma tolerable_delete r cond w : tol w (delete_pending r cond w).1.
Proof.
  unfold delete_pending. destruct (w_pending w !! r) as [row|] eqn:E; [|done].
  destruct (cond row); [|done]. apply tolerable_pending.
  - intros (x & Hx & Hn). apply lookup_delete_Some in Hx as [_ Hx]. by exists x.
  - intros Hn. apply lookup_delete_None. by right.
Qed.

Lemma tolerable_tick w : tol w (tick w).
Proof. by apply tolerable_audit. Qed.

Lemma tolerable_emit e w : tol w (upd_events (fun l => l ++ [e]) w).
Proof. by apply tolerable_executor. Qed.
Hint Resolve tolerable_audit tolerable_tick tolerable_emit tolerable_delete tolerable_update : jin.

Lemma steps_tol_db {X} (f : World -> World * X) : (forall w, tol w (f w).1) -> steps tol (db f).
Proof.
  intros Hf. apply steps_db; [apply tolerable_tick|]. intros w.
  etrans; [apply tolerable_tick|apply Hf].
Qed.

Lemma steps_tol_emit e : steps tol (emit e).
Proof. split; [intros w; apply tolerable_emit|done]. Qed.

Lemma steps_tol_now : steps tol now.
Proof. done. Qed.

Lemma steps_tol_appends data p : appends data p -> steps tol p.
Proof. intros [H _ _ _ _]. eapply steps_mono; [|exact H]. apply tolerable_audit. Qed.

Lemma steps_tol_read {X} (f : World -> X) : steps tol (db_read f).
Proof. by apply steps_tol_db. Qed.

Lemma steps_tol_getPending r : steps tol (DualConfirm.getPending r).
Proof. apply steps_tol_read. Qed.

Lemma steps_tol_removePending r : steps tol (DualConfirm.removePending r).
Proof. apply steps_bind; [|done]. apply steps_tol_db, tolerable_delete. Qed.

Lemma steps_tol_removeIfNotExecuting r : steps tol (DualConfirm.removeIfNotExecuting r).
Proof. apply steps_bind; [done|]. intros t. apply steps_tol_db, tolerable_delete. Qed.

Lemma steps_tol_recordApproval r approver : steps tol (DualConfirm.recordApproval r approver).
Proof.
  apply (steps_recordApproval tol); [apply tolerable_tick|]. intros. apply tolerable_update. by right.
Qed.

(** Another approval may be claimed and released at will. *)
Lemma tolerable_frame r : r <> rid -> decision_frame tol r.
Proof.
  intros Hr. split; try apply _; intros; auto using tolerable_audit, tolerable_emit, tolerable_delete;
    apply tolerable_update; by left.
Qed.

Lemma tolerable_event_other e w :
  exec_step rid (exec_state rid (w_execs w)) e = exec_state rid (w_execs w) ->
  (forall tool payload, e <> ExecStart rid tool payload) ->
  tol w (upd_execs (fun l => l ++ [e]) w).
Proof.
  intros He Hs. split; [split|..]; try done; [by rewrite exec_state_event|].
  intros tool (p & Hp). cbn in Hp. apply elem_of_app in Hp as [Hp|Hp%list_elem_of_singleton]; [by exists p|].
  by destruct (Hs tool p).
Qed.

Lemma steps_tol_execute_other executors tool payload r :
  well_behaved executors -> r <> rid -> steps tol (execute executors tool payload (Some r)).
Proof.
  intros Hwb Hr. unfold execute. destruct (executors !! tool) as [ex|] eqn:E; [|done].
  assert (Hev : forall w, tol w (upd_execs (fun l => l ++ [ExecStart r tool payload]) w)
            /\ tol w (upd_execs (fun l => l ++ [ExecOk r tool]) w)
            /\ tol w (upd_execs (fun l => l ++ [ExecFail r tool]) w)).
  { intros w. splits; apply tolerable_event_other; cbn; rewrite ?decide_False by done; naive_solver. }
  apply steps_bind; [split; [apply Hev|done]|]. intros _. apply steps_try_with.
  - eapply steps_mono; [|by eapply Hwb]. apply tolerable_executor.
  - intros res. apply steps_bind; [split; [apply Hev|done]|done].
  - intros e. apply steps_bind; [split; [apply Hev|done]|done].
Qed.
End Statements.

Abbreviation pf rid := (follows (ph_holds rid) (ph_moves rid)).

(** Sequence: the first program by [lem], then what follows it. *)
Ltac then_ lem := apply follows_bind; eapply follows_mono; [apply lem|].

Section Follow.
Context `{Laws : AuditApiLaws} (rid : string).
Context (executors : ToolExecutorRegistry) (Hwb : well_behaved executors).

Lemma pf_steps {A} ph (p : jin A) : steps (tolerable rid) p -> pf rid ph p (fun ph' _ => ph' = ph).
Proof. apply follows_steps. intros w w' _. apply mv_stay. Qed.

Lemma pf_any {A} ph (p : jin A) : steps (tolerable rid) p -> pf rid ph p (fun _ _ => True).
Proof. intros Hp. eapply follows_mono; [by apply pf_steps|done]. Qed.

Lemma pf_claim :
  pf rid ph_out (DualConfirm.claimForExecution rid)
    (fun ph r => match r with inr (Some _) => ph = ph_claimed | _ => ph = ph_out end).
Proof.
  intros w _. exists ph_out. split; [by apply mv_stay|].
  intros w2 _. unfold db_act. destruct (faulty w2).
  { exists ph_out. split; [apply mv_stay, tolerable_tick|done]. }
  set (t := clock (w_sys w)).
  pose proof (tolerable_update rid rid (fun r => is_null (pa_executingAt r)) (set_execution (Some t) None)
                (tick w2) ltac:(by right)) as Ht.
  apply (transitivity (tolerable_tick rid w2)) in Ht. revert Ht.
  unfold update_pending. change (w_pending (tick w2)) with (w_pending w2).
  destruct (w_pending w2 !! rid) as [row|] eqn:E; [|intros Ht; exists ph_out; by split; [apply mv_stay|]].
  destruct (is_null (pa_executingAt row)) eqn:En; intros Ht.
  - exists ph_claimed. split; [|done]. apply mv_claim; [done|..].
    + exists row. split; [done|]. by destruct (pa_executingAt row).
    + intros (x & Hx & Hn). cbn in Hx. rewrite lookup_insert_eq in Hx. by injection Hx as <-.
  - exists ph_out. by split; [apply mv_stay|].
Qed.

(** A statement that gives the approval back, or removes it. *)
Lemma pf_drop {X} ph (f : World -> World * X) :
  ph <> ph_running -> ph <> ph_out -> (forall w, quiet rid w (f w).1) ->
  pf rid ph (db f ;;; Ret tt)
    (fun ph' r => match r with inr _ => ph' = ph_out | inl _ => ph' = ph end).
Proof.
  intros Hr Ho Hf w _. unfold db_act. destruct (faulty w).
  - exists ph. split; [apply mv_stay, tolerable_tick|done].
  - exists ph_out. specialize (Hf (tick w)). destruct (f (tick w)) as [w' x]. split; [|done].
    apply mv_drop; [done..|]. etrans; [apply tolerable_tick|exact Hf].
Qed.

Lemma quiet_update r cond f w : quiet rid w (update_pending r cond f w).1.
Proof. unfold update_pending. repeat case_match; done. Qed.

Lemma quiet_delete r cond w : quiet rid w (delete_pending r cond w).1.
Proof. unfold delete_pending. repeat case_match; done. Qed.

Lemma pf_release ph err :
  ph <> ph_running -> ph <> ph_out ->
  pf rid ph (DualConfirm.releaseClaim rid err)
    (fun ph' r => match r with inr _ => ph' = ph_out | inl _ => ph' = ph end).
Proof. intros. apply pf_drop; [done..|]. apply quiet_update. Qed.

Lemma pf_remove :
  pf rid ph_claimed (DualConfirm.removePending rid)
    (fun ph' r => match r with inr _ => ph' = ph_out | inl _ => ph' = ph_claimed end).
Proof. apply pf_drop; [done..|]. apply quiet_delete. Qed.

Lemma pf_audit approver tool hash :
  pf rid ph_claimed (audit_approval rid approver tool hash)
    (fun ph' r => match r with inr _ => ph' = ph_audited tool approver hash
                             | inl _ => ph' = ph_claimed end).
Proof.
  pose proof (audit_approval_appends rid approver tool hash) as [_ _ _ _ Hf].
  set (g (b : bool) := if b then ph_audited tool approver hash else ph_claimed).
  eapply follows_mono.
  - apply (follows_lift g _ _ (ph_holds rid) (ph_moves rid) false _ _) in Hf; [exact Hf|..].
    + by intros [] w Hw.
    + intros b w w' b' (Ha%(tolerable_audit rid) & Hm & Hr).
      destruct b, b'; cbn; [by apply mv_stay|by specialize (Hm eq_refl)|..|by apply mv_stay].
      apply mv_audit; auto.
  - intros ph' r (b & -> & Hb). by destruct r; subst b.
Qed.

Lemma pf_execute tool approver hash payload :
  pf rid (ph_audited tool approver hash) (execute executors tool payload (Some rid))
    (fun ph' r => match r with
                  | inr _ => ph' = ph_out
                  | inl _ => ph' <> ph_out /\ ph' <> ph_running end).
Proof.
  unfold execute. destruct (executors !! tool) as [ex|] eqn:E; [|done].
  cbn [observe writes bind default]. intros w _. exists ph_running. split; [apply mv_start|].
  apply follows_try_with. eapply follows_mono.
  - apply pf_steps. eapply steps_mono; [|by eapply Hwb]. apply tolerable_executor.
  - intros ph' [e|res] ->; intros w2 _; eexists; (split; [apply mv_ok || apply mv_fail|done]).
Qed.

Lemma pf_recordApproval r approver :
  pf rid ph_out (DualConfirm.recordApproval r approver) (fun ph' _ => ph' = ph_out).
Proof. apply pf_steps, steps_tol_recordApproval. Qed.

(** The part of [resolveAndExecute] that runs once the row is claimed. *)
Lemma pf_resolveAndExecute approver :
  pf rid ph_out (ApprovalExecution.resolveAndExecute executors rid approver) (fun _ _ => True).
Proof.
  then_ (pf_steps ph_out _ (steps_tol_getPending rid rid)). intros ? [e|[row|]] ->; [done| |done].
  then_ (pf_recordApproval rid approver). intros ? [e|[|]] ->; [done| |done].
  then_ pf_claim. intros ph [e|[claimed|]] ->; [done| |done].
  unfold ApprovalExecution.executeClaimed.
  apply follows_bind, follows_try_with. eapply follows_mono; [apply pf_audit|].
  intros ph [e|?] ->.
  { then_ (pf_release ph_claimed (Some ("audit falló antes de ejecutar: " +:+ messageOf e)));
      [done..|]. by intros ? [|] _. }
  apply follows_bind, follows_catch. eapply follows_mono; [apply pf_execute|].
  intros ph [e|res] Hph.
  - then_ (pf_release ph (Some (messageOf e))); [naive_solver..|]. intros ph' [?|?] ->; [done|].
    apply follows_bind. eapply follows_mono; [apply pf_any|by intros ? [?|[]]].
    apply steps_try_with; [|done..]. eapply steps_tol_appends, audit_executionFailure_appends.
  - subst ph. apply follows_bind. eapply follows_mono; [apply pf_any|by intros ? [?|[]]].
    apply steps_catch; [apply steps_tol_removePending|done].
Qed.

Lemma pf_resolveRejection approver :
  pf rid ph_out (ApprovalExecution.resolveRejection rid approver) (fun _ _ => True).
Proof.
  then_ (pf_steps ph_out _ (steps_tol_getPending rid rid)). intros ? [e|[row|]] ->; [done| |done].
  then_ pf_claim. intros ph [e|[claimed|]] ->; [done|..].
  - apply follows_bind, follows_try_with. eapply follows_mono.
    + eapply pf_steps, steps_tol_appends, audit_rejection_appends.
    + intros ph [e|?] ->.
      * then_ (pf_release ph_claimed None); [done..|]. by intros ? [|].
      * refine (follows_mono _ _ _ _ _ (fun _ _ => True) pf_remove _). done.
  - apply pf_any. apply steps_bind; [done|]. intros t. cbv zeta. destruct (negb _); [done|].
    apply steps_bind; [eapply steps_tol_appends, audit_rejection_appends|]. intros _.
    apply steps_bind; [apply steps_tol_removeIfNotExecuting|done].
Qed.

Lemma pf_claimAndAuditTimeout row status :
  pa_requestId row = rid ->
  pf rid ph_out (Timeout.claimAndAuditTimeout row status)
    (fun ph r => match r with
                 | inr b => ph = if b : bool then ph_claimed else ph_out
                 | inl _ => True end).
Proof.
  intros Hr. unfold Timeout.claimAndAuditTimeout. rewrite Hr.
  then_ pf_claim. intros ph [e|[claimed|]] ->; [done| |done].
  apply follows_try_with. eapply follows_mono.
  - eapply pf_steps, steps_tol_appends, audit_timeout_appends.
  - intros ph [e|?] ->; [|done]. then_ (pf_release ph_claimed None); [done..|]. by intros ? [|].
Qed.

Lemma pf_processPending row t :
  pa_requestId row = rid ->
  pf rid ph_out (Timeout.processPending row t)
    (fun ph r => match r with inr _ => ph = ph_out | inl _ => True end).
Proof.
  intros Hr.
  set (Q := fun (ph : Phase) (r : JinError + unit) =>
    match r with inr _ => ph = ph_out | inl _ => True end).
  assert (Hcd : forall status (k : jin unit), pf rid ph_claimed k Q ->
    pf rid ph_out (ok <- Timeout.claimAndAuditTimeout row status ;;
                   if ok : bool then k else Ret tt) Q).
  { intros status k Hk. then_ pf_claimAndAuditTimeout; [done|].
    by intros ph [e|[]] Hph; [done|rewrite Hph|rewrite Hph]. }
  assert (Hrm : pf rid ph_claimed (Timeout.removePending rid) Q).
  { eapply follows_mono; [apply pf_remove|]. by intros ? [?|?]. }
  assert (Hout : forall p : jin unit, steps (tolerable rid) p -> pf rid ph_out p Q).
  { intros p Hp. eapply follows_mono; [by apply pf_steps|]. by intros ? [?|?]. }
  unfold Timeout.processPending. destruct (pa_executingAt row).
  { apply Hout. case_match; [apply steps_tol_emit|done]. }
  rewrite Hr. destruct (decideTimeoutOutcome _ _ _ _); [done|..].
  - by apply Hcd.
  - apply Hout. apply steps_bind; [|intros _; apply steps_tol_emit].
    apply steps_tol_db. intros w. apply tolerable_update. by right.
  - apply Hcd. apply follows_bind. eapply follows_mono; [apply Hrm|].
    intros ph [e|[]] Hph; [done|]. rewrite Hph. apply Hout, steps_tol_emit.
Qed.

Lemma pf_insert_fresh input : pf rid ph_fresh (insertPending input) (fun _ _ => True).
Proof.
  intros w _. unfold db_act. destruct (faulty w).
  { exists ph_fresh. split; [apply mv_stay, tolerable_tick|done]. }
  change (w_pending (tick w)) with (w_pending w).
  destruct (w_pending w !! cpa_requestId input) eqn:E.
  - exists ph_fresh. split; [apply mv_stay, tolerable_tick|done].
  - exists ph_out. split; [|done]. apply mv_drop; [done..|].
    etrans; [apply tolerable_tick|by split].
Qed.

Lemma steps_tol_insert_other input :
  cpa_requestId input <> rid -> steps (tolerable rid) (insertPending input).
Proof.
  intros Hne. apply steps_bind; [|by intros []]. apply steps_tol_db. intros w.
  destruct (w_pending w !! cpa_requestId input) eqn:E; [done|]. apply tolerable_pending.
  - intros (r & Hr & Hn). rewrite lookup_insert_ne in Hr by done. by exists r.
  - intros Hn. by rewrite lookup_insert_ne.
Qed.

(** Methods working on another approval. *)
Lemma steps_tol_resolveAndExecute r approver :
  r <> rid -> steps (tolerable rid) (ApprovalExecution.resolveAndExecute executors r approver).
Proof.
  intros Hr. apply steps_frame_resolveAndExecute; [by apply tolerable_frame|..].
  - intros. apply tolerable_update. by left.
  - intros. by apply steps_tol_execute_other.
Qed.

Lemma steps_tol_resolveRejection r approver :
  r <> rid -> steps (tolerable rid) (ApprovalExecution.resolveRejection r approver).
Proof. intros Hr. by apply steps_frame_resolveRejection, tolerable_frame. Qed.

Lemma steps_tol_processPending row t :
  pa_requestId row <> rid -> steps (tolerable rid) (Timeout.processPending row t).
Proof. intros Hr. by apply steps_frame_processPending, tolerable_frame. Qed.

Lemma pf_sweep : pf rid ph_out Timeout.sweep (fun _ _ => True).
Proof.
  then_ (pf_steps ph_out _ (steps_tol_now rid)). intros ? [e|t] ->; [done|].
  then_ (pf_steps ph_out (db_read (fun w => map snd (map_to_list (w_pending w))))
           (steps_tol_read rid _)). intros ? [e|rows] ->; [done|].
  eapply follows_mono; [apply follows_for_each|done]. intros row _.
  destruct (decide (pa_requestId row = rid)) as [|Hne]; [by apply pf_processPending|].
  eapply follows_mono; [by apply pf_steps, steps_tol_processPending|]. by intros ? [?|?].
Qed.

(** An identifier just drawn names no row, and no other method has it. *)
Lemma pf_create (input : string -> CreatePendingApprovalInput) :
  (forall id, cpa_requestId (input id) = id) ->
  pf rid ph_out (requestId <- randomUUID ;; DualConfirm.createPendingApproval (input requestId))
    (fun _ _ => True).
Proof.
  intros Hin w _. cbn [fst snd]. set (n := uuids (w_sys w)). set (w1 := upd_sys _ w).
  assert (Htol : tolerable rid w w1) by (apply tolerable_executor; split_and!; cbn; [done..|lia|done]).
  assert (Hrest : forall id, steps (tolerable rid)
    (audit_toolCall id (default "agent" (cpa_actor (input id))) (cpa_toolName (input id))
       (cpa_inputsHash (input id)) (cpa_planSummary (input id)) "pending"
       (cpa_externalInputsSummary (input id)) ;;;
     emit (PENDING_APPROVAL_CREATED_EVENT id (cpa_toolName (input id)) (cpa_level (input id))))).
  { intros id. apply steps_bind; [|intros; apply steps_tol_emit].
    eapply steps_tol_appends, audit_toolCall_appends. }
  destruct (decide (uuid_string n = rid)) as [Hid|Hne].
  - exists ph_fresh. split.
    { apply mv_draw; [done|by exists n|]. intros (m & Hm & Hmr). cbn in Hm.
      rewrite <- Hid in Hmr. apply uuid_string_inj in Hmr as <-. lia. }
    cbn [bind]. unfold DualConfirm.createPendingApproval. rewrite Hin.
    apply follows_bind. eapply follows_mono; [|intros ph [e|?] _; [done|by apply pf_any]].
    apply pf_insert_fresh.
  - exists ph_out. split; [by apply mv_stay|]. cbn [bind]. apply pf_any.
    unfold DualConfirm.createPendingApproval. rewrite Hin. apply steps_bind; [|done]. by apply steps_tol_insert_other; rewrite Hin.
Qed.
End Follow.

Lemma client_follows `{Laws : AuditApiLaws} executors rid p :
  well_behaved executors -> hitl_client executors p -> pf rid ph_out p (fun _ _ => True).
Proof.
  intros Hwb [input Hin|r approver|r approver| | |q Hq].
  - by apply pf_create.
  - apply follows_bind. eapply follows_mono; [|by intros ? [?|?] _].
    destruct (decide (r = rid)) as [->|]; [by apply pf_resolveAndExecute|].
    by apply pf_any, steps_tol_resolveAndExecute.
  - destruct (decide (r = rid)) as [->|]; [by apply pf_resolveRejection|].
    by apply pf_any, steps_tol_resolveRejection.
  - by apply pf_sweep.
  - apply pf_any, steps_bind; [apply steps_tol_read|done].
  - apply pf_any. eapply steps_mono; [|exact Hq]. apply tolerable_audit.
Qed.

Lemma ph_inv_start rid w : start_store w -> ph_inv rid w [].
Proof.
  intros [He Hp]. split.
  - split; [by rewrite He|]. intros tool (p & Hin). rewrite He in Hin. by apply elem_of_nil in Hin.
  - cbn. unfold resting, idle. split; [by rewrite He|]. intros (n & Hn & ->). rewrite He. auto.
Qed.

(** C1. At most once, and never without a trace: whatever the interleaving of
    creations, approvals, rejections and expiry sweeps, whichever statements fail
    and wherever processes die, for every approval the executions follow the
    automaton Idle -> Running -> (success) Done | (failure) Idle: two executions
    never overlap and none starts after one has succeeded; and an execution that
    has started has its human approval in the audit log. *)
Theorem approved_action_executes_at_most_once `{Laws : AuditApiLaws}
    (executors : ToolExecutorRegistry) (w0 : World) (c : config World JinError unit) (rid : string) :
  well_behaved executors -> start_store w0 ->
  reachable time_passes (hitl_client executors) w0 c ->
  exec_state rid (w_execs (c_store c)) <> Broken /\
  forall tool payload, ExecStart rid tool payload ∈ w_execs (c_store c) ->
    exists approver hash, recorded (approval_row rid approver tool hash) (c_store c).
Proof.
  intros Hwb H0 Hr.
  destruct (protocol_invariant time_passes (hitl_client executors) (ph_holds rid) (ph_moves rid)
    (ph_inv rid) ph_out) with (w0 := w0) (c := c) as (phs & [[Hb Ha] _] & _); try done.
  - intros. by eapply ph_inv_holds.
  - intros. by eapply ph_inv_moves.
  - by intros w w' l (t & _ & ->) [[Hb Ha] Ho].
  - intros w l [Hc Ho]. split; [done|]. by rewrite owners_out, app_nil_r.
  - intros p. by apply client_follows.
  - by apply ph_inv_start.
  - split; [done|]. intros tool payload Hin. apply (Ha tool). by exists payload.
Qed.

Module AtMostOnceExamples.
#[local] Existing Instance toy_crypto.

Definition mail_input (id : string) : CreatePendingApprovalInput := {|
  cpa_requestId := id; cpa_toolName := "sendEmail"; cpa_level := Confirm;
  cpa_inputsHash := "h"; cpa_planSummary := None; cpa_payload := None; cpa_actor := None;
  cpa_externalInputsSummary := None |}.

(** A store with one pending approval, [uuid-0]. *)
Definition one_pending : World :=
  upd_sys (fun s => {| clock := clock s; statements := 0; fault := fault s; uuids := 1 |})
    (upd_pending (insert (uuid_string 0) (new_pending_row (mail_input (uuid_string 0)) 1000))
      (empty_world 2000)).

Definition mail_executors : ToolExecutorRegistry :=
  {[ "sendEmail" := fun payload _ => Ret payload ]}.

Definition approval : jin unit :=
  discard (ApprovalExecution.resolveAndExecute mail_executors (uuid_string 0) "owner").

Lemma mail_well_behaved : well_behaved mail_executors.
Proof. intros tool ex Hex. unfold mail_executors in Hex. apply lookup_singleton_Some in Hex as [_ <-]. done. Qed.

Lemma one_pending_start : start_store one_pending.
Proof.
  split; [done|]. intros n Hn. apply lookup_insert_None. split; [done|].
  intros H%uuid_string_inj. subst n. cbn in Hn. lia.
Qed.

Lemma approval_returns : run approval one_pending = ((run approval one_pending).1, inr tt).
Proof.
  assert (Hr : (run approval one_pending).2 = inr tt) by (vm_compute; reflexivity).
  by destruct (run approval one_pending); cbn in *; subst.
Qed.
End AtMostOnceExamples.

Lemma approved_action_executes_at_most_once_witness :
  let w := (run AtMostOnceExamples.approval AtMostOnceExamples.one_pending).1 in
  exec_state (uuid_string 0) (w_execs w) <> Broken /\
  forall tool payload, ExecStart (uuid_string 0) tool payload ∈ w_execs w ->
    exists approver hash, recorded (approval_row (uuid_string 0) approver tool hash) w.
Proof.
  pose (w := (run AtMostOnceExamples.approval AtMostOnceExamples.one_pending).1).
  apply (@approved_action_executes_at_most_once (@auditService toy_crypto) (@auditService_laws toy_crypto)
    AtMostOnceExamples.mail_executors AtMostOnceExamples.one_pending
    (Config w [Ret tt]) (uuid_string 0)
    AtMostOnceExamples.mail_well_behaved AtMostOnceExamples.one_pending_start).
  apply (reachable_run1 _ _ _ AtMostOnceExamples.one_pending [] [] AtMostOnceExamples.approval);
    [|exact AtMostOnceExamples.approval_returns].
  eapply reach_step; [apply reach_init|]. apply (step_spawn _ _ _ []). constructor.
Defined.
