(* ===== verification/ApprovalSpec.v ===== *)
(** * ApprovalSpec: what the owner is promised about one request

    An abstract machine says what can become of a request for approval: it is asked
    once, never changes, collects its approvals, is taken and given back, and goes
    for ever; an execution under its identifier is of what was asked, after the
    approvals that its level requires.  The approvals of the code, with all their
    requests in parallel, refine it. *)
From S2P Require Import Prelude Effects Js Registry Store AuditApi AuditLog Hitl Approval AtMostOnce.
Local Open Scope stdpp_scope.
Local Open Scope Z_scope.
Local Open Scope jin_scope.

(** ** The abstract machine *)

(** What the owner is shown and asked for. *)
Record Request := {
  rq_tool : string;
  rq_level : string;
  rq_hash : string;
  rq_summary : option string;
  rq_payload : json;
  rq_createdAt : Z
}.

(** A first approval, and from when a second one counts. *)
Definition FirstApproval : Type := Z * Z.

(** Who has the request: nobody, a method since an instant, or a method that has started
    its execution. *)
Inductive Hold :=
| Free
| Held (since : Z)
| Started (since : Z).

Inductive Stage :=
| Unborn
| Pending (what : Request) (first : option FirstApproval) (hold : Hold)
| Gone (what : Request) (first : option FirstApproval) (hold : Hold).

(** [cs_runs] are the executions started under the identifier. *)
Record Case := { cs_clock : Z; cs_stage : Stage; cs_runs : list (string * json) }.

Definition at_stage (st : Stage) (s : Case) : Case :=
  {| cs_clock := cs_clock s; cs_stage := st; cs_runs := cs_runs s |}.

(** The approvals that the level requires are there. *)
Definition authorised (what : Request) (first : option FirstApproval) (now : Z) : Prop :=
  rq_level what = "confirm" \/
  rq_level what = "dual-confirm" /\ exists t1 t2, first = Some (t1, t2) /\ t2 <= now.

(** A request whose row was taken away while somebody held it may still be
    executed by its holder, hence [Gone] keeps what it was. *)
Definition request_of (st : Stage) : option (Request * option FirstApproval) :=
  match st with
  | Unborn => None
  | Pending what first _ | Gone what first _ => Some (what, first)
  end.

Definition hold_of (st : Stage) : option Hold :=
  match st with
  | Unborn => None
  | Pending _ _ hold | Gone _ _ hold => Some hold
  end.

Definition with_hold (hold : Hold) (st : Stage) : Stage :=
  match st with
  | Unborn => Unborn
  | Pending what first _ => Pending what first hold
  | Gone what first _ => Gone what first hold
  end.

(** One step of the case, at one instant. *)
Inductive case_step (s : Case) : Case -> Prop :=
| case_asked what : cs_stage s = Unborn -> case_step s (at_stage (Pending what None Free) s)
| case_first what t hold :
    cs_stage s = Pending what None hold -> rq_level what = "dual-confirm" -> t <= cs_clock s ->
    case_step s (at_stage (Pending what (Some (t, t + DUAL_CONFIRM_DELAY_MS)) hold) s)
| case_taken what first t :
    cs_stage s = Pending what first Free -> t <= cs_clock s ->
    case_step s (at_stage (Pending what first (Held t)) s)
| case_given_back what first hold :
    cs_stage s = Pending what first hold -> hold <> Free ->
    case_step s (at_stage (Pending what first Free) s)
| case_closed what first hold :
    cs_stage s = Pending what first hold -> case_step s (at_stage (Gone what first hold) s)
| case_started what first t :
    request_of (cs_stage s) = Some (what, first) -> hold_of (cs_stage s) = Some (Held t) ->
    authorised what first (cs_clock s) ->
    case_step s {| cs_clock := cs_clock s; cs_stage := with_hold (Started t) (cs_stage s);
                   cs_runs := cs_runs s ++ [(rq_tool what, rq_payload what)] |}.

Definition later (t : Z) (s : Case) : Case :=
  {| cs_clock := t; cs_stage := cs_stage s; cs_runs := cs_runs s |}.

(** What one action of the program may be to the case: time passes, and at most one step. *)
Inductive case_moves (s : Case) : Case -> Prop :=
| moves_time t : cs_clock s <= t -> case_moves s (later t s)
| moves_step t s' : cs_clock s <= t -> case_step (later t s) s' -> case_moves s s'.

Lemma authorised_later what first first' t t' :
  (first = None \/ first = first') -> t <= t' -> authorised what first t -> authorised what first' t'.
Proof.
  intros Hf Ht [Hc|(Hd & t1 & t2 & -> & H2)]; [by left|]. right. split; [done|].
  destruct Hf as [Hf|<-]; [done|]. exists t1, t2. split; [done|lia].
Qed.

(** Once asked, a request is the same for ever; a first approval stays. *)
Definition keeps_request (st st' : Stage) : Prop :=
  forall what first, request_of st = Some (what, first) ->
  exists first', request_of st' = Some (what, first') /\ (first = None \/ first = first').

#[export] Instance keeps_request_preorder : PreOrder keeps_request.
Proof.
  split; [by intros st what first; eauto|]. intros st1 st2 st3 H12 H23 what first H1.
  destruct (H12 _ _ H1) as (f2 & H2 & E2). destruct (H23 _ _ H2) as (f3 & H3 & E3).
  exists f3. split; [done|]. naive_solver.
Qed.

Lemma request_with_hold hold st : request_of (with_hold hold st) = request_of st.
Proof. by destruct st. Qed.

Lemma case_step_keeps s s' : case_step s s' -> keeps_request (cs_stage s) (cs_stage s').
Proof.
  intros Hs what first Hw. destruct Hs as [w Hst|w t h Hst _ _|w f t Hst _|w f h Hst _|w f h Hst|w f t _ _ _];
    cbn; rewrite ?request_with_hold; try rewrite Hst in Hw; cbn in Hw; [done|naive_solver..|eauto].
Qed.

Lemma case_step_clock s s' : case_step s s' -> cs_clock s' = cs_clock s.
Proof. by intros []. Qed.

Lemma case_moves_keep s s' :
  case_moves s s' -> keeps_request (cs_stage s) (cs_stage s') /\ cs_clock s <= cs_clock s'.
Proof.
  intros [t Ht|t s2 Ht Hs]; [done|]. split; [exact (case_step_keeps _ _ Hs)|].
  apply case_step_clock in Hs. cbn in Hs. lia.
Qed.

Lemma case_steps_keep s s' :
  rtc case_moves s s' -> keeps_request (cs_stage s) (cs_stage s') /\ cs_clock s <= cs_clock s'.
Proof.
  induction 1 as [s|s1 s2 s3 H12%case_moves_keep _ [IHk IHc]]; [split; [done|lia]|].
  destruct H12. split; [by etrans|lia].
Qed.

(** Every execution is of the request, and had its approvals. *)
Definition runs_authorised (s : Case) : Prop :=
  forall tool payload, (tool, payload) ∈ cs_runs s ->
  exists what first, request_of (cs_stage s) = Some (what, first) /\
    tool = rq_tool what /\ payload = rq_payload what /\ authorised what first (cs_clock s).

Lemma later_authorised t s : cs_clock s <= t -> runs_authorised s -> runs_authorised (later t s).
Proof.
  intros Ht Hr tool payload Hin. destruct (Hr _ _ Hin) as (what & first & Hq & Hto & Hp & Ha).
  exists what, first. split_and!; [done..|]. eapply authorised_later; [by right|exact Ht|done].
Qed.

Lemma case_step_authorised s s' : case_step s s' -> runs_authorised s -> runs_authorised s'.
Proof.
  intros Hs Hr tool payload Hin.
  assert (Hold : (tool, payload) ∈ cs_runs s -> exists what first,
    request_of (cs_stage s') = Some (what, first) /\
    tool = rq_tool what /\ payload = rq_payload what /\ authorised what first (cs_clock s')).
  { intros Hi. destruct (Hr _ _ Hi) as (what & first & Hq & Ht & Hp & Ha).
    destruct (case_step_keeps _ _ Hs _ _ Hq) as (first' & Hq' & Hf). exists what, first'.
    split_and!; [done..|]. eapply authorised_later; [exact Hf| |done]. by rewrite (case_step_clock _ _ Hs). }
  destruct Hs as [w Hst|w t h Hst _ _|w f t Hst _|w f h Hst _|w f h Hst|w f t Hq Hh Ha]; try by apply Hold.
  cbn in Hin. apply elem_of_app in Hin as [Hin|Hin%list_elem_of_singleton]; [by apply Hold|].
  injection Hin as -> ->. exists w, f. cbn. by rewrite request_with_hold.
Qed.

Lemma case_steps_authorised s s' : rtc case_moves s s' -> runs_authorised s -> runs_authorised s'.
Proof.
  induction 1 as [s|s1 s' s3 [t Ht|t s2 Ht Hs] _ IH]; [done|..]; intros Hr; apply IH; [by apply later_authorised|].
  eapply case_step_authorised; [exact Hs|by apply later_authorised].
Qed.

(** A first approval is the one found at the start, or its wait is of 30 seconds. *)
Definition waits_from (first0 : option FirstApproval) (st : Stage) : Prop :=
  forall what first, request_of st = Some (what, first) ->
  first = first0 \/ exists t, first = Some (t, t + DUAL_CONFIRM_DELAY_MS).

Lemma case_step_wait first0 s s' :
  case_step s s' -> cs_stage s <> Unborn -> waits_from first0 (cs_stage s) -> waits_from first0 (cs_stage s').
Proof.
  intros Hs Hb Hw what first.
  destruct Hs as [w Hst|w t h Hst _ _|w f t Hst _|w f h Hst _|w f h Hst|w f t _ _ _]; cbn;
    rewrite ?request_with_hold; try apply Hw; try done; [by injection 1 as <- <-; right; eauto|..];
    injection 1 as <- <-; eapply Hw; by rewrite Hst.
Qed.

Lemma born_for_good s s' : case_moves s s' -> cs_stage s <> Unborn -> cs_stage s' <> Unborn.
Proof.
  intros [Hk _]%case_moves_keep Hb E. destruct (cs_stage s) as [|what first hold|what first hold]; [done|..];
    destruct (Hk what first) as (f & Hf & _); [done| |done|]; by rewrite E in Hf.
Qed.

Lemma case_steps_wait first0 s s' :
  rtc case_moves s s' -> cs_stage s <> Unborn -> waits_from first0 (cs_stage s) -> waits_from first0 (cs_stage s').
Proof.
  intros Hs. induction Hs as [s|s1 s' s3 H12 _ IH]; [done|]. intros Hb Hw. apply IH; [by eapply born_for_good|].
  destruct H12 as [t Ht|t s2 Ht H12]; [done|]. by eapply case_step_wait.
Qed.

(** ** What the store shows of a request *)

Definition row_request (r : PendingApprovalRow) : Request := {|
  rq_tool := pa_toolName r; rq_level := pa_level r; rq_hash := pa_inputsHash r;
  rq_summary := pa_planSummary r; rq_payload := pa_payload r; rq_createdAt := pa_createdAt r |}.

Definition row_first (r : PendingApprovalRow) : option FirstApproval :=
  match pa_firstApprovedAt r with
  | None => None
  | Some t1 => Some (t1, default (computeAvailableAt t1) (pa_availableAt r))
  end.

(** The row of a start: whoever had it is gone, and may have executed it. *)
Definition row_stage (r : PendingApprovalRow) : Stage :=
  Pending (row_request r) (row_first r)
    (match pa_executingAt r with None => Free | Some t => Started t end).

(** The instant that the row shows. *)
Definition hold_since (hold : Hold) : option Z :=
  match hold with Free => None | Held t | Started t => Some t end.

(** The starts of executions under [rid], in order. *)
Definition started_runs (rid : string) (trace : list ExecEvent) : list (string * json) :=
  omap (fun e => match e with
                 | ExecStart r tool payload => if decide (r = rid) then Some (tool, payload) else None
                 | _ => None
                 end) trace.

Definition shows (st : Stage) (row : option PendingApprovalRow) : Prop :=
  match row with
  | Some r => exists hold, st = Pending (row_request r) (row_first r) hold /\ hold_since hold = pa_executingAt r
  | None => match st with Pending _ _ _ => False | _ => True end
  end.

(** The store shows the case. *)
Record represents (rid : string) (s : Case) (w : World) : Prop := {
  rep_clock : cs_clock s = clock (w_sys w);
  rep_runs : cs_runs s = started_runs rid (w_execs w);
  rep_stage : shows (cs_stage s) (w_pending w !! rid)
}.

(** How the case of [rid] stands in a store found at a start. *)
Definition initial_case (rid : string) (w : World) : Case := {|
  cs_clock := clock (w_sys w);
  cs_stage := match w_pending w !! rid with Some r => row_stage r | None => Unborn end;
  cs_runs := started_runs rid (w_execs w) |}.

Lemma initial_represents rid w : represents rid (initial_case rid w) w.
Proof.
  split; [done..|]. unfold initial_case, shows; cbn. destruct (w_pending w !! rid) as [r|]; [|done].
  eexists. split; [done|]. by destruct (pa_executingAt r).
Qed.

(** ** The protocol of the methods about [rid] *)

Section Protocol.
Context (rid : string).

Inductive Knows :=
| kn_out                                      (* nothing *)
| kn_fresh                                    (* has drawn [rid] and not inserted its row *)
| kn_since (t : Z)                            (* has read the clock at [t] *)
| kn_saw (t : Z) (what : Request) (first : option FirstApproval)    (* and then the row *)
| kn_held (t : Z) (what : Request) (first : option FirstApproval)   (* and then took it *)
| kn_holder.                                  (* has the row, and will start nothing more *)

Definition is_fresh (k : Knows) : bool := match k with kn_fresh => true | _ => false end.
Definition is_holder (k : Knows) : bool := match k with kn_held _ _ _ | kn_holder => true | _ => false end.

(** Changes of the row of [rid] that need no knowledge of it. *)
Inductive row_change : option PendingApprovalRow -> option PendingApprovalRow -> Prop :=
| row_same o : row_change o o
| row_kept r r' : row_request r' = row_request r -> row_first r' = row_first r ->
    pa_executingAt r' = pa_executingAt r -> row_change (Some r) (Some r')
| row_removed o : row_change o None.

Record tame (w w' : World) : Prop := {
  tame_clock : clock (w_sys w) <= clock (w_sys w');
  tame_uuids : (uuids (w_sys w) <= uuids (w_sys w'))%nat;
  tame_runs : started_runs rid (w_execs w') = started_runs rid (w_execs w);
  tame_row : row_change (w_pending w !! rid) (w_pending w' !! rid)
}.

#[export] Instance row_change_preorder : PreOrder row_change.
Proof.
  split; [constructor|]. intros o1 o2 o3 H12 H23.
  destruct H12 as [o|r r' Hq Hf He|o]; [done| |by inversion H23; subst; constructor].
  inversion H23; subst; constructor; congruence.
Qed.

#[export] Instance tame_preorder : PreOrder tame.
Proof.
  split; [by split|]. intros w1 w2 w3 [C1 U1 R1 P1] [C2 U2 R2 P2].
  split; [lia|lia|congruence|by etrans].
Qed.

(** One statement writes the row, at one instant. *)
Definition same_but_row (w w' : World) : Prop :=
  clock (w_sys w') = clock (w_sys w) /\ uuids (w_sys w') = uuids (w_sys w) /\ w_execs w' = w_execs w.

(** What a method saw of the row stays true of it. *)
Definition saw_holds (t : Z) (what : Request) (first : option FirstApproval) (w : World) : Prop :=
  t <= clock (w_sys w) /\
  forall r, w_pending w !! rid = Some r ->
    row_request r = what /\ (first = None \/ first = row_first r).

Definition kn_holds (k : Knows) (w : World) : Prop :=
  match k with
  | kn_out | kn_fresh | kn_holder => True
  | kn_since t => t <= clock (w_sys w)
  | kn_saw t what first | kn_held t what first => saw_holds t what first w
  end.

Inductive kn_moves : Knows -> World -> World -> Knows -> Prop :=
| km_stay k w w' k' : tame w w' -> k' = k \/ k' = kn_out -> kn_moves k w w' k'
| km_draw w w' : tame w w' -> undrawn rid w -> ~ undrawn rid w' -> kn_moves kn_out w w' kn_fresh
| km_ask input w w' :
    w_pending w' !! rid = Some (new_pending_row input (clock (w_sys w))) -> same_but_row w w' ->
    kn_moves kn_fresh w w' kn_out
| km_clock w : kn_moves kn_out w w (kn_since (clock (w_sys w)))
| km_again t what first w : kn_moves (kn_saw t what first) w w (kn_saw (clock (w_sys w)) what first)
| km_see t k r w w' :
    (k = kn_since t \/ exists what first, k = kn_saw t what first) ->
    tame w w' -> w_pending w !! rid = Some r ->
    kn_moves k w w' (kn_saw t (row_request r) (row_first r))
| km_first t what first r w w' :
    rq_level what = "dual-confirm" ->
    w_pending w !! rid = Some r -> row_first r = None ->
    (exists r', w_pending w' !! rid = Some r' /\ row_request r' = row_request r /\
      pa_executingAt r' = pa_executingAt r /\ row_first r' = Some (t, t + DUAL_CONFIRM_DELAY_MS)) ->
    same_but_row w w' -> kn_moves (kn_saw t what first) w w' (kn_saw t what first)
| km_claim k t r w w' k' :
    w_pending w !! rid = Some r -> pa_executingAt r = None ->
    w_pending w' !! rid = Some (set_execution (Some t) None r) -> same_but_row w w' ->
    (k = kn_since t /\ k' = kn_holder \/
     exists what first, k = kn_saw t what first /\ k' = kn_held t what first) ->
    kn_moves k w w' k'
| km_release k err w w' :
    is_holder k = true ->
    w_pending w' !! rid = set_execution None err <$> w_pending w !! rid -> same_but_row w w' ->
    kn_moves k w w' kn_out
| km_start t what first w :
    authorised what first t ->
    kn_moves (kn_held t what first) w
      (upd_execs (fun l => l ++ [ExecStart rid (rq_tool what) (rq_payload what)]) w) kn_holder.

Abbreviation kn_follows := (follows kn_holds kn_moves).

(** ** The simulation *)

(** What a method saw is true of the case. *)
Definition saw_true (t : Z) (what : Request) (first : option FirstApproval) (s : Case) : Prop :=
  t <= cs_clock s /\
  exists first', request_of (cs_stage s) = Some (what, first') /\ (first = None \/ first = first').

(** What a method knows is true of the case. *)
Definition consistent (s : Case) (k : Knows) : Prop :=
  match k with
  | kn_out => True
  | kn_fresh => cs_stage s = Unborn
  | kn_since t => t <= cs_clock s
  | kn_saw t what first => saw_true t what first s
  | kn_held t what first => saw_true t what first s /\ exists u, hold_of (cs_stage s) = Some (Held u)
  | kn_holder => exists hold, hold_of (cs_stage s) = Some hold /\ hold <> Free
  end.

(** One identifier is drawn by one method, which asks with it at most once, and its row is
    in the hands of one method at most. *)
Definition one_each (s : Case) (w : World) (ks : list Knows) : Prop :=
  (tally is_fresh ks <= 1)%nat /\ (tally is_holder ks <= 1)%nat /\
  (undrawn rid w -> cs_stage s = Unborn /\ tally is_fresh ks = 0%nat).

Definition kn_inv (s : Case) (w : World) (ks : list Knows) : Prop :=
  represents rid s w /\ Forall (consistent s) ks /\ one_each s w ks.

Lemma consistent_holds s w k : represents rid s w -> consistent s k -> kn_holds k w.
Proof.
  intros [Hc _ Hst] Hk.
  assert (Hsaw : forall t what first, saw_true t what first s -> saw_holds t what first w).
  { intros t what first (Ht & first' & Hq & Hfi). split; [lia|]. intros r Hr. rewrite Hr in Hst.
    destruct Hst as (h & Hst & _). rewrite Hst in Hq. cbn in Hq. by injection Hq as -> <-. }
  destruct k as [| |t|t what first|t what first|]; cbn in *; [done..|lia|auto|naive_solver|done].
Qed.

Lemma kn_inv_holds s w l1 k l2 : kn_inv s w (l1 ++ k :: l2) -> kn_holds k w.
Proof.
  intros (Hrep & Hf & _). apply Forall_app in Hf as [_ [Hk _]%Forall_cons]. by eapply consistent_holds.
Qed.

Lemma saw_true_step t what first s s' :
  cs_clock s <= cs_clock s' -> keeps_request (cs_stage s) (cs_stage s') ->
  saw_true t what first s -> saw_true t what first s'.
Proof.
  intros Hc Hr (Ht & f1 & Hq & Hf). split; [lia|]. destruct (Hr _ _ Hq) as (f2 & Hq2 & Hf2).
  exists f2. split; [done|]. naive_solver.
Qed.

(** A move of the case keeps what a method knows, if it does not ask for the identifier
    that the method has drawn, nor change the hold of the method. *)
Lemma consistent_step s s' k :
  is_fresh k = false \/ cs_stage s' = cs_stage s ->
  is_holder k = false \/ hold_of (cs_stage s') = hold_of (cs_stage s) ->
  case_moves s s' -> consistent s k -> consistent s' k.
Proof.
  intros Hf Hh [Hr Hc]%case_moves_keep. destruct k as [| |t|t what first|t what first|]; cbn in *.
  - done.
  - destruct Hf as [|E]; [done|]. by rewrite E.
  - lia.
  - by apply saw_true_step.
  - destruct Hh as [|E]; [done|]. rewrite E. intros [Hs Hu]. split; [by eapply saw_true_step|done].
  - destruct Hh as [|E]; [done|]. by rewrite E.
Qed.

Lemma tally_none {A} (f : A -> bool) l : tally f l = 0%nat <-> Forall (fun x => f x = false) l.
Proof.
  induction l as [|x l IH]; cbn; [by split|]. rewrite Forall_cons, <- IH. destruct (f x); naive_solver lia.
Qed.

Lemma Forall_consistent_step s s' ks :
  tally is_fresh ks = 0%nat \/ cs_stage s' = cs_stage s ->
  tally is_holder ks = 0%nat \/ hold_of (cs_stage s') = hold_of (cs_stage s) ->
  case_moves s s' -> Forall (consistent s) ks -> Forall (consistent s') ks.
Proof.
  intros Hf Hh Hm. rewrite !tally_none in *. rewrite !Forall_forall in *. intros Hc k Hk.
  apply (consistent_step s); naive_solver.
Qed.

(** A fresh method means that the case is unborn. *)
Lemma fresh_unborn s ks : Forall (consistent s) ks -> tally is_fresh ks = 0%nat \/ cs_stage s = Unborn.
Proof.
  induction 1 as [|k ks Hk _ IH]; [by left|]. destruct k; cbn; auto.
Qed.

(** Nobody has the row when the case is free, or not born. *)
Lemma no_holder s ks :
  Forall (consistent s) ks -> hold_of (cs_stage s) = Some Free \/ hold_of (cs_stage s) = None ->
  tally is_holder ks = 0%nat.
Proof.
  intros Hf Hh. induction Hf as [|k ks Hk _ IH]; [done|]. cbn. destruct k; cbn; try done.
  - destruct Hk as (_ & u & Hu). naive_solver congruence.
  - destruct Hk as (h & Hu & Hn). naive_solver congruence.
Qed.

Lemma undrawn_tame w w' : (uuids (w_sys w) <= uuids (w_sys w'))%nat -> undrawn rid w' -> undrawn rid w.
Proof. intros U (n & Hn & ->). exists n. split; [lia|done]. Qed.

(** A tame change is time that passes, or the row goes away. *)
Lemma tame_simulated s w w' :
  represents rid s w -> tame w w' ->
  exists s', case_moves s s' /\ represents rid s' w' /\ hold_of (cs_stage s') = hold_of (cs_stage s) /\
    (cs_stage s = Unborn -> cs_stage s' = Unborn).
Proof.
  intros [Hc Hr Hst] [Tc _ Tr Trow]. rewrite <- Hc in Tc. set (t := clock (w_sys w')) in *.
  assert (Hstay : shows (cs_stage s) (w_pending w' !! rid) -> exists s', case_moves s s' /\
    represents rid s' w' /\ hold_of (cs_stage s') = hold_of (cs_stage s) /\ (cs_stage s = Unborn -> cs_stage s' = Unborn)).
  { intros Hs'. exists (later t s). split; [by apply moves_time|]. split; [|done].
    split; [done|by rewrite Tr|done]. }
  inversion Trow as [o E1 E2|r r' Hq Hf He E1 E2|o E1 E2]; subst.
  - apply Hstay. by rewrite <- E2.
  - apply Hstay. rewrite <- E1 in Hst. rewrite <- E2. destruct Hst as (h & Hst & Hh).
    exists h. by rewrite Hst, Hq, Hf, He.
  - rewrite <- E2 in Hstay. destruct (cs_stage s) as [|what first h|what first h] eqn:Es; [by apply Hstay| |by apply Hstay].
    exists (at_stage (Gone what first h) (later t s)). split.
    { eapply moves_step; [exact Tc|]. by eapply case_closed. }
    split; [|done]. split; [done|by rewrite Tr|]. by rewrite <- E2.
Qed.

(** The move of one method, when the case moves with it. *)
Lemma kn_inv_move s s' w w' l1 k k' l2 :
  kn_inv s w (l1 ++ k :: l2) -> case_moves s s' -> represents rid s' w' ->
  (tally is_fresh (l1 ++ l2) = 0%nat \/ cs_stage s' = cs_stage s) ->
  (tally is_holder (l1 ++ l2) = 0%nat \/ hold_of (cs_stage s') = hold_of (cs_stage s)) ->
  consistent s' k' -> one_each s' w' (l1 ++ k' :: l2) ->
  exists s', case_moves s s' /\ kn_inv s' w' (l1 ++ k' :: l2).
Proof.
  intros (_ & Hf & _) Hm Hrep Hfresh Hhold Hk Hone. exists s'. split; [done|]. split; [done|]. split; [|done].
  apply Forall_app in Hf as [H1 [_ H2]%Forall_cons].
  assert (H12 : Forall (consistent s') (l1 ++ l2)).
  { eapply Forall_consistent_step; [exact Hfresh|exact Hhold|exact Hm|]. apply Forall_app. by split. }
  apply Forall_app in H12 as [H1' H2']. apply Forall_app. by split; [|constructor].
Qed.

Lemma one_each_less s s' w w' ks ks' :
  one_each s w ks -> (uuids (w_sys w) <= uuids (w_sys w'))%nat ->
  (tally is_fresh ks' <= tally is_fresh ks)%nat -> (tally is_holder ks' <= tally is_holder ks)%nat ->
  (cs_stage s = Unborn -> cs_stage s' = Unborn) -> one_each s' w' ks'.
Proof.
  intros (Hf & Hh & Hu) Huu Hf' Hh' Hb. split; [lia|]. split; [lia|].
  intros Hun%(undrawn_tame _ _ Huu). destruct (Hu Hun). split; [auto|lia].
Qed.

(** An identifier whose case is born is drawn. *)
Lemma one_each_born s s' w w' ks ks' :
  one_each s w ks -> uuids (w_sys w') = uuids (w_sys w) -> cs_stage s <> Unborn ->
  (tally is_fresh ks' <= tally is_fresh ks)%nat -> (tally is_holder ks' <= 1)%nat -> one_each s' w' ks'.
Proof.
  intros (Hf & Hh & Hu) Huu Hb Hf' Hh'. split; [lia|]. split; [done|].
  intros Hun. destruct Hu as [E _]; [|done]. unfold undrawn in *. by rewrite <- Huu.
Qed.

Lemma kn_inv_of s w l1 k l2 :
  kn_inv s w (l1 ++ k :: l2) -> represents rid s w /\ consistent s k /\ one_each s w (l1 ++ k :: l2) /\
  (tally is_fresh (l1 ++ k :: l2) = 0%nat \/ cs_stage s = Unborn) /\
  (hold_of (cs_stage s) = Some Free \/ hold_of (cs_stage s) = None -> tally is_holder (l1 ++ k :: l2) = 0%nat).
Proof.
  intros (Hrep & Hf & Hone). split; [done|]. split; [by apply Forall_app in Hf as [_ [? _]%Forall_cons]|].
  split; [done|]. split; [by apply fresh_unborn|]. intros Hh. by eapply no_holder.
Qed.

(** The phase of a method changes with a tame change of the store. *)
Lemma kn_inv_tame s w w' l1 k k' l2 :
  kn_inv s w (l1 ++ k :: l2) -> tame w w' ->
  (is_fresh k' = true -> is_fresh k = true) -> (is_holder k' = true -> is_holder k = true) ->
  (forall s', case_moves s s' -> represents rid s' w' -> hold_of (cs_stage s') = hold_of (cs_stage s) ->
     (cs_stage s = Unborn -> cs_stage s' = Unborn) -> consistent s' k') ->
  exists s', case_moves s s' /\ kn_inv s' w' (l1 ++ k' :: l2).
Proof.
  intros Hi Ht Hf Hh Hk. destruct (kn_inv_of _ _ _ _ _ Hi) as (Hrep & _ & Hone & Hfr & _).
  destruct (tame_simulated s w w' Hrep Ht) as (s' & Hm & Hrep' & Hhold & Hunb).
  apply (kn_inv_move s s' w w' l1 k k' l2); [done..| | | |].
  - destruct Hfr as [E|E]; [left|right; by rewrite E, Hunb]. rewrite tally_middle in E. lia.
  - by right.
  - by apply Hk.
  - eapply one_each_less; [exact Hone|apply Ht| | |exact Hunb]; rewrite !tally_middle.
    + destruct (is_fresh k'); [by rewrite Hf|lia].
    + destruct (is_holder k'); [by rewrite Hh|lia].
Qed.

Lemma kn_inv_draw s w w' l1 l2 :
  kn_inv s w (l1 ++ kn_out :: l2) -> tame w w' -> undrawn rid w -> ~ undrawn rid w' ->
  exists s', case_moves s s' /\ kn_inv s' w' (l1 ++ kn_fresh :: l2).
Proof.
  intros Hi Ht Hu Hnu. destruct (kn_inv_of _ _ _ _ _ Hi) as (Hrep & _ & (_ & Hh & Hun) & _).
  destruct (Hun Hu) as [Eu Ef]. destruct (tame_simulated s w w' Hrep Ht) as (s' & Hm & Hrep' & Hhold & Hunb).
  rewrite tally_middle in Ef, Hh. cbn in Ef, Hh.
  apply (kn_inv_move s s' w w' l1 kn_out kn_fresh l2); [done..|by left|by right|cbn; auto|].
  split; [rewrite tally_middle; cbn; lia|]. split; [by rewrite tally_middle|done].
Qed.

(** The new row: the case is born. *)
Lemma kn_inv_ask s w w' input l1 l2 :
  kn_inv s w (l1 ++ kn_fresh :: l2) ->
  w_pending w' !! rid = Some (new_pending_row input (clock (w_sys w))) -> same_but_row w w' ->
  exists s', case_moves s s' /\ kn_inv s' w' (l1 ++ kn_out :: l2).
Proof.
  intros Hi Hrow (Ec & Eu & Ee).
  destruct (kn_inv_of _ _ _ _ _ Hi) as ([Rc Rr Rst] & Hunb & (Hf1 & Hh1 & Hun) & _ & Hno). cbn in Hunb.
  set (what := row_request (new_pending_row input (clock (w_sys w)))).
  rewrite tally_middle in Hf1. cbn in Hf1. rewrite Hunb in Hno. specialize (Hno (or_intror eq_refl)).
  rewrite tally_middle in Hno. cbn in Hno.
  apply (kn_inv_move s (at_stage (Pending what None Free) (later (cs_clock s) s)) w w' l1 kn_fresh kn_out l2 Hi).
  - eapply moves_step; [reflexivity|]. by apply case_asked.
  - split; cbn; [by rewrite Ec|by rewrite Ee|]. rewrite Hrow. by exists Free.
  - left. lia.
  - by left.
  - done.
  - split; [rewrite tally_middle; cbn; lia|]. split; [rewrite tally_middle; cbn; lia|]. intros Hu'.
    assert (undrawn rid w) as [_ Hbad]%Hun by (unfold undrawn in *; by rewrite <- Eu).
    rewrite tally_middle in Hbad. cbn in Hbad. lia.
Qed.

Lemma started_runs_snoc trace e : started_runs rid (trace ++ [e]) = started_runs rid trace ++ started_runs rid [e].
Proof. apply omap_app. Qed.

Lemma later_now s : later (cs_clock s) s = s.
Proof. by destruct s. Qed.

(** A step of a case that is born, by a method that is not fresh. *)
Lemma kn_inv_step s s' w w' l1 k k' l2 :
  kn_inv s w (l1 ++ k :: l2) -> case_step s s' -> represents rid s' w' -> uuids (w_sys w') = uuids (w_sys w) ->
  cs_stage s <> Unborn -> is_fresh k' = false -> consistent s' k' ->
  (tally is_holder (l1 ++ l2) = 0%nat \/ hold_of (cs_stage s') = hold_of (cs_stage s) /\ is_holder k' = is_holder k) ->
  exists s', case_moves s s' /\ kn_inv s' w' (l1 ++ k' :: l2).
Proof.
  intros Hi Hs Hrep' Huu Hborn Hf Hk Hh. destruct (kn_inv_of _ _ _ _ _ Hi) as (_ & _ & Hone & Hfr & _).
  destruct Hfr as [Hfr|]; [|done]. rewrite tally_middle in Hfr.
  apply (kn_inv_move s s' w w' l1 k k' l2 Hi); [|done|left; lia|naive_solver|done|].
  - eapply moves_step; [reflexivity|]. by rewrite later_now.
  - eapply one_each_born; [exact Hone|done|done|rewrite !tally_middle, Hf; lia|].
    rewrite tally_middle. destruct Hone as (_ & Hh1 & _). rewrite tally_middle in Hh1.
    destruct Hh as [E|[_ E]]; [rewrite E; destruct (is_holder k'); lia|by rewrite E].
Qed.

(** The row of a case that has one. *)
Lemma represents_row s w r :
  represents rid s w -> w_pending w !! rid = Some r ->
  exists h, cs_stage s = Pending (row_request r) (row_first r) h /\ hold_since h = pa_executingAt r.
Proof. intros [_ _ Hst] Hr. by rewrite Hr in Hst. Qed.

Lemma kn_inv_first s w w' t what first r l1 l2 :
  kn_inv s w (l1 ++ kn_saw t what first :: l2) ->
  rq_level what = "dual-confirm" -> w_pending w !! rid = Some r -> row_first r = None ->
  (exists r', w_pending w' !! rid = Some r' /\ row_request r' = row_request r /\
    pa_executingAt r' = pa_executingAt r /\ row_first r' = Some (t, t + DUAL_CONFIRM_DELAY_MS)) ->
  same_but_row w w' -> exists s', case_moves s s' /\ kn_inv s' w' (l1 ++ kn_saw t what first :: l2).
Proof.
  intros Hi Hl Hr Hnone (r' & Hr' & Hq & Hx & Hf) (Ec & Eu & Ee).
  destruct (kn_inv_of _ _ _ _ _ Hi) as (Hrep & Hk & _). pose proof Hrep as [Rc Rr _].
  destruct (represents_row _ _ _ Hrep Hr) as (h & Hst & Hh).
  destruct Hk as (Ht & f' & Hreq & Hfi). rewrite Hst in Hreq. cbn in Hreq. injection Hreq as <- <-.
  set (s' := at_stage (Pending (row_request r) (Some (t, t + DUAL_CONFIRM_DELAY_MS)) h) s).
  assert (Hstep : case_step s s') by (apply case_first; [by rewrite Hst, <- Hnone|done|done]).
  apply (kn_inv_step s s' w w' _ _ _ _ Hi Hstep); [|done|by rewrite Hst|done| |].
  - split; cbn; [by rewrite Ec|by rewrite Ee|]. rewrite Hr'. exists h. by rewrite Hq, Hf, Hx.
  - split; [done|]. cbn. eexists. split; [done|]. rewrite Hnone in Hfi. left. by destruct Hfi.
  - right. by rewrite Hst.
Qed.

Lemma kn_inv_claim s w w' t k k' r l1 l2 :
  kn_inv s w (l1 ++ k :: l2) -> w_pending w !! rid = Some r -> pa_executingAt r = None ->
  w_pending w' !! rid = Some (set_execution (Some t) None r) -> same_but_row w w' ->
  (k = kn_since t /\ k' = kn_holder \/
   exists what first, k = kn_saw t what first /\ k' = kn_held t what first) ->
  exists s', case_moves s s' /\ kn_inv s' w' (l1 ++ k' :: l2).
Proof.
  intros Hi Hr Hx Hr' (Ec & Eu & Ee) Hkk.
  destruct (kn_inv_of _ _ _ _ _ Hi) as (Hrep & Hk & _ & _ & Hno). pose proof Hrep as [Rc Rr _].
  destruct (represents_row _ _ _ Hrep Hr) as (h & Hst & Hh). rewrite Hx in Hh.
  assert (h = Free) as -> by by destruct h.
  specialize (Hno ltac:(left; by rewrite Hst)). rewrite tally_middle in Hno.
  assert (Ht : t <= cs_clock s).
  { destruct Hkk as [[-> _]|(what & first & -> & _)]; [exact Hk|apply Hk]. }
  set (s' := at_stage (Pending (row_request r) (row_first r) (Held t)) s).
  assert (Hstep : case_step s s') by by apply case_taken.
  apply (kn_inv_step s s' w w' _ _ _ _ Hi Hstep); [|done|by rewrite Hst|by destruct Hkk as [[-> ->]|(? & ? & -> & ->)]| |left; lia].
  - split; cbn; [by rewrite Ec|by rewrite Ee|]. rewrite Hr'. by exists (Held t).
  - destruct Hkk as [[-> ->]|(what & first & -> & ->)]; cbn; [by eexists|]. split; [|by exists t].
    eapply saw_true_step; [|exact (case_step_keeps _ _ Hstep)|exact Hk]. done.
Qed.

Lemma kn_inv_release s w w' k err l1 l2 :
  kn_inv s w (l1 ++ k :: l2) -> is_holder k = true ->
  w_pending w' !! rid = set_execution None err <$> w_pending w !! rid -> same_but_row w w' ->
  exists s', case_moves s s' /\ kn_inv s' w' (l1 ++ kn_out :: l2).
Proof.
  intros Hi Hhold Hr' (Ec & Eu & Ee).
  destruct (kn_inv_of _ _ _ _ _ Hi) as (Hrep & Hk & Hone & _). pose proof Hrep as [Rc Rr Rst].
  pose proof Hone as (_ & Hh1 & _).
  assert (Hh : exists h, hold_of (cs_stage s) = Some h /\ h <> Free).
  { destruct k; try done. destruct Hk as (_ & u & Hu). by eexists. }
  destruct Hh as (h & Hh & Hne). rewrite tally_middle, Hhold in Hh1.
  destruct (w_pending w !! rid) as [r|] eqn:Hr; cbn in Hr'.
  - destruct Rst as (h2 & Hst & Hs). assert (h2 = h) as -> by (rewrite Hst in Hh; by injection Hh).
    set (s' := at_stage (Pending (row_request r) (row_first r) Free) s).
    assert (Hstep : case_step s s') by by eapply case_given_back.
    apply (kn_inv_step s s' w w' _ _ _ _ Hi Hstep); [|done|by rewrite Hst|done|done|left; lia].
    split; cbn; [by rewrite Ec|by rewrite Ee|]. rewrite Hr'. by exists Free.
  - eapply (kn_inv_move s (later (cs_clock s) s) w w' l1 k kn_out l2 Hi); [by apply moves_time| |by right|by right|done|].
    + split; cbn; [by rewrite Ec|by rewrite Ee|]. by rewrite Hr'.
    + eapply one_each_less; [exact Hone|by rewrite Eu|rewrite !tally_middle; cbn; lia..|done].
Qed.

Lemma kn_inv_run s w t what first l1 l2 :
  kn_inv s w (l1 ++ kn_held t what first :: l2) -> authorised what first t ->
  exists s', case_moves s s' /\
    kn_inv s' (upd_execs (fun l => l ++ [ExecStart rid (rq_tool what) (rq_payload what)]) w) (l1 ++ kn_holder :: l2).
Proof.
  intros Hi Ha. destruct (kn_inv_of _ _ _ _ _ Hi) as (Hrep & Hk & (_ & Hh1 & _) & _). pose proof Hrep as [Rc Rr Rst].
  destruct Hk as ((Ht & f & Hq & Hf) & u & Hu). rewrite tally_middle in Hh1. cbn in Hh1.
  set (s' := {| cs_clock := cs_clock s; cs_stage := with_hold (Started u) (cs_stage s);
                cs_runs := cs_runs s ++ [(rq_tool what, rq_payload what)] |}).
  assert (Hstep : case_step s s') by (eapply case_started; [exact Hq|done|by eapply authorised_later]).
  eapply (kn_inv_step s s' w _ _ _ kn_holder _ Hi Hstep); [|done|by intros E; rewrite E in Hq|done| |left; lia].
  - split; [done| |].
    + cbn [cs_runs s' upd_execs w_execs]. rewrite started_runs_snoc, Rr. cbn. by rewrite decide_True.
    + cbn [upd_execs w_pending cs_stage s']. unfold shows in *. destruct (w_pending w !! rid) as [r|].
      * destruct Rst as (h & Hst & Hs). rewrite Hst in *. cbn in Hu. injection Hu as ->. by exists (Started u).
      * by destruct (cs_stage s).
  - cbn. destruct (cs_stage s); [done|by eexists..].
Qed.

Lemma kn_inv_moves s w w' l1 k k' l2 :
  kn_inv s w (l1 ++ k :: l2) -> kn_moves k w w' k' ->
  exists s', case_moves s s' /\ kn_inv s' w' (l1 ++ k' :: l2).
Proof.
  intros Hi Hm. destruct (kn_inv_of _ _ _ _ _ Hi) as (Hrep & Hk & _).
  destruct Hm as [k w w' k' Ht Hkk|w w' Ht Hu Hnu|input w w' Hrow Hs|w|t what first w|t k r w w' Hkk Ht Hr
                 |t what first r w w' Hl Hr Hnone Hr' Hs|k t r w w' k' Hr Hx Hr' Hs Hkk|k err w w' Hh Hr' Hs
                 |t what first w Ha].
  - eapply kn_inv_tame; [exact Hi|exact Ht|by destruct Hkk as [->| ->]..|].
    intros s' Hm _ Hhold Hunb. destruct Hkk as [->| ->]; [|done].
    apply (consistent_step s); [|by right|done|done]. destruct (is_fresh k) eqn:E; [right|by left].
    destruct k; try done. cbn in Hk. by rewrite Hk, Hunb.
  - by apply (kn_inv_draw s w).
  - by eapply kn_inv_ask.
  - eapply (kn_inv_tame s w w); [exact Hi|done|done|done|]. intros s' _ [Rc _ _] _ _. cbn. lia.
  - eapply (kn_inv_tame s w w); [exact Hi|done|done|done|]. intros s' Hm [Rc _ _] _ _.
    apply case_moves_keep in Hm as [Hkeep Hc]. destruct Hk as (Ht & f & Hq & Hf).
    split; [lia|]. destruct (Hkeep _ _ Hq) as (f2 & Hq2 & Hf2). exists f2. split; [done|naive_solver].
  - eapply kn_inv_tame; [exact Hi|exact Ht|done|done|]. intros s' Hm _ _ _.
    destruct (represents_row _ _ _ Hrep Hr) as (h & Hst & _).
    change (saw_true t (row_request r) (row_first r) s').
    apply case_moves_keep in Hm as [Hkeep Hc]. refine (saw_true_step _ _ _ s s' Hc Hkeep _). split.
    + destruct Hkk as [->|(what & first & ->)]; [exact Hk|apply Hk].
    + exists (row_first r). rewrite Hst. auto.
  - by eapply kn_inv_first.
  - by eapply kn_inv_claim.
  - by eapply kn_inv_release.
  - by eapply kn_inv_run.
Qed.

Lemma kn_inv_env s w w' ks : time_passes w w' -> kn_inv s w ks -> exists s', case_moves s s' /\ kn_inv s' w' ks.
Proof.
  intros (t & Ht & ->) ([Rc Rr Rst] & Hf & Hone). exists (later t s).
  assert (Hm : case_moves s (later t s)) by (apply moves_time; lia). split; [done|]. split; [done|]. split.
  - apply (Forall_consistent_step s); [by right|by right|done|done].
  - eapply one_each_less; [exact Hone|done|lia|lia|done].
Qed.

Lemma kn_inv_spawn s w ks : kn_inv s w ks -> exists s', case_moves s s' /\ kn_inv s' w (ks ++ [kn_out]).
Proof.
  intros (Hrep & Hf & Hone). exists s. split; [rewrite <- (later_now s) at 2; by apply moves_time|].
  split; [done|]. split; [by apply Forall_app_single|].
  eapply one_each_less; [exact Hone|done|rewrite tally_app; cbn; lia..|done].
Qed.

Lemma kn_inv_start w : start_store w -> kn_inv (initial_case rid w) w [].
Proof.
  intros [_ Hp]. split; [apply initial_represents|]. split; [done|].
  split; [cbn; lia|]. split; [cbn; lia|]. intros (n & Hn & ->). unfold initial_case. cbn [cs_stage]. by rewrite Hp.
Qed.
End Protocol.

(** ** The statements of the code keep to the protocol *)

(** What an executor may do, and that it does not turn the clock back. *)
Definition punctual (executors : ToolExecutorRegistry) : Prop :=
  forall tool ex, executors !! tool = Some ex ->
  forall payload rid, steps (fun w w' => clock (w_sys w) <= clock (w_sys w')) (ex payload rid).

Section Statements.
Context (rid : string).
Abbreviation tm := (tame rid).

Lemma tame_pending m w :
  row_change (w_pending w !! rid) (m !! rid) -> tm w (upd_pending (fun _ => m) w).
Proof. intros H. split; [cbn; lia|done|done|exact H]. Qed.

Lemma tame_update r cond f w :
  r <> rid \/ (forall row, row_request (f row) = row_request row /\ row_first (f row) = row_first row /\
                 pa_executingAt (f row) = pa_executingAt row) ->
  tm w (update_pending r cond f w).1.
Proof.
  intros H. unfold update_pending. destruct (w_pending w !! r) as [row|] eqn:E; [|done].
  destruct (cond row); [|done]. apply tame_pending.
  destruct (decide (r = rid)) as [->|Hne]; [|rewrite lookup_insert_ne by done; constructor].
  destruct H as [|H]; [done|]. rewrite E, lookup_insert_eq. by constructor; apply H.
Qed.

Lemma tame_delete r cond w : tm w (delete_pending r cond w).1.
Proof.
  unfold delete_pending. destruct (w_pending w !! r) as [row|] eqn:E; [|done].
  destruct (cond row); [|done]. apply tame_pending.
  destruct (decide (r = rid)) as [->|Hne]; [rewrite lookup_delete_eq|rewrite lookup_delete_ne by done]; constructor.
Qed.

Lemma tame_audit w w' : audit_only w w' -> tm w w'.
Proof. intros [[= Hc Hu _ Hp _ _ _ _ _ _ He _ _] _]. split; [lia|lia|by rewrite He|rewrite Hp; constructor]. Qed.

Lemma tame_tick w : tm w (tick w).
Proof. split; [cbn; lia|done|done|constructor]. Qed.

Lemma tame_emit e w : tm w (upd_events (fun l => l ++ [e]) w).
Proof. split; [cbn; lia|done|done|constructor]. Qed.

Lemma tame_event e w : started_runs rid [e] = [] -> tm w (upd_execs (fun l => l ++ [e]) w).
Proof.
  intros He. split; [cbn; lia|done| |constructor].
  cbn [upd_execs w_execs]. by rewrite started_runs_snoc, He, app_nil_r.
Qed.

Lemma steps_tame_db {X} (f : World -> World * X) : (forall w, tm w (f w).1) -> steps tm (db f).
Proof.
  intros Hf. apply steps_db; [apply tame_tick|]. intros w. etrans; [apply tame_tick|apply Hf].
Qed.

Lemma steps_tame_read {X} (f : World -> X) : steps tm (db_read f).
Proof. by apply steps_tame_db. Qed.

Lemma steps_tame_now : steps tm now.
Proof. done. Qed.

Lemma steps_tame_emit e : steps tm (emit e).
Proof. split; [intros w; apply tame_emit|done]. Qed.

Lemma steps_tame_appends data p : appends data p -> steps tm p.
Proof. intros [H _ _ _ _]. eapply steps_mono; [|exact H]. apply tame_audit. Qed.

Lemma steps_tame_removePending r : steps tm (DualConfirm.removePending r).
Proof. apply steps_bind; [|done]. apply steps_tame_db, tame_delete. Qed.

(** The decisions about another identifier. *)
Lemma tame_frame r : r <> rid -> decision_frame tm r.
Proof.
  intros Hr. split; try apply _; intros; auto using tame_audit, tame_delete, tame_emit; apply tame_update; by left.
Qed.

Lemma steps_tame_executor executors tool ex payload r :
  well_behaved executors -> punctual executors -> executors !! tool = Some ex -> steps tm (ex payload r).
Proof.
  intros Hwb Hp He. specialize (Hwb tool ex He payload r). specialize (Hp tool ex He payload r).
  eapply steps_mono; [|exact (steps_and _ _ _ Hwb Hp)]. cbn. intros w w' [(Hpe & Hex & Hu & _) Hc].
  split; [done|done|by rewrite Hex|rewrite Hpe; constructor].
Qed.

Lemma steps_tame_execute_other executors tool payload r :
  well_behaved executors -> punctual executors -> r <> rid ->
  steps tm (execute executors tool payload (Some r)).
Proof.
  intros Hwb Hp Hr. unfold execute. destruct (executors !! tool) as [ex|] eqn:E; [|done].
  apply steps_bind.
  { split; [|done]. intros w. apply tame_event. cbn. by rewrite decide_False. }
  intros _. apply steps_try_with; [by eapply steps_tame_executor|..]; intros x;
    (apply steps_bind; [split; [intros w; by apply tame_event|done]|done]).
Qed.

Lemma steps_tame_resolveAndExecute_other `{Laws : AuditApiLaws} executors r approver :
  well_behaved executors -> punctual executors -> r <> rid ->
  steps tm (ApprovalExecution.resolveAndExecute executors r approver).
Proof.
  intros Hwb Hp Hr. apply steps_frame_resolveAndExecute; [by apply tame_frame|..].
  - intros. apply tame_update. by left.
  - intros. by apply steps_tame_execute_other.
Qed.
End Statements.

Abbreviation kf rid := (follows (kn_holds rid) (kn_moves rid)).

Section Follow.
Context `{Laws : AuditApiLaws} (rid : string).
Context (executors : ToolExecutorRegistry) (Hwb : well_behaved executors) (Hp : punctual executors).

Definition anyhow {A} : Knows -> JinError + A -> Prop := fun _ _ => True.

Lemma kf_steps {A} k (p : jin A) : steps (tame rid) p -> kf rid k p (fun k' _ => k' = k).
Proof. apply follows_steps. intros w w' _ H. apply km_stay; [exact H|by left]. Qed.

Lemma kf_any {A} k (p : jin A) : steps (tame rid) p -> kf rid k p anyhow.
Proof. intros H. eapply follows_mono; [by apply kf_steps|done]. Qed.

Lemma km_tick k k' w : k' = k \/ k' = kn_out -> kn_moves rid k w (tick w) k'.
Proof. apply km_stay, tame_tick. Qed.

(** A statement writes the row of [rid], and nothing else. *)
Lemma same_but_pending (w : World) (m : gmap string PendingApprovalRow) :
  same_but_row w (upd_pending (fun _ => m) (tick w)).
Proof. done. Qed.

(** After reading the row at an instant not before [t]. *)
Definition after_read (t : Z) (k : Knows) (r : JinError + option PendingApprovalRow) : Prop :=
  match r with
  | inr (Some row) => k = kn_saw t (row_request row) (row_first row)
  | _ => True
  end.

Lemma kf_getPending t k :
  (k = kn_since t \/ exists what first, k = kn_saw t what first) ->
  kf rid k (DualConfirm.getPending rid) (after_read t).
Proof.
  intros Hk w _. unfold db_act. destruct (faulty w).
  { exists k. split; [apply km_tick; by left|done]. }
  cbn. change (w_pending (tick w)) with (w_pending w).
  destruct (w_pending w !! rid) as [row|] eqn:E.
  - exists (kn_saw t (row_request row) (row_first row)). split; [|done].
    eapply km_see; [exact Hk|apply tame_tick|done].
  - exists k. split; [apply km_tick; by left|done].
Qed.

(** A first approval of a row that asks for two. *)
Lemma kf_first t what first approver :
  rq_level what = "dual-confirm" ->
  kf rid (kn_saw t what first)
    (db (update_pending rid (fun r => is_null (pa_firstApprovedAt r))
           (set_first_approval t approver (computeAvailableAt t))))
    (fun k _ => k = kn_saw t what first).
Proof.
  intros Hl w _. unfold db_act. destruct (faulty w).
  { eexists. split; [apply km_tick; by left|done]. }
  exists (kn_saw t what first). unfold update_pending. change (w_pending (tick w)) with (w_pending w).
  destruct (w_pending w !! rid) as [row|] eqn:E; [|split; [apply km_tick; by left|done]].
  destruct (pa_firstApprovedAt row) as [t1|] eqn:E1; cbn [is_null];
    [split; [apply km_tick; by left|done]|].
  split; [|done]. eapply km_first; [done|done|by unfold row_first; rewrite E1| |apply same_but_pending].
  eexists. cbn. rewrite lookup_insert_eq. by split_and!.
Qed.

(** A decision that resolves was authorised when it read the row. *)
Lemma kf_recordApproval_rec fuel t k approver :
  (k = kn_since t \/ exists what first, k = kn_saw t what first) ->
  kf rid k (DualConfirm.recordApproval_rec fuel rid approver t)
    (fun k' r => match r with
                 | inr resolved => exists what first, k' = kn_saw t what first /\ authorised what first t
                 | _ => True
                 end).
Proof.
  revert k; induction fuel as [|fuel IH]; intros k Hk; cbn [DualConfirm.recordApproval_rec]; [done|].
  then_ (kf_getPending t k Hk). intros k1 [e|[row|]] E1; [done| |done]. cbn in E1. subst k1.
  unfold parsePendingLevel. destruct (String.eqb_spec (pa_level row) "confirm") as [Hc|_].
  { cbn. do 2 eexists. split; [done|]. by left. }
  destruct (String.eqb_spec (pa_level row) "dual-confirm") as [Hd|]; [|done]. cbn [bind].
  destruct (pa_firstApprovedAt row) as [t1|] eqn:Ef.
  - destruct (canAcceptSecondApproval _ _) eqn:Ec; cbn; [|done]. do 2 eexists. split; [done|].
    right. split; [done|]. unfold row_first. rewrite Ef. do 2 eexists. split; [done|].
    by apply Z.leb_le in Ec.
  - then_ (kf_first t (row_request row) (row_first row) approver Hd). intros k2 [e|[r|]] ->; [done..|].
    apply IH. right. by do 2 eexists.
Qed.

Lemma kf_recordApproval approver :
  kf rid kn_out (DualConfirm.recordApproval rid approver)
    (fun k' r => match r with
                 | inr resolved => exists t what first, k' = kn_saw t what first /\ authorised what first t
                 | _ => True
                 end).
Proof.
  intros w _. exists (kn_since (clock (w_sys w))). split; [apply km_clock|]. cbn [fst snd].
  eapply follows_mono; [apply kf_recordApproval_rec; by left|].
  intros k' [e|[|]]; [done| |done]. intros (what & first & ? & ?). by eauto.
Qed.

(** The statement that takes the row, for a method that knows the instant. *)
Lemma kf_take t k k1 :
  (k = kn_since t /\ k1 = kn_holder \/ exists what first, k = kn_saw t what first /\ k1 = kn_held t what first) ->
  kf rid k (db (update_pending rid (fun r => is_null (pa_executingAt r)) (set_execution (Some t) None)))
    (fun k' r => match r with
                 | inr (Some row) => k' = k1 /\
                     forall t what first, k = kn_saw t what first -> row_request row = what
                 | _ => k' = kn_out
                 end).
Proof.
  intros Hk w Hw. unfold db_act. destruct (faulty w).
  { exists kn_out. split; [apply km_tick; by right|done]. }
  unfold update_pending. change (w_pending (tick w)) with (w_pending w).
  destruct (w_pending w !! rid) as [row|] eqn:E; [|exists kn_out; split; [apply km_tick; by right|done]].
  destruct (pa_executingAt row) as [u|] eqn:Ex; cbn [is_null];
    [exists kn_out; split; [apply km_tick; by right|done]|].
  exists k1. split.
  - eapply (km_claim _ k t row); [exact E|exact Ex|apply lookup_insert_eq|apply same_but_pending|exact Hk].
  - split; [done|]. intros u what first ->. destruct Hw as [_ Hw]. by destruct (Hw row E).
Qed.

(** The claim of a decision: the row that it takes is the one that was read. *)
Lemma kf_claim t what first :
  authorised what first t ->
  kf rid (kn_saw t what first) (DualConfirm.claimForExecution rid)
    (fun k r => match r with
                | inr (Some row) => exists u, k = kn_held u what first /\ authorised what first u /\ row_request row = what
                | _ => True end).
Proof.
  intros Ha w [Ht _]. set (u := clock (w_sys w)). exists (kn_saw u what first). split; [by apply km_again|].
  cbn [fst snd]. change (clock (w_sys w)) with u.
  eapply follows_mono; [apply (kf_take u _ (kn_held u what first)); right; by do 2 eexists|].
  intros k [e|[row|]]; [done| |done]. intros [-> Hq]. exists u. split; [done|]. split; [|by eapply Hq].
  eapply authorised_later; [by right|exact Ht|exact Ha].
Qed.

(** Any other claim. *)
Lemma kf_claim_out :
  kf rid kn_out (DualConfirm.claimForExecution rid)
    (fun k r => match r with inr (Some _) => k = kn_holder | _ => k = kn_out end).
Proof.
  intros w _. exists (kn_since (clock (w_sys w))). split; [apply km_clock|]. cbn [fst snd].
  eapply follows_mono; [apply (kf_take _ _ kn_holder); by left|].
  intros k [e|[row|]]; [done|by intros []|done].
Qed.

(** The holder gives the row back. *)
Lemma kf_release k err :
  is_holder k = true -> kf rid k (DualConfirm.releaseClaim rid err) (fun k' r => match r with inr _ => k' = kn_out | _ => True end).
Proof.
  intros Hk w _. unfold db_act. destruct (faulty w).
  { exists k. split; [apply km_tick; by left|done]. }
  exists kn_out. unfold update_pending. change (w_pending (tick w)) with (w_pending w).
  destruct (w_pending w !! rid) as [row|] eqn:E; (split; [|done]);
    (apply (km_release _ k err); [exact Hk| |done]); cbn [fst upd_pending w_pending tick upd_sys]; rewrite E;
    [apply lookup_insert_eq|done].
Qed.

(** The holder takes it away. *)
Lemma kf_remove k :
  kf rid k (DualConfirm.removePending rid) (fun k' r => match r with inr _ => k' = kn_out | _ => True end).
Proof.
  intros w _. unfold db_act. destruct (faulty w).
  { exists k. split; [apply km_tick; by left|done]. }
  exists kn_out. pose proof (tame_delete rid rid (fun _ => true) (tick w)) as Ht.
  destruct (delete_pending _ _ (tick w)) as [w' b]. split; [|done].
  apply km_stay; [|by right]. etrans; [apply tame_tick|exact Ht].
Qed.

Lemma kf_execute t what first :
  authorised what first t ->
  kf rid (kn_held t what first) (execute executors (rq_tool what) (rq_payload what) (Some rid))
    (fun k _ => is_holder k = true).
Proof.
  intros Ha. unfold execute. destruct (executors !! rq_tool what) as [ex|] eqn:E; [|done].
  cbn [observe writes bind default]. intros w _. exists kn_holder. split; [by apply (km_start _ t)|].
  eapply follows_mono; [apply kf_steps|by intros k r ->].
  apply steps_try_with; [by eapply steps_tame_executor|..]; intros x;
    (split; [intros w2; by apply tame_event|done]).
Qed.

Lemma kf_resolveAndExecute approver :
  kf rid kn_out (ApprovalExecution.resolveAndExecute executors rid approver) anyhow.
Proof.
  then_ (kf_steps kn_out _ (steps_tame_read rid (fun w => w_pending w !! rid))).
  intros ? [e|[row|]] ->; [done| |done].
  then_ (kf_recordApproval approver). intros k [e|[|]]; [done|intros (t & what & first & -> & Ha)|done].
  then_ (kf_claim t what first Ha). intros k [e|[claimed|]]; [done|intros (u & -> & Hu & Hq)|done].
  unfold ApprovalExecution.executeClaimed.
  apply follows_bind, follows_try_with. eapply follows_mono.
  { eapply kf_steps, steps_tame_appends, audit_approval_appends. }
  intros k [e|?] ->.
  { then_ (kf_release (kn_held u what first) (Some ("audit falló antes de ejecutar: " +:+ messageOf e))); [done|].
    by intros ? [?|?] _. }
  apply follows_bind, follows_catch. eapply follows_mono.
  { pose proof (kf_execute u what first Hu) as H. rewrite <- Hq in H at 2 3. exact H. }
  intros k [e|res] Hk.
  - then_ (kf_release k (Some (messageOf e)) Hk). intros ? [?|?] ?; [done|].
    apply follows_bind. eapply follows_mono; [apply kf_any|by intros ? [?|[]] _].
    apply steps_try_with; [eapply steps_tame_appends, audit_executionFailure_appends|done..].
  - apply kf_any, steps_bind; [|done]. apply steps_catch; [apply steps_tame_removePending|done].
Qed.

Lemma kf_resolveRejection approver :
  kf rid kn_out (ApprovalExecution.resolveRejection rid approver) anyhow.
Proof.
  then_ (kf_steps kn_out _ (steps_tame_read rid (fun w => w_pending w !! rid))).
  intros ? [e|[row|]] ->; [done| |done].
  then_ kf_claim_out. intros k [e|[claimed|]] ->; [done|..].
  - apply follows_bind, follows_try_with. eapply follows_mono.
    { eapply kf_steps, steps_tame_appends, audit_rejection_appends. }
    intros k [e|?] ->; [|apply kf_any, steps_tame_removePending].
    then_ (kf_release kn_holder None); [done|]. by intros ? [|].
  - apply kf_any, steps_bind; [done|]. intros t. cbv zeta. destruct (negb _); [done|].
    apply steps_bind; [eapply steps_tame_appends, audit_rejection_appends|]. intros _.
    apply steps_bind; [|done]. apply steps_bind; [done|]. intros u. apply steps_tame_db. intros w. apply tame_delete.
Qed.

(** A method that comes back to knowing nothing, unless it fails. *)
Definition back {A} : Knows -> JinError + A -> Prop := fun k r => match r with inr _ => k = kn_out | inl _ => True end.

Lemma kf_claimAndAuditTimeout row status :
  pa_requestId row = rid ->
  kf rid kn_out (Timeout.claimAndAuditTimeout row status)
    (fun k r => match r with inr b => k = if b : bool then kn_holder else kn_out | inl _ => True end).
Proof.
  intros Hr. unfold Timeout.claimAndAuditTimeout. rewrite Hr.
  then_ kf_claim_out. intros k [e|[claimed|]] ->; [done| |done].
  apply follows_try_with. eapply follows_mono.
  { eapply kf_steps, steps_tame_appends, audit_timeout_appends. }
  intros k [e|?] ->; [|done]. then_ (kf_release kn_holder None); [done|]. by intros ? [|].
Qed.

Lemma kf_back (p : jin unit) : steps (tame rid) p -> kf rid kn_out p back.
Proof. intros H. eapply follows_mono; [by apply kf_steps|]. by intros ? [?|?]. Qed.

Lemma kf_processPending row t :
  pa_requestId row = rid -> kf rid kn_out (Timeout.processPending row t) back.
Proof.
  intros Hr.
  assert (Hcd : forall status (k : jin unit), kf rid kn_holder k back ->
    kf rid kn_out (ok <- Timeout.claimAndAuditTimeout row status ;; if ok : bool then k else Ret tt) back).
  { intros status k Hk. then_ kf_claimAndAuditTimeout; [done|].
    by intros kn [e|[]] Hph; [done|rewrite Hph|rewrite Hph]. }
  assert (Hrm : kf rid kn_holder (Timeout.removePending rid) back).
  { eapply follows_mono; [apply kf_remove|]. by intros ? [?|?]. }
  unfold Timeout.processPending. destruct (pa_executingAt row).
  { apply kf_back. case_match; [apply steps_tame_emit|done]. }
  rewrite Hr. destruct (decideTimeoutOutcome _ _ _ _); [done|..].
  - by apply Hcd.
  - apply kf_back, steps_bind; [|intros _; apply steps_tame_emit].
    apply steps_tame_db. intros w. apply tame_update. by right.
  - apply Hcd. apply follows_bind. eapply follows_mono; [apply Hrm|].
    intros k [e|[]] Hk; [done|]. rewrite Hk. apply kf_back, steps_tame_emit.
Qed.

Lemma kf_sweep : kf rid kn_out Timeout.sweep anyhow.
Proof.
  then_ (kf_steps kn_out _ (steps_tame_now rid)). intros ? [e|t] ->; [done|].
  then_ (kf_steps kn_out (db_read (fun w => map snd (map_to_list (w_pending w)))) (steps_tame_read rid _)).
  intros ? [e|rows] ->; [done|].
  eapply follows_mono; [apply follows_for_each|done]. intros row _.
  destruct (decide (pa_requestId row = rid)) as [|Hne]; [by apply kf_processPending|].
  apply kf_back, steps_frame_processPending. by apply tame_frame.
Qed.
End Follow.

(** What a simulation says of a run. *)
Lemma simulated_run {W E A S} (R : config W E A -> S -> Prop) (moves : S -> S -> Prop)
    (env : W -> W -> Prop) (client : prog W E A -> Prop) w0 c s0 :
  R (Config w0 []) s0 ->
  (forall cf s cf', R cf s -> pool_step env client cf cf' -> exists s', moves s s' /\ R cf' s') ->
  reachable env client w0 c -> exists s, rtc moves s0 s /\ R c s.
Proof.
  intros H0 Hs Hr. induction Hr as [|c c' _ (s & Hm & Hc) Hstep]; [by exists s0|].
  destruct (Hs _ _ _ Hc Hstep) as (s' & Hm' & Hc'). exists s'. split; [by eapply rtc_r|done].
Qed.

Section Clients.
Context `{Laws : AuditApiLaws} (rid : string).

Lemma tame_insert_other input w :
  cpa_requestId input <> rid -> tame rid w (upd_pending (insert (cpa_requestId input) (new_pending_row input (clock (w_sys w)))) w).
Proof. intros Hne. apply tame_pending. rewrite lookup_insert_ne by done. constructor. Qed.

Lemma kf_create (input : string -> CreatePendingApprovalInput) :
  (forall id, cpa_requestId (input id) = id) ->
  kf rid kn_out (requestId <- randomUUID ;; DualConfirm.createPendingApproval (input requestId)) anyhow.
Proof.
  intros Hin w _. cbn [fst snd]. set (n := uuids (w_sys w)). set (w1 := upd_sys _ w).
  assert (Ht : tame rid w w1) by (split; [cbn; lia|cbn; lia|done|constructor]).
  assert (Hrest : forall id, steps (tame rid)
    (audit_toolCall id (default "agent" (cpa_actor (input id))) (cpa_toolName (input id))
       (cpa_inputsHash (input id)) (cpa_planSummary (input id)) "pending"
       (cpa_externalInputsSummary (input id)) ;;;
     emit (PENDING_APPROVAL_CREATED_EVENT id (cpa_toolName (input id)) (cpa_level (input id))))).
  { intros id. apply steps_bind; [|intros; apply steps_tame_emit].
    eapply steps_tame_appends, audit_toolCall_appends. }
  destruct (decide (uuid_string n = rid)) as [Hid|Hne]; cbn [bind]; unfold DualConfirm.createPendingApproval;
    rewrite Hin.
  - exists kn_fresh. split.
    { apply km_draw; [done|by exists n|]. intros (m & Hm & Hmr). cbn in Hm.
      rewrite <- Hid in Hmr. apply uuid_string_inj in Hmr as <-. lia. }
    apply follows_bind, (follows_mono _ _ _ _ anyhow); [|intros k [e|?] _; [done|by apply kf_any]].
    intros w2 _. unfold db_act. destruct (faulty w2).
    { exists kn_fresh. split; [apply km_tick; by left|done]. }
    rewrite Hin. change (w_pending (tick w2)) with (w_pending w2).
    destruct (w_pending w2 !! uuid_string n) eqn:E.
    { exists kn_fresh. split; [apply km_tick; by left|done]. }
    exists kn_out. split; [|done]. apply (km_ask _ (input (uuid_string n))); [|done].
    subst n. rewrite <- Hid. apply lookup_insert_eq.
  - exists kn_out. split; [apply km_stay; [done|by left]|]. apply kf_any, steps_bind; [|done].
    apply steps_bind; [|by intros []]. apply steps_tame_db. intros w2.
    destruct (w_pending w2 !! _); [done|]. apply tame_insert_other. by rewrite Hin.
Qed.

Lemma client_keeps_the_case executors p :
  well_behaved executors -> punctual executors -> hitl_client executors p ->
  kf rid kn_out p anyhow.
Proof.
  intros Hwb Hp [input Hin|r approver|r approver| | |q Hq].
  - by apply kf_create.
  - apply follows_bind. eapply follows_mono; [|by intros ? [?|?] _].
    destruct (decide (r = rid)) as [->|]; [by apply kf_resolveAndExecute|].
    by apply kf_any, steps_tame_resolveAndExecute_other.
  - destruct (decide (r = rid)) as [->|]; [by apply kf_resolveRejection|].
    by apply kf_any, steps_frame_resolveRejection, tame_frame.
  - by apply kf_sweep.
  - apply kf_any, steps_bind; [apply steps_tame_read|done].
  - apply kf_any. eapply steps_mono; [|exact Hq]. apply tame_audit.
Qed.

(** The case that a configuration of the program stands for. *)
Definition in_case (cf : config World JinError unit) (s : Case) : Prop :=
  simulated (kn_holds rid) (kn_moves rid) (kn_inv rid) (@anyhow unit) s cf.

Lemma in_case_start w0 : start_store w0 -> in_case (Config w0 []) (initial_case rid w0).
Proof. intros H0. exists []. split; [by apply kn_inv_start|constructor]. Qed.

Lemma in_case_represents cf s : in_case cf s -> represents rid s (c_store cf).
Proof. by intros (ks & (Hrep & _) & _). Qed.

Lemma in_case_step executors cf s cf' :
  well_behaved executors -> punctual executors ->
  in_case cf s -> pool_step time_passes (hitl_client executors) cf cf' ->
  exists s', case_moves s s' /\ in_case cf' s'.
Proof.
  intros Hwb Hp. apply (protocol_simulation time_passes (hitl_client executors) (kn_holds rid) (kn_moves rid)
    (kn_inv rid) kn_out case_moves (fun _ => True) (fun _ _ => True)); try done.
  - intros. by eapply kn_inv_holds.
  - intros. by eapply kn_inv_moves.
  - intros. by eapply kn_inv_env.
  - intros. by apply kn_inv_spawn.
  - intros p. by apply client_keeps_the_case.
Qed.

Lemma reachable_case executors w0 c :
  well_behaved executors -> punctual executors -> start_store w0 ->
  reachable time_passes (hitl_client executors) w0 c ->
  exists s, rtc case_moves (initial_case rid w0) s /\ represents rid s (c_store c).
Proof.
  intros Hwb Hp H0 Hr.
  destruct (simulated_run in_case case_moves time_passes (hitl_client executors) w0 c (initial_case rid w0))
    as (s & Hs & Hc); [by apply in_case_start| |done|exists s; split; [done|by apply in_case_represents]].
  intros cf s cf'. by apply in_case_step.
Qed.
End Clients.

(** ** Properties *)

(** C2. Refinement: whatever the interleaving of creations, approvals, rejections and
    expiry sweeps, whichever statements fail and wherever processes die, the program
    simulates the abstract case of any one identifier, action by action.  From the case that
    a start finds, each action of any method, each new request and each advance of the clock
    is at most one step of the case, and the case is at every moment what the store shows.
    So a request is asked at most once and never edited; a first approval is only of a
    dual-confirm request, and for good; it is taken by one method at a time, only while
    nobody has it; once gone it never comes back; and it is executed only by the method that
    has it, once, as what was asked, after the approvals its level requires. *)
Theorem approvals_refine_the_case `{Laws : AuditApiLaws} (executors : ToolExecutorRegistry)
    (w0 : World) (rid : string) :
  well_behaved executors -> punctual executors -> start_store w0 ->
  exists simulates : config World JinError unit -> Case -> Prop,
    simulates (Config w0 []) (initial_case rid w0) /\
    (forall cf s, simulates cf s -> represents rid s (c_store cf)) /\
    (forall cf s cf', simulates cf s -> pool_step time_passes (hitl_client executors) cf cf' ->
       exists s', case_moves s s' /\ simulates cf' s').
Proof.
  intros Hwb Hp H0. exists (in_case rid). split; [by apply in_case_start|]. split.
  - apply in_case_represents.
  - intros cf s cf'. by apply in_case_step.
Qed.

Lemma started_runs_in rid tool payload trace :
  ExecStart rid tool payload ∈ trace -> (tool, payload) ∈ started_runs rid trace.
Proof.
  intros Hin. apply list_elem_of_omap. exists (ExecStart rid tool payload). split; [done|].
  by rewrite decide_True.
Qed.

(** C3. What runs is what the owner approved: of an approval that is pending at a start,
    whatever happens in parallel, every execution is of the tool and the arguments of
    its row, and if the row is 'dual-confirm' a first approval was given and its wait
    of 30 seconds is over. *)
Theorem only_the_approved_action_runs `{Laws : AuditApiLaws} (executors : ToolExecutorRegistry)
    (w0 : World) (c : config World JinError unit) (rid : string) (row : PendingApprovalRow)
    (tool : string) (payload : json) :
  well_behaved executors -> punctual executors -> start_store w0 ->
  reachable time_passes (hitl_client executors) w0 c ->
  w_pending w0 !! rid = Some row -> ExecStart rid tool payload ∈ w_execs (c_store c) ->
  tool = pa_toolName row /\ payload = pa_payload row /\
  (pa_level row = "confirm" \/
   pa_level row = "dual-confirm" /\
   exists t1 t2, t2 <= clock (w_sys (c_store c)) /\
     (row_first row = Some (t1, t2) \/ row_first row = None /\ t2 = t1 + DUAL_CONFIRM_DELAY_MS)).
Proof.
  intros Hwb Hp H0 Hr Hrow Hin.
  destruct (reachable_case rid executors w0 c Hwb Hp H0 Hr) as (s & Hs & [Rc Rr _]).
  assert (E0 : cs_stage (initial_case rid w0) = row_stage row) by (cbn; by rewrite Hrow).
  assert (Ht : runs_authorised s).
  { eapply case_steps_authorised; [exact Hs|]. intros tl pl Hi. cbn in Hi.
    destruct H0 as [He _]. rewrite He in Hi. by apply elem_of_nil in Hi. }
  destruct (Ht tool payload) as (what & first & Hq & -> & -> & Ha); [rewrite Rr; by apply started_runs_in|].
  destruct (case_steps_keep _ _ Hs) as [Hk _]. rewrite E0 in Hk.
  destruct (Hk _ _ eq_refl) as (first' & Hq' & Hf). rewrite Hq in Hq'. injection Hq' as -> ->.
  split_and!; [done..|]. destruct Ha as [Ha|(Hd & t1 & t2 & -> & Hle)]; [by left|right].
  split; [done|]. exists t1, t2. rewrite <- Rc. split; [done|]. destruct Hf as [Hf|Hf]; [right|by left].
  split; [done|]. destruct (case_steps_wait (row_first row) _ _ Hs) with (what := row_request row)
    (first := Some (t1, t2)) as [E|(t & E)]; [by rewrite E0| |done|congruence|by injection E as -> ->].
  intros w f. rewrite E0. cbn. injection 1 as <- <-. by left.
Qed.

Module ApprovalSpecExamples.
#[local] Existing Instance toy_crypto.
Import AtMostOnceExamples.

Lemma mail_punctual : punctual mail_executors.
Proof.
  intros tool ex Hex. unfold mail_executors in Hex. by apply lookup_singleton_Some in Hex as [_ <-].
Qed.

Definition after_approval : World := (run approval one_pending).1.

Lemma approval_reached :
  reachable time_passes (hitl_client mail_executors) one_pending (Config after_approval [Ret tt]).
Proof.
  apply (reachable_run1 _ _ _ one_pending [] [] approval); [|exact approval_returns].
  eapply reach_step; [apply reach_init|]. apply (step_spawn _ _ _ []). constructor.
Qed.
End ApprovalSpecExamples.

(** The approval runs and the case ends gone, with one execution. *)
Lemma approvals_refine_the_case_witness :
  exists s, rtc case_moves (initial_case (uuid_string 0) AtMostOnceExamples.one_pending) s /\
    represents (uuid_string 0) s ApprovalSpecExamples.after_approval.
Proof.
  destruct (@approvals_refine_the_case (@auditService toy_crypto) (@auditService_laws toy_crypto)
    AtMostOnceExamples.mail_executors AtMostOnceExamples.one_pending (uuid_string 0)
    AtMostOnceExamples.mail_well_behaved ApprovalSpecExamples.mail_punctual
    AtMostOnceExamples.one_pending_start) as (R & H0 & Hr & Hs).
  destruct (simulated_run R _ _ _ _ _ _ H0 Hs ApprovalSpecExamples.approval_reached) as (s & Hm & Hc).
  exists s. split; [exact Hm|]. exact (Hr _ _ Hc).
Defined.

Lemma only_the_approved_action_runs_witness :
  "sendEmail" = pa_toolName (new_pending_row (AtMostOnceExamples.mail_input (uuid_string 0)) 1000).
Proof.
  apply (@only_the_approved_action_runs (@auditService toy_crypto) (@auditService_laws toy_crypto)
    AtMostOnceExamples.mail_executors AtMostOnceExamples.one_pending
    (Config ApprovalSpecExamples.after_approval [Ret tt]) (uuid_string 0)
    (new_pending_row (AtMostOnceExamples.mail_input (uuid_string 0)) 1000) "sendEmail" JNull
    AtMostOnceExamples.mail_well_behaved ApprovalSpecExamples.mail_punctual
    AtMostOnceExamples.one_pending_start ApprovalSpecExamples.approval_reached).
  - apply lookup_insert_eq.
  - vm_compute. by left.
Defined.
