(* ===== verification/Autonomy.v ===== *)
(** * Autonomy: the modes that relax confirmations

    [src/autonomy/autonomy.types.ts], [autonomy.logic.ts],
    [autonomy-config.schema.ts] (the parsed configuration) and
    [autonomy.service.ts]. *)
From S2P Require Import Prelude Effects Js Registry Store AuditApi AuditLog Hitl.
Local Open Scope stdpp_scope.
Local Open Scope Z_scope.
Local Open Scope jin_scope.

(** ** autonomy.types.ts *)

Inductive AutonomyMode := Supervised | SemiAuto | AutoMode.

#[export] Instance AutonomyMode_eq_dec : EqDecision AutonomyMode.
Proof. solve_decision. Defined.

Definition AUTONOMY_MODES : list AutonomyMode := [Supervised; SemiAuto; AutoMode].

Definition mode_name (m : AutonomyMode) : string :=
  match m with Supervised => "supervised" | SemiAuto => "semi-auto" | AutoMode => "auto" end.

(** [AutonomyModeSchema.safeParse] *)
Definition parseAutonomyMode (s : string) : option AutonomyMode :=
  List.find (fun m => String.eqb (mode_name m) s) AUTONOMY_MODES.

Definition autonomyOrdinal (mode : AutonomyMode) : nat := index_of mode AUTONOMY_MODES.

Definition requiresDualConfirm (current target : AutonomyMode) : bool :=
  negb (bool_decide (target = Supervised)) &&
  (autonomyOrdinal current <=? autonomyOrdinal target)%nat.

Record AutonomyState := {
  as_mode : AutonomyMode;
  as_expiresAt : option Z;
  as_setBy : string;
  as_changedAt : Z
}.

(** ** autonomy-config.schema.ts *)

Record ModeLimits := { ml_defaultHours : Z; ml_maxHours : Z }.

Record AutonomyConfig := {
  ac_semiAuto : ModeLimits;
  ac_auto : ModeLimits;
  ac_maxRelaxedActionsPerHour : Z
}.

(** What the schema accepts. *)
Definition limits_valid (l : ModeLimits) : Prop := 0 < ml_defaultHours l <= ml_maxHours l.
Definition config_valid (c : AutonomyConfig) : Prop :=
  limits_valid (ac_semiAuto c) /\ limits_valid (ac_auto c) /\ 0 < ac_maxRelaxedActionsPerHour c.

(** ** autonomy.logic.ts *)

Definition is_true_flag (o : option bool) : bool := match o with Some true => true | _ => false end.

(** [tool?.flag === true] *)
Definition tool_flag (flag : ToolDefinition -> option bool) (tool : option ToolDefinition) : bool :=
  match tool with Some t => is_true_flag (flag t) | None => false end.

Record RelaxResult := { rr_decision : HitlDecision; rr_relaxedBy : option string }.

Definition relaxDecision (decision : HitlDecision) (mode : AutonomyMode)
    (tool : option ToolDefinition) : RelaxResult :=
  let same := {| rr_decision := decision; rr_relaxedBy := None |} in
  if decide (mode = Supervised) then same
  else if negb (bool_decide (hd_level decision = Confirm)) then same
  else if tool_flag td_humanDecision tool then same
  else if bool_decide (mode = SemiAuto) && tool_flag td_guardedInSemiAuto tool then same
  else
    {| rr_decision := {|
         hd_requestId := hd_requestId decision;
         hd_toolName := hd_toolName decision;
         hd_level := Notify;
         hd_approvalsRequired := 0;
         hd_notifyAfterExecution := true;
         hd_relaxedBy := Some ("autonomy:" +:+ mode_name mode) |};
       rr_relaxedBy := Some ("autonomy:" +:+ mode_name mode) |}.

(** The callers pass whole hours (Zod's [int()], [Number.isInteger]), which
    [Math.trunc] leaves as they are. *)
Definition clampHours (requested : option Z) (defaults : ModeLimits) : Z :=
  let hours := default (ml_defaultHours defaults) requested in
  Z.min (Z.max hours 1) (ml_maxHours defaults).

(** ** autonomy.service.ts *)

Definition AUTONOMY_MODE_CHANGE_TOOL_NAME : string := "autonomyModeChange".

Inductive ModeChangeResult :=
| mc_applied (mode : AutonomyMode) (expiresAt : option string)
| mc_pending_approval (requestId : string) (mode : AutonomyMode) (hours : Z).

Record AutonomyDescription := {
  ad_mode : AutonomyMode;
  ad_expiresAt : option string;
  ad_remainingSeconds : option Z;
  ad_setBy : string;
  ad_limits : AutonomyConfig;
  ad_guardedInSemiAuto : list string
}.

Definition SAFE_STATE (now : Z) (setBy : string) : AutonomyState :=
  {| as_mode := Supervised; as_expiresAt := None; as_setBy := setBy; as_changedAt := now |}.

(** The effective state that a row means at [now]. *)
Definition effective_state (row : option AutonomyModeStateRow) (now : Z) : AutonomyState :=
  match row with
  | None => SAFE_STATE now "system:default"
  | Some row =>
      match parseAutonomyMode (am_mode row) with
      | None | Some Supervised => SAFE_STATE now (am_setBy row)
      | Some mode =>
          match am_expiresAt row with
          | None => SAFE_STATE now "system:expiry"
          | Some expiresAt =>
              if expiresAt <=? now then SAFE_STATE now "system:expiry"
              else {| as_mode := mode; as_expiresAt := Some expiresAt; as_setBy := am_setBy row;
                      as_changedAt := am_changedAt row |}
          end
      end
  end.

Definition MS_PER_HOUR : Z := 60 * 60 * 1000.

(** One [UPDATE] that evaluates the window and adds; it returns the count. *)
Definition bump_row (t : Z) (row : AutonomyModeStateRow) : AutonomyModeStateRow :=
  let stale := am_windowStartedAt row <? t - MS_PER_HOUR in
  {| am_mode := am_mode row; am_expiresAt := am_expiresAt row; am_setBy := am_setBy row;
     am_approvalRequestId := am_approvalRequestId row; am_changedAt := am_changedAt row;
     am_relaxedCount := if stale then 1 else am_relaxedCount row + 1;
     am_windowStartedAt := if stale then t else am_windowStartedAt row |}.

Record WriteStateInput := {
  ws_mode : AutonomyMode;
  ws_hours : Z;
  ws_setBy : string;
  ws_reason : string;
  ws_approvalRequestId : option string;
  ws_auditBeforeApply : bool
}.

Record ApprovedChangePayload := {
  acp_mode : AutonomyMode;
  acp_hours : Z;
  acp_approvalRequestId : string
}.

Module Autonomy.
Section Service.
Context `{Api : AuditApi} `{Crypto : NodeCrypto} `{Uuid : ZodUuid} (config : AutonomyConfig).

Definition getState_at (t : Z) : jin AutonomyState :=
  row <- db_read w_autonomy ;; Ret (effective_state row t).

Definition getState : jin AutonomyState := t <- now ;; getState_at t.

Definition bumpRelaxedCounter : jin Z :=
  db (fun w =>
    match w_autonomy w with
    | None => (w, 0)
    | Some row =>
        let row' := bump_row (clock (w_sys w)) row in
        (upd_autonomy (fun _ => Some row') w, am_relaxedCount row')
    end).

Definition limitsFor (mode : AutonomyMode) : ModeLimits :=
  match mode with AutoMode => ac_auto config | _ => ac_semiAuto config end.

Definition writeState (input : WriteStateInput) : jin (option string) :=
  t <- now ;;
  previousState <- getState_at t ;;
  let previous := as_mode previousState in
  let expiresAt :=
    if decide (ws_mode input = Supervised) then None
    else Some (t + ws_hours input * 60 * 60 * 1000) in
  let iso := option_map to_iso_string expiresAt in
  let audit : jin unit :=
    rid <- match ws_approvalRequestId input with Some r => Ret r | None => randomUUID end ;;
    audit_toolCall rid (ws_setBy input) AUTONOMY_MODE_CHANGE_TOOL_NAME
      (hashOf (JObj [("mode", JStr (mode_name (ws_mode input))); ("hours", JNum (ws_hours input))]))
      (Some ("modo de autonomía " +:+ mode_name previous +:+ " -> " +:+ mode_name (ws_mode input)
             +:+ " (" +:+ ws_reason input +:+ ")" +:+
             match iso with Some e => ", hasta " +:+ e | None => "" end))
      "auto" None ;;;
    Ret tt in
  (if ws_auditBeforeApply input then audit else Ret tt) ;;;
  db_write (upd_autonomy (option_map (fun _ =>
    {| am_mode := mode_name (ws_mode input); am_expiresAt := expiresAt;
       am_setBy := ws_setBy input; am_approvalRequestId := ws_approvalRequestId input;
       am_changedAt := t; am_relaxedCount := 0; am_windowStartedAt := t |}))) ;;;
  (if ws_auditBeforeApply input then Ret tt else catch audit (fun _ => Ret tt)) ;;;
  emit (AUTONOMY_MODE_CHANGED_EVENT (mode_name (ws_mode input)) (mode_name previous)
          (ws_reason input) iso (ws_setBy input)) ;;;
  Ret iso.

Definition applyRestrictiveChange (mode : AutonomyMode) (setBy reason : string) (hours : Z) :
    jin (option string) :=
  writeState {| ws_mode := mode; ws_hours := hours; ws_setBy := setBy; ws_reason := reason;
                ws_approvalRequestId := None; ws_auditBeforeApply := false |}.

Definition relax (decision : HitlDecision) (tool : option ToolDefinition) : jin HitlDecision :=
  state <- getState ;;
  let result := relaxDecision decision (as_mode state) tool in
  match rr_relaxedBy result with
  | None => Ret decision
  | Some _ =>
      count <- bumpRelaxedCounter ;;
      if ac_maxRelaxedActionsPerHour config <? count then
        applyRestrictiveChange Supervised "system:circuit-breaker" "circuit-breaker" 0 ;;;
        Ret decision
      else Ret (rr_decision result)
  end.

Definition requestModeChange (mode : AutonomyMode) (hours : option Z) (requestedBy : string) :
    jin ModeChangeResult :=
  current <- getState ;;
  if negb (requiresDualConfirm (as_mode current) mode) then
    let hours := if decide (mode = Supervised) then 0 else clampHours hours (limitsFor mode) in
    expiresAt <- applyRestrictiveChange mode requestedBy "downgrade" hours ;;
    Ret (mc_applied mode expiresAt)
  else
    let hours := clampHours hours (limitsFor mode) in
    requestId <- randomUUID ;;
    let payload := JObj [("mode", JStr (mode_name mode)); ("hours", JNum hours);
                         ("approvalRequestId", JStr requestId)] in
    DualConfirm.createPendingApproval {|
      cpa_requestId := requestId;
      cpa_toolName := AUTONOMY_MODE_CHANGE_TOOL_NAME;
      cpa_level := DualConfirm;
      cpa_inputsHash := hashOf payload;
      cpa_planSummary := Some ("Cambiar el modo de autonomía a " +:+ quoted (mode_name mode)
        +:+ " durante " +:+ pretty hours
        +:+ " h (baja la protección del HITL). Se autoejecutan las acciones que hoy piden 1 aprobación"
        +:+ (if decide (mode = SemiAuto)
             then ", salvo git/merges, correos y borrar eventos futuros" else "")
        +:+ "; lo dual-confirm sigue igual.");
      cpa_payload := Some payload;
      cpa_actor := Some requestedBy;
      cpa_externalInputsSummary := None |} ;;;
    Ret (mc_pending_approval requestId mode hours).

(** [ApprovedChangePayloadSchema.parse] *)
Definition parseApprovedChange (raw : json) : jin ApprovedChangePayload :=
  match json_field "mode" raw, json_field "hours" raw, json_field "approvalRequestId" raw with
  | Some (JStr m), Some (JNum h), Some (JStr r) =>
      match parseAutonomyMode m with
      | Some mode =>
          if (0 <? h) && zod_uuid r
          then Ret {| acp_mode := mode; acp_hours := h; acp_approvalRequestId := r |}
          else Throw (ZodError "hours")
      | None => Throw (ZodError "mode")
      end
  | _, _, _ => Throw (ZodError "payload")
  end.

Definition applyApprovedChange (rawPayload : json) : jin json :=
  payload <- parseApprovedChange rawPayload ;;
  let hours :=
    if decide (acp_mode payload = Supervised) then 0
    else clampHours (Some (acp_hours payload)) (limitsFor (acp_mode payload)) in
  writeState {| ws_mode := acp_mode payload; ws_hours := hours; ws_setBy := "owner:dual-confirm";
                ws_reason := "approved"; ws_approvalRequestId := Some (acp_approvalRequestId payload);
                ws_auditBeforeApply := true |} ;;;
  Ret (JObj [("ok", JBool true)]).

Definition onModuleInit (executors : ToolExecutorRegistry) : JinError + ToolExecutorRegistry :=
  register executors AUTONOMY_MODE_CHANGE_TOOL_NAME (fun payload _ => applyApprovedChange payload).

Definition expireIfNeeded : jin unit :=
  t <- now ;;
  row <- db_read w_autonomy ;;
  match row with
  | None => Ret tt
  | Some row =>
      if String.eqb (am_mode row) "supervised" then Ret tt
      else if match am_expiresAt row with Some e => t <? e | None => false end then Ret tt
      else applyRestrictiveChange Supervised "system:expiry" "expired" 0 ;;; Ret tt
  end.

(** [Math.round(ms / 1000)] *)
Definition round_seconds (ms : Z) : Z := (ms + 500) / 1000.

Definition describe : jin AutonomyDescription :=
  t <- now ;;
  state <- getState_at t ;;
  Ret {| ad_mode := as_mode state;
         ad_expiresAt := option_map to_iso_string (as_expiresAt state);
         ad_remainingSeconds :=
           option_map (fun e => Z.max 0 (round_seconds (e - t))) (as_expiresAt state);
         ad_setBy := as_setBy state;
         ad_limits := config;
         ad_guardedInSemiAuto :=
           map td_name (List.filter (fun t => is_true_flag (td_guardedInSemiAuto t))
                                    listRegisteredTools) |}.
End Service.
End Autonomy.

(** ** Facts about modes and limits *)

Lemma parseAutonomyMode_name m : parseAutonomyMode (mode_name m) = Some m.
Proof. by destruct m. Qed.

Lemma parseAutonomyMode_inv s m : parseAutonomyMode s = Some m -> s = mode_name m.
Proof.
  unfold parseAutonomyMode. intros [_ H]%List.find_some. by apply String.eqb_eq in H.
Qed.

Lemma clampHours_bounds requested l :
  limits_valid l -> 1 <= clampHours requested l <= ml_maxHours l.
Proof. unfold limits_valid, clampHours. lia. Qed.

Lemma limitsFor_valid c m : config_valid c -> limits_valid (Autonomy.limitsFor c m).
Proof. intros (Hs & Ha & _). by destruct m. Qed.

(** The row that a relaxed mode in force has. *)
Lemma effective_state_relaxed row t :
  as_mode (effective_state row t) <> Supervised <->
  exists r e, row = Some r /\ am_expiresAt r = Some e /\ t < e /\
    parseAutonomyMode (am_mode r) = Some (as_mode (effective_state row t)) /\
    parseAutonomyMode (am_mode r) <> Some Supervised.
Proof.
  unfold effective_state. split.
  - destruct row as [r|]; [|done]. destruct (parseAutonomyMode (am_mode r)) as [[]|] eqn:Em; try done.
    all: destruct (am_expiresAt r) as [e|] eqn:Ee; [|done]; destruct (Z.leb_spec e t); [done|].
    all: intros _; exists r, e; by rewrite Em.
  - intros (r & e & -> & He & Ht & Hm & Hne). rewrite He in *.
    destruct (parseAutonomyMode (am_mode r)) as [[]|]; try done;
      (destruct (Z.leb_spec e t); [lia|done]).
Qed.

Lemma relaxDecision_relaxes d m tool :
  rr_relaxedBy (relaxDecision d m tool) <> None ->
  m <> Supervised /\ hd_level d = Confirm /\ tool_flag td_humanDecision tool = false /\
  (m = SemiAuto -> tool_flag td_guardedInSemiAuto tool = false) /\
  hd_level (rr_decision (relaxDecision d m tool)) = Notify.
Proof.
  unfold relaxDecision. destruct (decide (m = Supervised)); [done|].
  destruct (bool_decide_reflect (hd_level d = Confirm)); cbn [negb]; [|done].
  destruct (tool_flag td_humanDecision tool); [done|].
  destruct (bool_decide_reflect (m = SemiAuto)) as [->|]; cbn [andb].
  - destruct (tool_flag td_guardedInSemiAuto tool); naive_solver.
  - naive_solver.
Qed.

(** ** Running the service *)

(** The clock and the faults of the database are not the service's to change. *)
Definition same_clock (w w' : World) : Prop :=
  clock (w_sys w') = clock (w_sys w) /\ fault (w_sys w') = fault (w_sys w).

#[export] Instance same_clock_preorder : PreOrder same_clock.
Proof. split; [done|]. intros w1 w2 w3 [H1 F1] [H2 F2]. split; congruence. Qed.

Lemma same_clock_audit w w' : audit_only w w' -> same_clock w w'.
Proof. by intros [[= Hc _ Hf _ _ _ _ _ _ _ _ _ _] _]. Qed.

Lemma steps_clock_appends data p : appends data p -> steps same_clock p.
Proof. intros [H _ _ _ _]. eapply steps_mono; [apply same_clock_audit|exact H]. Qed.

(** Approvals and audits leave the mode alone. *)
Definition same_autonomy (w w' : World) : Prop := w_autonomy w' = w_autonomy w.

#[export] Instance same_autonomy_preorder : PreOrder same_autonomy.
Proof. split; [done|]. intros w1 w2 w3 H1 H2. unfold same_autonomy in *. congruence. Qed.

Lemma steps_autonomy_create `{Laws : AuditApiLaws} input :
  steps same_autonomy (DualConfirm.createPendingApproval input).
Proof.
  apply steps_bind.
  { apply steps_bind; [|by intros []]. apply steps_db; [done|]. intros w. by case_match. }
  intros _. apply steps_bind; [|done].
  match goal with |- steps _ (audit_toolCall ?r ?a ?t ?h ?p ?s ?e) =>
    destruct (audit_toolCall_appends r a t h p s e) as [H _ _ _ _] end.
  eapply steps_mono; [|exact H]. by intros w w' [[= _ _ _ _ Ha _ _ _ _ _ _ _ _] _].
Qed.

Lemma steps_writeState `{Laws : AuditApiLaws} `{Crypto : NodeCrypto} input :
  steps same_clock (Autonomy.writeState input).
Proof.
  apply steps_bind; [done|]. intros t. apply steps_bind; [apply steps_bind; [by apply steps_db_read|done]|].
  intros st. cbv zeta. match goal with |- context [bind (if _ then ?a else Ret tt) _] => set (audit := a) end.
  assert (Ha : steps same_clock audit).
  { apply steps_bind; [by destruct (ws_approvalRequestId input)|]. intros rid.
    apply steps_bind; [eapply steps_clock_appends, audit_toolCall_appends|done]. }
  apply steps_bind; [by case_match|]. intros _. apply steps_bind; [by apply steps_db|]. intros _.
  apply steps_bind; [case_match; [done|by apply steps_catch]|]. intros _. done.
Qed.


Section Runs.
Context `{Laws : AuditApiLaws} `{Crypto : NodeCrypto} `{Uuid : ZodUuid} (config : AutonomyConfig).

Lemma run_getState w :
  healthy w ->
  run Autonomy.getState w = (tick w, inr (effective_state (w_autonomy w) (clock (w_sys w)))).
Proof.
  intros Hw. unfold Autonomy.getState, Autonomy.getState_at, db_read.
  rewrite run_bind, run_now, run_bind. by rewrite run_db_ok.
Qed.

(** The row [writeState] puts in place of another. *)
Definition written_row (input : WriteStateInput) (t : Z) : AutonomyModeStateRow :=
  {| am_mode := mode_name (ws_mode input);
     am_expiresAt := if decide (ws_mode input = Supervised) then None
                     else Some (t + ws_hours input * 60 * 60 * 1000);
     am_setBy := ws_setBy input; am_approvalRequestId := ws_approvalRequestId input;
     am_changedAt := t; am_relaxedCount := 0; am_windowStartedAt := t |}.

Definition written_iso (input : WriteStateInput) (t : Z) : option string :=
  option_map to_iso_string (am_expiresAt (written_row input t)).

(** A change that is applied before its audit always takes effect. *)
Lemma run_writeState_restrictive input w :
  healthy w -> ws_auditBeforeApply input = false -> ws_approvalRequestId input = None ->
  exists w',
    run (Autonomy.writeState input) w = (w', inr (written_iso input (clock (w_sys w)))) /\
    w_autonomy w' = option_map (fun _ => written_row input (clock (w_sys w))) (w_autonomy w) /\
    w_pending w' = w_pending w /\
    w_events w' = w_events w ++ [AUTONOMY_MODE_CHANGED_EVENT (mode_name (ws_mode input))
      (mode_name (as_mode (effective_state (w_autonomy w) (clock (w_sys w))))) (ws_reason input)
      (written_iso input (clock (w_sys w))) (ws_setBy input)].
Proof.
  intros Hw Hb Hr. unfold Autonomy.writeState, Autonomy.getState_at, db_read, db_write.
  rewrite run_bind, run_now, !run_bind, run_db_ok by done. cbn [run]. cbv zeta. rewrite Hb, Hr.
  rewrite run_bind. cbn [run]. rewrite run_bind, run_db_ok by done.
  set (prev := effective_state (w_autonomy (tick w)) (clock (w_sys w))).
  set (w1 := upd_autonomy _ (tick (tick w))).
  rewrite run_bind, run_catch, run_bind. unfold randomUUID. cbn [run].
  set (w2 := upd_sys _ w1). rewrite run_bind.
  match goal with |- context [run (audit_toolCall ?r ?a ?t ?h ?p ?s ?e) w2] =>
    pose proof (audit_toolCall_appends r a t h p s e) as Ha end.
  pose proof (steps_run audit_only _ w2 (appends_steps _ _ Ha)) as [Ho _].
  destruct (run _ w2) as [w3 [e|row]]; cbn in Ho; injection Ho as _ _ _ Hp Ham _ _ _ _ Hev _ _ _.
  all: cbn [run]; rewrite ?run_bind, run_emit; cbn [run].
  all: eexists; split; [done|]; cbn; rewrite Hp, Ham, Hev; unfold written_iso, written_row; rewrite ?Hr; by splits.
Qed.

Lemma run_relax decision tool w :
  healthy w ->
  let t := clock (w_sys w) in
  let result := relaxDecision decision (as_mode (effective_state (w_autonomy w) t)) tool in
  match rr_relaxedBy result with
  | None => run (Autonomy.relax config decision tool) w = (tick w, inr decision)
  | Some _ =>
      exists row w',
        w_autonomy w = Some row /\ clock (w_sys w') = t /\ healthy w' /\
        if ac_maxRelaxedActionsPerHour config <? am_relaxedCount (bump_row t row) then
          run (Autonomy.relax config decision tool) w = (w', inr decision) /\
          exists row', w_autonomy w' = Some row' /\ am_mode row' = "supervised"
        else
          run (Autonomy.relax config decision tool) w = (w', inr (rr_decision result)) /\
          w_autonomy w' = Some (bump_row t row)
  end.
Proof.
  intros Hw t result. unfold Autonomy.relax. rewrite run_bind, run_getState by done. cbv zeta.
  fold t. fold result. destruct (rr_relaxedBy result) as [by_|] eqn:Er; [|done].
  assert (Hrel : rr_relaxedBy result <> None) by (by rewrite Er).
  apply relaxDecision_relaxes in Hrel as (Hm & _). apply effective_state_relaxed in Hm as (row & e & Hrow & _).
  exists row. rewrite run_bind. unfold Autonomy.bumpRelaxedCounter. rewrite run_db_ok by done.
  change (w_autonomy (tick (tick w))) with (w_autonomy w). rewrite Hrow.
  change (clock (w_sys (tick (tick w)))) with t. set (w1 := upd_autonomy _ (tick (tick w))).
  destruct (_ <? am_relaxedCount (bump_row t row)).
  - rewrite run_bind. unfold Autonomy.applyRestrictiveChange.
    match goal with |- context [Autonomy.writeState ?i] => set (input := i) end.
    destruct (run_writeState_restrictive input w1) as (w2 & Hrun & Ha & Hp & Hev); [done..|].
    exists w2. rewrite Hrun. split; [done|].
    pose proof (steps_run same_clock _ w1 (steps_writeState input)) as [Hc Hf]. rewrite Hrun in Hc, Hf.
    cbn in Hc, Hf. split; [by rewrite Hc|]. split; [intros n; by rewrite Hf|]. split; [done|].
    rewrite Ha. cbn. by eexists.
  - exists w1. by splits.
Qed.

(** A change audited first: applied when its row is in the log, or not at all. *)
Lemma run_writeState_audited input rid w :
  healthy w -> ws_auditBeforeApply input = true -> ws_approvalRequestId input = Some rid ->
  exists w',
    if chain_locked w then
      run (Autonomy.writeState input) w = (w', inl AuditChainLockedError) /\
      w_autonomy w' = w_autonomy w /\ w_events w' = w_events w
    else
      run (Autonomy.writeState input) w = (w', inr (written_iso input (clock (w_sys w)))) /\
      w_autonomy w' = option_map (fun _ => written_row input (clock (w_sys w))) (w_autonomy w) /\
      exists arow, audit_log (w_audit w') = audit_log (w_audit w) ++ [arow] /\
        hr_requestId (al_content arow) = to_well_formed rid /\
        hr_toolName (al_content arow) = Some AUTONOMY_MODE_CHANGE_TOOL_NAME /\
        hr_actor (al_content arow) = to_well_formed (ws_setBy input).
Proof.
  intros Hw Hb Hr. unfold Autonomy.writeState, Autonomy.getState_at, db_read, db_write.
  rewrite run_bind, run_now, !run_bind, run_db_ok by done. cbn [run]. cbv zeta. rewrite Hb, Hr.
  rewrite !run_bind. cbn [run]. rewrite run_bind.
  match goal with |- context [run (audit_toolCall ?r ?a ?t ?h ?p ?s ?e) _] =>
    pose proof (audit_toolCall_appends r a t h p s e) as Ha end.
  change (chain_locked w) with (chain_locked (tick w)).
  destruct (chain_locked (tick w)) eqn:El.
  - destruct (appends_fails _ _ (tick w) Ha Hw El) as (w1 & -> & _ & Ho & _).
    injection Ho as _ _ _ _ Ham _ _ _ _ Hev _ _ _. by exists w1.
  - destruct (appends_ok _ _ (tick w) Ha Hw El) as (w1 & arow & -> & Hlog & Hrow & Ho & _).
    pose proof (healthy_outside _ _ Ho Hw) as Hw1. injection Ho as _ _ _ _ Ham _ _ _ _ _ _ _ _.
    cbn [run]. rewrite run_bind, run_db_ok by done. cbn [run]. rewrite !run_bind. cbn [run].
    rewrite run_bind, run_emit. cbn [run]. eexists. split; [unfold written_iso; done|].
    cbn. rewrite Ham. split.
    + unfold written_row. by rewrite Hr.
    + exists arow. rewrite Hrow. by splits.
Qed.
End Runs.

(** ** Properties *)

Section Properties.
Context `{Laws : AuditApiLaws} `{Crypto : NodeCrypto} `{Uuid : ZodUuid} (config : AutonomyConfig).

(** Fail safe: whatever the row holds and whichever statements fail, when
    [getState] reports a relaxed mode there is a row with that mode and an
    expiry still to come; in every other case the answer is 'supervised' or an
    error. *)
Lemma relaxed_mode_needs_an_unexpired_row (w w' : World) (st : AutonomyState) :
  run Autonomy.getState w = (w', inr st) -> as_mode st <> Supervised ->
  exists row expiresAt,
    w_autonomy w = Some row /\ am_mode row = mode_name (as_mode st) /\
    am_expiresAt row = Some expiresAt /\ as_expiresAt st = Some expiresAt /\
    clock (w_sys w) < expiresAt.
Proof.
  unfold Autonomy.getState, Autonomy.getState_at, db_read.
  rewrite run_bind, run_now, run_bind, run_db. destruct (faulty w); [done|]. cbn [run].
  change (w_autonomy (tick w)) with (w_autonomy w). intros [= _ <-] Hne.
  pose proof Hne as (row & e & Hrow & He & Ht & Hm & _)%effective_state_relaxed.
  exists row, e. splits; try done; [by apply parseAutonomyMode_inv|].
  revert Hne. unfold effective_state. rewrite Hrow. destruct (parseAutonomyMode (am_mode row)) as [[]|];
    rewrite ?He; try done; by destruct (e <=? clock (w_sys w)).
Qed.

(** Asking for less protection than the mode in force (or renewing a relaxed
    mode) changes no mode: it only leaves a 'dual-confirm' pending approval for
    the change, with its hours within the limits of the configuration. *)
Lemma lowering_protection_only_asks (mode : AutonomyMode) (hours : option Z)
    (requestedBy : string) (w : World) :
  healthy w -> chain_locked w = false -> config_valid config ->
  let rid := uuid_string (uuids (w_sys w)) in
  w_pending w !! rid = None ->
  requiresDualConfirm (as_mode (effective_state (w_autonomy w) (clock (w_sys w)))) mode = true ->
  exists w' h row,
    run (Autonomy.requestModeChange config mode hours requestedBy) w =
      (w', inr (mc_pending_approval rid mode h)) /\
    1 <= h <= ml_maxHours (Autonomy.limitsFor config mode) /\
    w_autonomy w' = w_autonomy w /\
    w_pending w' = <[rid := row]> (w_pending w) /\
    pa_level row = "dual-confirm" /\ pa_toolName row = AUTONOMY_MODE_CHANGE_TOOL_NAME /\
    pa_firstApprovedAt row = None /\
    json_field "mode" (pa_payload row) = Some (JStr (mode_name mode)) /\
    json_field "hours" (pa_payload row) = Some (JNum h) /\
    json_field "approvalRequestId" (pa_payload row) = Some (JStr rid).
Proof.
  intros Hw Hl Hc rid Hn Hreq. unfold Autonomy.requestModeChange.
  rewrite run_bind, run_getState by done. rewrite Hreq. cbn [negb]. cbv zeta.
  set (h := clampHours hours (Autonomy.limitsFor config mode)).
  rewrite run_bind. unfold randomUUID. cbn [run].
  change (uuid_string (uuids (w_sys (tick w)))) with rid. set (w1 := upd_sys _ (tick w)).
  rewrite run_bind.
  match goal with |- context [DualConfirm.createPendingApproval ?i] => set (input := i) end.
  pose proof (steps_run same_autonomy _ w1 (steps_autonomy_create input)) as Ha.
  pose proof (createPendingApproval_leaves_a_trace input w1 Hw Hn) as (Hp & _ & Hrest).
  change (chain_locked w1) with (chain_locked w) in Hrest. rewrite Hl in Hrest.
  destruct Hrest as (Hres & _). destruct (run (DualConfirm.createPendingApproval input) w1)
    as [w2 r2]; cbn in Hp, Hres, Ha; subst r2. cbn [run].
  eexists w2, h, _. split; [done|]. split; [apply clampHours_bounds, limitsFor_valid, Hc|].
  split; [exact Ha|]. split; [exact Hp|]. by splits.
Qed.

(** The executor of an approved change re-clamps the hours and audits the
    change before applying it: with a locked audit chain the mode stays as it
    was; otherwise the row carries the approved mode, until an instant at most
    [maxHours] away, and the log has the change under the approval's id. *)
Lemma approved_change_is_audited_before_it_applies (mode : AutonomyMode) (hours : Z)
    (rid : string) (w : World) :
  healthy w -> config_valid config -> mode <> Supervised -> 0 < hours -> zod_uuid rid = true ->
  let payload := JObj [("mode", JStr (mode_name mode)); ("hours", JNum hours);
                       ("approvalRequestId", JStr rid)] in
  exists w',
    if chain_locked w then
      run (Autonomy.applyApprovedChange config payload) w = (w', inl AuditChainLockedError) /\
      w_autonomy w' = w_autonomy w
    else
      run (Autonomy.applyApprovedChange config payload) w = (w', inr (JObj [("ok", JBool true)])) /\
      (forall row', w_autonomy w' = Some row' ->
         am_mode row' = mode_name mode /\ am_relaxedCount row' = 0 /\
         am_approvalRequestId row' = Some rid /\
         exists e, am_expiresAt row' = Some e /\
           clock (w_sys w) < e <= clock (w_sys w) +
             ml_maxHours (Autonomy.limitsFor config mode) * MS_PER_HOUR) /\
      exists arow, audit_log (w_audit w') = audit_log (w_audit w) ++ [arow] /\
        hr_requestId (al_content arow) = to_well_formed rid.
Proof.
  intros Hw Hc Hm Hh Hu payload. unfold Autonomy.applyApprovedChange. rewrite run_bind.
  assert (Hparse : Autonomy.parseApprovedChange payload =
    Ret {| acp_mode := mode; acp_hours := hours; acp_approvalRequestId := rid |}).
  { unfold Autonomy.parseApprovedChange, payload. cbn -[parseAutonomyMode].
    rewrite parseAutonomyMode_name, Hu, andb_true_r. by apply Z.ltb_lt in Hh as ->. }
  rewrite Hparse. cbn [run]. cbv zeta. cbn [acp_mode acp_hours acp_approvalRequestId].
  rewrite decide_False by done. rewrite run_bind.
  match goal with |- context [Autonomy.writeState ?i] => set (input := i) end.
  destruct (run_writeState_audited input rid w Hw eq_refl eq_refl) as (w' & Hr). exists w'.
  destruct (chain_locked w).
  - destruct Hr as (-> & Ha & _). by split.
  - destruct Hr as (-> & Ha & arow & Hlog & Hrid & _). cbn [run]. split; [done|]. split.
    + intros row' Hrow'. rewrite Ha in Hrow'. destruct (w_autonomy w); [|done].
      injection Hrow' as <-. splits; try done.
      eexists. cbn. rewrite decide_False by done. split; [done|].
      pose proof (clampHours_bounds (Some hours) _ (limitsFor_valid config mode Hc)).
      unfold MS_PER_HOUR. lia.
    + exists arow. by split.
Qed.

(** C19. Going back to full supervision never waits for the audit log: even with
    the chain locked, the owner's request, and the cron that finds a relaxed
    mode expired, put the row in 'supervised' and announce it. *)
Theorem supervision_is_restored_without_the_log (requestedBy : string)
    (row : AutonomyModeStateRow) (w : World) :
  healthy w -> w_autonomy w = Some row ->
  let previous := mode_name (as_mode (effective_state (Some row) (clock (w_sys w)))) in
  (exists w' row',
     run (Autonomy.requestModeChange config Supervised None requestedBy) w =
       (w', inr (mc_applied Supervised None)) /\
     w_autonomy w' = Some row' /\ am_mode row' = "supervised" /\ am_expiresAt row' = None /\
     w_events w' = w_events w ++
       [AUTONOMY_MODE_CHANGED_EVENT "supervised" previous "downgrade" None requestedBy]) /\
  (am_mode row <> "supervised" ->
   (forall e, am_expiresAt row = Some e -> e <= clock (w_sys w)) ->
   exists w' row', run Autonomy.expireIfNeeded w = (w', inr tt) /\
     w_autonomy w' = Some row' /\ am_mode row' = "supervised" /\ am_expiresAt row' = None /\
     w_events w' = w_events w ++
       [AUTONOMY_MODE_CHANGED_EVENT "supervised" previous "expired" None "system:expiry"]).
Proof.
  intros Hw Hrow previous.
  assert (Hp : previous = mode_name (as_mode (effective_state (w_autonomy (tick w)) (clock (w_sys (tick w)))))).
  { subst previous. by rewrite <- Hrow. }
  clearbody previous. split.
  - unfold Autonomy.requestModeChange. rewrite run_bind, run_getState by done. cbv zeta.
    change (requiresDualConfirm _ Supervised) with false. cbn [negb].
    rewrite (decide_True (P := Supervised = Supervised)) by done.
    rewrite run_bind. unfold Autonomy.applyRestrictiveChange.
    match goal with |- context [Autonomy.writeState ?i] => set (input := i) end.
    destruct (run_writeState_restrictive input (tick w) Hw eq_refl eq_refl) as (w' & -> & Ha & _ & He').
    cbn [run]. eexists w', _. split; [done|]. rewrite He', <- Hp, Ha.
    change (w_autonomy (tick w)) with (w_autonomy w). rewrite Hrow. by splits.
  - intros Hm He. unfold Autonomy.expireIfNeeded, db_read.
    rewrite run_bind, run_now, run_bind, run_db_ok by done.
    change (w_autonomy (tick w)) with (w_autonomy w). rewrite Hrow.
    apply String.eqb_neq in Hm as ->.
    assert ((match am_expiresAt row with Some e => clock (w_sys w) <? e | None => false end) = false) as ->.
    { destruct (am_expiresAt row) as [e|]; [|done]. specialize (He e eq_refl). apply Z.ltb_ge. lia. }
    rewrite run_bind. unfold Autonomy.applyRestrictiveChange.
    match goal with |- context [Autonomy.writeState ?i] => set (input := i) end.
    destruct (run_writeState_restrictive input (tick w) Hw eq_refl eq_refl) as (w' & -> & Ha & _ & He').
    cbn [run]. eexists w', _. split; [done|]. rewrite He', <- Hp, Ha.
    change (w_autonomy (tick w)) with (w_autonomy w). rewrite Hrow. by splits.
Qed.

(** From 'auto', asking for 'semi-auto' is applied at once with a new expiry
    of up to the hours 'semi-auto' allows, counted from now and without any
    approval: the relaxed time may end later than the approved one did. *)
Lemma stepping_down_from_auto_restarts_the_expiry (hours : option Z) (requestedBy : string)
    (row : AutonomyModeStateRow) (w : World) :
  healthy w -> w_autonomy w = Some row ->
  as_mode (effective_state (Some row) (clock (w_sys w))) = AutoMode ->
  let until := clock (w_sys w) + clampHours hours (ac_semiAuto config) * MS_PER_HOUR in
  exists w' row',
    run (Autonomy.requestModeChange config SemiAuto hours requestedBy) w =
      (w', inr (mc_applied SemiAuto (Some (to_iso_string until)))) /\
    w_pending w' = w_pending w /\
    w_autonomy w' = Some row' /\ am_mode row' = "semi-auto" /\ am_expiresAt row' = Some until.
Proof.
  intros Hw Hrow Hm until. unfold Autonomy.requestModeChange.
  rewrite run_bind, run_getState, Hrow, Hm by done.
  change (requiresDualConfirm AutoMode SemiAuto) with false. cbn [negb]. cbv zeta.
  rewrite (decide_False (P := SemiAuto = Supervised)) by done.
  rewrite run_bind. unfold Autonomy.applyRestrictiveChange.
  match goal with |- context [Autonomy.writeState ?i] => set (input := i) end.
  destruct (run_writeState_restrictive input (tick w) Hw eq_refl eq_refl) as (w' & -> & Ha & Hp & _).
  assert (He : am_expiresAt (written_row input (clock (w_sys w))) = Some until).
  { unfold written_row, input, until, MS_PER_HOUR. cbn. f_equal. lia. }
  unfold written_iso. change (clock (w_sys (tick w))) with (clock (w_sys w)) in *. rewrite He.
  cbn [run option_map]. eexists w', _. split; [done|]. split; [exact Hp|].
  rewrite Ha. cbn [tick upd_sys w_autonomy]. rewrite Hrow. split; [reflexivity|]. by split.
Qed.
End Properties.

(** ** Concrete runs *)

Module AutonomyExamples.
#[local] Existing Instance toy_crypto.

Definition any_uuid : ZodUuid := {| zod_uuid := fun _ => true |}.

(** [config/autonomy.yaml] *)
Definition yaml_config : AutonomyConfig := {|
  ac_semiAuto := {| ml_defaultHours := 24; ml_maxHours := 72 |};
  ac_auto := {| ml_defaultHours := 4; ml_maxHours := 24 |};
  ac_maxRelaxedActionsPerHour := 20 |}.

Lemma yaml_config_valid : config_valid yaml_config.
Proof. unfold config_valid, limits_valid; cbn; lia. Qed.

Definition auto_row (expiresAt count : Z) : AutonomyModeStateRow := {|
  am_mode := "auto"; am_expiresAt := Some expiresAt; am_setBy := "owner:dual-confirm";
  am_approvalRequestId := None; am_changedAt := 0; am_relaxedCount := count;
  am_windowStartedAt := 0 |}.

(** 'auto' until [expiresAt], seen at time [t]. *)
Definition auto_store (expiresAt count t : Z) : World :=
  upd_autonomy (fun _ => Some (auto_row expiresAt count)) (empty_world t).

Definition confirm_decision (n : nat) : HitlDecision := {|
  hd_requestId := uuid_string n; hd_toolName := "sendEmail"; hd_level := Confirm;
  hd_approvalsRequired := 1; hd_notifyAfterExecution := false; hd_relaxedBy := None |}.

End AutonomyExamples.

Lemma relaxed_mode_needs_an_unexpired_row_witness :
  exists row expiresAt, w_autonomy (AutonomyExamples.auto_store 9000 0 5) = Some row /\
    am_mode row = "auto" /\ am_expiresAt row = Some expiresAt /\ 5 < expiresAt.
Proof.
  destruct (relaxed_mode_needs_an_unexpired_row (AutonomyExamples.auto_store 9000 0 5)
    (tick (AutonomyExamples.auto_store 9000 0 5))
    {| as_mode := AutoMode; as_expiresAt := Some 9000; as_setBy := "owner:dual-confirm";
       as_changedAt := 0 |} eq_refl ltac:(done)) as (row & e & H1 & H2 & H3 & _ & H4).
  by exists row, e.
Defined.

Lemma lowering_protection_only_asks_witness :
  exists w' h, run (@Autonomy.requestModeChange (@auditService toy_crypto) toy_crypto
      AutonomyExamples.yaml_config AutoMode (Some 100) "owner:api") (empty_world 7) =
    (w', inr (mc_pending_approval (uuid_string 0) AutoMode h)) /\ 1 <= h <= 24.
Proof.
  destruct (@lowering_protection_only_asks (@auditService toy_crypto) (@auditService_laws toy_crypto)
    toy_crypto AutonomyExamples.yaml_config AutoMode (Some 100) "owner:api" (empty_world 7))
    as (w' & h & row & H1 & H2 & _); [done|done|apply AutonomyExamples.yaml_config_valid|done|done|].
  by exists w', h.
Defined.

Lemma approved_change_is_audited_before_it_applies_witness :
  exists w', run (@Autonomy.applyApprovedChange (@auditService toy_crypto) toy_crypto
      AutonomyExamples.any_uuid AutonomyExamples.yaml_config
      (JObj [("mode", JStr "auto"); ("hours", JNum 4); ("approvalRequestId", JStr "r")]))
      (AutonomyExamples.auto_store 9000 0 5) = (w', inr (JObj [("ok", JBool true)])).
Proof.
  destruct (@approved_change_is_audited_before_it_applies (@auditService toy_crypto)
    (@auditService_laws toy_crypto) toy_crypto AutonomyExamples.any_uuid AutonomyExamples.yaml_config
    AutoMode 4 "r" (AutonomyExamples.auto_store 9000 0 5)) as (w' & H);
    [done|apply AutonomyExamples.yaml_config_valid|done|lia|done|].
  exists w'. exact (proj1 H).
Defined.

Lemma supervision_is_restored_without_the_log_witness :
  let w := upd_audit (fun a => {| audit_log := audit_log a; audit_seq := audit_seq a;
             audit_chain_lock := Some {| acl_locked := true; acl_lockedAt := None;
                                         acl_reason := None |} |})
             (AutonomyExamples.auto_store 9000 0 9001) in
  exists w' row', run (@Autonomy.expireIfNeeded (@auditService toy_crypto) toy_crypto) w = (w', inr tt) /\
    w_autonomy w' = Some row' /\ am_mode row' = "supervised" /\ am_expiresAt row' = None /\
    w_events w' = [AUTONOMY_MODE_CHANGED_EVENT "supervised" "supervised" "expired" None "system:expiry"].
Proof.
  intros w.
  apply (proj2 (@supervision_is_restored_without_the_log (@auditService toy_crypto)
    (@auditService_laws toy_crypto) toy_crypto AutonomyExamples.yaml_config "owner:api"
    (AutonomyExamples.auto_row 9000 0) w ltac:(done) eq_refl)).
  - done.
  - intros e [= <-]. cbn. lia.
Defined.

(** One minute before an 'auto' of 4 hours ends: 72 more hours of 'semi-auto'. *)
Lemma stepping_down_from_auto_restarts_the_expiry_witness :
  exists w' row', w_autonomy w' = Some row' /\ am_mode row' = "semi-auto" /\
    am_expiresAt row' = Some (76 * MS_PER_HOUR - 60000) /\ w_pending w' = ∅.
Proof.
  destruct (@stepping_down_from_auto_restarts_the_expiry (@auditService toy_crypto)
    (@auditService_laws toy_crypto) toy_crypto AutonomyExamples.yaml_config (Some 72) "owner:api"
    (AutonomyExamples.auto_row (4 * MS_PER_HOUR) 0)
    (AutonomyExamples.auto_store (4 * MS_PER_HOUR) 0 (4 * MS_PER_HOUR - 60000))
    ltac:(done) eq_refl eq_refl) as (w' & row' & _ & Hp & Ha & Hm & He).
  exists w', row'. split; [exact Ha|]. split; [exact Hm|]. split; [exact He|exact Hp].
Defined.
