(* ===== verification/AutonomySafety.v ===== *)
(** * AutonomySafety: the circuit breaker among calls in flight

    [AutonomyService.relax] reads the mode, counts and, past the limit, goes back to full
    supervision, in separate statements.  Calls of it run interleaved here, with any fault
    of the database and any death of a process between their statements. *)
From S2P Require Import Prelude Effects Js Registry Store AuditApi AuditLog Hitl Autonomy.
Local Open Scope stdpp_scope.
Local Open Scope Z_scope.
Local Open Scope jin_scope.

Definition relaxed (d : HitlDecision) : bool := negb (is_null (hd_relaxedBy d)).

(** A call that was answered with a relaxed decision. *)
Definition answered_relaxed (p : jin HitlDecision) : bool :=
  match p with Ret d => relaxed d | _ => false end.

(** The hour in which the calls are counted: that of the row, or from now on when it is over. *)
Definition window_end (w : World) : Z :=
  MS_PER_HOUR +
  match w_autonomy w with
  | Some row =>
      if am_windowStartedAt row <? clock (w_sys w) - MS_PER_HOUR then clock (w_sys w)
      else am_windowStartedAt row
  | None => clock (w_sys w)
  end.

Lemma window_end_ahead w : clock (w_sys w) <= window_end w.
Proof. unfold window_end, MS_PER_HOUR. destruct (w_autonomy w); [case_match|]; lia. Qed.

Section Breaker.
Context `{Laws : AuditApiLaws} `{Crypto : NodeCrypto} (config : AutonomyConfig).

(** A call of [relax] for a decision that nothing relaxed before. *)
Inductive relaxing : jin HitlDecision -> Prop :=
| relaxing_call d tool : hd_relaxedBy d = None -> relaxing (Autonomy.relax config d tool).

(** How many more relaxed actions the row allows in its window. *)
Definition allowance (w : World) : Z :=
  match w_autonomy w with
  | Some row =>
      if String.eqb (am_mode row) "supervised" then 0
      else if am_windowStartedAt row <? clock (w_sys w) - MS_PER_HOUR
      then Z.max 0 (ac_maxRelaxedActionsPerHour config)
      else Z.max 0 (ac_maxRelaxedActionsPerHour config - am_relaxedCount row)
  | None => 0
  end.

(** ** The protocol of a call *)

Inductive RelaxPhase :=
| rp_fresh      (* the mode is not read *)
| rp_armed      (* it was read, and relaxes the decision *)
| rp_tripping   (* the count is over the limit *)
| rp_passed     (* the action is counted and relaxed *)
| rp_over.      (* anything else: nothing is relaxed *)

Definition is_armed (ph : RelaxPhase) : bool := match ph with rp_armed => true | _ => false end.
Definition is_passed (ph : RelaxPhase) : bool := match ph with rp_passed => true | _ => false end.
Definition is_live (ph : RelaxPhase) : bool :=
  match ph with rp_armed | rp_tripping => true | _ => false end.

Definition quiet (w w' : World) : Prop :=
  clock (w_sys w') = clock (w_sys w) /\ w_autonomy w' = w_autonomy w.

(** The row after a count. *)
Definition counted (w w' : World) : Prop :=
  clock (w_sys w') = clock (w_sys w) /\
  w_autonomy w' = bump_row (clock (w_sys w)) <$> w_autonomy w.

Inductive relax_moves : RelaxPhase -> World -> World -> RelaxPhase -> Prop :=
| move_quiet ph w w' ph' : quiet w w' -> ph' = ph \/ ph' = rp_over -> relax_moves ph w w' ph'
| move_arm w w' row : quiet w w' -> w_autonomy w = Some row -> am_mode row <> "supervised" ->
    relax_moves rp_fresh w w' rp_armed
| move_pass w w' : counted w w' ->
    (forall row, w_autonomy w' = Some row -> am_relaxedCount row <= ac_maxRelaxedActionsPerHour config) ->
    relax_moves rp_armed w w' rp_passed
| move_trip w w' : counted w w' -> relax_moves rp_armed w w' rp_tripping
| move_write w w' : clock (w_sys w') = clock (w_sys w) ->
    (forall row, w_autonomy w' = Some row -> am_mode row = "supervised") ->
    relax_moves rp_tripping w w' rp_over.

Abbreviation keeps_to ph p Q := (follows (fun _ _ => True) relax_moves ph p Q).

(** A call that has ended does not count any more, and is relaxed only if it was counted. *)
Definition relax_ended (ph : RelaxPhase) (r : JinError + HitlDecision) : Prop :=
  is_live ph = false /\ (forall d, r = inr d -> relaxed d = true -> ph = rp_passed).

Lemma follows_quiet {A} ph (p : jin A) : steps quiet p -> keeps_to ph p (fun ph' _ => ph' = ph).
Proof. apply follows_steps. intros w w' _ H. apply move_quiet; auto. Qed.

(** A statement, and its fault. *)
Lemma follows_db {X A} ph (f : World -> World * X) (k : X -> jin A) Q :
  Q rp_over (inl DbError) ->
  (forall w, exists ph', relax_moves ph w (f (tick w)).1 ph' /\ keeps_to ph' (k (f (tick w)).2) Q) ->
  keeps_to ph (bind (db f) k) Q.
Proof.
  intros He Hf w _. unfold db_act. destruct (faulty w).
  - exists rp_over. split; [by apply move_quiet; [|right]|exact He].
  - specialize (Hf w). by destruct (f (tick w)).
Qed.

Lemma steps_quiet_audit data p : appends data p -> steps quiet p.
Proof.
  intros [H _ _ _ _]. eapply steps_mono; [|exact H].
  intros w w' [[= Hc _ _ _ Ha _ _ _ _ _ _ _ _] _]. by split.
Qed.

Lemma follows_over (p : jin HitlDecision) Q :
  steps quiet p -> (forall r, Q rp_over r) -> keeps_to rp_over p Q.
Proof. intros Hp HQ. eapply follows_mono; [by apply follows_quiet|]. intros ph r ->. apply HQ. Qed.

(** A part of a call that changes nothing here. *)
Lemma follows_quiet_bind {A B} ph (p : jin A) (k : A -> jin B) Q :
  steps quiet p -> (forall e, Q ph (inl e)) -> (forall a, keeps_to ph (k a) Q) -> keeps_to ph (bind p k) Q.
Proof.
  intros Hp He Hk. apply follows_bind. eapply follows_mono; [by apply follows_quiet|].
  intros ph' [e|a] ->; auto.
Qed.

(** A part that only reads, or fails. *)
Lemma follows_read {X A} ph (f : World -> X) (k : X -> jin A) Q :
  Q rp_over (inl DbError) -> (forall x, keeps_to ph (k x) Q) -> keeps_to ph (bind (db_read f) k) Q.
Proof.
  intros He Hk. apply follows_db; [exact He|]. intros w. exists ph. split; [|apply Hk].
  apply move_quiet; [done|by left].
Qed.

(** Going back to full supervision: one statement writes the row. *)
Lemma follows_trip (d : HitlDecision) :
  hd_relaxedBy d = None ->
  keeps_to rp_tripping
    (Autonomy.applyRestrictiveChange Supervised "system:circuit-breaker" "circuit-breaker" 0 ;;; Ret d)
    relax_ended.
Proof.
  intros Hd. assert (Hover : forall r : JinError + option string,
    match r with inr _ => keeps_to rp_over (Ret d : jin HitlDecision) relax_ended
               | inl e => relax_ended rp_over (inl e) end).
  { intros [e|x]; (split; [done|]); [done|]. intros d' [= <-]. unfold relaxed. by rewrite Hd. }
  apply follows_bind. unfold Autonomy.applyRestrictiveChange, Autonomy.writeState.
  intros w _. exists rp_tripping. split; [apply move_quiet; [done|by left]|]. cbn [fst snd bind].
  generalize (clock (w_sys w)) as t. clear w. intros t.
  unfold Autonomy.getState_at. apply follows_bind.
  apply follows_read; [apply (Hover (inl _))|]. intros row. cbn [follows]. cbv zeta. cbn [ws_auditBeforeApply bind].
  unfold db_write. apply follows_db; [apply (Hover (inl _))|]. intros w. exists rp_over. split.
  { apply move_write; [done|]. intros row'. cbn. by destruct (w_autonomy w) as [r|]; [intros [= <-]|]. }
  eapply follows_mono; [apply follows_quiet|intros ph r ->; apply Hover].
  apply steps_bind; [|done]. apply steps_catch; [|done].
  apply steps_bind; [done|]. intros rid. apply steps_bind; [|done].
  eapply steps_quiet_audit, audit_toolCall_appends.
Qed.

Lemma follows_relax p : relaxing p -> keeps_to rp_fresh p relax_ended.
Proof.
  destruct 1 as [d tool Hd]. unfold Autonomy.relax, Autonomy.getState.
  assert (Hsame : forall ph, is_live ph = false -> relax_ended ph (inr d)).
  { intros ph Hl. split; [done|]. intros d' [= <-]. unfold relaxed. by rewrite Hd. }
  assert (Hfault : forall e, relax_ended rp_over (inl e)) by (by split).
  intros w0 _. exists rp_fresh. split; [apply move_quiet; [done|by left]|]. cbn [fst snd bind].
  generalize (clock (w_sys w0)) as t. clear w0. intros t. unfold Autonomy.getState_at, db_read.
  apply follows_bind. apply follows_db; [apply Hfault|]. intros w. cbn [fst snd].
  change (w_autonomy (tick w)) with (w_autonomy w).
  destruct (rr_relaxedBy (relaxDecision d (as_mode (effective_state (w_autonomy w) t)) tool)) as [by_|] eqn:Er.
  2:{ exists rp_fresh. split; [apply move_quiet; [done|by left]|]. cbn [follows]. cbv zeta. rewrite Er. by apply Hsame. }
  assert (Hrel : rr_relaxedBy (relaxDecision d (as_mode (effective_state (w_autonomy w) t)) tool) <> None) by (by rewrite Er).
  apply relaxDecision_relaxes in Hrel as (Hm & _). apply effective_state_relaxed in Hm as (row & e & Hrow & _ & _ & _ & Hns).
  exists rp_armed. split.
  { apply (move_arm _ _ row); [done|done|]. intros Hsup. by rewrite Hsup in Hns. }
  cbn [follows]. cbv zeta. rewrite Er. unfold Autonomy.bumpRelaxedCounter.
  generalize (rr_decision (relaxDecision d (as_mode (effective_state (w_autonomy w) t)) tool)) as d'.
  clear Hns Hrow Er t w row e. intros d'. apply follows_db; [apply Hfault|]. intros w.
  assert (Hpass : relax_ended rp_passed (inr d')) by (by split).
  change (w_autonomy (tick w)) with (w_autonomy w). change (clock (w_sys (tick w))) with (clock (w_sys w)).
  destruct (w_autonomy w) as [row|] eqn:Hrow; cbn [fst snd].
  - set (row' := bump_row (clock (w_sys w)) row). set (w' := upd_autonomy _ (tick w)).
    assert (Hcount : counted w w') by (split; [done|]; cbn; by rewrite Hrow).
    destruct (Z.ltb_spec (ac_maxRelaxedActionsPerHour config) (am_relaxedCount row')).
    + exists rp_tripping. split; [by apply move_trip|by apply follows_trip].
    + exists rp_passed. split; [|exact Hpass]. apply move_pass; [exact Hcount|]. by intros row2 [= <-].
  - assert (Hcount : counted w (tick w)) by (split; [done|]; cbn; by rewrite Hrow).
    destruct (Z.ltb_spec (ac_maxRelaxedActionsPerHour config) 0).
    + exists rp_tripping. split; [by apply move_trip|by apply follows_trip].
    + exists rp_passed. split; [|exact Hpass]. apply move_pass; [exact Hcount|].
      intros row2. cbn. by rewrite Hrow.
Qed.

(** ** The count *)

Section Count.
Context (n : nat) (w0 : World).

Definition passed (phs : list RelaxPhase) : Z := Z.of_nat (tally is_passed phs).
Definition armed (phs : list RelaxPhase) : Z := Z.of_nat (tally is_armed phs).

(** The mode is relaxed and the row counts in the hour of [w0], or it still has an older
    window, that the first count starts again. *)
Inductive breaker_inv (w : World) (phs : list RelaxPhase) : Prop :=
| breaker_open row :
    w_autonomy w = Some row -> am_mode row <> "supervised" ->
    clock (w_sys w0) <= clock (w_sys w) ->
    window_end w0 <= am_windowStartedAt row + MS_PER_HOUR ->
    passed phs + Z.max 0 (ac_maxRelaxedActionsPerHour config - am_relaxedCount row) <= allowance w0 ->
    breaker_inv w phs
| breaker_stale row :
    w_autonomy w = Some row -> am_mode row <> "supervised" ->
    clock (w_sys w0) <= clock (w_sys w) ->
    am_windowStartedAt row < clock (w_sys w0) - MS_PER_HOUR ->
    window_end w0 <= clock (w_sys w0) + MS_PER_HOUR ->
    passed phs + Z.max 0 (ac_maxRelaxedActionsPerHour config) <= allowance w0 ->
    breaker_inv w phs
| breaker_closed :
    (forall row, w_autonomy w = Some row -> am_mode row = "supervised") ->
    passed phs + armed phs <= allowance w0 + Z.of_nat n ->
    breaker_inv w phs.

Definition breaker_bound (w : World) (phs : list RelaxPhase) : Prop :=
  (tally is_live phs <= S n)%nat /\ clock (w_sys w) <= window_end w0.

Lemma passed_middle l1 ph l2 :
  passed (l1 ++ ph :: l2) = (if is_passed ph then 1 else 0) + passed (l1 ++ l2).
Proof. unfold passed. rewrite tally_middle. destruct (is_passed ph); lia. Qed.
Lemma armed_middle l1 ph l2 :
  armed (l1 ++ ph :: l2) = (if is_armed ph then 1 else 0) + armed (l1 ++ l2).
Proof. unfold armed. rewrite tally_middle. destruct (is_armed ph); lia. Qed.

Lemma allowance_nonneg w : 0 <= allowance w.
Proof. unfold allowance. repeat case_match; lia. Qed.

Lemma breaker_start : breaker_inv w0 [].
Proof.
  assert (H0 := allowance_nonneg w0). destruct (w_autonomy w0) as [row|] eqn:Hrow.
  2:{ apply breaker_closed; [by rewrite Hrow|]. unfold passed, armed. cbn. lia. }
  destruct (decide (am_mode row = "supervised")) as [Hm|Hm].
  { apply breaker_closed; [by intros r; rewrite Hrow; intros [= <-]|]. unfold passed, armed. cbn. lia. }
  assert (Hm' := Hm). apply String.eqb_neq in Hm'.
  destruct (Z.ltb_spec (am_windowStartedAt row) (clock (w_sys w0) - MS_PER_HOUR)) as [Hs|Hs];
    [apply (breaker_stale _ _ row)|apply (breaker_open _ _ row)]; try done; unfold window_end, allowance, passed;
    rewrite ?Hrow, ?Hm'; first [rewrite (proj2 (Z.ltb_lt _ _) Hs) | rewrite (proj2 (Z.ltb_ge _ _) Hs)]; cbn; lia.
Qed.

(** A count within the hour adds one; the first one of a new window starts it again. *)
Lemma bump_row_open t row :
  t - MS_PER_HOUR <= am_windowStartedAt row ->
  am_relaxedCount (bump_row t row) = am_relaxedCount row + 1 /\
  am_windowStartedAt (bump_row t row) = am_windowStartedAt row.
Proof. intros H. unfold bump_row. cbn. by rewrite (proj2 (Z.ltb_ge _ _) H). Qed.

Lemma bump_row_stale t row :
  am_windowStartedAt row < t - MS_PER_HOUR ->
  am_relaxedCount (bump_row t row) = 1 /\ am_windowStartedAt (bump_row t row) = t.
Proof. intros H. unfold bump_row. cbn. by rewrite (proj2 (Z.ltb_lt _ _) H). Qed.

(** A count that is not over the limit takes one of the allowance. *)
Lemma breaker_counted w w' l1 l2 ph' :
  ph' = rp_tripping \/ ph' = rp_passed /\
    (forall row, w_autonomy w' = Some row -> am_relaxedCount row <= ac_maxRelaxedActionsPerHour config) ->
  clock (w_sys w) <= window_end w0 -> counted w w' ->
  breaker_inv w (l1 ++ rp_armed :: l2) -> breaker_inv w' (l1 ++ ph' :: l2).
Proof.
  intros Hph Hend [Hclk Hrow'] Hi.
  assert (Hmode : forall t r, am_mode (bump_row t r) = am_mode r) by done.
  destruct Hi as [row Hrow Hm Hc Hwin Hp|row Hrow Hm Hc Hs Hwin Hp|Hm Hp]; rewrite ?passed_middle, ?armed_middle in Hp;
    cbn [is_passed is_armed] in Hp.
  - rewrite Hrow in Hrow'. destruct (bump_row_open (clock (w_sys w)) row ltac:(lia)) as [Hcnt Hst].
    apply (breaker_open _ _ (bump_row (clock (w_sys w)) row)); [done|done|lia|lia|].
    rewrite passed_middle, Hcnt. destruct Hph as [->|[-> Hle]]; cbn [is_passed]; [lia|].
    specialize (Hle _ Hrow'). rewrite Hcnt in Hle. lia.
  - rewrite Hrow in Hrow'. destruct (bump_row_stale (clock (w_sys w)) row ltac:(lia)) as [Hcnt Hst].
    apply (breaker_open _ _ (bump_row (clock (w_sys w)) row)); [done|done|lia|lia|].
    rewrite passed_middle, Hcnt. destruct Hph as [->|[-> Hle]]; cbn [is_passed]; [lia|].
    specialize (Hle _ Hrow'). rewrite Hcnt in Hle. lia.
  - apply breaker_closed.
    + intros row'. rewrite Hrow'. destruct (w_autonomy w) as [row|]; [|done]. intros [= <-]. by rewrite Hmode; apply Hm.
    + rewrite passed_middle, armed_middle. destruct Hph as [->|[-> _]]; cbn [is_passed is_armed]; lia.
Qed.

Lemma breaker_quiet w w' l1 ph ph' l2 :
  quiet w w' -> ph' = ph \/ ph' = rp_over -> breaker_inv w (l1 ++ ph :: l2) -> breaker_inv w' (l1 ++ ph' :: l2).
Proof.
  intros [Hclk Hrow'] Hph Hi.
  assert (Hle : passed (l1 ++ ph' :: l2) <= passed (l1 ++ ph :: l2) /\ armed (l1 ++ ph' :: l2) <= armed (l1 ++ ph :: l2)).
  { rewrite !passed_middle, !armed_middle. destruct Hph as [->| ->]; cbn [is_passed is_armed]; repeat case_match; lia. }
  destruct Hi as [row Hrow|row Hrow|Hm]; rewrite <- ?Hrow' in *; 
    [apply (breaker_open _ _ row)|apply (breaker_stale _ _ row)|apply breaker_closed]; first [done|lia].
Qed.

Lemma breaker_moves (s : unit) w w' l1 ph ph' l2 :
  breaker_bound w (l1 ++ ph :: l2) -> breaker_inv w (l1 ++ ph :: l2) -> relax_moves ph w w' ph' ->
  exists s' : unit, True /\ breaker_inv w' (l1 ++ ph' :: l2).
Proof.
  intros [Hlive Hend] Hi Hm. exists tt. split; [done|].
  destruct Hm as [ph w w' ph' Hq Hph|w w' row [Hclk Hrow'] Hrow Hm|w w' Hc Hle|w w' Hc|w w' Hclk Hsup].
  - by eapply breaker_quiet.
  - assert (Hp : passed (l1 ++ rp_armed :: l2) = passed (l1 ++ rp_fresh :: l2)) by by rewrite !passed_middle.
    destruct Hi as [r Hr|r Hr|Hm'].
    + apply (breaker_open _ _ r); rewrite ?Hrow', ?Hclk, ?Hp; done.
    + apply (breaker_stale _ _ r); rewrite ?Hrow', ?Hclk, ?Hp; done.
    + by rewrite (Hm' row Hrow) in Hm.
  - eapply breaker_counted; eauto.
  - eapply breaker_counted; eauto.
  - apply breaker_closed; [exact Hsup|].
    assert (Hn : armed (l1 ++ l2) <= Z.of_nat n).
    { rewrite tally_middle in Hlive. cbn in Hlive. unfold armed.
      pose proof (tally_le is_armed is_live (l1 ++ l2) ltac:(by intros [])). lia. }
    rewrite passed_middle, armed_middle. cbn [is_passed is_armed].
    destruct Hi as [r _ _ _ _ Hp|r _ _ _ _ _ Hp|_ Hp]; rewrite passed_middle, ?armed_middle in Hp;
      cbn [is_passed is_armed] in Hp; lia.
Qed.

Lemma breaker_env (s : unit) w w' phs :
  time_passes w w' -> breaker_inv w phs -> exists s' : unit, True /\ breaker_inv w' phs.
Proof.
  intros (t & Ht & ->) Hi. exists tt. split; [done|].
  destruct Hi as [row Hrow|row Hrow|Hm];
    [apply (breaker_open _ _ row)|apply (breaker_stale _ _ row)|apply breaker_closed]; cbn; first [done|lia].
Qed.

Lemma breaker_spawn (s : unit) w phs :
  breaker_inv w phs -> exists s' : unit, True /\ breaker_inv w (phs ++ [rp_fresh]).
Proof.
  intros Hi. exists tt. split; [done|].
  assert (Hp : passed (phs ++ [rp_fresh]) = passed phs /\ armed (phs ++ [rp_fresh]) = armed phs).
  { unfold passed, armed. rewrite !tally_app. cbn. lia. }
  destruct Hp as [Hp Ha].
  destruct Hi as [row|row|Hm];
    [apply (breaker_open _ _ row)|apply (breaker_stale _ _ row)|apply breaker_closed]; rewrite ?Hp, ?Ha; done.
Qed.
End Count.

(** A call that still counts is in flight. *)
Lemma live_in_flight phs (pool : list (jin HitlDecision)) :
  Forall2 (fun ph p => keeps_to ph p relax_ended) phs pool -> (tally is_live phs <= in_flight pool)%nat.
Proof.
  unfold in_flight. induction 1 as [|ph p phs pool Hp _ IH]; cbn; [lia|].
  destruct p as [d|e|X f k]; [destruct Hp as [-> _]..|]; cbn; [lia..|]. destruct (is_live ph); lia.
Qed.

Lemma answered_passed phs (pool : list (jin HitlDecision)) :
  Forall2 (fun ph p => keeps_to ph p relax_ended) phs pool ->
  (tally answered_relaxed pool <= tally is_passed phs)%nat.
Proof.
  induction 1 as [|ph p phs pool Hp _ IH]; cbn; [lia|].
  destruct p as [d|e|X f k]; cbn; [|lia..]. destruct (relaxed d) eqn:E; [|lia].
  destruct Hp as [_ Hp]. rewrite (Hp d eq_refl E). cbn. lia.
Qed.
End Breaker.

(** ** Properties *)

Section Properties.
Context `{Laws : AuditApiLaws} `{Crypto : NodeCrypto} (config : AutonomyConfig).

(** C17. The circuit breaker: among any number of calls of [relax], interleaved statement by
    statement with at most [n] others in flight at any moment, whatever statements fail and
    wherever a process dies, while nothing else changes the mode, the calls answered within
    the hour that the row counts are relaxed at most as many times as the limit of that hour
    still allowed, and [n] times more: only calls that read the mode before the breaker put
    it back, and count after it, are relaxed beyond the limit.  Calls one after the other
    ([n] = 0) never pass it. *)
Theorem circuit_breaker_bounds_relaxed_actions (n : nat) (w0 : World)
    (c : Effects.config World JinError HitlDecision) :
  reachable_within time_passes (relaxing config)
    (fun c => (in_flight (c_pool c) <= S n)%nat /\ clock (w_sys (c_store c)) <= window_end w0) w0 c ->
  Z.of_nat (tally answered_relaxed (c_pool c)) <= allowance config w0 + Z.of_nat n.
Proof.
  intros Hr.
  destruct (protocol_within time_passes (relaxing config) (fun _ _ => True) (relax_moves config)
    (fun _ : unit => breaker_inv config n w0) rp_fresh (fun _ _ => True)
    (fun c => (in_flight (c_pool c) <= S n)%nat /\ clock (w_sys (c_store c)) <= window_end w0)
    (breaker_bound n w0) relax_ended) with (s0 := tt) (w0 := w0) (c := c) as (_ & _ & _ & phs & Hi & Hp).
  - intros c' phs [Hf Hc] Hp. split; [|done]. pose proof (live_in_flight config phs _ Hp). lia.
  - done.
  - apply breaker_moves.
  - apply breaker_env.
  - apply breaker_spawn.
  - apply follows_relax.
  - apply breaker_start.
  - split; [cbn; lia|apply window_end_ahead].
  - done.
  - pose proof (answered_passed config phs _ Hp). unfold passed, armed in *.
    destruct Hi as [row _ _ _ _ Hle|row _ _ _ _ _ Hle|_ Hle]; unfold passed, armed in Hle; lia.
Qed.
End Properties.

(** ** Concrete runs *)

Module BreakerExamples.
#[local] Existing Instance toy_crypto.

(** The mode is 'auto' and the limit of the hour is reached. *)
Definition at_the_limit : World := AutonomyExamples.auto_store 9000000 20 0.

(** Two requests to send an email read the mode; the first one counts 21 and trips the
    breaker, which starts the count again; then the second one counts 1. *)
Definition two_emails : list (jin HitlDecision) :=
  map (fun n => Autonomy.relax AutonomyExamples.yaml_config (AutonomyExamples.confirm_decision n) (Some tool_sendEmail))
    [1; 2]%nat.
Definition raced : Effects.config World JinError HitlDecision :=
  interleave [0; 0; 1; 1; 0; 0; 0; 0; 0; 0; 0; 0; 0; 1]%nat at_the_limit two_emails.

Example a_call_is_relaxed_after_the_breaker :
  (am_mode <$> w_autonomy (c_store raced), map answered_relaxed (c_pool raced), in_flight (c_pool raced)) =
  (Some "supervised", [false; true], 0%nat).
Proof. by vm_compute. Qed.

Lemma raced_within :
  reachable_within time_passes (relaxing AutonomyExamples.yaml_config)
    (fun c => (in_flight (c_pool c) <= 2)%nat /\ clock (w_sys (c_store c)) <= window_end at_the_limit) at_the_limit raced.
Proof.
  apply (interleave_within _ _ _ (fun w => clock (w_sys w) <= window_end at_the_limit)).
  - apply window_end_ahead.
  - assert (Hs : forall d tool, steps same_clock (Autonomy.relax AutonomyExamples.yaml_config d tool)).
    { intros d tool. apply steps_bind; [apply steps_bind; [done|intros; apply steps_bind; [by apply steps_db_read|done]]|].
      intros st. cbv zeta. destruct (rr_relaxedBy _); [|done]. apply steps_bind.
      { apply steps_db; [done|]. intros w. by destruct (w_autonomy (tick w)). }
      intros count. destruct (_ <? count); [|done]. apply steps_bind; [apply steps_writeState|done]. }
    apply Forall_map, Forall_forall. intros n _. eapply steps_mono; [|apply Hs]. by intros w w' [-> _].
  - intros w' pool' Hc Hl. split; [|done]. cbn. pose proof (in_flight_length pool'). rewrite Hl in *. done.
  - apply within_spawned; [by repeat constructor|]. intros pool' Hl. split; [|apply window_end_ahead].
    cbn. pose proof (in_flight_length pool'). change (length two_emails) with 2%nat in Hl. etrans; [eassumption|]. exact Hl.
Qed.
End BreakerExamples.

(** The bound is reached: nothing was allowed any more, and one call in flight passes. *)
Lemma circuit_breaker_bounds_relaxed_actions_witness :
  Z.of_nat (tally answered_relaxed (c_pool BreakerExamples.raced)) = 1 /\
  Z.of_nat (tally answered_relaxed (c_pool BreakerExamples.raced)) <=
    allowance AutonomyExamples.yaml_config BreakerExamples.at_the_limit + Z.of_nat 1.
Proof.
  split; [by vm_compute|].
  apply (@circuit_breaker_bounds_relaxed_actions (@auditService toy_crypto) (@auditService_laws toy_crypto)
    toy_crypto AutonomyExamples.yaml_config 1 BreakerExamples.at_the_limit).
  apply BreakerExamples.raced_within.
Defined.
