(* ===== verification/FeatureFlags.v ===== *)
(** * FeatureFlags: overrides of the HITL levels, and the policy that decides them

    [src/feature-flags/feature-flags.service.ts] and
    [src/hitl-policy/hitl-policy.service.ts]. *)
From S2P Require Import Prelude Effects Js Registry Store AuditApi AuditLog Hitl Autonomy.
Local Open Scope stdpp_scope.
Local Open Scope Z_scope.
Local Open Scope jin_scope.

Definition FEATURE_FLAG_HITL_OVERRIDE_TOOL_NAME : string := "featureFlagHitlOverride".
Definition SYSTEM_APPROVER : string := "system:configmap-reload".
Definition OWNER_APPROVER : string := "owner:dual-confirm".

Definition parseHitlLevel (s : string) : option HitlLevel :=
  List.find (fun l => String.eqb (level_name l) s) HITL_LEVELS.

(** The payload the approval stores and the executor receives. *)
Definition override_payload (targetTool : string) (newLevel : HitlLevel) : json :=
  JObj [("targetTool", JStr targetTool); ("newLevel", JStr (level_name newLevel))].

Module FeatureFlags.
Section Service.
Context `{Api : AuditApi} `{Crypto : NodeCrypto}.

Definition isIntegrationEnabled (integration : option IntegrationName) : jin bool :=
  match integration with
  | None => Ret true
  | Some i => reads (fun w => ff_integrations (w_flags w) i)
  end.

(** [modelRouting[taskProfile]?.primary] *)
Definition getModelOverride (taskProfile : string) : jin (option string) :=
  reads (fun w => 
    match ff_modelRouting (w_flags w) !! taskProfile with
    | Some primary => primary
    | None => None
    end).

(** [insert ... onConflictDoUpdate] *)
Definition upsertOverride (toolName level approver : string) : jin unit :=
  db_write (fun w => upd_overrides (insert toolName
    {| ov_level := level; ov_approvedAt := clock (w_sys w); ov_approver := approver |}) w).

Definition reconcileHitlOverride (toolName : string) (declaredLevel : HitlLevel) : jin unit :=
  match getToolDefinition toolName with
  | None => Ret tt
  | Some tool =>
      existing <- db_read (fun w => w_overrides w !! toolName) ;;
      if match existing with
         | Some row => String.eqb (ov_level row) (level_name declaredLevel)
         | None => false
         end
      then Ret tt
      else if (hitlLevelOrdinal (td_hitlLevel tool) <=? hitlLevelOrdinal declaredLevel)%nat
      then upsertOverride toolName (level_name declaredLevel) SYSTEM_APPROVER
      else
        let payload := override_payload toolName declaredLevel in
        requestId <- randomUUID ;;
        DualConfirm.createPendingApproval {|
          cpa_requestId := requestId;
          cpa_toolName := FEATURE_FLAG_HITL_OVERRIDE_TOOL_NAME;
          cpa_level := DualConfirm;
          cpa_inputsHash := computeInputsHash (Some payload);
          cpa_planSummary := Some ("Bajar hitlLevel de " +:+ quoted toolName +:+ " a "
            +:+ quoted (level_name declaredLevel)
            +:+ " vía feature flag (config/feature-flags.yaml).");
          cpa_payload := Some payload;
          cpa_actor := Some "system:feature-flags";
          cpa_externalInputsSummary := None |}
  end.

(** [loaded] is what [loadFeatureFlagsConfig] read from the file. *)
Definition reload (loaded : JinError + FeatureFlagsConfig) : jin unit :=
  match loaded with
  | inl err => Throw err
  | inr nextConfig =>
      for_each (map_to_list (ff_hitlOverrides nextConfig))
        (fun entry => reconcileHitlOverride entry.1 entry.2) ;;;
      writes (upd_flags (fun _ => nextConfig))
  end.

(** The payload is trusted, as the code trusts it: [undefined] fields fail at
    the [NOT NULL] columns. *)
Definition applyApprovedOverride (payload : json) : jin json :=
  match json_field "targetTool" payload, json_field "newLevel" payload with
  | Some (JStr targetTool), Some (JStr newLevel) =>
      upsertOverride targetTool newLevel OWNER_APPROVER ;;;
      Ret (JObj [("ok", JBool true)])
  | _, _ => Throw DbError
  end.

(** The constructor's registration. *)
Definition construct (executors : ToolExecutorRegistry) : JinError + ToolExecutorRegistry :=
  register executors FEATURE_FLAG_HITL_OVERRIDE_TOOL_NAME
    (fun payload _ => applyApprovedOverride payload).

Definition with_level (baseline : HitlDecision) (level : HitlLevel) : HitlDecision := {|
  hd_requestId := hd_requestId baseline;
  hd_toolName := hd_toolName baseline;
  hd_level := level;
  hd_approvalsRequired :=
    match level with DualConfirm => 2 | Confirm => 1 | _ => 0 end;
  hd_notifyAfterExecution := bool_decide (level = Notify);
  hd_relaxedBy := hd_relaxedBy baseline |}.

Definition resolveEffectiveLevel (baseline : HitlDecision) : jin HitlDecision :=
  declared <- reads (fun w => ff_hitlOverrides (w_flags w) !! hd_toolName baseline) ;;
  match declared with
  | None => Ret baseline
  | Some declaredOverride =>
      row <- db_read (fun w => w_overrides w !! hd_toolName baseline) ;;
      match row with
      | None => Ret baseline
      | Some row =>
          if negb (String.eqb (ov_level row) (level_name declaredOverride)) then Ret baseline
          else Ret (with_level baseline declaredOverride)
      end
  end.
End Service.
End FeatureFlags.

(** ** hitl-policy.service.ts *)

Module HitlPolicy.
Section Service.
Context `{Api : AuditApi} `{Crypto : NodeCrypto} (config : AutonomyConfig).

Definition decide (toolName : string) (inputs : json) : jin HitlDecision :=
  staticDecision <- classifyToolCall toolName inputs ;;
  flagged <- FeatureFlags.resolveEffectiveLevel staticDecision ;;
  if negb (bool_decide (hd_level flagged = hd_level staticDecision)) then Ret flagged
  else Autonomy.relax config flagged (getToolDefinition toolName).
End Service.
End HitlPolicy.

(** ** Who wrote the overrides in force *)

Lemma parseHitlLevel_name l : parseHitlLevel (level_name l) = Some l.
Proof. by destruct l. Qed.

Lemma level_name_inj l1 l2 : level_name l1 = level_name l2 -> l1 = l2.
Proof. intros H. pose proof (parseHitlLevel_name l1) as H1. rewrite H, parseHitlLevel_name in H1. by injection H1. Qed.

(** A row below the level of the registry is the owner's. *)
Definition lowered_by_owner (w : World) : Prop :=
  forall toolName row tool l,
    w_overrides w !! toolName = Some row -> getToolDefinition toolName = Some tool ->
    parseHitlLevel (ov_level row) = Some l ->
    (hitlLevelOrdinal l < hitlLevelOrdinal (td_hitlLevel tool))%nat ->
    ov_approver row = OWNER_APPROVER.

Definition keeps_overrides (w w' : World) : Prop := lowered_by_owner w -> lowered_by_owner w'.

Lemma keeps_overrides_frame w w' : w_overrides w' = w_overrides w -> keeps_overrides w w'.
Proof. unfold keeps_overrides, lowered_by_owner. by intros ->. Qed.

(** Writing a row keeps the invariant if the row itself does. *)
Lemma keeps_overrides_insert toolName row w :
  (forall tool l, getToolDefinition toolName = Some tool -> parseHitlLevel (ov_level row) = Some l ->
     (hitlLevelOrdinal l < hitlLevelOrdinal (td_hitlLevel tool))%nat ->
     ov_approver row = OWNER_APPROVER) ->
  keeps_overrides w (upd_overrides (insert toolName row) w).
Proof.
  intros Hrow Hw t r tool l Hr. cbn in Hr. apply lookup_insert_Some in Hr as [[<- <-]|[_ Hr]]; eauto.
Qed.

Section Steps.
Context `{Laws : AuditApiLaws} `{Crypto : NodeCrypto} (config : AutonomyConfig).

Lemma steps_overrides_db {X} (f : World -> World * X) :
  (forall w, keeps_overrides w (f w).1) -> steps keeps_overrides (db f).
Proof.
  intros Hf. apply steps_db; [by intros w; apply keeps_overrides_frame|].
  intros w. intros Hw. apply Hf. by apply (keeps_overrides_frame w (tick w)).
Qed.

Lemma steps_overrides_appends data p : appends data p -> steps keeps_overrides p.
Proof.
  intros [H _ _ _ _]. eapply steps_mono; [|exact H].
  intros w w' [[= _ _ _ _ _ Ho _ _ _ _ _ _ _] _]. by apply keeps_overrides_frame.
Qed.

Lemma steps_overrides_create input : steps keeps_overrides (DualConfirm.createPendingApproval input).
Proof.
  apply steps_bind.
  { apply steps_bind; [|by intros []]. apply steps_overrides_db. intros w. case_match; by apply keeps_overrides_frame. }
  intros _. apply steps_bind; [eapply steps_overrides_appends, audit_toolCall_appends|].
  intros _. split; [|done]. intros w. by apply keeps_overrides_frame.
Qed.

Lemma steps_overrides_upsert toolName level approver :
  (forall tool l, getToolDefinition toolName = Some tool -> parseHitlLevel level = Some l ->
     (hitlLevelOrdinal l < hitlLevelOrdinal (td_hitlLevel tool))%nat -> approver = OWNER_APPROVER) ->
  steps keeps_overrides (FeatureFlags.upsertOverride toolName level approver).
Proof. intros H. apply steps_overrides_db. intros w. by apply keeps_overrides_insert. Qed.

Lemma steps_overrides_reconcile toolName declared :
  steps keeps_overrides (FeatureFlags.reconcileHitlOverride toolName declared).
Proof.
  unfold FeatureFlags.reconcileHitlOverride. destruct (getToolDefinition toolName) as [tool|] eqn:Et; [|done].
  apply steps_bind; [apply steps_overrides_db; intros w; by apply keeps_overrides_frame|]. intros existing. case_match; [done|].
  destruct (Nat.leb_spec (hitlLevelOrdinal (td_hitlLevel tool)) (hitlLevelOrdinal declared)).
  - apply steps_overrides_upsert. rewrite Et, parseHitlLevel_name. intros t l [= <-] [= <-]. lia.
  - apply steps_bind; [|intros rid; apply steps_overrides_create].
    split; [|done]. intros w. by apply keeps_overrides_frame.
Qed.

Lemma steps_overrides_reload loaded : steps keeps_overrides (FeatureFlags.reload loaded).
Proof.
  destruct loaded as [e|next]; [done|]. apply steps_bind.
  - apply steps_for_each. intros entry. apply steps_overrides_reconcile.
  - intros _. split; [|done]. intros w. by apply keeps_overrides_frame.
Qed.

Lemma steps_overrides_apply payload :
  steps keeps_overrides (FeatureFlags.applyApprovedOverride payload).
Proof.
  unfold FeatureFlags.applyApprovedOverride. repeat case_match; try done.
  apply steps_bind; [|done]. by apply steps_overrides_upsert.
Qed.

Definition same_overrides (w w' : World) : Prop := w_overrides w' = w_overrides w.

#[export] Instance same_overrides_preorder : PreOrder same_overrides.
Proof. split; [done|]. intros w1 w2 w3 H1 H2. unfold same_overrides in *. congruence. Qed.

Lemma steps_overrides_same input : steps same_overrides (DualConfirm.createPendingApproval input).
Proof.
  apply steps_bind.
  { apply steps_bind; [|by intros []]. apply steps_db; [done|]. intros w. by case_match. }
  intros _. apply steps_bind; [|done].
  match goal with |- steps _ (audit_toolCall ?r ?a ?t ?h ?p ?s ?e) =>
    destruct (audit_toolCall_appends r a t h p s e) as [H _ _ _ _] end.
  eapply steps_mono; [|exact H]. by intros w w' [[= _ _ _ _ _ Ho _ _ _ _ _ _ _] _].
Qed.

(** The requests that may touch the overrides. *)
Inductive flags_client : jin unit -> Prop :=
| client_reload loaded : flags_client (FeatureFlags.reload loaded)
| client_apply payload : flags_client (discard (FeatureFlags.applyApprovedOverride payload))
| client_request input : flags_client (DualConfirm.createPendingApproval input).

(** [relax] answers the decision it got or the relaxed one. *)
Lemma run_relax_cases d tool w w' d' :
  run (Autonomy.relax config d tool) w = (w', inr d') ->
  let mode := as_mode (effective_state (w_autonomy w) (clock (w_sys w))) in
  d' = d \/ rr_relaxedBy (relaxDecision d mode tool) <> None /\
            d' = rr_decision (relaxDecision d mode tool).
Proof.
  unfold Autonomy.relax, Autonomy.getState, Autonomy.getState_at, db_read. cbv zeta.
  rewrite run_bind, run_bind, run_now, run_bind, run_db. destruct (faulty w); [done|]. cbn [run].
  change (w_autonomy (tick w)) with (w_autonomy w).
  set (res := relaxDecision d _ tool). destruct (rr_relaxedBy res); [|intros [= _ <-]; by left].
  rewrite run_bind. destruct (run Autonomy.bumpRelaxedCounter (tick w)) as [w1 [e|count]]; [done|].
  destruct (_ <? count).
  - rewrite run_bind. destruct (run (Autonomy.applyRestrictiveChange _ _ _ _) w1) as [w2 [e|iso]]; [done|].
    intros [= _ <-]. by left.
  - intros [= _ <-]. by right.
Qed.
End Steps.

(** An unexpired relaxed mode turned [tool] from 'confirm' into [d]. *)
Definition covered_by_mode (tool : ToolDefinition) (d : HitlDecision) (w : World) : Prop :=
  exists row mode expiresAt,
    w_autonomy w = Some row /\ am_mode row = mode_name mode /\ mode <> Supervised /\
    am_expiresAt row = Some expiresAt /\ clock (w_sys w) < expiresAt /\
    td_hitlLevel tool = Confirm /\ hd_level d = Notify /\
    td_humanDecision tool <> Some true /\
    (mode = SemiAuto -> td_guardedInSemiAuto tool <> Some true) /\
    hd_relaxedBy d = Some ("autonomy:" +:+ mode_name mode).

(** ** Properties *)

Section Properties.
Context `{Laws : AuditApiLaws} `{Crypto : NodeCrypto} (cfg : AutonomyConfig).

(** C7. However reloads of the flags, requests for approval and approved
    overrides interleave and fail, an override below the level of the registry
    is always one an approval wrote ([owner:dual-confirm]): a reload alone never
    lowers a level. *)
Theorem only_approvals_lower_a_level (w0 : World) (c : config World JinError unit) :
  lowered_by_owner w0 -> reachable time_passes flags_client w0 c -> lowered_by_owner (c_store c).
Proof.
  intros H0 Hr. apply (pool_invariant time_passes flags_client lowered_by_owner w0 c); [|..|done|done].
  - intros p [loaded|payload|input].
    + apply steps_overrides_reload.
    + apply steps_bind; [apply steps_overrides_apply|done].
    + apply steps_overrides_create.
  - by intros w w' (t & _ & ->).
Qed.

Lemma relax_of_static d0 tool w w' d :
  hd_level d0 = td_hitlLevel tool ->
  run (Autonomy.relax cfg d0 (Some tool)) w = (w', inr d) ->
  hd_toolName d = hd_toolName d0 /\ (hd_level d = td_hitlLevel tool \/ covered_by_mode tool d w).
Proof.
  intros Hl [->|[Hrel ->]]%run_relax_cases; [by split; [|left]|].
  set (st := effective_state _ _) in *.
  split; [unfold relaxDecision; by repeat case_match|]. right.
  pose proof Hrel as (Hm & Hc & Hh & Hg & Hn)%relaxDecision_relaxes.
  apply effective_state_relaxed in Hm as Hrow. fold st in Hrow.
  destruct Hrow as (row & e & Hrow & He & Ht & Hname & _).
  exists row, (as_mode st), e. rewrite Hl in Hc. splits; try done.
  - by apply parseAutonomyMode_inv.
  - intros Hd. cbn in Hh. by rewrite Hd in Hh.
  - intros Hs Hd. specialize (Hg Hs). cbn in Hg. by rewrite Hd in Hg.
  - revert Hrel. unfold relaxDecision. by repeat case_match.
Qed.

(** C6. The level decided for a call is below the level of the registry only if
    the owner approved that level for that tool, or if the tool is 'confirm', is
    not a human decision, and an unexpired relaxed mode covers it (it then
    becomes 'notify' and says which mode relaxed it); a tool outside the
    registry is refused. *)
Theorem a_decision_is_lowered_only_with_cause (toolName : string) (inputs : json)
    (w w' : World) (d : HitlDecision) :
  lowered_by_owner w ->
  run (HitlPolicy.decide cfg toolName inputs) w = (w', inr d) ->
  exists tool, getToolDefinition toolName = Some tool /\ hd_toolName d = toolName /\
    ((hitlLevelOrdinal (td_hitlLevel tool) <= hitlLevelOrdinal (hd_level d))%nat \/
     (exists row, w_overrides w !! toolName = Some row /\ ov_level row = level_name (hd_level d) /\
        ov_approver row = OWNER_APPROVER) \/
     covered_by_mode tool d w).
Proof.
  intros Hinv. unfold HitlPolicy.decide, classifyToolCall. rewrite run_bind.
  destruct (getToolDefinition toolName) as [tool|] eqn:Et; [|done]. intros Hrun. exists tool.
  split; [done|]. revert Hrun. rewrite run_bind. unfold randomUUID. cbn [run].
  set (d0 := {| hd_requestId := _ |}). set (w1 := upd_sys _ w).
  assert (Hname : hd_toolName d0 = toolName) by (by apply getToolDefinition_spec in Et as [_ ?]).
  assert (Hrelax : forall w2, w_autonomy w2 = w_autonomy w -> clock (w_sys w2) = clock (w_sys w) ->
    run (Autonomy.relax cfg d0 (Some tool)) w2 = (w', inr d) ->
    hd_toolName d = toolName /\ (hd_level d = td_hitlLevel tool \/ covered_by_mode tool d w)).
  { intros w2 Ha Hc Hr. apply relax_of_static in Hr; [|done]. rewrite <- Hname.
    unfold covered_by_mode in *. by rewrite Ha, Hc in Hr. }
  assert (Hdone : hd_toolName d = toolName /\ (hd_level d = td_hitlLevel tool \/ covered_by_mode tool d w) ->
    hd_toolName d = toolName /\
    ((hitlLevelOrdinal (td_hitlLevel tool) <= hitlLevelOrdinal (hd_level d))%nat \/
     (exists row, w_overrides w !! toolName = Some row /\ ov_level row = level_name (hd_level d) /\
        ov_approver row = OWNER_APPROVER) \/ covered_by_mode tool d w)).
  { intros [H1 [H2|H2]]; (split; [done|]); [left; by rewrite H2|by right; right]. }
  rewrite run_bind. unfold FeatureFlags.resolveEffectiveLevel. rewrite Hname, run_bind, run_reads.
  destruct (ff_hitlOverrides (w_flags w1) !! toolName) as [declared|]; cbn [run].
  2: { rewrite bool_decide_true by done. cbn [negb]. intros Hr. exact (Hdone (Hrelax w1 eq_refl eq_refl Hr)). }
  unfold db_read. rewrite run_bind, run_db. destruct (faulty w1); [done|].
  change (w_overrides (tick w1)) with (w_overrides w).
  destruct (w_overrides w !! toolName) as [row|] eqn:Erow.
  2: { cbn [run]. rewrite bool_decide_true by done. cbn [negb]. intros Hr. exact (Hdone (Hrelax (tick w1) eq_refl eq_refl Hr)). }
  destruct (String.eqb_spec (ov_level row) (level_name declared)) as [Hlvl|]; cbn [negb run].
  2: { rewrite bool_decide_true by done. cbn [negb]. intros Hr. exact (Hdone (Hrelax (tick w1) eq_refl eq_refl Hr)). }
  destruct (bool_decide_reflect (hd_level (FeatureFlags.with_level d0 declared) = hd_level d0)) as [Heq|Hne];
    cbn [negb].
  - intros Hr. apply relax_of_static in Hr as [Hn Hc]; [|exact Heq]. apply Hdone.
    split; [by rewrite Hn|]. unfold covered_by_mode in *. exact Hc.
  - intros [= _ <-]. split; [done|]. cbn.
    destruct (Nat.le_gt_cases (hitlLevelOrdinal (td_hitlLevel tool)) (hitlLevelOrdinal declared)) as [|Hlt];
      [by left|right; left]. exists row. splits; try done.
    apply (Hinv toolName row tool declared); [done|done| |done].
    rewrite Hlvl. apply parseHitlLevel_name.
Qed.

(** Reconciling a declared level that is not in force: raising (or keeping)
    the level of the registry is written at once by the system; lowering it
    writes no override and leaves a 'dual-confirm' approval whose payload is the
    tool and the level. *)
Lemma reconcile_raises_now_and_asks_to_lower (toolName : string) (declared : HitlLevel)
    (tool : ToolDefinition) (w : World) :
  healthy w -> chain_locked w = false -> getToolDefinition toolName = Some tool ->
  (forall row, w_overrides w !! toolName = Some row -> ov_level row <> level_name declared) ->
  let rid := uuid_string (uuids (w_sys w)) in
  w_pending w !! rid = None ->
  let r := run (FeatureFlags.reconcileHitlOverride toolName declared) w in
  r.2 = inr tt /\
  if (hitlLevelOrdinal (td_hitlLevel tool) <=? hitlLevelOrdinal declared)%nat then
    w_overrides r.1 = <[toolName := {| ov_level := level_name declared;
      ov_approvedAt := clock (w_sys w); ov_approver := SYSTEM_APPROVER |}]> (w_overrides w) /\
    w_pending r.1 = w_pending w
  else
    w_overrides r.1 = w_overrides w /\
    exists row, w_pending r.1 = <[rid := row]> (w_pending w) /\
      pa_level row = "dual-confirm" /\ pa_toolName row = FEATURE_FLAG_HITL_OVERRIDE_TOOL_NAME /\
      pa_payload row = override_payload toolName declared.
Proof.
  intros Hw Hl Ht Hne rid Hn. unfold FeatureFlags.reconcileHitlOverride. cbv zeta. rewrite Ht.
  rewrite !run_bind. unfold db_read. rewrite run_db_ok by done. cbn [run].
  change (w_overrides (tick w)) with (w_overrides w).
  assert ((match w_overrides w !! toolName with
           | Some row => String.eqb (ov_level row) (level_name declared) | None => false end) = false) as ->.
  { destruct (w_overrides w !! toolName) as [row|] eqn:E; [|done].
    apply String.eqb_neq. by apply Hne. }
  destruct (_ <=? _)%nat.
  - unfold FeatureFlags.upsertOverride, db_write. rewrite run_db_ok by done. by splits.
  - rewrite run_bind. unfold randomUUID. cbn [run]. set (w1 := upd_sys _ (tick w)).
    match goal with |- context [DualConfirm.createPendingApproval ?i] => set (input := i) end.
    pose proof (createPendingApproval_leaves_a_trace input w1 Hw Hn) as (Hp & _ & Hrest).
    change (chain_locked w1) with (chain_locked w) in Hrest. rewrite Hl in Hrest.
    destruct Hrest as (Hres & _). split; [exact Hres|].
    pose proof (steps_run same_overrides _ w1 (steps_overrides_same input)) as Ho.
    split; [exact Ho|]. eexists. split; [exact Hp|]. by splits.
Qed.
End Properties.

(** ** Concrete runs *)

Lemma lowered_by_owner_empty w : w_overrides w = ∅ -> lowered_by_owner w.
Proof. intros H t row tool l Hrow. by rewrite H, lookup_empty in Hrow. Qed.

Lemma only_approvals_lower_a_level_witness :
  lowered_by_owner (c_store (Config (empty_world 0) [@FeatureFlags.reload (@auditService toy_crypto)
    toy_crypto (inl DbError)])).
Proof.
  apply (@only_approvals_lower_a_level (@auditService toy_crypto) (@auditService_laws toy_crypto)
    toy_crypto (empty_world 0)).
  - by apply lowered_by_owner_empty.
  - eapply reach_step; [apply reach_init|]. apply (step_spawn _ _ _ []). constructor.
Defined.

(** In 'auto', an email goes out with a notice instead of a confirmation. *)
Lemma a_decision_is_lowered_only_with_cause_witness :
  let r := run (@HitlPolicy.decide (@auditService toy_crypto) toy_crypto AutonomyExamples.yaml_config
    "sendEmail" JNull) (AutonomyExamples.auto_store 9000 0 5) in
  exists d, r.2 = inr d /\ hd_level d = Notify /\ hd_toolName d = "sendEmail".
Proof.
  destruct (run (@HitlPolicy.decide (@auditService toy_crypto) toy_crypto AutonomyExamples.yaml_config
    "sendEmail" JNull) (AutonomyExamples.auto_store 9000 0 5)) as [w' r] eqn:E.
  assert (Hr : r = inr {| hd_requestId := uuid_string 0; hd_toolName := "sendEmail"; hd_level := Notify;
    hd_approvalsRequired := 0; hd_notifyAfterExecution := true;
    hd_relaxedBy := Some "autonomy:auto" |}).
  { apply (f_equal snd) in E. cbn [snd] in E. rewrite <- E. vm_compute. reflexivity. }
  rewrite Hr in E |- *.
  destruct (@a_decision_is_lowered_only_with_cause (@auditService toy_crypto)
    toy_crypto AutonomyExamples.yaml_config "sendEmail" JNull (AutonomyExamples.auto_store 9000 0 5) w' _
    (lowered_by_owner_empty (AutonomyExamples.auto_store 9000 0 5) eq_refl) E) as (tool & _ & Hn & _).
  eexists. split; [reflexivity|]. split; [reflexivity|exact Hn].
Defined.

Lemma reconcile_raises_now_and_asks_to_lower_witness :
  (run (@FeatureFlags.reconcileHitlOverride (@auditService toy_crypto) toy_crypto "sendEmail" Auto)
     (empty_world 5)).2 = inr tt.
Proof.
  destruct (getToolDefinition "sendEmail") as [tool|] eqn:Et; [|discriminate].
  exact (proj1 (@reconcile_raises_now_and_asks_to_lower (@auditService toy_crypto)
    (@auditService_laws toy_crypto) toy_crypto "sendEmail" Auto tool (empty_world 5)
    ltac:(done) ltac:(done) Et ltac:(intros row Hrow; change (w_overrides _) with (∅ : gmap string FeatureFlagHitlOverrideRow) in Hrow;
      by rewrite lookup_empty in Hrow) (lookup_empty _))).
Defined.
