(* ===== verification/Models.v ===== *)
(** * Models: choosing a model, falling back, streaming

    [src/model-provider/model-provider.types.ts], [router.logic.ts],
    [router.service.ts], [failover.service.ts], [sampling.ts] and
    [chat-model-preference.service.ts].  The clients of the three vendors are
    arguments of the model. *)
From S2P Require Import Prelude Effects Js Registry Store AuditApi AuditLog Hitl Autonomy FeatureFlags.
From Stdlib Require Import QArith Qcanon.
Local Open Scope stdpp_scope.
Local Open Scope Z_scope.
Local Open Scope jin_scope.

(** ** model-provider.types.ts *)

Record ModelProfileConfig := {
  mpc_description : string;
  mpc_primary : string;
  mpc_fallback : string;
  mpc_maxTokensInput : Z;
  mpc_maxTokensOutput : Z;
  mpc_temperature : Qc
}.

(** [Readonly<Record<TaskProfile, ModelProfileConfig>>] *)
Definition ModelsConfig : Type := gmap string ModelProfileConfig.

Inductive Vendor := anthropic | google | openai.

#[export] Instance Vendor_eq_dec : EqDecision Vendor.
Proof. solve_decision. Defined.

Definition vendor_name (v : Vendor) : string :=
  match v with anthropic => "anthropic" | google => "google" | openai => "openai" end.

Record ChatModelOption := {
  cmo_vendor : Vendor;
  cmo_modelId : string;
  cmo_label : string;
  cmo_supportsEffort : bool
}.

Record ModelPrice := { mp_inputPerMillion : Qc; mp_outputPerMillion : Qc }.
Definition ModelPrices : Type := gmap string ModelPrice.

Inductive LatencyRequirement := low_latency | normal_latency.

#[export] Instance LatencyRequirement_eq_dec : EqDecision LatencyRequirement.
Proof. solve_decision. Defined.

Record SelectModelHints := {
  smh_estimatedInputTokens : option Z;
  smh_latencyRequirement : option LatencyRequirement;
  smh_budgetRemaining : option Qc
}.

Definition no_hints : SelectModelHints := {|
  smh_estimatedInputTokens := None; smh_latencyRequirement := None; smh_budgetRemaining := None |}.

Inductive Tier := primary | fallback.

Record SelectedModel := { sm_modelId : string; sm_tier : Tier }.

Record ModelToolDeclaration := {
  mtd_name : string;
  mtd_description : string;
  mtd_inputSchema : json
}.

Record ModelToolCall := { mtc_id : string; mtc_name : string; mtc_input : json }.

Inductive ModelMessageContentBlock :=
| block_text (text : string)
| block_tool_use (toolCall : ModelToolCall)
| block_tool_result (toolCallId : string) (output : json) (isError : option bool).

Inductive Role := user | assistant.

Inductive ModelMessageContent :=
| content_string (text : string)
| content_blocks (blocks : list ModelMessageContentBlock).

Record ModelMessage := { mm_role : Role; mm_content : ModelMessageContent }.

Record ModelCompletionRequest := {
  mcr_systemPrompt : option string;
  mcr_messages : list ModelMessage;
  mcr_maxOutputTokens : Z;
  mcr_temperature : Qc;
  mcr_tools : option (list ModelToolDeclaration);
  mcr_effort : option string
}.

Inductive ModelStopReason := end_turn | tool_use | max_tokens | refusal.

#[export] Instance ModelStopReason_eq_dec : EqDecision ModelStopReason.
Proof. solve_decision. Defined.

Record ModelCompletionResponse := {
  mcs_content : string;
  mcs_modelId : string;
  mcs_inputTokens : Z;
  mcs_outputTokens : Z;
  mcs_toolCalls : list ModelToolCall;
  mcs_stopReason : ModelStopReason
}.

(** [(delta, snapshot) => void] *)
Definition ModelStreamDeltaListener : Type := string -> string -> jin unit.

Record ModelProviderClient := {
  pc_complete : string -> ModelCompletionRequest -> jin ModelCompletionResponse;
  pc_completeStream :
    option (string -> ModelCompletionRequest -> ModelStreamDeltaListener -> jin ModelCompletionResponse)
}.

(** ** router.logic.ts *)

Definition LOW_BUDGET_REMAINING_THRESHOLD : Qc := Q2Qc (2 # 10).

Definition qc_lt (a b : Qc) : bool := negb (Qle_bool b a).

Definition selectModel (profiles : ModelsConfig) (taskProfile : string) (hints : SelectModelHints) :
    JinError + SelectedModel :=
  match (profiles !! taskProfile : option ModelProfileConfig) with
  | None => inl (UnknownTaskProfileError taskProfile)
  | Some profile =>
      let tier := primary in
      let tier :=
        match smh_estimatedInputTokens hints with
        | Some n => if mpc_maxTokensInput profile <? n then fallback else tier
        | None => tier
        end in
      let tier := if decide (smh_latencyRequirement hints = Some low_latency) then fallback else tier in
      let tier :=
        match smh_budgetRemaining hints with
        | Some b => if qc_lt b LOW_BUDGET_REMAINING_THRESHOLD then fallback else tier
        | None => tier
        end in
      inr {| sm_modelId := match tier with primary => mpc_primary profile
                                         | fallback => mpc_fallback profile end;
             sm_tier := tier |}
  end.

(** ** failover.service.ts *)

Record FailoverContext := {
  fc_taskProfile : string;
  fc_primaryModelId : string;
  fc_fallbackModelId : string
}.

Definition RETRY_BACKOFF_MS : Z := 1000.

(** [setTimeout]: the clock moves on. *)
Definition sleep (ms : Z) : jin unit := writes (fun w => advance (clock (w_sys w) + ms) w).

(** [let x = b], a variable that closures share. *)
Definition new_ref (b : bool) : jin nat :=
  Act (fun w => (upd_mem (upd_refs (fun l => l ++ [b])) w, length (m_refs (w_mem w)))) Ret.
Definition set_ref (r : nat) (b : bool) : jin unit :=
  writes (upd_mem (upd_refs (insert r b))).
Definition get_ref (r : nat) : jin bool := reads (fun w => default false (m_refs (w_mem w) !! r)).

Module Failover.
Definition retryOnce {T} (fn : jin T) : jin T :=
  catch fn (fun _ => sleep RETRY_BACKOFF_MS ;;; fn).

Definition executeWithFailover {T} (context : FailoverContext) (callPrimary callFallback : jin T) :
    jin T :=
  catch (retryOnce callPrimary)
    (fun primaryError =>
       catch callFallback
         (fun fallbackError =>
            Throw (AllProvidersFailedError (fc_taskProfile context) (fc_primaryModelId context)
                     (fc_fallbackModelId context) fallbackError))).

Definition retryOnceStream {T} (fn : ModelStreamDeltaListener -> jin T)
    (onDelta : ModelStreamDeltaListener) (hasEmitted : jin bool) : jin T :=
  catch (fn onDelta)
    (fun err =>
       emitted <- hasEmitted ;;
       if emitted : bool then Throw err
       else sleep RETRY_BACKOFF_MS ;;; fn onDelta).

Definition executeWithFailoverStream {T} (context : FailoverContext)
    (callPrimary callFallback : ModelStreamDeltaListener -> jin T)
    (onDelta : ModelStreamDeltaListener) : jin T :=
  emittedAny <- new_ref false ;;
  let guardedOnDelta : ModelStreamDeltaListener := fun delta snapshot =>
    set_ref emittedAny true ;;; onDelta delta snapshot in
  catch (retryOnceStream callPrimary guardedOnDelta (get_ref emittedAny))
    (fun primaryError =>
       emitted <- get_ref emittedAny ;;
       if emitted : bool then
         Throw (StreamAlreadyPartiallyEmittedError (fc_taskProfile context)
                  (fc_primaryModelId context) primaryError)
       else
         catch (callFallback guardedOnDelta)
           (fun fallbackError =>
              emitted <- get_ref emittedAny ;;
              if emitted : bool then
                Throw (StreamAlreadyPartiallyEmittedError (fc_taskProfile context)
                         (fc_fallbackModelId context) fallbackError)
              else
                Throw (AllProvidersFailedError (fc_taskProfile context) (fc_primaryModelId context)
                         (fc_fallbackModelId context) fallbackError))).
End Failover.

(** ** sampling.ts *)

Definition NO_SAMPLING_PREFIXES : list string :=
  ["claude-fable-5"; "claude-mythos-5"; "claude-opus-5"; "claude-opus-4-8"; "claude-opus-4-7";
   "claude-sonnet-5"].

Definition ALWAYS_ON_THINKING_PREFIXES : list string := ["claude-opus-5-5"; "claude-sonnet-5-5"].

(** [s.startsWith(prefix)] *)
Definition startsWith (s prefix : string) : bool := String.prefix prefix s.

Definition anthropicModelAcceptsSampling (modelId : string) : bool :=
  negb (existsb (startsWith modelId) NO_SAMPLING_PREFIXES).

Definition ALWAYS_ON_THINKING_MIN_MAX_TOKENS : Z := 16000.

Definition hasThinkingAlwaysOn (modelId : string) : bool :=
  existsb (startsWith modelId) ALWAYS_ON_THINKING_PREFIXES.

Definition anthropicMaxTokens (modelId : string) (requested : Z) : Z :=
  if hasThinkingAlwaysOn modelId then Z.max requested ALWAYS_ON_THINKING_MIN_MAX_TOKENS else requested.

Inductive ModelEffort := effort_low | effort_medium | effort_high.

#[export] Instance ModelEffort_eq_dec : EqDecision ModelEffort.
Proof. solve_decision. Defined.

Inductive ThinkingParams :=
| no_thinking_params
| thinking_disabled
| thinking_adaptive (effort : ModelEffort)
| thinking_enabled (budget_tokens : Z).

Definition anthropicThinkingParams (modelId : string) (effort : option ModelEffort)
    (maxOutputTokens : Z) : ThinkingParams :=
  match effort with
  | None => no_thinking_params
  | Some effort =>
      if negb (anthropicModelAcceptsSampling modelId) then
        if bool_decide (effort = effort_low) && negb (hasThinkingAlwaysOn modelId)
        then thinking_disabled
        else thinking_adaptive effort
      else if decide (effort = effort_low) then no_thinking_params
      else
        let desiredBudget := if decide (effort = effort_high) then 8192 else 2048 in
        let budgetTokens := Z.min desiredBudget (maxOutputTokens - 512) in
        if budgetTokens <? 1024 then no_thinking_params else thinking_enabled budgetTokens
  end.

(** ** chat-model-preference.service.ts *)

Module ChatPreference.
Section Service.
Context (catalog : list ChatModelOption).

Definition set_cached (p : option ChatModelPreference) : jin unit :=
  writes (upd_mem (upd_cachedPreference (fun _ => p))).

Definition is_empty (o : option string) : bool :=
  match o with Some s => negb (truthy s) | None => true end.

Definition readFromDb : jin (option ChatModelPreference) :=
  row <- db_read w_chatPreference ;;
  Ret (match row with
       | None => None
       | Some row =>
           match cp_vendor row, cp_modelId row with
           | Some vendor, Some modelId =>
               if truthy vendor && truthy modelId then
                 Some {| cmp_vendor := vendor; cmp_modelId := modelId; cmp_effort := cp_effort row;
                         cmp_setBy := cp_setBy row; cmp_changedAt := to_iso_string (cp_changedAt row) |}
               else None
           | _, _ => None
           end
       end).

Definition refresh : jin unit := p <- readFromDb ;; set_cached p.

Definition listCatalog : list ChatModelOption := catalog.

Definition getPreference : jin (option ChatModelPreference) :=
  reads (fun w => m_chatPreference (w_mem w)).

Definition updateRow (vendor modelId effort : option string) (setBy : string) (changedAt : Z) : jin unit :=
  db_write (upd_chatPreference (option_map (fun _ =>
    {| cp_vendor := vendor; cp_modelId := modelId; cp_effort := effort; cp_setBy := setBy;
       cp_changedAt := changedAt |}))).

Definition setPreference (vendor modelId : string) (effort : option string) (setBy : string) :
    jin ChatModelPreference :=
  match List.find (fun candidate => String.eqb (vendor_name (cmo_vendor candidate)) vendor &&
                                    String.eqb (cmo_modelId candidate) modelId) catalog with
  | None => Throw (InvalidChatModelOptionError vendor modelId)
  | Some option =>
      let effort := if cmo_supportsEffort option then effort else None in
      changedAt <- now ;;
      updateRow (Some (vendor_name (cmo_vendor option))) (Some (cmo_modelId option)) effort setBy
        changedAt ;;;
      let cached := {| cmp_vendor := vendor_name (cmo_vendor option);
                       cmp_modelId := cmo_modelId option; cmp_effort := effort;
                       cmp_setBy := setBy; cmp_changedAt := to_iso_string changedAt |} in
      set_cached (Some cached) ;;;
      Ret cached
  end.

Definition clearPreference (setBy : string) : jin unit :=
  changedAt <- now ;;
  updateRow None None None setBy changedAt ;;;
  set_cached None.
End Service.
End ChatPreference.

(** ** router.service.ts *)

Module Router.
Section Service.
Context (profiles : ModelsConfig) (providers : Vendor -> ModelProviderClient).

Definition providerFor (modelId : string) : JinError + ModelProviderClient :=
  if startsWith modelId "claude-" then inr (providers anthropic)
  else if startsWith modelId "gemini-" then inr (providers google)
  else if startsWith modelId "gpt-" then inr (providers openai)
  else inl (UnknownModelVendorError modelId).

Definition withEffort (request : ModelCompletionRequest) (effort : option string) :
    ModelCompletionRequest :=
  match effort with
  | None => request
  | Some _ => {| mcr_systemPrompt := mcr_systemPrompt request; mcr_messages := mcr_messages request;
                 mcr_maxOutputTokens := mcr_maxOutputTokens request;
                 mcr_temperature := mcr_temperature request; mcr_tools := mcr_tools request;
                 mcr_effort := effort |}
  end.

(** [{ ...profiles[taskProfile], primary: modelOverride }]: the parsed
    configuration has a profile for each [TaskProfile]. *)
Definition with_primary (modelOverride : string) (p : ModelProfileConfig) : ModelProfileConfig := {|
  mpc_description := mpc_description p; mpc_primary := modelOverride;
  mpc_fallback := mpc_fallback p; mpc_maxTokensInput := mpc_maxTokensInput p;
  mpc_maxTokensOutput := mpc_maxTokensOutput p; mpc_temperature := mpc_temperature p |}.

Definition resolveCandidates (taskProfile : string) (hints : SelectModelHints) :
    jin (SelectedModel * string * option string) :=
  chatPreference <- (if String.eqb taskProfile "chat_conversational"
                     then ChatPreference.getPreference else Ret None) ;;
  modelOverride <- match chatPreference with
                   | Some p => Ret (Some (cmp_modelId p))
                   | None => FeatureFlags.getModelOverride taskProfile
                   end ;;
  let effectiveProfiles :=
    match modelOverride with
    | Some m => if truthy m then alter (with_primary m) taskProfile profiles else profiles
    | None => profiles
    end in
  match selectModel effectiveProfiles taskProfile hints,
        (effectiveProfiles !! taskProfile : option ModelProfileConfig) with
  | inr selected, Some profile =>
      Ret (selected,
           if String.eqb (sm_modelId selected) (mpc_primary profile)
           then mpc_fallback profile else mpc_primary profile,
           chatPreference ≫= cmp_effort)
  | inl e, _ => Throw e
  | _, None => Throw (UnknownTaskProfileError taskProfile)
  end.

Definition lift {T} (r : JinError + T) : jin T :=
  match r with inl e => Throw e | inr x => Ret x end.

Definition completeOrStream (modelId : string) (request : ModelCompletionRequest)
    (onDelta : ModelStreamDeltaListener) : jin ModelCompletionResponse :=
  provider <- lift (providerFor modelId) ;;
  match pc_completeStream provider with
  | Some stream => stream modelId request onDelta
  | None =>
      response <- pc_complete provider modelId request ;;
      onDelta (mcs_content response) (mcs_content response) ;;;
      Ret response
  end.

Definition complete (taskProfile : string) (request : ModelCompletionRequest)
    (hints : SelectModelHints) : jin ModelCompletionResponse :=
  candidates <- resolveCandidates taskProfile hints ;;
  let '(selected, secondaryModelId, effort) := candidates in
  let effectiveRequest := withEffort request effort in
  Failover.executeWithFailover
    {| fc_taskProfile := taskProfile; fc_primaryModelId := sm_modelId selected;
       fc_fallbackModelId := secondaryModelId |}
    (provider <- lift (providerFor (sm_modelId selected)) ;;
     pc_complete provider (sm_modelId selected) effectiveRequest)
    (provider <- lift (providerFor secondaryModelId) ;;
     pc_complete provider secondaryModelId effectiveRequest).

Definition completeStream (taskProfile : string) (request : ModelCompletionRequest)
    (onDelta : ModelStreamDeltaListener) (hints : SelectModelHints) : jin ModelCompletionResponse :=
  candidates <- resolveCandidates taskProfile hints ;;
  let '(selected, secondaryModelId, effort) := candidates in
  let effectiveRequest := withEffort request effort in
  Failover.executeWithFailoverStream
    {| fc_taskProfile := taskProfile; fc_primaryModelId := sm_modelId selected;
       fc_fallbackModelId := secondaryModelId |}
    (fun onDeltaFn => completeOrStream (sm_modelId selected) effectiveRequest onDeltaFn)
    (fun onDeltaFn => completeOrStream secondaryModelId effectiveRequest onDeltaFn)
    onDelta.
End Service.
End Router.

(** What the router promises to the guard of the budget. *)
Class ModelRouterApi := {
  router_complete : string -> ModelCompletionRequest -> SelectModelHints -> jin ModelCompletionResponse;
  router_completeStream : string -> ModelCompletionRequest -> ModelStreamDeltaListener ->
    SelectModelHints -> jin ModelCompletionResponse
}.

Definition modelRouterService (profiles : ModelsConfig) (providers : Vendor -> ModelProviderClient) :
    ModelRouterApi := {|
  router_complete := Router.complete profiles providers;
  router_completeStream := Router.completeStream profiles providers |}.

(** ** Properties *)

(** *** Which tier answers *)

Definition prefers_fallback (p : ModelProfileConfig) (hints : SelectModelHints) : Prop :=
  (exists n, smh_estimatedInputTokens hints = Some n /\ mpc_maxTokensInput p < n) \/
  smh_latencyRequirement hints = Some low_latency \/
  (exists b, smh_budgetRemaining hints = Some b /\ Qclt b LOW_BUDGET_REMAINING_THRESHOLD).

Lemma qc_lt_spec a b : qc_lt a b = true <-> Qclt a b.
Proof.
  unfold qc_lt, Qclt. rewrite negb_true_iff, <- not_true_iff_false, Qle_bool_iff.
  split; [apply Qnot_le_lt|apply Qlt_not_le].
Qed.

Lemma selectModel_known profiles t hints p :
  (profiles !! t : option ModelProfileConfig) = Some p ->
  exists tier,
    selectModel profiles t hints =
      inr {| sm_modelId := match tier with primary => mpc_primary p | fallback => mpc_fallback p end;
             sm_tier := tier |} /\
    (tier = fallback <-> prefers_fallback p hints).
Proof.
  intros Hp. unfold selectModel. rewrite Hp. eexists; split; [reflexivity|].
  unfold prefers_fallback. destruct hints as [[n|] l [b|]]; cbn.
  all: try (pose proof (qc_lt_spec b LOW_BUDGET_REMAINING_THRESHOLD) as Hb;
            destruct (qc_lt b _); cbn).
  all: try destruct (Z.ltb_spec (mpc_maxTokensInput p) n).
  all: destruct (decide (l = Some low_latency)); naive_solver lia.
Qed.

(** *** A streamed answer

    An attempt to get a streamed answer is a program of the vendor's client that
    calls its listener at points of its choosing and may do anything else in
    between but write the text the owner sees or the variables of its callers. *)
Inductive attempt (T : Type) : Type :=
| at_end (r : JinError + T)
| at_delta (delta snapshot : string) (k : attempt T)
| at_act {X : Type} (f : World -> World * X) (k : X -> attempt T).
Arguments at_end {T} r.
Arguments at_delta {T} delta snapshot k.
Arguments at_act {T X} f k.

Fixpoint play {T} (a : attempt T) (onDelta : ModelStreamDeltaListener) : jin T :=
  match a with
  | at_end r => Router.lift r
  | at_delta d s k => onDelta d s ;;; play k onDelta
  | at_act f k => Act f (fun x => play (k x) onDelta)
  end.

Fixpoint minds_its_business {T} (a : attempt T) : Prop :=
  match a with
  | at_end _ => True
  | at_delta _ _ k => minds_its_business k
  | at_act f k => (forall w, m_refs (w_mem (f w).1) = m_refs (w_mem w) /\
                             m_deltas (w_mem (f w).1) = m_deltas (w_mem w)) /\
                  forall x, minds_its_business (k x)
  end.

(** What the owner sees: each delta with its snapshot. *)
Definition show_delta : ModelStreamDeltaListener := fun delta snapshot =>
  writes (upd_mem (upd_deltas (fun l => l ++ [(delta, snapshot)]))).

(** The texts an attempt emits and its result, when it starts from [w]. *)
Inductive emits {T} : attempt T -> World -> list (string * string) -> JinError + T -> Prop :=
| emits_end r w : emits (at_end r) w [] r
| emits_delta d s k w f l r :
    emits k (upd_mem f w) l r -> emits (at_delta d s k) w ((d, s) :: l) r
| emits_act X (f : World -> World * X) k w l r :
    emits (k (f w).2) (f w).1 l r -> emits (at_act f k) w l r.

(** The listener of [executeWithFailoverStream]. *)
Definition guarded (emittedAny : nat) (onDelta : ModelStreamDeltaListener) : ModelStreamDeltaListener :=
  fun delta snapshot => set_ref emittedAny true ;;; onDelta delta snapshot.

Definition flag (r : nat) (w : World) : option bool := m_refs (w_mem w) !! r.

Lemma run_play_guarded {T} (a : attempt T) r b w :
  minds_its_business a -> flag r w = Some b ->
  let '(w', res) := run (play a (guarded r show_delta)) w in
  exists l, emits a w l res /\ m_deltas (w_mem w') = m_deltas (w_mem w) ++ l /\
            flag r w' = Some (match l with [] => b | _ => true end).
Proof.
  revert w b; induction a as [res|d s k IH|X f k IH]; intros w b Ha Hr; cbn [play].
  - destruct res as [e|x]; cbn; exists []; rewrite app_nil_r; (split; [constructor|by split]).
  - unfold guarded at 1. rewrite !run_bind. cbn [run set_ref show_delta writes].
    set (g := upd_refs _). set (h := upd_deltas _).
    assert (Hflag : flag r (upd_mem h (upd_mem g w)) = Some true).
    { cbn. apply list_lookup_insert_eq. by eapply lookup_lt_Some. }
    specialize (IH (upd_mem h (upd_mem g w)) true Ha Hflag).
    destruct (run _ _) as [w' res]. destruct IH as (l & He & Hd & Hf).
    exists ((d, s) :: l). split; [|split].
    + by apply (emits_delta _ _ _ w (fun m => h (g m))).
    + rewrite Hd. cbn. by rewrite <- app_assoc.
    + rewrite Hf. by destruct l.
  - destruct Ha as [Hf Hk]. cbn [run]. destruct (f w) as [w1 x] eqn:Ef.
    destruct (Hf w) as [Hm Hd]. rewrite Ef in Hm, Hd; cbn in Hm, Hd.
    assert (Hr1 : flag r w1 = Some b) by (unfold flag; by rewrite Hm).
    specialize (IH x w1 b (Hk x) Hr1). destruct (run _ _) as [w' res].
    destruct IH as (l & He & Hds & Hfl). exists l. split; [|split; [by rewrite Hds, Hd|done]].
    constructor. by rewrite Ef.
Qed.

(** The first two attempts, with the model of the first one. *)
Lemma run_retryOnceStream {T} (a : attempt T) r w :
  minds_its_business a -> flag r w = Some false ->
  let '(w', res) :=
    run (Failover.retryOnceStream (play a) (guarded r show_delta) (get_ref r)) w in
  exists w0 l, emits a w0 l res /\ m_deltas (w_mem w') = m_deltas (w_mem w) ++ l /\
               flag r w' = Some (match l with [] => false | _ => true end).
Proof.
  intros Ha Hr. unfold Failover.retryOnceStream. rewrite run_catch.
  pose proof (run_play_guarded a r false w Ha Hr) as H.
  destruct (run _ w) as [w1 [e|x]]; destruct H as (l & He & Hd & Hf); [|by exists w, l].
  rewrite run_bind. cbn [run get_ref reads].
  change (m_refs (w_mem w1) !! r) with (flag r w1). rewrite Hf. cbn [default from_option id].
  destruct l as [|p l]; cbn [run]; [|by exists w, (p :: l)].
  rewrite run_bind. cbn [run sleep writes].
  pose proof (run_play_guarded a r false (advance (clock (w_sys w1) + RETRY_BACKOFF_MS) w1) Ha Hf) as H2.
  destruct (run _ _) as [w2 res]. destruct H2 as (l2 & He2 & Hd2 & Hf2).
  exists (advance (clock (w_sys w1) + RETRY_BACKOFF_MS) w1), l2. split; [done|split; [|done]].
  rewrite Hd2. cbn. by rewrite Hd, app_nil_r.
Qed.

(** C12. A streamed answer never mixes two models: whatever the primary and the
    fallback do, the text shown to the owner is the text of a single attempt,
    and the call ends as that attempt does, with its answer, with
    [StreamAlreadyPartiallyEmittedError] if it broke after showing some text, or
    with [AllProvidersFailedError] if nothing was ever shown. *)
Theorem streamed_text_comes_from_one_attempt {T} (context : FailoverContext)
    (P F : attempt T) (w : World) :
  minds_its_business P -> minds_its_business F ->
  let '(w', r) := run (Failover.executeWithFailoverStream context (play P) (play F) show_delta) w in
  exists a w0 l r0,
    (a = (P, fc_primaryModelId context) \/ a = (F, fc_fallbackModelId context)) /\
    emits a.1 w0 l r0 /\
    m_deltas (w_mem w') = m_deltas (w_mem w) ++ l /\
    match r with
    | inr x => r0 = inr x
    | inl (StreamAlreadyPartiallyEmittedError t m cause) =>
        l <> [] /\ r0 = inl cause /\ t = fc_taskProfile context /\ m = a.2
    | inl (AllProvidersFailedError t p f cause) =>
        l = [] /\ r0 = inl cause /\ (t, p, f) =
          (fc_taskProfile context, fc_primaryModelId context, fc_fallbackModelId context)
    | inl _ => False
    end.
Proof.
  intros HP HF. unfold Failover.executeWithFailoverStream. rewrite run_bind.
  cbn [run new_ref]. set (r := length _). set (w1 := upd_mem _ w).
  assert (Hr : flag r w1 = Some false) by (cbn; apply list_lookup_middle; done).
  change (fun delta snapshot : string => _) with (guarded r show_delta).
  rewrite run_catch. pose proof (run_retryOnceStream P r w1 HP Hr) as H.
  destruct (run _ w1) as [w2 [e|x]]; destruct H as (w0 & l & He & Hd & Hf).
  2: { exists (P, fc_primaryModelId context), w0, l, (inr x). eauto. }
  rewrite run_bind. cbn [run get_ref reads].
  change (m_refs (w_mem w2) !! r) with (flag r w2). rewrite Hf. cbn [default from_option id].
  destruct l as [|d l]; cbn [run].
  2: { exists (P, fc_primaryModelId context), w0, (d :: l), (inl e). split; [by left|]. splits; done. }
  rewrite run_catch. pose proof (run_play_guarded F r false w2 HF Hf) as H.
  rewrite app_nil_r in Hd.
  destruct (run _ w2) as [w3 [e2|x]]; destruct H as (l & He2 & Hd2 & Hf2).
  2: { exists (F, fc_fallbackModelId context), w2, l, (inr x). rewrite Hd2, Hd. eauto. }
  rewrite run_bind. cbn [run get_ref reads].
  change (m_refs (w_mem w3) !! r) with (flag r w3). rewrite Hf2. cbn [default from_option id].
  destruct l as [|d l]; cbn [run].
  - exists (F, fc_fallbackModelId context), w2, [], (inl e2). rewrite Hd2, Hd.
    split; [by right|]. splits; done.
  - exists (F, fc_fallbackModelId context), w2, (d :: l), (inl e2). rewrite Hd2, Hd.
    split; [by right|]. splits; done.
Qed.

(** The primary shows a word and breaks; the fallback would have answered. *)
Definition broken_attempt : attempt string := at_delta "Ho" "Ho" (at_end (inl DbError)).
Definition good_attempt : attempt string := at_delta "Hi" "Hi" (at_end (inr "Hi")).

Lemma streamed_text_comes_from_one_attempt_witness :
  minds_its_business broken_attempt /\ minds_its_business good_attempt /\
  let context := {| fc_taskProfile := "chat_conversational"; fc_primaryModelId := "claude-sonnet-5";
                    fc_fallbackModelId := "claude-haiku-4-5" |} in
  let '(w', r) := run (Failover.executeWithFailoverStream context (play broken_attempt)
                         (play good_attempt) show_delta) (empty_world 0) in
  exists a w0 l r0,
    (a = (broken_attempt, fc_primaryModelId context) \/ a = (good_attempt, fc_fallbackModelId context)) /\
    emits a.1 w0 l r0 /\
    m_deltas (w_mem w') = m_deltas (w_mem (empty_world 0)) ++ l /\
    match r with
    | inr x => r0 = inr x
    | inl (StreamAlreadyPartiallyEmittedError t m cause) =>
        l <> [] /\ r0 = inl cause /\ t = fc_taskProfile context /\ m = a.2
    | inl (AllProvidersFailedError t p f cause) =>
        l = [] /\ r0 = inl cause /\ (t, p, f) =
          (fc_taskProfile context, fc_primaryModelId context, fc_fallbackModelId context)
    | inl _ => False
    end.
Proof.
  split; [done|]. split; [done|]. intros context.
  exact (streamed_text_comes_from_one_attempt context broken_attempt good_attempt (empty_world 0) I I).
Defined.

(** The tier of a call: an unknown profile is an error, and a known one is
    answered by its fallback model exactly when the input is longer than the
    profile allows, low latency is asked for, or less than 20% of the budget is
    left; otherwise by its primary. *)
Lemma selectModel_prefers_the_cheap_model_when_asked (profiles : ModelsConfig) (t : string)
    (hints : SelectModelHints) :
  match (profiles !! t : option ModelProfileConfig), selectModel profiles t hints with
  | None, r => r = inl (UnknownTaskProfileError t)
  | Some p, inr {| sm_modelId := m; sm_tier := fallback |} =>
      m = mpc_fallback p /\ prefers_fallback p hints
  | Some p, inr {| sm_modelId := m; sm_tier := primary |} =>
      m = mpc_primary p /\ ~ prefers_fallback p hints
  | Some _, inl _ => False
  end.
Proof.
  destruct (profiles !! t : option ModelProfileConfig) as [p|] eqn:Hp.
  - destruct (selectModel_known profiles t hints p Hp) as ([] & -> & Ht); naive_solver.
  - unfold selectModel. by rewrite Hp.
Qed.

(** The reasoning budget of a call to Anthropic always fits in its output: an
    explicit budget is at least 1024 tokens, at most 8192, and leaves at least 512
    tokens for the answer; it is only sent to models that still take sampling
    parameters; thinking is never disabled on a model that has it always on; and
    the limit of output tokens sent is never below the one asked for. *)
Lemma thinking_budget_fits_the_output (modelId : string) (effort : option ModelEffort)
    (maxOutputTokens : Z) :
  match anthropicThinkingParams modelId effort maxOutputTokens with
  | thinking_enabled budget =>
      1024 <= budget <= 8192 /\ budget + 512 <= maxOutputTokens /\
      anthropicModelAcceptsSampling modelId = true /\ effort <> Some effort_low
  | thinking_adaptive e =>
      effort = Some e /\ anthropicModelAcceptsSampling modelId = false
  | thinking_disabled => effort = Some effort_low /\ hasThinkingAlwaysOn modelId = false
  | no_thinking_params =>
      effort = None \/ (anthropicModelAcceptsSampling modelId = true /\
                        (effort = Some effort_low \/ maxOutputTokens < 1536))
  end /\
  maxOutputTokens <= anthropicMaxTokens modelId maxOutputTokens.
Proof.
  split; [|unfold anthropicMaxTokens; case_match; lia].
  unfold anthropicThinkingParams.
  destruct effort as [e|]; [|by left].
  destruct (anthropicModelAcceptsSampling modelId), (hasThinkingAlwaysOn modelId), e; cbn;
    try done; try naive_solver.
  all: repeat case_decide; try done.
  all: match goal with |- context [?b <? 1024] => destruct (Z.ltb_spec b 1024) end;
    [right; split; [done|right; lia]|].
  all: split; [lia|split; [lia|done]].
Qed.

(** *** The model the owner chose for the chat *)

Definition chat_profile : string := "chat_conversational".

Lemma resolveCandidates_chat profiles p w pref :
  (profiles !! chat_profile : option ModelProfileConfig) = Some p ->
  m_chatPreference (w_mem w) = Some pref -> truthy (cmp_modelId pref) = true ->
  run (Router.resolveCandidates profiles chat_profile no_hints) w =
  (w, inr ({| sm_modelId := cmp_modelId pref; sm_tier := primary |}, mpc_fallback p, cmp_effort pref)).
Proof.
  intros Hp Hc Ht. unfold Router.resolveCandidates, chat_profile in *.
  rewrite String.eqb_refl, run_bind. unfold ChatPreference.getPreference. cbn [run reads].
  rewrite Hc. rewrite run_bind. cbn [run]. rewrite Ht. cbv zeta. unfold selectModel.
  assert (Ha : (alter (Router.with_primary (cmp_modelId pref)) "chat_conversational" profiles
                !! "chat_conversational" : option ModelProfileConfig) =
               Some (Router.with_primary (cmp_modelId pref) p)).
  { etrans; [apply (lookup_alter_eq (M := gmap string))|].
    unfold ModelsConfig in *. etrans; [apply (f_equal (fmap _) Hp)|done]. }
  rewrite Ha. cbn. by rewrite String.eqb_refl.
Qed.

(** The owner's choice of a model takes effect, and only a model of the catalog
    can be chosen: when [setPreference] returns, the next chat turn is answered by
    that model (an effort is kept only if the model supports it) with the
    profile's fallback behind it, and the choice is still there after a restart;
    when it throws, neither the cached choice nor the stored one has changed. *)
Lemma chat_uses_the_chosen_model (profiles : ModelsConfig) (catalog : list ChatModelOption)
    (p : ModelProfileConfig) (vendor modelId : string) (effort : option string) (setBy : string)
    (w : World) :
  (profiles !! chat_profile : option ModelProfileConfig) = Some p ->
  Forall (fun o => truthy (cmo_modelId o) = true) catalog ->
  let '(w', r) := run (ChatPreference.setPreference catalog vendor modelId effort setBy) w in
  match r with
  | inr _ =>
      (exists o, o ∈ catalog /\ vendor_name (cmo_vendor o) = vendor /\ cmo_modelId o = modelId /\
         run (Router.resolveCandidates profiles chat_profile no_hints) w' =
         (w', inr ({| sm_modelId := modelId; sm_tier := primary |}, mpc_fallback p,
                   if cmo_supportsEffort o then effort else None))) /\
      (w_chatPreference w <> None -> faulty w' = false ->
       m_chatPreference (w_mem (run ChatPreference.refresh w').1) = m_chatPreference (w_mem w'))
  | inl _ =>
      m_chatPreference (w_mem w') = m_chatPreference (w_mem w) /\
      w_chatPreference w' = w_chatPreference w
  end.
Proof.
  intros Hp Hcat. unfold ChatPreference.setPreference.
  destruct (List.find _ catalog) as [o|] eqn:Ho; [|done].
  apply List.find_some in Ho as [Hin Hb]. apply list_elem_of_In in Hin.
  apply andb_true_iff in Hb as [Hv%String.eqb_eq Hm%String.eqb_eq].
  assert (Ht : truthy (cmo_modelId o) = true) by (by eapply Forall_forall in Hcat).
  rewrite run_bind, run_now, run_bind. unfold ChatPreference.updateRow, db_write at 1.
  rewrite run_db. destruct (faulty w); [done|]. cbn [run].
  cbv zeta. rewrite run_bind. unfold ChatPreference.set_cached. rewrite run_writes. cbn [run].
  split.
  - exists o. splits; [done..|].
    etrans; [eapply resolveCandidates_chat; [exact Hp|reflexivity|exact Ht]|]. by rewrite <- Hm.
  - intros Hrow Hf. unfold ChatPreference.refresh, ChatPreference.readFromDb.
    rewrite !run_bind. unfold db_read. rewrite run_db, Hf. cbn.
    destruct (w_chatPreference w) as [row|]; [cbn|done].
    rewrite Ht. by destruct (cmo_vendor o).
Qed.

Definition sonnet_profile : ModelProfileConfig := {|
  mpc_description := "Chat con el usuario"; mpc_primary := "claude-sonnet-5";
  mpc_fallback := "claude-haiku-4-5"; mpc_maxTokensInput := 50000; mpc_maxTokensOutput := 8000;
  mpc_temperature := Q2Qc (7 # 10) |}.
Definition opus_option : ChatModelOption := {|
  cmo_vendor := anthropic; cmo_modelId := "claude-opus-4-8"; cmo_label := "Opus";
  cmo_supportsEffort := true |}.

Lemma chat_uses_the_chosen_model_witness :
  let profiles : ModelsConfig := {[ chat_profile := sonnet_profile ]} in
  Forall (fun o => truthy (cmo_modelId o) = true) [opus_option] /\
  exists w', run (Router.resolveCandidates profiles chat_profile no_hints) w' =
    (w', inr ({| sm_modelId := "claude-opus-4-8"; sm_tier := primary |}, "claude-haiku-4-5",
              Some "high")).
Proof.
  intros profiles. assert (Hcat : Forall (fun o => truthy (cmo_modelId o) = true) [opus_option])
    by (by constructor).
  split; [exact Hcat|].
  pose proof (chat_uses_the_chosen_model profiles [opus_option] sonnet_profile "anthropic"
    "claude-opus-4-8" (Some "high") "owner" (empty_world 0) eq_refl Hcat) as H.
  destruct (run (ChatPreference.setPreference _ _ _ _ _) (empty_world 0)) as [w' [e|c]] eqn:E;
    [discriminate E|].
  destruct H as [(o & Hin & _ & _ & Hr) _]. exists w'.
  apply list_elem_of_singleton in Hin as ->. exact Hr.
Defined.
