(* ===== verification/Budget.v ===== *)
(** * Budget: what the models cost, and when they stop

    [src/budget]: [budget.logic.ts], [cost.ts], [budget-time.ts],
    [kill-switch.logic.ts], [budget.service.ts], [kill-switch.service.ts],
    [budget-guarded-router.service.ts], [budget-alert.monitor.ts] and
    [budget.controller.ts].  Ratios and costs are exact rationals where the code
    has doubles; the columns round as PostgreSQL does. *)
From S2P Require Import Prelude Effects Js Text Registry Store AuditApi AuditLog Models.
From Stdlib Require Import QArith Qcanon Qround Ascii.
Local Open Scope stdpp_scope.
Local Open Scope Z_scope.
Local Open Scope jin_scope.

(** ** budget.types.ts *)

Record BudgetConfig := {
  sessionMaxInputTokens : Z;
  sessionMaxOutputTokens : Z;
  dailyMaxTokens : Z;
  dailyMaxUsd : Qc;
  runawayMultiplier : Qc;
  runawayLookbackHours : Z;
  runawayMinHourlyTokens : Z
}.

Record CheckBeforeCallInput := {
  cbc_sessionId : string;
  cbc_estimatedInputTokens : Z;
  cbc_maxOutputTokens : Z
}.

Record RecordUsageInput := {
  rui_sessionId : string;
  rui_modelId : string;
  rui_taskProfile : string;
  rui_inputTokens : Z;
  rui_outputTokens : Z
}.

(** What [BudgetYamlSchema] accepts. *)
Definition budget_config_ok (c : BudgetConfig) : Prop :=
  0 < sessionMaxInputTokens c /\ 0 < sessionMaxOutputTokens c /\ 0 < dailyMaxTokens c /\
  Qclt 0 (dailyMaxUsd c) /\ Qclt 0 (runawayMultiplier c) /\ 0 < runawayLookbackHours c /\
  0 < runawayMinHourlyTokens c.

(** ** Numbers *)

Definition qc_of_Z (z : Z) : Qc := Q2Qc (inject_Z z).

(** [a <= b] *)
Definition qc_le (a b : Qc) : bool := Qle_bool a b.

(** [Math.round(x)] *)
Definition round_Qc (x : Qc) : Z := Qfloor (x + Q2Qc (1 # 2))%Qc.

(** [Math.max] *)
Definition qc_max (a b : Qc) : Qc := if qc_le a b then b else a.

(** [String(q)] of a number with at most six decimals. *)
Fixpoint drop_zeros (l : list ascii) : list ascii :=
  match l with
  | ("0"%char) :: l' => drop_zeros l'
  | _ => l
  end.
Definition number_string (q : Qc) : string :=
  let n := Qfloor (q * qc_of_Z 1000000)%Qc in
  let whole := pretty (n / 1000000) in
  if n mod 1000000 =? 0 then whole
  else whole +:+ "." +:+
       String.string_of_list_ascii (reverse (drop_zeros (reverse (String.list_ascii_of_string (digits 6 (n mod 1000000)))))).

(** ** budget.logic.ts *)

Definition computeDailyUsageRatio (daily : UsageRow) (c : BudgetConfig) : Qc :=
  let tokensRatio := (qc_of_Z (us_inputTokens daily + us_outputTokens daily) / qc_of_Z (dailyMaxTokens c))%Qc in
  let costRatio := (us_costUsd daily / dailyMaxUsd c)%Qc in
  qc_max tokensRatio costRatio.

Definition wouldExceedSessionBudget (session : SessionUsage) (estimatedInputTokens maxOutputTokens : Z)
    (c : BudgetConfig) : bool :=
  (sessionMaxInputTokens c <? su_inputTokens session + estimatedInputTokens) ||
  (sessionMaxOutputTokens c <? su_outputTokens session + maxOutputTokens).

(** ** cost.ts *)

Definition CHARS_PER_TOKEN_ESTIMATE : Z := 4.

Definition estimateTokens (text : string) : Z :=
  ceil_div (js_length text) CHARS_PER_TOKEN_ESTIMATE.

Definition is_digit (c : ascii) : bool := match digit_value c with Some _ => true | None => false end.
Definition is_line_end (c : ascii) : bool := (nat_of_ascii c =? 10)%nat || (nat_of_ascii c =? 13)%nat.

(** The group of [/^(.+)-\d{8}$/]. *)
Definition dated_alias (modelId : string) : option string :=
  let k := (String.length modelId - 9)%nat in
  let alias := String.substring 0 k modelId in
  match String.list_ascii_of_string (String.substring k 9 modelId) with
  | ("-"%char) :: ds =>
      if (length ds =? 8)%nat && forallb is_digit ds && truthy alias &&
         negb (existsb is_line_end (String.list_ascii_of_string alias))
      then Some alias else None
  | _ => None
  end.

Definition resolvePrice (prices : ModelPrices) (modelId : string) : option ModelPrice :=
  match (prices !! modelId : option ModelPrice) with
  | Some exact => Some exact
  | None => match dated_alias modelId with Some alias => prices !! alias | None => None end
  end.

Definition computeCostUsd (prices : ModelPrices) (modelId : string) (inputTokens outputTokens : Z) :
    JinError + Qc :=
  match resolvePrice prices modelId with
  | None => inl (PlainError ("No hay precio configurado para el modelo " +:+ quoted modelId +:+
                             " en config/models.yaml (model_prices)."))
  | Some price =>
      let inputCost := (qc_of_Z inputTokens / qc_of_Z 1000000 * mp_inputPerMillion price)%Qc in
      let outputCost := (qc_of_Z outputTokens / qc_of_Z 1000000 * mp_outputPerMillion price)%Qc in
      inr (inputCost + outputCost)%Qc
  end.

(** ** budget-time.ts

    The zone of the process is a constant offset from UTC, in milliseconds (that
    of America/Lima, where the deployment runs, is -5 hours all year round). *)
Section Zone.
Context (tzOffset : Z).

Definition todayLocalDate (now : Z) : string :=
  let '(year, month, day) := civil_of_days ((now + tzOffset) / ms_per_day) in
  pretty year +:+ "-" +:+ digits 2 month +:+ "-" +:+ digits 2 day.

Definition ms_per_hour : Z := 3600000.

Definition currentHourBucket (now : Z) : Z :=
  (now + tzOffset) / ms_per_hour * ms_per_hour - tzOffset.
End Zone.

(** ** kill-switch.logic.ts *)

(** The total of [reduce((sum, hour) => sum + hour.inputTokens + hour.outputTokens, 0)]. *)
Definition total_tokens (rows : list UsageRow) : Z :=
  foldl (fun sum hour => sum + us_inputTokens hour + us_outputTokens hour) 0 rows.

Definition isRunawayDetected (currentHourUsage : Z) (lookbackHours : list UsageRow) (c : BudgetConfig) :
    bool :=
  if (length lookbackHours =? 0)%nat then false
  else if currentHourUsage <? runawayMinHourlyTokens c then false
  else
    let lookbackTotal := total_tokens lookbackHours in
    let avgHourlyUsage := (qc_of_Z lookbackTotal / qc_of_Z (runawayLookbackHours c))%Qc in
    if qc_le avgHourlyUsage 0 then false
    else qc_lt (avgHourlyUsage * runawayMultiplier c)%Qc (qc_of_Z currentHourUsage).

(** ** Columns: [integer] and [numeric(12, 6)] *)

Definition int4 (n : Z) : option Z :=
  if (-2147483648 <=? n) && (n <=? 2147483647) then Some n else None.

(** Rounds half away from zero to six decimals; an error from a million on. *)
Definition round6 (q : Qc) : Qc :=
  let half := Q2Qc (1 # 2) in
  let million := qc_of_Z 1000000 in
  let units := if qc_le 0 q then Qfloor (q * million + half)%Qc
               else - Qfloor (- q * million + half)%Qc in
  (qc_of_Z units / million)%Qc.

Definition numeric12_6 (q : Qc) : option Qc :=
  let r := round6 q in
  if qc_lt (- qc_of_Z 1000000)%Qc r && qc_lt r (qc_of_Z 1000000) then Some r else None.

Definition no_usage : UsageRow := {| us_inputTokens := 0; us_outputTokens := 0; us_costUsd := 0%Qc |}.

(** The row after [INSERT ... ON CONFLICT DO UPDATE SET x = x + ...]; [None] is
    the error of a value out of the range of its column. *)
Definition add_usage (old : option UsageRow) (inputTokens outputTokens : Z) (costUsd : Qc) :
    option UsageRow :=
  let row := default no_usage old in
  i ← int4 (us_inputTokens row + inputTokens);
  o ← int4 (us_outputTokens row + outputTokens);
  c ← numeric12_6 (us_costUsd row + costUsd)%Qc;
  Some {| us_inputTokens := i; us_outputTokens := o; us_costUsd := c |}.

(** A statement that may also break a constraint of its columns. *)
Definition db_checked (f : World -> option World) : jin unit :=
  ok <- db (fun w => match f w with Some w' => (w', true) | None => (w, false) end) ;;
  if ok : bool then Ret tt else Throw DbError.

Definition set_daily m (b : BudgetDb) : BudgetDb := {| budget_daily_usage := m;
  budget_hourly_usage := budget_hourly_usage b; budget_kill_switch := budget_kill_switch b;
  sessionUsage := sessionUsage b |}.
Definition set_hourly m (b : BudgetDb) : BudgetDb := {| budget_daily_usage := budget_daily_usage b;
  budget_hourly_usage := m; budget_kill_switch := budget_kill_switch b;
  sessionUsage := sessionUsage b |}.
Definition set_killSwitch k (b : BudgetDb) : BudgetDb := {| budget_daily_usage := budget_daily_usage b;
  budget_hourly_usage := budget_hourly_usage b; budget_kill_switch := k;
  sessionUsage := sessionUsage b |}.
Definition set_session m (b : BudgetDb) : BudgetDb := {| budget_daily_usage := budget_daily_usage b;
  budget_hourly_usage := budget_hourly_usage b; budget_kill_switch := budget_kill_switch b;
  sessionUsage := m |}.

(** ** budget.service.ts *)

Definition no_session_usage : SessionUsage := {| su_inputTokens := 0; su_outputTokens := 0 |}.

Module Budget.
Section Service.
Context (cfg : BudgetConfig) (prices : ModelPrices) (tzOffset : Z).

Definition getSessionUsage (sessionId : string) : jin SessionUsage :=
  reads (fun w => default no_session_usage (sessionUsage (w_budget w) !! sessionId)).

Definition getDailyUsage : jin UsageRow :=
  t <- now ;;
  db_read (fun w => default no_usage (budget_daily_usage (w_budget w) !! todayLocalDate tzOffset t)).

Definition getDailyUsageRatio : jin Qc :=
  daily <- getDailyUsage ;; Ret (computeDailyUsageRatio daily cfg).

(** Answers [budgetRemaining]. *)
Definition checkBeforeCall (input : CheckBeforeCallInput) : jin Qc :=
  session <- getSessionUsage (cbc_sessionId input) ;;
  if wouldExceedSessionBudget session (cbc_estimatedInputTokens input) (cbc_maxOutputTokens input) cfg
  then Throw (SessionBudgetExceededError (cbc_sessionId input))
  else
    usedRatio <- getDailyUsageRatio ;;
    if qc_le 1 usedRatio then Throw DailyBudgetExceededError
    else Ret (qc_max 0 (1 - usedRatio))%Qc.

Definition addSessionUsage (input : RecordUsageInput) : jin unit :=
  writes (upd_budget (fun b =>
    let session := default no_session_usage (sessionUsage b !! rui_sessionId input) in
    set_session (<[ rui_sessionId input :=
      {| su_inputTokens := su_inputTokens session + rui_inputTokens input;
         su_outputTokens := su_outputTokens session + rui_outputTokens input |} ]> (sessionUsage b)) b)).

Definition addDailyUsage (today : string) (input : RecordUsageInput) (costUsd : Qc) : jin unit :=
  db_checked (fun w =>
    row ← add_usage (budget_daily_usage (w_budget w) !! today) (rui_inputTokens input)
            (rui_outputTokens input) costUsd;
    Some (upd_budget (fun b => set_daily (<[today := row]> (budget_daily_usage b)) b) w)).

Definition addHourlyUsage (hourBucket : Z) (input : RecordUsageInput) (costUsd : Qc) : jin unit :=
  db_checked (fun w =>
    row ← add_usage (budget_hourly_usage (w_budget w) !! hourBucket) (rui_inputTokens input)
            (rui_outputTokens input) costUsd;
    Some (upd_budget (fun b => set_hourly (<[hourBucket := row]> (budget_hourly_usage b)) b) w)).

Definition recordUsage (input : RecordUsageInput) : jin unit :=
  costUsd <- Router.lift (computeCostUsd prices (rui_modelId input) (rui_inputTokens input)
                            (rui_outputTokens input)) ;;
  addSessionUsage input ;;;
  t <- now ;;
  addDailyUsage (todayLocalDate tzOffset t) input costUsd ;;;
  t' <- now ;;
  addHourlyUsage (currentHourBucket tzOffset t') input costUsd ;;;
  emit (METRIC ("tokens_consumed_total{model=" +:+ rui_modelId input +:+ ",task_type=" +:+
                rui_taskProfile input +:+ "}")
               (qc_of_Z (rui_inputTokens input + rui_outputTokens input))) ;;;
  ratio <- getDailyUsageRatio ;;
  emit (METRIC "budget_remaining_ratio" (qc_max 0 (1 - ratio))%Qc).

Definition getLimits : Z * Qc := (dailyMaxTokens cfg, dailyMaxUsd cfg).
End Service.
End Budget.

(** ** kill-switch.service.ts *)

(** [activatedAt] is the instant that the source prints with [toISOString]. *)
Record KillSwitchStatus := {
  kss_active : bool;
  kss_activatedAt : option Z;
  kss_reason : option string;
  kss_currentHourTokens : Z;
  kss_avgHourlyTokens : Qc
}.

Module KillSwitch.
Section Service.
Context (cfg : BudgetConfig) (tzOffset : Z).

Definition isActive : jin bool :=
  db_read (fun w => match budget_kill_switch (w_budget w) with
                    | Some row => ks_active row
                    | None => false
                    end).

Definition upsertState (state : BudgetKillSwitchRow) : jin unit :=
  db_write (upd_budget (set_killSwitch (Some state))).

Definition unpause : jin unit :=
  upsertState {| ks_active := false; ks_activatedAt := None; ks_reason := None |}.

(** The rows of the window [lookbackStart, currentBucket). *)
Definition lookback_rows (lookbackStart currentBucket : Z) (m : gmap Z UsageRow) : list UsageRow :=
  (List.filter (fun kv => (lookbackStart <=? kv.1) && (kv.1 <? currentBucket)) (map_to_list m)).*2.

Definition hour_tokens (row : option UsageRow) : Z :=
  match row with Some r => us_inputTokens r + us_outputTokens r | None => 0 end.

(** The two queries of the [Promise.all], one after the other. *)
Definition getHourUsageDetail : jin (Z * list UsageRow) :=
  t <- now ;;
  let currentBucket := currentHourBucket tzOffset t in
  let lookbackStart := currentBucket - runawayLookbackHours cfg * 60 * 60 * 1000 in
  currentRow <- db_read (fun w => budget_hourly_usage (w_budget w) !! currentBucket) ;;
  lookbackRows <- db_read (fun w => lookback_rows lookbackStart currentBucket (budget_hourly_usage (w_budget w))) ;;
  Ret (hour_tokens currentRow, lookbackRows).

Definition runaway_reason (currentHourTokens : Z) : string :=
  "Consumo de la hora actual (" +:+ pretty currentHourTokens +:+ " tokens) supera " +:+
  number_string (runawayMultiplier cfg) +:+ "x el promedio de las últimas " +:+
  pretty (runawayLookbackHours cfg) +:+ "h.".

Definition checkRunaway : jin unit :=
  active <- isActive ;;
  if active : bool then Ret tt
  else
    detail <- getHourUsageDetail ;;
    let '(currentHourTokens, lookbackRows) := detail in
    if isRunawayDetected currentHourTokens lookbackRows cfg then
      t <- now ;;
      upsertState {| ks_active := true; ks_activatedAt := Some t;
                     ks_reason := Some (runaway_reason currentHourTokens) |} ;;;
      emit (METRIC "runaway_detected_total" 1%Qc)
    else Ret tt.

Definition getStatus : jin KillSwitchStatus :=
  row <- db_read (fun w => budget_kill_switch (w_budget w)) ;;
  detail <- getHourUsageDetail ;;
  let '(currentHourTokens, lookbackRows) := detail in
  let lookbackTotal := total_tokens lookbackRows in
  let avgHourlyTokens :=
    if (0 <? length lookbackRows)%nat
    then (qc_of_Z lookbackTotal / qc_of_Z (runawayLookbackHours cfg))%Qc else 0%Qc in
  Ret {| kss_active := match row with Some r => ks_active r | None => false end;
         kss_activatedAt := row ≫= ks_activatedAt;
         kss_reason := row ≫= ks_reason;
         kss_currentHourTokens := currentHourTokens;
         kss_avgHourlyTokens := avgHourlyTokens |}.
End Service.
End KillSwitch.

(** ** budget-guarded-router.service.ts *)

Definition tool_call_json (c : ModelToolCall) : json :=
  JObj [("id", JStr (mtc_id c)); ("name", JStr (mtc_name c)); ("input", mtc_input c)].

Definition block_json (b : ModelMessageContentBlock) : json :=
  match b with
  | block_text text => JObj [("type", JStr "text"); ("text", JStr text)]
  | block_tool_use c => JObj [("type", JStr "tool_use"); ("toolCall", tool_call_json c)]
  | block_tool_result id output isError =>
      JObj ([("type", JStr "tool_result"); ("toolCallId", JStr id); ("output", output)] ++
            match isError with Some e => [("isError", JBool e)] | None => [] end)
  end.

Definition tool_declaration_json (d : ModelToolDeclaration) : json :=
  JObj [("name", JStr (mtd_name d)); ("description", JStr (mtd_description d));
        ("inputSchema", mtd_inputSchema d)].

Definition messageContentToText (m : ModelMessage) : string :=
  match mm_content m with
  | content_string text => text
  | content_blocks bs => stringify (JArr (map block_json bs))
  end.

Module GuardedRouter.
Section Service.
Context (cfg : BudgetConfig) (prices : ModelPrices) (tzOffset : Z).
Context {Router : ModelRouterApi}.

Definition estimateRequestTokens (request : ModelCompletionRequest) : Z :=
  let systemPromptTokens :=
    match mcr_systemPrompt request with
    | Some s => if truthy s then estimateTokens s else 0
    | None => 0
    end in
  let messagesTokens :=
    foldl (fun sum message => sum + estimateTokens (messageContentToText message)) 0
          (mcr_messages request) in
  let toolsTokens :=
    match mcr_tools request with
    | Some tools => estimateTokens (stringify (JArr (map tool_declaration_json tools)))
    | None => 0
    end in
  systemPromptTokens + messagesTokens + toolsTokens.

(** What [complete] and [completeStream] share: all but the call to the router. *)
Definition guarded_call (call : SelectModelHints -> jin ModelCompletionResponse)
    (taskProfile : string) (request : ModelCompletionRequest) (hints : SelectModelHints)
    (sessionId : option string) : jin ModelCompletionResponse :=
  active <- KillSwitch.isActive ;;
  if active : bool then Throw (KillSwitchActiveError "todas las llamadas al ModelProvider están pausadas")
  else
    effectiveSessionId <- match sessionId with Some s => Ret s | None => randomUUID end ;;
    let estimatedInputTokens :=
      match smh_estimatedInputTokens hints with
      | Some n => n
      | None => estimateRequestTokens request
      end in
    budgetRemaining <- Budget.checkBeforeCall cfg tzOffset
      {| cbc_sessionId := effectiveSessionId; cbc_estimatedInputTokens := estimatedInputTokens;
         cbc_maxOutputTokens := mcr_maxOutputTokens request |} ;;
    response <- call {| smh_estimatedInputTokens := Some estimatedInputTokens;
                        smh_latencyRequirement := smh_latencyRequirement hints;
                        smh_budgetRemaining := Some budgetRemaining |} ;;
    Budget.recordUsage cfg prices tzOffset
      {| rui_sessionId := effectiveSessionId; rui_modelId := mcs_modelId response;
         rui_taskProfile := taskProfile; rui_inputTokens := mcs_inputTokens response;
         rui_outputTokens := mcs_outputTokens response |} ;;;
    Ret response.

Definition complete (taskProfile : string) (request : ModelCompletionRequest)
    (hints : SelectModelHints) (sessionId : option string) : jin ModelCompletionResponse :=
  guarded_call (router_complete taskProfile request) taskProfile request hints sessionId.

Definition completeStream (taskProfile : string) (request : ModelCompletionRequest)
    (onDelta : ModelStreamDeltaListener) (hints : SelectModelHints) (sessionId : option string) :
    jin ModelCompletionResponse :=
  guarded_call (router_completeStream taskProfile request onDelta) taskProfile request hints sessionId.
End Service.
End GuardedRouter.

(** What the guarded router promises to the agents. *)
Class BudgetGuardedApi := {
  guarded_complete : string -> ModelCompletionRequest -> SelectModelHints -> option string ->
    jin ModelCompletionResponse;
  guarded_completeStream : string -> ModelCompletionRequest -> ModelStreamDeltaListener ->
    SelectModelHints -> option string -> jin ModelCompletionResponse
}.

Definition budgetGuardedModelRouter `{Router : ModelRouterApi} (cfg : BudgetConfig)
    (prices : ModelPrices) (tzOffset : Z) : BudgetGuardedApi := {|
  guarded_complete := GuardedRouter.complete cfg prices tzOffset;
  guarded_completeStream := GuardedRouter.completeStream cfg prices tzOffset |}.

(** ** budget-alert.monitor.ts *)

Module AlertMonitor.
Section Service.
Context (cfg : BudgetConfig) (tzOffset : Z).

Definition DAILY_ALERT_THRESHOLDS : list Qc := [Q2Qc (8 # 10); 1%Qc].

Definition with_alerts (f : AlertState -> AlertState) : jin unit := writes (upd_mem (upd_alerts f)).

Definition checkKillSwitch : jin unit :=
  status <- KillSwitch.getStatus cfg tzOffset ;;
  last <- reads (fun w => lastKillSwitchActive (m_alerts (w_mem w))) ;;
  (if kss_active status && negb last
   then emit (KILL_SWITCH_ACTIVATED_EVENT (kss_reason status) (kss_activatedAt status))
   else Ret tt) ;;;
  with_alerts (fun a => {| notifiedThresholdsToday := notifiedThresholdsToday a;
                           lastResetDate := lastResetDate a;
                           lastKillSwitchActive := kss_active status |}).

(** [toISOString().slice(0, 10)] *)
Definition utc_date (t : Z) : string := String.substring 0 10 (to_iso_string t).

Definition notify_threshold (ratio threshold : Qc) : jin unit :=
  notified <- reads (fun w => existsb (Qc_eq_bool threshold) (notifiedThresholdsToday (m_alerts (w_mem w)))) ;;
  if qc_le threshold ratio && negb notified then
    with_alerts (fun a => {| notifiedThresholdsToday := notifiedThresholdsToday a ++ [threshold];
                             lastResetDate := lastResetDate a;
                             lastKillSwitchActive := lastKillSwitchActive a |}) ;;;
    emit (BUDGET_THRESHOLD_CROSSED_EVENT ratio threshold)
  else Ret tt.

Definition checkDailyThresholds : jin unit :=
  t <- now ;;
  let today := utc_date t in
  writes (fun w => if String.eqb today (lastResetDate (m_alerts (w_mem w))) then w
                   else upd_mem (upd_alerts (fun a =>
                          {| notifiedThresholdsToday := []; lastResetDate := today;
                             lastKillSwitchActive := lastKillSwitchActive a |})) w) ;;;
  ratio <- Budget.getDailyUsageRatio cfg tzOffset ;;
  for_each DAILY_ALERT_THRESHOLDS (notify_threshold ratio).

Definition check : jin unit :=
  catch (checkKillSwitch ;;; checkDailyThresholds) (fun _ => Ret tt).
End Service.
End AlertMonitor.

(** ** budget.controller.ts *)

Record BudgetStatus := {
  bst_dailyUsageRatio : Qc;
  bst_dailyUsageUsd : Qc;
  bst_dailyUsageTokens : Z;
  bst_dailyLimitUsd : Qc;
  bst_dailyLimitTokens : Z;
  bst_killSwitch : KillSwitchStatus
}.

Module BudgetController.
Section Controller.
Context (cfg : BudgetConfig) (tzOffset : Z) `{Api : AuditApi}.

Definition UNPAUSE_APPROVER : string := "owner".

Definition getStatus : jin BudgetStatus :=
  let '(limitTokens, limitUsd) := Budget.getLimits cfg in
  dailyUsage <- Budget.getDailyUsage tzOffset ;;
  dailyUsageRatio <- Budget.getDailyUsageRatio cfg tzOffset ;;
  killSwitch <- KillSwitch.getStatus cfg tzOffset ;;
  Ret {| bst_dailyUsageRatio := dailyUsageRatio;
         bst_dailyUsageUsd := us_costUsd dailyUsage;
         bst_dailyUsageTokens := us_inputTokens dailyUsage + us_outputTokens dailyUsage;
         bst_dailyLimitUsd := limitUsd; bst_dailyLimitTokens := limitTokens;
         bst_killSwitch := killSwitch |}.

Definition unpause : jin unit :=
  KillSwitch.unpause ;;;
  requestId <- randomUUID ;;
  audit_approval requestId UNPAUSE_APPROVER "unpause" "n/a" ;;;
  Ret tt.
End Controller.
End BudgetController.

(** ** Properties *)

(** *** Arithmetic *)

Lemma qc_le_spec a b : qc_le a b = true <-> Qcle a b.
Proof. apply Qle_bool_iff. Qed.

Lemma qc_le_false a b : qc_le a b = false <-> Qclt b a.
Proof.
  unfold qc_le. rewrite <- not_true_iff_false, Qle_bool_iff.
  split; [apply Qnot_le_lt|apply Qlt_not_le].
Qed.

Lemma qc_of_Z_this z : (this (qc_of_Z z) == inject_Z z)%Q.
Proof. apply Qred_correct. Qed.

Lemma qc_of_Z_lt a b : Qclt (qc_of_Z a) (qc_of_Z b) <-> a < b.
Proof. unfold Qclt. rewrite !qc_of_Z_this. by rewrite <- Zlt_Qlt. Qed.

Lemma qc_of_Z_pos a : 0 < a -> Qclt 0 (qc_of_Z a).
Proof. intros. by apply (qc_of_Z_lt 0). Qed.

Lemma qc_mult_lt (c x y : Qc) : Qclt 0 c -> (Qclt (x * c) (y * c) <-> Qclt x y).
Proof.
  intros Hc. split; [|by apply Qcmult_lt_compat_r].
  intros H. apply Qcnot_le_lt. intros Hle. apply (Qclt_not_le _ _ H).
  apply Qcmult_le_compat_r; [done|by apply Qclt_le_weak].
Qed.

Lemma qc_mult_le (c x y : Qc) : Qclt 0 c -> (Qcle (x * c) (y * c) <-> Qcle x y).
Proof.
  intros Hc. split; [by apply Qcmult_lt_0_le_reg_r|].
  intros H. apply Qcmult_le_compat_r; [done|by apply Qclt_le_weak].
Qed.

Lemma qc_div_mult (a c : Qc) : Qclt 0 c -> (a / c * c = a)%Qc.
Proof.
  intros Hc. assert (c <> 0%Qc) by (intros ->; by apply Qclt_not_eq in Hc).
  by rewrite Qcmult_comm, Qcmult_div_r.
Qed.

(** [b <= a / c] for a positive [c]. *)
Lemma qc_le_div (a b c : Qc) : Qclt 0 c -> (Qcle b (a / c) <-> Qcle (b * c) a).
Proof. intros Hc. by rewrite <- (qc_mult_le c), qc_div_mult. Qed.

Lemma qc_max_le (x a b : Qc) : Qcle x (qc_max a b) <-> Qcle x a \/ Qcle x b.
Proof.
  unfold qc_max. destruct (qc_le a b) eqn:E.
  - apply qc_le_spec in E. split; [by right|]. intros [H|H]; [by eapply Qcle_trans|done].
  - apply qc_le_false, Qclt_le_weak in E. split; [by left|]. intros [H|H]; [done|by eapply Qcle_trans].
Qed.

(** A share [x] of the day is spent when a share [x] of either limit is. *)
Lemma ratio_reaches (c : BudgetConfig) daily x :
  budget_config_ok c ->
  Qcle x (computeDailyUsageRatio daily c) <->
  Qcle (x * qc_of_Z (dailyMaxTokens c)) (qc_of_Z (us_inputTokens daily + us_outputTokens daily)) \/
  Qcle (x * dailyMaxUsd c) (us_costUsd daily).
Proof.
  intros (_ & _ & HT & HU & _). unfold computeDailyUsageRatio.
  rewrite qc_max_le, !qc_le_div; [done|done|by apply qc_of_Z_pos].
Qed.

Definition today_usage (tzOffset : Z) (w : World) : UsageRow :=
  default no_usage (budget_daily_usage (w_budget w) !! todayLocalDate tzOffset (clock (w_sys w))).

(** The share [x] of the day's tokens or of the day's money is spent. *)
Definition spent (c : BudgetConfig) (tzOffset : Z) (x : Qc) (w : World) : Prop :=
  Qcle (x * qc_of_Z (dailyMaxTokens c))
       (qc_of_Z (us_inputTokens (today_usage tzOffset w) + us_outputTokens (today_usage tzOffset w))) \/
  Qcle (x * dailyMaxUsd c) (us_costUsd (today_usage tzOffset w)).

Lemma run_getDailyUsageRatio c tz w :
  run (Budget.getDailyUsageRatio c tz) w =
  if faulty w then (tick w, inl DbError)
  else (tick w, inr (computeDailyUsageRatio (today_usage tz w) c)).
Proof.
  unfold Budget.getDailyUsageRatio, Budget.getDailyUsage, db_read.
  rewrite !run_bind, run_now, run_db. by destruct (faulty w).
Qed.

(** C16. The limits hold before any model is called: [checkBeforeCall] lets a call
    through only if its session stays within both session limits and neither
    daily limit is reached, and then answers a remaining share above zero, at
    most 20% exactly when at least 80% of the day is spent; it refuses a call with the
    error of the limit that is reached, and fails if the database does.  It
    changes nothing. *)
Theorem checkBeforeCall_enforces_the_limits (c : BudgetConfig) (tzOffset : Z)
    (input : CheckBeforeCallInput) (w : World) :
  budget_config_ok c ->
  let '(w', r) := run (Budget.checkBeforeCall c tzOffset input) w in
  let session := default no_session_usage (sessionUsage (w_budget w) !! cbc_sessionId input) in
  let fits := su_inputTokens session + cbc_estimatedInputTokens input <= sessionMaxInputTokens c /\
              su_outputTokens session + cbc_maxOutputTokens input <= sessionMaxOutputTokens c in
  (w' = w \/ w' = tick w) /\
  match r with
  | inr remaining =>
      fits /\ ~ spent c tzOffset 1 w /\ Qclt 0 remaining /\
      (Qcle remaining LOW_BUDGET_REMAINING_THRESHOLD <-> spent c tzOffset (Q2Qc (8 # 10)) w)
  | inl (SessionBudgetExceededError s) => s = cbc_sessionId input /\ ~ fits
  | inl DailyBudgetExceededError => fits /\ spent c tzOffset 1 w
  | inl e => e = DbError /\ faulty w = true
  end.
Proof.
  intros Hc. unfold Budget.checkBeforeCall. rewrite run_bind. cbn [run Budget.getSessionUsage reads].
  set (session := default _ _). cbv zeta. unfold wouldExceedSessionBudget.
  destruct (Z.ltb_spec (sessionMaxInputTokens c) (su_inputTokens session + cbc_estimatedInputTokens input));
    [cbn [orb run]; split; [by left|split; [done|lia]]|].
  destruct (Z.ltb_spec (sessionMaxOutputTokens c) (su_outputTokens session + cbc_maxOutputTokens input));
    [cbn [orb run]; split; [by left|split; [done|lia]]|].
  cbn [orb]. rewrite run_bind, run_getDailyUsageRatio.
  destruct (faulty w); [split; [by right|done]|].
  set (used := computeDailyUsageRatio _ c).
  assert (Hspent : forall x, Qcle x used <-> spent c tzOffset x w) by (intros; by apply ratio_reaches).
  destruct (qc_le 1 used) eqn:E; cbn [run]; (split; [by right|]); (split; [done|]).
  - by apply Hspent, qc_le_spec.
  - apply qc_le_false in E. rewrite <- !Hspent. clear Hspent. clearbody used.
    assert (Hm : qc_max 0 (1 - used) = (1 - used)%Qc).
    { unfold qc_max. destruct (qc_le 0 (1 - used)) eqn:E2; [done|].
      apply qc_le_false in E2. exfalso. apply (Qclt_not_le _ _ E2).
      apply Qclt_le_weak in E. by apply Qcle_minus_iff in E. }
    rewrite Hm. splits.
    + by apply Qclt_not_le.
    + by apply Qclt_minus_iff in E.
    + unfold LOW_BUDGET_REMAINING_THRESHOLD.
      split; intros H1; apply Qcle_minus_iff in H1; apply Qcle_minus_iff.
      * replace (used + - Q2Qc (8 # 10))%Qc with (Q2Qc (2 # 10) + - (1 - used))%Qc; [done|].
        replace (Q2Qc (2 # 10)) with (1 - Q2Qc (8 # 10))%Qc by (by apply Qc_is_canon). ring.
      * replace (Q2Qc (2 # 10) + - (1 - used))%Qc with (used + - Q2Qc (8 # 10))%Qc; [done|].
        replace (Q2Qc (2 # 10)) with (1 - Q2Qc (8 # 10))%Qc by (by apply Qc_is_canon). ring.
Qed.

Definition lima : Z := -18000000.
Definition yaml_budget : BudgetConfig := {|
  sessionMaxInputTokens := 500000; sessionMaxOutputTokens := 100000; dailyMaxTokens := 5000000;
  dailyMaxUsd := qc_of_Z 10; runawayMultiplier := qc_of_Z 2; runawayLookbackHours := 24;
  runawayMinHourlyTokens := 500000 |}.

Lemma yaml_budget_ok : budget_config_ok yaml_budget.
Proof. by repeat split. Qed.

Lemma checkBeforeCall_enforces_the_limits_witness :
  budget_config_ok yaml_budget /\
  exists remaining,
    (run (Budget.checkBeforeCall yaml_budget lima
       {| cbc_sessionId := "s"; cbc_estimatedInputTokens := 100; cbc_maxOutputTokens := 8000 |})
       (empty_world 0)).2 = inr remaining /\ Qclt 0 remaining.
Proof.
  split; [exact yaml_budget_ok|].
  pose proof (checkBeforeCall_enforces_the_limits yaml_budget lima
    {| cbc_sessionId := "s"; cbc_estimatedInputTokens := 100; cbc_maxOutputTokens := 8000 |}
    (empty_world 0) yaml_budget_ok) as H.
  destruct (run _ _) as [w' [e|b]] eqn:E; [discriminate E|].
  exists b. split; [reflexivity|]. destruct H as (_ & _ & _ & H & _). exact H.
Defined.

(** *** The kill switch *)

Definition paused (w : World) : Prop :=
  exists row, budget_kill_switch (w_budget w) = Some row /\ ks_active row = true.

Definition stays_paused (w w' : World) : Prop := paused w -> paused w'.

#[export] Instance stays_paused_preorder : PreOrder stays_paused.
Proof.
  split; [by intros w H|]. intros w1 w2 w3 H12 H23 H1. by apply H23, H12.
Qed.

Create HintDb paused.

Lemma stays_paused_read {X} (f : World -> X) : steps stays_paused (db_read f).
Proof. apply steps_db_read. by intros w H. Qed.
Lemma stays_paused_emit e : steps stays_paused (emit e).
Proof. split; [by intros w H|done]. Qed.
Lemma stays_paused_reads {X} (f : World -> X) : steps stays_paused (reads f : jin X).
Proof. split; [by intros w H|done]. Qed.
Lemma stays_paused_now : steps stays_paused now.
Proof. split; [by intros w H|done]. Qed.
Lemma stays_paused_lift {X} (r : JinError + X) : steps stays_paused (Router.lift r).
Proof. by destruct r. Qed.

Lemma stays_paused_checked f :
  (forall w w', f w = Some w' -> stays_paused w w') -> steps stays_paused (db_checked f).
Proof.
  intros Hf. apply steps_bind; [|by intros []]. apply steps_db; [by intros w H|].
  intros w. destruct (f (tick w)) eqn:E; [|by intros H]. by apply Hf in E.
Qed.

Lemma stays_paused_daily today input cost : steps stays_paused (Budget.addDailyUsage today input cost).
Proof.
  apply stays_paused_checked. intros w w' H.
  destruct (add_usage _ _ _ _); [|done]. injection H as <-. by intros H.
Qed.

Lemma stays_paused_hourly bucket input cost : steps stays_paused (Budget.addHourlyUsage bucket input cost).
Proof.
  apply stays_paused_checked. intros w w' H.
  destruct (add_usage _ _ _ _); [|done]. injection H as <-. by intros H.
Qed.

Lemma stays_paused_session input : steps stays_paused (Budget.addSessionUsage input).
Proof. split; [by intros w H|done]. Qed.

#[export] Hint Resolve stays_paused_read stays_paused_emit stays_paused_reads stays_paused_now
  stays_paused_lift stays_paused_daily stays_paused_hourly stays_paused_session : paused.

(** One step of the proof that a method keeps the switch. *)
Ltac paused_tac :=
  repeat first
    [ progress intros
    | solve [eauto with paused]
    | apply steps_bind | apply steps_catch | apply steps_for_each
    | progress cbv zeta
    | match goal with |- steps _ (if ?b then _ else _) => destruct b end
    | match goal with |- steps _ (match ?b with _ => _ end) => destruct b end
    | exact I ].

Lemma stays_paused_detail c tz : steps stays_paused (KillSwitch.getHourUsageDetail c tz).
Proof. unfold KillSwitch.getHourUsageDetail. paused_tac. Qed.

Lemma stays_paused_isActive : steps stays_paused KillSwitch.isActive.
Proof. unfold KillSwitch.isActive. paused_tac. Qed.

Lemma stays_paused_ratio c tz : steps stays_paused (Budget.getDailyUsageRatio c tz).
Proof. unfold Budget.getDailyUsageRatio, Budget.getDailyUsage. paused_tac. Qed.

#[export] Hint Resolve stays_paused_detail stays_paused_isActive stays_paused_ratio : paused.

Lemma stays_paused_getStatus c tz : steps stays_paused (KillSwitch.getStatus c tz).
Proof. unfold KillSwitch.getStatus. paused_tac. Qed.

Lemma stays_paused_activate row :
  ks_active row = true -> steps stays_paused (KillSwitch.upsertState row).
Proof. intros Hr. apply steps_db; [by intros w H|]. intros w _. by exists row. Qed.

#[export] Hint Resolve stays_paused_getStatus stays_paused_activate : paused.

Lemma stays_paused_checkRunaway c tz : steps stays_paused (KillSwitch.checkRunaway c tz).
Proof. unfold KillSwitch.checkRunaway. paused_tac. Qed.

Lemma stays_paused_record c prices tz input : steps stays_paused (Budget.recordUsage c prices tz input).
Proof. unfold Budget.recordUsage. paused_tac. Qed.

Lemma stays_paused_alerts f : steps stays_paused (AlertMonitor.with_alerts f).
Proof. split; [by intros w H|done]. Qed.

#[export] Hint Resolve stays_paused_checkRunaway stays_paused_record stays_paused_alerts : paused.

Lemma stays_paused_monitor c tz : steps stays_paused (AlertMonitor.check c tz).
Proof.
  unfold AlertMonitor.check, AlertMonitor.checkKillSwitch, AlertMonitor.checkDailyThresholds,
    AlertMonitor.notify_threshold. paused_tac.
  split; [|done]. intros w H. by case_match.
Qed.

(** What the guard needs of the router: it leaves the kill switch alone. *)
Class ModelRouterLaws (Router : ModelRouterApi) := {
  router_complete_keeps t r h : steps stays_paused (router_complete t r h);
  router_completeStream_keeps t r (l : ModelStreamDeltaListener) h :
    (forall d s, steps stays_paused (l d s)) -> steps stays_paused (router_completeStream t r l h)
}.

(** The router of [Models.v] keeps that promise if the clients of the vendors do. *)
Definition provider_keeps (p : ModelProviderClient) : Prop :=
  (forall m r, steps stays_paused (pc_complete p m r)) /\
  (forall stream m r (l : ModelStreamDeltaListener),
     pc_completeStream p = Some stream -> (forall d s, steps stays_paused (l d s)) ->
     steps stays_paused (stream m r l)).

Lemma stays_paused_resolve profiles t h : steps stays_paused (Router.resolveCandidates profiles t h).
Proof.
  unfold Router.resolveCandidates, ChatPreference.getPreference, FeatureFlags.FeatureFlags.getModelOverride.
  paused_tac.
Qed.

Lemma stays_paused_writes f : (forall w, stays_paused w (f w)) -> steps stays_paused (writes f : jin unit).
Proof. by split. Qed.

Lemma stays_paused_sleep ms : steps stays_paused (sleep ms).
Proof. apply stays_paused_writes. by intros w H. Qed.
Lemma stays_paused_new_ref b : steps stays_paused (new_ref b).
Proof. split; [by intros w H|done]. Qed.
Lemma stays_paused_set_ref r b : steps stays_paused (set_ref r b).
Proof. apply stays_paused_writes. by intros w H. Qed.
Lemma stays_paused_get_ref r : steps stays_paused (get_ref r).
Proof. apply stays_paused_reads. Qed.

#[export] Hint Resolve stays_paused_resolve stays_paused_sleep stays_paused_new_ref
  stays_paused_set_ref stays_paused_get_ref : paused.

Lemma stays_paused_failover {T} ctx (P F : jin T) :
  steps stays_paused P -> steps stays_paused F ->
  steps stays_paused (Failover.executeWithFailover ctx P F).
Proof. intros. unfold Failover.executeWithFailover, Failover.retryOnce. paused_tac. Qed.

Lemma stays_paused_failoverStream {T} ctx (P F : ModelStreamDeltaListener -> jin T) l :
  (forall l', (forall d s, steps stays_paused (l' d s)) -> steps stays_paused (P l')) ->
  (forall l', (forall d s, steps stays_paused (l' d s)) -> steps stays_paused (F l')) ->
  (forall d s, steps stays_paused (l d s)) ->
  steps stays_paused (Failover.executeWithFailoverStream ctx P F l).
Proof.
  intros HP HF Hl. unfold Failover.executeWithFailoverStream, Failover.retryOnceStream.
  apply steps_bind; [eauto with paused|intros r].
  assert (Hg : forall d s, steps stays_paused (set_ref r true ;;; l d s)) by (paused_tac).
  paused_tac; auto.
Qed.

Lemma modelRouterService_laws profiles providers :
  (forall v, provider_keeps (providers v)) -> ModelRouterLaws (modelRouterService profiles providers).
Proof.
  intros Hp.
  assert (Hf : forall m p, Router.providerFor providers m = inr p -> provider_keeps p).
  { intros m p. unfold Router.providerFor.
    repeat (case_match; [by intros [= <-]|]). done. }
  assert (Hc : forall m r, steps stays_paused (p <- Router.lift (Router.providerFor providers m) ;;
                                               pc_complete p m r)).
  { intros m r. destruct (Router.providerFor providers m) as [|p] eqn:E; [done|]. by apply (Hf m p E). }
  constructor; cbn [router_complete router_completeStream modelRouterService].
  - intros t r h. unfold Router.complete. apply steps_bind; [apply stays_paused_resolve|].
    intros [[sel sec] eff]. by apply stays_paused_failover.
  - intros t r l h Hl. unfold Router.completeStream. apply steps_bind; [apply stays_paused_resolve|].
    intros [[sel sec] eff]. cbv zeta. set (r' := Router.withEffort r eff).
    assert (Hs : forall m (l' : ModelStreamDeltaListener), (forall d s, steps stays_paused (l' d s)) ->
              steps stays_paused (Router.completeOrStream providers m r' l')).
    { intros m l' Hl'. unfold Router.completeOrStream.
      destruct (Router.providerFor providers m) as [|p] eqn:E; [done|]. apply Hf in E as [H1 H2].
      cbn [bind Router.lift]. destruct (pc_completeStream p) eqn:E2; [by eapply H2|]. paused_tac. }
    apply stays_paused_failoverStream; auto.
Qed.

(** What runs against the budget, but the human's [unpause]. *)
Inductive budget_client `{Router : ModelRouterApi} (c : BudgetConfig) (prices : ModelPrices)
    (tz : Z) : jin unit -> Prop :=
| bc_complete t r h s : budget_client c prices tz (discard (GuardedRouter.complete c prices tz t r h s))
| bc_completeStream t r (l : ModelStreamDeltaListener) h s :
    (forall d x, steps stays_paused (l d x)) ->
    budget_client c prices tz (discard (GuardedRouter.completeStream c prices tz t r l h s))
| bc_checkRunaway : budget_client c prices tz (KillSwitch.checkRunaway c tz)
| bc_check : budget_client c prices tz (AlertMonitor.check c tz)
| bc_getStatus : budget_client c prices tz (discard (BudgetController.getStatus c tz)).

Section Latch.
Context {Router : ModelRouterApi} {Laws : ModelRouterLaws Router}.
Context (c : BudgetConfig) (prices : ModelPrices) (tz : Z).

Lemma stays_paused_uuid : steps stays_paused randomUUID.
Proof. split; [by intros w H|done]. Qed.

Lemma stays_paused_guarded call t r h s :
  (forall h', steps stays_paused (call h')) ->
  steps stays_paused (GuardedRouter.guarded_call c prices tz call t r h s).
Proof.
  intros Hc. pose proof stays_paused_uuid. unfold GuardedRouter.guarded_call, Budget.checkBeforeCall,
    Budget.getSessionUsage. paused_tac.
Qed.

Lemma budget_client_keeps p : budget_client c prices tz p -> steps stays_paused p.
Proof.
  intros []; unfold discard; try (apply steps_bind; [|done]).
  - apply stays_paused_guarded. intros; apply router_complete_keeps.
  - apply stays_paused_guarded. intros; by apply router_completeStream_keeps.
  - apply stays_paused_checkRunaway.
  - apply stays_paused_monitor.
  - unfold BudgetController.getStatus, Budget.getDailyUsage. paused_tac.
Qed.

Lemma run_guarded_paused call t r h s w :
  paused w ->
  run (GuardedRouter.guarded_call c prices tz call t r h s) w =
  (tick w, inl (if faulty w then DbError
                else KillSwitchActiveError "todas las llamadas al ModelProvider están pausadas")).
Proof.
  intros (row & Hrow & Ha). unfold GuardedRouter.guarded_call, KillSwitch.isActive, db_read.
  rewrite run_bind, run_db. destruct (faulty w); [done|].
  change (w_budget (tick w)) with (w_budget w). by rewrite Hrow, Ha.
Qed.

(** C9. The kill switch is a latch: once it is active, no interleaving of model
    calls, of its own sweep, of the alert monitor and of the status endpoint,
    however long, lifts it; and in every store reached that way a model call is
    refused before the router, with nothing changed. *)
Theorem only_unpause_lifts_the_kill_switch w0 (cf : config World JinError unit) :
  paused w0 -> reachable time_passes (budget_client c prices tz) w0 cf ->
  paused (c_store cf) /\
  forall t r l h s,
    let refused := (tick (c_store cf), inl (if faulty (c_store cf) then DbError else
      KillSwitchActiveError "todas las llamadas al ModelProvider están pausadas")) in
    run (GuardedRouter.complete c prices tz t r h s) (c_store cf) = refused /\
    run (GuardedRouter.completeStream c prices tz t r l h s) (c_store cf) = refused.
Proof.
  intros H0 Hr.
  assert (Hp : paused (c_store cf)).
  { eapply (pool_invariant time_passes _ paused); [apply budget_client_keeps| |exact H0|exact Hr].
    by intros w w' (t & _ & ->). }
  split; [done|]. intros t r l h s. split; by apply run_guarded_paused.
Qed.
End Latch.

(** A vendor that is down, and a store whose switch is active. *)
Definition down_provider : ModelProviderClient := {|
  pc_complete := fun _ _ => Throw (PlainError "down"); pc_completeStream := None |}.
Definition down_router : ModelRouterApi := modelRouterService ∅ (fun _ => down_provider).
Definition paused_world : World :=
  upd_budget (set_killSwitch (Some {| ks_active := true; ks_activatedAt := Some 0;
                                      ks_reason := Some "runaway" |})) (empty_world 0).

Lemma only_unpause_lifts_the_kill_switch_witness :
  paused paused_world /\
  exists cf, reachable time_passes (budget_client (Router := down_router) yaml_budget ∅ lima)
               paused_world cf /\ c_pool cf <> [] /\ paused (c_store cf).
Proof.
  assert (Laws : ModelRouterLaws down_router).
  { apply modelRouterService_laws. intros v. split; [done|intros; done]. }
  assert (Hp : paused paused_world) by (eexists; split; reflexivity).
  split; [exact Hp|].
  exists (Config paused_world ([] ++ [KillSwitch.checkRunaway yaml_budget lima])).
  assert (Hr : reachable time_passes (budget_client (Router := down_router) yaml_budget ∅ lima)
                 paused_world (Config paused_world ([] ++ [KillSwitch.checkRunaway yaml_budget lima]))).
  { eapply reach_step; [apply reach_init|apply step_spawn, bc_checkRunaway]. }
  split; [exact Hr|split; [discriminate|]].
  exact (proj1 (@only_unpause_lifts_the_kill_switch down_router Laws yaml_budget ∅ lima _ _ Hp Hr)).
Defined.

(** *** Accounting under concurrency *)

Section Accounting.
Context {E A : Type} (total : World -> Z).

(** [owes p n]: whatever else happens, [p] will add [n] to the total before it
    returns, never more, and never takes anything away. *)
Fixpoint owes {A} (p : prog World E A) (n : Z) : Prop :=
  match p with
  | Ret _ => n = 0
  | Throw _ => 0 <= n
  | Act f c => forall w, exists d, total (f w).1 = total w + d /\ 0 <= d <= n /\ owes (c (f w).2) (n - d)
  end.

Lemma owes_seq {B C} (p : prog World E B) (k : B -> prog World E C) n m :
  owes p n -> 0 <= m -> (forall a, owes (k a) m) -> owes (bind p k) (n + m).
Proof.
  intros Hp Hm Hk; revert n Hp; induction p as [a|e|X f q IH]; intros n Hp; cbn in *.
  - subst. apply Hk.
  - lia.
  - intros w. destruct (Hp w) as (d & Hd & Hn & Hq). exists d. split; [done|]. split; [lia|].
    replace (n + m - d) with (n - d + m) by lia. auto.
Qed.

Lemma owes_nothing {B} (p : prog World E B) :
  steps (fun w w' => total w' = total w) p -> owes p 0.
Proof.
  induction p as [a|e|X f q IH]; cbn; [done..|]. intros [Hf Hq] w.
  exists 0. rewrite Hf. split; [lia|]. split; [lia|]. apply IH, Hq.
Qed.

(** Nothing is lost and nothing counted twice by programs run together. *)
Lemma owes_pool w (l : list (prog World E A)) ns cf :
  (forall w w', time_passes w w' -> total w' = total w) ->
  Forall2 owes l ns ->
  rtc (pool_step time_passes (fun _ => False)) (Config w l) cf ->
  exists ns', Forall2 owes (c_pool cf) ns' /\
    total (c_store cf) + foldr Z.add 0 ns' = total w + foldr Z.add 0 ns.
Proof.
  intros Henv Hl Hr. remember (Config w l) as c0 eqn:Ec. revert w l ns Ec Hl.
  induction Hr as [c0|c0 c1 c2 Hs Hr IH]; intros w l ns -> Hl; [by exists ns|].
  inversion Hs as [w1 l1 l2 X f k|w1 l1 p []|w1 w2 l1 He]; subst.
  - apply Forall2_app_inv_l in Hl as (n1 & n2 & H1 & H2 & ->).
    apply Forall2_cons_inv_l in H2 as (n & n3 & Hp & H3 & ->).
    destruct (Hp w) as (d & Hd & Hn & Hk).
    destruct (IH _ _ (n1 ++ (n - d) :: n3) eq_refl) as (ns' & HF & Ht).
    { by apply Forall2_app; [|constructor]. }
    exists ns'. split; [done|]. rewrite Ht, Hd, !foldr_app. cbn.
    assert (Hfold : forall z l', foldr Z.add z l' = z + foldr Z.add 0 l')
      by (intros z l'; induction l'; cbn; lia).
    rewrite (Hfold _ n1), (Hfold (n + _) n1). lia.
  - destruct (IH _ _ ns eq_refl Hl) as (ns' & HF & Ht). exists ns'. split; [done|].
    by rewrite Ht, (Henv w).
Qed.
End Accounting.

Definition row_tokens (r : UsageRow) : Z := us_inputTokens r + us_outputTokens r.
Definition session_tokens (s : SessionUsage) : Z := su_inputTokens s + su_outputTokens s.
Definition daily_total (w : World) : Z := map_sum row_tokens (budget_daily_usage (w_budget w)).
Definition hourly_total (w : World) : Z := map_sum row_tokens (budget_hourly_usage (w_budget w)).
Definition session_total (w : World) : Z := map_sum session_tokens (sessionUsage (w_budget w)).
Definition input_tokens (i : RecordUsageInput) : Z := rui_inputTokens i + rui_outputTokens i.

Lemma int4_some n m : int4 n = Some m -> m = n.
Proof. unfold int4. case_match; naive_solver. Qed.

Lemma add_usage_tokens old i o cost row :
  add_usage old i o cost = Some row -> row_tokens row = opt_sum row_tokens old + (i + o).
Proof.
  unfold add_usage. intros (x & Hi%int4_some & H)%bind_Some.
  apply bind_Some in H as (y & Ho%int4_some & H). apply bind_Some in H as (z & _ & [= <-]).
  subst. unfold row_tokens; cbn. destruct old; cbn; lia.
Qed.

(** An upsert adds the tokens of its call, or fails and adds nothing. *)
Lemma owes_checked (total : World -> Z) f n :
  0 <= n -> (forall w, total (tick w) = total w) ->
  (forall w w', f w = Some w' -> total w' = total w + n) ->
  owes total (db_checked f) n.
Proof.
  intros Hn Ht Hf w. unfold db_act. destruct (faulty w).
  - exists 0. cbn. rewrite Ht. repeat split; lia.
  - destruct (f (tick w)) as [w'|] eqn:Ef; cbn.
    + exists n. apply Hf in Ef. rewrite Ef, Ht. repeat split; lia.
    + exists 0. rewrite Ht. repeat split; lia.
Qed.

Lemma owes_daily today i cost : 0 <= input_tokens i ->
  owes daily_total (Budget.addDailyUsage today i cost) (input_tokens i).
Proof.
  intros Hi. apply owes_checked; [done|done|]. intros w w' H.
  destruct (add_usage _ _ _ _) as [row|] eqn:E; [|done]. injection H as <-.
  apply add_usage_tokens in E. unfold daily_total; cbn. rewrite map_sum_insert, E.
  unfold input_tokens; lia.
Qed.

Lemma owes_hourly bucket i cost : 0 <= input_tokens i ->
  owes hourly_total (Budget.addHourlyUsage bucket i cost) (input_tokens i).
Proof.
  intros Hi. apply owes_checked; [done|done|]. intros w w' H.
  destruct (add_usage _ _ _ _) as [row|] eqn:E; [|done]. injection H as <-.
  apply add_usage_tokens in E. unfold hourly_total; cbn. rewrite map_sum_insert, E.
  unfold input_tokens; lia.
Qed.

Lemma owes_session i : 0 <= input_tokens i ->
  owes session_total (Budget.addSessionUsage i) (input_tokens i).
Proof.
  intros Hi w. exists (input_tokens i). cbn. split; [|lia].
  unfold session_total; cbn. rewrite map_sum_insert. unfold session_tokens at 3; cbn.
  destruct (sessionUsage (w_budget w) !! rui_sessionId i) as [s|]; cbn; unfold input_tokens, session_tokens; lia.
Qed.

(** A call adds to a total what its three writes add to it. *)
Lemma owes_record (total : World -> Z) c prices tz i ns nd nh :
  (forall w w', w_budget w' = w_budget w -> total w' = total w) -> 0 <= nd -> 0 <= nh ->
  owes total (Budget.addSessionUsage i) ns ->
  (forall today cost, owes total (Budget.addDailyUsage today i cost) nd) ->
  (forall bucket cost, owes total (Budget.addHourlyUsage bucket i cost) nh) ->
  0 <= ns ->
  owes total (discard (Budget.recordUsage c prices tz i)) (ns + (nd + nh)).
Proof.
  intros Hw Hd Hh Hs Hday Hhour Hns. unfold discard, Budget.recordUsage.
  rewrite <- (Z.add_0_r (ns + (nd + nh))). apply owes_seq; [|done|done].
  destruct (computeCostUsd _ _ _ _) as [e|cost]; [cbn; lia|]. cbn [bind Router.lift].
  apply owes_seq; [done|lia|]. intros _.
  assert (Hnow : owes (E := JinError) total now 0) by (apply owes_nothing; by split).
  rewrite <- (Z.add_0_l (nd + nh)). apply owes_seq; [done|lia|]. intros t.
  apply owes_seq; [done|lia|]. intros _.
  rewrite <- (Z.add_0_l nh). apply owes_seq; [done|lia|]. intros t'.
  rewrite <- (Z.add_0_r nh). apply owes_seq; [done|lia|]. intros _.
  apply owes_nothing. apply steps_bind; [by split; [auto|]|]. intros _.
  unfold Budget.getDailyUsageRatio, Budget.getDailyUsage.
  repeat (apply steps_bind; [|intros ?]); try done; try (by split; [auto|]).
  apply steps_db_read. auto.
Qed.

Lemma checked_nothing (total : World -> Z) f :
  (forall w, total (tick w) = total w) -> (forall w w', f w = Some w' -> total w' = total w) ->
  owes total (db_checked f) 0.
Proof. intros Ht Hf. apply owes_checked; [done|done|]. intros w w' H. rewrite (Hf w w' H). lia. Qed.

Ltac checked_nothing_tac :=
  apply checked_nothing; [done|]; intros w w' H; destruct (add_usage _ _ _ _); [|done];
  by injection H as <-.

Lemma owes_record_daily c prices tz i : 0 <= input_tokens i ->
  owes daily_total (discard (Budget.recordUsage c prices tz i)) (input_tokens i).
Proof.
  intros Hi. replace (input_tokens i) with (0 + (input_tokens i + 0)) by lia.
  apply owes_record; [|lia|lia| | | |lia].
  - intros w w' Hw. unfold daily_total. by rewrite Hw.
  - apply owes_nothing. by split.
  - intros. by apply owes_daily.
  - intros. checked_nothing_tac.
Qed.

Lemma owes_record_hourly c prices tz i : 0 <= input_tokens i ->
  owes hourly_total (discard (Budget.recordUsage c prices tz i)) (input_tokens i).
Proof.
  intros Hi. replace (input_tokens i) with (0 + (0 + input_tokens i)) by lia.
  apply owes_record; [|lia|lia| | | |lia].
  - intros w w' Hw. unfold hourly_total. by rewrite Hw.
  - apply owes_nothing. by split.
  - intros. checked_nothing_tac.
  - intros. by apply owes_hourly.
Qed.

Lemma owes_record_session c prices tz i : 0 <= input_tokens i ->
  owes session_total (discard (Budget.recordUsage c prices tz i)) (input_tokens i).
Proof.
  intros Hi. replace (input_tokens i) with (input_tokens i + (0 + 0)) by lia.
  apply owes_record; [|lia|lia| | | |lia].
  - intros w w' Hw. unfold session_total. by rewrite Hw.
  - by apply owes_session.
  - intros. checked_nothing_tac.
  - intros. checked_nothing_tac.
Qed.

Definition in_flight c prices tz (inputs : list RecordUsageInput) : list (jin unit) :=
  map (fun i => discard (Budget.recordUsage c prices tz i)) inputs.

(** Between nothing and everything is counted at any time; everything at the end. *)
Lemma owes_total (total : World -> Z) c prices tz inputs w cf :
  (forall i, 0 <= input_tokens i -> owes total (discard (Budget.recordUsage c prices tz i)) (input_tokens i)) ->
  (forall w w', time_passes w w' -> total w' = total w) ->
  Forall (fun i => 0 <= input_tokens i) inputs ->
  rtc (pool_step time_passes (fun _ => False)) (Config w (in_flight c prices tz inputs)) cf ->
  Forall (fun p => p = Ret tt) (c_pool cf) ->
  total (c_store cf) = total w + foldr Z.add 0 (map input_tokens inputs).
Proof.
  intros Howe Htime Hin Hr Hend.
  destruct (owes_pool total w (in_flight c prices tz inputs) (map input_tokens inputs) cf Htime)
    as (ns' & HF & Ht); [|done|].
  - clear Hr. induction Hin; cbn; constructor; auto.
  - assert (Hz : foldr Z.add 0 ns' = 0).
    { clear Ht Hr. induction HF as [|p n l ns Hp HF IH]; [done|].
      apply Forall_cons in Hend as [-> Hend]. cbn in Hp |- *. rewrite IH by done. lia. }
    lia.
Qed.

(** C11. Usage is never lost to concurrency: when any number of [recordUsage] calls
    run interleaved statement by statement and all of them return, the tokens of
    the daily table, of the hourly table and of the sessions have each grown by
    exactly the tokens of all the calls. *)
Theorem concurrent_usage_is_never_lost (c : BudgetConfig) (prices : ModelPrices) (tzOffset : Z)
    (inputs : list RecordUsageInput) (w : World) (cf : config World JinError unit) :
  Forall (fun i => 0 <= input_tokens i) inputs ->
  rtc (pool_step time_passes (fun _ => False))
      (Config w (map (fun i => discard (Budget.recordUsage c prices tzOffset i)) inputs)) cf ->
  Forall (fun p => p = Ret tt) (c_pool cf) ->
  let used := foldr Z.add 0 (map input_tokens inputs) in
  daily_total (c_store cf) = daily_total w + used /\
  hourly_total (c_store cf) = hourly_total w + used /\
  session_total (c_store cf) = session_total w + used.
Proof.
  intros Hin Hr Hend used. splits; eapply owes_total; eauto.
  1: apply owes_record_daily. 2: apply owes_record_hourly. 3: apply owes_record_session.
  all: by intros w1 w2 (t & _ & ->).
Qed.

Definition usage_of (session : string) (n : Z) : RecordUsageInput := {|
  rui_sessionId := session; rui_modelId := "claude-haiku-4-5-20251001"; rui_taskProfile := "chat";
  rui_inputTokens := n; rui_outputTokens := 1 |}.
Definition haiku_prices : ModelPrices :=
  {[ "claude-haiku-4-5" := {| mp_inputPerMillion := 1%Qc; mp_outputPerMillion := qc_of_Z 5 |} ]}.

Lemma concurrent_usage_is_never_lost_witness :
  let inputs := [usage_of "a" 100; usage_of "b" 200] in
  Forall (fun i => 0 <= input_tokens i) inputs /\
  exists cf,
    rtc (pool_step time_passes (fun _ => False))
      (Config (empty_world 0) (map (fun i => discard (Budget.recordUsage yaml_budget haiku_prices lima i)) inputs)) cf /\
    daily_total (c_store cf) = 302.
Proof.
  intros inputs.
  assert (Hin : Forall (fun i => 0 <= input_tokens i) inputs) by (repeat constructor; discriminate).
  split; [exact Hin|].
  set (p1 := discard (Budget.recordUsage yaml_budget haiku_prices lima (usage_of "a" 100))).
  set (p2 := discard (Budget.recordUsage yaml_budget haiku_prices lima (usage_of "b" 200))).
  destruct (run p1 (empty_world 0)) as [w1 r1] eqn:E1.
  destruct (run p2 w1) as [w2 r2] eqn:E2.
  assert (H1 : r1 = inr tt).
  { change r1 with (w1, r1).2. rewrite <- E1. vm_compute. reflexivity. }
  assert (H2 : r2 = inr tt).
  { change r2 with (w2, r2).2. rewrite <- E2. change w1 with (w1, r1).1. rewrite <- E1.
    vm_compute. reflexivity. }
  subst r1 r2.
  assert (Hr : rtc (pool_step time_passes (fun _ => False)) (Config (empty_world 0) [p1; p2])
                   (Config w2 [Ret tt; Ret tt])).
  { etrans; [exact (pool_run time_passes _ (empty_world 0) [] [p2] p1 w1 tt E1)|].
    exact (pool_run time_passes _ w1 [Ret tt] [] p2 w2 tt E2). }
  exists (Config w2 [Ret tt; Ret tt]). split; [exact Hr|].
  exact (proj1 (concurrent_usage_is_never_lost yaml_budget haiku_prices lima inputs (empty_world 0)
    (Config w2 [Ret tt; Ret tt]) Hin Hr ltac:(by repeat constructor))).
Defined.

(** *** Runaways *)

Definition in_window (start bucket : Z) (kv : Z * UsageRow) : Prop := start <= kv.1 /\ kv.1 < bucket.

#[export] Instance in_window_dec start bucket kv : Decision (in_window start bucket kv).
Proof. unfold in_window. apply _. Defined.

Lemma total_tokens_sum rows : total_tokens rows = foldr (fun r acc => row_tokens r + acc) 0 rows.
Proof.
  unfold total_tokens. set (g := fun sum hour => _).
  assert (H : forall s, foldl g s rows = s + foldr (fun r acc => row_tokens r + acc) 0 rows).
  { induction rows as [|r rows IH]; intros s; cbn; [lia|].
    rewrite IH. unfold g, row_tokens. lia. }
  by rewrite H.
Qed.

Lemma lookback_total start bucket m :
  total_tokens (KillSwitch.lookback_rows start bucket m) =
  map_sum row_tokens (filter (in_window start bucket) m).
Proof.
  rewrite total_tokens_sum, map_sum_filter. unfold KillSwitch.lookback_rows. f_equal. f_equal.
  induction (map_to_list m) as [|kv l IH]; [done|]. rewrite filter_cons. cbn [List.filter].
  unfold in_window at 1. destruct (decide _) as [[H1 H2]|H].
  - assert ((start <=? kv.1) && (kv.1 <? bucket) = true) as -> by lia. by rewrite IH.
  - assert ((start <=? kv.1) && (kv.1 <? bucket) = false) as -> by lia. done.
Qed.

Lemma isRunawayDetected_spec c current rows :
  budget_config_ok c ->
  isRunawayDetected current rows c = true <->
  runawayMinHourlyTokens c <= current /\ 0 < total_tokens rows /\
  Qclt (qc_of_Z (total_tokens rows) * runawayMultiplier c)
       (qc_of_Z current * qc_of_Z (runawayLookbackHours c)).
Proof.
  intros (_ & _ & _ & _ & Hm & Hl & Hf). apply qc_of_Z_pos in Hl. unfold isRunawayDetected.
  set (L := qc_of_Z (runawayLookbackHours c)) in *.
  destruct rows as [|r rows]; [cbn; naive_solver lia|]. cbn [length Nat.eqb].
  destruct (Z.ltb_spec current (runawayMinHourlyTokens c)); [naive_solver lia|].
  set (total := total_tokens _). cbv zeta.
  assert (H0 : qc_le (qc_of_Z total / L) 0 = false <-> 0 < total).
  { rewrite qc_le_false, <- (qc_mult_lt L), qc_div_mult, Qcmult_0_l by done. apply (qc_of_Z_lt 0). }
  destruct (qc_le (qc_of_Z total / L) 0); [naive_solver|].
  rewrite qc_lt_spec, <- (qc_mult_lt L) by done.
  replace (qc_of_Z total / L * runawayMultiplier c * L)%Qc
    with (qc_of_Z total / L * L * runawayMultiplier c)%Qc by ring.
  rewrite qc_div_mult by done. naive_solver.
Qed.

Lemma currentHourBucket_spec tz t :
  currentHourBucket tz t <= t < currentHourBucket tz t + ms_per_hour.
Proof.
  unfold currentHourBucket, ms_per_hour.
  pose proof (Z.div_mod (t + tz) 3600000 ltac:(lia)).
  pose proof (Z.mod_pos_bound (t + tz) 3600000 ltac:(lia)). lia.
Qed.

(** The sweep pauses the models exactly on a runaway: on a store where the
    switch is off and the database works, it activates it if and only if the
    tokens of the current hour reach the absolute floor and exceed the configured
    multiple of the hourly average of the previous [runawayLookbackHours] hours,
    counted over the whole window and requiring some usage in it; and it never
    touches the usage tables. *)
Lemma checkRunaway_pauses_only_on_a_runaway (c : BudgetConfig) (tzOffset : Z) (w : World) :
  budget_config_ok c -> healthy w -> ~ paused w ->
  let bucket := currentHourBucket tzOffset (clock (w_sys w)) in
  let start := bucket - runawayLookbackHours c * ms_per_hour in
  let hours := budget_hourly_usage (w_budget w) in
  let current := opt_sum row_tokens (hours !! bucket) in
  let previous := map_sum row_tokens (filter (in_window start bucket) hours) in
  let w' := (run (KillSwitch.checkRunaway c tzOffset) w).1 in
  (paused w' <->
     runawayMinHourlyTokens c <= current /\ 0 < previous /\
     Qclt (qc_of_Z previous * runawayMultiplier c) (qc_of_Z current * qc_of_Z (runawayLookbackHours c))) /\
  budget_daily_usage (w_budget w') = budget_daily_usage (w_budget w) /\
  budget_hourly_usage (w_budget w') = budget_hourly_usage (w_budget w).
Proof.
  intros Hc Hh Hp. cbv zeta.
  set (bucket := currentHourBucket _ _). set (start := bucket - _).
  rewrite <- lookback_total. set (rows := KillSwitch.lookback_rows start bucket _).
  rewrite <- (isRunawayDetected_spec c _ rows Hc).
  unfold KillSwitch.checkRunaway, KillSwitch.isActive, KillSwitch.getHourUsageDetail, db_read.
  rewrite run_bind, run_db_ok by done. cbn [fst snd].
  change (w_budget (tick w)) with (w_budget w).
  replace (match budget_kill_switch (w_budget w) with Some row => ks_active row | None => false end)
    with false.
  2: { destruct (budget_kill_switch (w_budget w)) as [row|] eqn:E; [|done].
       destruct (ks_active row) eqn:E2; [|done]. exfalso. apply Hp. by exists row. }
  rewrite !run_bind, run_now, run_bind, run_db_ok by done.
  change (currentHourBucket tzOffset (clock (w_sys (tick w)))) with bucket. cbv zeta.
  rewrite run_bind, run_db_ok by done. cbn [run].
  replace (bucket - runawayLookbackHours c * 60 * 60 * 1000) with start
    by (subst start; unfold ms_per_hour; lia).
  cbn [w_budget tick upd_sys]. fold rows.
  replace (KillSwitch.hour_tokens (budget_hourly_usage (w_budget w) !! bucket))
    with (opt_sum row_tokens (budget_hourly_usage (w_budget w) !! bucket)) by (by destruct (_ !! bucket)).
  destruct (isRunawayDetected _ rows c) eqn:E; cbn [run fst].
  - rewrite run_bind, run_now, run_bind. unfold KillSwitch.upsertState, db_write.
    rewrite run_db_ok by done. cbn. splits; [|done..]. split; [done|].
    intros _. eexists. split; reflexivity.
  - splits; [|done..]. by split.
Qed.

Definition busy_world : World :=
  upd_budget (set_hourly {[ 0 := {| us_inputTokens := 600000; us_outputTokens := 0; us_costUsd := 0%Qc |};
                            -3600000 := {| us_inputTokens := 4800; us_outputTokens := 0; us_costUsd := 0%Qc |} ]})
             (empty_world 60000).

Lemma checkRunaway_pauses_only_on_a_runaway_witness :
  budget_config_ok yaml_budget /\ healthy busy_world /\ ~ paused busy_world /\
  paused (run (KillSwitch.checkRunaway yaml_budget lima) busy_world).1.
Proof.
  assert (Hp : ~ paused busy_world) by (by intros (row & H & _)).
  split; [exact yaml_budget_ok|split; [intros n; reflexivity|split; [exact Hp|]]].
  apply (proj1 (checkRunaway_pauses_only_on_a_runaway yaml_budget lima busy_world yaml_budget_ok
    (fun n => eq_refl) Hp)).
  split; [vm_compute; discriminate|split; [vm_compute; reflexivity|vm_compute; reflexivity]].
Defined.

(** *** Prices *)

Lemma substring_prefix a b : String.substring 0 (String.length a) (a +:+ b) = a.
Proof. induction a as [|x a IH]; cbn; [by destruct b|by rewrite IH]. Qed.

Lemma substring_all a : String.substring 0 (String.length a) a = a.
Proof. rewrite <- (string_app_nil_r a) at 2. apply substring_prefix. Qed.

Lemma substring_suffix a b : String.substring (String.length a) (String.length b) (a +:+ b) = b.
Proof. induction a as [|x a IH]; cbn; [apply substring_all|done]. Qed.

Lemma substring_split k m :
  (k <= String.length m)%nat ->
  m = String.substring 0 k m +:+ String.substring k (String.length m - k) m.
Proof.
  revert k; induction m as [|x m IH]; intros k Hk; cbn in *; [by replace k with 0%nat by lia|].
  destruct k as [|k]; cbn; [by rewrite substring_all|].
  rewrite <- (IH k) by lia. done.
Qed.

(** [ds] is a date suffix [YYYYMMDD]. *)
Definition date_digits (ds : string) : Prop :=
  String.length ds = 8%nat /\ forallb is_digit (String.list_ascii_of_string ds) = true.

Definition one_line (s : string) : Prop :=
  existsb is_line_end (String.list_ascii_of_string s) = false.

Lemma list_ascii_length s : length (String.list_ascii_of_string s) = String.length s.
Proof. induction s; cbn; congruence. Qed.

Lemma dated_alias_some m alias :
  dated_alias m = Some alias ->
  exists ds, m = alias +:+ "-" +:+ ds /\ date_digits ds.
Proof.
  unfold dated_alias. set (k := (String.length m - 9)%nat).
  destruct (String.list_ascii_of_string (String.substring k 9 m)) as [|c ds] eqn:E; [done|].
  destruct c as [[] [] [] [] [] [] [] []]; try done.
  destruct (length ds =? 8)%nat eqn:E8; [|done]. cbn [andb].
  destruct (forallb is_digit ds) eqn:Ed; [|done]. cbn [andb].
  destruct (truthy (String.substring 0 k m)) eqn:Et; [|done]. cbn [andb].
  destruct (existsb _ _); [done|]. intros [= <-].
  exists (String.string_of_list_ascii ds). unfold date_digits.
  rewrite <- list_ascii_length, String.list_ascii_of_string_of_list_ascii.
  split; [|by apply Nat.eqb_eq in E8].
  assert (Hk : (9 <= String.length m)%nat).
  { destruct (Nat.le_gt_cases 9 (String.length m)); [done|].
    subst k. rewrite (proj2 (Nat.sub_0_le _ _)) in Et by lia. by destruct m. }
  rewrite (substring_split k m) at 1 by lia. f_equal.
  replace (String.length m - k)%nat with 9%nat by lia.
  rewrite <- (String.string_of_list_ascii_of_string (String.substring k 9 m)), E. done.
Qed.

Lemma dated_alias_complete alias ds :
  truthy alias = true -> one_line alias -> date_digits ds ->
  dated_alias (alias +:+ "-" +:+ ds) = Some alias.
Proof.
  intros Ht Hl [Hlen Hd]. unfold dated_alias.
  assert (Hk : (String.length (alias +:+ "-" +:+ ds) - 9 = String.length alias)%nat)
    by (rewrite string_length_app; cbn; lia).
  rewrite Hk, substring_prefix.
  pose proof (substring_suffix alias ("-" +:+ ds)) as Hs. cbn [String.length String.append] in Hs.
  rewrite Hlen in Hs. cbn [String.append]. rewrite Hs. cbn [String.list_ascii_of_string].
  rewrite list_ascii_length, Hlen, Hd, Ht, Hl. done.
Qed.

(** Every call is priced by its own model: the price used is that of the exact
    id or, when the id has none, that of the alias it dates with [-YYYYMMDD], so a
    loose prefix never lends its price; and the error is thrown only when neither
    has a price. *)
Lemma price_is_exact_or_of_the_dated_alias (prices : ModelPrices) (modelId : string)
    (inputTokens outputTokens : Z) :
  match computeCostUsd prices modelId inputTokens outputTokens with
  | inr cost =>
      exists price,
        (cost * qc_of_Z 1000000 = qc_of_Z inputTokens * mp_inputPerMillion price +
                                  qc_of_Z outputTokens * mp_outputPerMillion price)%Qc /\
        ((prices !! modelId : option ModelPrice) = Some price \/
         (prices !! modelId : option ModelPrice) = None /\
         exists alias ds, modelId = alias +:+ "-" +:+ ds /\ date_digits ds /\
                          (prices !! alias : option ModelPrice) = Some price)
  | inl _ =>
      (prices !! modelId : option ModelPrice) = None /\
      forall alias ds, modelId = alias +:+ "-" +:+ ds -> date_digits ds -> truthy alias = true ->
        one_line alias -> (prices !! alias : option ModelPrice) = None
  end.
Proof.
  unfold computeCostUsd.
  assert (Hcost : forall price,
    ((qc_of_Z inputTokens / qc_of_Z 1000000 * mp_inputPerMillion price +
      qc_of_Z outputTokens / qc_of_Z 1000000 * mp_outputPerMillion price) * qc_of_Z 1000000 =
     qc_of_Z inputTokens * mp_inputPerMillion price + qc_of_Z outputTokens * mp_outputPerMillion price)%Qc).
  { intros price. set (M := qc_of_Z 1000000). assert (HM : Qclt 0 M) by done.
    rewrite <- (qc_div_mult (qc_of_Z inputTokens) M HM) at 2.
    rewrite <- (qc_div_mult (qc_of_Z outputTokens) M HM) at 2. ring. }
  unfold resolvePrice. destruct (prices !! modelId : option ModelPrice) as [price|] eqn:E.
  - exists price. split; [apply Hcost|by left].
  - destruct (dated_alias modelId) as [alias|] eqn:Ea.
    + apply dated_alias_some in Ea as (ds & Hm & Hds).
      destruct (prices !! alias : option ModelPrice) as [price|] eqn:Ep.
      * exists price. split; [apply Hcost|right]. split; [done|]. by exists alias, ds.
      * split; [done|]. intros alias' ds' Hm' Hds' Ht Hl.
        pose proof (dated_alias_complete _ _ Ht Hl Hds') as H1. rewrite <- Hm' in H1.
        assert (alias' = alias) as ->; [|done].
        apply (f_equal (dated_alias)) in Hm as Hm2. rewrite H1 in Hm2.
        destruct Hds as [Hl1 _], Hds' as [Hl2 _]. rewrite Hm in Hm'.
        apply string_app_inj_length in Hm' as [-> _]; [done|].
        apply (f_equal String.length) in Hm'. rewrite !string_length_app in Hm'. cbn in Hm'. lia.
    + split; [done|]. intros alias ds -> Hds Ht Hl. by rewrite dated_alias_complete in Ea.
Qed.

(** *** Alerts

    The budget resets at midnight, local time; the alerts of the day are forgotten
    at midnight UTC.  In Lima, a threshold crossed in the evening is remembered
    until the next evening, so the same threshold crossed the next morning raises
    no alert. *)
Definition spent_row : UsageRow :=
  {| us_inputTokens := 4500000; us_outputTokens := 0; us_costUsd := 0%Qc |}.

(** 2026-09-22 at 20:00 in Lima, with 90% of the day's tokens spent. *)
Definition alert_evening : World :=
  upd_budget (set_daily {[ "2026-09-22" := spent_row ]}) (empty_world 1790125200000).

(** The next morning at 10:00, with 90% of the new day's tokens spent. *)
Definition alert_morning : World :=
  advance 1790175600000 (upd_budget (fun b => set_daily (<["2026-09-23" := spent_row]> (budget_daily_usage b)) b)
    (run (AlertMonitor.check yaml_budget lima) alert_evening).1).

Definition threshold_alerts (w : World) : nat :=
  length (List.filter (fun e => match e with BUDGET_THRESHOLD_CROSSED_EVENT _ _ => true | _ => false end)
                      (w_events w)).

Example next_day_threshold_is_silent :
  todayLocalDate lima (clock (w_sys alert_evening)) = "2026-09-22" /\
  todayLocalDate lima (clock (w_sys alert_morning)) = "2026-09-23" /\
  threshold_alerts alert_morning = 1%nat /\
  threshold_alerts (run (AlertMonitor.check yaml_budget lima) alert_morning).1 = 1%nat.
Proof. vm_compute. done. Qed.
