(* ===== verification/Frame.v ===== *)
(** * Frame: what the methods of the services leave alone

    A projection [f] of the store is unchanged by a method if it is unchanged by
    each of its actions.  [frame_tac] proves it of a method from the hints of
    the database [frames] on the methods it calls. *)
From S2P Require Import Prelude Effects Js Registry Store AuditApi AuditLog Hitl Autonomy FeatureFlags Models Budget.
Local Open Scope stdpp_scope.
Local Open Scope Z_scope.
Local Open Scope jin_scope.

Definition unchanged {X} (f : World -> X) (w w' : World) : Prop := f w' = f w.

#[export] Instance unchanged_preorder {X} (f : World -> X) : PreOrder (unchanged f).
Proof. split; [done|]. intros w1 w2 w3. unfold unchanged. congruence. Qed.

(** The ledger of the orchestrator. *)
Abbreviation keeps_ledger := (steps (unchanged w_ledger)).

Lemma keeps_ledger_db {X} (f : World -> World * X) :
  (forall w, w_ledger (f w).1 = w_ledger w) -> keeps_ledger (db f).
Proof. intros H. apply steps_db; [done|]. intros w. unfold unchanged. by rewrite H. Qed.

Lemma keeps_ledger_read {X} (f : World -> X) : keeps_ledger (db_read f).
Proof. by apply keeps_ledger_db. Qed.
Lemma keeps_ledger_reads {X} (f : World -> X) : keeps_ledger (reads f : jin X).
Proof. by split. Qed.
Lemma keeps_ledger_now : keeps_ledger now.
Proof. by split. Qed.
Lemma keeps_ledger_uuid : keeps_ledger randomUUID.
Proof. by split. Qed.
Lemma keeps_ledger_emit e : keeps_ledger (emit e).
Proof. by split. Qed.
Lemma keeps_ledger_observe e : keeps_ledger (observe e).
Proof. by split. Qed.
Lemma keeps_ledger_lift {X} (r : JinError + X) : keeps_ledger (Router.lift r).
Proof. by destruct r. Qed.
Lemma keeps_ledger_appends data p : appends data p -> keeps_ledger p.
Proof.
  intros [H _ _ _ _]. eapply steps_mono; [|exact H].
  by intros w w' [[= _ _ _ _ _ _ _ _ _ _ _ Hl _] _].
Qed.

Create HintDb frames.
#[export] Hint Resolve keeps_ledger_read keeps_ledger_reads keeps_ledger_now keeps_ledger_uuid
  keeps_ledger_emit keeps_ledger_observe keeps_ledger_lift : frames.
#[export] Hint Extern 2 (steps (unchanged w_ledger) (audit_toolCall _ _ _ _ _ _ _)) =>
  (eapply keeps_ledger_appends, audit_toolCall_appends) : frames.

Ltac frame_tac :=
  repeat first
    [ progress intros
    | solve [auto with frames]
    | apply steps_bind | apply steps_catch | apply steps_try_with | apply steps_for_each
    | progress cbv zeta
    | match goal with |- steps _ (if ?b then _ else _) => destruct b end
    | match goal with |- steps _ (match ?b with _ => _ end) => destruct b end
    | exact I ].

Section Ledger.
Context `{Laws : AuditApiLaws} `{Crypto : NodeCrypto}.

Lemma keeps_ledger_create input : keeps_ledger (DualConfirm.createPendingApproval input).
Proof.
  unfold DualConfirm.createPendingApproval. frame_tac. unfold insertPending. frame_tac.
  apply keeps_ledger_db. intros w. by case_match.
Qed.

Lemma keeps_ledger_relax autonomy d tool : keeps_ledger (Autonomy.relax autonomy d tool).
Proof.
  unfold Autonomy.relax, Autonomy.getState, Autonomy.getState_at, Autonomy.bumpRelaxedCounter,
    Autonomy.applyRestrictiveChange, Autonomy.writeState, Autonomy.getState_at.
  frame_tac; apply keeps_ledger_db; [|done..]. intros w. by case_match.
Qed.

#[local] Hint Resolve keeps_ledger_relax : frames.

Lemma keeps_ledger_decide autonomy toolName inputs :
  keeps_ledger (HitlPolicy.decide autonomy toolName inputs).
Proof.
  unfold HitlPolicy.decide, classifyToolCall, FeatureFlags.resolveEffectiveLevel.
  frame_tac.
Qed.
End Ledger.

#[export] Hint Resolve keeps_ledger_create keeps_ledger_relax keeps_ledger_decide : frames.
