(* ===== verification/TerminalClient.v ===== *)
(** * TerminalClient: the requests of the owner's terminal to the executor

    [src/terminal/terminal-executor.client.ts], [src/terminal/terminal.errors.ts]
    and [src/terminal/terminal.constants.ts].  The executor is another program:
    [fetch] records the request and answers what an oracle of the store says,
    which may be a network failure or a response with any status. *)
From S2P Require Import Prelude Effects Js Text Registry Store AuditApi.
Local Open Scope stdpp_scope.
Local Open Scope Z_scope.
Local Open Scope jin_scope.

(** ** terminal.constants.ts *)

Definition START_TERMINAL_SESSION_TOOL : string := "startTerminalSession".
Definition EXPOSE_TERMINAL_SESSION_TOOL : string := "exposeTerminalSession".
Definition RUN_TERMINAL_COMMAND_TOOL : string := "runTerminalCommand".
Definition STOP_TERMINAL_SESSION_TOOL : string := "stopTerminalSession".
Definition DELETE_TERMINAL_WORKSPACE_TOOL : string := "deleteTerminalWorkspace".
Definition OPEN_TERMINAL_PTY_TOOL : string := "openTerminalPty".
Definition CLOSE_TERMINAL_PTY_TOOL : string := "closeTerminalPty".
Definition PTY_RING_BYTES : Z := 256 * 1024.
Definition PTY_KEEPALIVE_DEFAULT_MS : Z := 60 * 60 * 1000.
Definition PTY_KEEPALIVE_MIN_MS : Z := 5 * 60 * 1000.
Definition PTY_KEEPALIVE_MAX_MS : Z := 4 * 60 * 60 * 1000.
Definition WRITE_TERMINAL_FILE_TOOL : string := "writeTerminalFile".
Definition MAKE_TERMINAL_DIR_TOOL : string := "makeTerminalDir".
Definition DELETE_TERMINAL_ENTRY_TOOL : string := "deleteTerminalEntry".
Definition TERMINAL_ACTOR : string := "owner:terminal".
Definition AUDIT_COMMAND_PREVIEW_LENGTH : nat := 120.

(** ** HTTP *)

Record HttpRequest := { rq_method : string; rq_url : string; rq_body : option json }.

(** What [fetch] does: it rejects, or it answers. *)
Inductive HttpAnswer :=
| net_failure
| response (status : Z) (jin_proxied : bool) (body : string).

Record HttpState := {
  h_requests : list HttpRequest;     (* the requests so far, in order *)
  h_answer : nat -> HttpRequest -> HttpAnswer   (* the answer to the n-th request *)
}.

Record Response := { rs_status : Z; rs_proxied : bool; rs_text : string }.
Definition rs_ok (r : Response) : bool := (200 <=? rs_status r) && (rs_status r <? 300).

(** A stateful service that calls the executor: its own state, the requests and
    the store of the other services. *)
Record TermWorld (St : Type) := { tm_world : World; tm_http : HttpState; tm_state : St }.
Arguments tm_world {St}. Arguments tm_http {St}. Arguments tm_state {St}.

Section Client.
Context {St : Type}.
Abbreviation term := (prog (TermWorld St) JinError).

Definition put_world (w : World) (v : TermWorld St) : TermWorld St :=
  {| tm_world := w; tm_http := tm_http v; tm_state := tm_state v |}.
Definition put_state (s : St) (v : TermWorld St) : TermWorld St :=
  {| tm_world := tm_world v; tm_http := tm_http v; tm_state := s |}.
Definition add_request (r : HttpRequest) (v : TermWorld St) : TermWorld St :=
  {| tm_world := tm_world v;
     tm_http := {| h_requests := h_requests (tm_http v) ++ [r]; h_answer := h_answer (tm_http v) |};
     tm_state := tm_state v |}.

(** A call of a service of Core, and a synchronous stretch of the service's own
    code, which may throw. *)
Definition service {A} (p : jin A) : term A := zoom tm_world put_world p.
Definition sync {X} (f : TermWorld St -> TermWorld St * (JinError + X)) : term X :=
  Act f (fun r => match r with inl e => Throw e | inr x => Ret x end).

Definition fetch (r : HttpRequest) : term HttpAnswer :=
  Act (fun v => (add_request r v, h_answer (tm_http v) (length (h_requests (tm_http v))) r)) Ret.

(** ** terminal.errors.ts *)

Definition PASSTHROUGH_STATUSES : list Z := [400; 404; 409; 422; 429].

Definition new_TerminalUpstreamError (upstreamStatus : Z) (message : string)
    (upstreamCode : option string) : JinError :=
  let fs := match upstreamCode with Some c => String.prefix "TERMINAL_FS_" c | None => false end in
  TerminalUpstreamError
    (match upstreamCode with Some c => if fs then c else "TERMINAL_UPSTREAM_ERROR" | None => "TERMINAL_UPSTREAM_ERROR" end)
    (if existsb (Z.eqb upstreamStatus) PASSTHROUGH_STATUSES then upstreamStatus
     else if (upstreamStatus =? 413) && fs then 413 else 502)
    message.

Section Requests.
Context {Parser : JsonParse} (baseUrl : string).

Definition fromResponse (r : Response) : JinError :=
  let raw := rs_text r in
  let parsed := json_parse raw in
  let field key := parsed ≫= json_string key in
  let message := default (js_slice 300 raw) (field "message") in
  new_TerminalUpstreamError (rs_status r)
    (if truthy message then message
     else "El Executor respondió " +:+ pretty (rs_status r) +:+ ".")
    (field "code").

(** ** terminal-executor.client.ts *)

(** [aborted] is [signal?.aborted], read when [fetch] rejects. *)
Definition send (method path : string) (body : option json) (aborted : term bool) : term Response :=
  answer <- fetch {| rq_method := method; rq_url := baseUrl +:+ path; rq_body := body |} ;;
  match answer with
  | net_failure =>
      cut <- aborted ;;
      if cut : bool then Throw (PlainError "AbortError") else Throw TerminalUnavailableError
  | response status proxied text =>
      let r := {| rs_status := status; rs_proxied := proxied; rs_text := text |} in
      if rs_ok r then Ret r else Throw (fromResponse r)
  end.

Definition no_signal : term bool := Ret false.

(** [await response.json()] *)
Definition json_of (r : Response) : term json :=
  match json_parse (rs_text r) with Some v => Ret v | None => Throw (PlainError "SyntaxError") end.

Definition json_request (method path : string) (body : option json) : term json :=
  r <- send method path body no_signal ;; json_of r.

Definition send_only (method path : string) (body : option json) : term unit :=
  send method path body no_signal ;;; Ret tt.

Definition workspace_path (workspaceId : string) : string := "/" +:+ encodeURIComponent workspaceId.

Definition list_workspaces : term json := json_request "GET" "" None.

Definition start (workspaceId : string) (input : json) : term json :=
  json_request "POST" (workspace_path workspaceId +:+ "/start") (Some input).

Definition stopPod (workspaceId : string) : term unit :=
  send_only "DELETE" (workspace_path workspaceId +:+ "/pod") None.

Definition deleteWorkspace (workspaceId : string) : term unit :=
  send_only "DELETE" (workspace_path workspaceId) None.

Definition exportFiles (workspaceId dir : string) : term json :=
  json_request "GET" (workspace_path workspaceId +:+ "/files?dir=" +:+ encodeURIComponent dir) None.

Definition importFiles (workspaceId : string) (files : json) : term json :=
  json_request "PUT" (workspace_path workspaceId +:+ "/files") (Some (JObj [("files", files)])).

Definition expose (workspaceId : string) (input : json) : term json :=
  json_request "POST" (workspace_path workspaceId +:+ "/expose") (Some input).

Definition startService (workspaceId : string) (input : json) : term json :=
  json_request "POST" (workspace_path workspaceId +:+ "/services") (Some input).

Definition listServices (workspaceId : string) : term json :=
  json_request "GET" (workspace_path workspaceId +:+ "/services") None.

Definition stopService (workspaceId : string) (port : Z) : term unit :=
  send_only "DELETE" (workspace_path workspaceId +:+ "/services/" +:+ pretty port) None.

Definition serviceLogs (workspaceId : string) (port : Z) : term (option json) :=
  result <- json_request "GET" (workspace_path workspaceId +:+ "/services/" +:+ pretty port +:+ "/logs") None ;;
  Ret (json_field "log" result).

(** The answer of the owner's server is returned whatever its status. *)
Definition proxy (workspaceId : string) (port : Z) (method pathAndQuery : string) (body : option json)
    (aborted : term bool) : term Response :=
  answer <- fetch {| rq_method := method;
                     rq_url := baseUrl +:+ workspace_path workspaceId +:+ "/proxy/" +:+ pretty port +:+ pathAndQuery;
                     rq_body := body |} ;;
  match answer with
  | net_failure =>
      cut <- aborted ;;
      if cut : bool then Throw (PlainError "AbortError") else Throw TerminalUnavailableError
  | response status proxied text =>
      let r := {| rs_status := status; rs_proxied := proxied; rs_text := text |} in
      if proxied then Ret r else Throw (fromResponse r)
  end.

Definition openExec (workspaceId : string) (input : json) (aborted : term bool) : term Response :=
  send "POST" (workspace_path workspaceId +:+ "/exec") (Some input) aborted.

Definition fsList (workspaceId path : string) : term json :=
  json_request "GET" (workspace_path workspaceId +:+ "/fs/list?path=" +:+ encodeURIComponent path) None.

Definition fsRead (workspaceId path : string) : term json :=
  json_request "GET" (workspace_path workspaceId +:+ "/fs/file?path=" +:+ encodeURIComponent path) None.

Definition fsWrite (workspaceId : string) (input : json) : term json :=
  json_request "PUT" (workspace_path workspaceId +:+ "/fs/file") (Some input).

Definition fsMkdir (workspaceId path : string) : term unit :=
  send_only "POST" (workspace_path workspaceId +:+ "/fs/dir") (Some (JObj [("path", JStr path)])).

Definition fsDelete (workspaceId path : string) : term unit :=
  send_only "DELETE" (workspace_path workspaceId +:+ "/fs/entry?path=" +:+ encodeURIComponent path) None.

Record PtySize := { cols : Z; rows : Z }.
Definition size_fields (size : PtySize) : list (string * json) :=
  [("cols", JNum (cols size)); ("rows", JNum (rows size))].

Definition pty_path (workspaceId ptyId : string) : string :=
  workspace_path workspaceId +:+ "/pty/" +:+ encodeURIComponent ptyId.

(** The answer is used as it comes: a body without [ptyId] reads as [undefined]. *)
Definition openPty (workspaceId : string) (size : PtySize) : term string :=
  v <- json_request "POST" (workspace_path workspaceId +:+ "/pty") (Some (JObj (size_fields size))) ;;
  Ret (default "undefined" (json_string "ptyId" v)).

Definition ptyOutput (workspaceId ptyId : string) (aborted : term bool) : term Response :=
  send "GET" (pty_path workspaceId ptyId +:+ "/output") None aborted.

Definition ptyInput (workspaceId ptyId : string) (data : bytes) : term unit :=
  send_only "POST" (pty_path workspaceId ptyId +:+ "/input")
    (Some (JObj [("data", JStr (base64_encode data))])).

Definition ptyResize (workspaceId ptyId : string) (size : PtySize) : term unit :=
  send_only "POST" (pty_path workspaceId ptyId +:+ "/resize") (Some (JObj (size_fields size))).

Definition closePty (workspaceId ptyId : string) : term unit :=
  send_only "DELETE" (pty_path workspaceId ptyId) None.
End Requests.
End Client.

Abbreviation term St := (prog (TermWorld St) JinError).

(** ** Recording a call, and running it

    Both services of the terminal have the same private method [audit]. *)
Section Record.
Context {St : Type}.
Abbreviation World' := (TermWorld St).

Definition record_call `{Api : AuditApi} `{Crypto : NodeCrypto} (toolName : string) (inputs : json)
    (planSummary : string) : term St unit :=
  requestId <- service randomUUID ;;
  service (audit_toolCall requestId TERMINAL_ACTOR toolName (computeInputsHash (Some inputs))
             (Some planSummary) "auto" None) ;;;
  Ret tt.

Definition log_of (v : World') : list AuditLogRow := audit_log (w_audit (tm_world v)).
Definition log_open (v : World') : Prop := healthy (tm_world v) /\ chain_locked (tm_world v) = false.
Definition log_locked (v : World') : Prop := healthy (tm_world v) /\ chain_locked (tm_world v) = true.

Lemma run_service {A} (p : jin A) (v : World') :
  run (service p) v = (put_world (run p (tm_world v)).1 v, (run p (tm_world v)).2).
Proof. apply run_zoom; [done|done|by intros []]. Qed.

Section Laws.
Context `{Laws : AuditApiLaws} `{Crypto : NodeCrypto} {Parser : JsonParse} (baseUrl : string).

Lemma run_record_ok tool inputs summary (v : World') :
  log_open v ->
  exists w' row rid, run (record_call tool inputs summary) v = (put_world w' v, inr tt) /\
    audit_log (w_audit w') = log_of v ++ [row] /\
    al_content row = logged (tool_call_row rid TERMINAL_ACTOR tool (computeInputsHash (Some inputs))
                       (Some summary) "auto" None) (clock (w_sys (tm_world v))) /\
    log_open (put_world w' v) /\ clock (w_sys w') = clock (w_sys (tm_world v)).
Proof.
  intros [Hh Hl]. unfold record_call. rewrite run_bind, run_service. cbn [run randomUUID fst snd].
  rewrite run_bind, run_service. cbn [tm_world put_world].
  set (w1 := upd_sys _ (tm_world v)). set (rid := uuid_string _).
  edestruct (appends_ok _ _ w1 (audit_toolCall_appends rid TERMINAL_ACTOR tool
    (computeInputsHash (Some inputs)) (Some summary) "auto" None)) as (w' & row & Hrun & Hlog & Hc & Ho & Hl');
    [done|done|].
  exists w', row, rid. rewrite Hrun. cbn. split; [done|]. split; [done|]. split; [done|].
  split; [split; [by eapply healthy_outside|done]|]. by injection Ho.
Qed.

Lemma run_record_locked tool inputs summary (v : World') :
  log_locked v ->
  exists w', run (record_call tool inputs summary) v = (put_world w' v, inl AuditChainLockedError) /\
    audit_log (w_audit w') = log_of v /\ log_locked (put_world w' v).
Proof.
  intros [Hh Hl]. unfold record_call. rewrite run_bind, run_service. cbn [run randomUUID fst snd].
  rewrite run_bind, run_service. cbn [tm_world put_world].
  set (w1 := upd_sys _ (tm_world v)). set (rid := uuid_string _).
  edestruct (appends_fails _ _ w1 (audit_toolCall_appends rid TERMINAL_ACTOR tool
    (computeInputsHash (Some inputs)) (Some summary) "auto" None)) as (w' & Hrun & Hlog & Ho & Hl');
    [done|done|].
  exists w'. rewrite Hrun. cbn. split; [done|]. split; [done|]. split; [by eapply healthy_outside|done].
Qed.

(** A call of the client is one request, whatever its answer. *)
Lemma run_send method path body (aborted : term St bool) (v : World') :
  (forall v', exists b, run aborted v' = (v', inr b)) ->
  exists r, run (send baseUrl method path body aborted) v =
    (add_request {| rq_method := method; rq_url := baseUrl +:+ path; rq_body := body |} v, r).
Proof.
  intros Ha. unfold send. rewrite run_bind. cbn [run fetch].
  destruct (h_answer _ _ _) as [|st p txt].
  - rewrite run_bind. match goal with |- context [run aborted ?v1] => destruct (Ha v1) as [b ->] end.
    destruct b; by eexists.
  - destruct (rs_ok _); by eexists.
Qed.

Lemma run_json_request method path body (v : World') :
  exists r, run (json_request baseUrl method path body) v =
    (add_request {| rq_method := method; rq_url := baseUrl +:+ path; rq_body := body |} v, r).
Proof.
  unfold json_request. rewrite run_bind.
  destruct (run_send method path body no_signal v) as [r ->]; [by eexists|].
  destruct r as [e|r]; [by eexists|]. unfold json_of. case_match; by eexists.
Qed.

Lemma run_send_only method path body (v : World') :
  exists r, run (send_only baseUrl method path body) v =
    (add_request {| rq_method := method; rq_url := baseUrl +:+ path; rq_body := body |} v, r).
Proof.
  unfold send_only. rewrite run_bind.
  destruct (run_send method path body no_signal v) as [r ->]; [by eexists|].
  destruct r as [e|r]; by eexists.
Qed.
End Laws.
End Record.
