(* ===== verification/OwnerTerminal.v ===== *)
(** * OwnerTerminal: the projects of the owner and their pods

    [OwnerTerminalService] of [src/terminal/owner-terminal.service.ts] and the
    schemas of [src/terminal/terminal.schemas.ts] that it parses.  Opening a pod
    and publishing a build become pending approvals of a fixed level; every other
    operation that changes something is recorded before it is asked of the
    executor.  The strings of the requests are their UTF-8 bytes. *)
From S2P Require Import Prelude Effects Js Text PtyGate Registry Store AuditApi AuditLog Hitl TerminalClient.
From Stdlib Require Import Ascii.
Local Open Scope stdpp_scope.
Local Open Scope Z_scope.
Local Open Scope jin_scope.

(** ** terminal.schemas.ts *)

Definition TERMINAL_MAX_FILES : Z := 50.
Definition TERMINAL_MAX_TOTAL_BYTES : Z := 256 * 1024.
Definition TERMINAL_STATIC_PORT : Z := 8080.

Definition is_hex (c : ascii) : bool :=
  let n := nat_of_ascii c in
  (((48 <=? n) && (n <=? 57)) || ((97 <=? n) && (n <=? 102)) || ((65 <=? n) && (n <=? 70)))%nat.

(** Groups of 8, 4, 4, 4 and 12 hexadecimal digits between dashes. *)
Fixpoint uuid_groups (groups : list nat) (s : string) : bool :=
  match groups with
  | [] => false
  | n :: groups' =>
      (fix digits (n : nat) (s : string) : bool :=
         match n with
         | O => match groups', s with
                | [], EmptyString => true
                | _ :: _, String "-" s' => uuid_groups groups' s'
                | _, _ => false
                end
         | S n' => match s with String c s' => is_hex c && digits n' s' | EmptyString => false end
         end) n s
  end.

(** [WorkspaceIdSchema] *)
Definition parseWorkspaceId (s : string) : option string :=
  if uuid_groups [8; 4; 4; 4; 12]%nat s then Some (lower s) else None.

Definition SafePath (path : string) : bool :=
  (1 <=? js_length path) && (js_length path <=? 200) &&
  negb (String.prefix "/" path) && negb (existsb (String.eqb "..") (split_on "/" path)).

Definition files_size (files : list (string * string)) : Z :=
  foldr (fun '(path, text) sum => Z.of_nat (String.length path) + Z.of_nat (String.length text) + sum) 0 files.

(** [TerminalFilesSchema]; an object has each key once. *)
Definition files_ok (files : list (string * string)) : bool :=
  forallb (fun '(path, _) => SafePath path) files &&
  (Z.of_nat (length files) <=? TERMINAL_MAX_FILES) && (files_size files <=? TERMINAL_MAX_TOTAL_BYTES).

Record StartTerminalInput := {
  sti_files : list (string * string);
  sti_ttlSeconds : Z;
  sti_claudeCode : option bool
}.

(** What [StartTerminalSchema] checks. *)
Definition start_input_ok (i : StartTerminalInput) : bool :=
  files_ok (sti_files i) && (300 <=? sti_ttlSeconds i) && (sti_ttlSeconds i <=? 4 * 60 * 60).

Definition files_json (files : list (string * string)) : json :=
  JObj (map (fun '(path, text) => (path, JStr text)) files).

(** The fields of the object, in the order of the schema; [undefined] is left out. *)
Definition start_fields (i : StartTerminalInput) : list (string * json) :=
  [("files", files_json (sti_files i)); ("ttlSeconds", JNum (sti_ttlSeconds i))] ++
  match sti_claudeCode i with Some b => [("claudeCode", JBool b)] | None => [] end.

Fixpoint parse_strings (fields : list (string * json)) : option (list (string * string)) :=
  match fields with
  | [] => Some []
  | (k, JStr s) :: rest => option_map (cons (k, s)) (parse_strings rest)
  | _ => None
  end.

(** [.strict()]: no key outside the schema. *)
Definition strict (keys : list string) (v : json) : bool :=
  match v with
  | JObj fields => forallb (fun kv => existsb (String.eqb kv.1) keys) fields
  | _ => false
  end.

(** [StartTerminalApprovedPayloadSchema.parse] *)
Definition parseStartApproved (v : json) : option (string * StartTerminalInput) :=
  if negb (strict ["files"; "ttlSeconds"; "claudeCode"; "workspaceId"] v) then None
  else
    files ← match json_field "files" v with
            | None => Some []
            | Some (JObj fields) => parse_strings fields
            | Some _ => None
            end;
    ttl ← match json_field "ttlSeconds" v with Some (JNum n) => Some n | _ => None end;
    claude ← match json_field "claudeCode" v with
             | None => Some None
             | Some (JBool b) => Some (Some b)
             | Some _ => None
             end;
    ws ← (json_string "workspaceId" v ≫= parseWorkspaceId);
    let i := {| sti_files := files; sti_ttlSeconds := ttl; sti_claudeCode := claude |} in
    if start_input_ok i then Some (ws, i) else None.

Record ExposeTerminalInput := { eti_dir : string; eti_slugHint : option string }.

Definition expose_input_ok (i : ExposeTerminalInput) : bool :=
  SafePath (eti_dir i) &&
  match eti_slugHint i with Some h => (1 <=? js_length h) && (js_length h <=? 40) | None => true end.

Definition opt_field (key : string) (o : option string) : list (string * json) :=
  match o with Some s => [(key, JStr s)] | None => [] end.

Definition expose_fields (i : ExposeTerminalInput) : list (string * json) :=
  ("dir", JStr (eti_dir i)) :: opt_field "slugHint" (eti_slugHint i).

(** [ExposeApprovedPayloadSchema.parse] *)
Definition parseExposeApproved (v : json) : option (string * ExposeTerminalInput) :=
  if negb (strict ["dir"; "slugHint"; "workspaceId"] v) then None
  else
    dir ← match json_field "dir" v with None => Some "dist" | Some (JStr s) => Some s | Some _ => None end;
    hint ← match json_field "slugHint" v with
           | None => Some None
           | Some (JStr s) => Some (Some s)
           | Some _ => None
           end;
    ws ← (json_string "workspaceId" v ≫= parseWorkspaceId);
    let i := {| eti_dir := dir; eti_slugHint := hint |} in
    if expose_input_ok i then Some (ws, i) else None.

(** [Math.round(seconds / 60)] *)
Definition ttlLabel (seconds : Z) : string :=
  if (3600 <=? seconds) && (seconds mod 3600 =? 0) then pretty (seconds / 3600) +:+ " h"
  else pretty ((seconds + 30) / 60) +:+ " min".

Record FsWriteInput := {
  fwi_path : string;
  fwi_content : string;
  fwi_expectedSha256 : option string;
  fwi_force : bool
}.

Record ExecTerminalInput := { xti_command : string; xti_timeoutSeconds : option Z }.

Module OwnerTerminal.
Section Service.
Context `{Api : AuditApi} `{Crypto : NodeCrypto} {Parser : JsonParse} (baseUrl : string).
Context {St : Type}.
Abbreviation owner := (term St).
(** The text of the server published with a build, of
    [src/executor-client/preview-template.logic.ts]. *)
Context (STATIC_SERVER_SOURCE : string).

Definition audit (toolName : string) (inputs : json) (planSummary : string) : owner unit :=
  record_call toolName inputs planSummary.

(** The workspace of the list with this id. *)
Definition find_workspace (workspaceId : string) (l : json) : owner (option json) :=
  match l with
  | JArr ws => Ret (List.find (fun w => match json_string "id" w with
                                         | Some i => String.eqb i workspaceId
                                         | None => false end) ws)
  | _ => Throw (PlainError "TypeError")
  end.

Definition status_is (s : string) (w : json) : bool :=
  match json_string "status" w with Some x => String.eqb x s | None => false end.

Definition plural (n : nat) : string := if (n =? 1)%nat then "" else "s".

(** ** Approvals *)

Definition start_summary (existing : option json) (i : StartTerminalInput) : string :=
  if default false (sti_claudeCode i) then
    (match existing with Some _ => "Reanudar" | None => "Abrir" end)
    +:+ " la terminal de este proyecto por " +:+ ttlLabel (sti_ttlSeconds i)
    +:+ " CON ACCESO A CLAUDE CODE: el pod podrá salir a los servidores de Anthropic (solo a ellos, por un proxy del clúster) y guardar tu token de suscripción de Claude. Un código malicioso dentro del pod (p. ej. un paquete de npm) podría leer ese token. Los comandos los escribes tú."
  else
    match existing with
    | Some _ => "Reanudar la terminal de este proyecto por " +:+ ttlLabel (sti_ttlSeconds i)
                +:+ ": el mismo disco, tal como quedó."
    | None =>
        "Abrir una terminal aislada para este proyecto por " +:+ ttlLabel (sti_ttlSeconds i) +:+ " ("
        +:+ pretty (Z.of_nat (length (sti_files i))) +:+ " archivo" +:+ plural (length (sti_files i))
        +:+ " del editor): un pod sin más red que el proxy de npm del clúster. Los comandos los escribes tú."
    end.

Definition start_payload (workspaceId : string) (i : StartTerminalInput) : json :=
  JObj (("workspaceId", JStr workspaceId) :: start_fields i).

Definition pending_input (requestId toolName planSummary : string) (payload : json) : CreatePendingApprovalInput :=
  {| cpa_requestId := requestId; cpa_toolName := toolName; cpa_level := Confirm;
     cpa_inputsHash := computeInputsHash (Some payload); cpa_planSummary := Some planSummary;
     cpa_payload := Some payload; cpa_actor := Some TERMINAL_ACTOR; cpa_externalInputsSummary := None |}.

Definition requestStart (workspaceId : string) (i : StartTerminalInput) : owner string :=
  l <- list_workspaces baseUrl ;;
  existing <- find_workspace workspaceId l ;;
  if match existing with Some w => status_is "running" w || status_is "starting" w | None => false end
  then Throw (new_TerminalUpstreamError 409 "Este proyecto ya tiene su terminal abierta." None)
  else
    requestId <- service randomUUID ;;
    service (DualConfirm.createPendingApproval
      (pending_input requestId START_TERMINAL_SESSION_TOOL (start_summary existing i)
         (start_payload workspaceId i))) ;;;
    Ret requestId.

Definition expose_payload (workspaceId : string) (i : ExposeTerminalInput) : json :=
  JObj (("workspaceId", JStr workspaceId) :: expose_fields i).

Definition expose_summary (i : ExposeTerminalInput) : string :=
  "Publicar el directorio " +:+ quoted (eti_dir i)
  +:+ " de la terminal en https://<slug>.jinserver.com: un link público hasta que venza la sesión. Sirve los archivos tal cual con el servidor estático de Jin.".

(** [workspace.exposure] is an object or [null]. *)
Definition has_exposure (w : json) : bool :=
  match json_field "exposure" w with None | Some JNull => false | Some _ => true end.

Definition requestExpose (workspaceId : string) (i : ExposeTerminalInput) : owner string :=
  l <- list_workspaces baseUrl ;;
  workspace <- find_workspace workspaceId l ;;
  match workspace with
  | Some w =>
      if negb (status_is "running" w)
      then Throw (new_TerminalUpstreamError 404 "La terminal de ese proyecto no está corriendo." None)
      else if has_exposure w
      then Throw (new_TerminalUpstreamError 409
                    "Este proyecto ya publicó un build. Cierra la terminal para publicar otro." None)
      else
        requestId <- service randomUUID ;;
        service (DualConfirm.createPendingApproval
          (pending_input requestId EXPOSE_TERMINAL_SESSION_TOOL (expose_summary i)
             (expose_payload workspaceId i))) ;;;
        Ret requestId
  | None => Throw (new_TerminalUpstreamError 404 "La terminal de ese proyecto no está corriendo." None)
  end.

(** ** The executors of the approvals *)

Definition applyStart (rawPayload : json) (requestId : option string) : owner json :=
  match parseStartApproved rawPayload with
  | None => Throw (ZodError "payload")
  | Some (workspaceId, rest) =>
      TerminalClient.start baseUrl workspaceId (JObj (start_fields rest ++ opt_field "requestId" requestId))
  end.

Definition applyExpose (rawPayload : json) : owner json :=
  match parseExposeApproved rawPayload with
  | None => Throw (ZodError "payload")
  | Some (workspaceId, i) =>
      expose baseUrl workspaceId
        (JObj (expose_fields i ++ [("port", JNum TERMINAL_STATIC_PORT); ("serverSource", JStr STATIC_SERVER_SOURCE)]))
  end.

(** ** Without approval *)

Definition list_all : owner json := list_workspaces baseUrl.

Definition stopPod (workspaceId : string) : owner unit :=
  audit STOP_TERMINAL_SESSION_TOOL (JObj [("workspaceId", JStr workspaceId)])
    "terminal: detener el pod (el disco se conserva)" ;;;
  TerminalClient.stopPod baseUrl workspaceId.

Definition deleteWorkspace (workspaceId : string) : owner unit :=
  audit DELETE_TERMINAL_WORKSPACE_TOOL (JObj [("workspaceId", JStr workspaceId)])
    "terminal: borrar el proyecto (pod y disco)" ;;;
  TerminalClient.deleteWorkspace baseUrl workspaceId.

Definition importFiles (workspaceId : string) (files : list (string * string)) : owner json :=
  audit RUN_TERMINAL_COMMAND_TOOL
    (JObj [("workspaceId", JStr workspaceId); ("files", JArr (map (fun f => JStr f.1) files))])
    ("terminal: copiar " +:+ pretty (Z.of_nat (length files)) +:+ " archivo" +:+ plural (length files)
     +:+ " del editor al proyecto") ;;;
  TerminalClient.importFiles baseUrl workspaceId (files_json files).

Definition fs_write_json (i : FsWriteInput) : json :=
  JObj ([("path", JStr (fwi_path i)); ("content", JStr (fwi_content i))]
        ++ opt_field "expectedSha256" (fwi_expectedSha256 i) ++ [("force", JBool (fwi_force i))]).

Definition fsWrite (workspaceId : string) (i : FsWriteInput) : owner json :=
  audit WRITE_TERMINAL_FILE_TOOL
    (JObj [("workspaceId", JStr workspaceId); ("path", JStr (fwi_path i)); ("force", JBool (fwi_force i))])
    ("terminal: guardar " +:+ js_slice AUDIT_COMMAND_PREVIEW_LENGTH (fwi_path i)
     +:+ if fwi_force i then " (sobrescribir)" else "") ;;;
  TerminalClient.fsWrite baseUrl workspaceId (fs_write_json i).

Definition fsMkdir (workspaceId path : string) : owner unit :=
  audit MAKE_TERMINAL_DIR_TOOL (JObj [("workspaceId", JStr workspaceId); ("path", JStr path)])
    ("terminal: crear carpeta " +:+ js_slice AUDIT_COMMAND_PREVIEW_LENGTH path) ;;;
  TerminalClient.fsMkdir baseUrl workspaceId path.

Definition fsDelete (workspaceId path : string) : owner unit :=
  audit DELETE_TERMINAL_ENTRY_TOOL (JObj [("workspaceId", JStr workspaceId); ("path", JStr path)])
    ("terminal: borrar " +:+ js_slice AUDIT_COMMAND_PREVIEW_LENGTH path) ;;;
  TerminalClient.fsDelete baseUrl workspaceId path.

Definition preview (command : string) : string :=
  written (Redact.auditPreview (text_of command) AUDIT_COMMAND_PREVIEW_LENGTH).

Definition exec_json (i : ExecTerminalInput) : json :=
  JObj (("command", JStr (xti_command i)) ::
        match xti_timeoutSeconds i with Some n => [("timeoutSeconds", JNum n)] | None => [] end).

Definition exec (workspaceId : string) (i : ExecTerminalInput) (aborted : owner bool) : owner Response :=
  audit RUN_TERMINAL_COMMAND_TOOL
    (JObj [("workspaceId", JStr workspaceId); ("command", JStr (xti_command i))])
    ("terminal: " +:+ preview (xti_command i)) ;;;
  openExec baseUrl workspaceId (exec_json i) aborted.

Definition startService (workspaceId command : string) (port : Z) : owner json :=
  audit RUN_TERMINAL_COMMAND_TOOL
    (JObj [("workspaceId", JStr workspaceId); ("command", JStr command); ("port", JNum port)])
    ("terminal: [servidor :" +:+ pretty port +:+ "] " +:+ preview command) ;;;
  TerminalClient.startService baseUrl workspaceId (JObj [("command", JStr command); ("port", JNum port)]).

Definition stopService (workspaceId : string) (port : Z) : owner unit :=
  audit RUN_TERMINAL_COMMAND_TOOL (JObj [("workspaceId", JStr workspaceId); ("stopPort", JNum port)])
    ("terminal: detener el servidor :" +:+ pretty port) ;;;
  TerminalClient.stopService baseUrl workspaceId port.
End Service.
End OwnerTerminal.

(** * Recorded before asked *)

(** The operations that need no approval. *)
Inductive Operation :=
| op_stopPod (workspaceId : string)
| op_deleteWorkspace (workspaceId : string)
| op_importFiles (workspaceId : string) (files : list (string * string))
| op_fsWrite (workspaceId : string) (input : FsWriteInput)
| op_fsMkdir (workspaceId path : string)
| op_fsDelete (workspaceId path : string)
| op_exec (workspaceId : string) (input : ExecTerminalInput)
| op_startService (workspaceId command : string) (port : Z)
| op_stopService (workspaceId : string) (port : Z).

Section Operations.
Context `{Laws : AuditApiLaws} `{Crypto : NodeCrypto} {Parser : JsonParse} (baseUrl : string) {St : Type}.
Abbreviation owner := (term St).

Definition perform (op : Operation) : owner unit :=
  match op with
  | op_stopPod ws => OwnerTerminal.stopPod baseUrl ws
  | op_deleteWorkspace ws => OwnerTerminal.deleteWorkspace baseUrl ws
  | op_importFiles ws files => discard (OwnerTerminal.importFiles baseUrl ws files)
  | op_fsWrite ws i => discard (OwnerTerminal.fsWrite baseUrl ws i)
  | op_fsMkdir ws path => OwnerTerminal.fsMkdir baseUrl ws path
  | op_fsDelete ws path => OwnerTerminal.fsDelete baseUrl ws path
  | op_exec ws i => discard (OwnerTerminal.exec baseUrl ws i no_signal)
  | op_startService ws command port => discard (OwnerTerminal.startService baseUrl ws command port)
  | op_stopService ws port => OwnerTerminal.stopService baseUrl ws port
  end.

(** The tool and the inputs that the audit row of an operation must name. *)
Definition op_tool (op : Operation) : string :=
  match op with
  | op_stopPod _ => "stopTerminalSession"
  | op_deleteWorkspace _ => "deleteTerminalWorkspace"
  | op_fsWrite _ _ => "writeTerminalFile"
  | op_fsMkdir _ _ => "makeTerminalDir"
  | op_fsDelete _ _ => "deleteTerminalEntry"
  | _ => "runTerminalCommand"
  end.

Definition op_inputs (op : Operation) : list (string * json) :=
  match op with
  | op_stopPod ws | op_deleteWorkspace ws => [("workspaceId", JStr ws)]
  | op_importFiles ws files => [("workspaceId", JStr ws); ("files", JArr (map (fun f => JStr f.1) files))]
  | op_fsWrite ws i => [("workspaceId", JStr ws); ("path", JStr (fwi_path i)); ("force", JBool (fwi_force i))]
  | op_fsMkdir ws path | op_fsDelete ws path => [("workspaceId", JStr ws); ("path", JStr path)]
  | op_exec ws i => [("workspaceId", JStr ws); ("command", JStr (xti_command i))]
  | op_startService ws command port =>
      [("workspaceId", JStr ws); ("command", JStr command); ("port", JNum port)]
  | op_stopService ws port => [("workspaceId", JStr ws); ("stopPort", JNum port)]
  end.

(** The request it makes of the executor. *)
Definition op_method (op : Operation) : string :=
  match op with
  | op_stopPod _ | op_deleteWorkspace _ | op_fsDelete _ _ | op_stopService _ _ => "DELETE"
  | op_importFiles _ _ | op_fsWrite _ _ => "PUT"
  | _ => "POST"
  end.

(** Recording, then one request. *)
Lemma run_recorded_request tool inputs summary (p : owner unit) (r : HttpRequest) v :
  (forall v, exists x, run p v = (add_request r v, x)) ->
  (log_locked v ->
     exists v', run (record_call tool (JObj inputs) summary ;;; p) v = (v', inl AuditChainLockedError) /\
       h_requests (tm_http v') = h_requests (tm_http v) /\ log_of v' = log_of v) /\
  (log_open v ->
     exists v' res row rid, run (record_call tool (JObj inputs) summary ;;; p) v = (v', res) /\
       h_requests (tm_http v') = h_requests (tm_http v) ++ [r] /\ log_of v' = log_of v ++ [row] /\
       al_content row = logged (tool_call_row rid TERMINAL_ACTOR tool
         (computeInputsHash (Some (JObj inputs))) (Some summary) "auto" None) (clock (w_sys (tm_world v)))).
Proof.
  intros Hp. split; intros Hl; rewrite run_bind.
  - destruct (run_record_locked tool (JObj inputs) summary v Hl) as (w' & -> & Hlog & _). by eexists.
  - destruct (run_record_ok tool (JObj inputs) summary v Hl) as (w' & row & rid & -> & Hlog & Hc & _).
    destruct (Hp (put_world w' v)) as [x ->]. by exists (add_request r (put_world w' v)), x, row, rid.
Qed.

Lemma run_discard_bind {A B} (p : owner A) (q : owner B) v :
  run (discard (p ;;; q)) v = run (p ;;; discard q) v.
Proof. unfold discard. rewrite !run_bind. destruct (run p v) as [v' [e|a]]; [done|]. by rewrite run_bind. Qed.

Lemma one_request_discard {A} (p : owner A) r :
  (forall v, exists x, run p v = (add_request r v, x)) ->
  forall v, exists x, run (discard p) v = (add_request r v, x).
Proof. intros H v. unfold discard. rewrite run_bind. destruct (H v) as [[e|a] ->]; by eexists. Qed.

(** C25. The owner's operations are recorded before they are asked of the executor:
    each of them makes exactly one request, of its method, after exactly one audit
    row, which names its tool and the hash of its inputs; with a locked log it
    makes none and fails. *)
Theorem operations_are_recorded_first (op : Operation) (v : TermWorld St) :
  (log_locked v ->
     exists v', run (perform op) v = (v', inl AuditChainLockedError) /\
       h_requests (tm_http v') = h_requests (tm_http v) /\ log_of v' = log_of v) /\
  (log_open v ->
     exists v' res r row rid summary, run (perform op) v = (v', res) /\ rq_method r = op_method op /\
       h_requests (tm_http v') = h_requests (tm_http v) ++ [r] /\ log_of v' = log_of v ++ [row] /\
       al_content row = logged (tool_call_row rid TERMINAL_ACTOR (op_tool op)
         (computeInputsHash (Some (JObj (op_inputs op)))) (Some summary) "auto" None)
         (clock (w_sys (tm_world v)))).
Proof.
  assert (H : exists summary r (p : owner unit), run (perform op) v =
      run (record_call (op_tool op) (JObj (op_inputs op)) summary ;;; p) v /\
    rq_method r = op_method op /\ (forall v, exists x, run p v = (add_request r v, x))).
  { destruct op; cbn [perform op_tool op_inputs op_method];
      unfold OwnerTerminal.importFiles, OwnerTerminal.fsWrite, OwnerTerminal.exec, OwnerTerminal.startService;
      rewrite ?run_discard_bind; eexists _, _, _; (split; [reflexivity|]); (split; [shelve|]); intros v1;
      first [ by apply one_request_discard, run_json_request | by apply run_send_only
            | by apply one_request_discard; intros; apply run_send; intros; eexists ].
    Unshelve. all: reflexivity. }
  destruct H as (summary & r & p & -> & Hm & Hp).
  destruct (run_recorded_request (op_tool op) (op_inputs op) summary p r v Hp) as [Hl Ho].
  split; [exact Hl|]. intros Hlo. destruct (Ho Hlo) as (v' & res & row & rid & ? & ? & ? & ?).
  by exists v', res, r, row, rid, summary.
Qed.

(** ** Opening and publishing wait for an approval *)

(** What asking for an approval may do: read from the executor, record it, and
    add a pending row of level [confirm] that holds the payload. *)
Definition only_asks (toolName : string) (payload : json) (v v' : TermWorld St) : Prop :=
  (forall rid row, w_pending (tm_world v') !! rid = Some row ->
     w_pending (tm_world v) !! rid = Some row \/
     (pa_toolName row = toolName /\ pa_level row = "confirm" /\ pa_payload row = payload)) /\
  (exists l, h_requests (tm_http v') = h_requests (tm_http v) ++ l /\
     Forall (fun r => rq_method r = "GET" /\ rq_body r = None) l) /\
  w_execs (tm_world v') = w_execs (tm_world v).

#[local] Instance only_asks_reflexive toolName payload : Reflexive (only_asks toolName payload).
Proof. intros v. split; [auto|]. split; [|done]. exists []. by rewrite app_nil_r. Qed.

Lemma asks_service {A} toolName payload (p : jin A) :
  steps (fun w w' => (forall rid row, w_pending w' !! rid = Some row -> w_pending w !! rid = Some row \/
           (pa_toolName row = toolName /\ pa_level row = "confirm" /\ pa_payload row = payload)) /\
           w_execs w' = w_execs w) p ->
  steps (only_asks toolName payload) (service p : owner A).
Proof.
  intros Hp. eapply steps_zoom; [|exact Hp]. intros w' v [H1 H2]. split; [exact H1|]. split; [|exact H2].
  exists []. cbn. by rewrite app_nil_r.
Qed.

Lemma asks_list toolName payload : steps (only_asks toolName payload) (list_workspaces baseUrl : owner json).
Proof.
  unfold list_workspaces, json_request, send. apply steps_bind.
  - apply steps_bind; [|by intros [|st p t]; [done|case_match]].
    split; [|done]. intros v. split; [auto|]. split; [|done]. eexists. split; [reflexivity|]. by repeat constructor.
  - intros r. unfold json_of. by case_match.
Qed.

Lemma asks_pending toolName payload rid summary :
  steps (only_asks toolName payload)
    (service (DualConfirm.createPendingApproval (OwnerTerminal.pending_input rid toolName summary payload)) : owner unit).
Proof.
  apply asks_service. unfold DualConfirm.createPendingApproval. apply steps_bind; [|intros []; apply steps_bind].
  - unfold insertPending. apply steps_bind; [|by intros []]. apply steps_db; [by intros w; split; [auto|]|].
    intros w. case_match; [by split; [auto|]|]. split; [|done]. cbn.
    intros k row [(<- & <-)|[_ H']]%lookup_insert_Some; [by right|by left].
  - eapply steps_mono; [|eapply appends_steps, audit_toolCall_appends].
    intros w w' [Ho _]. injection Ho as _ _ _ Hp _ _ _ _ _ _ He _. rewrite Hp, He. split; [auto|done].
  - intros _. split; [|done]. intros w. split; [auto|done].
Qed.

Lemma asks_find toolName payload ws l : steps (only_asks toolName payload) (OwnerTerminal.find_workspace ws l : owner _).
Proof. unfold OwnerTerminal.find_workspace. by case_match. Qed.

(** Opening a pod and publishing a build wait for the owner: whatever the
    executor answers and whatever runs between its actions, a request for either
    reads the list of workspaces and can only add pending approvals of level
    'confirm' whose payload is the request; it asks nothing else of the executor
    and executes no tool. *)
Lemma opening_and_publishing_only_ask (ws : string) (i : StartTerminalInput) (e : ExposeTerminalInput) :
  steps (only_asks START_TERMINAL_SESSION_TOOL (OwnerTerminal.start_payload ws i))
    (OwnerTerminal.requestStart baseUrl ws i : owner string) /\
  steps (only_asks EXPOSE_TERMINAL_SESSION_TOOL (OwnerTerminal.expose_payload ws e))
    (OwnerTerminal.requestExpose baseUrl ws e : owner string).
Proof.
  assert (Hu : forall t p, steps (only_asks t p) (service randomUUID : owner string)).
  { intros t p. apply asks_service. split; [|done]. intros w. split; [auto|done]. }
  split; [unfold OwnerTerminal.requestStart|unfold OwnerTerminal.requestExpose];
    (apply steps_bind; [apply asks_list|]; intros l; apply steps_bind; [apply asks_find|]; intros o).
  - destruct (match o with Some _ => _ | None => _ end); [done|].
    apply steps_bind; [apply Hu|]. intros rid. apply steps_bind; [apply asks_pending|done].
  - destruct o as [w|]; [|done]. destruct (negb _); [done|]. destruct (OwnerTerminal.has_exposure w); [done|].
    apply steps_bind; [apply Hu|]. intros rid. apply steps_bind; [apply asks_pending|done].
Qed.

(** ** What is approved is what is done *)

Lemma is_hex_lower c : is_hex c = true -> is_hex (lower_char c) = true.
Proof. by destruct c as [[] [] [] [] [] [] [] []]. Qed.
Lemma lower_char_idem c : lower_char (lower_char c) = lower_char c.
Proof. by destruct c as [[] [] [] [] [] [] [] []]. Qed.
Lemma lower_idem s : lower (lower s) = lower s.
Proof. induction s as [|c s IH]; cbn; [done|]. by rewrite lower_char_idem, IH. Qed.

Lemma uuid_groups_lower groups s : uuid_groups groups s = true -> uuid_groups groups (lower s) = true.
Proof.
  revert s. induction groups as [|n groups IH]; intros s; [done|]. cbn [uuid_groups].
  revert s. induction n as [|n IHn]; intros s.
  - destruct groups as [|m groups]; [by destruct s|]. destruct s as [|c s]; [done|].
    intros H. cbn [lower]. destruct c as [[] [] [] [] [] [] [] []]; try discriminate H. cbn. by apply IH.
  - destruct s as [|c s]; [done|]. cbn [lower]. intros [H1 H2]%andb_true_iff.
    apply andb_true_iff. split; [by apply is_hex_lower|by apply IHn].
Qed.

Lemma parseWorkspaceId_again raw ws : parseWorkspaceId raw = Some ws -> parseWorkspaceId ws = Some ws.
Proof.
  unfold parseWorkspaceId. case_match eqn:H; [|done]. intros [= <-].
  by rewrite (uuid_groups_lower _ _ H), lower_idem.
Qed.

Lemma parse_strings_files files : parse_strings (map (fun '(path, text) => (path, JStr text)) files) = Some files.
Proof. induction files as [|[p t] files IH]; cbn; [done|]. by rewrite IH. Qed.

(** C26. What the owner approved is what is done: the payload stored for a valid
    request of an identifier that the controller accepted is read back as that
    identifier and that request, and the approved action makes one request of the
    executor, with those fields and, when it opens a pod, the identifier of the
    approval. *)
Theorem the_approved_request_is_the_one_made (raw ws rid : string) (i : StartTerminalInput)
    (e : ExposeTerminalInput) (source : string) (v : TermWorld St) :
  parseWorkspaceId raw = Some ws -> start_input_ok i = true -> expose_input_ok e = true ->
  (exists r, run (OwnerTerminal.applyStart baseUrl (OwnerTerminal.start_payload ws i) (Some rid)) v =
     (add_request {| rq_method := "POST"; rq_url := baseUrl +:+ workspace_path ws +:+ "/start";
                     rq_body := Some (JObj (start_fields i ++ [("requestId", JStr rid)])) |} v, r)) /\
  (exists r, run (OwnerTerminal.applyExpose baseUrl source (OwnerTerminal.expose_payload ws e)) v =
     (add_request {| rq_method := "POST"; rq_url := baseUrl +:+ workspace_path ws +:+ "/expose";
                     rq_body := Some (JObj (expose_fields e ++
                       [("port", JNum 8080); ("serverSource", JStr source)])) |} v, r)).
Proof.
  intros Hws%parseWorkspaceId_again Hi He. split.
  - assert (Hp : parseStartApproved (OwnerTerminal.start_payload ws i) = Some (ws, i)).
    { unfold parseStartApproved, OwnerTerminal.start_payload, start_fields. destruct i as [files ttl claude].
      destruct claude as [b|]; cbn [sti_claudeCode sti_files sti_ttlSeconds app];
        cbn -[parseWorkspaceId start_input_ok]; rewrite parse_strings_files; cbn -[parseWorkspaceId start_input_ok];
        rewrite Hws; cbn -[start_input_ok]; by rewrite Hi. }
    unfold OwnerTerminal.applyStart. rewrite Hp. apply run_json_request.
  - assert (Hp : parseExposeApproved (OwnerTerminal.expose_payload ws e) = Some (ws, e)).
    { unfold parseExposeApproved, OwnerTerminal.expose_payload, expose_fields, opt_field. destruct e as [dir hint].
      destruct hint as [h|]; cbn -[parseWorkspaceId expose_input_ok]; rewrite Hws; cbn -[expose_input_ok]; by rewrite He. }
    unfold OwnerTerminal.applyExpose. rewrite Hp. apply run_json_request.
Qed.
End Operations.

Module OwnerTerminalExamples.
#[local] Existing Instance toy_crypto.
Definition parser : JsonParse := {| json_parse := fun _ => Some (JArr []) |}.
#[local] Existing Instance parser.
Definition workspace : string := "0A1b2c3d-0000-4000-8000-00000000000F".
Definition request : StartTerminalInput :=
  {| sti_files := [("src/a.ts", "export {}")]; sti_ttlSeconds := 7200; sti_claudeCode := Some true |}.
Definition publish : ExposeTerminalInput := {| eti_dir := "dist"; eti_slugHint := None |}.
Definition start_world : TermWorld unit :=
  {| tm_world := empty_world 0; tm_http := {| h_requests := []; h_answer := fun _ _ => response 200 false "[]" |};
     tm_state := tt |}.

Example start_asks :
  let v := (run (@OwnerTerminal.requestStart (@auditService toy_crypto) toy_crypto parser "http://executor" unit
                   "0a1b" request) start_world).1 in
  (map rq_url (h_requests (tm_http v)), map (fun kv => (pa_toolName kv.2, pa_level kv.2)) (map_to_list (w_pending (tm_world v))))
  = (["http://executor"], [("startTerminalSession", "confirm")]).
Proof. by vm_compute. Qed.
Example labels : (ttlLabel 7200, ttlLabel 5400, ttlLabel 300) = ("2 h", "90 min", "5 min").
Proof. reflexivity. Qed.
Example unsafe_paths : map SafePath ["a/b"; "/etc"; "a/../b"; ""] = [true; false; false; false].
Proof. reflexivity. Qed.
End OwnerTerminalExamples.

Lemma the_approved_request_is_the_one_made_witness :
  exists r, run (OwnerTerminal.applyStart (Parser := OwnerTerminalExamples.parser) "http://executor"
      (OwnerTerminal.start_payload (lower OwnerTerminalExamples.workspace) OwnerTerminalExamples.request)
      (Some "uuid-0")) OwnerTerminalExamples.start_world =
    (add_request {| rq_method := "POST";
       rq_url := "http://executor" +:+ workspace_path (lower OwnerTerminalExamples.workspace) +:+ "/start";
       rq_body := Some (JObj (start_fields OwnerTerminalExamples.request ++ [("requestId", JStr "uuid-0")])) |}
       OwnerTerminalExamples.start_world, r).
Proof.
  refine (proj1 (the_approved_request_is_the_one_made (Parser := OwnerTerminalExamples.parser) "http://executor"
    OwnerTerminalExamples.workspace _ "uuid-0" OwnerTerminalExamples.request OwnerTerminalExamples.publish "" _ _ _ _));
    by vm_compute.
Defined.

Lemma operations_are_recorded_first_witness :
  exists v' res r row, run (perform (Api := @auditService toy_crypto) (Crypto := toy_crypto)
      (Parser := OwnerTerminalExamples.parser) "http://executor" (op_deleteWorkspace "0a1b"))
      OwnerTerminalExamples.start_world = (v', res) /\
    rq_method r = "DELETE" /\ h_requests (tm_http v') = [r] /\ log_of v' = [row].
Proof.
  destruct (@operations_are_recorded_first (@auditService toy_crypto) (@auditService_laws toy_crypto) toy_crypto
    OwnerTerminalExamples.parser "http://executor" unit (op_deleteWorkspace "0a1b")
    OwnerTerminalExamples.start_world) as [_ H].
  destruct H as (v' & res & r & row & _ & _ & H1 & H2 & H3 & H4 & _); [by split|].
  exists v', res, r, row. splits; [exact H1|exact H2|exact H3|exact H4].
Defined.

Lemma opening_and_publishing_only_ask_witness :
  let start := OwnerTerminal.requestStart (Api := @auditService toy_crypto) (Crypto := toy_crypto)
    (Parser := OwnerTerminalExamples.parser) "http://executor" "0a1b" OwnerTerminalExamples.request : term unit string in
  steps (only_asks START_TERMINAL_SESSION_TOOL (OwnerTerminal.start_payload "0a1b" OwnerTerminalExamples.request)) start.
Proof.
  exact (proj1 (@opening_and_publishing_only_ask (@auditService toy_crypto) (@auditService_laws toy_crypto) toy_crypto
    OwnerTerminalExamples.parser "http://executor" unit "0a1b" OwnerTerminalExamples.request
    OwnerTerminalExamples.publish)).
Defined.
