(* ===== verification/TerminalPty.v ===== *)
(** * TerminalPty: the interactive terminal of the owner

    [TerminalPtyService] of [src/terminal/terminal-pty.service.ts].  A session is an
    object of a heap, which the maps [sessions] and [byWorkspace] and the callbacks
    in flight share.  A stretch of the code between two [await]s is one action
    ([sync]).  The chain of promises [inputChain] is the list of the messages that
    wait and the mark of the one in course; a timer is the time it is due.  The
    callbacks of the timers and each link of the chain are methods of their own. *)
From S2P Require Import Prelude Effects Js Text PtyGate Registry Store AuditApi Models TerminalClient.
Local Open Scope stdpp_scope.
Local Open Scope Z_scope.
Local Open Scope jin_scope.

Inductive PtyEvent :=
| ev_out (data : string)
| ev_exit (code : Z)
| ev_error (message : string)
| ev_notice (message : string).

Definition MAX_INPUT_BYTES_PER_SECOND : Z := 512 * 1024.
Definition REPLAY_CHUNK_BYTES : nat := 48 * 1024.
Definition ENDED_LINGER_MS : Z := 30000.
Definition PUMP_MAX_RETRIES : nat := 5.

(** The callers pass whole milliseconds, which [Math.round] leaves as they are. *)
Definition clampKeepAlive (requested : option Z) : Z :=
  match requested with
  | None => PTY_KEEPALIVE_DEFAULT_MS
  | Some ms => Z.min PTY_KEEPALIVE_MAX_MS (Z.max PTY_KEEPALIVE_MIN_MS ms)
  end.

(** A timer that has fired stays in its field. *)
Inductive Timer := timer_none | timer_due (at_ : Z) | timer_fired.

Record PtySession := mkPtySession {
  s_ptyId : string;
  s_workspaceId : string;
  s_startedAt : Z;
  s_gate : PtyInputGate;
  s_aborted : bool;
  s_ring : list bytes;
  s_ringBytes : Z;
  s_listener : option nat;
  s_keepAliveMs : Z;
  s_detachTimer : Timer;
  s_lingerTimer : Timer;
  s_inputChain : list bytes;
  s_processing : bool;
  s_ended : option PtyEvent;
  s_bytesIn : Z;
  s_bytesOut : Z;
  s_rateWindowStart : Z;
  s_rateBytes : Z
}.

(** Assignments to the fields of a session. *)
Definition set_gate x s := mkPtySession (s_ptyId s) (s_workspaceId s) (s_startedAt s) x (s_aborted s)
  (s_ring s) (s_ringBytes s) (s_listener s) (s_keepAliveMs s) (s_detachTimer s) (s_lingerTimer s)
  (s_inputChain s) (s_processing s) (s_ended s) (s_bytesIn s) (s_bytesOut s) (s_rateWindowStart s) (s_rateBytes s).
Definition set_ring ring n s := mkPtySession (s_ptyId s) (s_workspaceId s) (s_startedAt s) (s_gate s) (s_aborted s)
  ring n (s_listener s) (s_keepAliveMs s) (s_detachTimer s) (s_lingerTimer s)
  (s_inputChain s) (s_processing s) (s_ended s) (s_bytesIn s) (s_bytesOut s) (s_rateWindowStart s) (s_rateBytes s).
Definition set_listener x s := mkPtySession (s_ptyId s) (s_workspaceId s) (s_startedAt s) (s_gate s) (s_aborted s)
  (s_ring s) (s_ringBytes s) x (s_keepAliveMs s) (s_detachTimer s) (s_lingerTimer s)
  (s_inputChain s) (s_processing s) (s_ended s) (s_bytesIn s) (s_bytesOut s) (s_rateWindowStart s) (s_rateBytes s).
Definition set_keepAliveMs x s := mkPtySession (s_ptyId s) (s_workspaceId s) (s_startedAt s) (s_gate s) (s_aborted s)
  (s_ring s) (s_ringBytes s) (s_listener s) x (s_detachTimer s) (s_lingerTimer s)
  (s_inputChain s) (s_processing s) (s_ended s) (s_bytesIn s) (s_bytesOut s) (s_rateWindowStart s) (s_rateBytes s).
Definition set_detachTimer x s := mkPtySession (s_ptyId s) (s_workspaceId s) (s_startedAt s) (s_gate s) (s_aborted s)
  (s_ring s) (s_ringBytes s) (s_listener s) (s_keepAliveMs s) x (s_lingerTimer s)
  (s_inputChain s) (s_processing s) (s_ended s) (s_bytesIn s) (s_bytesOut s) (s_rateWindowStart s) (s_rateBytes s).
Definition set_lingerTimer x s := mkPtySession (s_ptyId s) (s_workspaceId s) (s_startedAt s) (s_gate s) (s_aborted s)
  (s_ring s) (s_ringBytes s) (s_listener s) (s_keepAliveMs s) (s_detachTimer s) x
  (s_inputChain s) (s_processing s) (s_ended s) (s_bytesIn s) (s_bytesOut s) (s_rateWindowStart s) (s_rateBytes s).
Definition set_chain chain processing s := mkPtySession (s_ptyId s) (s_workspaceId s) (s_startedAt s) (s_gate s) (s_aborted s)
  (s_ring s) (s_ringBytes s) (s_listener s) (s_keepAliveMs s) (s_detachTimer s) (s_lingerTimer s)
  chain processing (s_ended s) (s_bytesIn s) (s_bytesOut s) (s_rateWindowStart s) (s_rateBytes s).
(** [session.ended = event; session.abort.abort()] *)
Definition set_ended x s := mkPtySession (s_ptyId s) (s_workspaceId s) (s_startedAt s) (s_gate s) true
  (s_ring s) (s_ringBytes s) (s_listener s) (s_keepAliveMs s) (s_detachTimer s) (s_lingerTimer s)
  (s_inputChain s) (s_processing s) x (s_bytesIn s) (s_bytesOut s) (s_rateWindowStart s) (s_rateBytes s).
Definition set_aborted s := mkPtySession (s_ptyId s) (s_workspaceId s) (s_startedAt s) (s_gate s) true
  (s_ring s) (s_ringBytes s) (s_listener s) (s_keepAliveMs s) (s_detachTimer s) (s_lingerTimer s)
  (s_inputChain s) (s_processing s) (s_ended s) (s_bytesIn s) (s_bytesOut s) (s_rateWindowStart s) (s_rateBytes s).
Definition add_bytes i o s := mkPtySession (s_ptyId s) (s_workspaceId s) (s_startedAt s) (s_gate s) (s_aborted s)
  (s_ring s) (s_ringBytes s) (s_listener s) (s_keepAliveMs s) (s_detachTimer s) (s_lingerTimer s)
  (s_inputChain s) (s_processing s) (s_ended s) (s_bytesIn s + i) (s_bytesOut s + o) (s_rateWindowStart s) (s_rateBytes s).
Definition set_rate start n s := mkPtySession (s_ptyId s) (s_workspaceId s) (s_startedAt s) (s_gate s) (s_aborted s)
  (s_ring s) (s_ringBytes s) (s_listener s) (s_keepAliveMs s) (s_detachTimer s) (s_lingerTimer s)
  (s_inputChain s) (s_processing s) (s_ended s) (s_bytesIn s) (s_bytesOut s) start n.

(** The fields of the service; [pt_delivered] are the events each listener was
    given and [pt_forwarded] the steps of the gates whose bytes were handed to the
    client of the executor, in order, each with its session. *)
Record PtyState := {
  pt_heap : list PtySession;
  pt_sessions : gmap string nat;
  pt_byWorkspace : gmap string string;
  pt_delivered : list (nat * PtyEvent);
  pt_forwarded : list (nat * PtyInputStep)
}.

Definition no_sessions : PtyState :=
  {| pt_heap := []; pt_sessions := ∅; pt_byWorkspace := ∅; pt_delivered := []; pt_forwarded := [] |}.

Abbreviation PtyWorld := (TermWorld PtyState).
Abbreviation pty := (term PtyState).

Definition upd_session (ref : nat) (f : PtySession -> PtySession) (s : PtyState) : PtyState :=
  {| pt_heap := alter f ref (pt_heap s); pt_sessions := pt_sessions s;
     pt_byWorkspace := pt_byWorkspace s; pt_delivered := pt_delivered s; pt_forwarded := pt_forwarded s |}.
Definition upd_sessions f (s : PtyState) : PtyState :=
  {| pt_heap := pt_heap s; pt_sessions := f (pt_sessions s);
     pt_byWorkspace := pt_byWorkspace s; pt_delivered := pt_delivered s; pt_forwarded := pt_forwarded s |}.
Definition upd_byWorkspace f (s : PtyState) : PtyState :=
  {| pt_heap := pt_heap s; pt_sessions := pt_sessions s;
     pt_byWorkspace := f (pt_byWorkspace s); pt_delivered := pt_delivered s; pt_forwarded := pt_forwarded s |}.
Definition deliver (listener : nat) (event : PtyEvent) (s : PtyState) : PtyState :=
  {| pt_heap := pt_heap s; pt_sessions := pt_sessions s; pt_byWorkspace := pt_byWorkspace s;
     pt_delivered := pt_delivered s ++ [(listener, event)]; pt_forwarded := pt_forwarded s |}.
Definition forwarded ref step (s : PtyState) : PtyState :=
  {| pt_heap := pt_heap s; pt_sessions := pt_sessions s; pt_byWorkspace := pt_byWorkspace s;
     pt_delivered := pt_delivered s; pt_forwarded := pt_forwarded s ++ [(ref, step)] |}.
Definition new_session (session : PtySession) (s : PtyState) : PtyState :=
  {| pt_heap := pt_heap s ++ [session]; pt_sessions := pt_sessions s;
     pt_byWorkspace := pt_byWorkspace s; pt_delivered := pt_delivered s; pt_forwarded := pt_forwarded s |}.

(** The object a map leads to. *)
Definition session_of (ptyId : string) (s : PtyState) : option (nat * PtySession) :=
  ref ← pt_sessions s !! ptyId; session ← pt_heap s !! ref; Some (ref, session).

Definition clock_of (v : PtyWorld) : Z := clock (w_sys (tm_world v)).

(** A synchronous stretch on the fields of the service, at the present time. *)
Definition sync_state {X} (f : Z -> PtyState -> PtyState * (JinError + X)) : pty X :=
  sync (fun v => let '(s, r) := f (clock_of v) (tm_state v) in (put_state s v, r)).
Definition on_state (f : Z -> PtyState -> PtyState) : pty unit :=
  Act (fun v => (put_state (f (clock_of v) (tm_state v)) v, tt)) Ret.
Definition read_state {X} (f : PtyState -> X) : pty X := Act (fun v => (v, f (tm_state v))) Ret.

(** How [openOrAttach] goes on after its first stretch. *)
Inductive OpenBegin := open_resumed (ptyId : string) | open_reserved (reservation : string).

Module TerminalPty.
Section Service.
Context `{Api : AuditApi} `{Crypto : NodeCrypto} {Parser : JsonParse} (baseUrl : string).

(** ** Synchronous helpers *)

Definition armDetachTimer (now : Z) (s : PtySession) : PtySession :=
  set_detachTimer (timer_due (now + s_keepAliveMs s)) s.

Definition replay_events (session : PtySession) : list PtyEvent :=
  let replay := concat (s_ring session) in
  map (fun slice => ev_out (base64_encode slice)) (slices (length replay) REPLAY_CHUNK_BYTES replay)
  ++ match s_ended session with Some e => [e] | None => [] end.

Definition attach (ref listener : nat) (s : PtyState) : PtyState :=
  let s := upd_session ref (fun x => set_listener (Some listener) (set_detachTimer timer_none x)) s in
  match pt_heap s !! ref with
  | Some session => fold_left (fun s e => deliver listener e s) (replay_events session) s
  | None => s
  end.

Definition notify (ref : nat) (event : PtyEvent) (s : PtyState) : PtyState :=
  match pt_heap s !! ref ≫= s_listener with
  | Some listener => deliver listener event s
  | None => s
  end.

Definition withinRate (now n : Z) (session : PtySession) : PtySession * bool :=
  let '(start, rate) :=
    if 1000 <=? now - s_rateWindowStart session then (now, 0)
    else (s_rateWindowStart session, s_rateBytes session) in
  (set_rate start (rate + n) session, rate + n <=? MAX_INPUT_BYTES_PER_SECOND).

(** The loop of [remember]. *)
Fixpoint trim_ring (ring : list bytes) (n : Z) : list bytes * Z :=
  match ring with
  | b :: ((_ :: _) as r') => if PTY_RING_BYTES <? n then trim_ring r' (n - Z.of_nat (length b)) else (ring, n)
  | _ => (ring, n)
  end.

Definition remember (b : bytes) (session : PtySession) : PtySession :=
  let '(ring, n) := trim_ring (s_ring session ++ [b]) (s_ringBytes session + Z.of_nat (length b)) in
  set_ring ring n session.

(** ** Methods *)

Definition audit (toolName : string) (inputs : json) (planSummary : string) : pty unit :=
  record_call toolName inputs planSummary.

Definition require_not_found : JinError :=
  new_TerminalUpstreamError 404 "La terminal interactiva ya no existe: abre otra." None.

Definition resize (ptyId : string) (size : PtySize) : pty unit :=
  found <- read_state (session_of ptyId) ;;
  match found with
  | None => Throw require_not_found
  | Some (_, session) =>
      match s_ended session with
      | Some _ => Ret tt
      | None => ptyResize baseUrl (s_workspaceId session) ptyId size
      end
  end.

(** The first stretch of [openOrAttach]; the reservation is a fresh identifier. *)
Definition open_begin (workspaceId : string) (listener : nat) (keepAliveMs : option Z) : pty OpenBegin :=
  sync (fun v =>
    let s := tm_state v in
    let existingId := pt_byWorkspace s !! workspaceId in
    let existing := id ← existingId; if truthy id then session_of id s else None in
    let reserve :=
      let sys := w_sys (tm_world v) in
      let reservation := uuid_string (uuids sys) in
      let w := upd_sys (fun s => {| clock := clock s; statements := statements s; fault := fault s;
                                    uuids := S (uuids s) |}) (tm_world v) in
      (put_state (upd_byWorkspace <[workspaceId := reservation]> s) (put_world w v),
       inr (open_reserved reservation)) in
    match existing with
    | Some (ref, session) =>
        match s_ended session with
        | None =>
            let s := match keepAliveMs with
                     | Some _ => upd_session ref (set_keepAliveMs (clampKeepAlive keepAliveMs)) s
                     | None => s
                     end in
            (put_state (attach ref listener s) v, inr (open_resumed (s_ptyId session)))
        | Some _ => reserve
        end
    | None =>
        match existingId with
        | Some id =>
            if truthy id then
              (v, inl (new_TerminalUpstreamError 409
                         "La terminal de este proyecto se está abriendo: espera un momento." None))
            else reserve
        | None => reserve
        end
    end).

Definition fresh_session (ptyId workspaceId : string) (keepAliveMs : option Z) (now : Z) : PtySession :=
  {| s_ptyId := ptyId; s_workspaceId := workspaceId; s_startedAt := now; s_gate := new_PtyInputGate;
     s_aborted := false; s_ring := []; s_ringBytes := 0; s_listener := None;
     s_keepAliveMs := clampKeepAlive keepAliveMs; s_detachTimer := timer_none;
     s_lingerTimer := timer_none; s_inputChain := []; s_processing := false; s_ended := None;
     s_bytesIn := 0; s_bytesOut := 0; s_rateWindowStart := now; s_rateBytes := 0 |}.

(** The stretch after [openPty] answers, which also starts [pump]. *)
Definition open_commit (workspaceId ptyId : string) (listener : nat) (keepAliveMs : option Z)
    (now : Z) (s : PtyState) : PtyState :=
  let ref := length (pt_heap s) in
  let s := new_session (fresh_session ptyId workspaceId keepAliveMs now) s in
  let s := upd_sessions <[ptyId := ref]> s in
  let s := upd_byWorkspace <[workspaceId := ptyId]> s in
  attach ref listener s.

Definition openOrAttach (workspaceId : string) (size : PtySize) (listener : nat)
    (keepAliveMs : option Z) : pty (string * bool) :=
  began <- open_begin workspaceId listener keepAliveMs ;;
  match began with
  | open_resumed ptyId =>
      catch (resize ptyId size) (fun _ => Ret tt) ;;;
      Ret (ptyId, true)
  | open_reserved reservation =>
      catch
        (audit OPEN_TERMINAL_PTY_TOOL
           (JObj (("workspaceId", JStr workspaceId) :: size_fields size)) "terminal interactiva: abrir" ;;;
         ptyId <- openPty baseUrl workspaceId size ;;
         on_state (open_commit workspaceId ptyId listener keepAliveMs) ;;;
         Ret (ptyId, false))
        (fun error =>
           on_state (fun _ s =>
             if bool_decide (pt_byWorkspace s !! workspaceId = Some reservation)
             then upd_byWorkspace (delete workspaceId) s else s) ;;;
           Throw error)
  end.

Definition detach (ptyId : string) (listener : nat) : pty unit :=
  on_state (fun now s =>
    match session_of ptyId s with
    | Some (ref, session) =>
        if bool_decide (s_listener session = Some listener) then
          let s := upd_session ref (set_listener None) s in
          match s_ended session with
          | Some _ => s
          | None => upd_session ref (armDetachTimer now) s
          end
        else s
    | None => s
    end).

(** The synchronous [input]; the link it adds to the chain runs as [serveInput]. *)
Definition input (ptyId : string) (data : bytes) : pty unit :=
  sync_state (fun now s =>
    match session_of ptyId s with
    | None => (s, inl require_not_found)
    | Some (ref, session) =>
        match s_ended session with
        | Some _ => (s, inr tt)
        | None =>
            let n := Z.of_nat (length data) in
            let '(session, ok) := withinRate now n session in
            let s := upd_session ref (fun _ => session) s in
            if ok then
              (upd_session ref (fun x => set_chain (s_inputChain x ++ [data]) (s_processing x)
                                           (add_bytes n 0 x)) s, inr tt)
            else
              (notify ref (ev_notice "Demasiada entrada de golpe: se descartó lo último.") s, inr tt)
        end
    end).

Definition setKeepAlive (ptyId : string) (keepAliveMs : Z) : pty unit :=
  on_state (fun now s =>
    match session_of ptyId s with
    | Some (ref, session) =>
        match s_ended session with
        | Some _ => s
        | None =>
            upd_session ref (fun x =>
              let x := set_keepAliveMs (clampKeepAlive (Some keepAliveMs)) x in
              match s_detachTimer x with timer_none => x | _ => armDetachTimer now x end) s
        end
    | None => s
    end).

Definition line_inputs (workspaceId : string) (line : text) : json :=
  JObj [("workspaceId", JStr workspaceId); ("command", JStr (written line)); ("interactive", JBool true)].

Definition line_summary (line : text) : string :=
  "terminal (interactiva): " +:+ written (Redact.auditPreview line AUDIT_COMMAND_PREVIEW_LENGTH).

Definition forward (ref : nat) (workspaceId ptyId : string) (step : PtyInputStep) : pty unit :=
  on_state (fun _ => forwarded ref step) ;;;
  ptyInput baseUrl workspaceId ptyId (ps_bytes step).

Definition process_step (ref : nat) (workspaceId ptyId : string) (step : PtyInputStep) : pty unit :=
  match ps_line step with
  | Some line =>
      audit RUN_TERMINAL_COMMAND_TOOL (line_inputs workspaceId line) (line_summary line) ;;;
      forward ref workspaceId ptyId step
  | None => forward ref workspaceId ptyId step
  end.

(** [session.gate.feed(data)] *)
Definition feed_session (ref : nat) (data : bytes) : pty (list PtyInputStep) :=
  sync_state (fun _ s =>
    match pt_heap s !! ref with
    | Some session =>
        let '(steps, gate) := PtyGate.feed data (s_gate session) in
        (upd_session ref (set_gate gate) s, inr steps)
    | None => (s, inr [])
    end).

Definition process (ref : nat) (workspaceId ptyId : string) (data : bytes) : pty unit :=
  steps <- feed_session ref data ;;
  for_each steps (process_step ref workspaceId ptyId).

Definition CTRL_C_BYTES : bytes := [3].

Definition onInputFailure (ref : nat) (workspaceId ptyId : string) : pty unit :=
  on_state (fun _ => upd_session ref (fun x => set_gate (PtyGate.reset (s_gate x)) x)) ;;;
  catch (forward ref workspaceId ptyId {| ps_bytes := CTRL_C_BYTES; ps_line := None |}) (fun _ => Ret tt) ;;;
  on_state (fun _ => notify ref
    (ev_notice "No se pudo registrar esa línea en el audit: no se envió al terminal.")).

(** The next link of the chain of promises, once the one before it is over. *)
Definition take_input (ref : nat) (s : PtyState) : PtyState * option (PtySession * bytes) :=
  match pt_heap s !! ref with
  | Some session =>
      match s_processing session, s_inputChain session with
      | false, data :: rest => (upd_session ref (set_chain rest true) s, Some (session, data))
      | _, _ => (s, None)
      end
  | None => (s, None)
  end.

Definition serveInput (ref : nat) : pty unit :=
  next <- sync_state (fun _ s => let '(s, r) := take_input ref s in (s, inr r)) ;;
  match next with
  | None => Ret tt
  | Some (session, data) =>
      catch (process ref (s_workspaceId session) (s_ptyId session) data)
        (fun _ => onInputFailure ref (s_workspaceId session) (s_ptyId session)) ;;;
      on_state (fun _ => upd_session ref (fun x => set_chain (s_inputChain x) false x))
  end.

(** ** The end of a session *)

(** The stretch of [finish] before the audit: the bytes and seconds it records,
    or nothing if the session had ended. *)
Definition finish_begin (ref : nat) (event : PtyEvent) : pty (option (PtySession * Z)) :=
  sync_state (fun now s =>
    match pt_heap s !! ref with
    | Some session =>
        match s_ended session with
        | Some _ => (s, inr None)
        | None =>
            let s := upd_session ref (fun x => set_detachTimer timer_none (set_ended (Some event) x)) s in
            let s := if bool_decide (pt_byWorkspace s !! s_workspaceId session = Some (s_ptyId session))
                     then upd_byWorkspace (delete (s_workspaceId session)) s else s in
            let s := notify ref event s in
            let s := upd_session ref (set_lingerTimer (timer_due (now + ENDED_LINGER_MS))) s in
            (s, inr (Some (session, (now - s_startedAt session + 500) / 1000)))
        end
    | None => (s, inr None)
    end).

Definition finish (ref : nat) (event : PtyEvent) (reason : string) : pty unit :=
  began <- finish_begin ref event ;;
  match began with
  | None => Ret tt
  | Some (session, seconds) =>
      catch (audit CLOSE_TERMINAL_PTY_TOOL
               (JObj [("workspaceId", JStr (s_workspaceId session)); ("reason", JStr reason);
                      ("bytesIn", JNum (s_bytesIn session)); ("bytesOut", JNum (s_bytesOut session));
                      ("seconds", JNum seconds)])
               ("terminal interactiva: cerrar (" +:+ reason +:+ ")"))
        (fun _ => Ret tt)
  end.

Definition close (ptyId reason : string) : pty unit :=
  found <- read_state (session_of ptyId) ;;
  match found with
  | None => Ret tt
  | Some (ref, session) =>
      match s_ended session with
      | Some _ => Ret tt
      | None =>
          catch (closePty baseUrl (s_workspaceId session) ptyId) (fun _ => Ret tt) ;;;
          finish ref (ev_exit (-1)) reason
      end
  end.

(** The callback of [detachTimer], which does nothing before it is due. *)
Definition detachTimerFires (ref : nat) : pty unit :=
  due <- sync_state (fun now s =>
    match pt_heap s !! ref with
    | Some session =>
        match s_detachTimer session with
        | timer_due t =>
            if t <=? now then (upd_session ref (set_detachTimer timer_fired) s, inr (Some (s_ptyId session)))
            else (s, inr None)
        | _ => (s, inr None)
        end
    | None => (s, inr None)
    end) ;;
  match due with
  | Some ptyId => close ptyId "sin app conectada"
  | None => Ret tt
  end.

(** The callback of [lingerTimer]. *)
Definition lingerTimerFires (ref : nat) : pty unit :=
  on_state (fun now s =>
    match pt_heap s !! ref with
    | Some session =>
        match s_lingerTimer session with
        | timer_due t =>
            if t <=? now
            then upd_sessions (delete (s_ptyId session)) (upd_session ref (set_lingerTimer timer_fired) s)
            else s
        | _ => s
        end
    | None => s
    end).

Definition onModuleDestroy : pty unit :=
  on_state (fun _ s =>
    fold_left (fun s kv => upd_session kv.2 (fun x => set_aborted (set_lingerTimer timer_fired (set_detachTimer
                 match s_detachTimer x with timer_none => timer_none | _ => timer_fired end x))) s)
      (map_to_list (pt_sessions s)) s).

(** ** Output *)

(** The stretch of [handleLine] for a line of output. *)
Definition output_line (ref : nat) (d : string) (now : Z) (s : PtyState) : PtyState :=
  let b := base64_decode d in
  let s := upd_session ref (fun x => remember b (add_bytes 0 (Z.of_nat (length b)) x)) s in
  match pt_heap s !! ref with
  | Some session =>
      match s_listener session with
      | Some listener => deliver listener (ev_out d) s
      | None => match s_detachTimer session with
                | timer_none => s
                | _ => upd_session ref (armDetachTimer now) s
                end
      end
  | None => s
  end.

(** [true] when the session ended with this line.  [message] is a string, as its
    type says. *)
Definition handleLine (ref : nat) (raw : string) : pty bool :=
  match json_parse raw with
  | None => Ret false
  | Some JNull => Throw (PlainError "TypeError")
  | Some event =>
      match json_string "t" event, json_string "d" event with
      | Some "out", Some d => on_state (output_line ref d) ;;; Ret false
      | Some "exit", _ =>
          finish ref (ev_exit match json_field "code" event with Some (JNum n) => n | _ => -1 end)
            "el shell terminó" ;;;
          Ret true
      | Some "error", _ =>
          finish ref (ev_error (default "Falló la terminal." (json_string "message" event)))
            "error de la terminal" ;;;
          Ret true
      | _, _ => Ret false
      end
  end.

(** The complete lines of [pending], and what follows the last newline. *)
Fixpoint split_lines (acc pending : text) : list text * text :=
  match pending with
  | [] => ([], rev acc)
  | 10 :: rest => let '(lines, last) := split_lines [] rest in (rev acc :: lines, last)
  | c :: rest => split_lines (c :: acc) rest
  end.

Fixpoint handleLines (ref : nat) (lines : list text) : pty bool :=
  match lines with
  | [] => Ret false
  | line :: lines' =>
      match trim line with
      | [] => handleLines ref lines'
      | raw =>
          ended <- handleLine ref (written raw) ;;
          if ended : bool then Ret true else handleLines ref lines'
      end
  end.

(** [TextDecoder.decode] of a chunk of a stream, without its byte order mark. *)
Fixpoint utf8_run (st : Utf8State) (l : bytes) : Utf8State * text :=
  match l with
  | [] => (st, [])
  | b :: l' => let '(st, out) := utf8_step st b in let '(st, out') := utf8_run st l' in (st, out ++ out')
  end.

(** The reads of the body: a chunk, or [None] when the read fails. *)
Fixpoint readStream (ref : nat) (st : Utf8State) (started : bool) (pending : text)
    (reads : list (option bytes)) : pty unit :=
  match reads with
  | [] => Ret tt
  | None :: _ => Throw (PlainError "terminated")
  | Some value :: reads' =>
      let '(st, out) := utf8_run st value in
      let text := match out with 65279 :: r => if started then out else r | _ => out end in
      let started := started || negb (bool_decide (out = [])) in
      let '(lines, pending) := split_lines [] (pending ++ text) in
      ended <- handleLines ref lines ;;
      if ended : bool then Ret tt else readStream ref st started pending reads'
  end.

Definition is_ended (ref : nat) (s : PtyState) : bool :=
  match pt_heap s !! ref with Some x => match s_ended x with Some _ => true | None => false end | None => true end.
Definition is_aborted (ref : nat) (s : PtyState) : bool :=
  match pt_heap s !! ref with Some x => s_aborted x | None => true end.

(** [streams] are the bodies of the answers to [ptyOutput], in order; the loop goes
    on while there are. *)
Fixpoint pump (ref : nat) (workspaceId ptyId : string) (failures : nat)
    (streams : list (list (option bytes))) : pty unit :=
  over <- read_state (fun s => is_ended ref s || is_aborted ref s) ;;
  if over : bool then Ret tt
  else
    match streams with
    | [] => Ret tt
    | stream :: streams' =>
        let again failures :=
          ended <- read_state (is_ended ref) ;;
          if ended : bool then Ret tt
          else service (sleep (500 * (Z.of_nat failures + 1))) ;;;
               pump ref workspaceId ptyId failures streams' in
        try_with
          (try_with (ptyOutput baseUrl workspaceId ptyId (read_state (is_aborted ref)))
             (fun _ => catch (readStream ref between false [] stream ;;; Ret (0%nat, None))
                         (fun e => Ret (0%nat, Some e)))
             (fun e => Ret (failures, Some e)))
          (fun r =>
             match r with
             | (failures, None) => again failures
             | (failures, Some error) =>
                 over <- read_state (fun s => is_ended ref s || is_aborted ref s) ;;
                 if over : bool then Ret tt
                 else
                   match error with
                   | TerminalUpstreamError _ 404 _ =>
                       finish ref (ev_error "La terminal ya no existe en el servidor.")
                         "ya no existía en el Executor"
                   | _ =>
                       if (PUMP_MAX_RETRIES <? S failures)%nat
                       then finish ref (ev_error "Se perdió la conexión con la terminal.") "conexión perdida"
                       else again (S failures)
                   end
             end)
          Throw
    end.
End Service.
End TerminalPty.
