(* ===== verification/TerminalSafety.v ===== *)
(** * TerminalSafety: what the interactive terminal never does

    The theorems on [TerminalPty.v] that hold however its methods, the callbacks of
    its timers and the other services interleave. *)
From S2P Require Import Prelude Effects Js Text PtyGate Registry Store AuditApi AuditLog Models Frame TerminalClient TerminalPty.
Local Open Scope stdpp_scope.
Local Open Scope Z_scope.
Local Open Scope jin_scope.

(** ** The seats of the sessions *)

(** What of a session only its chain of input writes, with its names. *)
Record Seat := { st_ws : string; st_id : string; st_gate : PtyInputGate; st_busy : bool }.

Definition seat_of (x : PtySession) : Seat :=
  {| st_ws := s_workspaceId x; st_id := s_ptyId x; st_gate := s_gate x; st_busy := s_processing x |}.

Lemma seat_of_eq x ws id g b :
  seat_of x = {| st_ws := ws; st_id := id; st_gate := g; st_busy := b |} ->
  s_workspaceId x = ws /\ s_ptyId x = id /\ s_gate x = g /\ s_processing x = b.
Proof. by intros [= -> -> -> ->]. Qed.

Definition seat (ref : nat) (s : PtyState) : option Seat := seat_of <$> pt_heap s !! ref.

(** The steps of a session whose bytes were handed to the executor. *)
Definition keystrokes (ref : nat) (s : PtyState) : list PtyInputStep :=
  omap (fun '(r, step) => if decide (r = ref) then Some step else None) (pt_forwarded s).

Definition seat_kept (s s' : PtyState) (ref : nat) : Prop :=
  match seat ref s, seat ref s' with
  | Some a, Some a' => a' = a
  | Some _, None => False
  | None, Some a' => st_gate a' = new_PtyInputGate /\ st_busy a' = false
  | None, None => True
  end.

(** Nothing was forwarded and no session in the heap was taken: new ones are idle. *)
Definition kept (s s' : PtyState) : Prop :=
  pt_forwarded s' = pt_forwarded s /\ forall ref, seat_kept s s' ref.

#[export] Instance kept_preorder : PreOrder kept.
Proof.
  split; [intros s; split; [done|]; intros ref; unfold seat_kept; by destruct (seat ref s)|].
  intros s1 s2 s3 [A1 B1] [A2 B2]. split; [congruence|]. intros ref. specialize (B1 ref). specialize (B2 ref).
  unfold seat_kept in *. destruct (seat ref s1), (seat ref s2), (seat ref s3); naive_solver.
Qed.

Lemma kept_heap s0 s s' :
  pt_heap s' = pt_heap s -> pt_forwarded s' = pt_forwarded s -> kept s0 s -> kept s0 s'.
Proof.
  intros Hh Hf [A B]. split; [congruence|]. intros ref. specialize (B ref). unfold seat_kept, seat in *. by rewrite Hh.
Qed.

Lemma kept_upd s0 s ref f :
  (forall x, pt_heap s !! ref = Some x -> seat_of (f x) = seat_of x) ->
  kept s0 s -> kept s0 (upd_session ref f s).
Proof.
  intros Hf. intros H. etrans; [exact H|]. split; [done|]. intros ref'. unfold seat_kept, seat. cbn.
  destruct (decide (ref' = ref)) as [->|]; [|rewrite list_lookup_alter_ne by done; by destruct (pt_heap s !! ref')].
  rewrite list_lookup_alter_eq. destruct (pt_heap s !! ref) as [x|]; cbn; auto.
Qed.

Lemma kept_sessions s0 f s : kept s0 s -> kept s0 (upd_sessions f s).
Proof. by apply kept_heap. Qed.

Lemma kept_byWorkspace s0 f s : kept s0 s -> kept s0 (upd_byWorkspace f s).
Proof. by apply kept_heap. Qed.

Lemma kept_deliver s0 l e s : kept s0 s -> kept s0 (deliver l e s).
Proof. by apply kept_heap. Qed.

Lemma kept_fold_deliver s0 l (es : list PtyEvent) s :
  kept s0 s -> kept s0 (fold_left (fun s e => deliver l e s) es s).
Proof. revert s. induction es as [|e es IH]; intros s H; cbn; [done|]. by apply IH, kept_deliver. Qed.

Lemma kept_notify s0 ref e s : kept s0 s -> kept s0 (TerminalPty.notify ref e s).
Proof. intros H. unfold TerminalPty.notify. case_match; [by apply kept_deliver|done]. Qed.

Lemma kept_attach s0 ref l s : kept s0 s -> kept s0 (TerminalPty.attach ref l s).
Proof.
  intros H. unfold TerminalPty.attach. assert (H' := H). eapply (kept_upd _ _ ref (fun x => set_listener (Some l) (set_detachTimer timer_none x))) in H'; [|done].
  case_match; [by apply kept_fold_deliver|done].
Qed.

Lemma kept_new s0 x s :
  s_gate x = new_PtyInputGate -> s_processing x = false -> kept s0 s -> kept s0 (new_session x s).
Proof.
  intros Hg Hp H. etrans; [exact H|]. split; [done|]. intros ref. unfold seat_kept, seat. cbn.
  destruct (pt_heap s !! ref) as [y|] eqn:E; cbn; [by rewrite (lookup_app_l_Some _ _ _ _ E)|].
  rewrite lookup_app_r by (by apply lookup_ge_None). destruct (_ - _)%nat; cbn; [by split|done].
Qed.

(** Go back through the calls that build a state. *)
Ltac kept_tac :=
  intros; repeat first
    [ reflexivity
    | apply kept_attach | apply kept_notify | apply kept_deliver | apply kept_fold_deliver
    | apply kept_new; [done|done|]
    | apply kept_upd; [by intros; cbv zeta; repeat case_match|]
    | progress cbv zeta | progress cbn [fst snd] | case_match; simplify_eq
    | apply kept_sessions | apply kept_byWorkspace ].

(** ** Quiet actions

    An action is quiet if it types no keys: it may append to the audit log, send
    requests without data and open idle sessions. *)

Definition carries_data (r : HttpRequest) : bool :=
  match rq_body r ≫= json_field "data" with Some _ => true | None => false end.

Definition data_requests (v : PtyWorld) : list HttpRequest :=
  List.filter carries_data (h_requests (tm_http v)).

Definition quiet (v v' : PtyWorld) : Prop :=
  log_of v `prefix_of` log_of v' /\ kept (tm_state v) (tm_state v') /\ data_requests v' = data_requests v.

#[export] Instance quiet_preorder : PreOrder quiet.
Proof.
  split; [by split|]. intros v1 v2 v3 (A1 & B1 & C1) (A2 & B2 & C2).
  split; [by etrans|split; [by etrans|congruence]].
Qed.

Definition keeps_log (w w' : World) : Prop := audit_log (w_audit w) `prefix_of` audit_log (w_audit w').

Lemma quiet_service {A} (p : jin A) : steps keeps_log p -> steps quiet (service p : pty A).
Proof. intros Hp. eapply steps_zoom; [|exact Hp]. intros w' v H. by split. Qed.

Lemma quiet_on_state f : (forall t s, kept s (f t s)) -> steps quiet (on_state f).
Proof. intros H. split; [|done]. intros v. split; [done|]. by split; [apply H|]. Qed.

Lemma quiet_sync_state {X} (f : Z -> PtyState -> PtyState * (JinError + X)) :
  (forall t s, kept s (f t s).1) -> steps quiet (sync_state f).
Proof.
  intros H. split; [|by intros []]. intros v. specialize (H (clock_of v) (tm_state v)).
  destruct (f (clock_of v) (tm_state v)). by split.
Qed.

Lemma quiet_read_world {X} (f : PtyState -> X) : steps quiet (read_state f).
Proof. by split. Qed.

Lemma data_requests_add r v :
  data_requests (add_request r v) = data_requests v ++ (if carries_data r then [r] else []).
Proof. unfold data_requests. cbn. rewrite List.filter_app. cbn. by destruct (carries_data r). Qed.

Lemma quiet_send {Parser : JsonParse} baseUrl method path body (aborted : pty bool) :
  (forall b, body = Some b -> json_field "data" b = None) -> steps quiet aborted ->
  steps quiet (send baseUrl method path body aborted).
Proof.
  intros Hb Ha. unfold send. apply steps_bind.
  - split; [|done]. intros v. split; [done|split; [done|]]. etrans; [apply data_requests_add|].
    unfold carries_data. cbn. destruct body as [b|]; cbn; [rewrite (Hb b eq_refl)|]; by rewrite app_nil_r.
  - intros [|st pr txt]; [apply steps_bind; [done|by intros []]|]. by case_match.
Qed.

Lemma quiet_json_request {Parser : JsonParse} baseUrl method path body :
  (forall b, body = Some b -> json_field "data" b = None) ->
  steps quiet (json_request baseUrl method path body : pty json).
Proof.
  intros Hb. unfold json_request. apply steps_bind; [by apply quiet_send|]. intros r. unfold json_of. by case_match.
Qed.

Lemma quiet_send_only {Parser : JsonParse} baseUrl method path body :
  (forall b, body = Some b -> json_field "data" b = None) ->
  steps quiet (send_only baseUrl method path body : pty unit).
Proof. intros Hb. unfold send_only. apply steps_bind; [by apply quiet_send|done]. Qed.

Section Quiet.
Context `{Laws : AuditApiLaws} `{Crypto : NodeCrypto} {Parser : JsonParse} (baseUrl : string).

Lemma quiet_audit toolName inputs summary : steps quiet (TerminalPty.audit toolName inputs summary).
Proof.
  unfold TerminalPty.audit, record_call. apply steps_bind.
  - apply quiet_service. split; [|done]. intros w. unfold keeps_log. reflexivity.
  - intros requestId. apply steps_bind; [|done]. apply quiet_service.
    eapply steps_mono; [|eapply appends_steps, audit_toolCall_appends]. intros w w' [_ H]; exact H.
Qed.

Lemma quiet_sleep ms : steps quiet (service (sleep ms) : pty unit).
Proof. apply quiet_service. split; [|done]. intros w. unfold keeps_log. reflexivity. Qed.

#[local] Hint Resolve quiet_audit quiet_sleep quiet_read_world : frames.
#[local] Hint Extern 2 (steps quiet (send_only _ _ _ _)) =>
  (apply quiet_send_only; intros b [=]; subst; reflexivity) : frames.

Lemma quiet_finish ref e reason : steps quiet (TerminalPty.finish ref e reason).
Proof.
  unfold TerminalPty.finish. frame_tac. unfold TerminalPty.finish_begin. apply quiet_sync_state. kept_tac.
Qed.
#[local] Hint Resolve quiet_finish : frames.

Lemma quiet_resize ptyId size : steps quiet (TerminalPty.resize baseUrl ptyId size).
Proof. unfold TerminalPty.resize, ptyResize. frame_tac. Qed.
#[local] Hint Resolve quiet_resize : frames.

Lemma quiet_close ptyId reason : steps quiet (TerminalPty.close baseUrl ptyId reason).
Proof. unfold TerminalPty.close, closePty. frame_tac. Qed.
#[local] Hint Resolve quiet_close : frames.

Lemma quiet_openPty ws size : steps quiet (openPty baseUrl ws size : pty string).
Proof. unfold openPty. apply steps_bind; [|done]. apply quiet_json_request. by intros b [= <-]. Qed.
#[local] Hint Resolve quiet_openPty : frames.

Lemma quiet_openOrAttach ws size l ka : steps quiet (TerminalPty.openOrAttach baseUrl ws size l ka).
Proof.
  unfold TerminalPty.openOrAttach. apply steps_bind.
  - unfold TerminalPty.open_begin. split; [|by intros []]. intros v.
    split; [repeat case_match; reflexivity|split; [|by repeat case_match]]; repeat case_match; cbn; kept_tac.
  - unfold TerminalPty.open_commit. frame_tac; apply quiet_on_state; kept_tac.
Qed.

Lemma quiet_detach ptyId l : steps quiet (TerminalPty.detach ptyId l).
Proof. apply quiet_on_state. kept_tac. Qed.

Lemma quiet_setKeepAlive ptyId ms : steps quiet (TerminalPty.setKeepAlive ptyId ms).
Proof. apply quiet_on_state. kept_tac. Qed.

Lemma quiet_input ptyId data : steps quiet (TerminalPty.input ptyId data).
Proof.
  apply quiet_sync_state. intros t s. unfold session_of.
  destruct (pt_sessions s !! ptyId) as [ref|]; [|reflexivity]. cbn [mbind option_bind].
  destruct (pt_heap s !! ref) as [x|] eqn:Ex; [|reflexivity]. cbn [mbind option_bind].
  destruct (s_ended x); [reflexivity|]. unfold TerminalPty.withinRate. cbv zeta.
  destruct (if 1000 <=? t - s_rateWindowStart x then _ else _) as [start rate].
  assert (Hk : kept s (upd_session ref (fun _ => set_rate start (rate + Z.of_nat (length data)) x) s)).
  { apply kept_upd; [|reflexivity]. intros y Hy. by simplify_eq. }
  destruct (_ <=? _); cbn [fst]; [by apply kept_upd|by apply kept_notify].
Qed.

Lemma quiet_detachTimerFires ref : steps quiet (TerminalPty.detachTimerFires baseUrl ref).
Proof. unfold TerminalPty.detachTimerFires. frame_tac. apply quiet_sync_state. kept_tac. Qed.

Lemma quiet_lingerTimerFires ref : steps quiet (TerminalPty.lingerTimerFires ref).
Proof. apply quiet_on_state. kept_tac. Qed.

Lemma quiet_onModuleDestroy : steps quiet TerminalPty.onModuleDestroy.
Proof.
  apply quiet_on_state. intros t s. cut (forall l s0, kept s s0 -> kept s (fold_left (fun s kv =>
    upd_session kv.2 (fun x => set_aborted (set_lingerTimer timer_fired (set_detachTimer
      match s_detachTimer x with timer_none => timer_none | _ => timer_fired end x))) s)
    (l : list (string * nat)) s0)); [intros H; by apply H|].
  induction l as [|kv l IH]; intros s0 H; cbn; [done|]. apply IH. by apply kept_upd.
Qed.

Lemma quiet_handleLine ref raw : steps quiet (TerminalPty.handleLine ref raw).
Proof.
  unfold TerminalPty.handleLine. frame_tac; apply quiet_on_state; unfold TerminalPty.output_line, TerminalPty.remember, TerminalPty.armDetachTimer; kept_tac.
Qed.
#[local] Hint Resolve quiet_handleLine : frames.

Lemma quiet_handleLines ref lines : steps quiet (TerminalPty.handleLines ref lines).
Proof. induction lines as [|l lines IH]; cbn; frame_tac. Qed.
#[local] Hint Resolve quiet_handleLines : frames.

Lemma quiet_readStream ref st started pending reads :
  steps quiet (TerminalPty.readStream ref st started pending reads).
Proof.
  revert st started pending. induction reads as [|[value|] reads IH]; intros; cbn [TerminalPty.readStream]; [done| |done].
  destruct (TerminalPty.utf8_run st value) as [st' out]. cbv zeta.
  destruct (TerminalPty.split_lines _ _) as [lines rest].
  apply steps_bind; [apply quiet_handleLines|]. intros []; [done|apply IH].
Qed.
#[local] Hint Resolve quiet_readStream : frames.

Lemma quiet_ptyOutput ws ptyId ref :
  steps quiet (ptyOutput baseUrl ws ptyId (read_state (TerminalPty.is_aborted ref))).
Proof. by apply quiet_send. Qed.
#[local] Hint Resolve quiet_ptyOutput : frames.

Lemma quiet_pump ref ws ptyId failures streams :
  steps quiet (TerminalPty.pump baseUrl ref ws ptyId failures streams).
Proof.
  revert failures. induction streams as [|stream streams IH]; intros failures; cbn [TerminalPty.pump]; frame_tac.
Qed.
End Quiet.

(** ** The keys of the owner *)

Section Keys.
Context `{Laws : AuditApiLaws} `{Crypto : NodeCrypto} {Parser : JsonParse} (baseUrl : string).

(** The audit row of a line of a terminal. *)
Definition line_row (requestId workspaceId : string) (line : text) : AppendableRow :=
  tool_call_row requestId TERMINAL_ACTOR RUN_TERMINAL_COMMAND_TOOL
    (computeInputsHash (Some (JObj [("workspaceId", JStr workspaceId); ("command", JStr (written line));
                                    ("interactive", JBool true)])))
    (Some ("terminal (interactiva): " +:+ written (Redact.auditPreview line AUDIT_COMMAND_PREVIEW_LENGTH)))
    "auto" None.

Definition recorded_line (workspaceId : string) (line : text) (v : PtyWorld) : Prop :=
  exists requestId, recorded (line_row requestId workspaceId line) (tm_world v).

(** The request that carries the bytes of a step. *)
Definition input_request (workspaceId ptyId : string) (step : PtyInputStep) : HttpRequest :=
  {| rq_method := "POST"; rq_url := baseUrl +:+ pty_path workspaceId ptyId +:+ "/input";
     rq_body := Some (JObj [("data", JStr (base64_encode (ps_bytes step)))]) |}.

Definition ctrl_c : PtyInputStep := {| ps_bytes := [3]; ps_line := None |}.

(** What a session may have forwarded when no message of its chain is in course, and
    the gate it has then: the steps of its gate for each message in turn; of a message
    that fails only some, then Ctrl+C, and the gate starts again. *)
Inductive typed : PtyInputGate -> list PtyInputStep -> Prop :=
| typed_nothing : typed new_PtyInputGate []
| typed_message g l data : typed g l -> typed (PtyGate.feed data g).2 (l ++ (PtyGate.feed data g).1)
| typed_failure g l data k :
    typed g l -> typed new_PtyInputGate (l ++ take k (PtyGate.feed data g).1 ++ [ctrl_c]).

(** The same with a message in course. *)
Definition in_course (l : list PtyInputStep) : Prop :=
  exists g base data k, typed g base /\ l = base ++ take k (PtyGate.feed data g).1.

Lemma typed_in_course g l : typed g l -> in_course l.
Proof. intros H. exists g, l, [], 0%nat. split; [done|]. by rewrite app_nil_r. Qed.

(** Every request with data carries a step of a session, the line of each step is in
    the audit log, and the sessions are typed. *)
Record typing_ok (v : PtyWorld) : Prop := {
  ok_requests r : r ∈ data_requests v ->
    exists ref a step, seat ref (tm_state v) = Some a /\ step ∈ keystrokes ref (tm_state v) /\
      r = input_request (st_ws a) (st_id a) step;
  ok_lines ref a step line : seat ref (tm_state v) = Some a -> step ∈ keystrokes ref (tm_state v) ->
    ps_line step = Some line -> recorded_line (st_ws a) line v;
  ok_nothing ref : seat ref (tm_state v) = None -> keystrokes ref (tm_state v) = [];
  ok_seats ref a : seat ref (tm_state v) = Some a ->
    in_course (keystrokes ref (tm_state v)) /\
    (st_busy a = false -> typed (st_gate a) (keystrokes ref (tm_state v)))
}.

Lemma recorded_line_grows ws line v v' :
  log_of v `prefix_of` log_of v' -> recorded_line ws line v -> recorded_line ws line v'.
Proof. intros Hl [rid H]. exists rid. by eapply recorded_prefix. Qed.

Lemma kept_keystrokes s s' ref : kept s s' -> keystrokes ref s' = keystrokes ref s.
Proof. intros [Hf _]. unfold keystrokes. by rewrite Hf. Qed.

Lemma kept_seat s s' ref a : kept s s' -> seat ref s = Some a -> seat ref s' = Some a.
Proof. intros [_ H] Ha. specialize (H ref). unfold seat_kept in H. rewrite Ha in H. by destruct (seat ref s') as [a'|]; [subst|]. Qed.

Lemma kept_seat_inv s s' ref a :
  kept s s' -> seat ref s' = Some a ->
  seat ref s = Some a \/ seat ref s = None /\ st_gate a = new_PtyInputGate /\ st_busy a = false.
Proof. intros [_ H] Ha. specialize (H ref). unfold seat_kept in H. rewrite Ha in H. destruct (seat ref s); naive_solver. Qed.

Lemma quiet_ok v v' : quiet v v' -> typing_ok v -> typing_ok v'.
Proof.
  intros (Hl & Hk & Hr) [H1 H2 H3 H4]. split.
  - intros r. rewrite Hr. intros (ref & a & step & Ha & Hs & ->)%H1. exists ref, a, step.
    rewrite (kept_keystrokes _ _ _ Hk). split; [by eapply kept_seat|done].
  - intros ref a step line Ha. rewrite (kept_keystrokes _ _ _ Hk). intros Hs Hline.
    apply (recorded_line_grows _ _ v); [done|].
    destruct (kept_seat_inv _ _ _ _ Hk Ha) as [Ha'|[Hn _]]; [by eapply H2|].
    rewrite (H3 _ Hn) in Hs. by apply elem_of_nil in Hs.
  - intros ref Hn. rewrite (kept_keystrokes _ _ _ Hk). apply H3.
    destruct (seat ref (tm_state v)) eqn:E; [|done]. by rewrite (kept_seat _ _ _ _ Hk E) in Hn.
  - intros ref a Ha. rewrite (kept_keystrokes _ _ _ Hk).
    destruct (kept_seat_inv _ _ _ _ Hk Ha) as [Ha'|(Hn & -> & Hb)]; [by apply H4|].
    rewrite (H3 _ Hn). split; [apply (typed_in_course new_PtyInputGate), typed_nothing|intros _; apply typed_nothing].
Qed.

(** *** The link of a chain in course *)

Inductive Stage :=
| stage_still
| stage_sending (rest : list PtyInputStep)
| stage_dropped.

(** What a link knows between two actions: that the row of a line was recorded, or
    that the bytes of a step are about to leave. *)
Inductive Note := note_none | note_recorded (data : AppendableRow) | note_handed (step : PtyInputStep).

Inductive KeyPhase := ph_idle | ph_serving (ref : nat) (ws id : string) (stage : Stage) (note : Note).

Definition holder (ph : KeyPhase) : option nat :=
  match ph with ph_idle => None | ph_serving ref _ _ _ _ => Some ref end.

Definition stage_holds (stage : Stage) (g : PtyInputGate) (l : list PtyInputStep) : Prop :=
  match stage with
  | stage_still => typed g l
  | stage_sending rest => exists g0 base data done, typed g0 base /\
      PtyGate.feed data g0 = (done ++ rest, g) /\ l = base ++ done
  | stage_dropped => g = new_PtyInputGate /\ in_course l
  end.

Definition note_holds (ref : nat) (note : Note) (v : PtyWorld) : Prop :=
  match note with
  | note_none => True
  | note_recorded data => recorded data (tm_world v)
  | note_handed step => step ∈ keystrokes ref (tm_state v)
  end.

Definition key_holds (ph : KeyPhase) (v : PtyWorld) : Prop :=
  match ph with
  | ph_idle => True
  | ph_serving ref ws id stage note =>
      (exists g, seat ref (tm_state v) = Some {| st_ws := ws; st_id := id; st_gate := g; st_busy := true |} /\
         stage_holds stage g (keystrokes ref (tm_state v))) /\
      note_holds ref note v
  end.

(** An action is one of the session it serves: it leaves the others as they are, and
    takes a session only when it is idle. *)
Definition key_moves (ph : KeyPhase) (v v' : PtyWorld) (ph' : KeyPhase) : Prop :=
  key_holds ph v -> typing_ok v ->
  log_of v `prefix_of` log_of v' /\
  (forall ref, holder ph <> Some ref -> holder ph' <> Some ref ->
     seat_kept (tm_state v) (tm_state v') ref /\ keystrokes ref (tm_state v') = keystrokes ref (tm_state v)) /\
  match holder ph, holder ph' with
  | None, Some ref => exists a, seat ref (tm_state v) = Some a /\ st_busy a = false
  | Some ref, Some ref' => ref' = ref
  | _, None => True
  end /\
  typing_ok v' /\ key_holds ph' v'.

Abbreviation keeps_keys := (follows key_holds key_moves).

Lemma elem_filter_true {A} (f : A -> bool) l x : x ∈ List.filter f l <-> x ∈ l /\ f x = true.
Proof. rewrite !list_elem_of_In. apply List.filter_In. Qed.

(** A phase keeps through what others do and through quiet actions. *)
Lemma key_holds_kept ph v v' :
  log_of v `prefix_of` log_of v' ->
  (forall ref, holder ph = Some ref -> seat_kept (tm_state v) (tm_state v') ref /\
     keystrokes ref (tm_state v') = keystrokes ref (tm_state v)) ->
  key_holds ph v -> key_holds ph v'.
Proof.
  intros Hl Hk. destruct ph as [|ref ws id stage note]; [done|].
  destruct (Hk ref eq_refl) as [Hs Hf]. intros [(g & Hg & Hst) Hn]. cbn. rewrite Hf. split.
  - exists g. split; [|done]. unfold seat_kept in Hs. rewrite Hg in Hs. by destruct (seat ref (tm_state v')); [subst|].
  - destruct note; cbn in *; [done|by eapply recorded_prefix|by rewrite Hf].
Qed.

Lemma quiet_moves ph v v' : quiet v v' -> key_moves ph v v' ph.
Proof.
  intros Hq Hh Hk. pose proof Hq as (Hl & Hkept & _).
  assert (Hs : forall ref, seat_kept (tm_state v) (tm_state v') ref /\
    keystrokes ref (tm_state v') = keystrokes ref (tm_state v)).
  { intros ref. split; [apply Hkept|by apply kept_keystrokes]. }
  split; [done|]. split; [auto|]. split; [by destruct (holder ph)|].
  split; [by eapply quiet_ok|]. by eapply key_holds_kept.
Qed.

Lemma keeps_keys_quiet {A} ph (p : pty A) : steps quiet p -> keeps_keys ph p (fun ph' _ => ph' = ph).
Proof. intros Hp. eapply follows_steps; [|exact Hp]. intros v v' _. by apply quiet_moves. Qed.

Lemma seat_upd ref f ref' s :
  seat ref' (upd_session ref f s) =
  if decide (ref' = ref) then (fun x => seat_of (f x)) <$> pt_heap s !! ref else seat ref' s.
Proof.
  unfold seat. cbn. case_decide as E; [subst; rewrite list_lookup_alter_eq|by rewrite list_lookup_alter_ne].
  by destruct (pt_heap s !! ref).
Qed.

(** An action on the seat of the session served. *)
Lemma moves_seat ph ph' ref f a a' v :
  seat ref (tm_state v) = Some a ->
  (forall x, pt_heap (tm_state v) !! ref = Some x -> seat_of (f x) = a') ->
  st_ws a' = st_ws a -> st_id a' = st_id a ->
  (st_busy a' = false -> typed (st_gate a') (keystrokes ref (tm_state v))) ->
  (holder ph = Some ref \/ holder ph = None /\ holder ph' = Some ref /\ st_busy a = false) ->
  (holder ph' = Some ref \/ holder ph' = None) ->
  (forall v', keystrokes ref (tm_state v') = keystrokes ref (tm_state v) ->
     log_of v' = log_of v -> seat ref (tm_state v') = Some a' -> key_holds ph' v') ->
  key_moves ph v (put_state (upd_session ref f (tm_state v)) v) ph'.
Proof.
  intros Ha Hf Hws Hid Hb Hho Hho' Hh' _ Hk. set (v' := put_state _ v).
  assert (Hs' : seat ref (tm_state v') = Some a').
  { cbn. rewrite seat_upd, decide_True by done. unfold seat in Ha.
    destruct (pt_heap (tm_state v) !! ref) as [x|] eqn:Ex; [|done]. cbn. by rewrite Hf. }
  assert (Hother : forall r, r <> ref -> seat r (tm_state v') = seat r (tm_state v)).
  { intros r Hr. cbn. by rewrite seat_upd, decide_False. }
  split; [done|]. split.
  { intros r Hr Hr'. split; [|done]. assert (r <> ref) as Hne by (intros ->; naive_solver).
    unfold seat_kept. rewrite (Hother _ Hne). by destruct (seat r (tm_state v)). }
  split.
  { destruct Hho as [-> |(-> & -> & Hba)]; [destruct Hho' as [-> | ->]; done|]. by exists a. }
  split; [|by apply Hh'].
  destruct Hk as [H1 H2 H3 H4]. split.
  - intros r (ref' & b & step & Hb' & Hs & ->)%H1. destruct (decide (ref' = ref)) as [->|Hne].
    + exists ref, a', step. rewrite Ha in Hb'. injection Hb' as <-. by rewrite Hws, Hid.
    + exists ref', b, step. by rewrite Hother.
  - intros ref' b step line Hb' Hs Hline. destruct (decide (ref' = ref)) as [->|Hne].
    + rewrite Hs' in Hb'. injection Hb' as <-. rewrite Hws. by eapply (H2 ref a).
    + rewrite Hother in Hb' by done. by eapply (H2 ref' b).
  - intros ref' Hn. destruct (decide (ref' = ref)) as [->|Hne]; [by rewrite Hs' in Hn|].
    rewrite Hother in Hn by done. by apply H3.
  - intros ref' b Hb'. destruct (decide (ref' = ref)) as [->|Hne].
    + rewrite Hs' in Hb'. injection Hb' as <-. split; [by eapply (H4 ref a)|exact Hb].
    + rewrite Hother in Hb' by done. by apply (H4 ref' b).
Qed.

Lemma stage_in_course stage g l : stage_holds stage g l -> in_course l.
Proof.
  destruct stage as [|rest|]; cbn; [apply typed_in_course| |by intros [_ H]].
  intros (g0 & base & data & d & Ht & Hf & ->). exists g0, base, data, (length d).
  split; [done|]. rewrite Hf. cbn [fst]. by rewrite take_app_length.
Qed.

(** The step that is handed over brings the session from a stage to another. *)
Inductive hands (ref : nat) (ws : string) (step : PtyInputStep) : Stage -> Note -> Stage -> Prop :=
| hands_next rest note :
    match ps_line step with Some line => exists rid, note = note_recorded (line_row rid ws line) | None => True end ->
    hands ref ws step (stage_sending (step :: rest)) note (stage_sending rest)
| hands_cancel note : step = ctrl_c -> hands ref ws step stage_dropped note stage_still.

Lemma hands_stage ref ws step stage note stage' g l :
  hands ref ws step stage note stage' -> stage_holds stage g l -> stage_holds stage' g (l ++ [step]).
Proof.
  intros [rest note' _|note' ->]; cbn.
  - intros (g0 & base & data & d & Ht & Hf & ->). exists g0, base, data, (d ++ [step]).
    rewrite <- !app_assoc. by split.
  - intros [-> (g0 & base & data & k & Ht & ->)]. rewrite <- app_assoc. by apply typed_failure.
Qed.

Lemma hands_line ref ws step stage note stage' line v :
  hands ref ws step stage note stage' -> note_holds ref note v -> ps_line step = Some line -> recorded_line ws line v.
Proof.
  intros [rest note' Hn|note' ->] Hh Hl; [|discriminate Hl]. rewrite Hl in Hn. destruct Hn as [rid ->]. by exists rid.
Qed.

Lemma keystrokes_forwarded ref ref' step s :
  keystrokes ref' (forwarded ref step s) = keystrokes ref' s ++ (if decide (ref' = ref) then [step] else []).
Proof.
  unfold keystrokes. cbn. rewrite omap_app. cbn. repeat case_decide; subst; done.
Qed.

Lemma moves_hand ref ws id stage note stage' step v :
  hands ref ws step stage note stage' ->
  key_moves (ph_serving ref ws id stage note) v (put_state (forwarded ref step (tm_state v)) v)
    (ph_serving ref ws id stage' (note_handed step)).
Proof.
  intros Hh [(g & Hg & Hst) Hn] [H1 H2 H3 H4]. set (v' := put_state _ v).
  assert (Hmono : forall r st, st ∈ keystrokes r (tm_state v) -> st ∈ keystrokes r (tm_state v')).
  { intros r st Hs. change (tm_state v') with (forwarded ref step (tm_state v)). rewrite keystrokes_forwarded. apply elem_of_app. by left. }
  assert (Hown : keystrokes ref (tm_state v') = keystrokes ref (tm_state v) ++ [step]).
  { change (tm_state v') with (forwarded ref step (tm_state v)). by rewrite keystrokes_forwarded, decide_True. }
  assert (Hother : forall r, r <> ref -> keystrokes r (tm_state v') = keystrokes r (tm_state v)).
  { intros r Hr. change (tm_state v') with (forwarded ref step (tm_state v)). by rewrite keystrokes_forwarded, decide_False, app_nil_r. }
  split; [done|]. split.
  { intros r Hr _. split; [|apply Hother; cbn in Hr; congruence]. unfold seat_kept. change (seat r (tm_state v')) with (seat r (tm_state v)).
    by destruct (seat r (tm_state v)). }
  split; [done|]. split.
  - split.
    + intros r (ref' & a & st & Ha & Hs & ->)%H1. exists ref', a, st. auto.
    + intros ref' a st line Ha Hs Hl. destruct (decide (ref' = ref)) as [->|Hne]; [|rewrite Hother in Hs by done; by eapply (H2 ref')].
      rewrite Hown in Hs. apply elem_of_app in Hs as [Hs|Hs]; [by eapply (H2 ref)|].
      apply list_elem_of_singleton in Hs as ->. change (seat ref (tm_state v) = Some a) in Ha. rewrite Hg in Ha. injection Ha as <-.
      exact (hands_line _ _ _ _ _ _ _ _ Hh Hn Hl).
    + intros ref' Hnone. destruct (decide (ref' = ref)) as [->|Hne]; [|rewrite Hother by done; by apply H3].
      change (seat ref (tm_state v) = None) in Hnone. by rewrite Hg in Hnone.
    + intros ref' a Ha. destruct (decide (ref' = ref)) as [->|Hne]; [|rewrite Hother by done; by apply H4].
      change (seat ref (tm_state v) = Some a) in Ha. rewrite Hg in Ha. injection Ha as <-. rewrite Hown. split; [|done].
      eapply stage_in_course, hands_stage; eauto.
  - cbn [key_holds]. rewrite Hown. split; [|change (step ∈ keystrokes ref (tm_state v')); rewrite Hown; apply elem_of_app; right; by left].
    exists g. split; [exact Hg|]. eapply hands_stage; eauto.
Qed.

Lemma moves_request ref ws id stage step v :
  key_moves (ph_serving ref ws id stage (note_handed step)) v (add_request (input_request ws id step) v)
    (ph_serving ref ws id stage note_none).
Proof.
  intros [(g & Hg & Hst) Hn] [H1 H2 H3 H4]. split; [done|]. split.
  { intros r _ _. split; [|done]. unfold seat_kept. cbn. by destruct (seat r (tm_state v)). }
  split; [done|]. split; [|split; [by exists g|done]].
  split; [|exact H2|exact H3|exact H4]. intros r. rewrite data_requests_add.
  intros [Hin|Hin]%elem_of_app; [by apply H1|]. change (carries_data _) with true in Hin. cbn in Hin.
  apply list_elem_of_singleton in Hin as ->. by exists ref, {| st_ws := ws; st_id := id; st_gate := g; st_busy := true |}, step.
Qed.

Lemma keeps_keys_forward ref ws id stage note stage' step :
  hands ref ws step stage note stage' ->
  keeps_keys (ph_serving ref ws id stage note) (TerminalPty.forward baseUrl ref ws id step)
    (fun ph' _ => ph' = ph_serving ref ws id stage' note_none).
Proof.
  intros Hh. unfold TerminalPty.forward. cbn [bind on_state]. intros v _.
  exists (ph_serving ref ws id stage' (note_handed step)). split; [by apply moves_hand|].
  cbn [fst snd]. unfold ptyInput, send_only, send. cbn [bind fetch]. intros v2 _.
  exists (ph_serving ref ws id stage' note_none). split; [apply moves_request|].
  destruct (h_answer _ _ _); cbn; [done|by destruct (rs_ok _)].
Qed.

Lemma keeps_keys_audit_line ref ws id stage line :
  keeps_keys (ph_serving ref ws id stage note_none)
    (TerminalPty.audit RUN_TERMINAL_COMMAND_TOOL (TerminalPty.line_inputs ws line) (TerminalPty.line_summary line))
    (fun ph r => match r with
                 | inr _ => exists rid, ph = ph_serving ref ws id stage (note_recorded (line_row rid ws line))
                 | inl _ => ph = ph_serving ref ws id stage note_none
                 end).
Proof.
  unfold TerminalPty.audit, record_call. apply follows_bind.
  eapply follows_mono; [apply keeps_keys_quiet, quiet_service; split; [|done]; intros w; unfold keeps_log; reflexivity|].
  intros ph [e|rid]; [done|]. intros ->. apply follows_bind.
  set (data := line_row rid ws line).
  set (phase (ok : bool) := ph_serving ref ws id stage (if ok then note_recorded data else note_none)).
  eapply follows_mono with (Q := fun ph r => exists ok : bool, ph = phase ok /\
    match r with inr _ => ok = true | inl _ => ok = false end).
  - change (ph_serving ref ws id stage note_none) with (phase false).
    eapply (follows_lift _ (fun (ok : bool) v => ok = true -> recorded data (tm_world v))
      (fun ok v v' ok' => exists w', v' = put_world w' v /\ audit_only (tm_world v) w' /\
         (ok = true -> ok' = true) /\ (ok' = true -> recorded data w'))).
    + intros [] v Hv; [intros _; apply Hv|done].
    + intros ph v v' ph' (w' & -> & [Ho Hp] & Hd & Hrec) Hh Hk.
      assert (Hq : quiet v (put_world w' v)) by (split; [exact Hp|by split]).
      destruct (quiet_moves _ _ _ Hq Hh Hk) as (A & B & C & D & F).
      split; [exact A|]. split; [exact B|]. split; [exact C|]. split; [exact D|].
      destruct F as [F1 _]. split; [exact F1|]. by destruct ph'; [apply Hrec|].
    + eapply follows_zoom; [| |eapply appends_follows, audit_toolCall_appends].
      * by intros ph v H.
      * intros ph v w' ph' H. by exists w'.
  - intros ph [e|row] (ok & -> & ->); [done|]. by exists rid.
Qed.

(** The link in the middle of a message. *)
Definition sending ref ws id (ph : KeyPhase) : Prop :=
  exists rest, ph = ph_serving ref ws id (stage_sending rest) note_none.

Lemma keeps_keys_process_step ref ws id step rest :
  keeps_keys (ph_serving ref ws id (stage_sending (step :: rest)) note_none)
    (TerminalPty.process_step baseUrl ref ws id step)
    (fun ph' r => match r with
                  | inr _ => ph' = ph_serving ref ws id (stage_sending rest) note_none
                  | inl _ => sending ref ws id ph'
                  end).
Proof.
  unfold TerminalPty.process_step. destruct (ps_line step) as [line|] eqn:El.
  - apply follows_bind. eapply follows_mono; [apply keeps_keys_audit_line|].
    intros ph [e|[]]; [by intros ->; eexists|]. intros [rid ->].
    eapply follows_mono; [apply keeps_keys_forward, hands_next; rewrite El; by eexists|].
    intros ph [e|[]] ->; [by eexists|done].
  - eapply follows_mono; [apply keeps_keys_forward, hands_next; by rewrite El|].
    intros ph [e|[]] ->; [by eexists|done].
Qed.

Lemma keeps_keys_steps ref ws id steps :
  keeps_keys (ph_serving ref ws id (stage_sending steps) note_none)
    (for_each steps (TerminalPty.process_step baseUrl ref ws id))
    (fun ph' r => match r with
                  | inr _ => ph' = ph_serving ref ws id (stage_sending []) note_none
                  | inl _ => sending ref ws id ph'
                  end).
Proof.
  induction steps as [|step steps IH]; cbn [for_each]; [done|].
  apply follows_bind. eapply follows_mono; [apply keeps_keys_process_step|].
  intros ph [e|[]]; [done|]. intros ->. exact IH.
Qed.

Lemma keeps_keys_failure ref ws id rest :
  keeps_keys (ph_serving ref ws id (stage_sending rest) note_none) (TerminalPty.onInputFailure baseUrl ref ws id)
    (fun ph' _ => ph' = ph_serving ref ws id stage_still note_none).
Proof.
  unfold TerminalPty.onInputFailure. cbn [bind on_state]. intros v [(g & Hg & Hst) _].
  exists (ph_serving ref ws id stage_dropped note_none). split.
  { pose proof (stage_in_course _ _ _ Hst) as Hc.
    eapply (moves_seat _ _ ref _ _ {| st_ws := ws; st_id := id; st_gate := new_PtyInputGate; st_busy := true |});
      [exact Hg| |done|done|done|by left|by left|].
    - intros x Hx. unfold seat in Hg. rewrite Hx in Hg. injection Hg as H1 H2 H3 H4.
    unfold seat_of. cbn. by rewrite ?H3, ?H4, H1, H2.
    - intros v' Hk _ Hs. split; [|done]. eexists. split; [exact Hs|]. rewrite Hk. by split. }
  cbn [fst snd]. apply follows_bind, follows_catch. eapply follows_mono; [by apply keeps_keys_forward, hands_cancel|].
  intros ph r ->.
  assert (Hn : keeps_keys (ph_serving ref ws id stage_still note_none) (on_state (fun _ => TerminalPty.notify ref
    (ev_notice "No se pudo registrar esa línea en el audit: no se envió al terminal.")))
    (fun ph' _ => ph' = ph_serving ref ws id stage_still note_none))
    by (apply keeps_keys_quiet, quiet_on_state; intros; by apply kept_notify).
  by destruct r as [e|[]].
Qed.

Lemma keeps_keys_release ref ws id stage :
  stage = stage_still \/ stage = stage_sending [] ->
  keeps_keys (ph_serving ref ws id stage note_none)
    (on_state (fun _ => upd_session ref (fun x => set_chain (s_inputChain x) false x))) (fun _ _ => True).
Proof.
  intros Hstage v [(g & Hg & Hst) _]. exists ph_idle. split; [|done].
  assert (Ht : typed g (keystrokes ref (tm_state v))).
  { destruct Hstage as [-> | ->]; [exact Hst|]. destruct Hst as (g0 & base & data & d & Ht & Hf & ->).
    rewrite app_nil_r in Hf. pose proof (typed_message g0 base data Ht) as H. by rewrite Hf in H. }
  eapply (moves_seat _ _ ref _ _ {| st_ws := ws; st_id := id; st_gate := g; st_busy := false |});
    [exact Hg| |done|done|by intros _|by left|by right|done].
  intros x Hx. unfold seat in Hg. rewrite Hx in Hg. injection Hg as H1 H2 H3 H4.
    unfold seat_of. cbn. by rewrite ?H3, ?H4, H1, H2.
Qed.

Lemma keeps_keys_process ref ws id data :
  keeps_keys (ph_serving ref ws id stage_still note_none) (TerminalPty.process baseUrl ref ws id data)
    (fun ph' r => match r with
                  | inr _ => ph' = ph_serving ref ws id (stage_sending []) note_none
                  | inl _ => sending ref ws id ph'
                  end).
Proof.
  unfold TerminalPty.process, TerminalPty.feed_session. cbn [bind sync_state sync]. intros v [(g & Hg & Ht) _].
  unfold seat in Hg. destruct (pt_heap (tm_state v) !! ref) as [x|] eqn:Ex; [|done].
  assert (Hx : s_gate x = g /\ seat_of x = {| st_ws := ws; st_id := id; st_gate := g; st_busy := true |}).
  { injection Hg as H1 H2 H3 H4. split; [done|]. unfold seat_of. by rewrite H1, H2, H3, H4. }
  destruct Hx as [Hgx Hx]. rewrite Hgx. cbn [fst snd]. destruct (PtyGate.feed data g) as [steps g'] eqn:Ef.
  exists (ph_serving ref ws id (stage_sending steps) note_none). split; [|apply keeps_keys_steps].
  eapply (moves_seat _ _ ref _ (seat_of x) {| st_ws := ws; st_id := id; st_gate := g'; st_busy := true |});
    [unfold seat; by rewrite Ex| |by rewrite Hx|by rewrite Hx|done|by left|by left|].
  - intros y Hy. rewrite Ex in Hy. injection Hy as <-. apply seat_of_eq in Hx as (H1 & H2 & _ & H4).
    unfold seat_of. cbn. by rewrite H1, H2, H4.
  - intros v' Hk _ Hs. split; [|done]. exists g'. split; [exact Hs|]. rewrite Hk.
    exists g, (keystrokes ref (tm_state v)), data, []. by rewrite app_nil_r.
Qed.

Lemma keeps_keys_serveInput ref : keeps_keys ph_idle (TerminalPty.serveInput baseUrl ref) (fun _ _ => True).
Proof.
  unfold TerminalPty.serveInput. cbn [bind sync_state sync]. intros v _.
  unfold TerminalPty.take_input. destruct (pt_heap (tm_state v) !! ref) as [x|] eqn:Ex.
  2: { exists ph_idle. split; [by apply quiet_moves|done]. }
  destruct (s_processing x) eqn:Ep; [exists ph_idle; split; [by apply quiet_moves|done]|].
  destruct (s_inputChain x) as [|data rest]; [exists ph_idle; split; [by apply quiet_moves|done]|].
  set (ws := s_workspaceId x). set (id := s_ptyId x).
  exists (ph_serving ref ws id stage_still note_none). split.
  { intros _ Hk. pose proof (ok_seats v Hk ref (seat_of x) ltac:(unfold seat; by rewrite Ex)) as [_ Ht].
    specialize (Ht Ep). eapply (moves_seat _ _ ref _ (seat_of x) {| st_ws := ws; st_id := id; st_gate := s_gate x; st_busy := true |});
      [unfold seat; by rewrite Ex| |done..|by right|by left| |done|exact Hk].
    - intros y Hy. rewrite Ex in Hy. by injection Hy as <-.
    - intros v' Hks _ Hs. split; [|done]. exists (s_gate x). split; [exact Hs|]. by rewrite Hks. }
  cbn [fst snd]. do 2 apply follows_bind; apply follows_catch. eapply follows_mono; [apply keeps_keys_process|].
  intros ph [e|[]].
  - intros [rest' ->]. eapply follows_mono; [apply keeps_keys_failure|].
    intros ph [e'|[]] ->; [done|]. apply keeps_keys_release. by left.
  - intros ->. apply keeps_keys_release. by right.
Qed.

(** What may run: the requests of the apps, the links of the chains of input, the
    callbacks of the timers, the reading of the output, and whatever else in the
    program only adds to the audit log. *)
Inductive terminal_method : pty unit -> Prop :=
| m_open ws size l ka : terminal_method (discard (TerminalPty.openOrAttach baseUrl ws size l ka))
| m_detach ptyId l : terminal_method (TerminalPty.detach ptyId l)
| m_input ptyId data : terminal_method (TerminalPty.input ptyId data)
| m_serve ref : terminal_method (TerminalPty.serveInput baseUrl ref)
| m_keepAlive ptyId ms : terminal_method (TerminalPty.setKeepAlive ptyId ms)
| m_resize ptyId size : terminal_method (TerminalPty.resize baseUrl ptyId size)
| m_close ptyId reason : terminal_method (TerminalPty.close baseUrl ptyId reason)
| m_detachTimer ref : terminal_method (TerminalPty.detachTimerFires baseUrl ref)
| m_lingerTimer ref : terminal_method (TerminalPty.lingerTimerFires ref)
| m_pump ref ws ptyId streams : terminal_method (TerminalPty.pump baseUrl ref ws ptyId 0 streams)
| m_destroy : terminal_method TerminalPty.onModuleDestroy
| m_other (q : jin unit) : steps keeps_log q -> terminal_method (service q).

Definition terminal_time (v v' : PtyWorld) : Prop :=
  exists w', time_passes (tm_world v) w' /\ v' = put_world w' v.

Lemma quiet_time v v' : terminal_time v v' -> quiet v v'.
Proof. intros (w' & (t & _ & ->) & ->). by split. Qed.

Lemma terminal_method_keeps_keys p :
  terminal_method p -> keeps_keys ph_idle p (fun _ _ => True).
Proof.
  intros Hp. destruct Hp; [..|apply keeps_keys_serveInput| | | | | | | |];
    (eapply follows_mono; [apply keeps_keys_quiet|done]);
         first [ apply quiet_detach | apply quiet_input | apply quiet_setKeepAlive | apply quiet_resize
               | apply quiet_close | apply quiet_detachTimerFires | apply quiet_lingerTimerFires
               | apply quiet_pump | apply quiet_onModuleDestroy | by apply quiet_service
               | apply steps_bind; [apply quiet_openOrAttach|done] ].
Qed.

(** The keys of the sessions, with the links of the chains in flight: each of these
    serves a session of its own. *)
Definition keys_ok (v : PtyWorld) (phs : list KeyPhase) : Prop :=
  typing_ok v /\ Forall (fun ph => key_holds ph v) phs /\ NoDup (omap holder phs).

Lemma keys_ok_moves v v' l1 ph ph' l2 :
  keys_ok v (l1 ++ ph :: l2) -> key_moves ph v v' ph' -> keys_ok v' (l1 ++ ph' :: l2).
Proof.
  intros (Hk & Hh & Hnd) Hm. apply Forall_app in Hh as [Ha [Hph Hb]%Forall_cons].
  destruct (Hm Hph Hk) as (Hl & Hkept & Hturn & Hk' & Hph').
  rewrite omap_app in Hnd. cbn in Hnd.
  assert (Hother : forall q, q ∈ l1 ++ l2 -> key_holds q v -> key_holds q v' /\
    (forall ref, holder q = Some ref -> holder ph' <> Some ref)).
  { intros q Hq Hqh.
    assert (Hin : forall ref, holder q = Some ref -> ref ∈ omap holder l1 ++ omap holder l2).
    { intros ref Hr. rewrite <- omap_app. apply list_elem_of_omap. by exists q. }
    assert (Hn : forall ref, holder q = Some ref -> holder ph <> Some ref).
    { intros ref Hr Hp. rewrite Hp in Hnd. apply Hin in Hr.
      apply NoDup_app in Hnd as (_ & Hd & Hc). apply NoDup_cons in Hc as [Hc _].
      apply elem_of_app in Hr as [Hr|Hr]; [apply (Hd ref Hr); by left|done]. }
    assert (Hn' : forall ref, holder q = Some ref -> holder ph' <> Some ref).
    { intros ref Hr Hp'. destruct (holder ph) as [r|] eqn:Ep; rewrite Hp' in Hturn.
      - subst r. by apply (Hn ref Hr).
      - destruct Hturn as (a & Hs & Hf). destruct q as [|r ws id stage note]; [done|]. injection Hr as ->.
        destruct Hqh as [(g & Hg & _) _]. rewrite Hg in Hs. injection Hs as <-. discriminate Hf. }
    split; [|exact Hn']. eapply key_holds_kept; [exact Hl| |exact Hqh]. intros ref Hr. auto. }
  split; [exact Hk'|]. split.
  - apply Forall_app. split; [|constructor; [done|]]; apply Forall_forall; intros q Hq; apply Hother;
      first [by apply elem_of_app; left|by apply elem_of_app; right|rewrite ?Forall_forall in Ha, Hb; auto].
  - rewrite omap_app. cbn. destruct (holder ph) as [r|], (holder ph') as [r'|] eqn:Ep'; rewrite ?Hturn.
    + exact Hnd.
    + apply NoDup_app in Hnd as (H1 & H2 & H3). apply NoDup_cons in H3 as [_ H3].
      apply NoDup_app. splits; [done| |done]. intros x Hx Hx2. apply (H2 x Hx). by right.
    + apply NoDup_app in Hnd as (H1 & H2 & H3).
      assert (Hr' : r' ∉ omap holder l1 /\ r' ∉ omap holder l2).
      { split; intros Hin; apply list_elem_of_omap in Hin as (q & Hq & Hqr).
        - destruct (Hother q ltac:(apply elem_of_app; by left) ltac:(rewrite Forall_forall in Ha; auto)) as [_ Hn].
          by apply (Hn r' Hqr).
        - destruct (Hother q ltac:(apply elem_of_app; by right) ltac:(rewrite Forall_forall in Hb; auto)) as [_ Hn].
          by apply (Hn r' Hqr). }
      apply NoDup_app. splits; [done| |constructor; [apply Hr'|done]].
      intros x Hx [->|Hx2]%elem_of_cons; [by destruct Hr' as [Hr' _]; apply Hr'|by apply (H2 x Hx)].
    + exact Hnd.
Qed.

Lemma keys_ok_quiet v v' l : quiet v v' -> keys_ok v l -> keys_ok v' l.
Proof.
  intros Hq (Hk & Hh & Hnd). split; [by eapply quiet_ok|]. split; [|done].
  eapply Forall_impl; [exact Hh|]. intros ph Hph. by apply (quiet_moves ph v v').
Qed.

(** C21. The keys of a terminal go through its gate, and no line that the gate
    completes is sent before it is recorded: however the requests of the apps, the
    chains of input, the timers and the other services interleave, and whatever
    fails, every request that carries keys carries a step that its session forwarded;
    what a session forwarded is the steps of its gate for one message after another,
    where a message that failed gave only its first steps and then Ctrl+C, with a gate
    that starts again; and the line of every step forwarded is in the audit log
    already, with the hash of the command and its redacted preview. *)
Theorem every_line_is_recorded_before_its_enter (v0 : PtyWorld) (cf : config PtyWorld JinError unit) :
  h_requests (tm_http v0) = [] -> tm_state v0 = no_sessions ->
  reachable terminal_time terminal_method v0 cf ->
  let s := tm_state (c_store cf) in
  (forall r, r ∈ h_requests (tm_http (c_store cf)) -> carries_data r = true ->
     exists ref x step, pt_heap s !! ref = Some x /\ step ∈ keystrokes ref s /\
       r = input_request (s_workspaceId x) (s_ptyId x) step) /\
  (forall ref x, pt_heap s !! ref = Some x ->
     in_course (keystrokes ref s) /\ (s_processing x = false -> typed (s_gate x) (keystrokes ref s)) /\
     forall step line, step ∈ keystrokes ref s -> ps_line step = Some line ->
       recorded_line (s_workspaceId x) line (c_store cf)).
Proof.
  intros Hr0 Hs0 Hreach.
  assert (Hk0 : typing_ok v0).
  { split; [unfold data_requests; rewrite Hr0|..]; rewrite ?Hs0; try done. intros r Hin. by apply elem_of_nil in Hin. }
  destruct (protocol_invariant terminal_time terminal_method key_holds key_moves keys_ok ph_idle) with (w0 := v0) (c := cf) as (phs & ([H1 H2 _ H4] & _) & _); try done.
  - intros v l1 ph l2 (_ & H & _). by apply Forall_app in H as [_ [H _]%Forall_cons].
  - intros v v' l1 ph ph' l2. apply keys_ok_moves.
  - intros v v' l (w' & (t & _ & ->) & ->). by apply keys_ok_quiet.
  - intros v l (Hk & Hh & Hnd). split; [done|]. split; [by apply Forall_app_single|].
    rewrite omap_app. cbn. by rewrite app_nil_r.
  - exact terminal_method_keeps_keys.
  - split; [done|]. split; [constructor|constructor].
  - split.
    + intros r Hin Hc. destruct (H1 r) as (ref & a & step & Ha & Hs & ->); [by apply elem_filter_true|].
      unfold seat in Ha. destruct (pt_heap _ !! ref) as [x|] eqn:Ex; [|done]. injection Ha as <-. by exists ref, x, step.
    + intros ref x Hx. assert (Ha : seat ref (tm_state (c_store cf)) = Some (seat_of x)) by (unfold seat; by rewrite Hx).
      destruct (H4 ref _ Ha) as [Hc Ht]. splits; [done|done|]. intros step line Hs Hl. by eapply (H2 ref (seat_of x)).
Qed.
End Keys.
