(* ===== verification/TerminalKeys.v ===== *)
(** * TerminalKeys: what a terminal does with keys and with output

    The functional theorems on [TerminalPty.v]: the methods run alone, to their
    end, on every branch. *)
From S2P Require Import Prelude Effects Js Text PtyGate Registry Store AuditApi AuditLog Models Frame TerminalClient TerminalPty TerminalSafety.
Local Open Scope stdpp_scope.
Local Open Scope Z_scope.
Local Open Scope jin_scope.

(** ** Running the calls of the service *)

Section Run.
Context `{Laws : AuditApiLaws} `{Crypto : NodeCrypto} {Parser : JsonParse} (baseUrl : string).

(** The executor answers every request with a success. *)
Definition executor_up (v : PtyWorld) : Prop :=
  forall n r, exists status proxied body,
    h_answer (tm_http v) n r = response status proxied body /\ 200 <= status < 300.

Definition input_request := TerminalSafety.input_request baseUrl.

Lemma run_on_state f v : run (on_state f) v = (put_state (f (clock_of v) (tm_state v)) v, inr tt).
Proof. done. Qed.

Lemma run_sync_state {X} (f : Z -> PtyState -> PtyState * (JinError + X)) v :
  run (sync_state f) v =
  (put_state (f (clock_of v) (tm_state v)).1 v, (f (clock_of v) (tm_state v)).2).
Proof. cbn. destruct (f _ _) as [s [e|x]]; done. Qed.

(** What forwarding a step leaves behind. *)
Definition after_forward (ref : nat) ws id step (v : PtyWorld) : PtyWorld :=
  add_request (input_request ws id step) (put_state (forwarded ref step (tm_state v)) v).

Lemma run_forward ref ws id step v :
  executor_up v ->
  run (TerminalPty.forward baseUrl ref ws id step) v = (after_forward ref ws id step v, inr tt).
Proof.
  intros Hup. unfold TerminalPty.forward, ptyInput, send_only, send. rewrite run_bind, run_on_state.
  rewrite !run_bind. cbn [run fetch].
  match goal with |- context [h_answer ?h ?n ?r] => destruct (Hup n r) as (st & p & b & Ha & Hst) end.
  cbn [tm_http put_state] in *. rewrite Ha. unfold rs_ok. cbn [rs_status].
  rewrite (proj2 (Z.leb_le 200 st)), (proj2 (Z.ltb_lt st 300)) by lia. done.
Qed.

(** The executor does not answer. *)
Definition executor_down (v : PtyWorld) : Prop := forall n r, h_answer (tm_http v) n r = net_failure.

Lemma run_forward_down ref ws id step v :
  executor_down v ->
  run (TerminalPty.forward baseUrl ref ws id step) v = (after_forward ref ws id step v, inl TerminalUnavailableError).
Proof.
  intros Hd. unfold TerminalPty.forward, ptyInput, send_only, send. rewrite run_bind, run_on_state.
  rewrite !run_bind. cbn [run fetch tm_http put_state]. by rewrite Hd.
Qed.

(** ** The steps of a message *)

(** The rows of the log are those of the lines, at the present time. *)
Definition rows_of (ws : string) (t : Z) (rows : list AuditLogRow) (lines : list text) : Prop :=
  Forall2 (fun row line => exists rid, al_content row = logged (line_row rid ws line) t) rows lines.

Lemma run_steps_ok ref ws id steps v :
  log_open v -> executor_up v ->
  exists v' rows, run (for_each steps (TerminalPty.process_step baseUrl ref ws id)) v = (v', inr tt) /\
    h_requests (tm_http v') = h_requests (tm_http v) ++ map (input_request ws id) steps /\
    log_of v' = log_of v ++ rows /\ rows_of ws (clock_of v) rows (omap ps_line steps) /\
    pt_heap (tm_state v') = pt_heap (tm_state v) /\ log_open v' /\ executor_up v'.
Proof.
  revert v. induction steps as [|step steps IH]; intros v Hlo Hup; cbn [for_each].
  { exists v, []. cbn. rewrite !app_nil_r. splits; try done. constructor. }
  rewrite run_bind. unfold TerminalPty.process_step at 1, TerminalPty.audit.
  assert (Hfwd : forall v1, log_open v1 -> executor_up v1 ->
    exists v' rows, (let '(w', r) := run (TerminalPty.forward baseUrl ref ws id step) v1 in
      match r with inl e => (w', inl e) | inr _ => run (for_each steps (TerminalPty.process_step baseUrl ref ws id)) w' end)
      = (v', inr tt) /\
    h_requests (tm_http v') = h_requests (tm_http v1) ++ map (input_request ws id) (step :: steps) /\
    log_of v' = log_of v1 ++ rows /\ rows_of ws (clock_of v1) rows (omap ps_line steps) /\
    pt_heap (tm_state v') = pt_heap (tm_state v1) /\ log_open v' /\ executor_up v').
  { intros v1 Hlo1 Hup1. rewrite run_forward by done.
    destruct (IH (after_forward ref ws id step v1)) as (v' & rows & Hrun & Hreq & Hlog & Hrows & Hheap & Hlo' & Hup'); [done..|].
    exists v', rows. splits; try done. rewrite Hreq. cbn. by rewrite <- app_assoc. }
  destruct (ps_line step) as [line|] eqn:El.
  - rewrite run_bind. destruct (run_record_ok RUN_TERMINAL_COMMAND_TOOL (TerminalPty.line_inputs ws line)
      (TerminalPty.line_summary line) v Hlo) as (w' & row & rid & -> & Hlog & Hc & Hlo' & Ht).
    destruct (Hfwd (put_world w' v)) as (v' & rows & Hrun & Hreq & Hlog' & Hrows & Hheap & Hlo2 & Hup2); [done..|].
    exists v', (row :: rows). destruct (run (TerminalPty.forward _ _ _ _ _) _) as [v2 [e|[]]]; [done|].
    splits; try done.
    + rewrite Hlog'. change (log_of (put_world w' v)) with (audit_log (w_audit w')). by rewrite Hlog, <- app_assoc.
    + cbn. rewrite El. constructor; [by exists rid|]. unfold rows_of in Hrows.
      change (clock_of (put_world w' v)) with (clock (w_sys w')) in Hrows. by rewrite Ht in Hrows.
  - destruct (Hfwd v Hlo Hup) as (v' & rows & Hrun & Hrest).
    exists v', rows. destruct (run (TerminalPty.forward _ _ _ _ _) _) as [v2 [e|[]]]; [done|].
    split; [done|]. cbn. by rewrite El.
Qed.

(** The steps before the first line. *)
Fixpoint before_line (steps : list PtyInputStep) : list PtyInputStep :=
  match steps with
  | s :: steps' => match ps_line s with None => s :: before_line steps' | Some _ => [] end
  | [] => []
  end.

Lemma run_steps_locked ref ws id steps v :
  log_locked v -> executor_up v ->
  exists v', run (for_each steps (TerminalPty.process_step baseUrl ref ws id)) v =
      (v', if bool_decide (omap ps_line steps = []) then inr tt else inl AuditChainLockedError) /\
    h_requests (tm_http v') = h_requests (tm_http v) ++ map (input_request ws id) (before_line steps) /\
    log_of v' = log_of v /\ pt_heap (tm_state v') = pt_heap (tm_state v) /\ log_locked v' /\ executor_up v'.
Proof.
  revert v. induction steps as [|step steps IH]; intros v Hll Hup; cbn [for_each].
  { exists v. cbn. by rewrite app_nil_r. }
  rewrite run_bind. unfold TerminalPty.process_step at 1, TerminalPty.audit. cbn [before_line omap list_omap].
  destruct (ps_line step) as [line|] eqn:El.
  - rewrite run_bind. destruct (run_record_locked RUN_TERMINAL_COMMAND_TOOL (TerminalPty.line_inputs ws line)
      (TerminalPty.line_summary line) v Hll) as (w' & -> & Hlog & Hll').
    exists (put_world w' v). cbn. rewrite app_nil_r. done.
  - rewrite run_forward by done.
    destruct (IH (after_forward ref ws id step v)) as (v' & Hrun & Hreq & Hrest); [done..|].
    exists v'. split; [done|]. split; [|done]. rewrite Hreq. cbn. by rewrite <- app_assoc.
Qed.

(** The session [ref] is in the heap, idle, with messages waiting. *)
Definition waiting (ref : nat) (x : PtySession) (data : bytes) (rest : list bytes) (v : PtyWorld) : Prop :=
  pt_heap (tm_state v) !! ref = Some x /\ s_processing x = false /\ s_inputChain x = data :: rest.

Lemma run_take_input ref x data rest v :
  waiting ref x data rest v ->
  run (sync_state (fun _ s => let '(s, r) := TerminalPty.take_input ref s in (s, inr r : JinError + _))) v =
  (put_state (upd_session ref (set_chain rest true) (tm_state v)) v, inr (Some (x, data))).
Proof.
  intros (Hx & Hp & Hc). rewrite run_sync_state. unfold TerminalPty.take_input. by rewrite Hx, Hp, Hc.
Qed.

(** The session after its message was handled. *)
Definition served (rest : list bytes) (gate : PtyInputGate) (x : PtySession) : PtySession :=
  set_chain rest false (set_gate gate x).

(** The keys of a message whose gate has been fed: what [process] starts from. *)
Lemma run_feed ref x data rest v :
  waiting ref x data rest v ->
  let v1 := put_state (upd_session ref (set_chain rest true) (tm_state v)) v in
  run (TerminalPty.feed_session ref data) v1 =
  (put_state (upd_session ref (set_gate (PtyGate.feed data (s_gate x)).2) (tm_state v1)) v1,
   inr (PtyGate.feed data (s_gate x)).1).
Proof.
  intros (Hx & Hp & Hc) v1. unfold TerminalPty.feed_session. rewrite run_sync_state.
  cbn [tm_state put_state v1 upd_session pt_heap]. rewrite list_lookup_alter_eq, Hx. cbn.
  by destruct (PtyGate.feed data (s_gate x)).
Qed.

Lemma keys_step_by_step (ref : nat) (x : PtySession) (data : bytes) (rest : list bytes)
    (v : PtyWorld) :
  waiting ref x data rest v -> log_open v -> executor_up v ->
  let '(steps, gate) := PtyGate.feed data (s_gate x) in
  exists v' rows, run (TerminalPty.serveInput baseUrl ref) v = (v', inr tt) /\
    h_requests (tm_http v') = h_requests (tm_http v) ++ map (input_request (s_workspaceId x) (s_ptyId x)) steps /\
    concat (map ps_bytes steps) = data /\
    log_of v' = log_of v ++ rows /\
    rows_of (s_workspaceId x) (clock_of v) rows (omap ps_line steps) /\
    pt_heap (tm_state v') !! ref = Some (served rest gate x).
Proof.
  intros Hw Hlo Hup. pose proof (PtyGateProperties.feed_loop_bytes [] data (s_gate x)) as Hbytes.
  unfold TerminalPty.serveInput. rewrite run_bind, (run_take_input _ _ _ _ _ Hw).
  rewrite run_bind, run_catch. unfold TerminalPty.process. rewrite run_bind, (run_feed _ _ _ _ _ Hw).
  change (PtyGate.feed_loop [] data (s_gate x)) with (PtyGate.feed data (s_gate x)) in Hbytes.
  destruct (PtyGate.feed data (s_gate x)) as [steps gate]. cbn [fst snd] in *.
  set (v1 := put_state (upd_session ref (set_gate gate) _) _).
  destruct (run_steps_ok ref (s_workspaceId x) (s_ptyId x) steps v1)
    as (v' & rows & -> & Hreq & Hlog & Hrows & Hheap & _); [done..|].
  rewrite run_on_state. eexists _, rows. splits; [done|exact Hreq|done|exact Hlog|exact Hrows|].
  cbn. rewrite Hheap. cbn. destruct Hw as (Hx & _). by rewrite !list_lookup_alter_eq, Hx.
Qed.


(** The keys of the owner reach the shell, each once and in order, and their
    lines the audit log: with the executor and the log up, handling a message sends
    the bytes of each step of the gate in one request, in order, appends one row for
    each line, in order, and leaves the session ready for the next message. *)
Lemma keys_reach_the_shell_in_order (ref : nat) (x : PtySession) (data : bytes) (rest : list bytes)
    (v : PtyWorld) :
  waiting ref x data rest v -> log_open v -> executor_up v ->
  let '(steps, gate) := PtyGate.feed data (s_gate x) in
  exists v' rows, run (TerminalPty.serveInput baseUrl ref) v = (v', inr tt) /\
    h_requests (tm_http v') = h_requests (tm_http v) ++ map (input_request (s_workspaceId x) (s_ptyId x)) steps /\
    concat (map ps_bytes steps) = data /\
    log_of v' = log_of v ++ rows /\
    rows_of (s_workspaceId x) (clock_of v) rows (omap ps_line steps) /\
    pt_heap (tm_state v') !! ref = Some (served rest gate x).
Proof. apply keys_step_by_step. Qed.

(** A locked audit log stops the line: the keys before the Enter of a message
    are in the shell already, but neither that Enter nor anything after it is sent,
    Ctrl+C is, so that the half-typed line is dropped; the gate forgets it too, no
    row is written, the owner is told, and the session goes on. *)
Lemma a_locked_log_stops_the_line (ref : nat) (x : PtySession) (data : bytes) (rest : list bytes)
    (v : PtyWorld) :
  waiting ref x data rest v -> log_locked v -> executor_up v ->
  let steps := (PtyGate.feed data (s_gate x)).1 in
  omap ps_line steps <> [] ->
  exists v', run (TerminalPty.serveInput baseUrl ref) v = (v', inr tt) /\
    h_requests (tm_http v') = h_requests (tm_http v) ++
      map (input_request (s_workspaceId x) (s_ptyId x))
        (before_line steps ++ [{| ps_bytes := TerminalPty.CTRL_C_BYTES; ps_line := None |}]) /\
    log_of v' = log_of v /\
    pt_heap (tm_state v') !! ref = Some (served rest new_PtyInputGate x) /\
    match s_listener x with
    | Some l => exists before message, pt_delivered (tm_state v') = before ++ [(l, ev_notice message)]
    | None => True
    end.
Proof.
  intros Hw Hll Hup steps Hlines.
  unfold TerminalPty.serveInput. rewrite run_bind, (run_take_input _ _ _ _ _ Hw).
  rewrite run_bind, run_catch. unfold TerminalPty.process. rewrite run_bind, (run_feed _ _ _ _ _ Hw).
  fold steps. set (gate := (PtyGate.feed data (s_gate x)).2).
  set (v1 := put_state (upd_session ref (set_gate gate) _) _).
  destruct (run_steps_locked ref (s_workspaceId x) (s_ptyId x) steps v1)
    as (v2 & -> & Hreq & Hlog & Hheap & Hll2 & Hup2); [done..|].
  rewrite bool_decide_false by done. unfold TerminalPty.onInputFailure.
  rewrite run_bind, run_on_state, run_bind, run_catch, run_forward by done.
  rewrite run_on_state, run_on_state. destruct Hw as (Hx & _).
  assert (Hx2 : pt_heap (tm_state v2) !! ref = Some (set_gate gate (set_chain rest true x))).
  { rewrite Hheap. cbn. by rewrite !list_lookup_alter_eq, Hx. }
  set (st := upd_session ref (fun x0 => set_gate (PtyGate.reset (s_gate x0)) x0) (tm_state v2)).
  assert (Hst : pt_heap st !! ref = Some (set_gate new_PtyInputGate (set_chain rest true x))).
  { cbn. by rewrite list_lookup_alter_eq, Hx2. }
  eexists. split; [done|]. split.
  { cbn. rewrite map_app, app_assoc. by rewrite Hreq. }
  split; [exact Hlog|]. cbn [tm_state put_state after_forward add_request put_world].
  unfold TerminalPty.notify. cbn [pt_heap forwarded]. fold st. rewrite Hst. cbn [mbind option_bind s_listener set_gate set_chain].
  destruct (s_listener x) as [l|]; cbn [upd_session pt_heap deliver pt_delivered forwarded]; fold st;
    rewrite list_lookup_alter_eq, Hst; (split; [done|]); [by eexists _, _|done].
Qed.

(** A cancel that does not arrive hides a line: when the executor cannot be
    reached, the failure forgets the half-typed line of the gate although the
    Ctrl+C that should drop it in the shell was lost too, and reports nothing more
    than a notice; once the executor answers again, the next Enter is sent with no
    row in the log, whatever text the shell still holds. *)
Lemma an_undelivered_cancel_hides_the_line (ref : nat) (x : PtySession) (data : bytes)
    (rest : list bytes) (v : PtyWorld) (step : PtyInputStep) (more : list PtyInputStep) :
  waiting ref x data rest v -> executor_down v ->
  (PtyGate.feed data (s_gate x)).1 = step :: more -> ps_line step = None ->
  (exists v', run (TerminalPty.serveInput baseUrl ref) v = (v', inr tt) /\ log_of v' = log_of v /\
     pt_heap (tm_state v') !! ref = Some (served rest new_PtyInputGate x)) /\
  (forall y rest2 v2, s_gate y = new_PtyInputGate -> waiting ref y [CR] rest2 v2 -> log_open v2 ->
     executor_up v2 ->
     exists v3, run (TerminalPty.serveInput baseUrl ref) v2 = (v3, inr tt) /\ log_of v3 = log_of v2 /\
       h_requests (tm_http v3) = h_requests (tm_http v2) ++
         [input_request (s_workspaceId y) (s_ptyId y) {| ps_bytes := [CR]; ps_line := None |}]).
Proof.
  intros Hw Hd Hs Hl. split.
  - unfold TerminalPty.serveInput. rewrite run_bind, (run_take_input _ _ _ _ _ Hw).
    rewrite run_bind, run_catch. unfold TerminalPty.process. rewrite run_bind, (run_feed _ _ _ _ _ Hw).
    rewrite Hs. cbn [for_each]. rewrite run_bind. unfold TerminalPty.process_step at 1, TerminalPty.audit. rewrite Hl.
    rewrite run_forward_down by done. unfold TerminalPty.onInputFailure.
    rewrite run_bind, run_on_state, run_bind, run_catch, run_forward_down by done.
    cbn [run]. rewrite run_on_state. eexists. split; [done|]. split; [done|].
    destruct Hw as (Hx & _). cbn [tm_state put_state after_forward add_request].
    unfold TerminalPty.notify. case_match; cbn [upd_session pt_heap deliver forwarded];
      by rewrite !list_lookup_alter_eq, Hx.
  - intros y rest2 v2 Hg Hw2 Hlo Hup.
    pose proof (keys_step_by_step ref y [CR] rest2 v2 Hw2 Hlo Hup) as H. rewrite Hg in H. cbn in H.
    destruct H as (v3 & rows & Hrun & Hreq & _ & Hlog & Hrows & _). exists v3. split; [done|].
    apply Forall2_nil_inv_r in Hrows as ->. rewrite app_nil_r in Hlog. done.
Qed.

(** ** Output *)

Definition ring_ok (x : PtySession) : Prop :=
  s_ringBytes x = Z.of_nat (length (concat (s_ring x))) /\
  (s_ringBytes x <= PTY_RING_BYTES \/ (length (s_ring x) <= 1)%nat).

Lemma trim_ring_spec ring n :
  n = Z.of_nat (length (concat ring)) ->
  exists dropped, concat ring = dropped ++ concat (TerminalPty.trim_ring ring n).1 /\
    (TerminalPty.trim_ring ring n).2 = Z.of_nat (length (concat (TerminalPty.trim_ring ring n).1)) /\
    ((TerminalPty.trim_ring ring n).2 <= PTY_RING_BYTES \/ (length (TerminalPty.trim_ring ring n).1 <= 1)%nat) /\
    last (TerminalPty.trim_ring ring n).1 = last ring /\ (n <= PTY_RING_BYTES -> dropped = []).
Proof.
  revert n. induction ring as [|b ring IH]; intros n Hn; cbn [TerminalPty.trim_ring].
  { exists []. cbn in *. splits; try done. right. lia. }
  destruct ring as [|c ring]; [exists []; cbn in *; splits; try done; right; lia|].
  destruct (Z.ltb_spec PTY_RING_BYTES n).
  - destruct (IH (n - Z.of_nat (length b))) as (d & Hd & H1 & H2 & H3 & _).
    { subst n. cbn [concat]. rewrite length_app. cbn [concat]. lia. }
    exists (b ++ d). splits; try done; [|lia]. cbn [concat] in *. by rewrite Hd, app_assoc.
  - exists []. splits; try done. by left.
Qed.

Lemma remember_spec b x :
  ring_ok x ->
  ring_ok (TerminalPty.remember b x) /\
  last (s_ring (TerminalPty.remember b x)) = Some b /\
  exists dropped, concat (s_ring x) ++ b = dropped ++ concat (s_ring (TerminalPty.remember b x)) /\
    (s_ringBytes x + Z.of_nat (length b) <= PTY_RING_BYTES -> dropped = []).
Proof.
  intros [Hn _]. unfold TerminalPty.remember, ring_ok.
  destruct (trim_ring_spec (s_ring x ++ [b]) (s_ringBytes x + Z.of_nat (length b)))
    as (d & Hd & H1 & H2 & H3 & H4).
  { rewrite concat_app, length_app. cbn. rewrite app_nil_r. lia. }
  destruct (TerminalPty.trim_ring _ _) as [ring n]. cbn in *.
  split; [done|]. split; [by rewrite H3, last_snoc|].
  exists d. split; [|done]. rewrite <- Hd, concat_app. cbn. by rewrite app_nil_r.
Qed.

(** The bytes that an app reads in an event. *)
Definition event_bytes (e : PtyEvent) : bytes := match e with ev_out d => base64_decode d | _ => [] end.

Definition all_bytes (l : bytes) : Prop := Forall (fun b => is_byte b = true) l.

Lemma replay_bytes x :
  all_bytes (concat (s_ring x)) -> s_ended x = None ->
  concat (map event_bytes (TerminalPty.replay_events x)) = concat (s_ring x) /\
  Forall (fun e => (length (event_bytes e) <= REPLAY_CHUNK_BYTES)%nat) (TerminalPty.replay_events x).
Proof.
  intros Hb He. unfold TerminalPty.replay_events. rewrite He, app_nil_r. set (r := concat (s_ring x)) in *.
  destruct (slices_concat (length r) REPLAY_CHUNK_BYTES r) as [Hc Hs]; [unfold REPLAY_CHUNK_BYTES; lia|done|].
  assert (Hdec : map event_bytes (map (fun slice => ev_out (base64_encode slice)) (slices (length r) REPLAY_CHUNK_BYTES r))
                 = slices (length r) REPLAY_CHUNK_BYTES r).
  { rewrite map_map. rewrite <- Hc in Hb at 1. clear Hs Hc.
    induction (slices (length r) REPLAY_CHUNK_BYTES r) as [|s l IH]; [done|].
    cbn in *. apply Forall_app in Hb as [Hs Hl]. rewrite base64_decode_encode by done. by rewrite IH. }
  split; [by rewrite Hdec|]. rewrite <- Hdec in Hs. by apply Forall_map in Hs.
Qed.

(** The output of a session, remembered chunk by chunk. *)
Definition remember_all (outputs : list bytes) (x : PtySession) : PtySession :=
  fold_left (fun x b => TerminalPty.remember b x) outputs x.

Lemma remember_all_spec outputs x :
  ring_ok x ->
  let x' := remember_all outputs x in
  ring_ok x' /\ s_ended x' = s_ended x /\
  last (s_ring x') = match last outputs with Some b => Some b | None => last (s_ring x) end /\
  exists dropped, concat (s_ring x) ++ concat outputs = dropped ++ concat (s_ring x') /\
    (s_ringBytes x + Z.of_nat (length (concat outputs)) <= PTY_RING_BYTES -> dropped = []).
Proof.
  revert x. induction outputs as [|b outputs IH]; intros x Hx.
  { cbn. splits; try done. exists []. by rewrite app_nil_r. }
  change (remember_all (b :: outputs) x) with (remember_all outputs (TerminalPty.remember b x)).
  cbn [concat]. cbv zeta.
  destruct (remember_spec b x Hx) as (Hr & Hlast & d & Hd & Hd0).
  destruct (IH (TerminalPty.remember b x) Hr) as (Hr' & He & Hl & d' & Hd' & Hd0').
  assert (He' : s_ended (TerminalPty.remember b x) = s_ended x)
    by (unfold TerminalPty.remember; by destruct (TerminalPty.trim_ring _ _)).
  splits; [done|by rewrite He|..].
  - rewrite Hl. destruct outputs as [|c outputs]; [done|]. cbn [last]. by destruct (last (c :: outputs)) eqn:E; [|by apply last_None in E].
  - exists (d ++ d'). split; [by rewrite app_assoc, Hd, <- !app_assoc, Hd'|].
    rewrite length_app. intros Hle. rewrite Hd0 by lia. apply Hd0'.
    destruct Hr as [Hr _], Hx as [Hx _]. rewrite Hr.
    rewrite Hd0 in Hd by lia. cbn in Hd. rewrite <- Hd, length_app. lia.
Qed.

(** An app that comes back sees the recent output: whatever the shell wrote, in
    whatever chunks, the events replayed to a listener that attaches carry exactly
    the end of that output, from a chunk boundary on; nothing is left out while it
    fits in 256 KiB, at most 256 KiB are kept except when a single chunk is longer,
    and no event carries more than 48 KiB. *)
Lemma a_replay_shows_the_recent_output (x : PtySession) (outputs : list bytes) :
  s_ring x = [] -> s_ringBytes x = 0 -> s_ended x = None -> all_bytes (concat outputs) ->
  let events := TerminalPty.replay_events (remember_all outputs x) in
  let shown := concat (map event_bytes events) in
  (exists dropped, concat outputs = dropped ++ shown /\
     (Z.of_nat (length (concat outputs)) <= PTY_RING_BYTES -> dropped = [])) /\
  (Z.of_nat (length shown) <= PTY_RING_BYTES \/ last outputs = Some shown) /\
  Forall (fun e => (length (event_bytes e) <= REPLAY_CHUNK_BYTES)%nat) events.
Proof.
  intros Hr Hn He Hb events shown.
  assert (Hx : ring_ok x) by (unfold ring_ok; rewrite Hr, Hn; split; [done|by left]).
  destruct (remember_all_spec outputs x Hx) as ((Hok1 & Hok2) & He' & Hl & d & Hd & Hd0).
  rewrite Hr in Hd, Hl. rewrite Hn in Hd0. cbn in Hd, Hl.
  assert (Hb' : all_bytes (concat (s_ring (remember_all outputs x)))).
  { unfold all_bytes in Hb. rewrite Hd in Hb. by apply Forall_app in Hb as [_ Hb]. }
  destruct (replay_bytes _ Hb') as [Hs Hf]; [by rewrite He'|].
  unfold shown, events. rewrite Hs. splits; [by exists d|..|done].
  rewrite Hok1 in Hok2. destruct Hok2 as [Hok2|Hok2]; [by left|].
  destruct (s_ring (remember_all outputs x)) as [|b [|b' ring]]; [left; cbn; unfold PTY_RING_BYTES; lia| |cbn in Hok2; lia].
  right. cbn in Hl |- *. rewrite app_nil_r. by destruct (last outputs).
Qed.
End Run.

(** ** Concrete runs *)

Module TerminalExamples.
#[local] Existing Instance toy_crypto.
Definition parser : JsonParse := {| json_parse := fun _ => Some (JObj [("ptyId", JStr "pty-1")]) |}.

Definition http (up : bool) : HttpState :=
  {| h_requests := []; h_answer := fun _ _ => if up then response 200 false "" else net_failure |}.

Definition session (chain : list bytes) : PtySession :=
  set_listener (Some 7%nat) (set_chain chain false (TerminalPty.fresh_session "pty-1" "proj" None 1000)).

Definition state (chain : list bytes) : PtyState :=
  {| pt_heap := [session chain]; pt_sessions := {[ "pty-1" := 0%nat ]};
     pt_byWorkspace := {[ "proj" := "pty-1" ]}; pt_delivered := []; pt_forwarded := [] |}.

Definition world (w : World) (up : bool) (chain : list bytes) : PtyWorld :=
  {| tm_world := w; tm_http := http up; tm_state := state chain |}.

Definition locked_world : World :=
  upd_audit (fun a => {| audit_log := audit_log a; audit_seq := audit_seq a;
    audit_chain_lock := Some {| acl_locked := true; acl_lockedAt := None; acl_reason := None |} |}) (empty_world 5000).

Definition ls : bytes := units "ls" ++ [CR].

(** A line and its Enter. *)
Definition enter (line : string) : PtyInputStep :=
  {| ps_bytes := units line ++ [CR]; ps_line := Some (units line) |}.

Definition serve : pty unit := @TerminalPty.serveInput (@auditService toy_crypto) toy_crypto parser "http://executor" 0.

(** A terminal opened, a line typed in two messages, and the output of the shell. *)
Definition session_run : pty unit :=
  discard (@TerminalPty.openOrAttach (@auditService toy_crypto) toy_crypto parser "http://executor" "proj"
     {| cols := 80; rows := 24 |} 7 None) ;;;
  TerminalPty.input "pty-1" (units "l") ;;; TerminalPty.input "pty-1" (units "s" ++ [CR]) ;;;
  serve ;;; serve ;;;
  on_state (TerminalPty.output_line 0 (base64_encode (units "file.txt"))).

Example a_session :
  let v := (run session_run {| tm_world := empty_world 5000; tm_http := http true; tm_state := no_sessions |}).1 in
  (map rq_url (h_requests (tm_http v)), map (fun f => ps_line f.2) (pt_forwarded (tm_state v)),
   map (fun r => hr_planSummary (al_content r)) (log_of v), pt_delivered (tm_state v)) =
  (["http://executor/proj/pty"; "http://executor/proj/pty/pty-1/input"; "http://executor/proj/pty/pty-1/input"],
   [None; Some (units "ls")],
   [Some "terminal interactiva: abrir"; Some "terminal (interactiva): ls"],
   [(7%nat, ev_out "ZmlsZS50eHQ=")]).
Proof. by vm_compute. Qed.

Lemma waiting_start w up data rest : waiting 0 (session (data :: rest)) data rest (world w up (data :: rest)).
Proof. done. Qed.
Lemma up_start w chain : executor_up (world w true chain).
Proof. intros n r. by exists 200, false, "". Qed.
End TerminalExamples.

Section Witnesses.
Import TerminalExamples.
#[local] Existing Instance toy_crypto.
#[local] Existing Instance parser.

Lemma keys_reach_the_shell_in_order_witness :
  exists v' rows, run serve (world (empty_world 5000) true [ls]) = (v', inr tt) /\
    rows_of "proj" 5000 rows [units "ls"].
Proof.
  destruct (@keys_reach_the_shell_in_order (@auditService toy_crypto) (@auditService_laws toy_crypto)
    toy_crypto parser "http://executor" 0 (session [ls]) ls [] (world (empty_world 5000) true [ls])
    (waiting_start _ _ _ _)) as (v' & rows & Hrun & _ & _ & _ & Hrows & _).
  - by split.
  - apply up_start.
  - by exists v', rows.
Defined.

Lemma a_locked_log_stops_the_line_witness :
  exists v', run serve (world locked_world true [ls]) = (v', inr tt) /\
    h_requests (tm_http v') = [input_request "http://executor" "proj" "pty-1"
      {| ps_bytes := TerminalPty.CTRL_C_BYTES; ps_line := None |}].
Proof.
  destruct (@a_locked_log_stops_the_line (@auditService toy_crypto) (@auditService_laws toy_crypto)
    toy_crypto parser "http://executor" 0 (session [ls]) ls [] (world locked_world true [ls])
    (waiting_start _ _ _ _)) as (v' & Hrun & Hreq & _).
  - by split.
  - apply up_start.
  - by vm_compute.
  - by exists v'.
Defined.

Lemma an_undelivered_cancel_hides_the_line_witness :
  exists v', run serve (world (empty_world 5000) false [units "rm -rf x"]) = (v', inr tt) /\
    log_of v' = [] /\
    pt_heap (tm_state v') !! 0%nat = Some (served [] new_PtyInputGate (session [units "rm -rf x"])).
Proof.
  destruct (@an_undelivered_cancel_hides_the_line (@auditService toy_crypto) (@auditService_laws toy_crypto)
    toy_crypto parser "http://executor" 0 (session [units "rm -rf x"]) (units "rm -rf x") []
    (world (empty_world 5000) false [units "rm -rf x"])
    {| ps_bytes := units "rm -rf x"; ps_line := None |} []) as [H _]; [done..|exact H].
Defined.

Lemma a_replay_shows_the_recent_output_witness :
  exists dropped, units "file.txt" ++ units "done" =
    dropped ++ concat (map event_bytes (TerminalPty.replay_events
      (remember_all [units "file.txt"; units "done"] (session [])))).
Proof.
  destruct (a_replay_shows_the_recent_output (session []) [units "file.txt"; units "done"]) as [(d & Hd & _) _];
    [done|done|done|by repeat constructor|].
  by exists d.
Defined.

Lemma every_line_is_recorded_before_its_enter_witness :
  exists v, let s := tm_state v in
    data_requests v = [TerminalSafety.input_request "http://executor" "proj" "pty-1" (enter "ls")] /\
    (exists ref x step, pt_heap s !! ref = Some x /\ step ∈ keystrokes ref s /\
       TerminalSafety.input_request "http://executor" "proj" "pty-1" (enter "ls") =
       TerminalSafety.input_request "http://executor" (s_workspaceId x) (s_ptyId x) step) /\
    @recorded_line toy_crypto "proj" (units "ls") v.
Proof.
  set (v0 := {| tm_world := empty_world 5000; tm_http := http true; tm_state := no_sessions |} : PtyWorld).
  set (open := discard (@TerminalPty.openOrAttach (@auditService toy_crypto) toy_crypto parser "http://executor"
    "proj" {| cols := 80; rows := 24 |} 7 None)).
  set (v1 := (run open v0).1). set (v2 := (run (TerminalPty.input "pty-1" ls) v1).1). set (v3 := (run serve v2).1).
  assert (Hreach : reachable terminal_time (@terminal_method (@auditService toy_crypto) toy_crypto parser "http://executor")
    v0 (Config v3 [Ret tt; Ret tt; Ret tt])).
  { apply (reachable_run1 _ _ _ v2 [Ret tt; Ret tt] [] serve v3 tt); [|by vm_compute].
    eapply reach_step; [|apply (step_spawn _ _ _ [Ret tt; Ret tt]), m_serve].
    apply (reachable_run1 _ _ _ v1 [Ret tt] [] (TerminalPty.input "pty-1" ls) v2 tt); [|by vm_compute].
    eapply reach_step; [|apply (step_spawn _ _ _ [Ret tt]), m_input].
    apply (reachable_run1 _ _ _ v0 [] [] open v1 tt); [|by vm_compute].
    eapply reach_step; [apply reach_init|]. apply (step_spawn _ _ _ []), m_open. }
  destruct (@every_line_is_recorded_before_its_enter (@auditService toy_crypto) (@auditService_laws toy_crypto)
    toy_crypto parser "http://executor" v0 (Config v3 [Ret tt; Ret tt; Ret tt]) eq_refl eq_refl Hreach) as [H1 H2].
  cbn [c_store] in H1, H2. exists v3.
  assert (Hd : data_requests v3 = [TerminalSafety.input_request "http://executor" "proj" "pty-1" (enter "ls")])
    by (by vm_compute).
  split; [exact Hd|]. split.
  - apply H1; [|done]. assert (Hin : TerminalSafety.input_request "http://executor" "proj" "pty-1" (enter "ls") ∈ data_requests v3)
      by (rewrite Hd; by left). by apply elem_filter_true in Hin as [? _].
  - destruct (pt_heap (tm_state v3) !! 0%nat) as [x|] eqn:Ex; [|by vm_compute in Ex].
    assert (Hws : s_workspaceId <$> pt_heap (tm_state v3) !! 0%nat = Some "proj") by (by vm_compute).
    rewrite Ex in Hws. injection Hws as Hws. rewrite <- Hws.
    apply (proj2 (proj2 (H2 0%nat x Ex)) (enter "ls")); [|done].
    assert (Hk : keystrokes 0 (tm_state v3) = [enter "ls"]) by (by vm_compute). rewrite Hk. by left.
Defined.
End Witnesses.
