(* ===== verification/Relay.v ===== *)
(** * Relay: the bridge between Claude Code and the owner

    [src/relay/]: the table of messages ([relay.store.ts]), the service of the
    controllers ([relay.service.ts]), the bot ([relay-bot.service.ts]) and the token
    of the bridge ([relay-token.guard.ts]).  Telegram is another program: a call is
    recorded and answered by an oracle of the store, which may reject it. *)
From S2P Require Import Prelude Effects Js Text Registry Store AuditApi Regex TelegramFormat.
From Stdlib Require Import String.
Local Open Scope stdpp_scope.
Local Open Scope Z_scope.
Local Open Scope jin_scope.

(** ** relay.types.ts *)

Definition MAX_OPTIONS : Z := 10.
Definition CALLBACK_PREFIX : text := units "q".
Definition MAX_OUT_PER_HOUR : nat := 30.
Definition MAX_BODY_LENGTH : Z := 50000.
Definition HOUR_MS : Z := 60 * 60 * 1000.

Inductive Direction := dir_in | dir_out.
#[export] Instance direction_eq_dec : EqDecision Direction.
Proof. solve_decision. Defined.

(** [relay_messages]; [createdAt] and [consumedAt] in milliseconds. *)
Record RelayMessageRow := {
  rm_id : string;
  rm_direction : Direction;
  rm_body : text;
  rm_options : option (list text);
  rm_answerTo : option string;
  rm_telegramMessageId : option Z;
  rm_createdAt : Z;
  rm_consumedAt : option Z
}.

Record RelayInboxMessage := { im_id : string; im_body : text; im_answerTo : option string; im_createdAt : string }.
Record RelayAnswer := { ra_answered : bool; ra_body : option text; ra_answeredAt : option string }.
Record RelayHistoryMessage := {
  hm_id : string; hm_direction : Direction; hm_body : text; hm_bodyHtml : text;
  hm_options : option (list text); hm_answerTo : option string; hm_createdAt : string
}.

(** A text cut at a unit: [s.split(sep)]. *)
Fixpoint split_units (sep : Z) (s : text) : list text :=
  match s with
  | [] => [[]]
  | c :: s' =>
      if c =? sep then [] :: split_units sep s'
      else match split_units sep s' with l :: ls => (c :: l) :: ls | [] => [[c]] end
  end.

(** [Number(s)] when it is an integer, exactly: what rounding makes an integer out
    of a fraction of more than sixteen digits is not modelled. *)
Section Number.
Definition value_of (base : Z) (digit : Z -> option Z) (s : text) : option Z :=
  match s with
  | [] => None
  | _ => foldl (fun acc c => n ← acc; d ← digit c; Some (base * n + d)) (Some 0) s
  end.

Definition dec_digit (c : Z) : option Z := if is_digit c then Some (c - 48) else None.
Definition hex_digit (c : Z) : option Z :=
  if is_digit c then Some (c - 48)
  else if (97 <=? c) && (c <=? 102) then Some (c - 87)
  else if (65 <=? c) && (c <=? 70) then Some (c - 55) else None.
Definition digit_below (b c : Z) : option Z := d ← dec_digit c; if d <? b then Some d else None.

(** The exponent part of a decimal literal. *)
Definition exponent (s : text) : option Z :=
  match s with
  | [] => Some 0
  | c :: s' =>
      if chars "eE" c then
        match s' with
        | d :: s'' =>
            if d =? 45 then Z.opp <$> value_of 10 dec_digit s''
            else if d =? 43 then value_of 10 dec_digit s'' else value_of 10 dec_digit s'
        | [] => None
        end
      else None
  end.

Definition unsigned_decimal (s : text) : option Z :=
  let '(whole, r) := span is_digit s in
  let '(fraction, r) :=
    match r with
    | c :: r' => if c =? 46 then span is_digit r' else ([], r)
    | [] => ([], [])
    end in
  e ← exponent r;
  m ← value_of 10 dec_digit (whole ++ fraction);
  let shift := e - Z.of_nat (List.length fraction) in
  if 0 <=? shift then Some (m * 10 ^ shift)
  else if m mod 10 ^ (- shift) =? 0 then Some (m / 10 ^ (- shift)) else None.

Definition Number_integer (s : text) : option Z :=
  match trim s with
  | [] => Some 0
  | c :: s' =>
      let signed := if c =? 45 then Z.opp <$> unsigned_decimal s'
                    else if c =? 43 then unsigned_decimal s' else unsigned_decimal (c :: s') in
      match s' with
      | x :: digits =>
          if c =? 48 then
            if chars "xX" x then value_of 16 hex_digit digits
            else if chars "oO" x then value_of 8 (digit_below 8) digits
            else if chars "bB" x then value_of 2 (digit_below 2) digits
            else signed
          else signed
      | [] => signed
      end
  end.
End Number.

Definition buildCallbackData (questionId : text) (index : Z) : text :=
  CALLBACK_PREFIX ++ [58] ++ questionId ++ [58] ++ units (pretty index).

Definition parseCallbackData (data : text) : option (text * Z) :=
  match split_units 58 data with
  | [prefix; questionId; number] =>
      if bool_decide (prefix = CALLBACK_PREFIX) then
        match Number_integer number with
        | Some index =>
            if bool_decide (questionId = []) || (index <? 0) || (MAX_OPTIONS <=? index) then None
            else Some (questionId, index)
        | None => None
        end
      else None
  | _ => None
  end.

(** ** Telegram *)

(** A keyboard: the label and the data of each button, one in each row. *)
Abbreviation Keyboard := (list (text * text)).

Inductive TelegramCall :=
| tg_sendMessage (chat : Z) (body : text) (html : bool) (keyboard : option Keyboard)
| tg_answerCallbackQuery (body : text)
| tg_editMessageText (html : text)
| tg_react (emoji : text)
| tg_reply (body : text).

(** The calls so far, in order, and the answer to the n-th: the description of an
    error, or the identifier of a message. *)
Record Telegram := { tg_calls : list TelegramCall; tg_answer : nat -> TelegramCall -> string + Z }.

(** What the bot hands to its handlers: a command, a button, a text. *)
Inductive Update :=
| upd_start
| upd_callback (data : text)
| upd_text (body : text) (reply_to : option Z).

(** ** The store of the bridge *)

Record RelayWorld := {
  rl_world : World;
  rl_rows : list RelayMessageRow;
  rl_telegram : Telegram;
  rl_events : list (string * Direction);   (* RELAY_MESSAGE_CREATED_EVENT *)
  rl_read : list string                    (* what the readings of the inbox were given, in order *)
}.

Abbreviation relay := (prog RelayWorld JinError).

Definition put_world (w : World) (v : RelayWorld) : RelayWorld :=
  {| rl_world := w; rl_rows := rl_rows v; rl_telegram := rl_telegram v; rl_events := rl_events v; rl_read := rl_read v |}.
Definition put_rows (rows : list RelayMessageRow) (v : RelayWorld) : RelayWorld :=
  {| rl_world := rl_world v; rl_rows := rows; rl_telegram := rl_telegram v; rl_events := rl_events v; rl_read := rl_read v |}.
Definition add_event (e : string * Direction) (v : RelayWorld) : RelayWorld :=
  {| rl_world := rl_world v; rl_rows := rl_rows v; rl_telegram := rl_telegram v; rl_events := rl_events v ++ [e]; rl_read := rl_read v |}.
Definition add_read (ids : list string) (v : RelayWorld) : RelayWorld :=
  {| rl_world := rl_world v; rl_rows := rl_rows v; rl_telegram := rl_telegram v; rl_events := rl_events v; rl_read := rl_read v ++ ids |}.
Definition add_call (c : TelegramCall) (v : RelayWorld) : RelayWorld :=
  {| rl_world := rl_world v; rl_rows := rl_rows v;
     rl_telegram := {| tg_calls := tg_calls (rl_telegram v) ++ [c]; tg_answer := tg_answer (rl_telegram v) |};
     rl_events := rl_events v; rl_read := rl_read v |}.

(** One statement on the table, which may fail as any other. *)
Abbreviation statement := (statement_on rl_world put_world).
Definition query {X} (f : list RelayMessageRow -> X) : relay X := statement (fun v => (v, f (rl_rows v))).

Definition clock_of (v : RelayWorld) : Z := clock (w_sys (rl_world v)).
Definition now : relay Z := reads clock_of.

Definition telegram (c : TelegramCall) : relay Z :=
  Act (fun v => (add_call c v, tg_answer (rl_telegram v) (List.length (tg_calls (rl_telegram v))) c))
      (fun r => match r with inl d => Throw (TelegramError d) | inr m => Ret m end).

(** [p.catch(() => undefined)] *)
Definition swallow {X} (p : relay X) : relay unit := try_with p (fun _ => Ret tt) (fun _ => Ret tt).

(** ** relay.store.ts *)

Definition is_out (r : RelayMessageRow) : bool := bool_decide (rm_direction r = dir_out).
Definition is_pending (r : RelayMessageRow) : bool :=
  negb (is_out r) && match rm_consumedAt r with None => true | Some _ => false end.

Definition set_telegramMessageId (m : Z) (r : RelayMessageRow) : RelayMessageRow :=
  {| rm_id := rm_id r; rm_direction := rm_direction r; rm_body := rm_body r; rm_options := rm_options r;
     rm_answerTo := rm_answerTo r; rm_telegramMessageId := Some m; rm_createdAt := rm_createdAt r;
     rm_consumedAt := rm_consumedAt r |}.
Definition set_consumedAt (t : Z) (r : RelayMessageRow) : RelayMessageRow :=
  {| rm_id := rm_id r; rm_direction := rm_direction r; rm_body := rm_body r; rm_options := rm_options r;
     rm_answerTo := rm_answerTo r; rm_telegramMessageId := rm_telegramMessageId r;
     rm_createdAt := rm_createdAt r; rm_consumedAt := Some t |}.

(** [orderBy(asc(createdAt))], rows of one instant in the order of the table. *)
Fixpoint insert_by_date (r : RelayMessageRow) (l : list RelayMessageRow) : list RelayMessageRow :=
  match l with
  | [] => [r]
  | x :: l' => if rm_createdAt x <=? rm_createdAt r then x :: insert_by_date r l' else r :: l
  end.
Definition by_date (l : list RelayMessageRow) : list RelayMessageRow := fold_left (fun acc r => insert_by_date r acc) l [].

Module RelayStore.

(** The identifier and the date are defaults of the columns. *)
Definition insert_row (d : Direction) (body : text) (options : option (list text)) (answerTo : option string)
    (v : RelayWorld) : RelayWorld * RelayMessageRow :=
  let s := w_sys (rl_world v) in
  let row := {| rm_id := uuid_string (uuids s); rm_direction := d; rm_body := body; rm_options := options;
                rm_answerTo := answerTo; rm_telegramMessageId := None; rm_createdAt := clock s;
                rm_consumedAt := None |} in
  let v := put_world (upd_sys (fun s => {| clock := clock s; statements := statements s; fault := fault s;
                                           uuids := S (uuids s) |}) (rl_world v)) v in
  (put_rows (rl_rows v ++ [row]) v, row).

Definition insertOutbound (body : text) (options : option (list text)) : relay RelayMessageRow :=
  statement (insert_row dir_out body options None).

Definition attachTelegramMessageId (id : string) (messageId : Z) : relay unit :=
  statement (fun v =>
    (put_rows (map (fun r => if bool_decide (rm_id r = id) then set_telegramMessageId messageId r else r) (rl_rows v)) v, tt)).

Definition insertInbound (body : text) (answerTo : option string) : relay RelayMessageRow :=
  statement (insert_row dir_in body None answerTo).

(** Reading and marking are one statement; [rl_read] is the trace of what it returned. *)
Definition consumePending : relay (list RelayMessageRow) :=
  t <- now ;;
  statement (fun v =>
    let taken := map (set_consumedAt t) (List.filter is_pending (rl_rows v)) in
    let rows := map (fun r => if is_pending r then set_consumedAt t r else r) (rl_rows v) in
    (add_read (map rm_id taken) (put_rows rows v), taken)).

Definition listRecent (limit : nat) : relay (list RelayMessageRow) :=
  query (fun rows => rev (take limit (rev (by_date rows)))).

Definition findOutbound (id : text) : relay (option RelayMessageRow) :=
  query (fun rows => head (List.filter (fun r => bool_decide (units (rm_id r) = id) && is_out r) rows)).

Definition findAnswer (questionId : string) : relay (option RelayMessageRow) :=
  query (fun rows => last (by_date (List.filter
    (fun r => negb (is_out r) && bool_decide (rm_answerTo r = Some questionId)) rows))).

Definition pendingQuestions : relay (list RelayMessageRow) :=
  query (fun rows => by_date (List.filter
    (fun r => is_out r && match rm_options r with Some _ => true | None => false end) rows)).

(** How many messages went out since an instant. *)
Definition sent_since (since : Z) (rows : list RelayMessageRow) : nat :=
  List.length (List.filter (fun r => is_out r && (since <=? rm_createdAt r)) rows).

Definition outQuotaExceeded : relay bool :=
  t <- now ;;
  count <- query (sent_since (t - HOUR_MS)) ;;
  Ret (MAX_OUT_PER_HOUR <=? count)%nat.

End RelayStore.

(** ** relay-bot.service.ts *)

Definition POLL_RETRY_BASE_MS : Z := 2000.
Definition POLL_RETRY_MAX_MS : Z := 60000.

(** One [bot.start]: it ends cleanly, or fails after having listened or not; the
    last field says whether the module was stopping by then. *)
Inductive PollOutcome := poll_clean | poll_failed (listened stopping : bool).

Definition poll_delay (attempt : Z) : Z := Z.min POLL_RETRY_MAX_MS (POLL_RETRY_BASE_MS * 2 ^ (attempt - 1)).

(** The waits of [runPolling] while [bot.start] goes as the list says. *)
Fixpoint runPolling (attempt : Z) (outcomes : list PollOutcome) : list Z :=
  match outcomes with
  | [] | poll_clean :: _ | poll_failed _ true :: _ => []
  | poll_failed listened false :: rest =>
      let attempt := (if listened then 0 else attempt) + 1 in
      poll_delay attempt :: runPolling attempt rest
  end.

Module RelayBot.
Section Bot.
Context `{!UnicodeTable} (enabled : bool) (ownerChatId : Z).

Definition buildKeyboard (questionId : string) (options : list text) : Keyboard :=
  imap (fun index label => (label, buildCallbackData (units questionId) (Z.of_nat index))) options.

Definition cannot_parse (e : JinError) : bool :=
  match e with
  | TelegramError d => match String.index 0 "can't parse entities" d with Some _ => true | None => false end
  | _ => false
  end.

Definition sendWithPlainFallback (html : text) (keyboard : option Keyboard) : relay (option Z) :=
  if negb enabled then Ret None
  else
    try_with (telegram (tg_sendMessage ownerChatId html true keyboard))
      (fun m => Ret (Some m))
      (fun e =>
        if cannot_parse e then
          m <- telegram (tg_sendMessage ownerChatId (htmlToPlain html) false keyboard) ;; Ret (Some m)
        else Throw e).

(** The messages of [deliver], the buttons on the last one; the identifier kept is
    that of the first. *)
Fixpoint deliver_chunks (questionId : string) (options : option (list text)) (l : list text) (first : option Z)
    : relay (option Z) :=
  match l with
  | [] => Ret first
  | chunk :: rest =>
      let keyboard :=
        match rest, options with
        | [], Some (o :: os) => Some (buildKeyboard questionId (o :: os))
        | _, _ => None
        end in
      sent <- sendWithPlainFallback chunk keyboard ;;
      deliver_chunks questionId options rest (match first with Some _ => first | None => sent end)
  end.

Definition deliver (body : text) (options : option (list text)) (questionId : string) : relay (option Z) :=
  if negb enabled then Ret None
  else deliver_chunks questionId options (splitForTelegram (markdownToTelegramHtml body) TELEGRAM_CHUNK_LIMIT) None.

Definition findQuestionByTelegramMessageId (messageId : Z) : relay (option string) :=
  questions <- RelayStore.pendingQuestions ;;
  Ret (rm_id <$> find (fun q => bool_decide (rm_telegramMessageId q = Some messageId)) questions).

Definition answerCallbackQuery (body : text) : relay unit := telegram (tg_answerCallbackQuery body) ;;; Ret tt.

Definition on_callback (data : text) : relay unit :=
  match parseCallbackData data with
  | None => answerCallbackQuery (text_of "Opción no reconocida.")
  | Some (questionId, index) =>
      question <- RelayStore.findOutbound questionId ;;
      match question, (q ← question; options ← rm_options q; options !! Z.to_nat index) with
      | Some q, Some chosen =>
          existing <- RelayStore.findAnswer (rm_id q) ;;
          match existing with
          | Some a => answerCallbackQuery (text_of "Ya respondiste: " ++ rm_body a)%list
          | None =>
              RelayStore.insertInbound chosen (Some (rm_id q)) ;;;
              answerCallbackQuery (units "Enviado: " ++ chosen)%list ;;;
              swallow (telegram (tg_editMessageText
                (markdownToTelegramHtml (rm_body q) ++ [LF; LF] ++ between_tags "b" ([8594; 32] ++ escapeHtml chosen))%list))
          end
      | _, _ => answerCallbackQuery (text_of "Esa pregunta ya no existe.")
      end
  end.

Definition on_text (body : text) (reply_to : option Z) : relay unit :=
  match trim body with
  | [] => Ret tt
  | message =>
      answerTo <- match reply_to with
                  | Some m => findQuestionByTelegramMessageId m
                  | None => Ret None
                  end ;;
      RelayStore.insertInbound message answerTo ;;;
      swallow (telegram (tg_react [55357; 56384]))
  end.

(** The filter of the chat, then the handler. *)
Definition on_update (chat : option Z) (u : Update) : relay unit :=
  if bool_decide (chat = Some ownerChatId) then
    match u with
    | upd_start =>
        telegram (tg_reply (text_of "🛠 Puente de Claude Code. Acá te escribe la sesión que corre en la VM."
          ++ [LF; LF] ++ text_of "Este chat NO aprueba acciones de Jin: para eso está el otro bot.")%list) ;;; Ret tt
    | upd_callback data => on_callback data
    | upd_text body reply_to => on_text body reply_to
    end
  else Ret tt.

End Bot.
End RelayBot.

(** ** relay.service.ts *)

Module RelayService.
Section Service.
Context `{!UnicodeTable} (enabled : bool) (ownerChatId : Z).

Definition emit (id : string) (d : Direction) : relay unit := writes (add_event (id, d)).

Definition send (body : text) (options : option (list text)) : relay string :=
  exceeded <- RelayStore.outQuotaExceeded ;;
  if exceeded : bool then Throw RelayQuotaExceededError
  else
    row <- RelayStore.insertOutbound body options ;;
    messageId <- RelayBot.deliver enabled ownerChatId body options (rm_id row) ;;
    match messageId with
    | Some m => RelayStore.attachTelegramMessageId (rm_id row) m
    | None => Ret tt
    end ;;;
    emit (rm_id row) dir_out ;;;
    Ret (rm_id row).

Definition reply (body : text) (answerTo : option string) : relay string :=
  row <- RelayStore.insertInbound body answerTo ;;
  emit (rm_id row) dir_in ;;;
  Ret (rm_id row).

Definition history_message (row : RelayMessageRow) : RelayHistoryMessage :=
  {| hm_id := rm_id row; hm_direction := rm_direction row; hm_body := rm_body row;
     hm_bodyHtml := markdownToTelegramHtml (rm_body row); hm_options := rm_options row;
     hm_answerTo := rm_answerTo row; hm_createdAt := to_iso_string (rm_createdAt row) |}.

Definition history (limit : nat) : relay (list RelayHistoryMessage) :=
  rows <- RelayStore.listRecent limit ;; Ret (map history_message rows).

Definition inbox_message (row : RelayMessageRow) : RelayInboxMessage :=
  {| im_id := rm_id row; im_body := rm_body row; im_answerTo := rm_answerTo row;
     im_createdAt := to_iso_string (rm_createdAt row) |}.

Definition inbox : relay (list RelayInboxMessage) :=
  rows <- RelayStore.consumePending ;; Ret (map inbox_message (by_date rows)).

Definition answer (questionId : string) : relay RelayAnswer :=
  row <- RelayStore.findAnswer questionId ;;
  Ret match row with
      | None => {| ra_answered := false; ra_body := None; ra_answeredAt := None |}
      | Some r => {| ra_answered := true; ra_body := Some (rm_body r);
                     ra_answeredAt := Some (to_iso_string (rm_createdAt r)) |}
      end.

End Service.
End RelayService.

(** ** relay.controller.ts, relay-token.guard.ts *)

Definition safeEquals (a b : string) : bool := String.eqb a b.

Definition BEARER : string := "Bearer ".

(** [canActivate]: the token of the bridge, as bytes, and the header of the request. *)
Definition canActivate (expected authorization : option string) : JinError + bool :=
  match expected with
  | Some e =>
      if truthy e then
        let provided :=
          match authorization with
          | Some h => if String.prefix BEARER h
                      then Some (String.substring (String.length BEARER) (String.length h) h) else None
          | None => None
          end in
        match provided with
        | Some p => if truthy p && safeEquals p e then inr true
                    else inl (PlainError "Token del puente inválido o ausente.")
        | None => inl (PlainError "Token del puente inválido o ausente.")
        end
      else inl RelayDisabledError
  | None => inl RelayDisabledError
  end.

(** The body of a message to send. *)
Definition valid_message (body : text) (options : option (list text)) : bool :=
  let size := Z.of_nat (List.length body) in
  (1 <=? size) && (size <=? MAX_BODY_LENGTH) &&
  match options with
  | None => true
  | Some l =>
      let n := Z.of_nat (List.length l) in
      (1 <=? n) && (n <=? MAX_OPTIONS) &&
      forallb (fun o => (1 <=? Z.of_nat (List.length o)) && (Z.of_nat (List.length o) <=? 64)) l
  end.

Module RelayController.
Section Controller.
Context `{!UnicodeTable} (enabled : bool) (ownerChatId : Z).

Definition assertEnabled : relay unit := if enabled then Ret tt else Throw RelayDisabledError.

Definition send (body : text) (options : option (list text)) : relay string :=
  if valid_message body options then
    assertEnabled ;;; RelayService.send enabled ownerChatId body options
  else Throw (ZodError "SendRelayMessage").

Definition inbox : relay (list RelayInboxMessage) := assertEnabled ;;; RelayService.inbox.

Definition answer (questionId : string) : relay RelayAnswer := assertEnabled ;;; RelayService.answer questionId.

End Controller.
End RelayController.
