(* ===== verification/RelaySafety.v ===== *)
(** * RelaySafety: what the bridge promises

    Each message of the owner is read once whatever runs meanwhile; a button is
    read back as it was built and answers its question once; sends one after the
    other stay within the quota of the hour. *)
From S2P Require Import Prelude Effects Js Text Registry Store AuditApi Regex TelegramFormat Relay.
From Stdlib Require Import String Sorted.
Local Open Scope stdpp_scope.
Local Open Scope Z_scope.
Local Open Scope jin_scope.

(** ** The statements, one by one *)

Definition uuids_of (v : RelayWorld) : nat := uuids (w_sys (rl_world v)).

(** An action on something else than the table. *)
Definition outside_table (v v' : RelayWorld) : Prop :=
  rl_rows v' = rl_rows v /\ rl_read v' = rl_read v /\ uuids_of v' = uuids_of v.

(** The rows after a change that keeps identifiers, directions and marks. *)
Definition same_message (r r' : RelayMessageRow) : Prop :=
  rm_id r' = rm_id r /\ rm_direction r' = rm_direction r /\ rm_consumedAt r' = rm_consumedAt r.

(** What an action does to the messages: nothing, a new row, or a reading. *)
Inductive table_move (v v' : RelayWorld) : Prop :=
| move_none :
    Forall2 same_message (rl_rows v) (rl_rows v') -> rl_read v' = rl_read v -> uuids_of v' = uuids_of v -> table_move v v'
| move_insert r :
    rl_rows v' = rl_rows v ++ [r] -> rm_id r = uuid_string (uuids_of v) -> rm_consumedAt r = None ->
    rl_read v' = rl_read v -> uuids_of v' = S (uuids_of v) -> table_move v v'
| move_read t :
    rl_rows v' = map (fun r => if is_pending r then set_consumedAt t r else r) (rl_rows v) ->
    rl_read v' = rl_read v ++ map rm_id (List.filter is_pending (rl_rows v)) ->
    uuids_of v' = uuids_of v -> table_move v v'.

Lemma same_message_refl l : Forall2 same_message l l.
Proof. induction l; constructor; done. Qed.

Lemma move_outside v v' : outside_table v v' -> table_move v v'.
Proof. intros (H1 & H2 & H3). apply move_none; [rewrite H1; apply same_message_refl|done|done]. Qed.

Lemma tick_outside v : outside_table v (put_world (tick (rl_world v)) v).
Proof. done. Qed.

Lemma moves_query {X} (f : list RelayMessageRow -> X) : steps table_move (query f).
Proof. apply steps_statement_on; intros v; apply move_outside, tick_outside. Qed.

Lemma moves_now : steps table_move Relay.now.
Proof. split; [|done]. intros v. by apply move_outside. Qed.

Lemma moves_telegram c : steps table_move (telegram c).
Proof. split; [|by intros [d|m]]. intros v. by apply move_outside. Qed.

Lemma moves_emit id d : steps table_move (RelayService.emit id d).
Proof. split; [|done]. intros v. by apply move_outside. Qed.

Lemma moves_insert d body options answerTo :
  steps table_move (statement (RelayStore.insert_row d body options answerTo)).
Proof.
  apply steps_statement_on; intros v; [apply move_outside, tick_outside|]. eapply move_insert; done.
Qed.

Lemma moves_attach id m : steps table_move (RelayStore.attachTelegramMessageId id m).
Proof.
  apply steps_statement_on; intros v; [apply move_outside, tick_outside|]. apply move_none; [|done|done]. cbn.
  induction (rl_rows v) as [|r l IH]; cbn; constructor; [by case_bool_decide|done].
Qed.

Lemma moves_consume : steps table_move RelayStore.consumePending.
Proof.
  apply steps_bind; [apply moves_now|]. intros t. apply steps_statement_on; intros v; [apply move_outside, tick_outside|].
  eapply (move_read _ _ t); [done| |done]. cbn. f_equal. by rewrite map_map.
Qed.

Create HintDb relay.
#[export] Hint Resolve moves_query moves_now moves_telegram moves_emit moves_insert moves_attach moves_consume : relay.

(** A method is made of statements on the table and of calls of Telegram. *)
Ltac relay_frame :=
  repeat first
    [ done
    | solve [eauto with relay]
    | apply steps_bind; [|intros ?]
    | apply steps_try_with; [|intros ?|intros ?]
    | match goal with
      | |- steps _ (match ?x with _ => _ end) => destruct x
      | |- steps _ (if ?x then _ else _) => destruct x
      | |- steps _ (let '(_, _) := ?x in _) => destruct x
      end
    | progress cbn ].

(** ** The methods of the bridge *)

Section Bridge.
Context `{!UnicodeTable} (enabled : bool) (ownerChatId : Z).

Inductive relay_client : relay unit -> Prop :=
| client_send body options : relay_client (discard (RelayController.send enabled ownerChatId body options))
| client_inbox : relay_client (discard (RelayController.inbox enabled))
| client_answer id : relay_client (discard (RelayController.answer enabled id))
| client_reply body answerTo : relay_client (discard (RelayService.reply body answerTo))
| client_history limit : relay_client (discard (RelayService.history limit))
| client_update chat u : relay_client (RelayBot.on_update ownerChatId chat u).

Lemma moves_sendWithPlainFallback html keyboard :
  steps table_move (RelayBot.sendWithPlainFallback enabled ownerChatId html keyboard).
Proof. unfold RelayBot.sendWithPlainFallback. relay_frame. Qed.

Lemma moves_deliver_chunks id options l : forall first,
  steps table_move (RelayBot.deliver_chunks enabled ownerChatId id options l first).
Proof.
  induction l as [|c l IH]; intros first; [done|]. cbn [RelayBot.deliver_chunks].
  apply steps_bind; [apply moves_sendWithPlainFallback|auto].
Qed.

Lemma moves_deliver body options id : steps table_move (RelayBot.deliver enabled ownerChatId body options id).
Proof. unfold RelayBot.deliver. destruct (negb enabled); [done|apply moves_deliver_chunks]. Qed.

Lemma moves_on_update chat u : steps table_move (RelayBot.on_update ownerChatId chat u).
Proof.
  unfold RelayBot.on_update, RelayBot.on_callback, RelayBot.on_text, RelayBot.answerCallbackQuery,
    RelayBot.findQuestionByTelegramMessageId, RelayStore.findOutbound, RelayStore.findAnswer,
    RelayStore.pendingQuestions, RelayStore.insertInbound, swallow.
  relay_frame.
Qed.

Lemma relay_client_moves p : relay_client p -> steps table_move p.
Proof.
  destruct 1; [..|apply moves_on_update]; apply steps_bind; try (by intros ?).
  - unfold RelayController.send, RelayController.assertEnabled, RelayService.send, RelayStore.outQuotaExceeded,
      RelayStore.insertOutbound. relay_frame; apply moves_deliver.
  - unfold RelayController.inbox, RelayController.assertEnabled, RelayService.inbox. relay_frame.
  - unfold RelayController.answer, RelayController.assertEnabled, RelayService.answer, RelayStore.findAnswer. relay_frame.
  - unfold RelayService.reply, RelayStore.insertInbound. relay_frame.
  - unfold RelayService.history, RelayStore.listRecent. relay_frame.
Qed.
End Bridge.

(** ** Each message of the owner is read once *)

(** Identifiers are those drawn so far, and what was read is what is marked. *)
Record read_inv (v : RelayWorld) : Prop := {
  drawn_ids : Forall (fun r => exists n, rm_id r = uuid_string n /\ (n < uuids_of v)%nat) (rl_rows v);
  distinct_ids : NoDup (map rm_id (rl_rows v));
  distinct_reads : NoDup (rl_read v);
  reads_marked : forall id, id ∈ rl_read v <->
    exists r, r ∈ rl_rows v /\ rm_id r = id /\ rm_direction r = dir_in /\ rm_consumedAt r <> None
}.

Lemma uuid_string_injective m n : uuid_string m = uuid_string n -> m = n.
Proof. unfold uuid_string. intros H%string_app_inj_l. by apply (inj pretty) in H. Qed.

Lemma map_same_message l l' : Forall2 same_message l l' -> map rm_id l' = map rm_id l.
Proof. induction 1 as [|r r' l l' [H _] _ IH]; [done|]. cbn. congruence. Qed.

Lemma marked_same_message l l' id : Forall2 same_message l l' ->
  (exists r, r ∈ l /\ rm_id r = id /\ rm_direction r = dir_in /\ rm_consumedAt r <> None) <->
  (exists r, r ∈ l' /\ rm_id r = id /\ rm_direction r = dir_in /\ rm_consumedAt r <> None).
Proof.
  intros H. split; intros (r & Hr & Hid & Hd & Hc); apply list_elem_of_lookup in Hr as [i Hr].
  - destruct (Forall2_lookup_l _ _ _ _ _ H Hr) as (r' & Hr' & H1 & H2 & H3). exists r'.
    split; [by eapply list_elem_of_lookup_2|]. by rewrite H1, H2, H3.
  - destruct (Forall2_lookup_r _ _ _ _ _ H Hr) as (r' & Hr' & H1 & H2 & H3). exists r'.
    split; [by eapply list_elem_of_lookup_2|]. by rewrite <- H1, <- H2, <- H3.
Qed.

Lemma is_pending_spec r : is_pending r = true <-> rm_direction r = dir_in /\ rm_consumedAt r = None.
Proof.
  unfold is_pending, is_out. rewrite andb_true_iff, negb_true_iff, bool_decide_eq_false.
  destruct (rm_direction r), (rm_consumedAt r); naive_solver.
Qed.

Lemma read_inv_none v v' : Forall2 same_message (rl_rows v) (rl_rows v') -> rl_read v' = rl_read v ->
  uuids_of v' = uuids_of v -> read_inv v -> read_inv v'.
Proof.
  intros Hs Hr Hu [H1 H2 H3 H4]. split.
  - rewrite Hu. apply Forall_forall. intros r' Hr'. apply list_elem_of_lookup in Hr' as [i Hi].
    destruct (Forall2_lookup_r _ _ _ _ _ Hs Hi) as (r & Hri & E & _). rewrite E.
    rewrite Forall_forall in H1. apply H1. by eapply list_elem_of_lookup_2.
  - by rewrite (map_same_message _ _ Hs).
  - by rewrite Hr.
  - intros id. rewrite Hr, H4. by apply marked_same_message.
Qed.

Lemma read_inv_insert v v' r : rl_rows v' = rl_rows v ++ [r] -> rm_id r = uuid_string (uuids_of v) ->
  rm_consumedAt r = None -> rl_read v' = rl_read v -> uuids_of v' = S (uuids_of v) -> read_inv v -> read_inv v'.
Proof.
  intros Hrows Hid Hc Hr Hu [H1 H2 H3 H4]. split.
  - rewrite Hrows, Hu. apply Forall_app. split; [|repeat constructor; eauto].
    eapply Forall_impl; [exact H1|]. cbn. intros x (n & Hn & Hl). exists n. split; [done|lia].
  - rewrite Hrows, map_app. apply NoDup_app. split; [done|]. split; [|repeat constructor; set_solver].
    intros id Hx. apply list_elem_of_fmap in Hx as (x & -> & Hx). cbn. rewrite Hid.
    rewrite Forall_forall in H1. destruct (H1 x Hx) as (n & Hn & Hl). rewrite Hn.
    intros E%list_elem_of_singleton%uuid_string_injective. lia.
  - by rewrite Hr.
  - intros id. rewrite Hr, H4, Hrows. setoid_rewrite elem_of_app. setoid_rewrite list_elem_of_singleton.
    split; [intros (x & ? & ? & ? & ?); exists x; eauto 10|]. intros (x & [Hx| ->] & ? & ? & ?); [eauto|done].
Qed.

Lemma NoDup_map_sub {A B} (f : A -> B) (P : A -> bool) l : NoDup (map f l) -> NoDup (map f (List.filter P l)).
Proof.
  induction l as [|x l IH]; [done|]. cbn. rewrite NoDup_cons. intros [Hx Hl]. destruct (P x); cbn; [|auto].
  apply NoDup_cons. split; [|auto]. intros (y & Hy & Hin)%list_elem_of_fmap. apply Hx.
  apply list_elem_of_fmap. exists y. split; [done|]. apply list_elem_of_In, filter_In in Hin as [Hin _].
  by apply list_elem_of_In.
Qed.

Lemma read_inv_read v v' t : rl_rows v' = map (fun r => if is_pending r then set_consumedAt t r else r) (rl_rows v) ->
  rl_read v' = rl_read v ++ map rm_id (List.filter is_pending (rl_rows v)) ->
  uuids_of v' = uuids_of v -> read_inv v -> read_inv v'.
Proof.
  intros Hrows Hr Hu [H1 H2 H3 H4].
  set (mark := fun r => if is_pending r then set_consumedAt t r else r) in *.
  assert (Hmark : forall r, rm_id (mark r) = rm_id r /\ rm_direction (mark r) = rm_direction r).
  { intros r. unfold mark. by destruct (is_pending r). }
  assert (Hids : map rm_id (rl_rows v') = map rm_id (rl_rows v)).
  { rewrite Hrows, map_map. apply map_ext. intros r. apply Hmark. }
  assert (Huniq : forall r r', r ∈ rl_rows v -> r' ∈ rl_rows v -> rm_id r = rm_id r' -> r = r').
  { intros r r' (i & Hi)%list_elem_of_lookup (j & Hj)%list_elem_of_lookup E.
    enough (i = j) by congruence. eapply NoDup_lookup; [exact H2|..]; rewrite list_lookup_fmap; [by rewrite Hi|].
    rewrite Hj. cbn. by rewrite E. }
  assert (Hpend : forall id, id ∈ map rm_id (List.filter is_pending (rl_rows v)) <->
    exists r, r ∈ rl_rows v /\ rm_id r = id /\ is_pending r = true).
  { intros id. rewrite list_elem_of_fmap. setoid_rewrite list_elem_of_In. setoid_rewrite filter_In.
    setoid_rewrite <- list_elem_of_In. naive_solver. }
  split.
  - rewrite Hu, Hrows, Forall_map. eapply Forall_impl; [exact H1|]. cbn. intros r. by rewrite (proj1 (Hmark r)).
  - by rewrite Hids.
  - rewrite Hr. apply NoDup_app. split; [done|]. split; [|by apply NoDup_map_sub].
    intros id (r & Hin & Hid & Hd & Hc)%H4 (r' & Hin' & Hid' & Hp)%Hpend.
    assert (r = r') as <- by (apply Huniq; congruence). apply is_pending_spec in Hp as [_ Hp]. done.
  - intros id. rewrite Hr, elem_of_app, H4, Hpend, Hrows. setoid_rewrite list_elem_of_fmap. split.
    + intros [(r & Hin & Hid & Hd & Hc)|(r & Hin & Hid & Hp)].
      * exists (mark r). split; [eauto|]. destruct (Hmark r) as [-> ->]. split; [done|]. split; [done|].
        unfold mark. by destruct (is_pending r).
      * exists (mark r). split; [eauto|]. destruct (Hmark r) as [-> ->]. split; [done|].
        split; [by apply is_pending_spec|]. unfold mark. by rewrite Hp.
    + intros (r' & (r & -> & Hin) & Hid & Hd & Hc). destruct (Hmark r) as [E1 E2]. rewrite E1 in Hid. rewrite E2 in Hd.
      destruct (is_pending r) eqn:Hp; [right; eauto|left]. unfold mark in Hc. rewrite Hp in Hc. eauto.
Qed.

Lemma read_inv_move v v' : table_move v v' -> read_inv v -> read_inv v'.
Proof.
  destruct 1; [by eapply read_inv_none|by eapply read_inv_insert|by eapply read_inv_read].
Qed.

(** The clock moves on by itself. *)
Definition relay_time (v v' : RelayWorld) : Prop :=
  exists w, time_passes (rl_world v) w /\ v' = put_world w v.

(** C28. However the readings of the inbox interleave with each other, with the messages that arrive by
    Telegram or from the dashboard, with the sends and with failures of the database, no message of
    the owner is handed out twice, and each one is either pending or was handed out. *)
Theorem each_message_of_the_owner_is_read_once `{!UnicodeTable} enabled ownerChatId v0 c :
  read_inv v0 -> reachable relay_time (relay_client enabled ownerChatId) v0 c ->
  NoDup (rl_read (c_store c)) /\
  forall r, r ∈ rl_rows (c_store c) -> rm_direction r = dir_in ->
    (rm_consumedAt r = None <-> rm_id r ∉ rl_read (c_store c)).
Proof.
  intros H0 Hr. apply (pool_invariant _ _ read_inv) in Hr as [[H1 H2 H3 H4] _]; [|..|done].
  - split; [done|]. intros r Hin Hd. split.
    + intros Hc (r' & Hin' & Hid & _ & Hc')%H4. enough (r = r') by congruence.
      apply list_elem_of_lookup in Hin as [i Hi], Hin' as [j Hj]. enough (i = j) by congruence.
      eapply NoDup_lookup; [exact H2|..]; rewrite list_lookup_fmap; [by rewrite Hi|]. rewrite Hj. cbn. by rewrite Hid.
    + intros Hn. destruct (rm_consumedAt r) eqn:Hc; [|done]. exfalso. apply Hn, H4. exists r. by rewrite Hc.
  - intros p Hp. eapply steps_mono; [|by eapply relay_client_moves]. intros v v' Hm Hv. by eapply read_inv_move.
  - intros v v' (w & (t & _ & ->) & ->) Hv. apply (read_inv_none v); [apply same_message_refl|done..].
Qed.

(** ** The data of a button *)

Lemma split_units_app sep a b : sep ∉ a -> split_units sep (a ++ sep :: b) = a :: split_units sep b.
Proof.
  induction a as [|c a IH]; intros H; cbn [app split_units]; [by rewrite Z.eqb_refl|].
  apply not_elem_of_cons in H as [Hc Ha]. by rewrite IH, (proj2 (Z.eqb_neq c sep)).
Qed.

Lemma split_units_last sep a : sep ∉ a -> split_units sep a = [a].
Proof.
  induction a as [|c a IH]; intros H; cbn [split_units]; [done|].
  apply not_elem_of_cons in H as [Hc Ha]. by rewrite IH, (proj2 (Z.eqb_neq c sep)).
Qed.

(** The indices a question can have, one by one. *)
Lemma index_cases i : 0 <= i < MAX_OPTIONS -> i ∈ seqZ 0 10.
Proof. intros H. apply elem_of_seqZ. unfold MAX_OPTIONS in H. lia. Qed.

Lemma Number_index i : 0 <= i < MAX_OPTIONS ->
  Number_integer (units (pretty i)) = Some i /\ 58 ∉ units (pretty i) /\ List.length (units (pretty i)) = 1%nat.
Proof.
  intros H%index_cases. cbn in H.
  repeat (apply elem_of_cons in H as [->|H]; [vm_compute; split; [done|split; [|done]]; set_solver|]).
  by apply elem_of_nil in H.
Qed.

Lemma parse_built id i : id <> [] -> 58 ∉ id -> 0 <= i < MAX_OPTIONS ->
  parseCallbackData (buildCallbackData id i) = Some (id, i).
Proof.
  intros Hid Hc Hi. destruct (Number_index i Hi) as (Hn & Hd & _). unfold parseCallbackData, buildCallbackData.
  cbn [app]. change (CALLBACK_PREFIX ++ 58 :: id ++ 58 :: units (pretty i)) with
    ([113] ++ 58 :: (id ++ 58 :: units (pretty i))).
  rewrite !split_units_app, split_units_last by (done || (cbn; set_solver)).
  rewrite bool_decide_eq_true_2 by done. rewrite Hn, bool_decide_eq_false_2 by done.
  by rewrite (proj2 (Z.ltb_ge _ _)), (proj2 (Z.leb_gt _ _)) by lia.
Qed.

(** The data of a button is read back as the question and the option it was built from, and with the
    identifiers of the table it is within the 64 bytes that Telegram keeps. *)
Lemma button_data_round_trip id i :
  id <> [] -> 58 ∉ id -> 0 <= i < MAX_OPTIONS ->
  parseCallbackData (buildCallbackData id i) = Some (id, i) /\
  (List.length id = 36%nat -> (List.length (buildCallbackData id i) <= 64)%nat).
Proof.
  intros Hid Hc Hi. split; [by apply parse_built|]. intros Hl. unfold buildCallbackData.
  rewrite !length_app, Hl. destruct (Number_index i Hi) as (_ & _ & ->). cbn. lia.
Qed.

(** ** The quota *)

Definition sent_between (a b : Z) (rows : list RelayMessageRow) : nat :=
  List.length (List.filter (fun r => is_out r && ((a <=? rm_createdAt r) && (rm_createdAt r <=? b))) rows).

(** No hour has more messages than the quota, and none is from the future. *)
Definition quota_kept (v : RelayWorld) : Prop :=
  Forall (fun r => rm_createdAt r <= clock_of v) (rl_rows v) /\
  forall t, (sent_between (t - HOUR_MS) t (rl_rows v) <= MAX_OUT_PER_HOUR)%nat.

Lemma sent_between_since a b rows : (sent_between a b rows <= RelayStore.sent_since a rows)%nat.
Proof.
  unfold sent_between, RelayStore.sent_since. induction rows as [|r l IH]; [done|]. cbn.
  destruct (is_out r), (a <=? _), (_ <=? b); cbn; lia.
Qed.

Lemma sent_since_mono a b rows : a <= b -> (RelayStore.sent_since b rows <= RelayStore.sent_since a rows)%nat.
Proof.
  intros H. unfold RelayStore.sent_since. induction rows as [|r l IH]; [done|]. cbn.
  destruct (is_out r); [|done]. cbn. destruct (Z.leb_spec b (rm_createdAt r)), (Z.leb_spec a (rm_createdAt r)); cbn; lia.
Qed.

Lemma quota_insert v v' r :
  quota_kept v -> (RelayStore.sent_since (clock_of v - HOUR_MS) (rl_rows v) < MAX_OUT_PER_HOUR)%nat ->
  rl_rows v' = rl_rows v ++ [r] -> rm_createdAt r = clock_of v -> clock_of v' = clock_of v -> quota_kept v'.
Proof.
  intros [Hp Hq] Hn Hr Hc Ht. split.
  - rewrite Hr, Ht. apply Forall_app. split; [done|]. repeat constructor. lia.
  - intros t. rewrite Hr. unfold sent_between. rewrite List.filter_app, length_app.
    fold (sent_between (t - HOUR_MS) t (rl_rows v)). cbn [List.filter]. rewrite Hc.
    destruct (Z.leb_spec (clock_of v) t) as [Hle|Hgt]; rewrite ?andb_true_r, ?andb_false_r;
      [|cbn; specialize (Hq t); lia].
    assert (sent_between (t - HOUR_MS) t (rl_rows v) < MAX_OUT_PER_HOUR)%nat; [|case_match; cbn; lia].
    eapply Nat.le_lt_trans; [apply sent_between_since|]. eapply Nat.le_lt_trans; [|exact Hn].
    apply sent_since_mono. lia.
Qed.

(** What a method does to the rows when nothing else runs: the rest of [send]. *)
Definition keeps_quota (v v' : RelayWorld) : Prop := quota_kept v -> quota_kept v'.

Definition same_dates (r r' : RelayMessageRow) : Prop :=
  rm_createdAt r' = rm_createdAt r /\ rm_direction r' = rm_direction r.

Lemma quota_same_dates v v' : Forall2 same_dates (rl_rows v) (rl_rows v') -> clock_of v' = clock_of v -> keeps_quota v v'.
Proof.
  intros Hs Hc [Hp Hq]. split.
  - rewrite Hc. clear Hq. induction Hs as [|r r' l l' [E _] _ IH]; [constructor|].
    apply Forall_cons in Hp as [Hr Hp]. constructor; [by rewrite E|auto].
  - intros t. specialize (Hq t). enough (sent_between (t - HOUR_MS) t (rl_rows v') = sent_between (t - HOUR_MS) t (rl_rows v)) by lia.
    clear Hp Hq. unfold sent_between. induction Hs as [|r r' l l' [E1 E2] _ IH]; [done|]. cbn.
    unfold is_out. rewrite E1, E2. destruct (bool_decide _ && _); cbn; [by f_equal|done].
Qed.

Lemma same_dates_refl l : Forall2 same_dates l l.
Proof. induction l; constructor; done. Qed.

Lemma quota_query {X} (f : list RelayMessageRow -> X) : steps keeps_quota (query f).
Proof. apply steps_statement_on; intros v; by apply quota_same_dates; [apply same_dates_refl|]. Qed.

Lemma quota_telegram c : steps keeps_quota (telegram c).
Proof. split; [|by intros [d|m]]. intros v. by apply quota_same_dates; [apply same_dates_refl|]. Qed.

Lemma quota_emit id d : steps keeps_quota (RelayService.emit id d).
Proof. split; [|done]. intros v. by apply quota_same_dates; [apply same_dates_refl|]. Qed.

Lemma quota_attach id m : steps keeps_quota (RelayStore.attachTelegramMessageId id m).
Proof.
  apply steps_statement_on; intros v; [by apply quota_same_dates; [apply same_dates_refl|]|].
  apply quota_same_dates; [|done]. cbn. induction (rl_rows v) as [|r l IH]; cbn; constructor; [by case_bool_decide|done].
Qed.

Lemma quota_chunks `{!UnicodeTable} enabled chat id options l : forall first,
  steps keeps_quota (RelayBot.deliver_chunks enabled chat id options l first).
Proof.
  induction l as [|c l IH]; intros first; [done|]. cbn [RelayBot.deliver_chunks].
  apply steps_bind; [|auto]. unfold RelayBot.sendWithPlainFallback. destruct (negb enabled); [done|].
  apply steps_try_with; [apply quota_telegram|done|]. intros e. destruct (RelayBot.cannot_parse e); [|done].
  apply steps_bind; [apply quota_telegram|done].
Qed.

#[export] Instance keeps_quota_refl : Reflexive keeps_quota.
Proof. intros v H. exact H. Qed.
#[export] Instance keeps_quota_trans : Transitive keeps_quota.
Proof. intros u v w H1 H2 H. apply H2, H1, H. Qed.

Lemma send_keeps_quota `{!UnicodeTable} enabled chat body options v :
  quota_kept v -> quota_kept (run (RelayController.send enabled chat body options) v).1.
Proof.
  intros Hv. unfold RelayController.send, RelayController.assertEnabled.
  destruct (valid_message body options); [|done]. destruct enabled; [|done]. cbn [bind].
  unfold RelayService.send, RelayStore.outQuotaExceeded, RelayStore.insertOutbound.
  rewrite !run_bind. unfold Relay.now. rewrite run_reads, run_bind. unfold query. rewrite run_statement_on.
  cbv zeta. destruct (faulty (rl_world v)); [exact Hv|]. cbn [run fst snd].
  set (v1 := put_world (tick (rl_world v)) v). change (rl_rows v1) with (rl_rows v).
  destruct (Nat.leb_spec MAX_OUT_PER_HOUR (RelayStore.sent_since (clock_of v - HOUR_MS) (rl_rows v))) as [|Hq]; [exact Hv|].
  rewrite run_bind, run_statement_on. cbv zeta. destruct (faulty (rl_world v1)); [exact Hv|].
  set (v2 := (RelayStore.insert_row dir_out body options None (put_world (tick (rl_world v1)) v1)).1).
  assert (H2 : quota_kept v2) by (by eapply (quota_insert v)).
  revert H2. match goal with |- quota_kept ?a -> quota_kept (run ?p _).1 => enough (steps keeps_quota p) as Hrest end.
  { by apply (steps_run keeps_quota). }
  apply steps_bind; [unfold RelayBot.deliver; cbn [negb]; apply quota_chunks|]. intros [m|];
    (apply steps_bind; [first [apply quota_attach|done]|]; intros _; apply steps_bind; [apply quota_emit|done]).
Qed.

(** One request after the other, at any times. *)
Definition one_send `{!UnicodeTable} enabled chat (v v' : RelayWorld) : Prop :=
  (exists body options, v' = (run (RelayController.send enabled chat body options) v).1) \/ relay_time v v'.

(** Requests served one after the other never send more than thirty messages within an hour, whichever
    hour it is, even when the database or Telegram fail in the middle of them. *)
Lemma one_by_one_the_quota_holds `{!UnicodeTable} enabled chat v v' t :
  quota_kept v -> rtc (one_send enabled chat) v v' ->
  (sent_between (t - HOUR_MS) t (rl_rows v') <= MAX_OUT_PER_HOUR)%nat.
Proof.
  intros Hv Hr. enough (quota_kept v') as [_ Hw] by apply Hw.
  induction Hr as [v|v1 v2 v3 H12 _ IH]; [done|]. apply IH.
  destruct H12 as [(body & options & ->)|(w & (u & Hu & ->) & ->)]; [by apply send_keeps_quota|].
  destruct Hv as [Hp Hq]. split; [|done]. eapply Forall_impl; [exact Hp|]. cbn. intros r Hrr. unfold clock_of in *. cbn. lia.
Qed.

(** ** Requests at the same time *)

Definition a_message (t : Z) (n : nat) : RelayMessageRow :=
  {| rm_id := uuid_string n; rm_direction := dir_out; rm_body := units "hola"; rm_options := None;
     rm_answerTo := None; rm_telegramMessageId := None; rm_createdAt := t; rm_consumedAt := None |}.

(** A bridge with [n] messages sent at the instant [t] and a Telegram that accepts everything. *)
Definition bridge_with (n : nat) (t : Z) : RelayWorld :=
  {| rl_world := upd_sys (fun s => {| clock := clock s; statements := statements s; fault := fault s; uuids := n |}) (empty_world t);
     rl_rows := map (a_message t) (seq 0 n);
     rl_telegram := {| tg_calls := []; tg_answer := fun k _ => inr (Z.of_nat k) |};
     rl_events := []; rl_read := [] |}.

(** Requests served at the same time do pass the quota: it is checked in one statement and the row is
    inserted in another, so that two requests that find twenty-nine messages both send theirs. *)
Lemma two_requests_pass_the_quota `{!UnicodeTable} :
  exists c, reachable relay_time (relay_client true 7) (bridge_with 29 0) c /\
    sent_between (- HOUR_MS) 0 (rl_rows (c_store c)) = 31%nat.
Proof.
  set (p := discard (RelayController.send true 7 (units "hola") None)).
  exists (interleave [0; 0; 1; 1; 0; 1]%nat (bridge_with 29 0) [p; p]). split.
  - eapply reachable_rtc; [|apply interleave_steps]. apply reachable_spawned. repeat constructor.
  - lazy. reflexivity.
Qed.

(** ** Ordering by date *)

Lemma insert_by_date_perm r l : insert_by_date r l ≡ₚ r :: l.
Proof. induction l as [|x l IH]; [done|]. cbn. case_match; [|done]. by rewrite IH, Permutation_swap. Qed.

Lemma by_date_perm l : by_date l ≡ₚ l.
Proof.
  unfold by_date. enough (forall acc, fold_left (fun acc r => insert_by_date r acc) l acc ≡ₚ acc ++ l) as Hp by apply (Hp []).
  induction l as [|r l IH]; intros acc; cbn; [by rewrite app_nil_r|].
  rewrite IH, insert_by_date_perm. apply Permutation_middle.
Qed.

Definition older (r r' : RelayMessageRow) : Prop := rm_createdAt r <= rm_createdAt r'.

Lemma insert_by_date_sorted r l : StronglySorted older l -> StronglySorted older (insert_by_date r l).
Proof.
  induction 1 as [|x l Hl IH Hx]; cbn; [repeat constructor|].
  destruct (Z.leb_spec (rm_createdAt x) (rm_createdAt r)).
  - constructor; [done|]. rewrite insert_by_date_perm. by constructor.
  - constructor; [by constructor|]. constructor; [unfold older; lia|].
    eapply Forall_impl; [exact Hx|]. unfold older. intros y ?. lia.
Qed.

Lemma by_date_sorted l : StronglySorted older (by_date l).
Proof.
  unfold by_date. generalize (SSorted_nil older). generalize (@nil RelayMessageRow).
  induction l as [|r l IH]; intros acc Hacc; cbn; [done|]. by apply IH, insert_by_date_sorted.
Qed.

(** Reading the inbox returns exactly the pending messages of the owner, oldest first, and leaves none
    pending. *)
Lemma the_inbox_returns_what_was_pending v :
  healthy (rl_world v) ->
  exists rows, (run RelayService.inbox v).2 = inr (map RelayService.inbox_message rows) /\
    StronglySorted older rows /\
    rows ≡ₚ map (set_consumedAt (clock_of v)) (List.filter is_pending (rl_rows v)) /\
    List.filter is_pending (rl_rows (run RelayService.inbox v).1) = [].
Proof.
  intros Hv. exists (by_date (map (set_consumedAt (clock_of v)) (List.filter is_pending (rl_rows v)))).
  unfold RelayService.inbox, RelayStore.consumePending. rewrite !run_bind. unfold Relay.now. rewrite run_reads, run_statement_on.
  cbv zeta. rewrite healthy_not_faulty by done. cbn [run fst snd]. split; [done|]. split; [apply by_date_sorted|].
  split; [apply by_date_perm|]. cbn. induction (rl_rows v) as [|r l IH]; [done|]. cbn.
  destruct (is_pending r) eqn:Hp; [|by rewrite Hp]. unfold is_pending at 1. cbn. by rewrite andb_false_r.
Qed.

(** ** Answering a question *)

Definition answers (id : string) (r : RelayMessageRow) : bool :=
  negb (is_out r) && bool_decide (rm_answerTo r = Some id).

(** The row a chosen option becomes. *)
Definition chosen_row (v : RelayWorld) (id : string) (chosen : text) : RelayMessageRow :=
  {| rm_id := uuid_string (uuids_of v); rm_direction := dir_in; rm_body := chosen; rm_options := None;
     rm_answerTo := Some id; rm_telegramMessageId := None; rm_createdAt := clock_of v; rm_consumedAt := None |}.

Lemma last_by_date l : last (by_date l) = None <-> l = [].
Proof.
  rewrite last_None. split; intros E; [|by subst]. apply Permutation_nil. rewrite <- E. apply by_date_perm.
Qed.

Lemma rows_answerCallbackQuery body v : rl_rows (run (RelayBot.answerCallbackQuery body) v).1 = rl_rows v.
Proof. unfold RelayBot.answerCallbackQuery, telegram. rewrite run_bind. cbn. by destruct (tg_answer _ _ _). Qed.

Lemma rows_swallow_telegram c v : rl_rows (run (swallow (telegram c)) v).1 = rl_rows v.
Proof. unfold swallow. rewrite run_try_with. unfold telegram. cbn. by destruct (tg_answer _ _ _). Qed.

(** Pressing the button of an option records that option as the answer of its question when it has none
    yet, and changes nothing when it has one; whatever Telegram says to the bot. *)
Lemma a_button_answers_its_question_once `{!UnicodeTable} v q options i chosen :
  healthy (rl_world v) ->
  head (List.filter (fun r => bool_decide (units (rm_id r) = units (rm_id q)) && is_out r) (rl_rows v)) = Some q ->
  rm_options q = Some options -> 0 <= i < MAX_OPTIONS -> options !! Z.to_nat i = Some chosen ->
  units (rm_id q) <> [] -> 58 ∉ units (rm_id q) ->
  rl_rows (run (RelayBot.on_callback (buildCallbackData (units (rm_id q)) i)) v).1 =
  rl_rows v ++ (if existsb (answers (rm_id q)) (rl_rows v) then [] else [chosen_row v (rm_id q) chosen]).
Proof.
  intros Hv Hq Ho Hi Hc Hid Hcolon. unfold RelayBot.on_callback. rewrite parse_built by done.
  unfold RelayStore.findOutbound, query. rewrite run_bind, run_statement_on. cbv zeta.
  rewrite healthy_not_faulty by done. cbn [rl_rows put_world fst snd]. rewrite Hq. cbn [option_bind mbind].
  rewrite Ho. cbn [option_bind mbind]. rewrite Hc. unfold RelayStore.findAnswer, query.
  rewrite run_bind, run_statement_on. cbv zeta. set (v1 := put_world (tick (rl_world v)) v).
  rewrite (healthy_not_faulty (rl_world v1)) by done. cbn [put_world rl_rows rl_world fst snd].
  set (v2 := put_world (tick (rl_world v1)) v1). fold (answers (rm_id q)).
  change (fun r => negb (is_out r) && bool_decide (rm_answerTo r = Some (rm_id q))) with (answers (rm_id q)).
  change (rl_rows v1) with (rl_rows v).
  destruct (last (by_date (List.filter (answers (rm_id q)) (rl_rows v)))) as [a|] eqn:Ha.
  - rewrite rows_answerCallbackQuery. replace (existsb _ _) with true; [by rewrite app_nil_r|].
    symmetry. apply existsb_exists. exists a.
    assert (Hin : a ∈ List.filter (answers (rm_id q)) (rl_rows v)).
    { rewrite <- by_date_perm. by apply last_Some_elem_of. }
    apply list_elem_of_In, filter_In in Hin. by destruct Hin.
  - apply last_by_date in Ha. replace (existsb _ _) with false.
    2: { symmetry. apply not_true_is_false. intros (r & Hr & Hb)%existsb_exists.
         assert (Hin : In r (List.filter (answers (rm_id q)) (rl_rows v))) by by apply filter_In. by rewrite Ha in Hin. }
    unfold RelayStore.insertInbound. rewrite run_bind, run_statement_on. cbv zeta.
    rewrite (healthy_not_faulty (rl_world v2)) by done. cbn [fst snd]. rewrite run_bind.
    set (v3 := (RelayStore.insert_row _ _ _ _ _).1).
    assert (H3 : rl_rows v3 = rl_rows v ++ [chosen_row v (rm_id q) chosen]) by done. rewrite <- H3.
    pose proof (rows_answerCallbackQuery (units "Enviado: " ++ chosen) v3) as Hr.
    destruct (run (RelayBot.answerCallbackQuery _) v3) as [v4 [e|[]]]; cbn [fst] in Hr; [done|].
    rewrite <- Hr. apply rows_swallow_telegram.
Qed.

(** ** Sending a long question *)

Definition is_last {A} (rest : list A) : bool := match rest with [] => true | _ => false end.

(** The calls that send the messages of a text, the buttons with the last. *)
Fixpoint sends (chat : Z) (keyboard : option Keyboard) (l : list text) : list TelegramCall :=
  match l with
  | [] => []
  | chunk :: rest =>
      tg_sendMessage chat chunk true (if is_last rest then keyboard else None) :: sends chat keyboard rest
  end.

Definition keyboard_of (questionId : string) (options : option (list text)) : option Keyboard :=
  match options with
  | Some (o :: os) => Some (RelayBot.buildKeyboard questionId (o :: os))
  | _ => None
  end.

Lemma run_deliver_chunks `{!UnicodeTable} chat id options (reply : nat -> Z) l : forall first v,
  (forall n c, tg_answer (rl_telegram v) n c = inr (reply n)) ->
  exists v', run (RelayBot.deliver_chunks true chat id options l first) v =
      (v', inr match first, l with
               | Some m, _ => Some m
               | None, [] => None
               | None, _ => Some (reply (List.length (tg_calls (rl_telegram v))))
               end) /\
    tg_calls (rl_telegram v') = tg_calls (rl_telegram v) ++ sends chat (keyboard_of id options) l.
Proof.
  induction l as [|chunk l IH]; intros first v Hv.
  - exists v. cbn. rewrite app_nil_r. by destruct first.
  - cbn [RelayBot.deliver_chunks]. rewrite run_bind. unfold RelayBot.sendWithPlainFallback. cbn [negb].
    rewrite run_try_with. unfold telegram at 1. cbn [run]. rewrite Hv. cbn [run].
    set (call := tg_sendMessage _ _ _ _).
    destruct (IH (match first with Some _ => first | None => Some (reply (List.length (tg_calls (rl_telegram v)))) end)
      (add_call call v)) as (v' & Hrun & Hcalls); [done|].
    exists v'. split.
    + rewrite Hrun. by destruct first.
    + rewrite Hcalls. cbn [rl_telegram add_call tg_calls sends]. rewrite <- app_assoc. cbn [app]. do 2 f_equal.
      unfold call. f_equal. unfold keyboard_of. by destruct l, options as [[|o os]|].
Qed.

(** A question is sent as the messages its text is cut into, in order, with its buttons on the last
    of them, while the identifier kept for it is that of the first: when there are several messages, an
    answer that quotes the one with the buttons is not tied to the question. *)
Lemma a_long_question_is_known_by_its_first_message `{!UnicodeTable} chat body options id (reply : nat -> Z) v :
  (forall n c, tg_answer (rl_telegram v) n c = inr (reply n)) ->
  let l := splitForTelegram (markdownToTelegramHtml body) TELEGRAM_CHUNK_LIMIT in
  exists v', run (RelayBot.deliver true chat body options id) v =
      (v', inr (if is_last l then None else Some (reply (List.length (tg_calls (rl_telegram v)))))) /\
    tg_calls (rl_telegram v') = tg_calls (rl_telegram v) ++ sends chat (keyboard_of id options) l.
Proof.
  intros Hv l. unfold RelayBot.deliver. cbn [negb].
  destruct (run_deliver_chunks chat id options reply l None v Hv) as (v' & Hrun & Hc). exists v'.
  split; [|done]. fold l. rewrite Hrun. by destruct l.
Qed.

(** ** Witnesses *)

Module RelayExamples.

#[export] Instance latin : UnicodeTable := FormatExamples.latin.

Definition a_question : RelayMessageRow :=
  {| rm_id := uuid_string 0; rm_direction := dir_out; rm_body := units "Which?"; rm_options := Some [units "yes"; units "no"];
     rm_answerTo := None; rm_telegramMessageId := Some 5; rm_createdAt := 0; rm_consumedAt := None |}.
Definition a_reply : RelayMessageRow :=
  {| rm_id := uuid_string 1; rm_direction := dir_in; rm_body := units "hello"; rm_options := None;
     rm_answerTo := None; rm_telegramMessageId := None; rm_createdAt := 0; rm_consumedAt := None |}.

(** A bridge with a question of Claude and a message of the owner. *)
Definition talking : RelayWorld :=
  put_rows [a_question; a_reply] (bridge_with 2 0).

Lemma talking_read_inv : read_inv talking.
Proof.
  split.
  - repeat constructor; [exists 0%nat|exists 1%nat]; split; try done; cbn; lia.
  - cbn. apply NoDup_cons. split; [|apply NoDup_singleton]. intros E%list_elem_of_singleton%uuid_string_injective. lia.
  - constructor.
  - intros id. split; [by intros ?%elem_of_nil|]. intros (r & Hr & _ & _ & Hc). exfalso.
    apply elem_of_cons in Hr as [-> | ->%list_elem_of_singleton]; by apply Hc.
Qed.

Lemma talking_healthy : healthy (rl_world talking).
Proof. done. Qed.

Lemma talking_quota : quota_kept talking.
Proof.
  split; [repeat constructor; cbn; lia|]. intros t. unfold sent_between. etransitivity; [apply List.filter_length_le|]. cbn. unfold MAX_OUT_PER_HOUR. lia.
Qed.

End RelayExamples.

Lemma each_message_of_the_owner_is_read_once_witness :
  let c := interleave [0; 0; 1; 1]%nat RelayExamples.talking
             [discard (RelayController.inbox true); discard (RelayController.inbox true)] in
  NoDup (rl_read (c_store c)) /\
  forall r, r ∈ rl_rows (c_store c) -> rm_direction r = dir_in ->
    (rm_consumedAt r = None <-> rm_id r ∉ rl_read (c_store c)).
Proof.
  apply (@each_message_of_the_owner_is_read_once RelayExamples.latin true 7 RelayExamples.talking).
  - apply RelayExamples.talking_read_inv.
  - eapply reachable_rtc; [|apply interleave_steps]. apply reachable_spawned. repeat constructor.
Defined.

Lemma button_data_round_trip_witness :
  parseCallbackData (buildCallbackData (units "abc") 7) = Some (units "abc", 7) /\
  (List.length (units "abc") = 36%nat -> (List.length (buildCallbackData (units "abc") 7) <= 64)%nat).
Proof. apply (button_data_round_trip (units "abc") 7); [done|vm_compute; set_solver|done]. Defined.

Lemma one_by_one_the_quota_holds_witness :
  (sent_between (0 - HOUR_MS) 0
    (rl_rows (run (@RelayController.send RelayExamples.latin true 7 (units "hola") None) RelayExamples.talking).1) <= MAX_OUT_PER_HOUR)%nat.
Proof.
  apply (@one_by_one_the_quota_holds RelayExamples.latin true 7 RelayExamples.talking); [apply RelayExamples.talking_quota|].
  apply rtc_once. left. by exists (units "hola"), None.
Defined.

Lemma the_inbox_returns_what_was_pending_witness :
  exists rows, (run RelayService.inbox RelayExamples.talking).2 = inr (map RelayService.inbox_message rows) /\
    StronglySorted older rows /\
    rows ≡ₚ map (set_consumedAt (clock_of RelayExamples.talking)) (List.filter is_pending (rl_rows RelayExamples.talking)) /\
    List.filter is_pending (rl_rows (run RelayService.inbox RelayExamples.talking).1) = [].
Proof. apply (the_inbox_returns_what_was_pending RelayExamples.talking). apply RelayExamples.talking_healthy. Defined.

Lemma a_button_answers_its_question_once_witness :
  rl_rows (run (@RelayBot.on_callback RelayExamples.latin (buildCallbackData (units (uuid_string 0)) 1)) RelayExamples.talking).1 =
  rl_rows RelayExamples.talking ++ [chosen_row RelayExamples.talking (uuid_string 0) (units "no")].
Proof.
  apply (@a_button_answers_its_question_once RelayExamples.latin RelayExamples.talking RelayExamples.a_question
    [units "yes"; units "no"] 1 (units "no")); try done; vm_compute; set_solver.
Defined.

Lemma a_long_question_is_known_by_its_first_message_witness :
  exists v', run (@RelayBot.deliver RelayExamples.latin true 7 (units "Which?") (Some [units "yes"]) "q1") RelayExamples.talking =
      (v', inr (Some 0)) /\
    tg_calls (rl_telegram v') = [tg_sendMessage 7 (units "Which?") true (Some [(units "yes", units "q:q1:0")])].
Proof.
  apply (@a_long_question_is_known_by_its_first_message RelayExamples.latin 7 (units "Which?") (Some [units "yes"]) "q1"
    Z.of_nat RelayExamples.talking). done.
Defined.
