(* ===== verification/Throttle.v ===== *)
(** * Throttle: the limit of requests, kept in Redis

    [src/rate-limit/redis-throttler-storage.service.ts].  Redis runs one command, or
    one script, at a time; the script is one atomic action here.  A key with an
    expiry that has passed is absent. *)
From S2P Require Import Prelude Effects.
Local Open Scope stdpp_scope.
Local Open Scope Z_scope.
Local Open Scope jin_scope.

(** ** Redis *)

Record RedisKey := { rk_value : Z; rk_expires : option Z }.

Record RedisWorld := {
  rd_clock : Z;
  rd_keys : gmap string RedisKey;
  rd_commands : nat;                        (* commands so far *)
  rd_error : nat -> option string           (* the error of the n-th command, if it fails *)
}.

Definition live (t : Z) (k : RedisKey) : bool := match rk_expires k with Some e => t <? e | None => true end.
Definition redis_get (v : RedisWorld) (key : string) : option RedisKey :=
  k ← rd_keys v !! key; if live (rd_clock v) k then Some k else None.
Definition redis_put (key : string) (k : RedisKey) (v : RedisWorld) : RedisWorld :=
  {| rd_clock := rd_clock v; rd_keys := <[key := k]> (rd_keys v); rd_commands := rd_commands v; rd_error := rd_error v |}.
Definition redis_del (key : string) (v : RedisWorld) : RedisWorld :=
  {| rd_clock := rd_clock v; rd_keys := delete key (rd_keys v); rd_commands := rd_commands v; rd_error := rd_error v |}.
Definition count_command (v : RedisWorld) : RedisWorld :=
  {| rd_clock := rd_clock v; rd_keys := rd_keys v; rd_commands := S (rd_commands v); rd_error := rd_error v |}.

Abbreviation redis := (prog RedisWorld string).

(** A command: Redis may be out of reach, or answer with an error. *)
Definition command_act {X} (f : RedisWorld -> RedisWorld * (string + X)) (v : RedisWorld) : RedisWorld * (string + X) :=
  match rd_error v (rd_commands v) with
  | Some e => (count_command v, inl e)
  | None => f (count_command v)
  end.
Definition command {X} (f : RedisWorld -> RedisWorld * (string + X)) : redis X :=
  Act (command_act f) (fun r => match r with inl e => Throw e | inr x => Ret x end).

(** The milliseconds a key has left: -2 when there is no key, -1 when it does not expire. *)
Definition pttl_of (v : RedisWorld) (key : string) : Z :=
  match redis_get v key with
  | None => -2
  | Some k => match rk_expires k with Some e => e - rd_clock v | None => -1 end
  end.
Definition pttl (key : string) : redis Z := command (fun v => (v, inr (pttl_of v key))).

Definition incr (key : string) (v : RedisWorld) : RedisWorld * Z :=
  let k := default {| rk_value := 0; rk_expires := None |} (redis_get v key) in
  let n := rk_value k + 1 in
  (redis_put key {| rk_value := n; rk_expires := rk_expires k |} v, n).

Definition pexpire (key : string) (ms : Z) (v : RedisWorld) : RedisWorld :=
  match redis_get v key with
  | None => v
  | Some k => if 0 <? ms then redis_put key {| rk_value := rk_value k; rk_expires := Some (rd_clock v + ms) |} v
              else redis_del key v
  end.

Definition set_px (key : string) (value ms : Z) : redis unit :=
  command (fun v =>
    if 0 <? ms then (redis_put key {| rk_value := value; rk_expires := Some (rd_clock v + ms) |} v, inr tt)
    else (v, inl "ERR invalid expire time in 'set' command")).

(** ** The storage *)

Record RedisThrottlerRecord := {
  tr_totalHits : Z; tr_timeToExpire : Z; tr_isBlocked : bool; tr_timeToBlockExpire : Z
}.

Definition INCR_WITH_TTL_SCRIPT (key : string) (ttl : Z) (v : RedisWorld) : RedisWorld * Z :=
  let '(v, current) := incr key v in
  ((if current =? 1 then pexpire key ttl v else v), current).

Definition buildBucketKey (key throttlerName : string) : string := "throttle:" +:+ throttlerName +:+ ":" +:+ key.
Definition buildBlockKey (key throttlerName : string) : string := "throttle-block:" +:+ throttlerName +:+ ":" +:+ key.

(** [Math.ceil(ms / 1000)] *)
Definition ceil_seconds (ms : Z) : Z := - (- ms / 1000).

Definition FAIL_OPEN : RedisThrottlerRecord :=
  {| tr_totalHits := 0; tr_timeToExpire := 0; tr_isBlocked := false; tr_timeToBlockExpire := 0 |}.

(** The body of the [try]. *)
Definition count_hit (key : string) (ttl limit blockDuration : Z) (throttlerName : string) : redis RedisThrottlerRecord :=
  let bucketKey := buildBucketKey key throttlerName in
  let blockKey := buildBlockKey key throttlerName in
  blockPttl <- pttl blockKey ;;
  if 0 <? blockPttl then
    Ret {| tr_totalHits := limit + 1; tr_timeToExpire := ceil_seconds blockPttl; tr_isBlocked := true;
           tr_timeToBlockExpire := ceil_seconds blockPttl |}
  else
    totalHits <- command (fun v => let '(v, n) := INCR_WITH_TTL_SCRIPT bucketKey ttl v in (v, inr n)) ;;
    bucketPttl <- pttl bucketKey ;;
    (if limit <? totalHits then set_px blockKey 1 blockDuration else Ret tt) ;;;
    Ret {| tr_totalHits := totalHits; tr_timeToExpire := ceil_seconds (Z.max bucketPttl 0);
           tr_isBlocked := limit <? totalHits;
           tr_timeToBlockExpire := if limit <? totalHits then ceil_seconds blockDuration else 0 |}.

Definition increment (key : string) (ttl limit blockDuration : Z) (throttlerName : string) : redis RedisThrottlerRecord :=
  catch (count_hit key ttl limit blockDuration throttlerName) (fun _ => Ret FAIL_OPEN).

(** [isReachable]: the first of the answer to the ping and of the timeout. *)
Inductive PingOutcome := pong | ping_rejected | ping_timeout.
Definition isReachable (p : PingOutcome) : bool := match p with pong => true | _ => false end.

(** ** One window of a limit *)

Section Window.
Context (key throttlerName : string) (ttl limit blockDuration window_start window_end : Z).
Context (ttl_positive : 0 < ttl) (block_positive : 0 < blockDuration) (window_short : window_end <= window_start + ttl) (limit_nonneg : 0 <= limit).

#[local] Definition bucketKey : string := buildBucketKey key throttlerName.
#[local] Definition blockKey : string := buildBlockKey key throttlerName.

#[local] Arguments bucketKey : simpl never.
#[local] Arguments blockKey : simpl never.

Lemma keys_differ : blockKey <> bucketKey.
Proof. done. Qed.

(** The hits counted in the bucket. *)
Definition hits (v : RedisWorld) : Z := match redis_get v bucketKey with Some k => rk_value k | None => 0 end.

(** A request that has not been counted, or the number it was given. *)
Inductive Phase := ph_start | ph_counted (n : Z).

Definition bucket_sound (v : RedisWorld) : Prop :=
  match redis_get v bucketKey with Some k => 1 <= rk_value k | None => True end.

Definition throttle_holds (_ : Phase) (v : RedisWorld) : Prop := (forall n, rd_error v n = None) /\ bucket_sound v.

Definition throttle_moves (ph : Phase) (v v' : RedisWorld) (ph' : Phase) : Prop :=
  rd_clock v' = rd_clock v /\ rd_error v' = rd_error v /\
  ((ph' = ph /\ rd_keys v' !! bucketKey = rd_keys v !! bucketKey) \/
   (ph = ph_start /\ ph' = ph_counted (hits v + 1) /\
    rd_keys v' !! bucketKey = Some {| rk_value := hits v + 1;
      rk_expires := match redis_get v bucketKey with Some k => rk_expires k | None => Some (rd_clock v + ttl) end |})).

Definition admitted (r : RedisThrottlerRecord) : bool := negb (tr_isBlocked r).

(** A request that is let through has a number within the limit. *)
Definition throttle_outcome (ph : Phase) (r : string + RedisThrottlerRecord) : Prop :=
  match r with
  | inl _ => False
  | inr rec => admitted rec = true -> exists n, ph = ph_counted n /\ n <= limit
  end.

Lemma script_counts v :
  bucket_sound v ->
  INCR_WITH_TTL_SCRIPT bucketKey ttl v =
  (redis_put bucketKey {| rk_value := hits v + 1;
     rk_expires := match redis_get v bucketKey with Some k => rk_expires k | None => Some (rd_clock v + ttl) end |} v,
   hits v + 1).
Proof.
  unfold bucket_sound, hits, INCR_WITH_TTL_SCRIPT, incr. intros Hs.
  destruct (redis_get v bucketKey) as [k|] eqn:E; cbn [from_option id rk_value rk_expires].
  - destruct (Z.eqb_spec (rk_value k + 1) 1); [lia|done].
  - cbn. unfold pexpire, redis_get at 1. cbn. rewrite lookup_insert_eq. cbn.
    rewrite (proj2 (Z.ltb_lt 0 ttl)) by done. unfold redis_put. cbn. by rewrite insert_insert_eq.
Qed.

Lemma increment_follows ph0 : ph0 = ph_start ->
  follows throttle_holds throttle_moves ph0 (increment key ttl limit blockDuration throttlerName) throttle_outcome.
Proof.
  intros ->. unfold increment. apply follows_catch. unfold count_hit. fold bucketKey blockKey.
  intros v [He Hs]. unfold command_act. rewrite He. cbn [fst snd].
  exists ph_start. split; [split; [done|split; [done|by left]]|]. cbn [bind].
  destruct (0 <? pttl_of (count_command v) blockKey); [by cbn|].
  intros w [He' Hs']. unfold command_act. rewrite He'.
  assert (Hs'' : bucket_sound (count_command w)) by done. rewrite (script_counts _ Hs''). cbn [fst snd].
  change (hits (count_command w)) with (hits w). exists (ph_counted (hits w + 1)).
  split; [split; [done|split; [done|right]]|].
  { split; [done|]. split; [done|]. cbn. by rewrite lookup_insert_eq. }
  generalize (hits w + 1) as n. intros n. cbn [bind].
  intros x [Hx _]. unfold command_act. rewrite Hx. cbn [fst snd]. exists (ph_counted n).
  split; [split; [done|split; [done|by left]]|]. cbn [bind].
  destruct (Z.ltb_spec limit n) as [Hn|Hn]; [|intros _; eauto].
  intros y [Hy _]. unfold command_act. rewrite Hy, (proj2 (Z.ltb_lt 0 blockDuration)) by done. cbn [fst snd].
  exists (ph_counted n). split; [|by cbn]. split; [done|]. split; [done|]. left. split; [done|]. cbn.
  apply lookup_insert_ne, keys_differ.
Qed.

(** ** The invariant of the window *)

Definition number (ph : Phase) : option Z := match ph with ph_counted n => Some n | ph_start => None end.
Definition numbers (phs : list Phase) : list Z := omap number phs.

Record window_inv (v : RedisWorld) (phs : list Phase) : Prop := {
  no_errors : forall n, rd_error v n = None;
  inside : window_start <= rd_clock v < window_end;
  counted : numbers phs ≡ₚ seqZ 1 (hits v);
  lasting : match rd_keys v !! bucketKey with
            | Some k => live (rd_clock v) k = false \/ exists e, rk_expires k = Some e /\ window_end <= e /\ 1 <= rk_value k
            | None => True
            end
}.

Lemma window_inv_sound v phs : window_inv v phs -> bucket_sound v.
Proof.
  intros [_ _ _ Hl]. unfold bucket_sound, redis_get. destruct (rd_keys v !! bucketKey) as [k|]; cbn; [|done].
  destruct (live (rd_clock v) k); [|done]. destruct Hl as [|(e & _ & _ & ?)]; [congruence|lia].
Qed.

Lemma hits_same v v' : rd_clock v' = rd_clock v -> rd_keys v' !! bucketKey = rd_keys v !! bucketKey -> hits v' = hits v.
Proof. unfold hits, redis_get. by intros -> ->. Qed.

Lemma hits_nonneg v : bucket_sound v -> 0 <= hits v.
Proof. unfold bucket_sound, hits. case_match; lia. Qed.

Lemma window_inv_moves v v' l1 ph ph' l2 :
  window_inv v (l1 ++ ph :: l2) -> throttle_moves ph v v' ph' -> window_inv v' (l1 ++ ph' :: l2).
Proof.
  intros Hi (Hc & He & Hk). pose proof (window_inv_sound _ _ Hi) as Hs. pose proof (hits_nonneg v Hs) as Hh.
  destruct Hi as [Hne Hin Hn Hl].
  destruct Hk as [[-> Hk]|(-> & -> & Hk)].
  - split; [intros n; by rewrite He|by rewrite Hc|by rewrite (hits_same v v')|by rewrite Hk, Hc].
  - assert (Hlive : forall x, live (rd_clock v') {| rk_value := x;
        rk_expires := match redis_get v bucketKey with Some k => rk_expires k | None => Some (rd_clock v + ttl) end |} = true /\
      exists e, match redis_get v bucketKey with Some k => rk_expires k | None => Some (rd_clock v + ttl) end = Some e /\ window_end <= e).
    { intros x. unfold redis_get. rewrite Hc. destruct (rd_keys v !! bucketKey) as [k|]; cbn [mbind option_bind].
      - destruct (live (rd_clock v) k) eqn:Ek.
        + destruct Hl as [|(e & E & Hw & _)]; [congruence|]. unfold live in *. cbn. rewrite E in *. split; [done|eauto].
        + split; [apply Z.ltb_lt; lia|]. eexists. split; [done|lia].
      - split; [apply Z.ltb_lt; lia|]. eexists. split; [done|lia]. }
    assert (Hh' : hits v' = hits v + 1).
    { unfold hits at 1. unfold redis_get at 1. rewrite Hk. cbn [mbind option_bind]. by rewrite (proj1 (Hlive _)). }
    split; [intros n; by rewrite He|by rewrite Hc| |].
    + rewrite Hh'. unfold numbers in *. rewrite omap_app in *. cbn [omap list_omap number] in *.
      rewrite seqZ_app, <- Hn by lia. rewrite (seqZ_cons (1 + hits v) 1), seqZ_nil by lia.
      rewrite (Z.add_comm 1), <- Permutation_middle. apply Permutation_cons_append.
    + rewrite Hk. right. destruct (proj2 (Hlive 0)) as (e & E & Hw). exists e. cbn. split; [done|]. split; [done|lia].
Qed.

(** Time passes within the window. *)
Definition within_window (v v' : RedisWorld) : Prop :=
  exists t, rd_clock v <= t < window_end /\
    v' = {| rd_clock := t; rd_keys := rd_keys v; rd_commands := rd_commands v; rd_error := rd_error v |}.

(** A key of the bucket does not come to its end within the window. *)
Lemma live_in_window v k t : rd_clock v <= t < window_end ->
  live (rd_clock v) k = false \/ (exists e, rk_expires k = Some e /\ window_end <= e /\ 1 <= rk_value k) ->
  live t k = live (rd_clock v) k.
Proof.
  unfold live. intros Ht [Hd|(e & -> & He & _)]; [|by rewrite !(proj2 (Z.ltb_lt _ _)) by lia].
  destruct (rk_expires k) as [e|]; [|done]. rewrite Hd. apply Z.ltb_ge in Hd. apply Z.ltb_ge. lia.
Qed.

Lemma window_inv_time v v' l : within_window v v' -> window_inv v l -> window_inv v' l.
Proof.
  intros (t & Ht & ->) [Hne Hin Hn Hl]. split; cbn; [done|lia| |].
  - rewrite Hn. enough (hits v = hits {| rd_clock := t; rd_keys := rd_keys v; rd_commands := rd_commands v;
      rd_error := rd_error v |}) as -> by done.
    unfold hits, redis_get. cbn. destruct (rd_keys v !! bucketKey) as [k|]; cbn; [|done].
    by rewrite (live_in_window v k t).
  - destruct (rd_keys v !! bucketKey) as [k|]; [|done]. by rewrite (live_in_window v k t).
Qed.

(** ** How many are let through *)

Definition let_through (p : prog RedisWorld string RedisThrottlerRecord) : bool :=
  match p with Ret r => admitted r | _ => false end.

Lemma numbers_within phs pool :
  Forall2 (fun ph p => follows throttle_holds throttle_moves ph p throttle_outcome) phs pool ->
  (List.length (List.filter let_through pool) <= List.length (List.filter (fun n : Z => n <=? limit)%Z (numbers phs)))%nat.
Proof.
  induction 1 as [|ph p phs pool Hp _ IH]; [done|]. unfold numbers in *. cbn [List.filter].
  destruct (let_through p) eqn:E.
  - destruct p as [r| |]; [|done|done]. cbn in E, Hp. destruct (Hp E) as (n & -> & Hn). cbn.
    rewrite (proj2 (Z.leb_le n limit)) by done. cbn. cbn in IH. lia.
  - destruct ph as [|n]; cbn; [done|]. destruct (n <=? limit); cbn; cbn in IH; lia.
Qed.

Lemma numbers_bound c : (List.length (List.filter (fun n : Z => n <=? limit)%Z (seqZ 1 c)) <= Z.to_nat limit)%nat.
Proof.
  rewrite <- (length_seqZ 1 limit). apply submseteq_length, NoDup_submseteq.
  - apply NoDup_ListNoDup, List.NoDup_filter, NoDup_ListNoDup, NoDup_seqZ.
  - intros n Hn. apply list_elem_of_In, filter_In in Hn as [Hn Hl]. apply list_elem_of_In, elem_of_seqZ in Hn.
    apply elem_of_seqZ. lia.
Qed.
End Window.

(** The requests of one client under one limit. *)
Definition throttled (key throttlerName : string) (ttl limit blockDuration : Z)
    (p : prog RedisWorld string RedisThrottlerRecord) : Prop :=
  p = increment key ttl limit blockDuration throttlerName.

(** However many requests arrive together, as long as Redis answers no more of them than the limit
    are let through in a window: each is given its own number by the script. *)
Lemma no_more_than_the_limit_pass key name ttl limit blockDuration window_end v0 c :
  0 < ttl -> 0 < blockDuration -> 0 <= limit ->
  rd_clock v0 < window_end <= rd_clock v0 + ttl ->
  (forall n, rd_error v0 n = None) -> redis_get v0 (buildBucketKey key name) = None ->
  reachable (within_window window_end) (throttled key name ttl limit blockDuration) v0 c ->
  (List.length (List.filter let_through (c_pool c)) <= Z.to_nat limit)%nat.
Proof.
  intros Ht Hb Hl Hw He Hk Hr.
  pose proof (protocol_outcomes (within_window window_end) (throttled key name ttl limit blockDuration)
    (throttle_holds key name) (throttle_moves key name ttl) (window_inv key name (rd_clock v0) window_end) ph_start) as Hpool.
  destruct (Hpool) with (Q := throttle_outcome limit) (w0 := v0) (c := c) as (phs & Hi & Hp).
  - intros w l1 ph l2 Hi. split; [by eapply no_errors|by eapply window_inv_sound].
  - intros. eapply (window_inv_moves _ _ ttl); first [eassumption|lia].
  - intros. eapply window_inv_time; eassumption.
  - intros w l [H1 H2 H3 H4]. split; [done|done| |done]. unfold numbers in *. rewrite omap_app. cbn. by rewrite app_nil_r.
  - intros p ->. by apply increment_follows.
  - split; [done|lia| |].
    + unfold hits, bucketKey. by rewrite Hk, seqZ_nil.
    + unfold redis_get, bucketKey in *. destruct (rd_keys v0 !! _) as [k|]; [|done]. cbn in Hk. left. by case_match.
  - done.
  - etransitivity; [by eapply numbers_within|].
    rewrite (Permutation_length (Permutation_filter_bool _ _ _ (counted _ _ _ _ _ _ Hi))). apply numbers_bound.
Qed.

(** A program that returns only when none of its commands failed. *)
Definition reports {X} (p : redis X) : Prop :=
  forall v v' r, run p v = (v', r) ->
    rd_error v' = rd_error v /\ (rd_commands v <= rd_commands v')%nat /\
    (forall x, r = inr x -> forall n, (rd_commands v <= n < rd_commands v')%nat -> rd_error v n = None).

Lemma reports_ret {X} (x : X) : reports (Ret x).
Proof. intros v v' r E. cbn in E. injection E as <- <-. split; [done|]. split; [done|]. intros; lia. Qed.

Lemma reports_bind {X Y} (p : redis X) (k : X -> redis Y) :
  reports p -> (forall x, reports (k x)) -> reports (bind p k).
Proof.
  intros Hp Hk v v' r. rewrite run_bind. destruct (run p v) as [u [e|x]] eqn:E; intros E'.
  - simplify_eq. destruct (Hp _ _ _ E) as (H1 & H2 & _). done.
  - destruct (Hp _ _ _ E) as (H1 & H2 & H3), (Hk _ _ _ _ E') as (H4 & H5 & H6). split; [congruence|]. split; [lia|].
    intros y -> n Hn. destruct (decide (n < rd_commands u)%nat); [eapply H3; [done|lia]|]. rewrite <- H1. eapply H6; [done|lia].
Qed.

Lemma reports_command {X} (f : RedisWorld -> RedisWorld * (string + X)) :
  (forall v, rd_error (f v).1 = rd_error v /\ rd_commands (f v).1 = rd_commands v) -> reports (command f).
Proof.
  intros Hf v v' r. unfold command. cbn. unfold command_act.
  destruct (rd_error v (rd_commands v)) as [e|] eqn:E; cbn.
  - intros E'. simplify_eq/=. split; [done|]. split; [lia|]. done.
  - destruct (f (count_command v)) as [w x] eqn:Ef. destruct (Hf (count_command v)) as [H1 H2]. rewrite Ef in H1, H2. cbn in *.
    destruct x as [e|x]; cbn; intros E'; simplify_eq/=; (split; [done|]; split; [lia|]); [done|].
    intros y _ n Hn. by replace n with (rd_commands v) by lia.
Qed.

Lemma reports_count_hit key ttl limit blockDuration name : reports (count_hit key ttl limit blockDuration name).
Proof.
  unfold count_hit. apply reports_bind; [by apply reports_command|]. intros b. case_match; [apply reports_ret|].
  apply reports_bind.
  { apply reports_command. intros v. unfold INCR_WITH_TTL_SCRIPT. cbn. case_match; [|done]. unfold pexpire. by repeat case_match. }
  intros n. apply reports_bind; [by apply reports_command|]. intros t.
  apply reports_bind; [|intros; apply reports_ret]. case_match; [|apply reports_ret].
  apply reports_command. intros v. by case_match.
Qed.

(** When Redis fails at any point of a request, the request is let through as if there were no limit,
    and the failure never reaches the caller. *)
Lemma a_failing_redis_lets_requests_pass key name ttl limit blockDuration v :
  exists v' r, run (increment key ttl limit blockDuration name) v = (v', inr r) /\
    forall n e, (rd_commands v <= n < rd_commands v')%nat -> rd_error v n = Some e -> r = FAIL_OPEN.
Proof.
  unfold increment. rewrite run_catch.
  destruct (run (count_hit key ttl limit blockDuration name) v) as [v' [e|r]] eqn:E; [by exists v', FAIL_OPEN|].
  exists v', r. split; [done|]. intros n e Hn He.
  destruct (reports_count_hit _ _ _ _ _ _ _ _ E) as (_ & _ & H). by rewrite (H r eq_refl n Hn) in He.
Qed.

(** ** Witnesses *)

Definition quiet_redis : RedisWorld := {| rd_clock := 0; rd_keys := ∅; rd_commands := 0; rd_error := fun _ => None |}.

Lemma no_more_than_the_limit_pass_witness :
  let p := increment "ip" 60000 1 60000 "default" in
  (length (List.filter let_through (c_pool (interleave [0; 1; 0; 1; 0; 1; 0; 1]%nat quiet_redis [p; p]))) <= 1)%nat.
Proof.
  apply (no_more_than_the_limit_pass "ip" "default" 60000 1 60000 50000 quiet_redis); try done.
  eapply reachable_rtc; [|apply interleave_steps]. apply reachable_spawned. by repeat constructor.
Defined.
