(* ===== verification/Memory.v ===== *)
(** * Memory: what the agent remembers, and the indexed mail

    [src/memory/] (SQLite with sqlite-vec) and [src/corpus/corpus.service.ts] (Postgres
    with pgvector): two stores of texts with the vector of each, searched by distance.
    The vectors, their distance and the client of OpenAI that makes them are parameters. *)
From S2P Require Import Prelude Effects Js Registry Store Sanitizer Models Budget.
From Stdlib Require Import QArith Qcanon Lqa.
From stdpp Require Import sorting.
Local Open Scope stdpp_scope.
Local Open Scope Z_scope.
Local Open Scope jin_scope.

(** A vector as it is stored, and the cosine distance of sqlite-vec and pgvector. *)
Class VectorSpace := { Vec : Type; cosine_distance : Vec -> Vec -> Q }.

(** ** memory.types.ts *)

Inductive MemoryEntryType := hecho | preferencia | leccion | episodio.

#[export] Instance MemoryEntryType_eq_dec : EqDecision MemoryEntryType.
Proof. solve_decision. Defined.

Definition memory_type_name (t : MemoryEntryType) : string :=
  match t with
  | hecho => "hecho" | preferencia => "preferencia" | leccion => "leccion" | episodio => "episodio"
  end.

Definition MEMORY_ENTRY_TYPES : list MemoryEntryType := [hecho; preferencia; leccion; episodio].

(** [MemoryEntryTypeSchema] *)
Definition parseMemoryEntryType (s : string) : option MemoryEntryType :=
  List.find (fun t => String.eqb (memory_type_name t) s) MEMORY_ENTRY_TYPES.

Record MemoryEntry := {
  me_id : nat;
  me_content : string;
  me_tipo : MemoryEntryType;
  me_fuente : string;
  me_fecha : string;
  me_modeloEmbedding : string;
  me_sessionId : option string;
  me_distance : option Q
}.

Record RememberInput := {
  ri_content : string;
  ri_tipo : MemoryEntryType;
  ri_fuente : string;
  ri_sessionId : option string;
  ri_isExternal : option bool
}.

Record RecallFilters := {
  rf_tipo : option MemoryEntryType;
  rf_fuente : option string;
  rf_sessionId : option string
}.

Record DistilledEntry := { de_content : string; de_tipo : MemoryEntryType }.

(** ** corpus.types.ts *)

Record IndexEmailInput := {
  ie_messageId : string;
  ie_subject : option string;
  ie_from : option string;
  ie_date : option string;
  ie_body : string
}.

(** A row of [corpus_entries]; the metadata of a mail. *)
Record CorpusEntryRow := {
  ce_id : string;
  ce_source : string;
  ce_sourceId : string;
  ce_content : string;
  ce_metadata : list (string * string);
  ce_createdAt : Z
}.

Record CorpusSearchResult := { cr_entry : CorpusEntryRow; cr_distance : Q }.

(** ** The stores *)

Section Stores.
Context {Space : VectorSpace}.

(** A row of [memory_entries] (without a distance) and its row of [memory_vectors]:
    they are written in one transaction. *)
Record MemoryRow := { mr_entry : MemoryEntry; mr_vector : Vec }.

(** A row of [corpus_embeddings]. *)
Record CorpusEmbeddingRow := {
  cb_id : string;
  cb_entryId : string;
  cb_embedding : Vec;
  cb_modeloEmbedding : string
}.

Record KnowledgeWorld := {
  kw_world : World;
  kw_memory : list MemoryRow;                 (* in the order of their rowid *)
  kw_corpus : list CorpusEntryRow;
  kw_embeddings : list CorpusEmbeddingRow;
  kw_searches : nat * nat                     (* searchHits, searchTotal *)
}.

Definition kw_put (w : World) (v : KnowledgeWorld) : KnowledgeWorld :=
  {| kw_world := w; kw_memory := kw_memory v; kw_corpus := kw_corpus v;
     kw_embeddings := kw_embeddings v; kw_searches := kw_searches v |}.
Definition put_memory (rows : list MemoryRow) (v : KnowledgeWorld) : KnowledgeWorld :=
  {| kw_world := kw_world v; kw_memory := rows; kw_corpus := kw_corpus v;
     kw_embeddings := kw_embeddings v; kw_searches := kw_searches v |}.
Definition put_corpus (rows : list CorpusEntryRow) (v : KnowledgeWorld) : KnowledgeWorld :=
  {| kw_world := kw_world v; kw_memory := kw_memory v; kw_corpus := rows;
     kw_embeddings := kw_embeddings v; kw_searches := kw_searches v |}.
Definition put_embeddings (rows : list CorpusEmbeddingRow) (v : KnowledgeWorld) : KnowledgeWorld :=
  {| kw_world := kw_world v; kw_memory := kw_memory v; kw_corpus := kw_corpus v;
     kw_embeddings := rows; kw_searches := kw_searches v |}.
Definition put_searches (n : nat * nat) (v : KnowledgeWorld) : KnowledgeWorld :=
  {| kw_world := kw_world v; kw_memory := kw_memory v; kw_corpus := kw_corpus v;
     kw_embeddings := kw_embeddings v; kw_searches := n |}.

Abbreviation knowledge := (prog KnowledgeWorld JinError).
Abbreviation kw_statement := (statement_on kw_world kw_put).

(** A method of the other services, on the [World]. *)
Definition on_world {A} (p : jin A) : knowledge A := zoom kw_world kw_put p.
Definition kw_now : knowledge Z := reads (fun v => clock (w_sys (kw_world v))).
Definition kw_uuid : knowledge string := on_world randomUUID.

(** ** embedding-provider.ts *)

Definition EMBEDDING_MODEL : string := "text-embedding-3-large".
Definition EMBEDDING_DIMENSIONS : Z := 1024.
Definition EMBEDDING_MODEL_ID : string := EMBEDDING_MODEL +:+ ":" +:+ pretty EMBEDDING_DIMENSIONS.

Section Service.
(** [client.embeddings.create]: the vectors of [response.data]. *)
Context (embeddings_create : string -> jin (list Vec)).
Context {Guarded : BudgetGuardedApi} {Parser : JsonParse}.

Definition embed (input : string) : jin Vec :=
  catch
    (data <- embeddings_create input ;;
     match data with
     | embedding :: _ => Ret embedding
     | [] => Throw (EmbeddingProviderError "La API de OpenAI no devolvió ningún embedding")
     end)
    (fun err =>
       match err with
       | EmbeddingProviderError _ => Throw err
       | _ => Throw (EmbeddingProviderError (messageOf err))
       end).

(** ** store.ts *)

(** The next [INTEGER PRIMARY KEY]: one more than the greatest. *)
Definition next_id (rows : list MemoryRow) : nat := S (max_list (map (fun r => me_id (mr_entry r)) rows)).

Definition with_distance (d : option Q) (e : MemoryEntry) : MemoryEntry :=
  {| me_id := me_id e; me_content := me_content e; me_tipo := me_tipo e; me_fuente := me_fuente e;
     me_fecha := me_fecha e; me_modeloEmbedding := me_modeloEmbedding e;
     me_sessionId := me_sessionId e; me_distance := d |}.

Definition store_insert (content : string) (tipo : MemoryEntryType) (fuente fecha modeloEmbedding : string)
    (sessionId : option string) (embedding : Vec) : knowledge MemoryEntry :=
  kw_statement (fun v =>
    let entry := {| me_id := next_id (kw_memory v); me_content := content; me_tipo := tipo;
                    me_fuente := fuente; me_fecha := fecha; me_modeloEmbedding := modeloEmbedding;
                    me_sessionId := sessionId; me_distance := None |} in
    (put_memory (kw_memory v ++ [{| mr_entry := entry; mr_vector := embedding |}]) v, entry)).

(** [ORDER BY distance]; rows at one distance in the order of the table. *)
Definition nearer {A} (a b : Q * A) : Prop := (fst a <= fst b)%Q.

#[export] Instance nearer_dec {A} (a b : Q * A) : Decision (nearer a b).
Proof. unfold nearer. destruct (Qlt_le_dec (fst b) (fst a)); [right; by apply Qlt_not_le|by left]. Defined.

Definition by_distance {A} (query : Vec) (vector : A -> Vec) (rows : list A) : list (Q * A) :=
  merge_sort nearer (map (fun r => (cosine_distance query (vector r), r)) rows).

(** A filter that is absent or empty filters nothing. *)
Definition passes_filters (filters : option RecallFilters) (e : MemoryEntry) : bool :=
  match filters with
  | None => true
  | Some f =>
      match rf_tipo f with Some t => bool_decide (me_tipo e = t) | None => true end &&
      match rf_fuente f with Some s => negb (truthy s) || String.eqb (me_fuente e) s | None => true end &&
      match rf_sessionId f with
      | Some s => negb (truthy s) || bool_decide (me_sessionId e = Some s)
      | None => true
      end
  end.

(** The count and the search are two statements; the filter comes after the ranking
    of the whole table. *)
Definition queryKnn (queryEmbedding : Vec) (k : nat) (filters : option RecallFilters) :
    knowledge (list MemoryEntry) :=
  totalRows <- kw_statement (fun v => (v, List.length (kw_memory v))) ;;
  if (totalRows =? 0)%nat then Ret []
  else
    rows <- kw_statement (fun v => (v, take totalRows (by_distance queryEmbedding mr_vector (kw_memory v)))) ;;
    let filtered := List.filter (fun r => passes_filters filters (mr_entry (snd r))) rows in
    Ret (map (fun r => with_distance (Some (fst r)) (mr_entry (snd r))) (take k filtered)).

(** ** consolidation.service.ts *)

Definition CONSOLIDATION_PROMPT : string :=
  "Sos el módulo de consolidación de memoria de Jin. Analizás la " +:+
  "transcripción de una sesión de agente recién cerrada y destilás SOLO lo " +:+
  "que vale la pena recordar a largo plazo: hechos concretos sobre el " +:+
  "owner o su contexto (" +:+ quoted "tipo" +:+ ": " +:+ quoted "hecho" +:+ "), preferencias explícitas o " +:+
  "implícitas (" +:+ quoted "tipo" +:+ ": " +:+ quoted "preferencia" +:+ "), lecciones aprendidas de un error o " +:+
  "ajuste (" +:+ quoted "tipo" +:+ ": " +:+ quoted "leccion" +:+ "), o un resumen episódico breve de lo que pasó " +:+
  "en la sesión (" +:+ quoted "tipo" +:+ ": " +:+ quoted "episodio" +:+ "). NO guardes todo — solo lo curado y " +:+
  "reutilizable en sesiones futuras. Si no hay nada que valga la pena, " +:+
  "devolvé un array vacío." +:+ newline +:+ newline +:+
  buildGenericUntrustedContentInstruction +:+ newline +:+ newline +:+
  "Respondé EXCLUSIVAMENTE con un array JSON de objetos " +:+
  "{" +:+ quoted "content" +:+ ": string, " +:+ quoted "tipo" +:+ ": " +:+ quoted "hecho" +:+ " | " +:+
  quoted "preferencia" +:+ " | " +:+ quoted "leccion" +:+ " | " +:+ quoted "episodio" +:+ "}, " +:+
  "sin texto adicional, sin markdown, sin bloque de código.".

(** [DistilledEntrySchema] *)
Definition parse_distilled (v : json) : option DistilledEntry :=
  content ← json_string "content" v;
  tipo ← json_string "tipo" v ≫= parseMemoryEntryType;
  if truthy content then Some {| de_content := content; de_tipo := tipo |} else None.

Definition parse_distilled_entries (v : json) : option (list DistilledEntry) :=
  match v with JArr l => mapM parse_distilled l | _ => None end.

Definition parse_consolidation (rawContent : string) : JinError + list DistilledEntry :=
  match json_parse rawContent ≫= parse_distilled_entries with
  | Some entries => inr entries
  | None => inl (ConsolidationParseError rawContent)
  end.

Definition distill (sessionId transcript : string) : jin (list DistilledEntry) :=
  response <- guarded_complete "memory_consolidation"
    {| mcr_systemPrompt := Some CONSOLIDATION_PROMPT;
       mcr_messages := [{| mm_role := user; mm_content := content_string transcript |}];
       mcr_maxOutputTokens := 2000; mcr_temperature := Q2Qc (2 # 10);
       mcr_tools := None; mcr_effort := None |} no_hints (Some sessionId) ;;
  Router.lift (parse_consolidation (mcs_content response)).

(** ** memory.service.ts *)

Definition CONSOLIDATION_SOURCE : string := "agent_reflection".

Definition remember (input : RememberInput) : knowledge MemoryEntry :=
  let content :=
    match ri_isExternal input with
    | Some false => ri_content input
    | _ => sanitizeForIndexing (ri_content input)
    end in
  embedding <- on_world (embed content) ;;
  t <- kw_now ;;
  store_insert content (ri_tipo input) (ri_fuente input) (to_iso_string t) EMBEDDING_MODEL_ID
    (ri_sessionId input) embedding.

Definition recall (query : string) (k : nat) (filters : option RecallFilters) : knowledge (list MemoryEntry) :=
  queryEmbedding <- on_world (embed query) ;;
  queryKnn queryEmbedding k filters.

(** [entries] are those kept so far. *)
Fixpoint remember_all (sessionId : string) (distilled : list DistilledEntry) (entries : list MemoryEntry) :
    knowledge (list MemoryEntry) :=
  match distilled with
  | [] => Ret entries
  | candidate :: rest =>
      entry <- remember {| ri_content := de_content candidate; ri_tipo := de_tipo candidate;
                           ri_fuente := CONSOLIDATION_SOURCE; ri_sessionId := Some sessionId;
                           ri_isExternal := Some false |} ;;
      remember_all sessionId rest (entries ++ [entry])
  end.

Definition consolidate (sessionId transcript : string) : knowledge (list MemoryEntry) :=
  distilled <- on_world (distill sessionId transcript) ;;
  remember_all sessionId distilled [].

(** ** corpus.service.ts *)

Definition GMAIL_SOURCE : string := "gmail".
Definition DEFAULT_SEARCH_LIMIT : nat := 5.

Definition email_metadata (input : IndexEmailInput) : list (string * string) :=
  match ie_subject input with Some s => [("subject", s)] | None => [] end ++
  match ie_from input with Some s => [("from", s)] | None => [] end ++
  match ie_date input with Some s => [("date", s)] | None => [] end.

Definition same_source (source sourceId : string) (r : CorpusEntryRow) : bool :=
  String.eqb (ce_source r) source && String.eqb (ce_sourceId r) sourceId.

Definition rewrite_entry (content : string) (metadata : list (string * string)) (r : CorpusEntryRow) :
    CorpusEntryRow :=
  {| ce_id := ce_id r; ce_source := ce_source r; ce_sourceId := ce_sourceId r; ce_content := content;
     ce_metadata := metadata; ce_createdAt := ce_createdAt r |}.

(** The upsert on [(source, source_id)]. *)
Definition upsert_entry (id source sourceId content : string) (metadata : list (string * string))
    (v : KnowledgeWorld) : KnowledgeWorld * CorpusEntryRow :=
  match List.find (same_source source sourceId) (kw_corpus v) with
  | Some row =>
      (put_corpus (map (fun r => if same_source source sourceId r then rewrite_entry content metadata r else r)
                       (kw_corpus v)) v, rewrite_entry content metadata row)
  | None =>
      let row := {| ce_id := id; ce_source := source; ce_sourceId := sourceId; ce_content := content;
                    ce_metadata := metadata; ce_createdAt := clock (w_sys (kw_world v)) |} in
      (put_corpus (kw_corpus v ++ [row]) v, row)
  end.

Definition rewrite_embedding (embedding : Vec) (r : CorpusEmbeddingRow) : CorpusEmbeddingRow :=
  {| cb_id := cb_id r; cb_entryId := cb_entryId r; cb_embedding := embedding;
     cb_modeloEmbedding := EMBEDDING_MODEL_ID |}.

(** The upsert on [entry_id]. *)
Definition upsert_embedding (id entryId : string) (embedding : Vec) (v : KnowledgeWorld) : KnowledgeWorld :=
  let of_entry r := String.eqb (cb_entryId r) entryId in
  if existsb of_entry (kw_embeddings v) then
    put_embeddings (map (fun r => if of_entry r then rewrite_embedding embedding r else r) (kw_embeddings v)) v
  else
    put_embeddings (kw_embeddings v ++
      [{| cb_id := id; cb_entryId := entryId; cb_embedding := embedding;
          cb_modeloEmbedding := EMBEDDING_MODEL_ID |}]) v.

Definition indexEmail (input : IndexEmailInput) : knowledge CorpusEntryRow :=
  let content := sanitizeForIndexing (ie_body input) in
  embedding <- on_world (embed content) ;;
  let metadata := email_metadata input in
  id <- kw_uuid ;;
  entry <- kw_statement (upsert_entry id GMAIL_SOURCE (ie_messageId input) content metadata) ;;
  embeddingId <- kw_uuid ;;
  kw_statement (fun v => (upsert_embedding embeddingId (ce_id entry) embedding v, tt)) ;;;
  Ret entry.

(** The inner join of the two tables. *)
Definition joined (v : KnowledgeWorld) : list (CorpusEmbeddingRow * CorpusEntryRow) :=
  e ← kw_embeddings v;
  map (fun c => (e, c)) (List.filter (fun c => String.eqb (cb_entryId e) (ce_id c)) (kw_corpus v)).

Definition recordSearchOutcome (isHit : bool) : knowledge unit :=
  writes (fun v => let '(hits, total) := kw_searches v in
    put_searches ((if isHit then S hits else hits), S total) v) ;;;
  hits <- reads kw_searches ;;
  on_world (emit (METRIC "rag_hit_ratio"
    (Q2Qc (Z.of_nat (fst hits) # Pos.of_nat (snd hits))))).

Definition search (query : string) (limit : nat) : knowledge (list CorpusSearchResult) :=
  queryEmbedding <- on_world (embed query) ;;
  rows <- kw_statement (fun v =>
    (v, take limit (by_distance queryEmbedding (fun j => cb_embedding (fst j)) (joined v)))) ;;
  recordSearchOutcome (negb (List.length rows =? 0)%nat) ;;;
  Ret (map (fun r => {| cr_entry := snd (snd r); cr_distance := fst r |}) rows).
End Service.
End Stores.

(** ** Searching *)

#[export] Instance nearer_total {A} : Total (@nearer A).
Proof. intros a b. unfold nearer. destruct (Qlt_le_dec (fst b) (fst a)); [right; by apply Qlt_le_weak|by left]. Qed.
#[export] Instance nearer_trans {A} : Transitive (@nearer A).
Proof. intros a b c H1 H2. unfold nearer in *. lra. Qed.

Section Searching.
Context {Space : VectorSpace}.

Lemma by_distance_sorted {A} q (vector : A -> Vec) rows : StronglySorted nearer (by_distance q vector rows).
Proof. apply StronglySorted_merge_sort; apply _. Qed.

Lemma by_distance_perm {A} q (vector : A -> Vec) rows :
  by_distance q vector rows ≡ₚ map (fun r => (cosine_distance q (vector r), r)) rows.
Proof. apply merge_sort_Permutation. Qed.

Lemma run_on_world {A} (p : jin A) v :
  run (on_world p) v = (kw_put (run p (kw_world v)).1 v, (run p (kw_world v)).2).
Proof. apply run_zoom; [done..|]. by intros []. Qed.

(** The rows that a search may return, each with its distance. *)
Definition candidates (q : Vec) (filters : option RecallFilters) (rows : list MemoryRow) : list (Q * MemoryRow) :=
  List.filter (fun r => passes_filters filters (mr_entry (snd r)))
    (map (fun r => (cosine_distance q (mr_vector r), r)) rows).

Lemma run_queryKnn q k filters v :
  healthy (kw_world v) ->
  (run (queryKnn q k filters) v).2 =
  inr (map (fun r => with_distance (Some (fst r)) (mr_entry (snd r)))
         (take k (List.filter (fun r => passes_filters filters (mr_entry (snd r)))
                    (by_distance q mr_vector (kw_memory v))))) /\
  kw_memory (run (queryKnn q k filters) v).1 = kw_memory v.
Proof.
  intros Hv. unfold queryKnn. rewrite run_bind, run_statement_on. cbv zeta.
  rewrite healthy_not_faulty by done. cbn [fst snd]. cbn [kw_put kw_memory].
  destruct (Nat.eqb_spec (List.length (kw_memory v)) 0) as [E|_].
  - apply nil_length_inv in E. rewrite E. split; [|done]. by destruct k.
  - rewrite run_bind, run_statement_on. cbv zeta. rewrite healthy_not_faulty by done. cbn.
    split; [|done]. rewrite (firstn_all2 (n := List.length (kw_memory v))); [done|].
    pose proof (Permutation_length (by_distance_perm q mr_vector (kw_memory v))) as E.
    rewrite length_map in E. unfold by_distance in E. lia.
Qed.

(** What is recalled is the nearest there is: the entries that match the filters, ranked
    by their distance to the question over the whole table, and of them the first [k];
    the filters never make a farther entry appear in the place of a nearer one. *)
Lemma recall_returns_the_nearest (embeddings_create : string -> jin (list Vec)) (query : string) (k : nat)
    (filters : option RecallFilters) (q : Vec) (v : KnowledgeWorld) (w' : World) :
  run (embed embeddings_create query) (kw_world v) = (w', inr q) -> healthy w' ->
  exists ranked,
    (run (recall embeddings_create query k filters) v).2 =
      inr (map (fun r => with_distance (Some (fst r)) (mr_entry (snd r))) (take k ranked)) /\
    ranked ≡ₚ candidates q filters (kw_memory v) /\
    StronglySorted nearer ranked /\
    kw_memory (run (recall embeddings_create query k filters) v).1 = kw_memory v.
Proof.
  intros He Hw. unfold recall. rewrite run_bind, run_on_world, He. cbn [fst snd].
  destruct (run_queryKnn q k filters (kw_put w' v) Hw) as [Hr Hm]. rewrite Hr, Hm.
  eexists. split_and!; [done| | |done].
  - unfold candidates. cbn [kw_put kw_memory]. apply Permutation_filter_bool, by_distance_perm.
  - apply StronglySorted_filter_bool, by_distance_sorted.
Qed.
End Searching.

(** ** What the tables keep, whatever runs at the same time *)

Section Tables.
Context {Space : VectorSpace}.
Context (embeddings_create : string -> jin (list Vec)).
Context {Guarded : BudgetGuardedApi} {Parser : JsonParse}.

(** Every mail has one entry, every entry one vector, and every memory its number. *)
Definition filed_once (v : KnowledgeWorld) : Prop :=
  NoDup (map (fun r => (ce_source r, ce_sourceId r)) (kw_corpus v)) /\
  NoDup (map cb_entryId (kw_embeddings v)) /\
  NoDup (map (fun r => me_id (mr_entry r)) (kw_memory v)).

Definition keeps_filed (v v' : KnowledgeWorld) : Prop := filed_once v -> filed_once v'.

#[local] Instance keeps_filed_refl : Reflexive keeps_filed.
Proof. by intros v H. Qed.

Lemma NoDup_snoc {A} (l : list A) x : NoDup l -> x ∉ l -> NoDup (l ++ [x]).
Proof. intros Hl Hx. apply NoDup_app. split_and!; [done|set_solver|apply NoDup_singleton]. Qed.

Lemma upsert_entry_filed id source sourceId content metadata v :
  keeps_filed v (upsert_entry id source sourceId content metadata v).1.
Proof.
  intros (H1 & H2 & H3). unfold upsert_entry. destruct (List.find _ _) as [row|] eqn:E.
  - split_and!; [|done|done]. cbn [fst put_corpus kw_corpus]. rewrite map_map.
    erewrite map_ext; [exact H1|]. intros r. cbn. by destruct (same_source _ _ r).
  - split_and!; [|done|done]. cbn [fst put_corpus kw_corpus]. rewrite map_app. apply NoDup_snoc; [done|]. cbn.
    intros Hin. apply list_elem_of_fmap in Hin as (r & [= Es Ei] & Hr%list_elem_of_In).
    pose proof (List.find_none _ _ E r Hr) as Hn. unfold same_source in Hn.
    by rewrite <- Es, <- Ei, !String.eqb_refl in Hn.
Qed.

Lemma upsert_embedding_filed id entryId embedding v :
  keeps_filed v (upsert_embedding id entryId embedding v).
Proof.
  intros (H1 & H2 & H3). unfold upsert_embedding.
  destruct (existsb _ _) eqn:E; (split_and!; [done| |done]); cbn [put_embeddings kw_embeddings].
  - rewrite map_map. erewrite map_ext; [exact H2|]. intros r. cbn. by destruct (String.eqb _ _).
  - rewrite map_app. apply NoDup_snoc; [done|]. intros (r & Ei & Hr%list_elem_of_In)%list_elem_of_fmap.
    apply not_true_iff_false in E. apply E, existsb_exists. exists r. split; [done|]. apply String.eqb_eq. by cbn in Ei.
Qed.

Lemma store_insert_filed entry vector v :
  me_id entry = next_id (kw_memory v) ->
  keeps_filed v (put_memory (kw_memory v ++ [{| mr_entry := entry; mr_vector := vector |}]) v).
Proof.
  intros Ei (H1 & H2 & H3). split_and!; [done|done|]. cbn [put_memory kw_memory]. rewrite map_app. apply NoDup_snoc; [done|].
  cbn [map mr_entry]. rewrite Ei. intros Hin. apply max_list_elem_of_le in Hin. unfold next_id in Hin. lia.
Qed.

Lemma filed_on_world {A} (p : jin A) : steps keeps_filed (on_world p).
Proof.
  apply (steps_zoom _ _ (fun _ _ => True)); [by intros w v _ H|]. induction p; cbn; auto.
Qed.

Lemma filed_statement {X} (f : KnowledgeWorld -> KnowledgeWorld * X) :
  (forall v, keeps_filed v (f v).1) -> steps keeps_filed (statement_on kw_world kw_put f).
Proof. intros Hf. apply steps_statement_on; [by intros v H|]. intros v H. by apply Hf. Qed.

Lemma filed_read {X} (f : KnowledgeWorld -> X) : steps keeps_filed (statement_on kw_world kw_put (fun v => (v, f v))).
Proof. by apply filed_statement. Qed.

Lemma filed_remember input : steps keeps_filed (remember embeddings_create input).
Proof.
  apply steps_bind; [apply filed_on_world|]. intros q. apply steps_bind; [by split|]. intros t.
  apply filed_statement. intros v. by apply store_insert_filed.
Qed.

Inductive knowledge_client : prog KnowledgeWorld JinError unit -> Prop :=
| kc_remember input : knowledge_client (discard (remember embeddings_create input))
| kc_recall q k f : knowledge_client (discard (recall embeddings_create q k f))
| kc_consolidate s t : knowledge_client (discard (consolidate embeddings_create s t))
| kc_index input : knowledge_client (discard (indexEmail embeddings_create input))
| kc_search q n : knowledge_client (discard (search embeddings_create q n))
| kc_other (p : jin unit) : knowledge_client (on_world p).

Lemma knowledge_client_filed p : knowledge_client p -> steps keeps_filed p.
Proof.
  intros [input|q k f|s t|input|q n|p']; [..|apply filed_on_world]; (apply steps_bind; [|done]).
  - apply filed_remember.
  - apply steps_bind; [apply filed_on_world|]. intros e. apply steps_bind; [apply filed_read|].
    intros n. destruct (n =? 0)%nat; [done|]. apply steps_bind; [apply filed_read|done].
  - apply steps_bind; [apply filed_on_world|]. intros l. generalize (@nil MemoryEntry).
    induction l as [|c l IH]; intros entries; cbn [remember_all]; [done|].
    apply steps_bind; [apply filed_remember|]. intros e. apply IH.
  - apply steps_bind; [apply filed_on_world|]. intros e. apply steps_bind; [apply filed_on_world|]. intros id.
    apply steps_bind; [apply filed_statement; intros v; apply upsert_entry_filed|]. intros row.
    apply steps_bind; [apply filed_on_world|]. intros id'. apply steps_bind; [|done].
    apply filed_statement. intros v. apply upsert_embedding_filed.
  - apply steps_bind; [apply filed_on_world|]. intros e. apply steps_bind; [apply filed_read|]. intros rows.
    apply steps_bind; [|done]. apply steps_bind.
    { split; [|done]. intros v H. by destruct (kw_searches v). }
    intros u. apply steps_bind; [by split|]. intros h. apply filed_on_world.
Qed.

(** However the indexing of mails, the consolidation of sessions and the searches
    interleave and fail, a mail has at most one entry in the corpus, an entry at most one
    vector, and two memories never share an identifier. *)
Lemma knowledge_is_filed_once (v0 : KnowledgeWorld) (c : config KnowledgeWorld JinError unit) :
  filed_once v0 -> reachable (fun _ _ => False) knowledge_client v0 c -> filed_once (c_store c).
Proof.
  intros H0 Hr. destruct (pool_invariant (fun _ _ => False) knowledge_client filed_once v0 c) as [H _]; try done.
  intros p. apply knowledge_client_filed.
Qed.
End Tables.

(** ** Concrete runs *)

Module MemoryExamples.
#[local] Instance line : VectorSpace := {| Vec := Z; cosine_distance a b := inject_Z (Z.abs (a - b)) |}.

(** The vector of a text is its length. *)
Definition by_length (s : string) : jin (list Vec) := Ret [Z.of_nat (String.length s)].

Definition entry (n : nat) (tipo : MemoryEntryType) (content : string) : MemoryRow :=
  {| mr_entry := {| me_id := n; me_content := content; me_tipo := tipo; me_fuente := "agent_reflection";
                    me_fecha := "2026-01-01T00:00:00.000Z"; me_modeloEmbedding := EMBEDDING_MODEL_ID;
                    me_sessionId := None; me_distance := None |};
     mr_vector := Z.of_nat (String.length content) |}.

Definition store : KnowledgeWorld := {|
  kw_world := empty_world 1000;
  kw_memory := [entry 1 hecho "a"; entry 2 preferencia "abc"; entry 3 hecho "abcdefgh"; entry 4 hecho "abcde"];
  kw_corpus := []; kw_embeddings := []; kw_searches := (0, 0)%nat |}.

Definition only_facts : RecallFilters := {| rf_tipo := Some hecho; rf_fuente := None; rf_sessionId := None |}.

(** The preference is nearer, and does not take the place of a fact. *)
Example two_nearest_facts :
  (fun r => match r with inr l => map me_id l | inl _ => [] end)
    (run (recall by_length "xyz" 2 (Some only_facts)) store).2 = [1; 4]%nat.
Proof. vm_compute. reflexivity. Qed.

(** Two versions of one mail indexed at the same time. *)
Definition mail (body : string) : IndexEmailInput :=
  {| ie_messageId := "m1"; ie_subject := None; ie_from := None; ie_date := None; ie_body := body |}.
Definition two_indexings : list (prog KnowledgeWorld JinError unit) :=
  [discard (indexEmail by_length (mail "old")); discard (indexEmail by_length (mail "new text"))].

(** The second writes its text and its vector between the two statements of the first. *)
Lemma an_entry_may_keep_the_vector_of_another_text :
  let v := c_store (Effects.interleave [0; 0; 1; 1; 1; 1; 0; 0; 0]%nat store two_indexings) in
  map ce_content (kw_corpus v) = ["new text"] /\ map cb_embedding (kw_embeddings v) = [3].
Proof. vm_compute. by split. Qed.
End MemoryExamples.

#[local] Existing Instance MemoryExamples.line.

Lemma recall_returns_the_nearest_witness :
  exists ranked,
    (run (@recall MemoryExamples.line MemoryExamples.by_length "xyz" 2 (Some MemoryExamples.only_facts))
       MemoryExamples.store).2 =
      inr (map (fun r => with_distance (Some (fst r)) (mr_entry (snd r))) (take 2 ranked)).
Proof.
  destruct (@recall_returns_the_nearest MemoryExamples.line MemoryExamples.by_length "xyz" 2
    (Some MemoryExamples.only_facts) 3 MemoryExamples.store (empty_world 1000)) as (ranked & H & _); [done|done|].
  by exists ranked.
Defined.
