(* ===== verification/Orchestrator.v ===== *)
(** * Orchestrator: tickets delegated to sub-agents

    [src/agent/orchestrator.types.ts], [orchestrator.logic.ts],
    [ledger.repository.ts], [ticket-decomposition.service.ts],
    [reconciliation.service.ts] and the methods of [orchestrator.service.ts]
    that act on one ticket or on one reconciliation; the loop that runs the
    batches and the whole run of an objective are in [Delegation.v]. *)
From S2P Require Import Prelude Effects Js Registry Store AuditApi AuditLog Hitl Autonomy FeatureFlags Models Budget Sanitizer Agent.
From Stdlib Require Import QArith Qcanon.
Local Open Scope stdpp_scope.
Local Open Scope Z_scope.
Local Open Scope jin_scope.

(** ** orchestrator.types.ts *)

Definition ticket_status_name (s : AgentTicketStatus) : string :=
  match s with
  | tk_pending => "pending" | tk_in_progress => "in-progress" | tk_done => "done"
  | tk_failed => "failed" | tk_blocked => "blocked"
  end.

Record DecomposedTicketDraft := {
  dtd_description : string;
  dtd_allowedTools : list string;
  dtd_dependsOnIndexes : list nat
}.

Inductive RiskLevel := risk_low | risk_material.

#[export] Instance RiskLevel_eq_dec : EqDecision RiskLevel.
Proof. solve_decision. Defined.

Record ReconciliationConflict := {
  rc_ticketIds : list string;
  rc_summary : string;
  rc_riskLevel : RiskLevel;
  rc_proposedResolution : string
}.

Record ReconciliationOutput := {
  ro_finalResponse : string;
  ro_conflicts : list ReconciliationConflict
}.

(** ** orchestrator.logic.ts *)

(** [new Map(tickets.map((t) => [t.id, t.status]))]: the last entry of a key wins. *)
Definition statusById (tickets : list Ticket) : gmap string AgentTicketStatus :=
  foldl (fun m t => <[t_id t := t_status t]> m) ∅ tickets.

Definition is_ready (tickets : list Ticket) (t : Ticket) : bool :=
  bool_decide (t_status t = tk_pending) &&
  forallb (fun depId => match depId with
                        | Some id => bool_decide (statusById tickets !! id = Some tk_done)
                        | None => false
                        end) (t_dependsOn t).

Definition computeReadyBatch (tickets : list Ticket) : list Ticket :=
  List.filter (is_ready tickets) tickets.

Definition chunk {T} (items : list T) (size : Z) : JinError + list (list T) :=
  if size <? 1 then inl (PlainError ("chunk: size debe ser >= 1, recibido " +:+ pretty size))
  else inr (slices (length items) (Z.to_nat size) items).

Definition is_material (c : ReconciliationConflict) : bool := bool_decide (rc_riskLevel c = risk_material).

Definition computeRunStatus (tickets : list Ticket) (reconciliation : option ReconciliationOutput) :
    AgentRunStatus :=
  let hasUnresolvedMaterialConflict :=
    match reconciliation with Some r => existsb is_material (ro_conflicts r) | None => false end in
  let hasUnfinished := existsb (fun t => match t_status t with
                                         | tk_pending | tk_in_progress | tk_blocked => true
                                         | _ => false
                                         end) tickets in
  if hasUnfinished || hasUnresolvedMaterialConflict then run_blocked
  else if existsb (fun t => bool_decide (t_status t = tk_failed)) tickets then run_failed
  else run_done.

Definition buildBoardContextMessages (completedSiblings : list Ticket) : list ModelMessage :=
  match completedSiblings with
  | [] => []
  | _ =>
      let summary := join newline (map (fun t =>
        "- " +:+ t_description t +:+ newline +:+ "  Resultado: " +:+
        default "(sin resultado)" (t_result t)) completedSiblings) in
      [{| mm_role := user;
          mm_content := content_string
            ("Estado actual del tablero — esto es lo que otros sub-agentes ya resolvieron en este mismo objetivo:"
             +:+ newline +:+ newline +:+ summary) |};
       {| mm_role := assistant;
          mm_content := content_string
            "Entendido, tengo en cuenta el estado del tablero para mi propia tarea." |}]
  end.

(** ** ledger.repository.ts *)

Definition set_runs f (l : LedgerDb) : LedgerDb := {| agentOrchestrationRuns := f (agentOrchestrationRuns l);
  agentTickets := agentTickets l; agentTicketComments := agentTicketComments l |}.
Definition set_tickets f (l : LedgerDb) : LedgerDb := {| agentOrchestrationRuns := agentOrchestrationRuns l;
  agentTickets := f (agentTickets l); agentTicketComments := agentTicketComments l |}.
Definition set_comments f (l : LedgerDb) : LedgerDb := {| agentOrchestrationRuns := agentOrchestrationRuns l;
  agentTickets := agentTickets l; agentTicketComments := f (agentTicketComments l) |}.

Definition with_status (status : AgentTicketStatus) (result : option string) (t : Ticket) : Ticket := {|
  t_id := t_id t; t_runId := t_runId t; t_description := t_description t; t_status := status;
  t_assignedSubAgentId := t_assignedSubAgentId t; t_allowedTools := t_allowedTools t;
  t_dependsOn := t_dependsOn t;
  t_result := match result with Some r => Some r | None => t_result t end |}.

Definition with_sub_agent (subAgentId : string) (t : Ticket) : Ticket := {|
  t_id := t_id t; t_runId := t_runId t; t_description := t_description t; t_status := t_status t;
  t_assignedSubAgentId := Some subAgentId; t_allowedTools := t_allowedTools t;
  t_dependsOn := t_dependsOn t; t_result := t_result t |}.

(** [UPDATE ... WHERE id = ticketId] *)
Definition on_ticket (ticketId : string) (f : Ticket -> Ticket) (l : list Ticket) : list Ticket :=
  map (fun t => if String.eqb (t_id t) ticketId then f t else t) l.

Record RunSummary := { rs_id : string; rs_row : AgentOrchestrationRunRow }.

Module Ledger.
Definition createRun (objective parentSessionId : string) : jin string :=
  id <- randomUUID ;;
  db_write (fun w => upd_ledger (set_runs (insert id
    {| run_objective := objective; run_status := run_running; run_parentSessionId := parentSessionId;
       run_finalResponse := None; run_createdAt := clock (w_sys w); run_completedAt := None |})) w) ;;;
  Ret id.

Fixpoint fresh_ids (n : nat) : jin (list string) :=
  match n with
  | O => Ret []
  | S n' => id <- randomUUID ;; ids <- fresh_ids n' ;; Ret (id :: ids)
  end.

Definition new_ticket (runId : string) (ids : list string) (id : string)
    (draft : DecomposedTicketDraft) : Ticket := {|
  t_id := id; t_runId := runId; t_description := dtd_description draft; t_status := tk_pending;
  t_assignedSubAgentId := None; t_allowedTools := dtd_allowedTools draft;
  t_dependsOn := map (fun depIndex => ids !! depIndex) (dtd_dependsOnIndexes draft);
  t_result := None |}.

Definition createTickets (runId : string) (drafts : list DecomposedTicketDraft) : jin (list Ticket) :=
  ids <- fresh_ids (length drafts) ;;
  let rows := zip_with (new_ticket runId ids) ids drafts in
  (if (0 <? length rows)%nat
   then db_write (upd_ledger (set_tickets (fun l => l ++ rows))) else Ret tt) ;;;
  Ret rows.

(** Tickets of one statement have the same [createdAt]: the order of their
    insertion is the one used here. *)
Definition getTickets (runId : string) : jin (list Ticket) :=
  db_read (fun w => List.filter (fun t => String.eqb (t_runId t) runId) (agentTickets (w_ledger w))).

Definition updateTicketStatus (ticketId : string) (status : AgentTicketStatus) (result : option string) :
    jin unit :=
  db_write (upd_ledger (set_tickets (on_ticket ticketId (with_status status result)))).

Definition assignSubAgent (ticketId subAgentId : string) : jin unit :=
  db_write (upd_ledger (set_tickets (on_ticket ticketId (with_sub_agent subAgentId)))).

(** The foreign key refuses a comment on a ticket that does not exist. *)
Definition addComment (ticketId authorType : string) (authorId : option string) (kind body : string) :
    jin unit :=
  db_checked (fun w =>
    if existsb (fun t => String.eqb (t_id t) ticketId) (agentTickets (w_ledger w)) then
      Some (upd_ledger (set_comments (fun l => l ++
        [{| tc_id := Z.of_nat (length l) + 1; tc_ticketId := ticketId; tc_authorType := authorType;
            tc_authorId := authorId; tc_kind := kind; tc_body := body |}])) w)
    else None).

Definition getComments (ticketId : string) : jin (list TicketComment) :=
  db_read (fun w => List.filter (fun c => String.eqb (tc_ticketId c) ticketId)
                                (agentTicketComments (w_ledger w))).

Definition getCompletedSiblings (runId excludeTicketId : string) : jin (list Ticket) :=
  tickets <- getTickets runId ;;
  Ret (List.filter (fun t => negb (String.eqb (t_id t) excludeTicketId) &&
                             bool_decide (t_status t = tk_done)) tickets).

Definition completeRun (runId : string) (status : AgentRunStatus) (finalResponse : option string) :
    jin unit :=
  t <- now ;;
  db_write (upd_ledger (set_runs (alter (fun r =>
    {| run_objective := run_objective r; run_status := status;
       run_parentSessionId := run_parentSessionId r; run_finalResponse := finalResponse;
       run_createdAt := run_createdAt r; run_completedAt := Some t |}) runId))).

Definition getRun (runId : string) : jin (option RunSummary) :=
  row <- db_read (fun w => agentOrchestrationRuns (w_ledger w) !! runId) ;;
  Ret (option_map (fun r => {| rs_id := runId; rs_row := r |}) row).
End Ledger.

(** ** The answers of the models *)

Fixpoint json_indexes (l : list json) : option (list nat) :=
  match l with
  | [] => Some []
  | JNum n :: l' => if n <? 0 then None else option_map (cons (Z.to_nat n)) (json_indexes l')
  | _ => None
  end.

Fixpoint json_list {T} (parse : json -> option T) (l : list json) : option (list T) :=
  match l with
  | [] => Some []
  | v :: l' => x ← parse v; xs ← json_list parse l'; Some (x :: xs)
  end.

(** [z.string().min(1)] *)
Definition parse_text (v : option json) : option string :=
  match v with Some (JStr s) => if truthy s then Some s else None | _ => None end.

Definition parse_string_array (v : option json) : option (list string) :=
  match v with Some (JArr l) => json_strings l | _ => None end.

(** [DecomposedTicketSchema] and [DecomposedTicketsSchema] *)
Definition parse_draft (v : json) : option DecomposedTicketDraft :=
  description ← parse_text (json_field "description" v);
  allowedTools ← parse_string_array (json_field "allowedTools" v);
  indexes ← (match json_field "dependsOnIndexes" v with Some (JArr l) => json_indexes l | _ => None end);
  Some {| dtd_description := description; dtd_allowedTools := allowedTools; dtd_dependsOnIndexes := indexes |}.

Definition parse_drafts (v : json) : option (list DecomposedTicketDraft) :=
  match v with
  | JArr (v' :: l) => json_list parse_draft (v' :: l)
  | _ => None
  end.

(** [ReconciliationConflictSchema] and [ReconciliationOutputSchema] *)
Definition parse_conflict (v : json) : option ReconciliationConflict :=
  ticketIds ← parse_string_array (json_field "ticketIds" v);
  summary ← parse_text (json_field "summary" v);
  riskLevel ← (match json_field "riskLevel" v with
               | Some (JStr s) => if String.eqb s "low" then Some risk_low
                                  else if String.eqb s "material" then Some risk_material else None
               | _ => None
               end);
  proposedResolution ← parse_text (json_field "proposedResolution" v);
  Some {| rc_ticketIds := ticketIds; rc_summary := summary; rc_riskLevel := riskLevel;
          rc_proposedResolution := proposedResolution |}.

Definition parse_reconciliation (v : json) : option ReconciliationOutput :=
  finalResponse ← parse_text (json_field "finalResponse" v);
  conflicts ← (match json_field "conflicts" v with Some (JArr l) => json_list parse_conflict l | _ => None end);
  Some {| ro_finalResponse := finalResponse; ro_conflicts := conflicts |}.

(** A request of the profile [reasoning_heavy]. *)
Definition reasoning_request (systemPrompt userPrompt : string) : ModelCompletionRequest := {|
  mcr_systemPrompt := Some systemPrompt;
  mcr_messages := [{| mm_role := user; mm_content := content_string userPrompt |}];
  mcr_maxOutputTokens := 3000; mcr_temperature := Q2Qc (2 # 10); mcr_tools := None; mcr_effort := None |}.

(** ** ticket-decomposition.service.ts *)

Module TicketDecomposition.
Section Service.
Context {Guarded : BudgetGuardedApi} {Parser : JsonParse}.

Definition SYSTEM_PROMPT : string :=
  "Sos el módulo de descomposición de tareas del orquestador multi-agente " +:+
  "de Jin. Recibís un objetivo del owner y el catálogo de tools " +:+
  "disponibles, y lo descomponés en 1 o más tickets independientes, " +:+
  "delegables a sub-agentes que corren en paralelo cuando no dependen " +:+
  "entre sí. Cada ticket debe ser lo más chico y autocontenido posible " +:+
  "(no repartas trabajo artificialmente si un solo ticket alcanza). Para " +:+
  "cada ticket, elegí SOLO las tools del catálogo que necesita — nunca " +:+
  "más de las necesarias (principio de mínimo privilegio). Marcá " +:+
  "dependencias solo cuando un ticket de verdad necesita el resultado de " +:+
  "otro para arrancar." +:+ newline +:+ newline +:+
  "Respondé EXCLUSIVAMENTE con un array JSON de objetos " +:+
  "{" +:+ quoted "description" +:+ ": string, " +:+ quoted "allowedTools" +:+ ": string[], " +:+
  quoted "dependsOnIndexes" +:+ ": number[]}, donde " +:+ quoted "dependsOnIndexes" +:+
  " son índices 0-based dentro de ese mismo array, " +:+
  "sin texto adicional, sin markdown, sin bloque de código.".

Definition buildUserPrompt (objective : string) (catalog : list ToolDefinition) : string :=
  let catalogText := join newline (map (fun t => "- " +:+ td_name t +:+ ": " +:+ td_description t) catalog) in
  "Objetivo del owner:" +:+ newline +:+ objective +:+ newline +:+ newline +:+
  "Catálogo de tools disponibles:" +:+ newline +:+ catalogText.

Definition parseResponse (rawContent : string) : JinError + list DecomposedTicketDraft :=
  match json_parse rawContent ≫= parse_drafts with
  | Some drafts => inr drafts
  | None => inl (TicketDecompositionParseError rawContent)
  end.

Definition sanitizeAllowedTools (toolCatalog : list ToolDefinition) (draft : DecomposedTicketDraft) :
    DecomposedTicketDraft := {|
  dtd_description := dtd_description draft;
  dtd_allowedTools := List.filter (fun name => existsb (fun t => String.eqb (td_name t) name) toolCatalog)
                                  (dtd_allowedTools draft);
  dtd_dependsOnIndexes := dtd_dependsOnIndexes draft |}.

Definition decompose (runId objective : string) (toolCatalog : list ToolDefinition) :
    jin (list DecomposedTicketDraft) :=
  response <- guarded_complete "reasoning_heavy"
                (reasoning_request SYSTEM_PROMPT (buildUserPrompt objective toolCatalog)) no_hints (Some runId) ;;
  drafts <- Router.lift (parseResponse (mcs_content response)) ;;
  Ret (map (sanitizeAllowedTools toolCatalog) drafts).
End Service.
End TicketDecomposition.

(** ** reconciliation.service.ts *)

Module Reconciliation.
Section Service.
Context {Guarded : BudgetGuardedApi} {Parser : JsonParse}.

Definition SYSTEM_PROMPT : string :=
  "Sos el módulo de reconciliación del orquestador multi-agente de Jin. " +:+
  "Recibís el board completo de un run: todos los tickets (con su " +:+
  "resultado) y su hilo de comentarios. Tu trabajo es doble: (1) redactar " +:+
  "UNA respuesta final coherente para el owner, integrando los resultados " +:+
  "de todos los tickets; (2) detectar contradicciones reales entre lo que " +:+
  "reportaron distintos sub-agentes (no falsos positivos por redacción " +:+
  "distinta de lo mismo) y clasificar cada una: " +:+ quoted "low" +:+ " si es una " +:+
  "discrepancia de bajo riesgo que vos mismo podés resolver con criterio " +:+
  "(ej. cuál de dos resúmenes casi iguales usar), " +:+ quoted "material" +:+ " si afecta " +:+
  "algo de nivel confirm o los sub-agentes proponen acciones " +:+
  "incompatibles — eso SIEMPRE se escala al owner, nunca lo decidas vos. " +:+
  "Si no hay contradicciones, " +:+ quoted "conflicts" +:+ " es un array vacío." +:+ newline +:+ newline +:+
  "Respondé EXCLUSIVAMENTE con un JSON " +:+
  "{" +:+ quoted "finalResponse" +:+ ": string, " +:+ quoted "conflicts" +:+ ": [{" +:+
  quoted "ticketIds" +:+ ": string[], " +:+ quoted "summary" +:+ ": string, " +:+
  quoted "riskLevel" +:+ ": " +:+ quoted "low" +:+ " | " +:+ quoted "material" +:+ ", " +:+
  quoted "proposedResolution" +:+ ": string}]}, " +:+
  "sin texto adicional, sin markdown, sin bloque de código.".

Definition ticket_text (commentsByTicket : gmap string (list TicketComment)) (t : Ticket) : string :=
  let comments := default [] (commentsByTicket !! t_id t) in
  let commentsText := join newline (map (fun c =>
    "  [" +:+ tc_authorType c +:+ "/" +:+ tc_kind c +:+ "] " +:+ tc_body c) comments) in
  "Ticket " +:+ t_id t +:+ " (status: " +:+ ticket_status_name (t_status t) +:+ "): " +:+ t_description t
  +:+ newline +:+ "  Resultado: " +:+ default "(sin resultado todavía)" (t_result t) +:+ newline +:+
  (if truthy commentsText then commentsText +:+ newline else "").

Definition buildUserPrompt (tickets : list Ticket) (commentsByTicket : gmap string (list TicketComment)) :
    string :=
  "Board del run:" +:+ newline +:+ newline +:+ join newline (map (ticket_text commentsByTicket) tickets).

Definition parseResponse (rawContent : string) : JinError + ReconciliationOutput :=
  match json_parse rawContent ≫= parse_reconciliation with
  | Some out => inr out
  | None => inl (ReconciliationParseError rawContent)
  end.

Definition reconcile (runId : string) (tickets : list Ticket)
    (commentsByTicket : gmap string (list TicketComment)) : jin ReconciliationOutput :=
  response <- guarded_complete "reasoning_heavy"
                (reasoning_request SYSTEM_PROMPT (buildUserPrompt tickets commentsByTicket)) no_hints (Some runId) ;;
  Router.lift (parseResponse (mcs_content response)).
End Service.
End Reconciliation.

(** ** orchestrator.service.ts *)

(** What an agent promises to the orchestrator. *)
Class AgentApi := { agent_runTurn : AgentTurnInput -> jin AgentTurnResult }.

Definition RESOLVE_CONFLICT_TOOL_NAME : string := "resolveAgentConflict".

(** [err instanceof KillSwitchActiveError] *)
Definition is_kill_switch (e : JinError) : bool :=
  match e with KillSwitchActiveError _ => true | _ => false end.

Module Orchestrator.
Section Service.
Context `{Api : AuditApi} `{Crypto : NodeCrypto} {Agents : AgentApi} (autonomy : AutonomyConfig).

Definition changed (runId : string) : jin unit := emit (ORCHESTRATION_RUN_CHANGED_EVENT runId).

Definition sub_agent_input (runId : string) (ticket : Ticket) (history : list ModelMessage) :
    AgentTurnInput := {|
  ati_sessionId := runId +:+ ":" +:+ t_id ticket;
  ati_objective := t_description ticket;
  ati_history := Some history;
  ati_allowedTools := Some (t_allowedTools ticket);
  ati_actorLabel := Some ("agent:" +:+ t_id ticket);
  ati_onProgress := None |}.

(** The [catch] of [runSubAgentForTicket]. *)
Definition ticketFailed (runId : string) (ticket : Ticket) (err : JinError) : jin unit :=
  if is_kill_switch err then Throw err
  else
    Ledger.updateTicketStatus (t_id ticket) tk_failed None ;;;
    Ledger.addComment (t_id ticket) "orchestrator" None "note"
      ("Sub-agente falló: " +:+ messageOf err) ;;;
    changed runId.

Definition runSubAgentForTicket (runId : string) (ticket : Ticket) : jin unit :=
  Ledger.updateTicketStatus (t_id ticket) tk_in_progress None ;;;
  Ledger.assignSubAgent (t_id ticket) (t_id ticket) ;;;
  changed runId ;;;
  siblings <- Ledger.getCompletedSiblings runId (t_id ticket) ;;
  let history := buildBoardContextMessages siblings in
  catch
    (result <- agent_runTurn (sub_agent_input runId ticket history) ;;
     Ledger.addComment (t_id ticket) "sub_agent" (Some (t_id ticket)) "result" (atr_finalResponse result) ;;;
     Ledger.updateTicketStatus (t_id ticket)
       (if (0 <? length (atr_pendingApprovals result))%nat then tk_blocked else tk_done)
       (Some (atr_finalResponse result)) ;;;
     changed runId)
    (ticketFailed runId ticket).

Fixpoint loadCommentsByTicket (tickets : list Ticket) : jin (gmap string (list TicketComment)) :=
  match tickets with
  | [] => Ret ∅
  | t :: tickets' =>
      comments <- Ledger.getComments (t_id t) ;;
      rest <- loadCommentsByTicket tickets' ;;
      Ret (match (rest !! t_id t : option (list TicketComment)) with
           | Some _ => rest
           | None => <[t_id t := comments]> rest
           end)
  end.

Definition conflict_payload (runId primaryTicketId : string) (conflict : ReconciliationConflict) : json :=
  JObj [("ticketId", JStr primaryTicketId); ("conflictSummary", JStr (rc_summary conflict));
        ("proposedResolution", JStr (rc_proposedResolution conflict)); ("runId", JStr runId)].

Definition conflict_summary (runId : string) (conflict : ReconciliationConflict) : string :=
  "Conflicto material en run " +:+ runId +:+ " (tickets " +:+ join ", " (rc_ticketIds conflict) +:+ "): " +:+
  rc_summary conflict.

(** One turn of the loop of [applyReconciliation]: what it pushes. *)
Definition applyConflict (runId : string) (conflict : ReconciliationConflict) :
    jin (list (string * string)) :=
  match rc_riskLevel conflict with
  | risk_low =>
      for_each (rc_ticketIds conflict) (fun ticketId =>
        Ledger.addComment ticketId "orchestrator" None "resolution"
          (rc_summary conflict +:+ " — resuelto en modo-auto: " +:+ rc_proposedResolution conflict)) ;;;
      Ret []
  | risk_material =>
      match rc_ticketIds conflict with
      | [] => Ret []
      | primaryTicketId :: _ =>
          if negb (truthy primaryTicketId) then Ret []
          else
            let payload := conflict_payload runId primaryTicketId conflict in
            decision <- HitlPolicy.decide autonomy RESOLVE_CONFLICT_TOOL_NAME payload ;;
            DualConfirm.createPendingApproval {|
              cpa_requestId := hd_requestId decision;
              cpa_toolName := RESOLVE_CONFLICT_TOOL_NAME;
              cpa_level := hd_level decision;
              cpa_inputsHash := computeInputsHash (Some payload);
              cpa_planSummary := Some (conflict_summary runId conflict);
              cpa_payload := Some payload;
              cpa_actor := Some "orchestrator";
              cpa_externalInputsSummary := None |} ;;;
            for_each (rc_ticketIds conflict) (fun ticketId =>
              Ledger.addComment ticketId "orchestrator" None "conflict" (rc_summary conflict)) ;;;
            Ret [(hd_requestId decision, primaryTicketId)]
      end
  end.

Fixpoint applyConflicts (runId : string) (conflicts : list ReconciliationConflict) :
    jin (list (string * string)) :=
  match conflicts with
  | [] => Ret []
  | conflict :: conflicts' =>
      pushed <- applyConflict runId conflict ;;
      rest <- applyConflicts runId conflicts' ;;
      Ret (pushed ++ rest)
  end.

Definition applyReconciliation (runId : string) (result : ReconciliationOutput) :
    jin (list (string * string)) :=
  applyConflicts runId (ro_conflicts result).
End Service.
End Orchestrator.

(** ** Properties *)

(** *** Dependencies *)

Lemma statusById_spec tickets :
  NoDup (map t_id tickets) ->
  forall t, t ∈ tickets -> statusById tickets !! t_id t = Some (t_status t).
Proof.
  intros Hnd. unfold statusById.
  assert (H : forall (m : gmap string AgentTicketStatus) (t : Ticket), (t ∈ tickets \/ m !! t_id t = Some (t_status t) /\ t_id t ∉ map t_id tickets) ->
    foldl (fun m t => <[t_id t := t_status t]> m) m tickets !! t_id t = Some (t_status t)).
  { induction tickets as [|x l IH]; intros m t; cbn.
    - intros [H|[H _]]; [by apply not_elem_of_nil in H|done].
    - cbn in Hnd. apply NoDup_cons in Hnd as [Hx Hnd]. intros H. apply IH; [done|].
      destruct H as [[->|H]%elem_of_cons|[H1 H2]].
      + right. by rewrite lookup_insert_eq.
      + by left.
      + right. apply not_elem_of_cons in H2 as [H2 H3]. by rewrite lookup_insert_ne by done. }
  intros t Ht. apply H. by left.
Qed.

(** The dependencies name tickets of the run and do not go in circles. *)
Definition acyclic (tickets : list Ticket) : Prop :=
  exists rank : string -> nat, forall t dep, t ∈ tickets -> dep ∈ t_dependsOn t ->
    exists d, dep = Some (t_id d) /\ d ∈ tickets /\ (rank (t_id d) < rank (t_id t))%nat.

(** If something is pending and the rest is done, something is ready. *)
Lemma acyclic_ready tickets :
  NoDup (map t_id tickets) -> acyclic tickets ->
  Forall (fun t => t_status t = tk_pending \/ t_status t = tk_done) tickets ->
  computeReadyBatch tickets = [] -> Forall (fun t => t_status t = tk_done) tickets.
Proof.
  intros Hnd [rank Hrank] Hst Hno. rewrite !Forall_forall in *. 
  assert (H : forall n t, t ∈ tickets -> (rank (t_id t) < n)%nat -> t_status t = tk_done).
  { induction n as [|n IH]; intros t Ht Hn; [lia|].
    destruct (Hst t Ht) as [Hp|]; [|done].
    assert (Hr : is_ready tickets t = true).
    { unfold is_ready. rewrite bool_decide_eq_true_2 by done. apply forallb_forall.
      intros dep Hdep%list_elem_of_In. destruct (Hrank t dep Ht Hdep) as (d & -> & Hd & Hlt).
      apply bool_decide_eq_true. rewrite (statusById_spec tickets Hnd d Hd). f_equal. apply IH; [done|lia]. }
    assert (Hin : In t (computeReadyBatch tickets)) by (apply filter_In; split; [by apply list_elem_of_In|done]).
    by rewrite Hno in Hin. }
  intros t Ht. by apply (H (S (rank (t_id t)))); [|lia].
Qed.

Definition ticket_a : Ticket := {| t_id := "a"; t_runId := "r"; t_description := "leer";
  t_status := tk_pending; t_assignedSubAgentId := None; t_allowedTools := ["readEmails"];
  t_dependsOn := []; t_result := None |}.
Definition ticket_b : Ticket := {| t_id := "b"; t_runId := "r"; t_description := "resumir";
  t_status := tk_pending; t_assignedSubAgentId := None; t_allowedTools := [];
  t_dependsOn := [Some "a"]; t_result := None |}.
Definition two_tickets : list Ticket := [ticket_a; ticket_b].

Lemma two_tickets_acyclic : NoDup (map t_id two_tickets) /\ acyclic two_tickets.
Proof.
  split; [apply (bool_decide_unpack _); reflexivity|].
  exists (fun id => if String.eqb id "b" then 1%nat else 0%nat). intros t dep Ht Hdep.
  apply elem_of_cons in Ht as [->|Ht]; [by apply not_elem_of_nil in Hdep|].
  apply list_elem_of_singleton in Ht as ->. apply list_elem_of_singleton in Hdep as ->.
  exists ticket_a. split; [reflexivity|]. split; [by left|cbn; lia].
Qed.

(** *** One sub-agent *)

Definition ticket_rows (ticketId : string) (w : World) : list Ticket :=
  List.filter (fun t => String.eqb (t_id t) ticketId) (agentTickets (w_ledger w)).

Lemma on_ticket_rows ticketId f l :
  (forall t, t_id (f t) = t_id t) ->
  List.filter (fun t => String.eqb (t_id t) ticketId) (on_ticket ticketId f l) =
  map f (List.filter (fun t => String.eqb (t_id t) ticketId) l).
Proof.
  intros Hf. unfold on_ticket. induction l as [|t l IH]; [done|]. cbn [map List.filter].
  destruct (String.eqb (t_id t) ticketId) eqn:E; rewrite ?Hf, E, IH; done.
Qed.

(** The ticket's row says [status] and, if given, [result]. *)
Definition ticket_says (ticketId : string) (status : AgentTicketStatus) (result : option string) (w : World) :
    Prop :=
  Forall (fun t => t_status t = status /\ forall r, result = Some r -> t_result t = Some r)
         (ticket_rows ticketId w).

Lemma run_updateTicketStatus ticketId status result w w' r :
  run (Ledger.updateTicketStatus ticketId status result) w = (w', inr r) ->
  ticket_says ticketId status result w'.
Proof.
  unfold Ledger.updateTicketStatus, db_write. rewrite run_db. destruct (faulty w); [done|].
  intros [= <- _]. unfold ticket_says, ticket_rows.
  cbn [w_ledger upd_ledger agentTickets set_tickets tick upd_sys].
  rewrite on_ticket_rows by done. apply Forall_fmap, Forall_true. intros t. cbn. split; [done|]. by intros x ->.
Qed.

Lemma run_addComment_tickets id ty au k b w :
  agentTickets (w_ledger (run (Ledger.addComment id ty au k b) w).1) = agentTickets (w_ledger w).
Proof.
  unfold Ledger.addComment, db_checked. rewrite run_bind, run_db. destruct (faulty w); [done|].
  destruct (existsb _ _); done.
Qed.

(** A sub-agent settles its ticket, and only calls it [done] when it is: when
    [runSubAgentForTicket] returns, the ticket is [done], [blocked] or [failed],
    never left in progress; it is [done] or [blocked] with the answer of the turn
    as its result, [done] if the turn left no approval pending and [blocked] if it
    did; and the kill switch is the one error of the turn that is not absorbed. *)
Lemma a_sub_agent_settles_its_ticket {Agents : AgentApi} (runId : string) (ticket : Ticket) (w : World) :
  match run (Orchestrator.runSubAgentForTicket runId ticket) w with
  | (w', inr _) =>
      ticket_says (t_id ticket) tk_failed None w' \/
      exists w0 history w1 result,
        run (agent_runTurn (Orchestrator.sub_agent_input runId ticket history)) w0 = (w1, inr result) /\
        ticket_says (t_id ticket)
          (if decide (atr_pendingApprovals result = []) then tk_done else tk_blocked)
          (Some (atr_finalResponse result)) w'
  | (_, inl e) =>
      e = DbError \/ is_kill_switch e = true
  end.
Proof.
  unfold Orchestrator.runSubAgentForTicket.
  assert (Hupd : forall s r w0, match run (Ledger.updateTicketStatus (t_id ticket) s r) w0 with
    | (_, inl e) => e = DbError | (w1, inr _) => ticket_says (t_id ticket) s r w1 end).
  { intros s r w0. destruct (run _ w0) as [w1 [e|x]] eqn:E; [|by eapply run_updateTicketStatus].
    unfold Ledger.updateTicketStatus, db_write in E. rewrite run_db in E.
    destruct (faulty w0); [by injection E as _ <-|done]. }
  assert (Hcom : forall ty au k b w0, match run (Ledger.addComment (t_id ticket) ty au k b) w0 with
    | (_, inl e) => e = DbError | (w1, inr _) => agentTickets (w_ledger w1) = agentTickets (w_ledger w0) end).
  { intros ty au k b w0. pose proof (run_addComment_tickets (t_id ticket) ty au k b w0) as Hc.
    destruct (run _ w0) as [w1 [e|x]] eqn:E; [|exact Hc].
    unfold Ledger.addComment, db_checked in E. rewrite run_bind, run_db in E.
    destruct (faulty w0); [by injection E as _ <-|]. destruct (existsb _ _); [done|]. by injection E as _ <-. }
  rewrite run_bind. pose proof (Hupd tk_in_progress None w) as H1.
  destruct (run _ w) as [w1 [e|[]]]; [by left|]. clear H1.
  rewrite run_bind. unfold Ledger.assignSubAgent, db_write. rewrite run_db.
  destruct (faulty w1); [by left|]. set (w2 := upd_ledger _ (tick w1)).
  rewrite run_bind. cbn [run Orchestrator.changed emit writes]. set (w3 := upd_events _ w2).
  rewrite run_bind. unfold Ledger.getCompletedSiblings, Ledger.getTickets, db_read.
  rewrite run_bind, run_db. destruct (faulty w3); [by left|]. cbn [run]. cbv zeta.
  set (history := buildBoardContextMessages _). rewrite run_catch.
  rewrite run_bind. set (w4 := tick w3).
  set (fail := Orchestrator.ticketFailed runId ticket).
  assert (Hfail : forall e w0, match run (fail e) w0 with
    | (w', inr _) => ticket_says (t_id ticket) tk_failed None w'
    | (_, inl e') => e' = DbError \/ is_kill_switch e' = true end).
  { intros e w0. subst fail. unfold Orchestrator.ticketFailed. destruct (is_kill_switch e) eqn:Ek; [by right|].
    rewrite run_bind. pose proof (Hupd tk_failed None w0) as H1.
    destruct (run _ w0) as [wa [ea|[]]]; [by left|]. rewrite run_bind.
    match goal with |- context [run (Ledger.addComment ?i ?ty ?au ?k ?b) wa] =>
      pose proof (Hcom ty au k b wa) as H2; destruct (run (Ledger.addComment i ty au k b) wa) as [wb [eb|[]]] end;
      [by left|]. cbn. unfold ticket_says, ticket_rows in *. cbn. by rewrite H2. }
  clearbody fail.
  destruct (run (agent_runTurn _) w4) as [w5 [e|result]] eqn:Eturn.
  { specialize (Hfail e w5). destruct (run (fail e) w5) as [w6 [e6|x]]; [exact Hfail|by left]. }
  rewrite run_bind.
  match goal with |- context [run (Ledger.addComment ?i ?ty ?au ?k ?b) w5] =>
    destruct (run (Ledger.addComment i ty au k b) w5) as [w6 [e6|[]]] end.
  { specialize (Hfail e6 w6). destruct (run (fail e6) w6) as [w7 [e7|x]]; [exact Hfail|by left]. }
  rewrite run_bind. set (status := if (0 <? _)%nat then tk_blocked else tk_done).
  pose proof (Hupd status (Some (atr_finalResponse result)) w6) as H1.
  destruct (run _ w6) as [w7 [e7|[]]].
  { specialize (Hfail e7 w7). destruct (run (fail e7) w7) as [w8 [e8|x]]; [exact Hfail|by left]. }
  right. exists w4, history, w5, result. split; [exact Eturn|].
  replace (if decide (atr_pendingApprovals result = []) then tk_done else tk_blocked) with status; [exact H1|].
  subst status. by destruct (atr_pendingApprovals result).
Qed.
