(* ===== verification/TelegramBot.v ===== *)
(** * TelegramBot: the conversation of the owner with the agent

    [src/telegram/telegram-bot.service.ts], with [src/integrations/google/oauth.service.ts],
    [src/integrations/canvas/morning-alert.format.ts] and [parseModeCommand] of
    [src/autonomy/autonomy.logic.ts], which it is the only one to call.  The bot puts the
    other services together: approvals, autonomy, budget, memory and the turns of the
    agent.  Telegram is another program: a call is recorded with the error that an oracle
    of the store gives it, if any. *)
From S2P Require Import Prelude Effects Js Text Registry Store AuditApi AuditLog Hitl Approval Autonomy FeatureFlags Regex TelegramFormat Relay Models Budget Sanitizer Memory Agent Orchestrator.
From Stdlib Require Import Ascii String QArith Qabs Qcanon Qround.
Local Open Scope stdpp_scope.
Local Open Scope Z_scope.
Local Open Scope jin_scope.

(** ** parseModeCommand *)

(** [toLowerCase] on the letters of Latin-1; no other character becomes a letter of
    the names below. *)
Definition lower_unit (c : Z) : Z :=
  if (65 <=? c) && (c <=? 90) || (192 <=? c) && (c <=? 222) && negb (c =? 215) then c + 32 else c.

(** [split(/\s+/).filter(Boolean)] *)
Fixpoint words_from (word : text) (s : text) : list text :=
  match s with
  | [] => match word with [] => [] | _ => [rev word] end
  | c :: s' =>
      if Text.is_space c then match word with [] => words_from [] s' | _ => rev word :: words_from [] s' end
      else words_from (c :: word) s'
  end.

Definition MODE_ALIASES : list (text * AutonomyMode) :=
  map (fun kv => (text_of (fst kv), snd kv))
    [("safe", Supervised); ("seguro", Supervised); ("supervised", Supervised); ("supervisado", Supervised);
     ("hitl", Supervised); ("semi", SemiAuto); ("semiauto", SemiAuto); ("semi-auto", SemiAuto);
     ("semiautomatico", SemiAuto); ("semiautomático", SemiAuto); ("auto", AutoMode);
     ("automatico", AutoMode); ("automático", AutoMode)].

(** What [MODE_ALIASES[key]] gives: a mode, or a member that every object inherits. *)
Inductive Alias := alias_mode (mode : AutonomyMode) | alias_inherited (key : text).

(** The inherited members whose name is in lower case. *)
Definition inherited_members : list text := [units "constructor"; units "__proto__"].

Definition mode_alias (key : text) : option Alias :=
  match List.find (fun kv => bool_decide (fst kv = key)) MODE_ALIASES with
  | Some kv => Some (alias_mode (snd kv))
  | None => if existsb (fun k => bool_decide (k = key)) inherited_members then Some (alias_inherited key) else None
  end.

Inductive ModeCommand :=
| cmd_status
| cmd_change (mode : Alias) (hours : option Z)
| cmd_invalid.

(** From here on a double is infinite. *)
Definition INFINITE : Z := 2 ^ 1024 - 2 ^ 970.

Definition parseModeCommand (args : text) : ModeCommand :=
  match words_from [] (map lower_unit (trim args)) with
  | [] => cmd_status
  | [name] => match mode_alias name with Some mode => cmd_change mode None | None => cmd_invalid end
  | [name; number] =>
      match mode_alias name with
      | None => cmd_invalid
      | Some mode =>
          match Number_integer number with
          | Some hours => if (hours <=? 0) || (INFINITE <=? hours) then cmd_invalid else cmd_change mode (Some hours)
          | None => cmd_invalid
          end
      end
  | _ => cmd_invalid
  end.

(** ** morning-alert.format.ts *)

Inductive MorningAlertEvent :=
| morning_summary (ranAt summaryMarkdown : string)
| morning_failed (ranAt error : string)
| morning_missing.

Definition TELEGRAM_MAX_MESSAGE_LENGTH : nat := 4096.
Definition TRUNCATION_NOTICE : text := [LF; LF] ++ text_of "… (resumen truncado)".

Definition formatMorningAlert (event : MorningAlertEvent) : text :=
  let body := text_of
    match event with
    | morning_summary _ summary =>
        "☀️ Buenos días — prioridades de hoy (análisis de las 00:00)" +:+ newline +:+ newline +:+ summary
    | morning_failed _ error =>
        "⚠️ El análisis académico de las 00:00 FALLÓ, así que no hay resumen fiable de prioridades para hoy." +:+ newline +:+
        "Motivo: " +:+ error +:+ newline +:+
        "Revisá Canvas a mano y avisame si el fallo se repite."
    | morning_missing =>
        "⚠️ El análisis académico de las 00:00 NO se ejecutó (no hay ninguna corrida registrada en las últimas 12 h), " +:+
        "así que no hay resumen de prioridades para hoy. Revisá Canvas a mano."
    end in
  if (List.length body <=? TELEGRAM_MAX_MESSAGE_LENGTH)%nat then body
  else take (TELEGRAM_MAX_MESSAGE_LENGTH - List.length TRUNCATION_NOTICE) body ++ TRUNCATION_NOTICE.

(** ** Values as text *)

(** [String(value)] *)
Fixpoint js_String (v : json) : string :=
  match v with
  | JNull => "null"
  | JBool b => if b then "true" else "false"
  | JNum n => pretty n
  | JStr s => s
  | JArr l => join "," (map (fun x => match x with JNull => "" | _ => js_String x end) l)
  | JObj _ => "[object Object]"
  end.

(** [x.toFixed(1)] *)
Definition toFixed1 (x : Q) : string :=
  let tenths := Qfloor (Qabs x * 10 + (1 # 2)) in
  (if Qle_bool 0 x then "" else "-") +:+ pretty (tenths / 10) +:+ "." +:+ pretty (tenths mod 10).

(** [s.trim()] of a string of the tables. *)
Definition trim_string (s : string) : string := written (trim (text_of s)).

(** ** The store of the bot *)

(** A turn of a transcript; [telegram_sessions]. *)
Record TranscriptTurn := { tt_role : Role; tt_content : string }.

Record TelegramSessionRow := {
  ts_id : string;
  ts_transcript : list TranscriptTurn;
  ts_status : string;
  ts_lastActivityAt : Z
}.

Inductive ParseMode := plain_text | markdown | html.

Inductive BotCall :=
| bc_sendMessage (chat : Z) (body : text) (mode : ParseMode) (keyboard : list (list (text * text)))
| bc_answerCallbackQuery (body : option text).

(** The fields of [TelegramBotService]. *)
Record BotState := {
  lastNotifiedKillSwitchActive : bool;
  notifiedDailyThresholdsToday : list Qc;
  lastDailyThresholdResetDate : string;
  lastOAuthAlertNotifiedDate : string;
  lastNotifiedChainLocked : bool
}.

Definition set_killSwitchNotified (b : bool) (s : BotState) : BotState :=
  {| lastNotifiedKillSwitchActive := b; notifiedDailyThresholdsToday := notifiedDailyThresholdsToday s;
     lastDailyThresholdResetDate := lastDailyThresholdResetDate s;
     lastOAuthAlertNotifiedDate := lastOAuthAlertNotifiedDate s; lastNotifiedChainLocked := lastNotifiedChainLocked s |}.
Definition set_thresholdsNotified (l : list Qc) (date : string) (s : BotState) : BotState :=
  {| lastNotifiedKillSwitchActive := lastNotifiedKillSwitchActive s; notifiedDailyThresholdsToday := l;
     lastDailyThresholdResetDate := date;
     lastOAuthAlertNotifiedDate := lastOAuthAlertNotifiedDate s; lastNotifiedChainLocked := lastNotifiedChainLocked s |}.
Definition set_oauthNotified (date : string) (s : BotState) : BotState :=
  {| lastNotifiedKillSwitchActive := lastNotifiedKillSwitchActive s;
     notifiedDailyThresholdsToday := notifiedDailyThresholdsToday s;
     lastDailyThresholdResetDate := lastDailyThresholdResetDate s;
     lastOAuthAlertNotifiedDate := date; lastNotifiedChainLocked := lastNotifiedChainLocked s |}.
Definition set_chainNotified (b : bool) (s : BotState) : BotState :=
  {| lastNotifiedKillSwitchActive := lastNotifiedKillSwitchActive s;
     notifiedDailyThresholdsToday := notifiedDailyThresholdsToday s;
     lastDailyThresholdResetDate := lastDailyThresholdResetDate s;
     lastOAuthAlertNotifiedDate := lastOAuthAlertNotifiedDate s; lastNotifiedChainLocked := b |}.

Section Bot.
Context {Space : VectorSpace}.

Record BotWorld := {
  bw_knowledge : KnowledgeWorld;
  bw_sessions : list TelegramSessionRow;
  bw_oauth : option Z;                                   (* lastRefreshedAt of the only row *)
  bw_calls : list (BotCall * option JinError);           (* the calls so far, and how each ended *)
  bw_answer : nat -> BotCall -> option JinError;
  bw_state : BotState
}.

Definition bw_world (v : BotWorld) : World := kw_world (bw_knowledge v).
Definition put_knowledge (k : KnowledgeWorld) (v : BotWorld) : BotWorld :=
  {| bw_knowledge := k; bw_sessions := bw_sessions v; bw_oauth := bw_oauth v; bw_calls := bw_calls v;
     bw_answer := bw_answer v; bw_state := bw_state v |}.
Definition bw_put (w : World) (v : BotWorld) : BotWorld := put_knowledge (kw_put w (bw_knowledge v)) v.
Definition put_sessions (l : list TelegramSessionRow) (v : BotWorld) : BotWorld :=
  {| bw_knowledge := bw_knowledge v; bw_sessions := l; bw_oauth := bw_oauth v; bw_calls := bw_calls v;
     bw_answer := bw_answer v; bw_state := bw_state v |}.
Definition put_oauth (o : option Z) (v : BotWorld) : BotWorld :=
  {| bw_knowledge := bw_knowledge v; bw_sessions := bw_sessions v; bw_oauth := o; bw_calls := bw_calls v;
     bw_answer := bw_answer v; bw_state := bw_state v |}.
Definition add_call (c : BotCall) (v : BotWorld) : BotWorld :=
  {| bw_knowledge := bw_knowledge v; bw_sessions := bw_sessions v; bw_oauth := bw_oauth v;
     bw_calls := bw_calls v ++ [(c, bw_answer v (List.length (bw_calls v)) c)];
     bw_answer := bw_answer v; bw_state := bw_state v |}.
Definition put_state (s : BotState) (v : BotWorld) : BotWorld :=
  {| bw_knowledge := bw_knowledge v; bw_sessions := bw_sessions v; bw_oauth := bw_oauth v; bw_calls := bw_calls v;
     bw_answer := bw_answer v; bw_state := s |}.

Abbreviation bot := (prog BotWorld JinError).
Abbreviation bot_statement := (statement_on bw_world bw_put).

(** The methods of the other services. *)
Definition on_services {A} (p : jin A) : bot A := zoom bw_world bw_put p.
Definition on_memory {A} (p : prog KnowledgeWorld JinError A) : bot A := zoom bw_knowledge put_knowledge p.
Definition bot_now : bot Z := reads (fun v => clock (w_sys (bw_world v))).
Definition update_state (f : BotState -> BotState) : bot unit := writes (fun v => put_state (f (bw_state v)) v).

Definition call (c : BotCall) : bot unit :=
  Act (fun v => (add_call c v, bw_answer v (List.length (bw_calls v)) c))
      (fun r => match r with Some e => Throw e | None => Ret tt end).

(** What the memory promises to the bot. *)
Class MemoryApi := {
  memory_recall : string -> nat -> prog KnowledgeWorld JinError (list MemoryEntry);
  memory_consolidate : string -> string -> prog KnowledgeWorld JinError (list MemoryEntry)
}.

End Bot.

Abbreviation bot := (prog BotWorld JinError).
Abbreviation bot_statement := (statement_on bw_world bw_put).

(** ** oauth.service.ts *)

Module GoogleOAuth.
Section Service.
Context {Space : VectorSpace}.

Definition onModuleInit : bot unit :=
  catch (existing <- bot_statement (fun v => (v, bw_oauth v)) ;;
         match existing with
         | Some _ => Ret tt
         | None => t <- bot_now ;; bot_statement (fun v => (put_oauth (Some t) v, tt))
         end)
        (fun _ => Ret tt).

Definition updateLastRefreshedAt : bot unit :=
  t <- bot_now ;; bot_statement (fun v => (put_oauth (Some t) v, tt)).

Definition getLastRefreshedAt : bot Z :=
  row <- bot_statement (fun v => (v, bw_oauth v)) ;;
  match row with Some t => Ret t | None => bot_now end.

Definition getDaysSinceLastRefresh : bot Q :=
  lastRefreshed <- getLastRefreshedAt ;;
  t <- bot_now ;;
  Ret ((t - lastRefreshed) # (1000 * 60 * 60 * 24))%Q.
End Service.
End GoogleOAuth.

(** ** telegram-bot.service.ts *)

Definition DAILY_ALERT_THRESHOLDS : list Qc := [Q2Qc (8 # 10); 1%Qc].
Definition SESSION_INACTIVITY_MS : Z := 30 * 60 * 1000.
Definition MAX_SESSION_MESSAGES : nat := 30.
Definition MAX_WINDOW_MESSAGES : nat := 20.

(** What grammY hands to the handlers: a command with what follows it, the data of a
    button, a text, or anything else. *)
Inductive BotUpdate :=
| bu_command (name : string) (args : text)
| bu_callback (data : string)
| bu_text (body : string)
| bu_other.

Definition MEMORY_CONTEXT : string := "[CONTEXTO DE MEMORIA REUTILIZABLE]".

Definition in_code (s : string) : string := "`" +:+ s +:+ "`".

(** [l.slice(-n)] for a positive [n] *)
Definition slice_last {A} (n : nat) (l : list A) : list A := drop (List.length l - n) l.

Definition formatTranscriptForConsolidation (transcript : list TranscriptTurn) : string :=
  join (newline +:+ newline) (map (fun t =>
    (match tt_role t with user => "Usuario" | assistant => "Jin" end) +:+ ": " +:+ tt_content t) transcript).

(** Whether the transcript begins with the two turns that carry memories. *)
Definition hasSyntheticMemory (transcript : list TranscriptTurn) : bool :=
  match transcript with
  | first :: _ :: _ => String.prefix MEMORY_CONTEXT (tt_content first)
  | _ => false
  end.

(** The turns that the agent sees. *)
Definition windowTurns (transcript : list TranscriptTurn) : list TranscriptTurn :=
  if hasSyntheticMemory transcript then take 2 transcript ++ slice_last MAX_WINDOW_MESSAGES (drop 2 transcript)
  else slice_last MAX_WINDOW_MESSAGES transcript.

Definition history_message (t : TranscriptTurn) : ModelMessage :=
  {| mm_role := tt_role t; mm_content := content_string (tt_content t) |}.

Definition memory_turns (memories : list MemoryEntry) : list TranscriptTurn :=
  match memories with
  | [] => []
  | _ => [{| tt_role := user;
             tt_content := MEMORY_CONTEXT +:+ ":" +:+ newline +:+
               join newline (map (fun m => "- [" +:+ memory_type_name (me_tipo m) +:+ "] " +:+ me_content m) memories) |};
          {| tt_role := assistant;
             tt_content := "Entendido. Utilizaré este contexto de memoria para guiar mis respuestas." |}]
  end.

Definition is_active (s : TelegramSessionRow) : bool := String.eqb (ts_status s) "active".

Definition close_session (id : string) (t : Z) (s : TelegramSessionRow) : TelegramSessionRow :=
  if String.eqb (ts_id s) id
  then {| ts_id := ts_id s; ts_transcript := ts_transcript s; ts_status := "consolidated"; ts_lastActivityAt := t |}
  else s.

Definition write_transcript (id : string) (transcript : list TranscriptTurn) (t : Z) (s : TelegramSessionRow) :
    TelegramSessionRow :=
  if String.eqb (ts_id s) id
  then {| ts_id := ts_id s; ts_transcript := transcript; ts_status := ts_status s; ts_lastActivityAt := t |}
  else s.

(** [err instanceof GrammyError && error_code === 400 && ...] *)
Definition isParseError (e : JinError) : bool :=
  match e with
  | GrammyError code description _ =>
      (code =? 400) && match String.index 0 "can't parse entities" description with Some _ => true | None => false end
  | _ => false
  end.

Module TelegramBot.
Section Service.
Context {Space : VectorSpace} `{!UnicodeTable} `{Api : AuditApi} `{Crypto : NodeCrypto}.
Context {AgentService : AgentApi} {MemoryService : MemoryApi}.
Context (ownerChatId : Z) (webhookSecret : string) (executors : ToolExecutorRegistry).
Context (autonomy : AutonomyConfig) (budget : BudgetConfig) (tzOffset : Z).

(** What the request for a mode that is a member of every object ends in: the driver of
    the database decides what it does with such a value. *)
Context (requestInheritedMode : text -> option Z -> jin ModeChangeResult).

Definition validateWebhookSecret (secretTokenHeader : option string) : bool :=
  bool_decide (secretTokenHeader = Some webhookSecret).

Definition send (mode : ParseMode) (body : string) : bot unit :=
  call (bc_sendMessage ownerChatId (text_of body) mode []).

(** [ctx.reply]: the chat is that of the owner, or no handler runs. *)
Definition reply (body : string) : bot unit := send plain_text body.
Definition reply_markdown (body : string) : bot unit := send markdown body.

(** *** Sessions *)

Definition getActiveDbSession : bot (option TelegramSessionRow) :=
  bot_statement (fun v => (v, head (List.filter is_active (bw_sessions v)))).

Definition consolidateAndCloseSession (session : TelegramSessionRow) : bot (list MemoryEntry) :=
  let fullTranscript := formatTranscriptForConsolidation (ts_transcript session) in
  entries <- (if truthy (trim_string fullTranscript)
              then catch (on_memory (memory_consolidate (ts_id session) fullTranscript)) (fun _ => Ret [])
              else Ret []) ;;
  t <- bot_now ;;
  bot_statement (fun v => (put_sessions (map (close_session (ts_id session) t) (bw_sessions v)) v, tt)) ;;;
  Ret entries.

(** *** Approvals *)

Definition processApproval (requestId : string) : bot unit :=
  catch
    (outcome <- on_services (ApprovalExecution.resolveAndExecute executors requestId "owner") ;;
     match outcome with
     | ResolveAndExecuteAwaitingSecond =>
         reply_markdown ("⏳ *Primera aprobación registrada* para " +:+ in_code requestId +:+ "." +:+ newline +:+
           "Por favor, envíe la segunda aprobación pasados 30 segundos.")
     | ResolveAndExecuteResolved _ result =>
         reply_markdown ("✅ *Acción Aprobada y Ejecutada* (" +:+ in_code requestId +:+ ")." +:+ newline +:+
           "Resultado: " +:+ js_String result)
     end)
    (fun err =>
       match err with
       | SecondApprovalTooEarlyError _ _ => reply ("⚠️ " +:+ messageOf err)
       | PendingApprovalNotFoundError _ | ApprovalAlreadyResolvedError _ => reply ("❌ " +:+ messageOf err)
       | _ =>
           reply ("⚠️ Error al ejecutar la acción aprobada: " +:+ messageOf err +:+ newline +:+
             "La acción NO se completó y la aprobación sigue pendiente (/tasks). " +:+
             "No se reintenta sola: aprobala de nuevo si querés reintentar.")
       end).

Definition processRejection (requestId : string) : bot unit :=
  catch
    (on_services (ApprovalExecution.resolveRejection requestId "owner") ;;;
     reply_markdown ("❌ *Acción Rechazada* (" +:+ in_code requestId +:+ "). Registrado en audit log."))
    (fun err =>
       match err with
       | PendingApprovalNotFoundError _ | ApprovalAlreadyResolvedError _ => reply ("❌ " +:+ messageOf err)
       | _ => reply ("⚠️ Error al procesar rechazo: " +:+ messageOf err)
       end).

Definition task_keyboard (requestId : string) : list (list (text * text)) :=
  [[(text_of "✅ Aprobar", text_of ("approve:" +:+ requestId));
    (text_of "❌ Rechazar", text_of ("reject:" +:+ requestId))];
   [(text_of "🔍 Ver detalles", text_of ("details:" +:+ requestId))]].

Definition task_text (item : PendingApprovalRow) : string :=
  "📌 *Solicitud*: " +:+ in_code (pa_requestId item) +:+ newline +:+
  "- *Herramienta*: " +:+ in_code (pa_toolName item) +:+ newline +:+
  "- *Nivel HITL*: " +:+ in_code (pa_level item) +:+ newline +:+
  "- *Plan*: " +:+ default "Sin resumen" (pa_planSummary item).

Definition handleTasksCommand : bot unit :=
  pendingList <- on_services (db_read (fun w => map snd (map_to_list (w_pending w)))) ;;
  match pendingList with
  | [] => reply "🎉 No hay aprobaciones pendientes."
  | _ =>
      reply_markdown ("📋 *Aprobaciones Pendientes (" +:+ pretty (List.length pendingList) +:+ ")*:") ;;;
      for_each pendingList (fun item =>
        call (bc_sendMessage ownerChatId (text_of (task_text item)) markdown (task_keyboard (pa_requestId item))))
  end.

Definition details_text (pending : PendingApprovalRow) : string :=
  "🔍 *Detalles de Aprobación Pendiente*" +:+ newline +:+ newline +:+
  "- *ID*: " +:+ in_code (pa_requestId pending) +:+ newline +:+
  "- *Herramienta*: " +:+ in_code (pa_toolName pending) +:+ newline +:+
  "- *Nivel HITL*: " +:+ in_code (pa_level pending) +:+ newline +:+
  "- *Hash Inputs*: " +:+ in_code (pa_inputsHash pending) +:+ newline +:+
  "- *Plan*: " +:+ default "Sin plan summary" (pa_planSummary pending) +:+ newline +:+
  "- *Creado*: " +:+ in_code (to_iso_string (pa_createdAt pending)) +:+ newline +:+
  match pa_firstApprovedAt pending with
  | Some t => "- *1ª Aprobación*: " +:+ in_code (to_iso_string t) +:+ " por " +:+
              in_code (default "null" (pa_firstApprover pending)) +:+ newline
  | None => ""
  end.

Definition showTaskDetails (requestId : string) : bot unit :=
  pending <- on_services (DualConfirm.getPending requestId) ;;
  match pending with
  | None => reply_markdown ("❌ No se encontró la tarea " +:+ in_code requestId +:+ ".")
  | Some pending => reply_markdown (details_text pending)
  end.

(** The handler of the buttons. *)
Definition on_callback (data : string) : bot unit :=
  match split_on ":"%char data with
  | action :: requestId :: _ =>
      if negb (truthy requestId) then call (bc_answerCallbackQuery (Some (text_of "Acción no válida")))
      else if String.eqb action "approve" then call (bc_answerCallbackQuery None) ;;; processApproval requestId
      else if String.eqb action "reject" then call (bc_answerCallbackQuery None) ;;; processRejection requestId
      else if String.eqb action "details" then call (bc_answerCallbackQuery None) ;;; showTaskDetails requestId
      else Ret tt
  | _ => call (bc_answerCallbackQuery (Some (text_of "Acción no válida")))
  end.

(** *** Commands *)

Definition mode_label (mode : AutonomyMode) : string :=
  match mode with AutoMode => "AUTOMÁTICO" | _ => "semiautomático" end.

Definition mode_description (d : AutonomyDescription) : string :=
  match ad_mode d with
  | Supervised =>
      "🟢 Modo: supervisado (HITL completo). Toda acción que hoy pide aprobación la sigue pidiendo."
  | mode =>
      let hours :=
        match ad_remainingSeconds d with
        | Some s => pretty (s / 3600) +:+ " h " +:+ pretty (s mod 3600 / 60) +:+ " min"
        | None => "?"
        end in
      let detail :=
        match mode with
        | AutoMode => "Lo que pedía 1 aprobación se ejecuta y te avisa. Lo dual-confirm sigue pidiendo 2 aprobaciones."
        | _ => "Se ejecuta y te avisa, salvo: " +:+ join ", " (ad_guardedInSemiAuto d) +:+
               " (siguen pidiendo aprobación). Lo dual-confirm sigue igual."
        end in
      "🟠 Modo: " +:+ mode_label mode +:+ " — vuelve solo a supervisado en " +:+ hours +:+ "." +:+ newline +:+
      detail +:+ newline +:+ "Para volver ya: /mode safe"
  end.

Definition describeAutonomyMode : bot string :=
  d <- on_services (Autonomy.describe autonomy) ;; Ret (mode_description d).

Definition on_mode (args : text) : bot unit :=
  match parseModeCommand args with
  | cmd_invalid => reply "Uso: /mode (ver estado) · /mode safe · /mode semi [horas] · /mode auto [horas]"
  | cmd_status => d <- describeAutonomyMode ;; reply d
  | cmd_change mode hours =>
      result <- on_services
        match mode with
        | alias_mode mode => Autonomy.requestModeChange autonomy mode hours "owner:telegram"
        | alias_inherited key => requestInheritedMode key hours
        end ;;
      match result with
      | mc_applied _ _ => d <- describeAutonomyMode ;; reply d
      | mc_pending_approval requestId mode hours =>
          reply ("⏳ Para pasar a modo " +:+ quoted (mode_name mode) +:+ " durante " +:+ pretty hours +:+
            " h hace falta DOBLE aprobación (baja la protección del HITL)." +:+ newline +:+
            "1) /approve " +:+ requestId +:+ newline +:+
            "2) esperá 30 s y repetí /approve " +:+ requestId +:+ newline +:+
            "Para cancelar: /reject. Mientras tanto sigue el modo actual.")
      end
  end.

Definition on_budget : bot unit :=
  ratio <- on_services (Budget.getDailyUsageRatio budget tzOffset) ;;
  killSwitchActive <- on_services KillSwitch.isActive ;;
  let percent := Z.min 999 (round_Qc (ratio * Q2Qc (100 # 1))%Qc) in
  reply_markdown ("💰 *Presupuesto diario*: " +:+ pretty percent +:+ "% consumido." +:+ newline +:+
    "🔌 *Kill switch*: " +:+ (if killSwitchActive : bool then "🔴 ACTIVO — usa /unpause" else "🟢 inactivo")).

(** A command of the owner, recorded as an approval under a new identifier. *)
Definition record_acknowledgement (toolName : string) : bot unit :=
  requestId <- on_services randomUUID ;;
  on_services (audit_approval requestId "owner" toolName "n/a") ;;; Ret tt.

Definition on_unpause : bot unit :=
  active <- on_services KillSwitch.isActive ;;
  if negb active then reply "ℹ️ El kill switch no está activo — nada que reanudar."
  else
    on_services KillSwitch.unpause ;;;
    record_acknowledgement "unpause" ;;;
    update_state (set_killSwitchNotified false) ;;;
    reply "✅ Kill switch desactivado. El sistema puede operar normalmente.".

Definition on_google_oauth_refreshed : bot unit :=
  GoogleOAuth.updateLastRefreshedAt ;;;
  record_acknowledgement "google-oauth-refresh-ack" ;;;
  reply "✅ Timestamp de refresco de Google OAuth actualizado. Contador reiniciado.".

Definition on_endsession : bot unit :=
  session <- getActiveDbSession ;;
  match session with
  | None => reply "ℹ️ No hay ninguna sesión activa en este momento."
  | Some session =>
      consolidateAndCloseSession session ;;;
      reply_markdown "✅ *Sesión cerrada y consolidada en memoria*. Las lecciones y preferencias han sido guardadas."
  end.

Definition memory_line (idx : nat) (m : MemoryEntry) : string :=
  pretty (S idx) +:+ ". 📌 *[" +:+ memory_type_name (me_tipo m) +:+ "]* " +:+ me_content m.

Definition on_memory_command (args : text) : bot unit :=
  let query := written (trim args) in
  if negb (truthy query) then reply_markdown ("⚠️ Uso: " +:+ in_code "/memory <búsqueda>")
  else
    catch
      (memories <- on_memory (memory_recall query 5) ;;
       match memories with
       | [] => reply_markdown "🧠 *Memoria de Jin*: No se encontraron recuerdos relevantes para la consulta."
       | _ =>
           reply_markdown ("🧠 *Recuerdos Encontrados (" +:+ pretty (List.length memories) +:+ ")*:" +:+
             newline +:+ newline +:+ join (newline +:+ newline) (imap memory_line memories))
       end)
      (fun err => reply ("⚠️ Error al consultar memoria: " +:+ messageOf err)).

(** [/approve] and [/reject] with their argument. *)
Definition with_request (usage : string) (args : text) (handler : string -> bot unit) : bot unit :=
  let requestId := written (trim args) in
  if truthy requestId then handler requestId else reply_markdown ("⚠️ Uso: " +:+ in_code usage).

(** A name that is no command reaches the handler of texts, which leaves it. *)
Definition on_command (name : string) (args : text) : bot unit :=
  if String.eqb name "start" then
    reply_markdown ("🤖 *Jin* — Orquestador de Agentes Personal" +:+ newline +:+ newline +:+
      "Sistema activo y listo para procesar instrucciones.")
  else if String.eqb name "status" then
    reply_markdown ("✅ *Estado del Sistema*" +:+ newline +:+ newline +:+
      "- *jin-core*: En línea" +:+ newline +:+
      "- *Base de Datos*: Conectada (Postgres + pgvector)" +:+ newline +:+
      "- *Modo Webhook*: Activo")
  else if String.eqb name "tasks" then handleTasksCommand
  else if String.eqb name "approve" then with_request "/approve <id>" args processApproval
  else if String.eqb name "reject" then with_request "/reject <id>" args processRejection
  else if String.eqb name "mode" then on_mode args
  else if String.eqb name "budget" then on_budget
  else if String.eqb name "unpause" then on_unpause
  else if String.eqb name "google-oauth-refreshed" then on_google_oauth_refreshed
  else if String.eqb name "endsession" then on_endsession
  else if String.eqb name "memory" then on_memory_command args
  else Ret tt.

(** *** Free text: a turn of the agent *)

(** One message: as HTML, or as plain text when Telegram cannot parse it. *)
Definition reply_chunk (chunk : text) : bot unit :=
  catch (call (bc_sendMessage ownerChatId chunk html []))
    (fun err =>
       if negb (isParseError err) then Throw err
       else call (bc_sendMessage ownerChatId (htmlToPlain chunk) plain_text [])).

Definition rich_html (markdown : string) (footer : text) : text :=
  markdownToTelegramHtml (text_of markdown) ++
  match footer with [] => [] | _ => [LF; LF] ++ between_tags "i" (escapeHtml footer) end.

Definition replyRich (markdown : string) (footer : text) : bot unit :=
  for_each (splitForTelegram (rich_html markdown footer) TELEGRAM_CHUNK_LIMIT) reply_chunk.

Definition isInactive (t : Z) (session : TelegramSessionRow) : bool :=
  SESSION_INACTIVITY_MS <? t - ts_lastActivityAt session.
Definition isTooLong (session : TelegramSessionRow) : bool :=
  (MAX_SESSION_MESSAGES <=? List.length (ts_transcript session))%nat.

(** A session with the memories that the text recalls. *)
Definition openSession (text : string) : bot TelegramSessionRow :=
  newSessionId <- on_services randomUUID ;;
  initialTranscript <- catch (memories <- on_memory (memory_recall text 5) ;; Ret (memory_turns memories))
                             (fun _ => Ret []) ;;
  t <- bot_now ;;
  bot_statement (fun v =>
    let row := {| ts_id := newSessionId; ts_transcript := initialTranscript; ts_status := "active";
                  ts_lastActivityAt := t |} in
    (put_sessions (bw_sessions v ++ [row]) v, row)).

(** The session of the text: the active one while it is neither old nor long. *)
Definition currentSession (text : string) : bot TelegramSessionRow :=
  session <- getActiveDbSession ;;
  t <- bot_now ;;
  match session with
  | None => openSession text
  | Some s => if isInactive t s || isTooLong s then consolidateAndCloseSession s ;;; openSession text else Ret s
  end.

Definition deferred_text (pa : AgentPendingApproval) : string :=
  "⚠️ *Acción diferida*: " +:+ in_code (apa_toolName pa) +:+ " (requestId: " +:+ in_code (apa_requestId pa) +:+
  "). Usa /approve " +:+ apa_requestId pa +:+ " o /tasks para aprobar.".

Definition answer_text (text : string) : bot unit :=
  session <- currentSession text ;;
  let currentTranscript := ts_transcript session in
  turnResult <- on_services (agent_runTurn {|
    ati_sessionId := ts_id session; ati_objective := text;
    ati_history := Some (map history_message (windowTurns currentTranscript));
    ati_allowedTools := None; ati_actorLabel := None; ati_onProgress := None |}) ;;
  let updatedTranscript := currentTranscript ++
    [{| tt_role := user; tt_content := text |};
     {| tt_role := assistant; tt_content := atr_finalResponse turnResult |}] in
  t <- bot_now ;;
  bot_statement (fun v =>
    (put_sessions (map (write_transcript (ts_id session) updatedTranscript t) (bw_sessions v)) v, tt)) ;;;
  replyRich (atr_finalResponse turnResult) (modelFooter (Some (map text_of (atr_modelsUsed turnResult)))) ;;;
  match atr_pendingApprovals turnResult with
  | [] => Ret tt
  | l => reply_markdown (join newline (map deferred_text l))
  end.

Definition on_text (text : string) : bot unit :=
  if String.prefix "/" text then Ret tt
  else
    enabled <- on_services (FeatureFlags.isIntegrationEnabled (Some Registry.Telegram)) ;;
    if negb enabled then reply "El chat conversacional está desactivado temporalmente."
    else catch (answer_text text) (fun err => reply ("⚠️ " +:+ messageOf err)).

(** *** What the bot says by itself *)

(** The listeners of the events of the other services. *)
Definition onHitlApprovalEscalated (requestId toolName : string) : bot unit :=
  send markdown ("⚠️ *Aprobación sin responder hace 12h*: " +:+ in_code toolName +:+ " (" +:+ requestId +:+ "). " +:+
    "Se descarta automáticamente a las 24h si no respondés. Usa /tasks para verla.").

Definition onHitlApprovalAbandoned (requestId toolName : string) : bot unit :=
  send markdown ("🔴 *Aprobación ABANDONADA* tras 24h sin respuesta: " +:+ in_code toolName +:+ " (" +:+ requestId +:+
    "). " +:+ "La acción se descartó — nunca se ejecutó.").

Definition onHitlApprovalStuck (requestId toolName : string) : bot unit :=
  send markdown ("🔴 *Aprobación TRABADA*: " +:+ in_code toolName +:+ " (" +:+ requestId +:+
    ") quedó ejecutándose y no terminó. " +:+
    "La acción pudo o no haberse realizado — verificalo a mano. " +:+
    "No se reintenta sola. Cuando lo hayas comprobado, usá /reject " +:+ requestId +:+ " para limpiarla.").

Definition change_reason (reason : string) : string :=
  if String.eqb reason "approved" then "aprobado con doble confirmación"
  else if String.eqb reason "downgrade" then "lo pediste vos"
  else if String.eqb reason "expired" then "CADUCÓ"
  else if String.eqb reason "circuit-breaker"
  then "FRENO DE EMERGENCIA: se autoejecutaron demasiadas acciones en 1 h"
  else "undefined".

Definition onAutonomyModeChanged (mode previousMode reason : string) : bot unit :=
  send plain_text ((if String.eqb mode "supervised" then "🟢" else "🟠") +:+ " Modo de autonomía: " +:+
    previousMode +:+ " → " +:+ mode +:+ " (" +:+ change_reason reason +:+ ").").

Definition onMorningAlert (event : MorningAlertEvent) : bot unit :=
  call (bc_sendMessage ownerChatId (formatMorningAlert event) plain_text []).

Definition onHitlActionNotified (requestId toolName actor : string) (relaxedBy : option string) : bot unit :=
  let relaxed :=
    match relaxedBy with
    | Some r => " — se ejecutó SIN pedirte aprobación (" +:+ r +:+ ")"
    | None => ""
    end in
  send plain_text ("✅ Ejecuté " +:+ toolName +:+ relaxed +:+ ". (" +:+ actor +:+ ", id " +:+ requestId +:+ ")").

(** The listener of an event, if the bot has one. *)
Definition on_event (event : DomainEvent) : bot unit :=
  match event with
  | HITL_APPROVAL_ESCALATED_EVENT requestId toolName => onHitlApprovalEscalated requestId toolName
  | HITL_APPROVAL_ABANDONED_EVENT requestId toolName => onHitlApprovalAbandoned requestId toolName
  | HITL_APPROVAL_STUCK_EVENT requestId toolName => onHitlApprovalStuck requestId toolName
  | HITL_ACTION_NOTIFIED_EVENT requestId toolName actor relaxedBy =>
      onHitlActionNotified requestId toolName actor relaxedBy
  | AUTONOMY_MODE_CHANGED_EVENT mode previousMode reason _ _ => onAutonomyModeChanged mode previousMode reason
  | _ => Ret tt
  end.

(** The alerts, checked every five minutes. *)
Definition checkKillSwitchAlert : bot unit :=
  isActive <- on_services KillSwitch.isActive ;;
  notified <- reads (fun v => lastNotifiedKillSwitchActive (bw_state v)) ;;
  (if isActive && negb notified
   then send markdown "🔴 *Kill switch activado* — consumo runaway detectado. Todos los agentes están pausados. Usa /unpause para reanudar."
   else Ret tt) ;;;
  update_state (set_killSwitchNotified isActive).

Definition threshold_text (threshold : Qc) : string :=
  "⚠️ *Presupuesto diario al " +:+ pretty (round_Qc (threshold * Q2Qc (100 # 1))%Qc) +:+ "%*" +:+
  (if qc_le 1 threshold
   then " — solo tools auto con modelos baratos hasta el reset de las 00:00."
   else " — degradando a modelos más baratos automáticamente.").

(** The threshold is noted before the message is sent. *)
Definition notify_daily_threshold (ratio threshold : Qc) : bot unit :=
  s <- reads bw_state ;;
  if qc_le threshold ratio && negb (existsb (Qc_eq_bool threshold) (notifiedDailyThresholdsToday s)) then
    update_state (fun s => set_thresholdsNotified (notifiedDailyThresholdsToday s ++ [threshold])
                             (lastDailyThresholdResetDate s) s) ;;;
    send markdown (threshold_text threshold)
  else Ret tt.

Definition checkDailyBudgetAlert : bot unit :=
  t <- bot_now ;;
  let today := AlertMonitor.utc_date t in
  update_state (fun s => if String.eqb today (lastDailyThresholdResetDate s) then s
                         else set_thresholdsNotified [] today s) ;;;
  ratio <- on_services (Budget.getDailyUsageRatio budget tzOffset) ;;
  for_each DAILY_ALERT_THRESHOLDS (notify_daily_threshold ratio).

Definition checkOAuthAlert : bot unit :=
  days <- GoogleOAuth.getDaysSinceLastRefresh ;;
  t <- bot_now ;;
  let today := AlertMonitor.utc_date t in
  last <- reads (fun v => lastOAuthAlertNotifiedDate (bw_state v)) ;;
  if Qle_bool 6 days && negb (String.eqb last today) then
    update_state (set_oauthNotified today) ;;;
    send markdown ("⚠️ *ALERTA DE SEGURIDAD OAUTH*: El refresh token de Google OAuth (Testing Mode) " +:+
      "caducará pronto. Transcurridos " +:+ toFixed1 days +:+ " días desde el último refresco " +:+
      "manual. Usa /google-oauth-refreshed tras actualizar el token.")
  else Ret tt.

Definition checkBudgetAlerts : bot unit :=
  catch (checkKillSwitchAlert ;;; checkDailyBudgetAlert ;;; checkOAuthAlert) (fun _ => Ret tt).

Definition checkAuditIntegrityAlert : bot unit :=
  catch
    (locked <- on_services isLocked ;;
     notified <- reads (fun v => lastNotifiedChainLocked (bw_state v)) ;;
     (if locked && negb notified
      then send markdown ("🔴 *Audit log bloqueado* — se detectó corrupción en la cadena de auditoría. " +:+
             "Todas las escrituras de audit log están rechazadas hasta intervención manual.")
      else Ret tt) ;;;
     update_state (set_chainNotified locked))
    (fun _ => Ret tt).

Definition checkSessionInactivity : bot unit :=
  catch
    (session <- getActiveDbSession ;;
     match session with
     | None => Ret tt
     | Some session =>
         t <- bot_now ;;
         if isInactive t session then consolidateAndCloseSession session ;;; Ret tt else Ret tt
     end)
    (fun _ => Ret tt).

(** [handleWebhookUpdate]: the filter of the chat, then the handler. *)
Definition handleWebhookUpdate (chat : option Z) (update : BotUpdate) : bot unit :=
  if bool_decide (chat = Some ownerChatId) then
    match update with
    | bu_command name args => on_command name args
    | bu_callback data => on_callback data
    | bu_text body => on_text body
    | bu_other => Ret tt
    end
  else Ret tt.
End Service.
End TelegramBot.
