(* ===== verification/TelegramSafety.v ===== *)
(** * TelegramSafety: what the bot of the owner promises

    No answer is lost because of its format, sessions stay short whatever runs at the same
    time, and what the owner reads about an approval on each of its outcomes. *)
From S2P Require Import Prelude Effects Js Text Registry Store AuditApi AuditLog Hitl Approval AtMostOnce Autonomy FeatureFlags Regex TelegramFormat Relay Models Budget Sanitizer Memory Agent Orchestrator TelegramBot.
From Stdlib Require Import Ascii String QArith Qcanon.
Local Open Scope stdpp_scope.
Local Open Scope Z_scope.
Local Open Scope jin_scope.

(** ** Calls *)

Section Calls.
Context {Space : VectorSpace}.

(** How Telegram answers the next call. *)
Definition next_answer (v : BotWorld) (c : BotCall) : option JinError :=
  bw_answer v (List.length (bw_calls v)) c.

Lemma run_call c v :
  run (call c) v = (add_call c v, match next_answer v c with Some e => inl e | None => inr tt end).
Proof. unfold call. cbn [run]. unfold next_answer. by destruct (bw_answer _ _ _). Qed.

Lemma run_on_services {A} (p : jin A) v :
  run (on_services p) v = (bw_put (run p (bw_world v)).1 v, (run p (bw_world v)).2).
Proof. apply run_zoom; [done..|]. by intros [[]]. Qed.

Lemma run_on_memory {A} (p : prog KnowledgeWorld JinError A) v :
  run (on_memory p) v = (put_knowledge (run p (bw_knowledge v)).1 v, (run p (bw_knowledge v)).2).
Proof. apply run_zoom; [done..|]. by intros []. Qed.

(** The messages that arrived, in order. *)
Definition delivered (calls : list (BotCall * option JinError)) : list BotCall :=
  omap (fun c => match snd c with None => Some (fst c) | Some _ => None end) calls.

Lemma delivered_app l1 l2 : delivered (l1 ++ l2) = delivered l1 ++ delivered l2.
Proof. apply omap_app. Qed.
End Calls.

(** ** No answer is lost to its format *)

Section Answers.
Context {Space : VectorSpace} `{!UnicodeTable} (ownerChatId : Z).

(** Telegram is up: it takes every plain text, and rejects only HTML that it cannot
    parse. *)
Definition accepts_text (v : BotWorld) : Prop :=
  forall n c e, bw_answer v n c = Some e ->
    isParseError e = true /\ exists chat body keyboard, c = bc_sendMessage chat body html keyboard.

(** A chunk as it may reach the owner. *)
Definition arrives_as (chunk : text) (c : BotCall) : Prop :=
  c = bc_sendMessage ownerChatId chunk html [] \/
  c = bc_sendMessage ownerChatId (htmlToPlain chunk) plain_text [].

Lemma run_reply_chunk chunk v :
  accepts_text v ->
  exists v' c, run (TelegramBot.reply_chunk ownerChatId chunk) v = (v', inr tt) /\
    bw_answer v' = bw_answer v /\ arrives_as chunk c /\
    delivered (bw_calls v') = delivered (bw_calls v) ++ [c].
Proof.
  intros Hv. unfold TelegramBot.reply_chunk. set (c1 := bc_sendMessage _ chunk html []).
  rewrite run_catch, run_call. destruct (next_answer v c1) as [e|] eqn:E1.
  - destruct (Hv _ _ _ E1) as [-> _]. cbn [negb]. set (c2 := bc_sendMessage _ (htmlToPlain chunk) _ _).
    rewrite run_call. destruct (next_answer (add_call c1 v) c2) as [e2|] eqn:E2.
    { destruct (Hv _ _ _ E2) as (_ & ? & ? & ? & [=]). }
    do 2 eexists. split; [done|]. split; [done|]. split; [by right|].
    cbn [add_call bw_calls]. rewrite !delivered_app. unfold next_answer in E1, E2. cbn in E2 |- *.
    by rewrite E2, E1, app_nil_r.
  - do 2 eexists. split; [done|]. split; [done|]. split; [by left|].
    cbn [add_call bw_calls]. rewrite delivered_app. unfold next_answer in E1. cbn. by rewrite E1.
Qed.

Lemma run_reply_chunks l : forall v,
  accepts_text v ->
  exists v' cs, run (for_each l (TelegramBot.reply_chunk ownerChatId)) v = (v', inr tt) /\
    Forall2 arrives_as l cs /\ delivered (bw_calls v') = delivered (bw_calls v) ++ cs.
Proof.
  induction l as [|chunk l IH]; intros v Hv; cbn [for_each].
  { exists v, []. split; [done|]. split; [constructor|]. by rewrite app_nil_r. }
  destruct (run_reply_chunk chunk v Hv) as (v1 & c & Hr & Ha & Hc & Hd).
  destruct (IH v1) as (v' & cs & Hr' & Hcs & Hd'); [by unfold accepts_text; rewrite Ha|].
  exists v', (c :: cs). rewrite run_bind, Hr. split; [done|]. split; [by constructor|].
  by rewrite Hd', Hd, <- app_assoc.
Qed.

(** No answer is lost to its format: when Telegram is up, every piece of the answer of
    the model reaches the owner, once and in order, as HTML or, when Telegram cannot parse
    it, as the plain text it shows. *)
Lemma no_answer_is_lost_to_its_format (markdown : string) (footer : text) (v : BotWorld) :
  accepts_text v ->
  exists v' messages,
    run (TelegramBot.replyRich ownerChatId markdown footer) v = (v', inr tt) /\
    delivered (bw_calls v') = delivered (bw_calls v) ++ messages /\
    Forall2 arrives_as (splitForTelegram (TelegramBot.rich_html markdown footer) TELEGRAM_CHUNK_LIMIT) messages.
Proof.
  intros Hv. destruct (run_reply_chunks (splitForTelegram (TelegramBot.rich_html markdown footer) TELEGRAM_CHUNK_LIMIT) v Hv)
    as (v' & cs & Hr & Hcs & Hd).
  by exists v', cs.
Qed.
End Answers.

(** ** What the owner reads about an approval *)

Section Decisions.
Context {Space : VectorSpace} `{Api : AuditApi} (ownerChatId : Z) (executors : ToolExecutorRegistry).

(** A decision that returns a result has executed the action. *)
Lemma resolved_executed rid approver tool result w w' :
  run (ApprovalExecution.resolveAndExecute executors rid approver) w =
    (w', inr (ResolveAndExecuteResolved tool result)) ->
  exists trace, w_execs w' = trace ++ [ExecOk rid tool].
Proof.
  unfold ApprovalExecution.resolveAndExecute. rewrite run_bind.
  destruct (run (DualConfirm.getPending rid) w) as [w1 [e|[row|]]]; [done| |done].
  rewrite run_bind. destruct (run (DualConfirm.recordApproval rid approver) w1) as [w2 [e|[|]]]; [done| |done].
  rewrite run_bind. destruct (run (DualConfirm.claimForExecution rid) w2) as [w3 [e|[claimed|]]]; [done| |done].
  unfold ApprovalExecution.executeClaimed. rewrite run_bind, run_try_with.
  destruct (run (audit_approval _ _ _ _) w3) as [w4 [e|arow]].
  { rewrite run_bind. by destruct (run (DualConfirm.releaseClaim _ _) w4) as [w5 [|]]. }
  cbn [run]. rewrite run_bind, run_catch.
  destruct (run (execute executors _ _ _) w4) as [w5 [e|res]] eqn:Ex.
  { rewrite run_bind. destruct (run (DualConfirm.releaseClaim _ _) w5) as [w6 [|]]; [done|].
    rewrite run_bind, run_try_with. by destruct (run (audit_executionFailure _ _ _) w6) as [w7 [|]]. }
  intros H. assert (Htrace : w_execs w' = w_execs w5 /\ tool = pa_toolName claimed).
  { revert H. rewrite run_bind, run_catch.
    pose proof (steps_run same_trace _ w5 (steps_frame_removePending same_trace rid (same_trace_frame rid))) as Ht.
    destruct (run (DualConfirm.removePending rid) w5) as [w6 [e|?]]; cbn in *; by intros [= <- <- _]. }
  destruct Htrace as [-> ->]. revert Ex. unfold execute. destruct (executors !! _) as [ex|]; [|done].
  rewrite run_bind, run_observe, run_try_with. destruct (run (ex _ _) _) as [w6 [e|r]]; [done|].
  rewrite run_bind, run_observe. intros [= <- _]. cbn. eauto.
Qed.

Definition confirmation (rid : string) (result : json) : BotCall :=
  bc_sendMessage ownerChatId
    (text_of ("✅ *Acción Aprobada y Ejecutada* (" +:+ in_code rid +:+ ")." +:+ newline +:+
              "Resultado: " +:+ js_String result)) markdown [].

Definition reported_as_failed (message : string) : BotCall :=
  bc_sendMessage ownerChatId
    (text_of ("⚠️ Error al ejecutar la acción aprobada: " +:+ message +:+ newline +:+
             "La acción NO se completó y la aprobación sigue pendiente (/tasks). " +:+
             "No se reintenta sola: aprobala de nuevo si querés reintentar.")) plain_text [].

(** An action that was executed may be reported as not done: the result is quoted in a
    message in Markdown inside the same [try] as the execution, so that when Telegram
    rejects that message (an underscore in the result is enough) the owner reads that the
    action was not completed, that its approval is still pending, and to approve it again. *)
Lemma an_executed_action_may_be_reported_as_not_done (rid tool : string) (result : json)
    (code : Z) (description message : string) (v : BotWorld) (w' : World) :
  run (ApprovalExecution.resolveAndExecute executors rid "owner") (bw_world v) =
    (w', inr (ResolveAndExecuteResolved tool result)) ->
  next_answer (bw_put w' v) (confirmation rid result) = Some (GrammyError code description message) ->
  let v' := (run (TelegramBot.processApproval ownerChatId executors rid) v).1 in
  (exists trace, w_execs (bw_world v') = trace ++ [ExecOk rid tool]) /\
  map fst (bw_calls v') = map fst (bw_calls v) ++ [confirmation rid result; reported_as_failed message].
Proof.
  intros Hr Hn. cbv zeta. unfold TelegramBot.processApproval.
  rewrite run_catch, run_bind, run_on_services, Hr. cbn [fst snd].
  unfold TelegramBot.reply_markdown, TelegramBot.send.
  change (bc_sendMessage ownerChatId (text_of ("✅ *Acción Aprobada y Ejecutada* (" +:+ _)) markdown [])
    with (confirmation rid result).
  rewrite run_call, Hn. unfold TelegramBot.reply, TelegramBot.send. rewrite run_call. cbn [fst].
  split.
  - destruct (resolved_executed _ _ _ _ _ _ Hr) as (trace & Ht). by exists trace.
  - cbn [add_call bw_calls bw_put put_knowledge]. by rewrite !map_app, <- app_assoc.
Qed.
End Decisions.

(** ** The sessions stay short *)

Section Sessions.
Context {Space : VectorSpace} `{!UnicodeTable} `{Api : AuditApi} `{Crypto : NodeCrypto} `{Uuid : ZodUuid}.
Context {AgentService : AgentApi} {MemoryService : MemoryApi}.
Context (ownerChatId : Z) (executors : ToolExecutorRegistry) (autonomy : AutonomyConfig).
Context (budget : BudgetConfig) (tzOffset : Z) (requestInheritedMode : text -> option Z -> jin ModeChangeResult).

Definition short_transcript (s : TelegramSessionRow) : Prop :=
  (List.length (ts_transcript s) <= S MAX_SESSION_MESSAGES)%nat.

Definition short_sessions (v : BotWorld) : Prop := Forall short_transcript (bw_sessions v).

Definition keeps_short (v v' : BotWorld) : Prop := short_sessions v -> short_sessions v'.

#[local] Instance keeps_short_refl : Reflexive keeps_short.
Proof. by intros v Hs. Qed.

Lemma short_same v v' : bw_sessions v' = bw_sessions v -> keeps_short v v'.
Proof. unfold keeps_short, short_sessions. by intros ->. Qed.

Lemma short_services {A} (p : jin A) : steps keeps_short (on_services p).
Proof. apply (steps_zoom _ _ (fun _ _ => True)); [by intros w v _; apply short_same|]. induction p; cbn; auto. Qed.

Lemma short_memory {A} (p : prog KnowledgeWorld JinError A) : steps keeps_short (on_memory p).
Proof. apply (steps_zoom _ _ (fun _ _ => True)); [by intros w v _; apply short_same|]. induction p; cbn; auto. Qed.

Lemma short_call c : steps keeps_short (call c).
Proof. split; [intros v; by apply short_same|by intros [e|]]. Qed.

Lemma short_now : steps keeps_short bot_now.
Proof. by split. Qed.

Lemma short_reads {X} (f : BotWorld -> X) : steps keeps_short (reads f : bot X).
Proof. by split. Qed.

Lemma short_state f : steps keeps_short (update_state f : bot unit).
Proof. split; [intros v; by apply short_same|done]. Qed.

Lemma short_query {X} (f : BotWorld -> X) : steps keeps_short (bot_statement (fun v => (v, f v))).
Proof. apply steps_statement_on; intros v; by apply short_same. Qed.

Lemma short_oauth (o : option Z) : steps keeps_short (bot_statement (fun v => (put_oauth o v, tt))).
Proof. apply steps_statement_on; intros v; by apply short_same. Qed.

Lemma short_rewrite (f : TelegramSessionRow -> TelegramSessionRow) :
  (forall s, short_transcript s -> short_transcript (f s)) ->
  steps keeps_short (bot_statement (fun v => (put_sessions (map f (bw_sessions v)) v, tt))).
Proof.
  intros Hf. apply steps_statement_on; intros v; [by apply short_same|]. intros Hs.
  unfold short_sessions in *. cbn. apply Forall_map. eapply Forall_impl; [exact Hs|]. apply Hf.
Qed.
End Sessions.

Create HintDb sessions.
#[export] Hint Resolve short_services short_memory short_call short_now short_reads short_state short_query short_oauth : sessions.

(** One statement after the other, by the hints of [sessions]. *)
Ltac short_tac :=
  repeat first
    [ solve [auto with sessions]
    | apply steps_bind | apply steps_catch | apply steps_for_each
    | progress intros
    | done
    | case_match ].

Section Handlers.
Context {Space : VectorSpace} `{!UnicodeTable} `{Api : AuditApi} `{Crypto : NodeCrypto}.
Context {AgentService : AgentApi} {MemoryService : MemoryApi}.
Context (ownerChatId : Z) (executors : ToolExecutorRegistry) (autonomy : AutonomyConfig).
Context (budget : BudgetConfig) (tzOffset : Z) (requestInheritedMode : text -> option Z -> jin ModeChangeResult).

Lemma short_close s : steps keeps_short (TelegramBot.consolidateAndCloseSession s).
Proof.
  unfold TelegramBot.consolidateAndCloseSession. apply steps_bind; [short_tac|]. intros entries.
  apply steps_bind; [short_tac|]. intros t. apply steps_bind; [|done].
  apply short_rewrite. intros x Hx. unfold close_session. by destruct (String.eqb _ _).
Qed.

Lemma short_send mode body : steps keeps_short (TelegramBot.send ownerChatId mode body).
Proof. apply short_call. Qed.

Lemma short_reply body : steps keeps_short (TelegramBot.reply ownerChatId body).
Proof. apply short_call. Qed.

Lemma short_reply_markdown body : steps keeps_short (TelegramBot.reply_markdown ownerChatId body).
Proof. apply short_call. Qed.

Lemma short_reply_chunk chunk : steps keeps_short (TelegramBot.reply_chunk ownerChatId chunk).
Proof. unfold TelegramBot.reply_chunk. short_tac. Qed.

Lemma short_active : steps keeps_short TelegramBot.getActiveDbSession.
Proof. apply short_query. Qed.

Lemma short_updateLastRefreshedAt : steps keeps_short GoogleOAuth.updateLastRefreshedAt.
Proof. apply steps_bind; [apply short_now|]. intros t. apply short_oauth. Qed.

Lemma short_getDays : steps keeps_short GoogleOAuth.getDaysSinceLastRefresh.
Proof.
  unfold GoogleOAuth.getDaysSinceLastRefresh, GoogleOAuth.getLastRefreshedAt.
  apply steps_bind; [apply steps_bind; [apply short_query|short_tac]|short_tac].
Qed.

Lemma short_onModuleInit : steps keeps_short GoogleOAuth.onModuleInit.
Proof.
  apply steps_catch; [|done]. apply steps_bind; [apply short_query|]. intros [t|]; [done|].
  apply short_updateLastRefreshedAt.
Qed.
End Handlers.

#[export] Hint Resolve short_close short_send short_reply short_reply_markdown short_reply_chunk short_active short_updateLastRefreshedAt short_getDays short_onModuleInit : sessions.

(** ** Every handler *)

Section Clients.
Context {Space : VectorSpace} `{!UnicodeTable} `{Api : AuditApi} `{Crypto : NodeCrypto}.
Context {AgentService : AgentApi} {MemoryService : MemoryApi}.
Context (ownerChatId : Z) (executors : ToolExecutorRegistry) (autonomy : AutonomyConfig).
Context (budget : BudgetConfig) (tzOffset : Z) (requestInheritedMode : text -> option Z -> jin ModeChangeResult).

Lemma short_decisions rid :
  steps keeps_short (TelegramBot.processApproval ownerChatId executors rid) /\
  steps keeps_short (TelegramBot.processRejection ownerChatId rid) /\
  steps keeps_short (TelegramBot.showTaskDetails ownerChatId rid).
Proof.
  unfold TelegramBot.processApproval, TelegramBot.processRejection, TelegramBot.showTaskDetails.
  split; [|split]; short_tac.
Qed.

Lemma short_tasks : steps keeps_short (TelegramBot.handleTasksCommand ownerChatId).
Proof. unfold TelegramBot.handleTasksCommand. short_tac. Qed.

Lemma short_callback data : steps keeps_short (TelegramBot.on_callback ownerChatId executors data).
Proof.
  unfold TelegramBot.on_callback. short_tac; apply short_decisions.
Qed.

Lemma short_mode args : steps keeps_short (TelegramBot.on_mode ownerChatId autonomy requestInheritedMode args).
Proof. unfold TelegramBot.on_mode, TelegramBot.describeAutonomyMode. short_tac. Qed.

Lemma short_command name args :
  steps keeps_short
    (TelegramBot.on_command ownerChatId executors autonomy budget tzOffset requestInheritedMode name args).
Proof.
  pose proof short_decisions as Hd. pose proof short_tasks as Ht. pose proof (short_mode args) as Hm.
  unfold TelegramBot.on_command, TelegramBot.with_request, TelegramBot.on_budget, TelegramBot.on_unpause,
    TelegramBot.on_google_oauth_refreshed, TelegramBot.on_endsession, TelegramBot.on_memory_command,
    TelegramBot.record_acknowledgement.
  short_tac; apply Hd.
Qed.

Lemma short_event event : steps keeps_short (TelegramBot.on_event ownerChatId event).
Proof.
  destruct event; cbn [TelegramBot.on_event]; try done; apply short_call.
Qed.

Lemma short_checks :
  steps keeps_short (TelegramBot.checkBudgetAlerts ownerChatId budget tzOffset) /\
  steps keeps_short (TelegramBot.checkAuditIntegrityAlert ownerChatId) /\
  steps keeps_short TelegramBot.checkSessionInactivity.
Proof.
  unfold TelegramBot.checkBudgetAlerts, TelegramBot.checkKillSwitchAlert, TelegramBot.checkDailyBudgetAlert,
    TelegramBot.checkOAuthAlert, TelegramBot.checkAuditIntegrityAlert, TelegramBot.checkSessionInactivity,
    TelegramBot.notify_daily_threshold.
  split; [|split]; short_tac.
Qed.
End Clients.

(** ** The turn of the agent *)

Section Turns.
Context {Space : VectorSpace} `{!UnicodeTable} `{Api : AuditApi} `{Crypto : NodeCrypto}.
Context {AgentService : AgentApi} {MemoryService : MemoryApi}.
Context (ownerChatId : Z) (executors : ToolExecutorRegistry) (autonomy : AutonomyConfig).
Context (budget : BudgetConfig) (tzOffset : Z) (requestInheritedMode : text -> option Z -> jin ModeChangeResult).

(** What [currentSession] gives has room for one more exchange. *)
Definition has_room (r : JinError + TelegramSessionRow) : Prop :=
  match r with inr s => (List.length (ts_transcript s) < MAX_SESSION_MESSAGES)%nat | inl _ => True end.

Lemma memory_turns_short memories : (List.length (memory_turns memories) <= 2)%nat.
Proof. destruct memories; cbn; lia. Qed.

Lemma open_has_room text : steps_to keeps_short (TelegramBot.openSession text) has_room.
Proof.
  unfold TelegramBot.openSession. apply steps_to_any; [auto with sessions|done|]. intros id.
  apply steps_to_bind. apply steps_to_mono with (Q := fun r => match r with inr l => (List.length l <= 2)%nat | _ => True end).
  - apply steps_to_catch, steps_to_any; [auto with sessions|cbn; lia|]. intros memories. apply memory_turns_short.
  - intros [e|turns] Hturns; [done|]. apply steps_to_any; [auto with sessions|done|]. intros t.
    apply steps_to_statement_on; [intros v; by apply short_same| |intros v; cbn; unfold MAX_SESSION_MESSAGES; lia|done].
    intros v Hs. unfold short_sessions in *. cbn. apply Forall_app. split; [exact Hs|].
    constructor; [|done]. unfold short_transcript, MAX_SESSION_MESSAGES. cbn. lia.
Qed.

Lemma current_has_room text : steps_to keeps_short (TelegramBot.currentSession text) has_room.
Proof.
  unfold TelegramBot.currentSession. apply steps_to_any; [auto with sessions|done|]. intros [s|].
  - apply steps_to_any; [auto with sessions|done|]. intros t.
    destruct (TelegramBot.isInactive t s || TelegramBot.isTooLong s) eqn:E.
    + apply steps_to_any; [auto with sessions|done|]. intros _. apply open_has_room.
    + apply orb_false_iff in E as [_ E]. apply Nat.leb_gt in E. exact E.
  - apply steps_to_any; [auto with sessions|done|]. intros t. apply open_has_room.
Qed.

Lemma short_answer text :
  steps_to keeps_short (TelegramBot.answer_text ownerChatId text) (fun _ => True).
Proof.
  unfold TelegramBot.answer_text. apply steps_to_bind. eapply steps_to_mono; [apply current_has_room|].
  intros [e|session] Hroom; [done|]. apply steps_to_done; [|done].
  apply steps_bind; [auto with sessions|]. intros result. apply steps_bind; [auto with sessions|]. intros t.
  apply steps_bind.
  - apply short_rewrite. intros s Hs. unfold write_transcript. destruct (String.eqb _ _); [|done].
    unfold short_transcript. cbn [ts_transcript]. rewrite length_app. cbn in *. lia.
  - intros _. unfold TelegramBot.replyRich. short_tac.
Qed.

Lemma short_text text : steps_to keeps_short (TelegramBot.on_text ownerChatId text) (fun _ => True).
Proof.
  unfold TelegramBot.on_text. destruct (String.prefix "/" text); [done|].
  apply steps_to_any; [auto with sessions|done|]. intros [|]; cbn [negb].
  - apply steps_to_catch. eapply steps_to_mono; [apply short_answer|]. intros [e|[]] _; [|done].
    apply steps_to_steps. auto with sessions.
  - apply steps_to_steps. auto with sessions.
Qed.

Lemma short_update chat update :
  steps_to keeps_short
    (TelegramBot.handleWebhookUpdate ownerChatId executors autonomy budget tzOffset requestInheritedMode chat update)
    (fun _ => True).
Proof.
  unfold TelegramBot.handleWebhookUpdate. destruct (bool_decide _); [|done].
  destruct update; [apply steps_to_steps, short_command|apply steps_to_steps, short_callback|apply short_text|done].
Qed.

(** What runs in the process of the bot: the updates, the listeners of the events, the
    alarms of the clock, and any method of the other services. *)
Inductive bot_client : bot unit -> Prop :=
| client_update chat update :
    bot_client (TelegramBot.handleWebhookUpdate ownerChatId executors autonomy budget tzOffset requestInheritedMode
                  chat update)
| client_event event : bot_client (TelegramBot.on_event ownerChatId event)
| client_morning event : bot_client (TelegramBot.onMorningAlert ownerChatId event)
| client_budget : bot_client (TelegramBot.checkBudgetAlerts ownerChatId budget tzOffset)
| client_audit : bot_client (TelegramBot.checkAuditIntegrityAlert ownerChatId)
| client_inactivity : bot_client TelegramBot.checkSessionInactivity
| client_oauth : bot_client GoogleOAuth.onModuleInit
| client_service (p : jin unit) : bot_client (on_services p)
| client_memory (p : prog KnowledgeWorld JinError unit) : bot_client (on_memory p).

(** The clock of the process. *)
Definition bot_env (v v' : BotWorld) : Prop := bw_sessions v' = bw_sessions v.

Lemma short_client p : bot_client p -> steps_to keeps_short p (fun _ => True).
Proof.
  destruct (short_checks ownerChatId budget tzOffset) as (Hb & Ha & Hi).
  intros []; try solve [apply steps_to_steps; auto with sessions]; [apply short_update|..];
    apply steps_to_steps; first [apply short_event|apply short_call|done].
Qed.

(** Transcripts stay short: whatever updates, events and alarms run at the same time
    and however their statements interleave, no session holds more than thirty-one turns
    (the limit of thirty is tested before the two turns of an exchange are added to it, so
    that a row with twenty-nine is still written). *)
Lemma transcripts_stay_short (v0 : BotWorld) (c : config BotWorld JinError unit) :
  short_sessions v0 -> reachable bot_env bot_client v0 c -> short_sessions (c_store c).
Proof.
  apply steps_to_invariant; [exact short_client|]. intros v v' He. by apply short_same.
Qed.

(** The window of turns that the agent reads. *)
Lemma window_length transcript : (List.length (windowTurns transcript) <= MAX_WINDOW_MESSAGES + 2)%nat.
Proof.
  unfold windowTurns, slice_last. case_match; rewrite ?length_app, ?length_take, !length_drop; lia.
Qed.
End Turns.

Module TelegramExamples.
#[local] Existing Instance toy_crypto.
#[local] Existing Instance MemoryExamples.line.
#[local] Existing Instance FormatExamples.latin.

Definition agent_result (answer : string) : AgentTurnResult :=
  {| atr_finalResponse := answer; atr_plan := {| steps_of := [] |}; atr_pendingApprovals := [];
     atr_iterationsUsed := 1; atr_modelsUsed := []; atr_compactedHistory := None |}.

(** An agent that repeats its objective, and a memory without entries. *)
#[local] Instance echo : AgentApi :=
  {| agent_runTurn input := Ret (agent_result (ati_objective input)) |}.
#[local] Instance forgetful : MemoryApi :=
  {| memory_recall _ _ := Ret []; memory_consolidate _ _ := Ret [] |}.

Definition owner : Z := 42.
Definition parse_error : JinError :=
  GrammyError 400 "Bad Request: can't parse entities: unclosed tag" "400: can't parse entities".

Definition fresh_state : BotState :=
  {| lastNotifiedKillSwitchActive := false; notifiedDailyThresholdsToday := []; lastDailyThresholdResetDate := "";
     lastOAuthAlertNotifiedDate := ""; lastNotifiedChainLocked := false |}.

Definition bot_store (w : World) (answer : nat -> BotCall -> option JinError) : BotWorld :=
  {| bw_knowledge := {| kw_world := w; kw_memory := []; kw_corpus := []; kw_embeddings := []; kw_searches := (0, 0)%nat |};
     bw_sessions := []; bw_oauth := None; bw_calls := []; bw_answer := answer; bw_state := fresh_state |}.

(** Telegram as it is to an answer whose HTML it cannot parse, and to one whose Markdown
    it cannot. *)
Definition no_html (n : nat) (c : BotCall) : option JinError :=
  match c with bc_sendMessage _ _ html _ => Some parse_error | _ => None end.
Definition no_markdown (n : nat) (c : BotCall) : option JinError :=
  match c with bc_sendMessage _ _ markdown _ => Some parse_error | _ => None end.

Definition quiet_store : BotWorld := bot_store (empty_world 1000) (fun _ _ => None).

Definition update (body : string) : bot unit :=
  TelegramBot.handleWebhookUpdate owner ∅ AutonomyExamples.yaml_config yaml_budget 0 (fun _ _ => Throw DbError)
    (Some owner) (bu_text body).

Definition contents (s : TelegramSessionRow) : list string := map tt_content (ts_transcript s).

Definition with_session : BotWorld :=
  put_sessions [{| ts_id := "s"; ts_transcript := []; ts_status := "active"; ts_lastActivityAt := 1000 |}] quiet_store.

Example one_message :
  map contents (bw_sessions (run (update "hola") with_session).1) = [["hola"; "hola"]].
Proof. vm_compute. reflexivity. Qed.

(** Both handlers read the session before either writes it. *)
Definition together : list nat := [0; 0; 0; 0; 1; 1; 1; 1; 0; 0; 0; 0; 1; 1; 1; 1]%nat.

(** The exchange of the first message is lost. *)
Lemma concurrent_messages_lose_a_turn :
  map contents (bw_sessions (c_store (Effects.interleave together with_session [update "uno"; update "dos"]))) =
  [["dos"; "dos"]].
Proof. vm_compute. reflexivity. Qed.

(** Two sessions are open, and only the first is read again. *)
Lemma concurrent_messages_open_two_sessions :
  map ts_status (bw_sessions (c_store
    (Effects.interleave (together ++ together) quiet_store [update "uno"; update "dos"]))) =
  ["active"; "active"].
Proof. vm_compute. reflexivity. Qed.

(** [/mode constructor] is taken for a change of mode. *)
Lemma an_inherited_member_is_a_mode :
  parseModeCommand (units "constructor") = cmd_change (alias_inherited (units "constructor")) None.
Proof. vm_compute. reflexivity. Qed.

Example mode_commands :
  map (fun args => parseModeCommand (units args)) ["  "; "auto 3"; "SAFE"; "semi 0"; "auto 3 h"; "auto 1.5"; "turbo"] =
  [cmd_status; cmd_change (alias_mode AutoMode) (Some 3); cmd_change (alias_mode Supervised) None;
   cmd_invalid; cmd_invalid; cmd_invalid; cmd_invalid].
Proof. vm_compute. reflexivity. Qed.
End TelegramExamples.

(** ** Alerts *)

Section Alerts.
Context {Space : VectorSpace} (ownerChatId : Z).

(** A daily alert that Telegram does not take is not sent again. *)
Lemma a_lost_budget_alert_is_not_repeated (ratio threshold : Qc) (v v' : BotWorld) (e : JinError) :
  run (TelegramBot.notify_daily_threshold ownerChatId ratio threshold) v = (v', inl e) ->
  run (TelegramBot.notify_daily_threshold ownerChatId ratio threshold) v' = (v', inr tt).
Proof.
  unfold TelegramBot.notify_daily_threshold. rewrite !run_bind, !run_reads.
  destruct (qc_le threshold ratio) eqn:Hle; [|done]. cbn [andb].
  destruct (existsb _ _) eqn:Hin; cbn [negb]; [done|].
  unfold update_state. rewrite run_bind, run_writes. unfold TelegramBot.send. rewrite run_call.
  destruct (next_answer _ _) as [e'|]; [|done]. intros [= <- _]. cbn.
  assert (Hself : Qc_eq_bool threshold threshold = true) by (unfold Qc_eq_bool; by destruct (Qc_eq_dec _ _)).
  rewrite existsb_app. cbn. by rewrite Hself, orb_true_r.
Qed.

(** The alert of the kill switch is sent again until Telegram takes it. *)
Lemma a_lost_kill_switch_alert_is_repeated (v v' : BotWorld) (e : JinError) :
  lastNotifiedKillSwitchActive (bw_state v) = false ->
  run (TelegramBot.checkKillSwitchAlert ownerChatId) v = (v', inl e) ->
  lastNotifiedKillSwitchActive (bw_state v') = false.
Proof.
  intros Hn. unfold TelegramBot.checkKillSwitchAlert. rewrite run_bind, run_on_services.
  destruct (run KillSwitch.isActive _) as [w [e0|[|]]]; cbn [fst snd]; [by intros [= <- _]| |];
    rewrite run_bind, run_reads; cbn [bw_put put_knowledge bw_state]; rewrite Hn; [|done].
  unfold TelegramBot.send. cbn [andb negb]. rewrite run_bind, run_call. destruct (next_answer _ _); [|done].
  by intros [= <- _].
Qed.
End Alerts.

(** ** The theorems at a concrete input *)

Lemma no_answer_is_lost_to_its_format_witness :
  exists v' messages,
    run (@TelegramBot.replyRich MemoryExamples.line FormatExamples.latin TelegramExamples.owner "**hola** a_b" [])
      (TelegramExamples.bot_store (empty_world 1000) TelegramExamples.no_html) = (v', inr tt) /\
    delivered (bw_calls v') = messages /\
    Forall2 (arrives_as TelegramExamples.owner)
      (splitForTelegram (@TelegramBot.rich_html FormatExamples.latin "**hola** a_b" []) TELEGRAM_CHUNK_LIMIT) messages.
Proof.
  apply (@no_answer_is_lost_to_its_format MemoryExamples.line FormatExamples.latin TelegramExamples.owner
    "**hola** a_b" [] (TelegramExamples.bot_store (empty_world 1000) TelegramExamples.no_html)).
  intros n [chat body [| |] keyboard|] e [=<-]. split; [done|by eauto].
Defined.

Lemma an_executed_action_may_be_reported_as_not_done_witness :
  let rid := uuid_string 0 in
  let v := TelegramExamples.bot_store AtMostOnceExamples.one_pending TelegramExamples.no_markdown in
  let v' := (run (@TelegramBot.processApproval MemoryExamples.line (@auditService toy_crypto)
                    TelegramExamples.owner AtMostOnceExamples.mail_executors rid) v).1 in
  (exists trace, w_execs (bw_world v') = trace ++ [ExecOk rid "sendEmail"]) /\
  map fst (bw_calls v') =
    [confirmation TelegramExamples.owner rid JNull;
     reported_as_failed TelegramExamples.owner "400: can't parse entities"].
Proof.
  apply (@an_executed_action_may_be_reported_as_not_done MemoryExamples.line (@auditService toy_crypto)
    TelegramExamples.owner AtMostOnceExamples.mail_executors (uuid_string 0) "sendEmail" JNull 400
    "Bad Request: can't parse entities: unclosed tag" "400: can't parse entities"
    (TelegramExamples.bot_store AtMostOnceExamples.one_pending TelegramExamples.no_markdown)
    (run (@ApprovalExecution.resolveAndExecute (@auditService toy_crypto) AtMostOnceExamples.mail_executors
            (uuid_string 0) "owner")
       AtMostOnceExamples.one_pending).1);
    [vm_compute; reflexivity|done].
Defined.

Lemma transcripts_stay_short_witness :
  short_sessions (c_store
    (Effects.interleave TelegramExamples.together TelegramExamples.with_session
       [TelegramExamples.update "uno"; TelegramExamples.update "dos"])).
Proof.
  apply (@transcripts_stay_short MemoryExamples.line FormatExamples.latin (@auditService toy_crypto) toy_crypto
    TelegramExamples.echo TelegramExamples.forgetful TelegramExamples.owner ∅ AutonomyExamples.yaml_config yaml_budget 0
    (fun _ _ => Throw DbError) TelegramExamples.with_session).
  - repeat constructor.
  - eapply reachable_rtc; [|apply interleave_steps]. apply reachable_spawned. repeat constructor.
Defined.
