(* ===== verification/Delegation.v ===== *)
(** * Delegation: an objective, from its tickets to its final status

    [runObjective] and [runBatchesUntilDone] of
    [src/agent/orchestrator.service.ts].  The sub-agents of a batch run under
    [Promise.all] of [Promises.v], for any schedule; the loop runs with a fuel
    that [delegation_comes_to_an_end] proves large enough. *)
From S2P Require Import Prelude Effects Promises Js Registry Store AuditApi AuditLog Hitl Autonomy FeatureFlags Models Budget Frame Sanitizer Agent Orchestrator.
Local Open Scope stdpp_scope.
Local Open Scope Z_scope.
Local Open Scope jin_scope.

(** The interface [OrchestrationResult]. *)
Record OrchestrationResult := {
  or_runId : string;
  or_status : AgentRunStatus;
  or_finalResponse : option string;
  or_pendingApprovals : list (string * string)
}.

(** How [runBatchesUntilDone] ends: [false]; [true], with the sub-agents of the
    interrupted batch still running; or not within the fuel. *)
Inductive BatchesEnd :=
| batches_done
| batches_killed (running : list (jin unit))
| batches_out_of_fuel.

Module Delegation.
Section Service.
Context `{Api : AuditApi} `{Crypto : NodeCrypto} {Guarded : BudgetGuardedApi} {Parser : JsonParse}.
Context {Agents : AgentApi} (autonomy : AutonomyConfig) (config : AgentConfig).
(** How the sub-agents of each batch interleave, and those of an interrupted batch
    with the end of the run.  A batch is run at most once. *)
Context (schedule : list Ticket -> list nat) (background : list (option nat)).

(** The [for] over the chunks of one ready batch: [Some running] when the kill
    switch interrupted it. *)
Fixpoint runBatches (runId : string) (batches : list (list Ticket)) : jin (option (list (jin unit))) :=
  match batches with
  | [] => Ret None
  | batch :: batches' =>
      settled <- Promise_all (schedule batch) (map (Orchestrator.runSubAgentForTicket runId) batch) ;;
      match settled with
      | (None, _) => runBatches runId batches'
      | (Some err, running) => if is_kill_switch err then Ret (Some running) else Throw err
      end
  end.

Fixpoint runBatchesUntilDone (fuel : nat) (runId : string) (tickets : list Ticket) : jin BatchesEnd :=
  match fuel with
  | O => Ret batches_out_of_fuel
  | S fuel' =>
      active <- KillSwitch.isActive ;;
      if active : bool then Ret (batches_killed [])
      else
        match computeReadyBatch tickets with
        | [] => Ret batches_done
        | ready =>
            batches <- Router.lift (chunk ready (agc_maxConcurrentSubAgents config)) ;;
            interrupted <- runBatches runId batches ;;
            match interrupted with
            | Some running => Ret (batches_killed running)
            | None =>
                tickets' <- Ledger.getTickets runId ;;
                runBatchesUntilDone fuel' runId tickets'
            end
        end
  end.

(** From line 93 on: reconciliation and final status. *)
Definition reconcileRun (runId : string) : jin OrchestrationResult :=
  tickets <- Ledger.getTickets runId ;;
  commentsByTicket <- Orchestrator.loadCommentsByTicket tickets ;;
  reconciliationResult <- Reconciliation.reconcile runId tickets commentsByTicket ;;
  pendingApprovals <- Orchestrator.applyReconciliation autonomy runId reconciliationResult ;;
  (if (0 <? length pendingApprovals)%nat then Orchestrator.changed runId else Ret tt) ;;;
  tickets' <- Ledger.getTickets runId ;;
  let finalStatus := computeRunStatus tickets' (Some reconciliationResult) in
  Ledger.completeRun runId finalStatus (Some (ro_finalResponse reconciliationResult)) ;;;
  Orchestrator.changed runId ;;;
  Ret {| or_runId := runId; or_status := finalStatus;
         or_finalResponse := Some (ro_finalResponse reconciliationResult);
         or_pendingApprovals := pendingApprovals |}.

Definition killRun (runId : string) : jin OrchestrationResult :=
  Ledger.completeRun runId run_killed None ;;;
  Orchestrator.changed runId ;;;
  Ret {| or_runId := runId; or_status := run_killed; or_finalResponse := None;
         or_pendingApprovals := [] |}.

(** One round more than there are tickets is enough: each round settles one. *)
Definition runObjective (sessionId objective : string) : jin OrchestrationResult :=
  runId <- Ledger.createRun objective sessionId ;;
  drafts <- TicketDecomposition.decompose runId objective listRegisteredTools ;;
  tickets <- Ledger.createTickets runId drafts ;;
  Orchestrator.changed runId ;;;
  ended <- runBatchesUntilDone (S (length tickets)) runId tickets ;;
  match ended with
  | batches_killed running => alongside background running (killRun runId)
  | batches_done => reconcileRun runId
  | batches_out_of_fuel => Throw (PlainError "runBatchesUntilDone")
  end.
End Service.
End Delegation.

(** ** The tickets of a run *)

Definition run_tickets (runId : string) (w : World) : list Ticket :=
  List.filter (fun t => String.eqb (t_runId t) runId) (agentTickets (w_ledger w)).

Definition settled (s : AgentTicketStatus) : bool :=
  match s with tk_done | tk_failed | tk_blocked => true | _ => false end.

(** What no sub-agent changes of a ticket; and none is ever pending again. *)
Definition same_ticket (t t' : Ticket) : Prop :=
  t_id t' = t_id t /\ t_runId t' = t_runId t /\ t_dependsOn t' = t_dependsOn t /\
  (t_status t' = tk_pending -> t_status t = tk_pending).

(** Only the tickets of [ids] have changed. *)
Definition changed_ticket (ids : list string) (t t' : Ticket) : Prop :=
  same_ticket t t' /\ (t_id t ∉ ids -> t' = t).

Definition touches (ids : list string) (w w' : World) : Prop :=
  Forall2 (changed_ticket ids) (agentTickets (w_ledger w)) (agentTickets (w_ledger w')).

#[export] Instance same_ticket_preorder : PreOrder same_ticket.
Proof.
  split; [done|]. intros t1 t2 t3 (A1 & B1 & C1 & D1) (A2 & B2 & C2 & D2).
  unfold same_ticket. splits; try congruence; auto.
Qed.

#[export] Instance changed_ticket_preorder ids : PreOrder (changed_ticket ids).
Proof.
  split; [done|]. intros t1 t2 t3 [S1 E1] [S2 E2].
  split; [by etrans|]. intros H. rewrite E2 by (by rewrite (proj1 S1)). auto.
Qed.

#[export] Instance touches_preorder ids : PreOrder (touches ids).
Proof.
  unfold touches. split; [intros w; reflexivity|]. intros w1 w2 w3 H1 H2. by etrans.
Qed.

Lemma touches_mono ids ids' w w' :
  (forall i, i ∈ ids -> i ∈ ids') -> touches ids w w' -> touches ids' w w'.
Proof.
  intros Hi H. eapply Forall2_impl; [exact H|]. intros t t' [H1 H2]. split; [done|]. auto.
Qed.

Lemma touches_same ids w w' :
  agentTickets (w_ledger w') = agentTickets (w_ledger w) -> touches ids w w'.
Proof. unfold touches. intros ->. reflexivity. Qed.

(** ** The protocol of a sub-agent: it only writes to its own ticket *)

(** What the sub-agent of the ticket [i] knows: the status it last wrote. *)
Definition knows_status (i : string) (ph : option AgentTicketStatus) (w : World) : Prop :=
  forall s, ph = Some s -> Forall (fun t => t_id t = i -> t_status t = s) (agentTickets (w_ledger w)).

Definition writes_own (i : string) (ph : option AgentTicketStatus) (w w' : World)
    (ph' : option AgentTicketStatus) : Prop :=
  touches [i] w w' /\ knows_status i ph' w'.

Lemma knows_status_stable i j ph phj w w' ph' :
  i <> j -> knows_status i ph w -> writes_own j phj w w' ph' -> knows_status i ph w'.
Proof.
  intros Hij Hk [Ht _] s Hs. specialize (Hk s Hs). unfold touches in Ht.
  induction Ht as [|x y l k [Hxy He] Ht IH]; constructor.
  - apply Forall_cons in Hk as [Hx _]. intros Hy.
    destruct Hxy as (Hid & _). rewrite He; [apply Hx; congruence|]. 
    intros H%list_elem_of_singleton. congruence.
  - apply IH. by apply Forall_cons in Hk as [_ Hk].
Qed.

Definition same_tickets (w w' : World) : Prop := agentTickets (w_ledger w') = agentTickets (w_ledger w).

#[export] Instance same_tickets_preorder : PreOrder same_tickets.
Proof. split; [done|]. intros w1 w2 w3. unfold same_tickets. congruence. Qed.

Lemma writes_own_same i ph w w' : knows_status i ph w -> same_tickets w w' -> writes_own i ph w w' ph.
Proof.
  intros Hk Hs. split; [by apply touches_same|]. unfold knows_status. unfold same_tickets in Hs. by rewrite Hs.
Qed.

Abbreviation abiding i := (follows (knows_status i) (writes_own i)).

(** A database statement, by what its body does. *)
Lemma abiding_db {X} i ph ph' (f : World -> World * X) (P : X -> Prop) :
  (forall w, knows_status i ph w -> writes_own i ph w (f (tick w)).1 ph' /\ P (f (tick w)).2) ->
  abiding i ph (db f) (fun ph1 r => match r with inr x => ph1 = ph' /\ P x | inl e => ph1 = ph /\ e = DbError end).
Proof.
  intros Hf w Hw. unfold db_act. destruct (faulty w).
  - exists ph. split; [by apply writes_own_same|done].
  - specialize (Hf w Hw). destruct (f (tick w)) as [w' x]. cbn in *. exists ph'. tauto.
Qed.

Lemma abiding_read {X} i ph (f : World -> X) :
  abiding i ph (db_read f) (fun ph1 r => ph1 = ph /\ forall e, r = inl e -> e = DbError).
Proof.
  eapply follows_mono; [apply (abiding_db i ph ph (fun w => (w, f w)) (fun _ => True))|].
  - intros w Hw. split; [by apply writes_own_same|done].
  - intros ph' [e|x] [-> H]; (split; [done|]); [by intros e' [= <-]|done].
Qed.

(** Rewriting the ticket [i] in a way that [same_ticket] allows. *)
Lemma touches_on_ticket i (g : Ticket -> Ticket) w :
  (forall t, same_ticket t (g t)) ->
  touches [i] w (upd_ledger (set_tickets (on_ticket i g)) (tick w)).
Proof.
  intros Hg. unfold touches. cbn. unfold on_ticket.
  induction (agentTickets (w_ledger w)) as [|t l IH]; cbn; constructor; [|exact IH].
  destruct (String.eqb_spec (t_id t) i) as [<-|Hn]; [|done].
  split; [apply Hg|]. intros []. by left.
Qed.

Lemma abiding_status i ph s r :
  s <> tk_pending ->
  abiding i ph (Ledger.updateTicketStatus i s r)
    (fun ph' x => match x with inr _ => ph' = Some s | inl e => e = DbError end).
Proof.
  intros Hs. eapply follows_mono; [apply (abiding_db i ph (Some s) _ (fun _ => True))|].
  - intros w Hw. split; [|done]. split; [by apply touches_on_ticket|]. intros s' [= <-]. cbn.
    unfold on_ticket. apply Forall_fmap, Forall_true. intros t. cbn.
    by destruct (String.eqb_spec (t_id t) i).
  - intros ph' [e|x]; tauto.
Qed.

Lemma abiding_assign i s sub :
  abiding i (Some s) (Ledger.assignSubAgent i sub)
    (fun ph' x => ph' = Some s /\ forall e, x = inl e -> e = DbError).
Proof.
  eapply follows_mono; [apply (abiding_db i (Some s) (Some s) _ (fun _ => True))|].
  - intros w Hw. split; [|done]. split; [by apply touches_on_ticket|]. intros s' [= <-]. cbn.
    specialize (Hw s eq_refl). unfold on_ticket. apply Forall_fmap. eapply Forall_impl; [exact Hw|].
    intros t Ht. cbn. by destruct (String.eqb (t_id t) i).
  - intros ph' [e|x] [-> H]; (split; [done|]); [by intros e' [= <-]|done].
Qed.

Lemma abiding_comment i ph ty au k b :
  abiding i ph (Ledger.addComment i ty au k b) (fun ph' x => ph' = ph /\ forall e, x = inl e -> e = DbError).
Proof.
  unfold Ledger.addComment, db_checked. apply follows_bind. eapply follows_mono;
    [apply (abiding_db i ph ph _ (fun _ => True))|].
  - intros w Hw. split; [|done]. destruct (existsb _ _); by apply writes_own_same.
  - intros ph' [e|[]] [-> H]; cbn; (split; [done|]); [by intros e' [= <-]|done|by intros e [= <-]].
Qed.

Lemma abiding_changed i ph runId :
  abiding i ph (Orchestrator.changed runId) (fun ph' x => ph' = ph /\ x = inr tt).
Proof. intros w Hw. exists ph. split; [by apply writes_own_same|done]. Qed.

Section SubAgent.
Context {Agents : AgentApi} (Hagents : forall input, ati_onProgress input = None -> steps same_tickets (agent_runTurn input)).

(** How a sub-agent ends. *)
Definition sub_agent_end (i : string) (ph : option AgentTicketStatus) (r : JinError + unit) : Prop :=
  match r with
  | inr _ => exists s, ph = Some s /\ settled s = true
  | inl e => e = DbError \/ is_kill_switch e = true
  end.

Lemma abiding_failed runId ticket ph err :
  abiding (t_id ticket) ph (Orchestrator.ticketFailed runId ticket err) (sub_agent_end (t_id ticket)).
Proof.
  unfold Orchestrator.ticketFailed. destruct (is_kill_switch err) eqn:Ek; [by right|].
  apply follows_bind. eapply follows_mono; [by apply abiding_status|].
  intros ph1 [e|[]] H1; [by left|]. apply follows_bind. eapply follows_mono; [apply abiding_comment|].
  intros ph2 [e|[]] [-> H2]; [left; by apply H2|].
  eapply follows_mono; [apply abiding_changed|]. intros ph3 r [-> ->]. by exists tk_failed.
Qed.

Lemma abiding_sub_agent runId ticket :
  abiding (t_id ticket) None (Orchestrator.runSubAgentForTicket runId ticket) (sub_agent_end (t_id ticket)).
Proof.
  unfold Orchestrator.runSubAgentForTicket.
  apply follows_bind. eapply follows_mono; [by apply abiding_status|].
  intros ph1 [e|[]] H1; [by left|]. subst ph1.
  apply follows_bind. eapply follows_mono; [apply abiding_assign|].
  intros ph2 [e|[]] [-> H2]; [left; by apply H2|].
  apply follows_bind. eapply follows_mono; [apply abiding_changed|]. intros ph3 r [-> ->].
  apply follows_bind. unfold Ledger.getCompletedSiblings, Ledger.getTickets.
  apply follows_bind. eapply follows_mono; [apply abiding_read|].
  intros ph4 [e|siblings] [-> H4]; [left; by apply H4|]. cbn [follows]. cbv zeta.
  apply follows_catch, follows_bind. eapply follows_mono.
  { apply (follows_steps _ _ _ same_tickets); [apply writes_own_same|by apply Hagents]. }
  intros ph5 [e|result] ->; [apply abiding_failed|].
  apply follows_bind. eapply follows_mono; [apply abiding_comment|].
  intros ph6 [e|[]] [-> H6]; [apply abiding_failed|].
  apply follows_bind. eapply follows_mono; [apply abiding_status; by case_match|].
  intros ph7 [e|[]] H7; [apply abiding_failed|]. subst ph7.
  eapply follows_mono; [apply abiding_changed|]. intros ph8 r [-> ->].
  eexists. split; [reflexivity|]. by case_match.
Qed.
End SubAgent.

(** ** Batches *)

Definition settled_in (w : World) (i : string) : Prop :=
  Forall (fun t => t_id t = i -> settled (t_status t) = true) (agentTickets (w_ledger w)).

Lemma settled_in_touches ids w w' i : i ∉ ids -> touches ids w w' -> settled_in w i -> settled_in w' i.
Proof.
  unfold settled_in, touches. intros Hi Ht. induction Ht as [|x y l k [(Hid & _) He] _ IH]; intros H; [done|].
  apply Forall_cons in H as [Hx H]. constructor; [|auto]. intros <-. rewrite He; [apply Hx; congruence|].
  congruence.
Qed.

Lemma chunk_concat {T} (l : list T) n : 1 <= n -> exists batches, chunk l n = inr batches /\ concat batches = l.
Proof.
  intros Hn. unfold chunk. destruct (Z.ltb_spec n 1); [lia|]. eexists. split; [done|].
  apply slices_concat; lia.
Qed.

Section Batches.
Context {Agents : AgentApi} (Hagents : forall input, ati_onProgress input = None -> steps same_tickets (agent_runTurn input)).
Context (config : AgentConfig) (schedule : list Ticket -> list nat).

Lemma run_batch runId batch w :
  NoDup (map t_id batch) ->
  exists w' oe rest,
    run (Promise_all (schedule batch) (map (Orchestrator.runSubAgentForTicket runId) batch)) w =
      (w', inr (oe, rest)) /\
    touches (map t_id batch) w w' /\
    match oe with
    | None => Forall (settled_in w') (map t_id batch)
    | Some e => e = DbError \/ is_kill_switch e = true
    end.
Proof.
  intros Hnd.
  set (ts := map (fun t => Thread (t_id t) None (Orchestrator.runSubAgentForTicket runId t)) batch
    : list (@thread World JinError string (option AgentTicketStatus))).
  assert (Hids : map th_id ts = map t_id batch) by (unfold ts; by rewrite map_map).
  assert (Htask : map th_task ts = map (Orchestrator.runSubAgentForTicket runId) batch)
    by (unfold ts; by rewrite map_map).
  destruct (run_Promise_all (E := JinError) knows_status writes_own (fun _ _ _ _ _ H => proj2 H) knows_status_stable
    (touches (map t_id batch)) (map t_id batch)) with (Q := sub_agent_end) (schedule := schedule batch)
    (ts := ts) (w := w) as (w' & oe & rest & Hrun & HR & _ & Ho).
  - intros i ph w1 w2 ph' Hi [Ht _]. eapply touches_mono; [|exact Ht]. by intros j ->%list_elem_of_singleton.
  - by rewrite Hids.
  - rewrite Hids. by apply Forall_forall.
  - unfold ts. apply Forall_fmap, Forall_true. intros t. by apply abiding_sub_agent.
  - unfold ts. apply Forall_fmap, Forall_true. by intros t s.
  - rewrite Htask in Hrun. exists w', oe, rest. splits; [done|done|].
    destruct oe as [e|]; cbn in Ho.
    + by destruct Ho as (i & ph & _ & He).
    + destruct Ho as [_ Ho]. rewrite Hids in Ho. eapply Forall_impl; [exact Ho|].
      intros i (ph & Hk & s & -> & Hs). unfold settled_in. eapply Forall_impl; [exact (Hk s eq_refl)|].
      intros t Ht Hi. by rewrite Ht.
Qed.

Lemma run_runBatches runId batches w :
  NoDup (map t_id (concat batches)) ->
  exists w' r, run (Delegation.runBatches schedule runId batches) w = (w', r) /\
    touches (map t_id (concat batches)) w w' /\
    match r with
    | inl e => e = DbError
    | inr None => Forall (settled_in w') (map t_id (concat batches))
    | inr (Some _) => True
    end.
Proof.
  revert w. induction batches as [|batch batches IH]; intros w Hnd; cbn.
  { by exists w, (inr None). }
  cbn in Hnd. rewrite map_app in Hnd. apply NoDup_app in Hnd as (Hb & Hd & Hbs).
  rewrite run_bind. destruct (run_batch runId batch w Hb) as (w1 & oe & rest & -> & Ht & Ho). cbn.
  rewrite map_app. assert (Ht1 : touches (map t_id batch ++ map t_id (concat batches)) w w1).
  { eapply touches_mono; [|exact Ht]. intros i Hi. apply elem_of_app. by left. }
  destruct oe as [e|].
  - destruct (is_kill_switch e) eqn:Ek; cbn; [by exists w1, (inr (Some rest))|].
    exists w1, (inl e). splits; [done|done|]. by destruct Ho as [|Ho]; [|congruence].
  - destruct (IH w1 Hbs) as (w2 & r & -> & Ht2 & Hr). exists w2, r. splits; [done| |].
    + etrans; [exact Ht1|]. eapply touches_mono; [|exact Ht2]. intros i Hi. apply elem_of_app. by right.
    + destruct r as [e|[]]; [done|done|]. apply Forall_app. split; [|done].
      rewrite !Forall_forall in *. intros i Hi. eapply settled_in_touches; [|exact Ht2|by apply Ho].
      by apply Hd.
Qed.
End Batches.

(** ** The loop *)

Definition pending_count (tickets : list Ticket) : nat :=
  length (List.filter (fun t => bool_decide (t_status t = tk_pending)) tickets).

Definition idle (tickets : list Ticket) : Prop := Forall (fun t => t_status t <> tk_in_progress) tickets.

Lemma NoDup_map_filter {A B} (g : A -> B) (p : A -> bool) l :
  NoDup (map g l) -> NoDup (map g (List.filter p l)).
Proof.
  induction l as [|x l IH]; cbn; [done|]. intros [Hx Hl]%NoDup_cons.
  destruct (p x); cbn; [|auto]. apply NoDup_cons. split; [|auto].
  intros (y & Hy & Hin)%list_elem_of_fmap. apply Hx. apply list_elem_of_fmap. exists y. split; [done|].
  apply list_elem_of_In in Hin. apply filter_In in Hin as [Hin _]. by apply list_elem_of_In.
Qed.

Lemma touches_ids ids w w' :
  touches ids w w' -> map t_id (agentTickets (w_ledger w')) = map t_id (agentTickets (w_ledger w)).
Proof. unfold touches. induction 1 as [|x y l k [(Hid & _) _] _ IH]; cbn; congruence. Qed.

Lemma touches_run ids runId w w' :
  touches ids w w' -> Forall2 (changed_ticket ids) (run_tickets runId w) (run_tickets runId w').
Proof.
  unfold touches, run_tickets. induction 1 as [|x y l k Hxy _ IH]; cbn; [done|].
  assert (Hr : t_runId y = t_runId x) by apply Hxy. rewrite Hr.
  destruct (String.eqb (t_runId x) runId); [by constructor|done].
Qed.

Lemma pending_count_le ids l l' : Forall2 (changed_ticket ids) l l' -> (pending_count l' <= pending_count l)%nat.
Proof.
  unfold pending_count. induction 1 as [|x y l k [(_ & _ & _ & Hp) _] _ IH]; cbn; [done|].
  destruct (bool_decide_reflect (t_status y = tk_pending)) as [Hy|];
    destruct (bool_decide_reflect (t_status x = tk_pending)); cbn; try lia. by apply Hp in Hy.
Qed.

Lemma pending_count_lt ids l l' i :
  Forall2 (changed_ticket ids) l l' ->
  (exists t, t ∈ l /\ t_id t = i /\ t_status t = tk_pending) ->
  Forall (fun t => t_id t = i -> settled (t_status t) = true) l' ->
  (pending_count l' < pending_count l)%nat.
Proof.
  intros H. induction H as [|x y l k Hxy H IH]; intros (t & Ht & Hi & Hp) Hs; [by apply not_elem_of_nil in Ht|].
  apply Forall_cons in Hs as [Hy Hs]. destruct Hxy as [(Hid & _ & _ & Hpd) _].
  pose proof (pending_count_le ids l k H) as Hle. unfold pending_count in *. cbn.
  apply elem_of_cons in Ht as [<-|Ht].
  - rewrite (bool_decide_eq_true_2 _ Hp). rewrite bool_decide_eq_false_2; [cbn; lia|].
    intros E. rewrite Hid in Hy. specialize (Hy Hi). by rewrite E in Hy.
  - assert (Hlt := IH (ex_intro _ t (conj Ht (conj Hi Hp))) Hs).
    destruct (bool_decide_reflect (t_status y = tk_pending)) as [E|];
      destruct (bool_decide_reflect (t_status x = tk_pending)); cbn; try lia. by apply Hpd in E.
Qed.

Lemma idle_after ids l l' :
  Forall2 (changed_ticket ids) l l' -> idle l ->
  Forall (fun t => t_id t ∈ ids -> settled (t_status t) = true) l' -> idle l'.
Proof.
  unfold idle. induction 1 as [|x y l k [(Hid & _) He] _ IH]; intros Hl Hs; [done|].
  apply Forall_cons in Hl as [Hx Hl], Hs as [Hy Hs]. constructor; [|auto].
  destruct (decide (t_id x ∈ ids)) as [Hin|Hin]; [|by rewrite He].
  intros E. rewrite Hid in Hy. specialize (Hy Hin). by rewrite E in Hy.
Qed.

Lemma settled_run ids runId w :
  Forall (settled_in w) ids ->
  Forall (fun t => t_id t ∈ ids -> settled (t_status t) = true) (run_tickets runId w).
Proof.
  intros H. rewrite Forall_forall in H. apply Forall_forall. intros t Ht Hi.
  unfold run_tickets in Ht. apply list_elem_of_In, filter_In in Ht as [Ht _].
  specialize (H _ Hi). unfold settled_in in H. rewrite Forall_forall in H. apply H; [|done].
  by apply list_elem_of_In.
Qed.

Lemma run_isActive w :
  exists w', unchanged w_ledger w w' /\
    (run KillSwitch.isActive w = (w', inl DbError) \/ exists b, run KillSwitch.isActive w = (w', inr b)).
Proof.
  unfold KillSwitch.isActive, db_read. rewrite run_db. destruct (faulty w).
  - exists (tick w). split; [done|by left].
  - eexists. split; [|right; eexists; reflexivity]. done.
Qed.

Section Loop.
Context {Agents : AgentApi} (Hagents : forall input, ati_onProgress input = None -> steps same_tickets (agent_runTurn input)).
Context (config : AgentConfig) (schedule : list Ticket -> list nat).
Context (Hconfig : 1 <= agc_maxConcurrentSubAgents config).

Lemma run_loop fuel runId w :
  NoDup (map t_id (agentTickets (w_ledger w))) -> idle (run_tickets runId w) ->
  (pending_count (run_tickets runId w) < fuel)%nat ->
  match run (Delegation.runBatchesUntilDone config schedule fuel runId (run_tickets runId w)) w with
  | (_, inl e) => e = DbError
  | (w', inr batches_done) =>
      NoDup (map t_id (agentTickets (w_ledger w'))) /\ idle (run_tickets runId w') /\
      computeReadyBatch (run_tickets runId w') = [] /\
      Forall2 same_ticket (run_tickets runId w) (run_tickets runId w')
  | (_, inr (batches_killed _)) => True
  | (_, inr batches_out_of_fuel) => False
  end.
Proof.
  revert w. induction fuel as [|fuel IH]; intros w Hnd Hidle Hf; [lia|]. cbn [Delegation.runBatchesUntilDone].
  rewrite run_bind. destruct (run_isActive w) as (w1 & H0 & [->|[active ->]]); [done|].
  assert (H1 : same_tickets w w1) by (unfold same_tickets; by rewrite H0).
  destruct active; [done|].
  assert (Er : run_tickets runId w1 = run_tickets runId w) by (unfold run_tickets; by rewrite H1).
  rewrite <- Er in *. rewrite <- (H1 : agentTickets (w_ledger w1) = _) in Hnd.
  destruct (computeReadyBatch (run_tickets runId w1)) as [|t ts] eqn:Eb.
  { cbn. splits; [done|done|done|]. apply Forall_Forall2_diag, Forall_true. by intros t. }
  destruct (chunk_concat (t :: ts) _ Hconfig) as (batches & -> & Hcat). cbn [Router.lift bind].
  rewrite run_bind.
  destruct (run_runBatches Hagents schedule runId batches w1) as (w2 & r & -> & Ht & Hr).
  { rewrite Hcat, <- Eb. by do 2 apply NoDup_map_filter. }
  destruct r as [e|[rest|]]; [exact Hr|done|].
  rewrite run_bind. unfold Ledger.getTickets, db_read at 1. rewrite run_db.
  destruct (faulty w2); [done|]. rewrite Hcat in Ht, Hr.
  change (List.filter _ _) with (run_tickets runId (tick w2)).
  pose proof (touches_run _ runId _ _ Ht) as Hrun. change (run_tickets runId w2) with (run_tickets runId (tick w2)) in Hrun.
  pose proof (settled_run _ runId _ Hr) as Hset. change (run_tickets runId w2) with (run_tickets runId (tick w2)) in Hset.
  assert (Hin : t ∈ run_tickets runId w1 /\ t_status t = tk_pending).
  { assert (Hin : In t (computeReadyBatch (run_tickets runId w1))) by (rewrite Eb; by left).
    apply filter_In in Hin as [Hin Hr1]. split; [by apply list_elem_of_In|].
    unfold is_ready in Hr1. apply andb_true_iff in Hr1 as [Hr1 _]. by apply bool_decide_eq_true in Hr1. }
  assert (Hlt : (pending_count (run_tickets runId (tick w2)) < fuel)%nat).
  { assert (Hlt : (pending_count (run_tickets runId (tick w2)) < pending_count (run_tickets runId w1))%nat); [|lia].
    apply (pending_count_lt _ _ _ (t_id t) Hrun); [exists t; tauto|].
    eapply Forall_impl; [exact Hset|]. intros t' Ht' Hid. apply Ht'. rewrite Hid. by left. }
  assert (Hnd2 : NoDup (map t_id (agentTickets (w_ledger (tick w2))))).
  { change (agentTickets (w_ledger (tick w2))) with (agentTickets (w_ledger w2)). by rewrite (touches_ids _ _ _ Ht). }
  specialize (IH (tick w2) Hnd2 (idle_after _ _ _ Hrun Hidle Hset) Hlt). cbn [snd].
  destruct (run _ (tick w2)) as [w3 [e|[|rest|]]]; [done| |done|done].
  destruct IH as (A & B & C & D). splits; [done|done|done|].
  etrans; [|exact D]. eapply Forall2_impl; [exact Hrun|by intros ?? []].
Qed.
End Loop.

(** ** The end of a run *)

Lemma acyclic_same l l' :
  Forall2 same_ticket l l' -> acyclic l -> acyclic l'.
Proof.
  intros H [rank Hr]. exists rank. intros t' dep Ht' Hdep.
  apply list_elem_of_lookup in Ht' as [n Ht']. destruct (Forall2_lookup_r _ _ _ _ _ H Ht') as (t & Ht & S).
  destruct S as (Hid & _ & Hd & _). rewrite Hd in Hdep.
  destruct (Hr t dep (list_elem_of_lookup_2 _ _ _ Ht) Hdep) as (d & -> & Hin & Hlt).
  apply list_elem_of_lookup in Hin as [m Hm]. destruct (Forall2_lookup_l _ _ _ _ _ H Hm) as (d' & Hd' & S').
  exists d'. rewrite (proj1 S'), Hid. splits; [done|by eapply list_elem_of_lookup_2|done].
Qed.

Section Termination.
Context {Agents : AgentApi} (config : AgentConfig) (schedule : list Ticket -> list nat).

(** C18. Delegation comes to an end: however the sub-agents of each batch interleave
    and whatever they do, as long as they leave the ledger alone, the loop over
    the batches ends within one round more than there are tickets; it fails only
    if the database does; and when it ends without the kill switch, no ticket is
    left in progress, none that could start is waiting, and, if the dependencies
    are acyclic, every ticket is done unless one has failed or is blocked. *)
Theorem delegation_comes_to_an_end (runId : string) (w : World) :
  (forall input, ati_onProgress input = None -> steps same_tickets (agent_runTurn input)) ->
  1 <= agc_maxConcurrentSubAgents config ->
  NoDup (map t_id (agentTickets (w_ledger w))) ->
  let tickets := run_tickets runId w in
  Forall (fun t => t_status t = tk_pending) tickets ->
  match run (Delegation.runBatchesUntilDone config schedule (S (length tickets)) runId tickets) w with
  | (_, inl e) => e = DbError
  | (_, inr (batches_killed _)) => True
  | (_, inr batches_out_of_fuel) => False
  | (w', inr batches_done) =>
      let final := run_tickets runId w' in
      computeReadyBatch final = [] /\ Forall (fun t => t_status t <> tk_in_progress) final /\
      (acyclic tickets -> Forall (fun t => t_status t <> tk_failed /\ t_status t <> tk_blocked) final ->
       Forall (fun t => t_status t = tk_done) final)
  end.
Proof.
  intros Hagents Hconfig Hnd tickets Hp.
  assert (Hidle : idle tickets) by (eapply Forall_impl; [exact Hp|]; intros t ->; done).
  assert (Hf : (pending_count tickets < S (length tickets))%nat).
  { pose proof (List.filter_length_le (fun t => bool_decide (t_status t = tk_pending)) tickets).
    unfold pending_count. lia. }
  pose proof (run_loop Hagents config schedule Hconfig _ runId w Hnd Hidle Hf) as H. fold tickets in H.
  destruct (run _ w) as [w' [e|[|rest|]]]; [done| |done|done].
  destruct H as (Hnd' & Hi & Hb & Hs). cbv zeta. splits; [done|done|]. intros Ha Hgood.
  apply acyclic_ready; [by apply NoDup_map_filter|by eapply acyclic_same| |done].
  unfold idle in Hi. rewrite !Forall_forall in *. intros t Ht. specialize (Hi t Ht). specialize (Hgood t Ht).
  destruct (t_status t); naive_solver.
Qed.
End Termination.

(** ** The row of a run *)

Definition runs (w : World) : gmap string AgentOrchestrationRunRow := agentOrchestrationRuns (w_ledger w).

Abbreviation keeps_runs := (steps (unchanged runs)).

Lemma keeps_runs_ledger {A} (p : jin A) : keeps_ledger p -> keeps_runs p.
Proof. apply steps_mono. intros w w'. unfold unchanged, runs. by intros ->. Qed.

Lemma keeps_runs_db {X} (f : World -> World * X) :
  (forall w, runs (f w).1 = runs w) -> keeps_runs (db f).
Proof. intros H. apply steps_db; [done|]. intros w. unfold unchanged. by rewrite H. Qed.

Lemma keeps_runs_status i s r : keeps_runs (Ledger.updateTicketStatus i s r).
Proof. by apply keeps_runs_db. Qed.
Lemma keeps_runs_assign i s : keeps_runs (Ledger.assignSubAgent i s).
Proof. by apply keeps_runs_db. Qed.
Lemma keeps_runs_comment i ty au k b : keeps_runs (Ledger.addComment i ty au k b).
Proof.
  apply steps_bind; [|by intros []]. apply keeps_runs_db. intros w. by destruct (existsb _ _).
Qed.

#[export] Hint Resolve keeps_runs_status keeps_runs_assign keeps_runs_comment : frames.
#[export] Hint Extern 5 (steps (unchanged runs) _) => (apply keeps_runs_ledger; auto with frames; fail) : frames.

Section Row.
Context `{Laws : AuditApiLaws} `{Crypto : NodeCrypto} {Guarded : BudgetGuardedApi} {Parser : JsonParse}.
Context {Agents : AgentApi} (autonomy : AutonomyConfig) (config : AgentConfig).
Context (schedule : list Ticket -> list nat) (background : list (option nat)).
Context (Hagents : forall input, ati_onProgress input = None -> keeps_ledger (agent_runTurn input)).
Context (Hguarded : forall t r h s, keeps_ledger (guarded_complete t r h s)).

#[local] Hint Resolve Hagents Hguarded : frames.

Lemma keeps_runs_sub_agent runId ticket : keeps_runs (Orchestrator.runSubAgentForTicket runId ticket).
Proof.
  unfold Orchestrator.runSubAgentForTicket, Orchestrator.ticketFailed, Ledger.getCompletedSiblings,
    Ledger.getTickets, Orchestrator.changed. frame_tac.
Qed.

Lemma keeps_runs_comments tickets : keeps_runs (Orchestrator.loadCommentsByTicket tickets).
Proof. induction tickets as [|t l IH]; cbn [Orchestrator.loadCommentsByTicket]; unfold Ledger.getComments; frame_tac. Qed.

Lemma keeps_runs_conflicts runId conflicts : keeps_runs (Orchestrator.applyConflicts autonomy runId conflicts).
Proof.
  induction conflicts as [|c l IH]; cbn [Orchestrator.applyConflicts]; frame_tac.
  unfold Orchestrator.applyConflict. frame_tac.
Qed.

Lemma keeps_runs_fresh n : keeps_runs (Ledger.fresh_ids n).
Proof. induction n as [|n IH]; cbn [Ledger.fresh_ids]; frame_tac. Qed.

Lemma keeps_runs_create runId drafts : keeps_runs (Ledger.createTickets runId drafts).
Proof.
  unfold Ledger.createTickets. apply steps_bind; [apply keeps_runs_fresh|]. frame_tac. by apply keeps_runs_db.
Qed.

Lemma run_batches_runs runId batches w :
  exists w' r, run (Delegation.runBatches schedule runId batches) w = (w', r) /\ unchanged runs w w' /\
    forall running, r = inr (Some running) -> Forall keeps_runs running.
Proof.
  revert w. induction batches as [|batch batches IH]; intros w; cbn [Delegation.runBatches].
  { by exists w, (inr None). }
  rewrite run_bind.
  destruct (run_Promise_all_steps (unchanged runs) (schedule batch)
    (map (Orchestrator.runSubAgentForTicket runId) batch) w) as (w1 & oe & rest & -> & H1 & Hr).
  { apply Forall_fmap, Forall_true. intros t. apply keeps_runs_sub_agent. }
  destruct oe as [e|].
  - destruct (is_kill_switch e); cbn; eexists _, _; (splits; [reflexivity|done|]); [by intros r [= <-]|done].
  - destruct (IH w1) as (w2 & r & -> & H2 & Hrest). exists w2, r. splits; [done|by etrans|done].
Qed.

Lemma run_loop_runs fuel runId tickets w :
  exists w' r, run (Delegation.runBatchesUntilDone config schedule fuel runId tickets) w = (w', r) /\
    unchanged runs w w' /\
    forall running, r = inr (batches_killed running) -> Forall keeps_runs running.
Proof.
  revert tickets w. induction fuel as [|fuel IH]; intros tickets w; cbn [Delegation.runBatchesUntilDone].
  { by exists w, (inr batches_out_of_fuel). }
  rewrite run_bind. destruct (run_isActive w) as (w0 & H0 & [->|[active ->]]);
    (assert (Hr0 : unchanged runs w w0) by (unfold unchanged, runs; by rewrite H0)); [by eexists _, _|].
  destruct active; [eexists _, _; splits; [reflexivity|done|]; by intros r [= <-]|].
  destruct (computeReadyBatch tickets) as [|t ts]; [by eexists _, _|].
  destruct (chunk (t :: ts) _) as [e|batches]; cbn [Router.lift bind]; [by eexists _, _|].
  rewrite run_bind. destruct (run_batches_runs runId batches w0) as (w1 & r & -> & H1 & Hr).
  assert (H1' : unchanged runs w w1) by (by etrans).
  destruct r as [e|[running|]]; [by exists w1, (inl e)| |].
  { eexists _, _. splits; [reflexivity|done|]. intros r [= <-]. by apply Hr. }
  rewrite run_bind. unfold Ledger.getTickets, db_read at 1. rewrite run_db.
  destruct (faulty w1); [by eexists _, _|].
  destruct (IH (List.filter (fun t => String.eqb (t_runId t) runId) (agentTickets (w_ledger (tick w1))))
              (tick w1)) as (w2 & r & -> & H2 & Hr2).
  exists w2, r. splits; [done| |done]. etrans; [exact H1'|exact H2].
Qed.

Definition row_says (runId : string) (status : AgentRunStatus) (finalResponse : option string) (w : World) :
    Prop :=
  exists row, runs w !! runId = Some row /\ run_status row = status /\
    run_finalResponse row = finalResponse /\ run_completedAt row <> None.

(** The run is open, or closed with a status and an answer. *)
Definition run_phase (runId : string) (ph : option (AgentRunStatus * option string)) (w : World) : Prop :=
  match ph with
  | None => exists row, runs w !! runId = Some row
  | Some (status, finalResponse) => row_says runId status finalResponse w
  end.

Lemma run_phase_same runId ph w w' : unchanged runs w w' -> run_phase runId ph w -> run_phase runId ph w'.
Proof.
  unfold unchanged, run_phase, row_says. intros ->.
  done.
Qed.

Abbreviation closing runId := (follows (run_phase runId) (fun _ _ w' ph' => run_phase runId ph' w')).

Lemma closing_complete runId status finalResponse :
  closing runId None (Ledger.completeRun runId status finalResponse)
    (fun ph r => match r with inr _ => ph = Some (status, finalResponse) | inl _ => True end).
Proof.
  intros w Hw. exists None. split; [exact Hw|]. intros w1 [row Hrow]. unfold db_act.
  destruct (faulty w1); [exists None; split; [by exists row|done]|].
  exists (Some (status, finalResponse)). split; [|done]. cbn.
  eexists. split; [unfold runs; cbn; by rewrite lookup_alter_eq; unfold runs in Hrow; cbn in Hrow; rewrite Hrow|].
  by cbn.
Qed.

Lemma closing_kill runId :
  closing runId None (Delegation.killRun runId)
    (fun ph r => match r with
                 | inr res => ph = Some (run_killed, None) /\
                     res = {| or_runId := runId; or_status := run_killed; or_finalResponse := None;
                              or_pendingApprovals := [] |}
                 | inl _ => True
                 end).
Proof.
  unfold Delegation.killRun. apply follows_bind. eapply follows_mono; [apply closing_complete|].
  intros ph [e|[]] Hph; [done|]. subst ph. intros w Hw. exists (Some (run_killed, None)). by split.
Qed.

(** Only material conflicts ask for an approval. *)
Lemma run_conflicts_low runId conflicts w w' l :
  existsb is_material conflicts = false ->
  run (Orchestrator.applyConflicts autonomy runId conflicts) w = (w', inr l) -> l = [].
Proof.
  revert w w' l. induction conflicts as [|c cs IH]; intros w w' l; cbn [existsb Orchestrator.applyConflicts].
  { by intros _ [= _ <-]. }
  intros [Hc Hcs]%orb_false_iff. rewrite run_bind. unfold Orchestrator.applyConflict.
  unfold is_material in Hc. apply bool_decide_eq_false in Hc.
  destruct (rc_riskLevel c); [|done]. rewrite run_bind.
  destruct (run (for_each _ _) w) as [w1 [e|[]]]; [done|]. cbn [run]. rewrite run_bind.
  destruct (run (Orchestrator.applyConflicts autonomy runId cs) w1) as [w2 [e|rest]] eqn:E; [done|].
  cbn. intros [= <- <-]. by eapply IH.
Qed.

Lemma computeRunStatus_done tickets r :
  computeRunStatus tickets (Some r) = run_done ->
  Forall (fun t => t_status t = tk_done) tickets /\ existsb is_material (ro_conflicts r) = false.
Proof.
  unfold computeRunStatus. set (unfinished := existsb _ tickets). set (failed := existsb _ tickets).
  assert (Hl : unfinished = false -> failed = false -> Forall (fun t => t_status t = tk_done) tickets).
  { subst unfinished failed. induction tickets as [|t l IH]; [done|]. cbn.
    intros [H1 H2]%orb_false_iff [H3 H4]%orb_false_iff. constructor; [|auto].
    destruct (t_status t); naive_solver. }
  destruct unfinished, failed, (existsb is_material _); cbn; try done. auto.
Qed.

Lemma computeRunStatus_final tickets r :
  computeRunStatus tickets r <> run_running /\ computeRunStatus tickets r <> run_killed.
Proof. unfold computeRunStatus. by repeat case_match. Qed.

(** What the result of a run promises. *)
Definition truthful (res : OrchestrationResult) (w : World) : Prop :=
  row_says (or_runId res) (or_status res) (or_finalResponse res) w /\
  or_status res <> run_running /\
  (or_status res = run_killed <-> or_finalResponse res = None) /\
  (or_status res = run_done ->
   Forall (fun t => t_status t = tk_done) (run_tickets (or_runId res) w) /\ or_pendingApprovals res = []).

(** One keeping method at the front of a run. *)
Lemma run_keeping {A B} (p : jin A) (k : A -> jin B) w w' b :
  keeps_runs p -> run (bind p k) w = (w', inr b) ->
  exists w1 a, run p w = (w1, inr a) /\ unchanged runs w w1 /\ run (k a) w1 = (w', inr b).
Proof.
  intros Hp. rewrite run_bind. pose proof (steps_run (unchanged runs) p w Hp) as H.
  destruct (run p w) as [w1 [e|a]]; [done|]. intros Hk. by exists w1, a.
Qed.

Lemma run_reconcile runId w w' res :
  run_phase runId None w -> run (Delegation.reconcileRun autonomy runId) w = (w', inr res) ->
  truthful res w' /\ or_runId res = runId.
Proof.
  intros Hw. unfold Delegation.reconcileRun, Ledger.getTickets.
  intros (w1 & tickets & _ & H1 & H)%run_keeping; [|frame_tac].
  apply run_keeping in H as (w2 & comments & _ & H2 & H); [|apply keeps_runs_comments].
  apply run_keeping in H as (w3 & r & _ & H3 & H); [|unfold Reconciliation.reconcile; frame_tac].
  apply run_keeping in H as (w4 & pendings & Hp & H4 & H); [|apply keeps_runs_conflicts].
  apply run_keeping in H as (w5 & [] & _ & H5 & H); [|unfold Orchestrator.changed; frame_tac].
  rewrite run_bind in H. unfold db_read in H. rewrite run_db in H. destruct (faulty w5); [done|].
  change (List.filter _ _) with (run_tickets runId w5) in H.
  assert (Hph : run_phase runId None (tick w5)).
  { apply (run_phase_same runId None w); [|exact Hw]. etrans; [exact H1|]. etrans; [exact H2|].
    etrans; [exact H3|]. etrans; [exact H4|exact H5]. }
  set (status := computeRunStatus _ _) in H.
  rewrite run_bind in H. unfold Ledger.completeRun in H. rewrite run_bind, run_now in H.
  unfold db_write in H. rewrite run_db in H. destruct (faulty (tick w5)); [done|].
  cbn [run bind Orchestrator.changed emit writes] in H. injection H as <- <-. split; [|done].
  destruct Hph as [row Hrow]. split; [|split; [apply computeRunStatus_final|split]].
  - eexists. split; [unfold runs in *; cbn in *; by rewrite lookup_alter_eq, Hrow|]. by cbn.
  - split; [intros E; cbn in E; by apply computeRunStatus_final in E|done].
  - cbn. intros [Hd Hm]%computeRunStatus_done. split; [exact Hd|]. by eapply run_conflicts_low.
Qed.

(** What a run reports is what its row says: however the sub-agents
    interleave, also those still running when the kill switch interrupts their
    batch, when [runObjective] returns, the row of the run is closed with the
    status and the answer it returns, never [running], [killed] exactly when there
    is no answer; and it says [done] only with every ticket of the run done, no
    material conflict and no approval left to the owner. *)
Lemma a_run_reports_what_its_row_says (sessionId objective : string) (w w' : World)
    (res : OrchestrationResult) :
  run (Delegation.runObjective autonomy config schedule background sessionId objective) w = (w', inr res) ->
  truthful res w'.
Proof.
  unfold Delegation.runObjective, Ledger.createRun.
  rewrite !run_bind. cbn [run randomUUID]. set (runId := uuid_string _). set (w0 := upd_sys _ w).
  rewrite run_bind. unfold db_write at 1. rewrite run_db. destruct (faulty w0); [done|].
  set (w1 := upd_ledger _ (tick w0)). cbn [run]. intros H.
  assert (Hw1 : run_phase runId None w1).
  { eexists. unfold runs. cbn. apply lookup_insert_eq. }
  clearbody w1 runId. clear w0.
  apply run_keeping in H as (w2 & drafts & _ & H2 & H); [|unfold TicketDecomposition.decompose; frame_tac].
  apply run_keeping in H as (w3 & tickets & _ & H3 & H); [|apply keeps_runs_create].
  apply run_keeping in H as (w4 & [] & _ & H4 & H); [|unfold Orchestrator.changed; frame_tac].
  rewrite run_bind in H.
  destruct (run_loop_runs (S (length tickets)) runId tickets w4) as (w5 & r & Er & H5 & Hrest).
  rewrite Er in H. destruct r as [e|ended]; [done|].
  assert (Hph : run_phase runId None w5).
  { apply (run_phase_same runId None w1); [|exact Hw1]. etrans; [exact H2|]. etrans; [exact H3|].
    etrans; [exact H4|exact H5]. }
  destruct ended as [|running|]; [by apply (run_reconcile runId w5)| |done].
  destruct (run_alongside (run_phase runId) (unchanged runs) background running None
    (Delegation.killRun runId) _ w5 (run_phase_same runId) (Hrest running eq_refl) (closing_kill runId) Hph)
    as (ph & Hw' & Hq).
  rewrite H in Hw', Hq. cbn in Hw', Hq. destruct Hq as [-> ->]. by split.
Qed.
End Row.

(** ** The agents of [Agent.v] are such sub-agents *)

Definition agentService `{Api : AuditApi} `{Crypto : NodeCrypto} {Guarded : BudgetGuardedApi}
    (autonomy : AutonomyConfig) (config : AgentConfig) (executors : ToolExecutorRegistry)
    (consolidate : string -> string -> jin unit) (describeCurrentDateTime : Z -> string)
    (zodMessage : json -> string) : AgentApi := {|
  agent_runTurn :=
    Agent.runTurn autonomy config executors consolidate describeCurrentDateTime zodMessage |}.

Section AgentService.
Context `{Laws : AuditApiLaws} `{Crypto : NodeCrypto} {Guarded : BudgetGuardedApi}.
Context (autonomy : AutonomyConfig) (config : AgentConfig) (executors : ToolExecutorRegistry).
Context (consolidate : string -> string -> jin unit) (describeCurrentDateTime : Z -> string)
        (zodMessage : json -> string).
Context (Hexecutors : forall toolName (executor : ToolExecutor), executors !! toolName = Some executor ->
           forall payload rid, keeps_ledger (executor payload rid)).
Context (Hcomplete : forall t r h s, keeps_ledger (guarded_complete t r h s)).
Context (Hconsolidate : forall s t, keeps_ledger (consolidate s t)).

#[local] Hint Resolve Hcomplete Hconsolidate : frames.

Lemma keeps_ledger_execute toolName payload rid : keeps_ledger (execute executors toolName payload rid).
Proof.
  unfold execute. destruct (executors !! toolName : option ToolExecutor) as [ex|] eqn:Ex; [|done].
  pose proof (Hexecutors _ _ Ex) as Hex. frame_tac.
Qed.

#[local] Hint Resolve keeps_ledger_execute : frames.

Lemma keeps_ledger_decideAndRun call sessionId nonce actor messages :
  keeps_ledger (Agent.decideAndRun autonomy executors call sessionId nonce actor messages).
Proof. unfold Agent.decideAndRun. frame_tac. Qed.

#[local] Hint Resolve keeps_ledger_decideAndRun : frames.

(** Without a listener, a sub-agent's turn writes to no ticket. *)
Lemma keeps_ledger_calls calls sessionId nonce actor messages st :
  keeps_ledger (Agent.handleToolCalls autonomy config executors zodMessage calls sessionId nonce actor
                  messages None st).
Proof.
  revert st. induction calls as [|call calls IH]; intros st; cbn [Agent.handleToolCalls]; [done|].
  unfold Agent.handleRealToolCall, Agent.refuse, Agent.finish, Agent.progress,
    FeatureFlags.isIntegrationEnabled.
  frame_tac.
Qed.

Lemma keeps_ledger_finalize sessionId messages text plan pendings n models :
  keeps_ledger (Agent.finalizeTurn config consolidate sessionId messages text plan pendings n models).
Proof. unfold Agent.finalizeTurn, HistoryCompaction.compact. frame_tac. Qed.

#[local] Hint Resolve keeps_ledger_calls keeps_ledger_finalize : frames.

Lemma agentService_keeps_ledger input :
  ati_onProgress input = None ->
  keeps_ledger (@agent_runTurn (agentService autonomy config executors consolidate
                                  describeCurrentDateTime zodMessage) input).
Proof.
  intros Hl. cbn [agent_runTurn agentService]. unfold Agent.runTurn, generateSessionNonce, Agent.buildSystemPrompt.
  do 2 (apply steps_bind; [frame_tac|intros ?]).
  set (n := Z.to_nat _). clearbody n. generalize 0 at 1 as used. intros used.
  set (messages := _ ++ _). clearbody messages. set (st := {| cst_plan := _ |}). clearbody st.
  generalize (@nil string) as models. revert messages st used.
  induction n as [|n IH]; intros messages st used models; cbn [Agent.turn_loop]; [frame_tac|].
  apply steps_bind; [unfold Agent.call_model; rewrite Hl; frame_tac|]. intros response. cbv zeta.
  destruct (_ || _); [frame_tac|]. apply steps_bind; [rewrite Hl; frame_tac|]. intros st'. apply IH.
Qed.
End AgentService.

(** ** A concrete run: two tickets, the second after the first *)

Module DelegationExamples.
#[local] Existing Instance toy_crypto.

Definition obedient : AgentApi := {|
  agent_runTurn := fun input => Ret {| atr_finalResponse := "hecho"; atr_plan := {| steps_of := [] |};
    atr_pendingApprovals := []; atr_iterationsUsed := 1; atr_modelsUsed := ["claude-sonnet-5"];
    atr_compactedHistory := None |} |}.

(** The model answers with the name of what it is asked for. *)
Definition planner : BudgetGuardedApi := {|
  guarded_complete := fun _ r _ _ => Ret (AgentExamples.answer
    (if decide (mcr_systemPrompt r = Some TicketDecomposition.SYSTEM_PROMPT) then "tickets" else "informe")
    [] end_turn);
  guarded_completeStream := fun _ _ _ _ _ => Throw (PlainError "no") |}.

Definition draft (description : string) (dependsOn : list json) : json :=
  JObj [("description", JStr description); ("allowedTools", JArr [JStr "readEmails"]);
        ("dependsOnIndexes", JArr dependsOn)].

Definition parser : JsonParse := {|
  json_parse := fun s =>
    if String.eqb s "tickets" then Some (JArr [draft "leer" []; draft "resumir" [JNum 0]])
    else Some (JObj [("finalResponse", JStr "listo"); ("conflicts", JArr [])]) |}.

(** An interleaving that lets the last sub-agent of a batch go first. *)
Definition backwards (batch : list Ticket) : list nat := [1; 0; 1; 1; 0]%nat.

Definition objective : jin OrchestrationResult :=
  @Delegation.runObjective (@auditService toy_crypto) toy_crypto planner parser obedient
    AutonomyExamples.yaml_config AgentExamples.yaml_agent backwards [] "s" "leé y resumí".
End DelegationExamples.

Lemma delegation_comes_to_an_end_witness :
  let w := upd_ledger (set_tickets (fun _ => two_tickets)) (empty_world 0) in
  match run (@Delegation.runBatchesUntilDone DelegationExamples.obedient AgentExamples.yaml_agent
               DelegationExamples.backwards 3 "r" two_tickets) w with
  | (w', inr batches_done) => Forall (fun t => t_status t = tk_done) (run_tickets "r" w')
  | _ => False
  end.
Proof.
  intros w.
  pose proof (@delegation_comes_to_an_end DelegationExamples.obedient AgentExamples.yaml_agent
    DelegationExamples.backwards "r" w ltac:(done) ltac:(done) (proj1 two_tickets_acyclic)
    ltac:(by repeat constructor)) as H.
  change (run_tickets "r" w) with two_tickets in H.
  assert (Hd : match run (@Delegation.runBatchesUntilDone DelegationExamples.obedient AgentExamples.yaml_agent
                      DelegationExamples.backwards 3 "r" two_tickets) w with
               | (w', inr batches_done) =>
                   forallb (fun t => bool_decide (t_status t <> tk_failed /\ t_status t <> tk_blocked))
                     (run_tickets "r" w') = true
               | _ => False end) by (vm_compute; reflexivity).
  change (S (length two_tickets)) with 3%nat in H.
  destruct (run _ w) as [w' [e|[|rest|]]]; try done.
  destruct H as (_ & _ & H). apply H; [apply two_tickets_acyclic|].
  apply Forall_forall. intros t Ht%list_elem_of_In. rewrite forallb_forall in Hd.
  by apply (bool_decide_eq_true_1 _ (Hd t Ht)).
Defined.

Lemma a_run_reports_what_its_row_says_witness :
  match run DelegationExamples.objective (empty_world 0) with
  | (w', inr res) => or_status res = run_done /\ truthful res w'
  | _ => False
  end.
Proof.
  assert (Hd : match run DelegationExamples.objective (empty_world 0) with
               | (_, inr res) => or_status res = run_done | _ => False end) by (vm_compute; reflexivity).
  destruct (run DelegationExamples.objective (empty_world 0)) as [w' [e|res]] eqn:E; [done|].
  split; [exact Hd|].
  exact (@a_run_reports_what_its_row_says (@auditService toy_crypto) (@auditService_laws toy_crypto)
    toy_crypto DelegationExamples.planner DelegationExamples.parser DelegationExamples.obedient
    AutonomyExamples.yaml_config AgentExamples.yaml_agent DelegationExamples.backwards []
    ltac:(done) ltac:(done) "s" "leé y resumí" (empty_world 0) w' res E).
Defined.
