(* ===== verification/Push.v ===== *)
(** * Push: what the notifications of the phone say

    [src/push/push.types.ts] and [src/push/push.payloads.ts]: the kinds of notice, the
    preferences of a device, and the builders of the bodies that Apple is sent.  A body is
    a value of [PushBody] instead of the object of JavaScript that is serialised last; its
    texts are UTF-16, which is what the code cuts. *)
From S2P Require Import Prelude Effects Js Text Registry Store Budget TelegramBot.
From Stdlib Require Import Ascii String QArith Qcanon Qround.
Local Open Scope stdpp_scope.
Local Open Scope Z_scope.
Local Open Scope jin_scope.

(** ** push.types.ts *)

Inductive ApnsEnvironment := sandbox | production.
#[export] Instance ApnsEnvironment_eq_dec : EqDecision ApnsEnvironment.
Proof. solve_decision. Defined.

Definition APNS_ENVIRONMENTS : list ApnsEnvironment := [sandbox; production].

Inductive PushKind :=
| approval_new | approval_expiring | notify_executed | push_budget | kill_switch | bridge_message
| morning_summary_kind | chat_done.
#[export] Instance PushKind_eq_dec : EqDecision PushKind.
Proof. solve_decision. Defined.

Definition PUSH_KINDS : list PushKind :=
  [approval_new; approval_expiring; notify_executed; push_budget; kill_switch; bridge_message;
   morning_summary_kind; chat_done].

Definition push_kind_name (kind : PushKind) : string :=
  match kind with
  | approval_new => "approval_new" | approval_expiring => "approval_expiring"
  | notify_executed => "notify_executed" | push_budget => "budget" | kill_switch => "kill_switch"
  | bridge_message => "bridge_message" | morning_summary_kind => "morning_summary" | chat_done => "chat_done"
  end.

Definition DEFAULT_PREFERENCES (kind : PushKind) : bool :=
  match kind with notify_executed => false | _ => true end.

Definition wantsKind (preferences : gmap string bool) (kind : PushKind) : bool :=
  default (DEFAULT_PREFERENCES kind) (preferences !! push_kind_name kind).

Inductive PushCategory := cat_approval | cat_info | cat_bridge.

Definition PUSH_CATEGORIES (c : PushCategory) : string :=
  match c with cat_approval => "JIN_APPROVAL" | cat_info => "JIN_INFO" | cat_bridge => "JIN_BRIDGE" end.

Inductive ApnsPushType := push_alert | push_liveactivity | push_background.

Definition APNS_PUSH_TYPES (t : ApnsPushType) : string :=
  match t with push_alert => "alert" | push_liveactivity => "liveactivity" | push_background => "background" end.

(** ** Live Activities *)

Inductive ActivityMark := mark_done | mark_running | mark_pending | mark_conflict | mark_failed.
#[export] Instance ActivityMark_eq_dec : EqDecision ActivityMark.
Proof. solve_decision. Defined.
Inductive ActivityPhase := phase_running | phase_conflict | phase_done | phase_failed.
#[export] Instance ActivityPhase_eq_dec : EqDecision ActivityPhase.
Proof. solve_decision. Defined.

Record ActivityAgent := { ag_id : string; ag_ticket : string; ag_working : bool }.

Record ActivityContentState := {
  cs_title : string;
  cs_detail : option string;
  cs_startsAt : option Q;
  cs_endsAt : option Q;
  cs_ready : bool;
  cs_badge : option string;
  cs_segments : list ActivityMark;
  cs_agents : list ActivityAgent;
  cs_phase : ActivityPhase
}.

Inductive ActivityKind := kind_dualConfirm | kind_killSwitch | kind_chatTurn | kind_orchestration | kind_relaxedMode.

Definition ACTIVITY_RELEVANCE (kind : ActivityKind) : Z :=
  match kind with
  | kind_dualConfirm => 100 | kind_killSwitch => 80 | kind_chatTurn => 60 | kind_orchestration => 50
  | kind_relaxedMode => 40
  end.

(** ** Notifications *)

(** What a notice carries besides [aps] and [link]. *)
Inductive AlertExtra :=
| no_extra
| extra_request (requestId : string)
| extra_bridge (bridgeMessageId : string) (options : list text).

Record AlertInput := {
  al_title : text;
  al_body : text;
  al_subtitle : option text;
  al_category : PushCategory;
  al_threadId : string;
  al_link : string;
  al_timeSensitive : bool;
  al_collapseId : option string;
  al_mutable : bool;
  al_extra : AlertExtra
}.

Inductive ActivityEvent :=
| activity_update
| activity_end (dismissalDate : Z)
| activity_start (kind : ActivityKind) (referenceId : string).

Inductive PushBody :=
| alert_body (title : text) (subtitle : option text) (body : text) (category : PushCategory) (threadId : string)
    (timeSensitive mutable : bool) (link : string) (extra : AlertExtra)
| activity_body (timestamp : Z) (event : ActivityEvent) (state : ActivityContentState) (relevance : Z)
    (alert : option (text * text)).

Record ApnsNotification := {
  an_pushType : ApnsPushType;
  an_priority : Z;
  an_body : PushBody;
  an_collapseId : option string;
  an_expiration : option Z
}.

(** ** push.payloads.ts *)

Definition MAX_BODY_CHARS : nat := 180.

Definition truncate (max : nat) (s : text) : text :=
  let clean := trim (collapse_spaces s) in
  if (List.length clean <=? max)%nat then clean else take (max - 1) clean ++ text_of "…".

Definition alert (input : AlertInput) : ApnsNotification := {|
  an_pushType := push_alert;
  an_priority := 10;
  an_body := alert_body (al_title input) (al_subtitle input) (al_body input) (al_category input)
    (al_threadId input) (al_timeSensitive input) (al_mutable input) (al_link input) (al_extra input);
  an_collapseId := al_collapseId input;
  an_expiration := None |}.

Definition approvalNewPayload (requestId toolName : string) (level : HitlLevel) (planSummary : option string) :
    ApnsNotification :=
  let dual := bool_decide (level = DualConfirm) in
  alert {|
    al_title := text_of ((if dual then "◆◆ Aprobación dual" else "◆ Aprobación") +:+ " · " +:+ toolName);
    al_body := truncate MAX_BODY_CHARS (text_of (default toolName planSummary));
    al_subtitle := Some (text_of "Toca para leer el payload");
    al_category := cat_approval; al_threadId := "approvals"; al_link := "jin://approval/" +:+ requestId;
    al_timeSensitive := true; al_collapseId := Some requestId; al_mutable := false;
    al_extra := extra_request requestId |}.

Definition approvalExpiringPayload (requestId toolName : string) : ApnsNotification :=
  alert {|
    al_title := text_of ("Por vencer · " +:+ toolName);
    al_body := text_of "Sigue esperando tu decisión. Si vence, NO se ejecuta.";
    al_subtitle := None;
    al_category := cat_approval; al_threadId := "approvals"; al_link := "jin://approval/" +:+ requestId;
    al_timeSensitive := true; al_collapseId := Some requestId; al_mutable := false;
    al_extra := extra_request requestId |}.

(** A notice without more than its text. *)
Definition info (title body : text) (threadId link : string) (timeSensitive : bool) (collapseId : option string) :
    AlertInput :=
  {| al_title := title; al_body := body; al_subtitle := None; al_category := cat_info; al_threadId := threadId;
     al_link := link; al_timeSensitive := timeSensitive; al_collapseId := collapseId; al_mutable := false;
     al_extra := no_extra |}.

(** [s.replace(pattern, '')] for a string: its first occurrence. *)
Definition remove_first (pattern s : string) : string :=
  match String.index 0 pattern s with
  | Some n => String.substring 0 n s +:+
              String.substring (n + String.length pattern) (String.length s - n - String.length pattern) s
  | None => s
  end.

Definition notifyExecutedPayload (toolName : string) (relaxedBy : option string) : ApnsNotification :=
  alert (info (text_of ("Ejecutada · " +:+ toolName))
    (text_of
      (if truthy (default "" relaxedBy)
       then "Se ejecutó sola porque el modo " +:+ remove_first "autonomy:" (default "" relaxedBy) +:+ " la relajó."
       else "Acción de nivel notify: se ejecutó y queda en el Audit."))
    "activity" "jin://audit" false None).

Definition budgetPayload (ratio threshold : Qc) : ApnsNotification :=
  let percent := pretty (round_Qc (ratio * Q2Qc (100 # 1))%Qc) in
  let spent := qc_le 1 threshold in
  alert (info (text_of (if spent then "Presupuesto agotado" else "Presupuesto al 80 %"))
    (text_of
      (if spent then "Gasto de hoy al " +:+ percent +:+ " %: los agentes se detienen hasta mañana."
       else "Gasto de hoy al " +:+ percent +:+ " % del límite diario."))
    "spend" "jin://spend" spent None).

Definition killSwitchPayload (reason : option string) : ApnsNotification :=
  alert (info (text_of "❄ Agentes congelados")
    (truncate MAX_BODY_CHARS (text_of
      ("Kill switch activado" +:+ (if truthy (default "" reason) then ": " +:+ default "" reason else "") +:+
       ". Reanudar exige mantener pulsado 3 s en Gasto.")))
    "spend" "jin://spend" true (Some "kill-switch")).

Definition bridgeMessagePayload (id : string) (body : text) (options : option (list text)) : ApnsNotification :=
  let options := default [] options in
  alert {|
    al_title := text_of "Claude Code"; al_body := truncate 400 body; al_subtitle := None;
    al_category := cat_bridge; al_threadId := "bridge"; al_link := "jin://bridge"; al_timeSensitive := false;
    al_collapseId := None; al_mutable := (0 <? List.length options)%nat; al_extra := extra_bridge id options |}.

(** The characters of the class [[*_`#>]]. *)
Definition is_markdown_sign (c : Z) : bool := existsb (Z.eqb c) (units "*_`#>").

Definition morningSummaryPayload (event : MorningAlertEvent) : ApnsNotification :=
  alert (info (text_of "Resumen de la mañana")
    match event with
    | morning_summary _ summary => truncate 300 (List.filter (fun c => negb (is_markdown_sign c)) (text_of summary))
    | morning_failed _ _ => text_of "El análisis de la noche falló: hoy no hay resumen. Revisa Canvas en la web."
    | morning_missing => text_of "No hubo análisis a medianoche: hoy no hay resumen."
    end
    "morning" "jin://home" false None).

Definition chatDonePayload (conversationId objective : string) (ok : bool) : ApnsNotification :=
  alert (info (text_of (if ok then "Jin terminó" else "El turno no terminó bien"))
    (truncate 120 (text_of objective)) ("chat-" +:+ conversationId) ("jin://chat/" +:+ conversationId) false None).

Definition testPayload : ApnsNotification :=
  alert (info (text_of "Jin · prueba") (text_of "Las notificaciones push funcionan.") "test" "jin://settings" false None).

Definition APPLE_REFERENCE_EPOCH_SECONDS : Z := 978307200.

(** Milliseconds since 1970 as the seconds of Apple. *)
Definition appleDate (t : Z) : Q := ((t # 1000) - inject_Z APPLE_REFERENCE_EPOCH_SECONDS)%Q.

Record SnapshotTicket := {
  st_description : string;
  st_status : AgentTicketStatus;
  st_assignedSubAgentId : option string;
  st_commentKinds : list string;
  st_lastConflictBody : option string
}.

Record OrchestrationSnapshot := {
  os_objective : string;
  os_status : AgentRunStatus;
  os_createdAt : Z;
  os_completedAt : option Z;
  os_tickets : list SnapshotTicket
}.

Definition hasOpenConflict (kinds : list string) : bool :=
  existsb (String.eqb "conflict") kinds && negb (existsb (String.eqb "resolution") kinds).

Definition segment_of (t : SnapshotTicket) : ActivityMark :=
  if hasOpenConflict (st_commentKinds t) then mark_conflict
  else match st_status t with
       | tk_done => mark_done
       | tk_in_progress => mark_running
       | tk_failed => mark_failed
       | _ => mark_pending
       end.

(** The tickets of a sub-agent, and the one it works on. *)
Definition assigned_to (agent : string) (t : SnapshotTicket) : bool :=
  match st_assignedSubAgentId t with Some a => String.eqb a agent | None => false end.

Definition in_progress (t : SnapshotTicket) : bool := bool_decide (st_status t = tk_in_progress).

Definition agent_state (tickets : list SnapshotTicket) (agent : string) : ActivityAgent :=
  let own := List.filter (assigned_to agent) tickets in
  let current := List.find in_progress own in
  {| ag_id := agent;
     ag_ticket := match current with
                  | Some t => st_description t
                  | None => default "" (st_description <$> last own)
                  end;
     ag_working := match current with Some _ => true | None => false end |}.

(** The loop over the tickets, with the agents pushed so far. *)
Fixpoint agents_from (tickets : list SnapshotTicket) (rest : list SnapshotTicket) (agents : list ActivityAgent) :
    list ActivityAgent :=
  match rest with
  | [] => agents
  | t :: rest' =>
      let agent := default "" (st_assignedSubAgentId t) in
      agents_from tickets rest'
        (if negb (truthy agent) || existsb (fun a => String.eqb (ag_id a) agent) agents then agents
         else agents ++ [agent_state tickets agent])
  end.

Definition run_phase (status : AgentRunStatus) (segments : list ActivityMark) : ActivityPhase :=
  match status with
  | run_running | run_blocked =>
      if bool_decide (mark_conflict ∈ segments) || bool_decide (status = run_blocked) then phase_conflict
      else phase_running
  | run_done => if bool_decide (mark_failed ∈ segments) then phase_failed else phase_done
  | _ => phase_failed
  end.

Definition is_finished (phase : ActivityPhase) : bool :=
  match phase with phase_done | phase_failed => true | _ => false end.

Definition orchestrationContentState (snapshot : OrchestrationSnapshot) : ActivityContentState :=
  let tickets := os_tickets snapshot in
  let segments := map segment_of tickets in
  let phase := run_phase (os_status snapshot) segments in
  let conflictBody :=
    if bool_decide (phase = phase_conflict)
    then List.find (fun t => hasOpenConflict (st_commentKinds t)) tickets ≫= st_lastConflictBody
    else None in
  {| cs_title := os_objective snapshot;
     cs_detail := if truthy (default "" conflictBody) then conflictBody else None;
     cs_startsAt := Some (appleDate (os_createdAt snapshot));
     cs_endsAt := if is_finished phase then appleDate <$> os_completedAt snapshot else None;
     cs_ready := is_finished phase;
     cs_badge :=
       match segments with
       | [] => None
       | _ => Some (pretty (List.length (List.filter (fun s => bool_decide (s = mark_done)) segments)) +:+ "/" +:+
                    pretty (List.length segments))
       end;
     cs_segments := segments;
     cs_agents := agents_from tickets tickets [];
     cs_phase := phase |}.

Definition killSwitchContentState (reason : option string) (activatedAt : option Z) : ActivityContentState :=
  {| cs_title := "Agentes congelados";
     cs_detail := if truthy (default "" reason) then reason else None;
     cs_startsAt := appleDate <$> activatedAt;
     cs_endsAt := None; cs_ready := false; cs_badge := Some "kill"; cs_segments := []; cs_agents := [];
     cs_phase := phase_running |}.

Definition liveActivityUpdatePayload (kind : ActivityKind) (state : ActivityContentState) (dismissAfter : option Z)
    (alert : option (text * text)) (now : Z) : ApnsNotification :=
  let timestamp := now / 1000 in
  {| an_pushType := push_liveactivity;
     an_priority := match alert, dismissAfter with None, None => 5 | _, _ => 10 end;
     an_body := activity_body timestamp
       match dismissAfter with Some s => activity_end (timestamp + s) | None => activity_update end
       state (ACTIVITY_RELEVANCE kind) alert;
     an_collapseId := None; an_expiration := None |}.

Definition liveActivityStartPayload (kind : ActivityKind) (referenceId : string) (state : ActivityContentState)
    (alert : text * text) (now : Z) : ApnsNotification :=
  {| an_pushType := push_liveactivity;
     an_priority := 10;
     an_body := activity_body (now / 1000) (activity_start kind referenceId) state (ACTIVITY_RELEVANCE kind) (Some alert);
     an_collapseId := None; an_expiration := None |}.
