(* ===== verification/PushService.v ===== *)
(** * PushService: who is told what, and the client of Apple

    [src/push/push.store.ts], [src/push/apns.client.ts], [src/push/push.service.ts] and
    [src/push/push.controller.ts].  Apple is another program: a request is recorded, and an
    oracle of the store gives its answer or the error of its connection. *)
From S2P Require Import Prelude Effects Js Text Registry Store Relay OwnerTerminal Orchestrator Budget TelegramBot Push.
From Stdlib Require Import Ascii String QArith Qcanon.
Local Open Scope stdpp_scope.
Local Open Scope Z_scope.
Local Open Scope jin_scope.

(** ** The store of the notifications *)

(** [push_devices] and [push_activity_tokens], by their primary key. *)
Record PushDeviceRow := {
  pd_token : string;
  pd_environment : ApnsEnvironment;
  pd_preferences : gmap string bool;
  pd_createdAt : Z;
  pd_lastSeenAt : Z
}.

Inductive TokenPurpose := purpose_update | purpose_start.
#[export] Instance TokenPurpose_eq_dec : EqDecision TokenPurpose.
Proof. solve_decision. Defined.

Record PushActivityTokenRow := {
  pt_token : string;
  pt_environment : ApnsEnvironment;
  pt_purpose : TokenPurpose;
  pt_kind : option string;
  pt_referenceId : option string;
  pt_createdAt : Z
}.

Record ApnsRequest := {
  ar_environment : ApnsEnvironment;
  ar_path : string;
  ar_authorization : string;
  ar_topic : string;
  ar_pushType : string;
  ar_priority : Z;
  ar_expiration : Z;
  ar_collapseId : option string;
  ar_body : PushBody
}.

Inductive ApnsReply := reply_response (status : Z) (body : string) | reply_error (message : string).

Inductive ApnsSendResult := apns_ok | apns_rejected (status : Z) (reason : string) (invalidToken : bool).

(** [ApnsClient]: its cached token, the environments with a live session, and what it has
    done so far: the tokens it signed and the requests, each with its time. *)
Record ApnsClientState := {
  ap_cachedToken : option (string * Z);
  ap_sessions : list ApnsEnvironment;
  ap_connections : list ApnsEnvironment;
  ap_signed : list Z;
  ap_requests : list (ApnsRequest * Z);
  ap_answer : nat -> ApnsRequest -> ApnsReply
}.

Record PushWorld := {
  pu_world : World;
  pu_relay : list RelayMessageRow;
  pu_devices : gmap string PushDeviceRow;
  pu_tokens : gmap string PushActivityTokenRow;
  pu_apns : ApnsClientState
}.

Definition pu_put (w : World) (v : PushWorld) : PushWorld :=
  {| pu_world := w; pu_relay := pu_relay v; pu_devices := pu_devices v; pu_tokens := pu_tokens v; pu_apns := pu_apns v |}.
Definition put_devices (l : gmap string PushDeviceRow) (v : PushWorld) : PushWorld :=
  {| pu_world := pu_world v; pu_relay := pu_relay v; pu_devices := l; pu_tokens := pu_tokens v; pu_apns := pu_apns v |}.
Definition put_tokens (l : gmap string PushActivityTokenRow) (v : PushWorld) : PushWorld :=
  {| pu_world := pu_world v; pu_relay := pu_relay v; pu_devices := pu_devices v; pu_tokens := l; pu_apns := pu_apns v |}.
Definition put_apns (a : ApnsClientState) (v : PushWorld) : PushWorld :=
  {| pu_world := pu_world v; pu_relay := pu_relay v; pu_devices := pu_devices v; pu_tokens := pu_tokens v; pu_apns := a |}.

Abbreviation push := (prog PushWorld JinError).
Abbreviation push_statement := (statement_on pu_world pu_put).

Definition push_services {A} (p : jin A) : push A := zoom pu_world pu_put p.
Definition push_clock (v : PushWorld) : Z := clock (w_sys (pu_world v)).
Definition push_now : push Z := reads push_clock.

(** ** push.store.ts *)

Definition ACTIVITY_TOKEN_MAX_AGE_MS : Z := 12 * 60 * 60 * 1000.

Record DeviceInput := {
  di_token : string;
  di_environment : ApnsEnvironment;
  di_preferences : gmap string bool
}.

Record ActivityTokenInput := {
  ai_token : string;
  ai_environment : ApnsEnvironment;
  ai_purpose : TokenPurpose;
  ai_kind : option string;
  ai_referenceId : option string
}.

(** The row of a device before and after [INSERT ... ON CONFLICT (token) DO UPDATE]; the
    columns left out take the time of the statement. *)
Definition device_row (input : DeviceInput) (lastSeenAt t : Z) (old : option PushDeviceRow) : PushDeviceRow :=
  {| pd_token := di_token input; pd_environment := di_environment input; pd_preferences := di_preferences input;
     pd_createdAt := match old with Some d => pd_createdAt d | None => t end;
     pd_lastSeenAt := match old with Some _ => lastSeenAt | None => t end |}.

(** On conflict only the activity changes. *)
Definition activity_row (input : ActivityTokenInput) (t : Z) (old : option PushActivityTokenRow) : PushActivityTokenRow :=
  match old with
  | Some r => {| pt_token := pt_token r; pt_environment := pt_environment r; pt_purpose := pt_purpose r;
                 pt_kind := ai_kind input; pt_referenceId := ai_referenceId input; pt_createdAt := pt_createdAt r |}
  | None => {| pt_token := ai_token input; pt_environment := ai_environment input; pt_purpose := ai_purpose input;
               pt_kind := ai_kind input; pt_referenceId := ai_referenceId input; pt_createdAt := t |}
  end.

(** A statement that returns nothing, one that returns what it reads. *)
Definition push_write (f : PushWorld -> PushWorld) : push unit := push_statement (fun v => (f v, tt)).
Definition push_read {X} (f : PushWorld -> X) : push X := push_statement (fun v => (v, f v)).

Definition rows {A} (m : gmap string A) : list A := map snd (map_to_list m).

Module PushStore.
Definition upsertDevice (input : DeviceInput) : push unit :=
  lastSeenAt <- push_now ;;
  push_write (fun v => put_devices
    (<[di_token input := device_row input lastSeenAt (push_clock v) (pu_devices v !! di_token input)]> (pu_devices v)) v).

Definition deleteDevice (token : string) : push unit :=
  push_write (fun v => put_devices (delete token (pu_devices v)) v).

Definition listDevices : push (list PushDeviceRow) := push_read (fun v => rows (pu_devices v)).

(** The token that starts the activities of an environment. *)
Definition is_start (environment : ApnsEnvironment) (r : PushActivityTokenRow) : bool :=
  bool_decide (pt_purpose r = purpose_start) && bool_decide (pt_environment r = environment).

Definition upsertActivityToken (input : ActivityTokenInput) : push unit :=
  (if bool_decide (ai_purpose input = purpose_start)
   then push_write (fun v => put_tokens
          (filter (fun kv => is_start (ai_environment input) kv.2 = false) (pu_tokens v)) v)
   else Ret tt) ;;;
  push_write (fun v => put_tokens
    (<[ai_token input := activity_row input (push_clock v) (pu_tokens v !! ai_token input)]> (pu_tokens v)) v).

Definition deleteActivityToken (token : string) : push unit :=
  push_write (fun v => put_tokens (delete token (pu_tokens v)) v).

Definition pruneActivityTokens : push unit :=
  t <- push_now ;;
  push_write (fun v => put_tokens
    (filter (fun kv => bool_decide (pt_purpose kv.2 = purpose_update) && (pt_createdAt kv.2 <? t - ACTIVITY_TOKEN_MAX_AGE_MS)
                       = false) (pu_tokens v)) v).

Definition follows_reference (referenceId : string) (r : PushActivityTokenRow) : bool :=
  bool_decide (pt_purpose r = purpose_update) && bool_decide (pt_referenceId r = Some referenceId).

Definition activityTokensFor (referenceId : string) : push (list PushActivityTokenRow) :=
  pruneActivityTokens ;;;
  push_read (fun v => List.filter (follows_reference referenceId) (rows (pu_tokens v))).

Definition startTokens : push (list PushActivityTokenRow) :=
  push_read (fun v => List.filter (fun r => bool_decide (pt_purpose r = purpose_start)) (rows (pu_tokens v))).
End PushStore.

(** ** apns.client.ts *)

Definition APNS_HOSTS (environment : ApnsEnvironment) : string :=
  match environment with
  | production => "https://api.push.apple.com"
  | sandbox => "https://api.sandbox.push.apple.com"
  end.

Definition JWT_LIFETIME_MS : Z := 50 * 60 * 1000.

Definition INVALID_TOKEN_REASONS : list string :=
  ["BadDeviceToken"; "Unregistered"; "DeviceTokenNotForTopic"; "ExpiredToken"].

Record ApnsCredentials := { ac_keyId : string; ac_teamId : string; ac_bundleId : string }.

(** [sign('sha256', ..., { key, dsaEncoding: 'ieee-p1363' })] with the key of the owner. *)
Class NodeSign := { sign_p256 : bytes -> bytes }.

(** How long a request waits before it fails is the time its answer takes. *)
Section Client.
Context {Sign : NodeSign} {Parser : JsonParse} (credentials : ApnsCredentials).

Definition signProviderToken (issuedAt : Z) : string :=
  let header := base64url (units (stringify (JObj [("alg", JStr "ES256"); ("kid", JStr (ac_keyId credentials))]))) in
  let claims := base64url (units (stringify (JObj [("iss", JStr (ac_teamId credentials)); ("iat", JNum (issuedAt / 1000))]))) in
  let signingInput := header +:+ "." +:+ claims in
  signingInput +:+ "." +:+ base64url (sign_p256 (units signingInput)).

(** The token of the next request, and the client with it. *)
Definition providerToken (t : Z) (a : ApnsClientState) : string * ApnsClientState :=
  let renew :=
    let value := signProviderToken t in
    (value, {| ap_cachedToken := Some (value, t); ap_sessions := ap_sessions a; ap_connections := ap_connections a;
               ap_signed := ap_signed a ++ [t]; ap_requests := ap_requests a; ap_answer := ap_answer a |}) in
  match ap_cachedToken a with
  | Some (value, issuedAt) => if t - issuedAt <? JWT_LIFETIME_MS then (value, a) else renew
  | None => renew
  end.

(** The live session of an environment, or a new one. *)
Definition session (environment : ApnsEnvironment) (a : ApnsClientState) : ApnsClientState :=
  if bool_decide (environment ∈ ap_sessions a) then a
  else {| ap_cachedToken := ap_cachedToken a; ap_sessions := environment :: ap_sessions a;
          ap_connections := ap_connections a ++ [environment]; ap_signed := ap_signed a;
          ap_requests := ap_requests a; ap_answer := ap_answer a |}.

Definition set_sessions (l : list ApnsEnvironment) (a : ApnsClientState) : ApnsClientState :=
  {| ap_cachedToken := ap_cachedToken a; ap_sessions := l; ap_connections := ap_connections a;
     ap_signed := ap_signed a; ap_requests := ap_requests a; ap_answer := ap_answer a |}.

(** Also what the events [error] and [goaway] of a session do. *)
Definition dropSession (environment : ApnsEnvironment) (a : ApnsClientState) : ApnsClientState :=
  set_sessions (List.filter (fun e => negb (bool_decide (e = environment))) (ap_sessions a)) a.

Definition close (a : ApnsClientState) : ApnsClientState := set_sessions [] a.

Definition log_request (r : ApnsRequest) (t : Z) (a : ApnsClientState) : ApnsClientState :=
  {| ap_cachedToken := ap_cachedToken a; ap_sessions := ap_sessions a; ap_connections := ap_connections a;
     ap_signed := ap_signed a; ap_requests := ap_requests a ++ [(r, t)]; ap_answer := ap_answer a |}.

Definition request_of (environment : ApnsEnvironment) (deviceToken token : string) (n : ApnsNotification) : ApnsRequest :=
  {| ar_environment := environment;
     ar_path := "/3/device/" +:+ deviceToken;
     ar_authorization := "bearer " +:+ token;
     ar_topic := match an_pushType n with
                 | push_liveactivity => ac_bundleId credentials +:+ ".push-type.liveactivity"
                 | _ => ac_bundleId credentials
                 end;
     ar_pushType := APNS_PUSH_TYPES (an_pushType n);
     ar_priority := an_priority n;
     ar_expiration := default 0 (an_expiration n);
     ar_collapseId := an_collapseId n;
     ar_body := an_body n |}.

Definition parseReason (body : string) : string :=
  match json_parse body with
  | None | Some JNull => let start := js_slice 100 body in if truthy start then start else "Unknown"
  | Some parsed => default "Unknown" (json_string "reason" parsed)
  end.

(** From the headers to the request written on the session, with no [await]. *)
Definition start_request (environment : ApnsEnvironment) (deviceToken : string) (n : ApnsNotification)
    (v : PushWorld) : PushWorld * (nat * ApnsRequest) :=
  let t := push_clock v in
  let '(token, a) := providerToken t (pu_apns v) in
  let r := request_of environment deviceToken token n in
  (put_apns (log_request r t (session environment a)) v, (List.length (ap_requests a), r)).

(** The answer, or the error of the connection, which drops the session. *)
Definition end_request (environment : ApnsEnvironment) (i : nat) (r : ApnsRequest) (v : PushWorld) :
    PushWorld * ApnsReply :=
  let reply := ap_answer (pu_apns v) i r in
  (match reply with
   | reply_response _ _ => v
   | reply_error _ => put_apns (dropSession environment (pu_apns v)) v
   end, reply).

Definition result_of (reply : ApnsReply) : ApnsSendResult :=
  match reply with
  | reply_response status body =>
      if status =? 200 then apns_ok
      else let reason := parseReason body in
           apns_rejected status reason ((status =? 410) || existsb (String.eqb reason) INVALID_TOKEN_REASONS)
  | reply_error message => apns_rejected 0 message false
  end.

Definition apns_send (environment : ApnsEnvironment) (deviceToken : string) (n : ApnsNotification) : push ApnsSendResult :=
  started <- Act (start_request environment deviceToken n) Ret ;;
  reply <- Act (end_request environment (fst started) (snd started)) Ret ;;
  Ret (result_of reply).
End Client.

(** ** push.service.ts *)

(** [CHAT_TURN_FINISHED_EVENT] *)
Record ChatTurnFinishedEvent := { ctf_sessionId : string; ctf_objective : string; ctf_ok : bool }.

Record PushTestResult := { ptr_enabled : bool; ptr_sent : Z; ptr_failed : Z }.

Module PushService.
Section Service.
Context {Sign : NodeSign} {Parser : JsonParse} (client : option ApnsCredentials).

Definition enabled : bool := match client with Some _ => true | None => false end.

(** [this.client!.send(...)] *)
Definition client_send (environment : ApnsEnvironment) (token : string) (n : ApnsNotification) : push ApnsSendResult :=
  match client with
  | Some credentials => apns_send credentials environment token n
  | None => Throw (PlainError "Cannot read properties of null (reading 'send')")
  end.

Definition safely (work : push unit) : push unit := catch work (fun _ => Ret tt).

Definition wants (kind : option PushKind) (device : PushDeviceRow) : bool :=
  match kind with Some kind => wantsKind (pd_preferences device) kind | None => true end.

(** The loop over the devices, with what is sent and what fails so far. *)
Fixpoint broadcast_to (kind : option PushKind) (n : ApnsNotification) (devices : list PushDeviceRow) (sent failed : Z) :
    push (Z * Z) :=
  match devices with
  | [] => Ret (sent, failed)
  | device :: devices' =>
      if wants kind device then
        result <- client_send (pd_environment device) (pd_token device) n ;;
        match result with
        | apns_ok => broadcast_to kind n devices' (sent + 1) failed
        | apns_rejected _ _ invalidToken =>
            (if invalidToken : bool then PushStore.deleteDevice (pd_token device) else Ret tt) ;;;
            broadcast_to kind n devices' sent (failed + 1)
        end
      else broadcast_to kind n devices' sent failed
  end.

Definition broadcast (kind : option PushKind) (n : ApnsNotification) : push (Z * Z) :=
  devices <- PushStore.listDevices ;; broadcast_to kind n devices 0 0.

Definition guard (kind : PushKind) (build : push (option ApnsNotification)) : push unit :=
  if enabled then
    safely (notification <- build ;;
            match notification with
            | Some n => broadcast (Some kind) n ;;; Ret tt
            | None => Ret tt
            end)
  else Ret tt.

(** One activity token: it is forgotten when Apple says that it is invalid. *)
Definition send_activity (n : ApnsNotification) (r : PushActivityTokenRow) : push unit :=
  result <- client_send (pt_environment r) (pt_token r) n ;;
  match result with
  | apns_rejected _ _ true => PushStore.deleteActivityToken (pt_token r)
  | _ => Ret tt
  end.

Definition startActivity (n : ApnsNotification) : push unit :=
  tokens <- PushStore.startTokens ;; for_each tokens (send_activity n).

(** *** From the events to the notices *)

Definition onApprovalCreated (requestId toolName : string) (level : HitlLevel) : push unit :=
  guard approval_new
    (row <- push_read (fun v => w_pending (pu_world v) !! requestId) ;;
     Ret (Some (approvalNewPayload requestId toolName level (row ≫= pa_planSummary)))).

Definition onApprovalEscalated (requestId toolName : string) : push unit :=
  guard approval_expiring (Ret (Some (approvalExpiringPayload requestId toolName))).

Definition onActionNotified (toolName : string) (relaxedBy : option string) : push unit :=
  guard notify_executed (Ret (Some (notifyExecutedPayload toolName relaxedBy))).

Definition onBudgetThreshold (ratio threshold : Qc) : push unit :=
  guard push_budget (Ret (Some (budgetPayload ratio threshold))).

Definition onKillSwitch (reason : option string) (activatedAt : option Z) : push unit :=
  guard kill_switch (Ret (Some (killSwitchPayload reason))) ;;;
  safely (t <- push_now ;;
          startActivity (liveActivityStartPayload kind_killSwitch "kill" (killSwitchContentState reason activatedAt)
            (text_of "❄ Agentes congelados", text_of "Kill switch activado.") t)).

Definition onRelayMessage (id : string) (direction : Direction) : push unit :=
  match direction with
  | dir_in => Ret tt
  | dir_out =>
      guard bridge_message
        (row <- push_read (fun v => List.find (fun r => String.eqb (rm_id r) id) (pu_relay v)) ;;
         Ret ((fun r => bridgeMessagePayload id (rm_body r) (rm_options r)) <$> row))
  end.

Definition onMorningAlert (event : MorningAlertEvent) : push unit :=
  guard morning_summary_kind (Ret (Some (morningSummaryPayload event))).

Definition onChatTurnFinished (event : ChatTurnFinishedEvent) : push unit :=
  guard chat_done (Ret (Some (chatDonePayload (ctf_sessionId event) (ctf_objective event) (ctf_ok event)))).

(** *** Live Activities of a run *)

Definition snapshot_ticket (ticket : Ticket) (comments : list TicketComment) : SnapshotTicket := {|
  st_description := t_description ticket;
  st_status := t_status ticket;
  st_assignedSubAgentId := t_assignedSubAgentId ticket;
  st_commentKinds := map tc_kind comments;
  st_lastConflictBody := tc_body <$> last (List.filter (fun c => String.eqb (tc_kind c) "conflict") comments) |}.

(** The comments of the tickets are asked for together; the reads change nothing, and are
    answered here in the order of the tickets. *)
Fixpoint with_comments (tickets : list Ticket) : push (list SnapshotTicket) :=
  match tickets with
  | [] => Ret []
  | ticket :: tickets' =>
      comments <- push_services (Ledger.getComments (t_id ticket)) ;;
      rest <- with_comments tickets' ;;
      Ret (snapshot_ticket ticket comments :: rest)
  end.

Definition orchestrationSnapshot (runId : string) : push (option OrchestrationSnapshot) :=
  run <- push_services (Ledger.getRun runId) ;;
  match run with
  | None => Ret None
  | Some run =>
      tickets <- push_services (Ledger.getTickets runId) ;;
      withComments <- with_comments tickets ;;
      Ret (Some {| os_objective := run_objective (rs_row run); os_status := run_status (rs_row run);
                   os_createdAt := run_createdAt (rs_row run); os_completedAt := run_completedAt (rs_row run);
                   os_tickets := withComments |})
  end.

(** Nothing of the run has started. *)
Definition just_created (state : ActivityContentState) : bool :=
  bool_decide (cs_phase state = phase_running) && forallb (fun s => bool_decide (s = mark_pending)) (cs_segments state).

Definition update_alert (state : ActivityContentState) : option (text * text) :=
  match cs_phase state with
  | phase_conflict => Some (text_of "Conflicto", text_of "Un sub-agente necesita tu decisión")
  | phase_done => Some (text_of "Terminado", text_of (cs_title state))
  | phase_failed => Some (text_of "Terminó con fallos", text_of (cs_title state))
  | phase_running => None
  end.

Definition update_notification (state : ActivityContentState) (t : Z) : ApnsNotification :=
  liveActivityUpdatePayload kind_orchestration state
    (if bool_decide (cs_phase state = phase_done) then Some 4 else None) (update_alert state) t.

Definition start_notification (runId : string) (snapshot : OrchestrationSnapshot) (state : ActivityContentState) (t : Z) :
    ApnsNotification :=
  liveActivityStartPayload kind_orchestration runId state
    (text_of "Jin reparte el trabajo", text_of (os_objective snapshot)) t.

Definition onRunChanged (runId : string) : push unit :=
  if enabled then
    safely
      (snapshot <- orchestrationSnapshot runId ;;
       match snapshot with
       | None => Ret tt
       | Some snapshot =>
           let state := orchestrationContentState snapshot in
           tokens <- PushStore.activityTokensFor runId ;;
           match tokens with
           | [] =>
               if just_created state
               then t <- push_now ;; startActivity (start_notification runId snapshot state t)
               else Ret tt
           | _ =>
               t <- push_now ;;
               for_each tokens (send_activity (update_notification state t))
           end
       end)
  else Ret tt.

(** The listener of an event of the services, if there is one. *)
Definition on_push_event (event : DomainEvent) : push unit :=
  match event with
  | PENDING_APPROVAL_CREATED_EVENT requestId toolName level => onApprovalCreated requestId toolName level
  | HITL_APPROVAL_ESCALATED_EVENT requestId toolName => onApprovalEscalated requestId toolName
  | HITL_ACTION_NOTIFIED_EVENT _ toolName _ relaxedBy => onActionNotified toolName relaxedBy
  | BUDGET_THRESHOLD_CROSSED_EVENT ratio threshold => onBudgetThreshold ratio threshold
  | KILL_SWITCH_ACTIVATED_EVENT reason activatedAt => onKillSwitch reason activatedAt
  | ORCHESTRATION_RUN_CHANGED_EVENT runId => onRunChanged runId
  | _ => Ret tt
  end.

Definition sendTest : push PushTestResult :=
  if enabled then
    counts <- broadcast None testPayload ;;
    Ret {| ptr_enabled := true; ptr_sent := fst counts; ptr_failed := snd counts |}
  else Ret {| ptr_enabled := false; ptr_sent := 0; ptr_failed := 0 |}.

Definition onModuleDestroy : push unit :=
  if enabled then writes (fun v => put_apns (close (pu_apns v)) v) else Ret tt.
End Service.
End PushService.

(** ** push.controller.ts *)

(** [ApnsTokenSchema] *)
Definition is_apns_token (s : string) : bool :=
  let n := String.length s in (64 <=? n)%nat && (n <=? 512)%nat && forallb is_hex (list_ascii_of_string s).

Definition parse_token (v : json) : option string :=
  match json_string "token" v with Some s => if is_apns_token s then Some s else None | None => None end.

Definition environment_name (e : ApnsEnvironment) : string :=
  match e with sandbox => "sandbox" | production => "production" end.

(** [z.enum(APNS_ENVIRONMENTS)] *)
Definition parse_environment (v : json) : option ApnsEnvironment :=
  name ← json_string "environment" v;
  List.find (fun e => String.eqb (environment_name e) name) APNS_ENVIRONMENTS.

Definition is_push_kind (key : string) : bool := existsb (fun k => String.eqb (push_kind_name k) key) PUSH_KINDS.

(** [z.record(z.string(), z.boolean())] with the keys of [PUSH_KINDS]. *)
Fixpoint parse_preference_fields (fields : list (string * json)) (m : gmap string bool) : option (gmap string bool) :=
  match fields with
  | [] => Some m
  | (key, JBool b) :: fields' => if is_push_kind key then parse_preference_fields fields' (<[key := b]> m) else None
  | _ => None
  end.

Definition parse_preferences (v : json) : option (gmap string bool) :=
  match json_field "preferences" v with
  | None => Some ∅
  | Some (JObj fields) => parse_preference_fields fields ∅
  | Some _ => None
  end.

Definition RegisterDeviceSchema (v : json) : option DeviceInput :=
  token ← parse_token v;
  environment ← parse_environment v;
  preferences ← parse_preferences v;
  Some {| di_token := token; di_environment := environment; di_preferences := preferences |}.

Definition parse_purpose (v : json) : option TokenPurpose :=
  match json_string "purpose" v with
  | Some name =>
      if String.eqb name "update" then Some purpose_update
      else if String.eqb name "start" then Some purpose_start else None
  | None => None
  end.

(** [z.string().min(1).max(n).optional()] *)
Definition parse_short_string (key : string) (max : Z) (v : json) : option (option string) :=
  match json_field key v with
  | None => Some None
  | Some (JStr s) => if (1 <=? js_length s) && (js_length s <=? max) then Some (Some s) else None
  | Some _ => None
  end.

Definition RegisterActivityTokenSchema (v : json) : option ActivityTokenInput :=
  purpose ← parse_purpose v;
  token ← parse_token v;
  environment ← parse_environment v;
  kind ← parse_short_string "kind" 40 v;
  referenceId ← parse_short_string "referenceId" 100 v;
  if bool_decide (purpose = purpose_start) || (bool_decide (is_Some kind) && bool_decide (is_Some referenceId))
  then Some {| ai_token := token; ai_environment := environment; ai_purpose := purpose; ai_kind := kind;
               ai_referenceId := referenceId |}
  else None.

Module PushController.
Section Controller.
Context {Sign : NodeSign} {Parser : JsonParse} (client : option ApnsCredentials).

(** The body of a request that the schema refuses does not reach its handler. *)
Definition registerDevice (body : json) : push (option unit) :=
  match RegisterDeviceSchema body with
  | Some input => PushStore.upsertDevice input ;;; Ret (Some tt)
  | None => Ret None
  end.

Definition unregisterDevice (token : string) : push unit := PushStore.deleteDevice token.

Definition registerActivityToken (body : json) : push (option unit) :=
  match RegisterActivityTokenSchema body with
  | Some input => PushStore.upsertActivityToken input ;;; Ret (Some tt)
  | None => Ret None
  end.

Definition status : bool := PushService.enabled client.
Definition test : push PushTestResult := PushService.sendTest client.
End Controller.
End PushController.
