(* ===== verification/PushSafety.v ===== *)
(** * PushSafety: notifications tell, and decide nothing

    What every action of the listeners leaves alone, that none of them breaks the method
    whose event it hears, the age of the tokens that Apple is shown, and who gets a notice. *)
From S2P Require Import Prelude Effects Js Text Registry Store Relay OwnerTerminal Orchestrator Budget TelegramBot Push PushService.
From Stdlib Require Import Ascii String QArith Qcanon Sorted.
Local Open Scope stdpp_scope.
Local Open Scope Z_scope.
Local Open Scope jin_scope.

(** ** What an action of the notifications may change *)

(** The tables of the services: all of the store but its counters. *)
Definition same_tables (w w' : World) : Prop :=
  exists s, clock s = clock (w_sys w) /\ w' = upd_sys (fun _ => s) w.

#[export] Instance same_tables_preorder : PreOrder same_tables.
Proof.
  split; [intros w; exists (w_sys w); by destruct w|]. intros w1 w2 w3 (s & Hs & ->) (s' & Hs' & ->). by exists s'; split; [etrans|].
Qed.

Lemma same_tables_tick w : same_tables w (tick w).
Proof. eexists; split; [|reflexivity]. done. Qed.

Section Moves.
Context {Sign : NodeSign} {Parser : JsonParse} (client : option ApnsCredentials).

(** The client of Apple loses sessions, or makes a request at time [t]. *)
Definition apns_move (t : Z) (a a' : ApnsClientState) : Prop :=
  (exists l, a' = set_sessions l a) \/
  (exists credentials environment r token, client = Some credentials /\ ar_authorization r = "bearer " +:+ token /\
     exists a1, providerToken credentials t a = (token, a1) /\ a' = log_request r t (session environment a1)).

Definition tells (v v' : PushWorld) : Prop :=
  same_tables (pu_world v) (pu_world v') /\ pu_relay v' = pu_relay v /\ apns_move (push_clock v) (pu_apns v) (pu_apns v').

Lemma apns_move_refl t a : apns_move t a a.
Proof. left. exists (ap_sessions a). by destruct a. Qed.

Lemma tells_same v v' :
  same_tables (pu_world v) (pu_world v') -> pu_relay v' = pu_relay v -> pu_apns v' = pu_apns v -> tells v v'.
Proof. intros Hw Hr Ha. split; [done|]. split; [done|]. rewrite Ha. apply apns_move_refl. Qed.

Lemma tells_read {X} (f : PushWorld -> X) : steps tells (push_read f).
Proof. apply steps_statement_on; intros v; apply tells_same; done || apply same_tables_tick. Qed.

Lemma tells_devices f : steps tells (push_write (fun v => put_devices (f v) v)).
Proof. apply steps_statement_on; intros v; apply tells_same; done || apply same_tables_tick. Qed.

Lemma tells_tokens f : steps tells (push_write (fun v => put_tokens (f v) v)).
Proof. apply steps_statement_on; intros v; apply tells_same; done || apply same_tables_tick. Qed.

Lemma tells_now : steps tells push_now.
Proof. split; [intros v; by apply tells_same|done]. Qed.

Lemma tells_services {A} (p : jin A) : steps same_tables p -> steps tells (push_services p).
Proof. intros Hp. eapply steps_zoom; [|exact Hp]. intros w v Hw. by apply tells_same. Qed.

Lemma tells_send credentials environment token n :
  client = Some credentials -> steps tells (apns_send credentials environment token n).
Proof.
  intros Hc. split; [|intros [i r]; split; [|done]]; intros v.
  - unfold start_request. destruct (providerToken _ _ _) as [t a] eqn:Ht. cbn.
    split; [done|]. split; [done|]. right.
    exists credentials, environment, (request_of credentials environment token t n), t. split; [done|]. split; [done|].
    by exists a.
  - unfold end_request. cbn. case_match; [by apply tells_same|]. split; [done|]. split; [done|]. left. by eexists.
Qed.

Lemma tells_client_send environment token n : steps tells (PushService.client_send client environment token n).
Proof. unfold PushService.client_send. destruct client eqn:E; [by apply tells_send|done]. Qed.
End Moves.

Create HintDb notices.
#[export] Hint Resolve tells_read tells_devices tells_tokens tells_now tells_client_send : notices.

(** One statement after the other, by the hints of [notices]. *)
Ltac tells_tac :=
  repeat first
    [ solve [auto with notices]
    | apply steps_bind | apply steps_catch | apply steps_for_each
    | progress intros
    | done
    | case_match ].

Section Listeners.
Context {Sign : NodeSign} {Parser : JsonParse} (client : option ApnsCredentials).
Abbreviation tells := (tells client).

Lemma tells_deleteDevice token : steps tells (PushStore.deleteDevice token).
Proof. apply tells_devices. Qed.
Lemma tells_deleteActivityToken token : steps tells (PushStore.deleteActivityToken token).
Proof. apply tells_tokens. Qed.
Lemma tells_upsertDevice input : steps tells (PushStore.upsertDevice input).
Proof. apply steps_bind; [apply tells_now|]. intros t. apply tells_devices. Qed.
Lemma tells_upsertActivityToken input : steps tells (PushStore.upsertActivityToken input).
Proof. unfold PushStore.upsertActivityToken. tells_tac. Qed.
Lemma tells_activityTokensFor referenceId : steps tells (PushStore.activityTokensFor referenceId).
Proof. unfold PushStore.activityTokensFor, PushStore.pruneActivityTokens. tells_tac. Qed.
Hint Resolve tells_deleteDevice tells_deleteActivityToken tells_activityTokensFor : notices.

Lemma tells_broadcast_to kind n devices : forall sent failed,
  steps tells (PushService.broadcast_to client kind n devices sent failed).
Proof.
  induction devices as [|d devices IH]; intros sent failed; cbn [PushService.broadcast_to]; [done|].
  destruct (PushService.wants kind d); [|apply IH]. apply steps_bind; [auto with notices|].
  intros [|status reason invalid]; [apply IH|]. apply steps_bind; [by destruct invalid; auto with notices|].
  intros _. apply IH.
Qed.

Lemma tells_broadcast kind n : steps tells (PushService.broadcast client kind n).
Proof. apply steps_bind; [apply tells_read|]. intros l. apply tells_broadcast_to. Qed.
Hint Resolve tells_broadcast : notices.

Lemma tells_startActivity n : steps tells (PushService.startActivity client n).
Proof. unfold PushService.startActivity, PushService.send_activity, PushStore.startTokens. tells_tac. Qed.
Hint Resolve tells_startActivity : notices.

Lemma tells_db_read {X} (f : World -> X) : steps same_tables (db_read f).
Proof. apply steps_db; [intros w; apply same_tables_tick|]. intros w. apply same_tables_tick. Qed.

Lemma tells_snapshot runId : steps tells (PushService.orchestrationSnapshot runId).
Proof.
  assert (Hc : forall tickets, steps tells (PushService.with_comments tickets)).
  { induction tickets as [|t tickets IH]; cbn [PushService.with_comments]; [done|].
    apply steps_bind; [apply tells_services, tells_db_read|]. intros comments. apply steps_bind; [exact IH|done]. }
  apply steps_bind.
  { apply tells_services. unfold Ledger.getRun. apply steps_bind; [apply tells_db_read|done]. }
  intros [run|]; [|done]. apply steps_bind; [apply tells_services, tells_db_read|]. intros tickets.
  apply steps_bind; [apply Hc|done].
Qed.

(** A method guarded by [safely] returns. *)
Lemma safely_returns work : steps tells work -> steps_to tells (PushService.safely work) (fun r => r = inr tt).
Proof.
  intros Hw. apply steps_to_catch. eapply steps_to_mono; [by apply steps_to_steps|].
  by intros [e|[]] _.
Qed.

Lemma guard_returns kind build :
  steps tells build -> steps_to tells (PushService.guard client kind build) (fun r => r = inr tt).
Proof.
  intros Hb. unfold PushService.guard. destruct (PushService.enabled client); [|done].
  apply safely_returns. apply steps_bind; [exact Hb|]. intros [n|]; [|done].
  apply steps_bind; [apply tells_broadcast|done].
Qed.

Lemma run_changed_returns runId : steps_to tells (PushService.onRunChanged client runId) (fun r => r = inr tt).
Proof.
  unfold PushService.onRunChanged. destruct (PushService.enabled client); [|done].
  apply safely_returns. apply steps_bind; [apply tells_snapshot|]. intros [snapshot|]; [|done].
  cbv zeta. unfold PushService.send_activity. tells_tac.
Qed.

Lemma kill_switch_returns reason activatedAt :
  steps_to tells (PushService.onKillSwitch client reason activatedAt) (fun r => r = inr tt).
Proof.
  unfold PushService.onKillSwitch. apply steps_to_bind. eapply steps_to_mono; [by apply guard_returns|].
  intros r ->. apply safely_returns. tells_tac.
Qed.

(** The listeners of the notifications. *)
Inductive push_listener : push unit -> Prop :=
| listener_event event : push_listener (PushService.on_push_event client event)
| listener_relay id direction : push_listener (PushService.onRelayMessage client id direction)
| listener_morning event : push_listener (PushService.onMorningAlert client event)
| listener_chat event : push_listener (PushService.onChatTurnFinished client event).

Lemma listener_returns p : push_listener p -> steps_to tells p (fun r => r = inr tt).
Proof.
  intros [event|id direction|event|event].
  - destruct event; cbn [PushService.on_push_event]; try done;
      first [apply kill_switch_returns|apply run_changed_returns|apply guard_returns; unfold PushService.onApprovalCreated; tells_tac].
  - destruct direction; [done|]. apply guard_returns. tells_tac.
  - by apply guard_returns.
  - by apply guard_returns.
Qed.
End Listeners.

(** ** Notifications only tell *)

Section Tell.
Context {Sign : NodeSign} {Parser : JsonParse} (client : option ApnsCredentials).

(** Meanwhile the clock advances and Apple closes sessions. *)
Definition push_env (v v' : PushWorld) : Prop :=
  same_tables (upd_sys (fun s => {| clock := push_clock v'; statements := statements s; fault := fault s; uuids := uuids s |})
                 (pu_world v)) (pu_world v') /\
  push_clock v <= push_clock v' /\ pu_relay v' = pu_relay v /\
  exists l, pu_apns v' = set_sessions l (pu_apns v).

(** All the tables but those of the notifications. *)
Definition tables_of (v : PushWorld) : World * list RelayMessageRow := (upd_sys (fun _ => w_sys (empty_world 0)) (pu_world v), pu_relay v).

Lemma tells_tables v v' : tells client v v' -> tables_of v' = tables_of v.
Proof. intros ((s & _ & Hw) & Hr & _). unfold tables_of. by rewrite Hw, Hr. Qed.

Lemma env_tables v v' : push_env v v' -> tables_of v' = tables_of v.
Proof. intros ((s & _ & Hw) & _ & Hr & _). unfold tables_of. by rewrite Hw, Hr. Qed.

(** C35. Notifications only tell: however the listeners of the notifications interleave and
    whatever fails (the database, the connection to Apple, its answers), none of them
    throws into the method whose event it hears, and no table of the other services
    changes: no approval is decided, nothing is executed, nothing is written to the log. *)
Theorem notifications_only_tell (v0 : PushWorld) (c : config PushWorld JinError unit) :
  reachable push_env (push_listener client) v0 c ->
  tables_of (c_store c) = tables_of v0 /\
  Forall (fun p => forall e, p <> Throw e) (c_pool c).
Proof.
  intros Hr.
  destruct (steps_to_outcomes push_env (push_listener client) (tells client) (fun v => tables_of v = tables_of v0)
    (fun r => r = inr tt) v0 c) as [HI Hp]; [apply listener_returns| | |done|done|].
  - intros v v' Hv <-. by apply tells_tables.
  - intros v v' Hv <-. by apply env_tables.
  - split; [exact HI|]. eapply Forall_impl; [exact Hp|]. by intros p Hq e ->.
Qed.
End Tell.

(** ** The tokens shown to Apple *)

Section Tokens.
Context {Sign : NodeSign} {Parser : JsonParse} (credentials : ApnsCredentials).

(** A request and its time: it shows a token signed less than the lifetime before. *)
Definition shows_fresh_token (signed : list Z) (rt : ApnsRequest * Z) : Prop :=
  exists i, i ∈ signed /\ ar_authorization (fst rt) = "bearer " +:+ signProviderToken credentials i /\
    i <= snd rt < i + JWT_LIFETIME_MS.

(** No token is signed within the lifetime of another. *)
Definition spaced (signed : list Z) : Prop := StronglySorted (fun i j => i + JWT_LIFETIME_MS <= j) signed.

Definition tokens_in_order (v : PushWorld) : Prop :=
  let a := pu_apns v in
  Forall (fun i => i <= push_clock v) (ap_signed a) /\ spaced (ap_signed a) /\
  match ap_cachedToken a with
  | None => ap_signed a = []
  | Some (value, i) => value = signProviderToken credentials i /\ i ∈ ap_signed a /\ Forall (fun j => j <= i) (ap_signed a)
  end /\
  Forall (shows_fresh_token (ap_signed a)) (ap_requests a).

Lemma spaced_snoc signed t :
  spaced signed -> Forall (fun i => i + JWT_LIFETIME_MS <= t) signed -> spaced (signed ++ [t]).
Proof.
  unfold spaced. intros Hs Ht. induction Hs as [|i signed Hs IH Hi]; cbn; [by repeat constructor|].
  apply Forall_cons in Ht as [Hit Ht]. constructor; [by apply IH|]. apply Forall_app; by repeat constructor.
Qed.

Lemma fresh_weaken signed t rts :
  Forall (shows_fresh_token signed) rts -> Forall (shows_fresh_token (signed ++ [t])) rts.
Proof.
  intros Hf. eapply Forall_impl; [exact Hf|]. intros rt (i & Hi & H). exists i. split; [|exact H]. apply elem_of_app. by left.
Qed.

Lemma tokens_after_request v v' environment r token a1 :
  push_clock v' = push_clock v ->
  providerToken credentials (push_clock v) (pu_apns v) = (token, a1) ->
  ar_authorization r = "bearer " +:+ token ->
  pu_apns v' = log_request r (push_clock v) (session environment a1) ->
  tokens_in_order v -> tokens_in_order v'.
Proof.
  intros Hclock Ht Hr Hv' (Hle & Hsp & Hc & Hreq). unfold tokens_in_order. rewrite Hclock, Hv'.
  assert (Hsame : forall a, ap_signed (log_request r (push_clock v) (session environment a)) = ap_signed a /\
    ap_cachedToken (log_request r (push_clock v) (session environment a)) = ap_cachedToken a /\
    ap_requests (log_request r (push_clock v) (session environment a)) = ap_requests a ++ [(r, push_clock v)]).
  { intros a. unfold session. destruct (bool_decide _); by splits. }
  destruct (Hsame a1) as (-> & -> & ->). clear Hsame Hv'.
  assert (Hrenew : a1 = {| ap_cachedToken := Some (signProviderToken credentials (push_clock v), push_clock v);
      ap_sessions := ap_sessions (pu_apns v); ap_connections := ap_connections (pu_apns v);
      ap_signed := ap_signed (pu_apns v) ++ [push_clock v]; ap_requests := ap_requests (pu_apns v);
      ap_answer := ap_answer (pu_apns v) |} -> token = signProviderToken credentials (push_clock v) ->
    Forall (fun i => i + JWT_LIFETIME_MS <= push_clock v) (ap_signed (pu_apns v)) ->
    Forall (fun i => i <= push_clock v) (ap_signed a1) /\ spaced (ap_signed a1) /\
    match ap_cachedToken a1 with
    | None => ap_signed a1 = []
    | Some (value, i) => value = signProviderToken credentials i /\ i ∈ ap_signed a1 /\ Forall (fun j => j <= i) (ap_signed a1)
    end /\ Forall (shows_fresh_token (ap_signed a1)) (ap_requests a1 ++ [(r, push_clock v)])).
  { intros -> -> Hsep. cbn. split; [apply Forall_app; split; [done|by constructor]|]. split; [by apply spaced_snoc|].
    split; [split; [done|]; split; [apply elem_of_app; right; by left|apply Forall_app; split; [done|by constructor]]|].
    apply Forall_app. split; [by apply fresh_weaken|]. constructor; [|done].
    exists (push_clock v). split; [apply elem_of_app; right; by left|]. split; [done|]. cbn. unfold JWT_LIFETIME_MS. lia. }
  revert Ht. unfold providerToken. destruct (ap_cachedToken (pu_apns v)) as [[value i]|] eqn:Ec.
  - destruct Hc as (-> & Hi & Hmax). destruct (_ <? _) eqn:Hlt; intros [= <- <-].
    + split; [done|]. split; [done|]. rewrite Ec. split; [done|]. apply Forall_app. split; [done|]. constructor; [|done].
      exists i. split; [done|]. split; [done|]. cbn. apply Z.ltb_lt in Hlt. rewrite Forall_forall in Hle. specialize (Hle i Hi). lia.
    + apply Hrenew; [done..|]. apply Z.ltb_ge in Hlt. eapply Forall_impl; [exact Hmax|]. cbn. intros. lia.
  - intros [= <- <-]. apply Hrenew; [done..|]. by rewrite Hc.
Qed.

Lemma tells_tokens_in_order v v' : tells (Some credentials) v v' -> tokens_in_order v -> tokens_in_order v'.
Proof.
  intros ((s & Hs & Hw) & _ & [[l Ha]|(c & environment & r & token & [= <-] & Hr & a1 & Ht & Ha)]) Hv;
    assert (Hclock : push_clock v' = push_clock v) by (unfold push_clock; by rewrite Hw).
  - unfold tokens_in_order. by rewrite Hclock, Ha.
  - by eapply tokens_after_request.
Qed.

Lemma env_tokens_in_order v v' : push_env v v' -> tokens_in_order v -> tokens_in_order v'.
Proof.
  intros (_ & Hclock & _ & l & Ha) (Hle & H). unfold tokens_in_order. rewrite Ha. split; [|exact H].
  eapply Forall_impl; [exact Hle|]. cbn. intros. lia.
Qed.

(** All the methods of the component. *)
Inductive push_client : push unit -> Prop :=
| client_listener p : push_listener (Some credentials) p -> push_client p
| client_device body : push_client (discard (PushController.registerDevice body))
| client_unregister token : push_client (PushController.unregisterDevice token)
| client_activity body : push_client (discard (PushController.registerActivityToken body))
| client_test : push_client (discard (PushController.test (Some credentials)))
| client_destroy : push_client (PushService.onModuleDestroy (Some credentials)).

Lemma client_tells p : push_client p -> steps_to (tells (Some credentials)) p (fun _ => True).
Proof.
  intros [q Hq|body|token|body| |].
  - eapply steps_to_mono; [by apply listener_returns|done].
  - apply steps_to_steps. apply steps_bind; [|done]. unfold PushController.registerDevice. case_match; [|done].
    apply steps_bind; [apply tells_upsertDevice|done].
  - apply steps_to_steps, tells_deleteDevice.
  - apply steps_to_steps. apply steps_bind; [|done]. unfold PushController.registerActivityToken. case_match; [|done].
    apply steps_bind; [apply tells_upsertActivityToken|done].
  - apply steps_to_steps. apply steps_bind; [|done]. apply steps_bind; [apply tells_broadcast|done].
  - apply steps_to_steps. split; [|done]. intros v. split; [done|]. split; [done|]. left. by eexists.
Qed.

(** The tokens shown to Apple are fresh and few: whatever notices are sent at the same
    time, each request shows a token signed less than fifty minutes before it (Apple
    refuses one of an hour), and no two tokens are signed less than fifty minutes apart
    (Apple asks for no more than one every twenty). *)
Lemma provider_tokens_are_fresh (v0 : PushWorld) (c : config PushWorld JinError unit) :
  tokens_in_order v0 -> reachable push_env push_client v0 c ->
  let a := pu_apns (c_store c) in
  Forall (shows_fresh_token (ap_signed a)) (ap_requests a) /\ spaced (ap_signed a).
Proof.
  intros H0 Hr.
  destruct (steps_to_outcomes push_env push_client (tells (Some credentials)) tokens_in_order (fun _ => True) v0 c)
    as [(_ & Hsp & _ & Hreq) _]; [apply client_tells|apply tells_tokens_in_order|apply env_tokens_in_order|done..].
Qed.
End Tokens.

(** ** Who gets a notice *)

Section Broadcast.
Context {Sign : NodeSign} {Parser : JsonParse} (credentials : ApnsCredentials).

(** The request that brings [n] to a device. *)
Definition brings (n : ApnsNotification) (d : PushDeviceRow) (rt : ApnsRequest * Z) : Prop :=
  ar_environment (fst rt) = pd_environment d /\ ar_path (fst rt) = "/3/device/" +:+ pd_token d /\
  ar_body (fst rt) = an_body n.

Definition refused (result : ApnsSendResult) : bool := match result with apns_rejected _ _ invalid => invalid | apns_ok => false end.
Definition arrived (result : ApnsSendResult) : bool := match result with apns_ok => true | _ => false end.

(** How many of the results are so. *)
Definition count_results (f : ApnsSendResult -> bool) (verdicts : list (PushDeviceRow * ApnsSendResult)) : Z :=
  Z.of_nat (List.length (List.filter (fun dv => f (snd dv)) verdicts)).

(** Apple said that the token is invalid. *)
Definition invalidated (verdicts : list (PushDeviceRow * ApnsSendResult)) (token : string) : Prop :=
  exists dv, dv ∈ verdicts /\ pd_token (fst dv) = token /\ refused (snd dv) = true.

Lemma run_apns_send d n v :
  exists v' result rt,
    run (apns_send credentials (pd_environment d) (pd_token d) n) v = (v', inr result) /\
    pu_world v' = pu_world v /\ pu_devices v' = pu_devices v /\
    ap_requests (pu_apns v') = ap_requests (pu_apns v) ++ [rt] /\ brings n d rt.
Proof.
  unfold apns_send. cbn [bind run]. unfold start_request.
  destruct (providerToken credentials (push_clock v) (pu_apns v)) as [token a] eqn:Ht. cbn [fst snd].
  assert (Ha : ap_requests a = ap_requests (pu_apns v)).
  { revert Ht. unfold providerToken. repeat case_match; by intros [= _ <-]. }
  assert (Hs : ap_requests (session (pd_environment d) a) = ap_requests (pu_apns v)).
  { unfold session. destruct (bool_decide _); exact Ha. }
  unfold end_request. cbn [put_apns pu_apns]. destruct (ap_answer _ _ _) as [status body|message];
    do 3 eexists; (split; [reflexivity|]);
    cbn [put_apns pu_world pu_devices pu_apns dropSession set_sessions log_request ap_requests]; rewrite Hs; by splits.
Qed.

Lemma run_deleteDevice token v :
  healthy (pu_world v) ->
  run (PushStore.deleteDevice token) v = (put_devices (delete token (pu_devices v)) (pu_put (tick (pu_world v)) v), inr tt).
Proof. intros Hv. unfold PushStore.deleteDevice, push_write. rewrite run_statement_on. cbv zeta. by no_fault Hv. Qed.

Lemma invalidated_cons dv verdicts token :
  invalidated (dv :: verdicts) token <-> (pd_token (fst dv) = token /\ refused (snd dv) = true) \/ invalidated verdicts token.
Proof.
  split.
  - intros (dv' & [->|Hin]%elem_of_cons & H); [by left|right; by exists dv'].
  - intros [H|(dv' & Hin & H)]; [exists dv; split; [by left|done]|exists dv'; split; [by right|done]].
Qed.

Lemma run_broadcast_to kind n devices : forall sent failed v,
  healthy (pu_world v) ->
  exists v' verdicts new,
    run (PushService.broadcast_to (Some credentials) kind n devices sent failed) v =
      (v', inr (sent + count_results arrived verdicts, failed + count_results (fun r => negb (arrived r)) verdicts)) /\
    map fst verdicts = List.filter (PushService.wants kind) devices /\
    ap_requests (pu_apns v') = ap_requests (pu_apns v) ++ new /\ Forall2 (brings n) (map fst verdicts) new /\
    forall token row, pu_devices v' !! token = Some row <-> pu_devices v !! token = Some row /\ ~ invalidated verdicts token.
Proof.
  induction devices as [|d devices IH]; intros sent failed v Hv; cbn [PushService.broadcast_to].
  { exists v, [], []. unfold count_results. cbn. rewrite !Z.add_0_r, app_nil_r. split; [done|]. split; [done|]. split; [done|].
    split; [constructor|]. intros token row. split; [|by intros []]. intros H. split; [done|]. by intros (dv & Hin%elem_of_nil & _). }
  cbn [List.filter]. destruct (PushService.wants kind d); [|by apply IH].
  destruct (run_apns_send d n v) as (v1 & result & rt & Hrun & Hw1 & Hd1 & Hreq1 & Hrt).
  rewrite run_bind. cbn [PushService.client_send]. rewrite Hrun.
  destruct result as [|status reason invalid].
  - destruct (IH (sent + 1) failed v1) as (v' & verdicts & new & Hr & Hm & Hreq & Hnew & Hdev); [by rewrite Hw1|].
    exists v', ((d, apns_ok) :: verdicts), (rt :: new). unfold count_results in *. cbn.
    split; [rewrite Hr; do 3 f_equal; lia|]. split; [by rewrite Hm|]. split; [by rewrite Hreq, Hreq1, <- app_assoc|].
    split; [by constructor|]. intros token row. rewrite Hdev, Hd1, invalidated_cons. cbn. naive_solver.
  - set (v2 := if invalid then put_devices (delete (pd_token d) (pu_devices v1)) (pu_put (tick (pu_world v1)) v1) else v1).
    assert (Hv2 : healthy (pu_world v2) /\ pu_apns v2 = pu_apns v1 /\
      forall token row, pu_devices v2 !! token = Some row <->
        pu_devices v1 !! token = Some row /\ ~ (pd_token d = token /\ invalid = true)).
    { unfold v2. destruct invalid; rewrite <- Hw1 in Hv; cbn; (split; [auto with jin|]; split; [done|]); intros token row;
        [rewrite lookup_delete_Some|]; naive_solver. }
    rewrite run_bind.
    assert (Hdel : run (if invalid then PushStore.deleteDevice (pd_token d) else Ret tt) v1 = (v2, inr tt)).
    { unfold v2. destruct invalid; [|done]. apply run_deleteDevice. by rewrite Hw1. }
    rewrite Hdel. destruct Hv2 as (Hh & Ha & Hlook).
    destruct (IH sent (failed + 1) v2) as (v' & verdicts & new & Hr & Hm & Hreq & Hnew & Hdev); [done|].
    exists v', ((d, apns_rejected status reason invalid) :: verdicts), (rt :: new). unfold count_results in *. cbn.
    split; [rewrite Hr; do 3 f_equal; lia|]. split; [by rewrite Hm|]. split; [by rewrite Hreq, Ha, Hreq1, <- app_assoc|].
    split; [by constructor|]. intros token row. rewrite Hdev, Hlook, Hd1, invalidated_cons. cbn. naive_solver.
Qed.

(** Each device is told once: a notice goes to every device that wants its kind, once
    and in the order of the table, whatever Apple answers to the others; the two counts
    are those of its answers, and the only devices forgotten are those whose token Apple
    declared invalid. *)
Lemma each_device_is_told_once (kind : option PushKind) (n : ApnsNotification) (v : PushWorld) :
  healthy (pu_world v) ->
  exists v' verdicts new,
    run (PushService.broadcast (Some credentials) kind n) v =
      (v', inr (count_results arrived verdicts, count_results (fun r => negb (arrived r)) verdicts)) /\
    map fst verdicts = List.filter (PushService.wants kind) (rows (pu_devices v)) /\
    ap_requests (pu_apns v') = ap_requests (pu_apns v) ++ new /\ Forall2 (brings n) (map fst verdicts) new /\
    forall token row, pu_devices v' !! token = Some row <-> pu_devices v !! token = Some row /\ ~ invalidated verdicts token.
Proof.
  intros Hv. unfold PushService.broadcast, PushStore.listDevices, push_read. rewrite run_bind, run_statement_on.
  cbv zeta. no_fault Hv. cbn [fst snd].
  destruct (run_broadcast_to kind n (rows (pu_devices v)) 0 0 (pu_put (tick (pu_world v)) v)) as (v' & verdicts & new & H);
    [by auto with jin|].
  exists v', verdicts, new. exact H.
Qed.
End Broadcast.

(** ** What is shown *)

Lemma truncate_length max s : (0 < max)%nat -> (List.length (truncate max s) <= max)%nat.
Proof.
  intros Hmax. unfold truncate. case_match eqn:E; [by apply Nat.leb_le|].
  rewrite length_app, length_take. change (List.length (text_of "…")) with 1%nat. apply Nat.leb_gt in E. lia.
Qed.

(** A run shows each of its sub-agents once, with the state of its tickets. *)
Lemma agents_from_once tickets rest : forall agents,
  NoDup (map ag_id agents) -> Forall (fun a => a = agent_state tickets (ag_id a)) agents ->
  let shown := agents_from tickets rest agents in
  NoDup (map ag_id shown) /\ Forall (fun a => a = agent_state tickets (ag_id a)) shown /\
  forall a, a ∈ map ag_id shown <->
    a ∈ map ag_id agents \/ exists t, t ∈ rest /\ st_assignedSubAgentId t = Some a /\ truthy a = true.
Proof.
  induction rest as [|t rest IH]; intros agents Hnd Hst; cbn [agents_from].
  { split; [done|]. split; [done|]. intros a. split; [by left|]. intros [H|(t & H%elem_of_nil & _)]; done. }
  set (agent := default "" (st_assignedSubAgentId t)).
  destruct (negb (truthy agent) || existsb (fun a => String.eqb (ag_id a) agent) agents) eqn:E.
  - destruct (IH agents Hnd Hst) as (H1 & H2 & H3). split; [done|]. split; [done|].
    intros a. rewrite H3. setoid_rewrite elem_of_cons. split; [naive_solver|].
    intros [H|(t' & [->|Hin] & Ha & Htr)]; [by left| |naive_solver]. left.
    unfold agent in E. rewrite Ha in E. cbn in E. rewrite Htr in E. cbn in E.
    apply existsb_exists in E as (x & Hx & <-%String.eqb_eq). apply list_elem_of_fmap. exists x. split; [done|].
    by apply list_elem_of_In.
  - apply orb_false_iff in E as [Htr%negb_false_iff E].
    assert (Hnew : agent ∉ map ag_id agents).
    { intros (x & Hx & Hin)%list_elem_of_fmap. apply list_elem_of_In in Hin. apply not_true_iff_false in E. apply E.
      apply existsb_exists. exists x. split; [done|]. by rewrite Hx, String.eqb_refl. }
    destruct (IH (agents ++ [agent_state tickets agent])) as (H1 & H2 & H3).
    { rewrite map_app. apply NoDup_app. split; [done|]. split; [|apply NoDup_singleton]. intros a Ha ->%list_elem_of_singleton. done. }
    { apply Forall_app. split; [done|]. by constructor. }
    split; [done|]. split; [done|]. intros a. rewrite H3, map_app, elem_of_app. cbn. setoid_rewrite elem_of_cons.
    unfold agent in *. destruct (st_assignedSubAgentId t) as [b|] eqn:Eb; cbn in *; [|done].
    split; [|naive_solver]. intros [[H|[->|H%elem_of_nil]]|H]; [naive_solver|right; exists t; by split; [left|]|done|naive_solver].
Qed.

Lemma each_agent_is_shown_once snapshot :
  let shown := cs_agents (orchestrationContentState snapshot) in
  NoDup (map ag_id shown) /\
  forall a, a ∈ map ag_id shown <->
    exists t, t ∈ os_tickets snapshot /\ st_assignedSubAgentId t = Some a /\ truthy a = true.
Proof.
  destruct (agents_from_once (os_tickets snapshot) (os_tickets snapshot) []) as (H1 & _ & H3); [constructor..|].
  split; [exact H1|]. intros a. cbn. rewrite H3. split; [|by right]. by intros [H%elem_of_nil|H].
Qed.

Module PushExamples.
#[local] Instance signer : NodeSign := {| sign_p256 l := l |}.
#[local] Instance no_json : JsonParse := {| json_parse _ := None |}.

Definition credentials : ApnsCredentials := {| ac_keyId := "K"; ac_teamId := "T"; ac_bundleId := "dev.jin" |}.

Definition device (token : string) : PushDeviceRow :=
  {| pd_token := token; pd_environment := production; pd_preferences := ∅; pd_createdAt := 0; pd_lastSeenAt := 0 |}.

(** Apple refuses the device b: it is no longer registered. *)
Definition answers (n : nat) (r : ApnsRequest) : ApnsReply :=
  if String.eqb (ar_path r) "/3/device/b" then reply_response 410 "Unregistered" else reply_response 200 "".

Definition client0 : ApnsClientState :=
  {| ap_cachedToken := None; ap_sessions := []; ap_connections := []; ap_signed := []; ap_requests := []; ap_answer := answers |}.

Definition push_store (w : World) : PushWorld :=
  {| pu_world := w; pu_relay := []; pu_devices := {[ "a" := device "a"; "b" := device "b" ]}; pu_tokens := ∅; pu_apns := client0 |}.
Definition store : PushWorld := push_store (empty_world 1000).

Definition tell : push unit := PushService.onChatTurnFinished (Some credentials) {| ctf_sessionId := "s"; ctf_objective := "x"; ctf_ok := true |}.

Example one_is_forgotten :
  map fst (map_to_list (pu_devices (run tell store).1)) = ["a"] /\
  List.length (ap_requests (pu_apns (run tell store).1)) = 2%nat.
Proof. vm_compute. by split. Qed.

(** A phone gives the token that starts its activities: that of another is forgotten. *)
Definition start_token (token : string) : ActivityTokenInput :=
  {| ai_token := token; ai_environment := production; ai_purpose := purpose_start; ai_kind := None; ai_referenceId := None |}.

Lemma the_last_phone_takes_the_start_token :
  map fst (map_to_list (pu_tokens
    (run (PushStore.upsertActivityToken (start_token "a") ;;; PushStore.upsertActivityToken (start_token "b")) store).1)) =
  ["b"].
Proof. vm_compute. reflexivity. Qed.

(** Two at the same time are both kept. *)
Lemma two_start_tokens_of_an_environment :
  List.length (map_to_list (pu_tokens (c_store (Effects.interleave [0; 1; 0; 1]%nat store
    [PushStore.upsertActivityToken (start_token "a"); PushStore.upsertActivityToken (start_token "b")])))) = 2%nat.
Proof. vm_compute. reflexivity. Qed.

(** A run with one ticket, just created; the app has given the token that starts activities. *)
Definition ticket : Ticket :=
  {| t_id := "t"; t_runId := "r"; t_description := "d"; t_status := tk_pending; t_assignedSubAgentId := None;
     t_allowedTools := []; t_dependsOn := []; t_result := None |}.
Definition run_row : AgentOrchestrationRunRow :=
  {| run_objective := "o"; run_status := run_running; run_parentSessionId := "s"; run_finalResponse := None;
     run_createdAt := 1000; run_completedAt := None |}.
Definition with_run : PushWorld :=
  put_tokens {[ "a" := activity_row (start_token "a") 0 None ]}
    (push_store (upd_ledger (fun _ => {| agentOrchestrationRuns := {[ "r" := run_row ]}; agentTickets := [ticket];
                                         agentTicketComments := [] |}) (empty_world 1000))).

Definition listener : push unit := PushService.onRunChanged (Some credentials) "r".
Definition first_batch : push unit := push_services (Ledger.updateTicketStatus "t" tk_in_progress None).

(** The activity starts when the listener is alone, and never does when the run goes on
    to its first ticket while the listener reads. *)
Lemma an_activity_may_never_start :
  List.length (ap_requests (pu_apns (run listener with_run).1)) = 1%nat /\
  ap_requests (pu_apns (c_store (Effects.interleave ([0; 1] ++ List.repeat 0 20)%nat with_run [listener; first_batch]))) = [].
Proof. vm_compute. by split. Qed.

(** With notifications off, the activity of the kill switch is still tried. *)
Lemma the_activity_is_tried_with_push_off :
  List.length (map_to_list (pu_tokens with_run)) = 1%nat /\
  statements (w_sys (pu_world (run (PushService.onKillSwitch None None None) with_run).1)) = 1%nat.
Proof. vm_compute. by split. Qed.
End PushExamples.

(** ** The theorems at a concrete input *)

#[local] Existing Instance PushExamples.signer.
#[local] Existing Instance PushExamples.no_json.

Lemma notifications_only_tell_witness :
  tables_of (run PushExamples.tell PushExamples.store).1 = tables_of PushExamples.store.
Proof.
  apply (@notifications_only_tell PushExamples.signer PushExamples.no_json (Some PushExamples.credentials)
    PushExamples.store (Config (run PushExamples.tell PushExamples.store).1 [Ret tt])).
  apply (reachable_run1 _ _ _ PushExamples.store [] [] PushExamples.tell); [|vm_compute; reflexivity].
  eapply reach_step; [apply reach_init|]. apply (step_spawn _ _ _ []). apply listener_chat.
Defined.

Lemma provider_tokens_are_fresh_witness :
  Forall (shows_fresh_token PushExamples.credentials (ap_signed (pu_apns (run PushExamples.tell PushExamples.store).1)))
    (ap_requests (pu_apns (run PushExamples.tell PushExamples.store).1)).
Proof.
  apply (@provider_tokens_are_fresh PushExamples.signer PushExamples.no_json PushExamples.credentials
    PushExamples.store (Config (run PushExamples.tell PushExamples.store).1 [Ret tt])).
  - unfold tokens_in_order, spaced. cbn. repeat constructor.
  - apply (reachable_run1 _ _ _ PushExamples.store [] [] PushExamples.tell); [|vm_compute; reflexivity].
    eapply reach_step; [apply reach_init|]. apply (step_spawn _ _ _ []). apply client_listener, listener_chat.
Defined.

Lemma each_device_is_told_once_witness :
  exists v' verdicts new,
    run (@PushService.broadcast PushExamples.signer PushExamples.no_json (Some PushExamples.credentials) (Some chat_done) testPayload)
      PushExamples.store =
      (v', inr (count_results arrived verdicts, count_results (fun r => negb (arrived r)) verdicts)) /\
    map fst verdicts = List.filter (PushService.wants (Some chat_done)) (rows (pu_devices PushExamples.store)) /\
    ap_requests (pu_apns v') = ap_requests (pu_apns PushExamples.store) ++ new /\
    Forall2 (brings testPayload) (map fst verdicts) new /\
    forall token row, pu_devices v' !! token = Some row <->
      pu_devices PushExamples.store !! token = Some row /\ ~ invalidated verdicts token.
Proof. by apply (@each_device_is_told_once PushExamples.signer PushExamples.no_json PushExamples.credentials). Defined.
