(* ===== verification/Previews.v ===== *)
(** * Previews: the applications that the owner and the agent publish

    [src/executor-client/demo-env.logic.ts], [env-vault.service.ts],
    [preview-template.logic.ts], [executor-client.service.ts], [executor-client.module.ts],
    [owner-preview-publish.service.ts] and [preview-services.controller.ts].  The executor
    that runs the pods is another program, as in TerminalClient.v: [fetch] records the
    request and answers what an oracle says. *)
From S2P Require Import Prelude Effects Js Text Regex Registry Store AuditApi AuditLog Hitl Autonomy FeatureFlags TerminalClient.
From Stdlib Require Import Ascii String.
Local Open Scope stdpp_scope.
Local Open Scope Z_scope.
Local Open Scope jin_scope.

(** ** demo-env.logic.ts *)

(** An object of strings, in the order of its keys. *)
Abbreviation strings := (list (string * string)).

Definition keys (l : strings) : list string := map fst l.
Definition has_key (key : string) (l : strings) : bool := existsb (fun kv => String.eqb (fst kv) key) l.

Definition is_upper (c : ascii) : bool := let n := nat_of_ascii c in ((65 <=? n) && (n <=? 90))%nat.
Definition is_env_char (c : ascii) : bool :=
  let n := nat_of_ascii c in is_upper c || ((48 <=? n) && (n <=? 57))%nat || (n =? 95)%nat.

(** [/^[A-Z][A-Z0-9_]{0,63}$/] *)
Definition ENV_NAME_PATTERN (s : string) : bool :=
  match s with
  | EmptyString => false
  | String c s' => is_upper c && forallb is_env_char (list_ascii_of_string s') && (String.length s' <=? 63)%nat
  end.

Definition MAX_ENV_VARS : nat := 30.
Definition MAX_ENV_VALUE_BYTES : nat := 8 * 1024.
Definition MAX_ENV_TOTAL_BYTES : nat := 64 * 1024.

Definition RESERVED_NAMES : list string :=
  ["PORT"; "PATH"; "HOME"; "HOSTNAME"; "USER"; "SHELL"; "TZ"; "CI"; "PNPM_HOME"; "XDG_CACHE_HOME"; "DATABASE_URL";
   "REDIS_URL"; "MONGODB_URI"; "SQLITE_PATH"; "MAIL_EGRESS_PROXY"; "HTTP_PROXY"; "HTTPS_PROXY"; "NO_PROXY"; "ALL_PROXY"].
Definition RESERVED_PREFIXES : list string := ["NODE_"; "LD_"; "NPM_CONFIG_"; "KUBERNETES_"].

Record EnvProblem := { ep_name : string; ep_reason : string }.

Definition isReservedEnvName (name : string) : bool :=
  existsb (String.eqb name) RESERVED_NAMES || existsb (fun prefix => String.prefix prefix name) RESERVED_PREFIXES.

Definition kilobytes (n : nat) : string := pretty (n / 1024)%nat.

(** The problems of one variable, and the bytes it adds to the total. *)
Definition env_problems_of (name value : string) : list EnvProblem * nat :=
  if negb (ENV_NAME_PATTERN name)
  then ([{| ep_name := js_slice 64 name;
            ep_reason := "nombre inválido (MAYÚSCULAS, números y _; empieza con letra)" |}], 0%nat)
  else
    ((if isReservedEnvName name then [{| ep_name := name; ep_reason := "nombre reservado por Jin" |}] else []) ++
     (if (MAX_ENV_VALUE_BYTES <? String.length value)%nat
      then [{| ep_name := name; ep_reason := "el valor supera " +:+ kilobytes MAX_ENV_VALUE_BYTES +:+ " KB" |}] else []),
     String.length value).

Definition validateDemoEnv (env : strings) : list EnvProblem :=
  let each := map (fun kv => env_problems_of (fst kv) (snd kv)) env in
  (if (MAX_ENV_VARS <? List.length env)%nat
   then [{| ep_name := "(todas)"; ep_reason := "máximo " +:+ pretty MAX_ENV_VARS +:+ " variables" |}] else []) ++
  List.concat (map fst each) ++
  (if (MAX_ENV_TOTAL_BYTES <? list_sum (map snd each))%nat
   then [{| ep_name := "(todas)"; ep_reason := "el total supera " +:+ kilobytes MAX_ENV_TOTAL_BYTES +:+ " KB" |}] else []).

(** ** env-vault.service.ts *)

Definition DEFAULT_TTL_MS : Z := 24 * 60 * 60 * 1000.
Definition MAX_ENTRIES : nat := 50.

Record VaultEntry := { ve_env : strings; ve_expiresAt : Z }.

Abbreviation Vault := (gmap string VaultEntry).

Module EnvVault.
Definition purge (nowMs : Z) (v : Vault) : Vault := filter (fun kv => (ve_expiresAt kv.2 <=? nowMs) = false) v.

Definition put (requestId : string) (env : strings) (ttlMs nowMs : Z) (v : Vault) : Vault * (JinError + unit) :=
  let v := purge nowMs v in
  if (MAX_ENTRIES <=? size v)%nat && negb (bool_decide (is_Some (v !! requestId)))
  then (v, inl (PlainError "Hay demasiadas publicaciones con variables pendientes de aprobación; resuelve alguna primero."))
  else (<[requestId := {| ve_env := env; ve_expiresAt := nowMs + ttlMs |}]> v, inr tt).

Definition take (requestId : string) (nowMs : Z) (v : Vault) : Vault * option strings :=
  (delete requestId v,
   match v !! requestId with
   | Some entry => if ve_expiresAt entry <=? nowMs then None else Some (ve_env entry)
   | None => None
   end).

Definition discard (requestId : string) (v : Vault) : Vault := delete requestId v.

Definition has (requestId : string) (nowMs : Z) (v : Vault) : bool :=
  match v !! requestId with Some entry => nowMs <? ve_expiresAt entry | None => false end.
End EnvVault.

(** ** preview-template.logic.ts *)

Definition STATIC_TEMPLATE : string := "static".
Definition STATIC_TEMPLATE_PORT : Z := 8080.
Definition STATIC_SERVER_PATH : string := ".jin/static-server.mjs".
Definition NODE_TEMPLATE : string := "node".
Definition DEMO_DB_ENGINES : list string := ["sqlite"; "redis"; "postgres"; "mongodb"].
Definition DB_NEEDS_NODE_TEMPLATE : list string := ["redis"; "postgres"; "mongodb"].
Definition NODE_TEMPLATE_PORT : Z := 8080.
Definition NODE_TEMPLATE_COMMAND : list string :=
  ["sh"; "-c";
   "if [ -f package-lock.json ]; then npm ci; else npm install; fi && npm run build --if-present && exec npm start"].

Record PreviewServiceToolInput := {
  pv_files : strings;
  pv_template : option string;
  pv_command : option (list string);
  pv_port : option Z;
  pv_ttlSeconds : Z;
  pv_slugHint : option string;
  pv_mailEgress : option bool;
  pv_db : option string;
  pv_secrets : option (list string);
  pv_envNames : option (list string)
}.

(** What the executor is asked for. *)
Record StartPreviewServiceInput := {
  sp_ttlSeconds : Z;
  sp_slugHint : option string;
  sp_mailEgress : bool;
  sp_db : option string;
  sp_secrets : option (list string);
  sp_files : strings;
  sp_command : list string;
  sp_port : Z;
  sp_npm : bool
}.

Definition is_lower_digit (c : ascii) : bool :=
  let n := nat_of_ascii c in (((97 <=? n) && (n <=? 122)) || ((48 <=? n) && (n <=? 57)))%nat.

(** [/^[a-z0-9][a-z0-9-]{0,38}$/] *)
Definition SECRET_NAME_PATTERN (s : string) : bool :=
  match s with
  | EmptyString => false
  | String c s' =>
      is_lower_digit c && forallb (fun c => is_lower_digit c || Ascii.eqb c "-"%char) (list_ascii_of_string s') &&
      (String.length s' <=? 38)%nat
  end.
Definition MAX_SECRETS : nat := 5.

Abbreviation checked A := (JinError + A)%type.
Definition invalid {A} (message : string) : checked A := inl (PreviewTemplateInputError message).

(** [[...new Set(l)]] *)
Definition distinct (l : list string) : list string :=
  fold_left (fun acc s => if existsb (String.eqb s) acc then acc else acc ++ [s]) l [].

Definition parseSecrets (secrets : option (list string)) : checked (option (list string)) :=
  match secrets with
  | None | Some [] => inr None
  | Some l =>
      if (MAX_SECRETS <? List.length l)%nat
      then invalid ("secrets admite como máximo " +:+ pretty MAX_SECRETS +:+ " nombres.")
      else match List.find (fun name => negb (SECRET_NAME_PATTERN name)) l with
           | Some name =>
               invalid ("Nombre de secreto inválido: " +:+ quoted name +:+
                        " (minúsculas, números y guiones; es el nombre, NO el valor).")
           | None => inr (Some (distinct l))
           end
  end.

Definition parseDb (db : option string) : checked (option string) :=
  match db with
  | None => inr None
  | Some db' =>
      if existsb (String.eqb db') DEMO_DB_ENGINES then inr db
      else invalid ("db desconocida: " +:+ quoted db' +:+ ". Valores válidos: " +:+
                    join ", " (map quoted DEMO_DB_ENGINES) +:+ ".")
  end.

(** *** Names of secrets *)

(** [r.test(s)]: a match at some position. *)
Fixpoint test_from (r : regex) (before s : text) : bool :=
  match exec r before s with
  | Some _ => true
  | None => match s with [] => false | c :: s' => test_from r (c :: before) s' end
  end.
Definition test (r : regex) (s : text) : bool := test_from r [] s.

Definition at_start : regex := Look (fun before _ => match before with [] => true | _ => false end).
Definition at_end : regex := Look (fun _ s => match s with [] => true | _ => false end).

(** The flag [i], for the letters of the patterns. *)
Definition fold_case (c : Z) : Z := if (65 <=? c) && (c <=? 90) then c + 32 else c.

Definition word (s : string) : regex := lit (units s).
Fixpoint one_of (l : list string) : regex :=
  match l with
  | [] => Look (fun _ _ => false)
  | [s] => word s
  | s :: l' => Or (word s) (one_of l')
  end.

Definition SECRET_EXTENSIONS : list string := ["pem"; "key"; "p12"; "pfx"].
Definition SSH_KEYS : list string := ["rsa"; "ed25519"; "ecdsa"].
Definition TEMPLATE_SUFFIXES : list string := ["example"; "sample"; "template"].

Definition secret_file : regex :=
  Or (Cat (word ".env") (opt (Cat (word ".") (plus dot))))
  (Or (Cat (plus dot) (Cat (word ".") (one_of SECRET_EXTENSIONS)))
  (Or (Cat (word "id_") (Cat (one_of SSH_KEYS) (opt (Cat (word ".") (star dot)))))
  (Or (word ".npmrc") (Or (word ".netrc") (word "brevo.json"))))).

Definition SECRET_FILE_PATTERN : regex := Cat at_start (Cat secret_file at_end).
Definition SECRET_FILE_TEMPLATE_SUFFIX : regex := Cat (word ".") (Cat (one_of TEMPLATE_SUFFIXES) at_end).

(** [path.split('/').pop()] *)
Definition base_name (path : string) : string := default path (last (split_on "/"%char path)).

Definition is_secret_file (path : string) : bool :=
  let base := map fold_case (text_of (base_name path)) in
  test SECRET_FILE_PATTERN base && negb (test SECRET_FILE_TEMPLATE_SUFFIX base).

Definition findSecretFiles (files : strings) : list string := List.filter is_secret_file (keys files).

Definition rejectSecretFiles (files : strings) : checked unit :=
  match findSecretFiles files with
  | [] => inr tt
  | found =>
      invalid ("Estos archivos parecen secretos y no se publican: " +:+ join ", " found +:+
        ". Las claves van como variables de entorno (se piden por aparte), nunca como archivos del proyecto.")
  end.

Section Templates.
Context {Parser : JsonParse}.
(** The text of the server that the template [static] adds. *)
Context (STATIC_SERVER_SOURCE : string).

Definition validateNodePackageJson (files : strings) : checked unit :=
  match List.find (fun kv => String.eqb (fst kv) "package.json") files with
  | None => invalid ("template " +:+ quoted "node" +:+ " necesita un package.json en la raíz (con dependencies y scripts.start).")
  | Some (_, raw) =>
      match json_parse raw with
      | None => invalid "package.json no es JSON válido."
      | Some pkg =>
          match json_field "scripts" pkg ≫= json_string "start", json_string "main" pkg with
          | None, None =>
              invalid "package.json necesita scripts.start (o main) para saber cómo arrancar. El servidor debe escuchar en process.env.PORT."
          | _, _ => inr tt
          end
      end
  end.

(** What the three templates have in common. *)
Definition request (input : PreviewServiceToolInput) (db : option string) (secrets : option (list string))
    (files : strings) (command : list string) (port : Z) (npm : bool) : StartPreviewServiceInput :=
  {| sp_ttlSeconds := pv_ttlSeconds input; sp_slugHint := pv_slugHint input;
     sp_mailEgress := bool_decide (pv_mailEgress input = Some true); sp_db := db; sp_secrets := secrets;
     sp_files := files; sp_command := command; sp_port := port; sp_npm := npm |}.

Definition expand_command (input : PreviewServiceToolInput) (db : option string) (secrets : option (list string)) :
    checked StartPreviewServiceInput :=
  match pv_command input, pv_port input with
  | Some (c :: command), Some port => inr (request input db secrets (pv_files input) (c :: command) port false)
  | _, _ =>
      invalid ("Sin template hay que indicar command y port. Para una web con React/Tailwind usá template: " +:+ quoted "static" +:+
        " con un index.html (dependencias desde CDN): el pod no tiene internet para npm install.")
  end.

Definition expand_node (input : PreviewServiceToolInput) (db : option string) (secrets : option (list string)) :
    checked StartPreviewServiceInput :=
  match validateNodePackageJson (pv_files input) with
  | inl e => inl e
  | inr _ => inr (request input db secrets (pv_files input) NODE_TEMPLATE_COMMAND NODE_TEMPLATE_PORT true)
  end.

Definition expand_static (input : PreviewServiceToolInput) (db : option string) (secrets : option (list string)) :
    checked StartPreviewServiceInput :=
  if negb (has_key "index.html" (pv_files input))
  then invalid ("template " +:+ quoted "static" +:+ " necesita un archivo index.html en la raíz.")
  else if has_key STATIC_SERVER_PATH (pv_files input)
  then invalid (STATIC_SERVER_PATH +:+ " está reservado para el servidor de la plantilla.")
  else inr (request input db secrets (pv_files input ++ [(STATIC_SERVER_PATH, STATIC_SERVER_SOURCE)])
              ["node"; STATIC_SERVER_PATH] STATIC_TEMPLATE_PORT false).

(** The database and the template must agree. *)
Definition check_db_template (db : option string) (template : option string) : checked unit :=
  match db with
  | None => inr tt
  | Some engine =>
      if bool_decide (template = Some STATIC_TEMPLATE)
      then invalid ("db no se puede usar con template " +:+ quoted "static" +:+ ": no tiene backend. Usá template: " +:+
             quoted "node" +:+ " (frontend y API en un servidor Node).")
      else if existsb (String.eqb engine) DB_NEEDS_NODE_TEMPLATE && negb (bool_decide (template = Some NODE_TEMPLATE))
      then invalid (engine +:+ " necesita una librería cliente de npm: usá template: " +:+ quoted "node" +:+
             " con un package.json que la declare. (sqlite sí funciona sin npm, con node:sqlite).")
      else inr tt
  end.

Definition expandPreviewTemplate (input : PreviewServiceToolInput) : checked StartPreviewServiceInput :=
  match rejectSecretFiles (pv_files input) with
  | inl e => inl e
  | inr _ =>
  match parseDb (pv_db input) with
  | inl e => inl e
  | inr db =>
  match parseSecrets (pv_secrets input) with
  | inl e => inl e
  | inr secrets =>
  match check_db_template db (pv_template input) with
  | inl e => inl e
  | inr _ =>
      match pv_template input with
      | None => expand_command input db secrets
      | Some template =>
          if String.eqb template NODE_TEMPLATE then expand_node input db secrets
          else if String.eqb template STATIC_TEMPLATE then expand_static input db secrets
          else invalid ("template desconocido: " +:+ quoted template +:+ ". Valores válidos: " +:+ quoted "static" +:+ ", " +:+
                 quoted "node" +:+ ".")
      end
  end end end end.
End Templates.

(** ** Objects *)

Definition strings_json (l : strings) : json := JObj (map (fun kv => (fst kv, JStr (snd kv))) l).
Definition list_json (l : list string) : json := JArr (map JStr l).

(** A field that is left out when it is [undefined]. *)
Definition field {A} (key : string) (f : A -> json) (o : option A) : list (string * json) :=
  match o with Some x => [(key, f x)] | None => [] end.

(** [{ tool, ...input, env, requestId }], as the executor gets it. *)
Definition start_json (i : StartPreviewServiceInput) (env : option strings) (requestId : option string) : json :=
  JObj ([("tool", JStr "startPreviewService"); ("ttlSeconds", JNum (sp_ttlSeconds i))] ++
    field "slugHint" JStr (sp_slugHint i) ++ (if sp_mailEgress i then [("mailEgress", JBool true)] else []) ++
    field "db" JStr (sp_db i) ++ field "secrets" list_json (sp_secrets i) ++
    [("files", strings_json (sp_files i)); ("command", list_json (sp_command i)); ("port", JNum (sp_port i))] ++
    (if sp_npm i then [("npm", JBool true)] else []) ++
    field "env" strings_json env ++ field "requestId" JStr requestId).

(** The input of the tool as the approval stores it. *)
Definition payload_json (i : PreviewServiceToolInput) : json :=
  JObj ([("files", strings_json (pv_files i))] ++ field "template" JStr (pv_template i) ++ field "db" JStr (pv_db i) ++
    field "mailEgress" JBool (pv_mailEgress i) ++ field "secrets" list_json (pv_secrets i) ++
    field "command" list_json (pv_command i) ++ field "port" JNum (pv_port i) ++
    [("ttlSeconds", JNum (pv_ttlSeconds i))] ++ field "slugHint" JStr (pv_slugHint i) ++
    field "envNames" list_json (pv_envNames i)).

(** Reading it back. *)
Definition as_string (v : json) : option string := match v with JStr s => Some s | _ => None end.
Definition as_number (v : json) : option Z := match v with JNum n => Some n | _ => None end.
Definition as_bool (v : json) : option bool := match v with JBool b => Some b | _ => None end.
Definition as_list (v : json) : option (list string) := match v with JArr l => mapM as_string l | _ => None end.
Definition as_strings (v : json) : option strings :=
  match v with
  | JObj fields => mapM (fun kv => pair (fst kv) <$> as_string (snd kv)) fields
  | _ => None
  end.

(** An optional field. *)
Definition optional {A} (key : string) (f : json -> option A) (v : json) : option (option A) :=
  match json_field key v with None => Some None | Some x => Some <$> f x end.

Definition read_payload (v : json) : option PreviewServiceToolInput :=
  files ← json_field "files" v ≫= as_strings;
  template ← optional "template" as_string v;
  db ← optional "db" as_string v;
  mailEgress ← optional "mailEgress" as_bool v;
  secrets ← optional "secrets" as_list v;
  command ← optional "command" as_list v;
  port ← optional "port" as_number v;
  ttlSeconds ← json_field "ttlSeconds" v ≫= as_number;
  slugHint ← optional "slugHint" as_string v;
  envNames ← optional "envNames" as_list v;
  Some {| pv_files := files; pv_template := template; pv_command := command; pv_port := port; pv_ttlSeconds := ttlSeconds;
          pv_slugHint := slugHint; pv_mailEgress := mailEgress; pv_db := db; pv_secrets := secrets;
          pv_envNames := envNames |}.

(** ** executor-client.service.ts *)

Abbreviation preview := (prog (TermWorld Vault) JinError).

Definition EXECUTE_TIMEOUT_SECONDS : Z := 1800.

Record RunCodeInput := { rc_code : string; rc_language : string }.

(** [rawUrl.replace(/\/+$/, '')] *)
Fixpoint strip_slashes (s : string) : string :=
  match s with
  | EmptyString => ""
  | String c s' =>
      let rest := strip_slashes s' in
      if Ascii.eqb c "/"%char && String.eqb rest "" then "" else String c rest
  end.

Module ExecutorClient.
Section Client.
Context {Parser : JsonParse} (EXECUTOR_BASE_URL : string).

Definition baseUrl : string := strip_slashes EXECUTOR_BASE_URL.

(** A request whose response must be a success. *)
Definition send (method path : string) (body : option json) : preview Response :=
  answer <- fetch {| rq_method := method; rq_url := baseUrl +:+ path; rq_body := body |} ;;
  match answer with
  | net_failure => Throw (PlainError "fetch failed")
  | response status proxied body =>
      let r := {| rs_status := status; rs_proxied := proxied; rs_text := body |} in
      if rs_ok r then Ret r else Throw (ExecutorApiError status body)
  end.

Definition ask (method path : string) (body : option json) : preview json :=
  r <- send method path body ;; json_of r.

Definition runCode (input : RunCodeInput) : preview json :=
  ask "POST" "/execute" (Some (JObj [("tool", JStr "runCode"); ("code", JStr (rc_code input));
    ("language", JStr (rc_language input)); ("env", JObj []); ("timeout", JNum EXECUTE_TIMEOUT_SECONDS)])).

Definition startPreviewService (input : StartPreviewServiceInput) (env : option strings) (requestId : option string) :
    preview json :=
  ask "POST" "/services" (Some (start_json input env requestId)).

Definition service_path (serviceId : string) : string := "/services/" +:+ encodeURIComponent serviceId.

Definition exportPreviewFiles (serviceId dir : string) : preview json :=
  ask "GET" (service_path serviceId +:+ "/files?dir=" +:+ encodeURIComponent dir) None.

Definition extendPreviewService (serviceId : string) (extraSeconds : Z) : preview json :=
  ask "POST" (service_path serviceId +:+ "/extend") (Some (JObj [("extraSeconds", JNum extraSeconds)])).

Definition saveGithubDemo (serviceId slug : string) : preview json :=
  ask "POST" "/github/demos" (Some (JObj [("serviceId", JStr serviceId); ("slug", JStr slug)])).

Definition listGithubDemos : preview json := ask "GET" "/github/demos" None.

Definition stopPreviewService (serviceId : string) : preview unit :=
  send "DELETE" (service_path serviceId) None ;;; Ret tt.

Definition listPreviewServices : preview json := ask "GET" "/services" None.
End Client.
End ExecutorClient.

(** ** executor-client.module.ts *)

(** The names sorted, as they are compared. *)
Fixpoint insert_sorted (s : string) (l : list string) : list string :=
  match l with
  | [] => [s]
  | s' :: l' => if String.leb s s' then s :: l else s' :: insert_sorted s l'
  end.
Definition sort_names (l : list string) : list string := foldr insert_sorted [] l.
Definition joined (l : list string) : string := join "," (sort_names l).

(** [payload as { ... }]: an argument of another shape is not a case of the code. *)
Definition cast {A} (o : option A) : preview A :=
  match o with Some x => Ret x | None => Throw (PlainError "TypeError") end.

Module PreviewTools.
Section Tools.
Context {Parser : JsonParse} (EXECUTOR_BASE_URL STATIC_SERVER_SOURCE : string).

(** One stretch of the vault's code. *)
Definition vault {X} (f : Z -> Vault -> Vault * (JinError + X)) : preview X :=
  sync (fun v => let '(s, r) := f (clock (w_sys (tm_world v))) (tm_state v) in (put_state s v, r)).

Definition UNAVAILABLE : string :=
  "Las variables de entorno de esta demo no están disponibles (Core se reinició o la aprobación venció). Vuelve a publicar con las variables.".

Definition takeEnv (names : list string) (requestId : option string) : preview strings :=
  env <- vault (fun t v =>
           match requestId with
           | Some rid => if truthy rid then let '(v', e) := EnvVault.take rid t v in (v', inr e) else (v, inr None)
           | None => (v, inr None)
           end) ;;
  match (env : option strings) with
  | None =>
      Throw (PlainError UNAVAILABLE)
  | Some env =>
      if String.eqb (joined (keys env)) (joined names) then Ret env
      else Throw (PlainError "Las variables recibidas no coinciden con las aprobadas: no se crea la demo.")
  end.

Definition lift_checked {X} (r : checked X) : preview X := match r with inl e => Throw e | inr x => Ret x end.

Definition startPreview (payload : PreviewServiceToolInput) (requestId : option string) : preview json :=
  input <- lift_checked (expandPreviewTemplate STATIC_SERVER_SOURCE payload) ;;
  env <- match default [] (pv_envNames payload) with
         | [] => Ret None
         | names => env <- takeEnv names requestId ;; Ret (Some env)
         end ;;
  ExecutorClient.startPreviewService EXECUTOR_BASE_URL input env
    (match requestId with Some rid => if truthy rid then Some rid else None | None => None end).

Definition read_run_code (v : json) : option RunCodeInput :=
  code ← json_string "code" v; language ← json_string "language" v; Some {| rc_code := code; rc_language := language |}.

(** The executors that [onModuleInit] registers, by the name of their tool. *)
Definition executors : list (string * (json -> option string -> preview json)) :=
    [("runCode", fun payload _ => i <- cast (read_run_code payload) ;; ExecutorClient.runCode EXECUTOR_BASE_URL i);
     ("startPreviewService", fun payload requestId => i <- cast (read_payload payload) ;; startPreview i requestId);
     ("extendPreviewService", fun payload _ =>
        serviceId <- cast (json_string "serviceId" payload) ;;
        extraSeconds <- cast (json_field "extraSeconds" payload ≫= as_number) ;;
        ExecutorClient.extendPreviewService EXECUTOR_BASE_URL serviceId extraSeconds);
     ("stopPreviewService", fun payload _ =>
        serviceId <- cast (json_string "serviceId" payload) ;;
        ExecutorClient.stopPreviewService EXECUTOR_BASE_URL serviceId ;;;
        Ret (JObj [("serviceId", JStr serviceId); ("stopped", JBool true)]));
     ("listPreviewServices", fun _ _ => ExecutorClient.listPreviewServices EXECUTOR_BASE_URL);
     ("saveDemoToGithub", fun payload _ =>
        serviceId <- cast (json_string "serviceId" payload) ;;
        slug <- cast (json_string "slug" payload) ;;
        ExecutorClient.saveGithubDemo EXECUTOR_BASE_URL serviceId slug);
     ("listGithubDemos", fun _ _ => ExecutorClient.listGithubDemos EXECUTOR_BASE_URL)].

Definition registered (toolName : string) : option (json -> option string -> preview json) :=
  snd <$> List.find (fun kv => String.eqb (fst kv) toolName) executors.

(** [ToolExecutorRegistry.execute] with these executors. *)
Definition execute (toolName : string) (payload : json) (requestId : option string) : preview json :=
  match registered toolName with
  | None => Throw (NoExecutorRegisteredError toolName)
  | Some executor =>
      let rid := default "" requestId in
      service (observe (ExecStart rid toolName payload)) ;;;
      try_with (executor payload requestId)
        (fun result => service (observe (ExecOk rid toolName)) ;;; Ret result)
        (fun err => service (observe (ExecFail rid toolName)) ;;; Throw err)
  end.
End Tools.
End PreviewTools.

(** ** owner-preview-publish.service.ts *)

Definition PREVIEW_TOOL : string := "startPreviewService".
Definition OWNER_ACTOR : string := "owner:api".

Inductive OwnerPublishResult :=
| publish_pending (requestId : string)
| publish_started (requestId : string) (service : json).

Definition plural_s (n : nat) : string := if (n =? 1)%nat then "" else "s".

Definition describeEnv (names : list string) : string :=
  match names with
  | [] => ""
  | _ => ", con " +:+ pretty (List.length names) +:+ " variable" +:+ plural_s (List.length names) +:+ " de entorno (" +:+
         join ", " names +:+ "; valores ocultos)"
  end.

Definition describeTemplate (input : PreviewServiceToolInput) : string :=
  if bool_decide (pv_template input = Some STATIC_TEMPLATE) then "plantilla static"
  else if bool_decide (pv_template input = Some NODE_TEMPLATE) then "plantilla node"
  else "comando " +:+ match pv_command input with Some c => join " " c | None => "?" end.

Definition publish_summary (input : PreviewServiceToolInput) (envNames : list string) : string :=
  let n := List.length (pv_files input) in
  "Publicar una app desde el editor del iPhone (" +:+ pretty n +:+ " archivo" +:+ plural_s n +:+ ", " +:+
  describeTemplate input +:+ describeEnv envNames +:+ "): se expone en https://<slug>.jinserver.com.".

Definition with_envNames (names : list string) (i : PreviewServiceToolInput) : PreviewServiceToolInput :=
  {| pv_files := pv_files i; pv_template := pv_template i; pv_command := pv_command i; pv_port := pv_port i;
     pv_ttlSeconds := pv_ttlSeconds i; pv_slugHint := pv_slugHint i; pv_mailEgress := pv_mailEgress i; pv_db := pv_db i;
     pv_secrets := pv_secrets i;
     pv_envNames := match names with [] => pv_envNames i | _ => Some names end |}.

Module OwnerPublish.
Section Service.
Context `{Api : AuditApi} `{Crypto : NodeCrypto} {Parser : JsonParse}.
Context (EXECUTOR_BASE_URL STATIC_SERVER_SOURCE : string) (autonomy : AutonomyConfig).

Definition decideAndRun (input : PreviewServiceToolInput) (decision : HitlDecision) (inputsHash : string)
    (envNames : list string) : preview OwnerPublishResult :=
  let requestId := hd_requestId decision in
  match hd_level decision with
  | Confirm | DualConfirm =>
      service (DualConfirm.createPendingApproval {|
        cpa_requestId := requestId; cpa_toolName := PREVIEW_TOOL; cpa_level := hd_level decision;
        cpa_inputsHash := inputsHash; cpa_planSummary := Some (publish_summary input envNames);
        cpa_payload := Some (payload_json input); cpa_actor := Some OWNER_ACTOR; cpa_externalInputsSummary := None |}) ;;;
      Ret (publish_pending requestId)
  | Auto | Notify =>
      result <- PreviewTools.execute EXECUTOR_BASE_URL STATIC_SERVER_SOURCE PREVIEW_TOOL (payload_json input) (Some requestId) ;;
      service (audit_toolCall requestId OWNER_ACTOR PREVIEW_TOOL inputsHash
        (match hd_relaxedBy decision with
         | Some mode => Some ("Autoejecutada sin aprobación (" +:+ mode +:+ "): " +:+ quoted PREVIEW_TOOL +:+ " era confirm")
         | None => None
         end)
        (if decide (hd_level decision = Auto) then "auto" else "notified") None) ;;;
      (if decide (hd_level decision = Notify)
       then service (emit (HITL_ACTION_NOTIFIED_EVENT requestId PREVIEW_TOOL OWNER_ACTOR (hd_relaxedBy decision)))
       else Ret tt) ;;;
      Ret (publish_started requestId result)
  end.

Definition problem_text (p : EnvProblem) : string := ep_name p +:+ " (" +:+ ep_reason p +:+ ")".

Definition keep_values (requestId : string) (env : strings) : preview unit :=
  match env with
  | [] => Ret tt
  | _ => PreviewTools.vault (fun t => EnvVault.put requestId env DEFAULT_TTL_MS t)
  end.

Definition publish (rest : PreviewServiceToolInput) (env : option strings) : preview OwnerPublishResult :=
  match validateDemoEnv (default [] env) with
  | (_ :: _) as problems =>
      Throw (BadRequestException ("Variables de entorno inválidas: " +:+ join "; " (map problem_text problems)))
  | [] =>
      let envNames := keys (default [] env) in
      let input := with_envNames envNames rest in
      match expandPreviewTemplate STATIC_SERVER_SOURCE input with
      | inl (PreviewTemplateInputError message) => Throw (BadRequestException message)
      | inl err => Throw err
      | inr _ =>
          decision <- service (HitlPolicy.decide autonomy PREVIEW_TOOL (payload_json input)) ;;
          let inputsHash := computeInputsHash (Some (payload_json input)) in
          keep_values (hd_requestId decision) (default [] env) ;;;
          catch (decideAndRun input decision inputsHash envNames)
            (fun error =>
               PreviewTools.vault (fun _ v => (EnvVault.discard (hd_requestId decision) v, inr tt)) ;;; Throw error)
      end
  end.
End Service.
End OwnerPublish.

(** ** preview-services.controller.ts *)

Definition PUBLISH_MAX_FILES : nat := 50.
Definition PUBLISH_MAX_TOTAL_BYTES : nat := 256 * 1024.

(** Neither absolute nor with a component [..] *)
Definition is_safe_path (path : string) : bool :=
  negb (String.prefix "/" path) && negb (existsb (String.eqb "..") (split_on "/"%char path)).

Definition length_between (least most : Z) (s : string) : bool := (least <=? js_length s) && (js_length s <=? most).

(** [x.refine(p)] *)
Definition refine {A} (p : A -> bool) (o : option A) : option A :=
  match o with Some x => if p x then Some x else None | None => None end.

Definition total_bytes (files : strings) : nat :=
  list_sum (map (fun kv => String.length (fst kv) + String.length (snd kv))%nat files).

Definition parse_files (v : json) : option strings :=
  refine (fun files => (total_bytes files <=? PUBLISH_MAX_TOTAL_BYTES)%nat)
    (refine (fun files => (List.length files <=? PUBLISH_MAX_FILES)%nat)
      (refine (fun files => forallb (fun path => length_between 1 200 path && is_safe_path path) (keys files)) (as_strings v))).

Definition one_of_names (names : list string) (v : json) : option string :=
  refine (fun s => existsb (String.eqb s) names) (as_string v).

Definition publish_keys : list string :=
  ["files"; "template"; "db"; "mailEgress"; "secrets"; "env"; "command"; "port"; "ttlSeconds"; "slugHint"].

(** [.strict()]: no other key. *)
Definition only_keys (allowed : list string) (v : json) : option unit :=
  match v with
  | JObj fields => if forallb (fun kv => existsb (String.eqb (fst kv)) allowed) fields then Some tt else None
  | _ => None
  end.

Definition PublishPreviewSchema (v : json) : option (PreviewServiceToolInput * option strings) :=
  _ ← only_keys publish_keys v;
  files ← json_field "files" v ≫= parse_files;
  template ← optional "template" (one_of_names [STATIC_TEMPLATE; NODE_TEMPLATE]) v;
  db ← optional "db" (one_of_names DEMO_DB_ENGINES) v;
  mailEgress ← optional "mailEgress" as_bool v;
  secrets ← optional "secrets"
    (fun x => refine (fun l => forallb SECRET_NAME_PATTERN l && (List.length l <=? MAX_SECRETS)%nat) (as_list x)) v;
  env ← optional "env" (fun x => refine (fun env => bool_decide (validateDemoEnv env = [])) (as_strings x)) v;
  command ← optional "command"
    (fun x => refine (fun l => forallb (fun s => 1 <=? js_length s) l && (1 <=? List.length l)%nat) (as_list x)) v;
  port ← optional "port" (fun x => refine (fun n => (0 <? n) && (n <=? 65535)) (as_number x)) v;
  ttlSeconds ← json_field "ttlSeconds" v ≫= (fun x => refine (fun n => (60 <=? n) && (n <=? 24 * 60 * 60)) (as_number x));
  slugHint ← optional "slugHint" (fun x => refine (length_between 1 40) (as_string x)) v;
  Some ({| pv_files := files; pv_template := template; pv_command := command; pv_port := port; pv_ttlSeconds := ttlSeconds;
           pv_slugHint := slugHint; pv_mailEgress := mailEgress; pv_db := db; pv_secrets := secrets; pv_envNames := None |},
        env).

Definition PreviewFilesQuerySchema (dir : option string) : option string :=
  match dir with
  | None => Some "."
  | Some dir => refine (fun path => length_between 1 200 path && is_safe_path path) (Some dir)
  end.

Module PreviewController.
Section Controller.
Context `{Api : AuditApi} `{Crypto : NodeCrypto} {Parser : JsonParse}.
Context (EXECUTOR_BASE_URL STATIC_SERVER_SOURCE : string) (autonomy : AutonomyConfig).

(** A request that its schema refuses does not reach the handler. *)
Definition publish (body : json) : preview (option OwnerPublishResult) :=
  match PublishPreviewSchema body with
  | Some (input, env) =>
      result <- OwnerPublish.publish EXECUTOR_BASE_URL STATIC_SERVER_SOURCE autonomy input env ;; Ret (Some result)
  | None => Ret None
  end.

Definition exportFiles (serviceId : string) (dir : option string) : preview (option json) :=
  match PreviewFilesQuerySchema dir with
  | None => Ret None
  | Some dir =>
      requestId <- service randomUUID ;;
      service (audit_toolCall requestId OWNER_ACTOR "exportPreviewFiles"
        (computeInputsHash (Some (JObj [("serviceId", JStr serviceId); ("dir", JStr dir)])))
        (Some ("Traer al editor los archivos del pod " +:+ serviceId +:+ " (" +:+ dir +:+ ")")) "auto" None) ;;;
      result <- ExecutorClient.exportPreviewFiles EXECUTOR_BASE_URL serviceId dir ;;
      Ret (Some result)
  end.

Definition list_services : preview json := ExecutorClient.listPreviewServices EXECUTOR_BASE_URL.
Definition stop (serviceId : string) : preview unit := ExecutorClient.stopPreviewService EXECUTOR_BASE_URL serviceId.
End Controller.
End PreviewController.
