(* ===== verification/PreviewSafety.v ===== *)
(** * PreviewSafety: what a publication may carry

    No file of secrets is published, the values of the variables stay in memory while the
    approval waits, and what happens to them when a launch fails. *)
From S2P Require Import Prelude Effects Js Text Regex Registry Store AuditApi AuditLog Hitl Approval Autonomy FeatureFlags TerminalClient Previews.
From Stdlib Require Import Ascii String.
Local Open Scope stdpp_scope.
Local Open Scope Z_scope.
Local Open Scope jin_scope.

(** ** The names of secrets *)

(** A text on one line. *)
Definition one_line (m : text) : Prop := Forall (fun c => is_line_end c = false) m.

(** The names, in lower case, that the guard takes for those of secrets: the free text
    is on one line, and the SSH keys are those of [SSH_KEYS]. *)
Inductive secret_name : text -> Prop :=
| name_env : secret_name (units ".env")
| name_env_of m : m <> [] -> one_line m -> secret_name (units ".env." ++ m)
| name_key m ext : m <> [] -> one_line m -> ext ∈ SECRET_EXTENSIONS -> secret_name (m ++ units "." ++ units ext)
| name_ssh key : key ∈ SSH_KEYS -> secret_name (units "id_" ++ units key)
| name_ssh_of key m : key ∈ SSH_KEYS -> one_line m -> secret_name (units "id_" ++ units key ++ units "." ++ m)
| name_npmrc : secret_name (units ".npmrc")
| name_netrc : secret_name (units ".netrc")
| name_brevo : secret_name (units "brevo.json").

(** A template of such a file. *)
Definition template_name (m : text) : Prop :=
  exists start suffix, suffix ∈ TEMPLATE_SUFFIXES /\ m = start ++ units "." ++ units suffix.

Definition keeps_secrets (path : string) : Prop :=
  let base := map fold_case (text_of (base_name path)) in secret_name base /\ ~ template_name base.

Lemma one_line_dot m : Forall (fun c => dot c = true) m <-> one_line m.
Proof. unfold one_line. rewrite !Forall_forall. unfold dot, not_in. by setoid_rewrite negb_true_iff. Qed.

Lemma lang_one_of s l m : lang (one_of (s :: l)) m <-> exists x, x ∈ s :: l /\ m = units x.
Proof.
  revert s. induction l as [|s' l IH]; intros s.
  - change (lang (word s) m <-> exists x, x ∈ [s] /\ m = units x). unfold word. rewrite lang_lit.
    setoid_rewrite list_elem_of_singleton. split; [intros ->; by exists s|]. by intros (x & -> & ->).
  - change (lang (word s) m \/ lang (one_of (s' :: l)) m <-> exists x, x ∈ s :: s' :: l /\ m = units x).
    rewrite IH. unfold word. rewrite lang_lit. setoid_rewrite (elem_of_cons (s' :: l)). naive_solver.
Qed.

Lemma lang_plus_dot m : lang (plus dot) m <-> m <> [] /\ one_line m.
Proof.
  unfold plus. rewrite lang_many, one_line_dot. cbn [at_most]. destruct m; cbn; [|naive_solver lia].
  split; [intros (_ & H & _); specialize (H I); lia|by intros []].
Qed.

Lemma lang_star_dot m : lang (star dot) m <-> one_line m.
Proof. unfold star. rewrite lang_many, one_line_dot. cbn [at_most]. split; [tauto|]. intros H. split; [done|lia]. Qed.

Lemma lang_cat a b m1 m2 : lang a m1 -> lang b m2 -> lang (Cat a b) (m1 ++ m2).
Proof. intros H1 H2. by exists m1, m2. Qed.

Lemma lang_word s : lang (word s) (units s).
Proof. by apply lang_lit. Qed.

(** Take a word of an expression apart. *)
Ltac lang_apart :=
  repeat match goal with
  | H : lang (Cat _ _) _ |- _ => destruct H as (? & ? & -> & ? & ?)
  | H : lang (Or _ _) _ |- _ => destruct H as [H|H]
  | H : lang (word _) _ |- _ => apply lang_lit in H as ->
  | H : lang (opt _) _ |- _ => apply lang_opt in H as [->|H]
  | H : lang (plus dot) _ |- _ => apply lang_plus_dot in H as [? ?]
  | H : lang (star dot) _ |- _ => apply lang_star_dot in H
  | H : lang (one_of _) _ |- _ => apply lang_one_of in H as (? & ? & ->)
  end.

(** The expression is the list of names. *)
Lemma lang_secret_file m : lang secret_file m <-> secret_name m.
Proof.
  assert (Hkeys : forall key, key ∈ SSH_KEYS -> lang (one_of SSH_KEYS) (units key)) by (intros key H; apply lang_one_of; eauto).
  assert (Hexts : forall ext, ext ∈ SECRET_EXTENSIONS -> lang (one_of SECRET_EXTENSIONS) (units ext)) by (intros ext H; apply lang_one_of; eauto).
  split.
  - unfold secret_file, SECRET_EXTENSIONS, SSH_KEYS. intros H. lang_apart; rewrite ?app_nil_r.
    + constructor.
    + by apply name_env_of.
    + by apply name_key.
    + by apply name_ssh.
    + by apply name_ssh_of.
    + constructor.
    + constructor.
    + constructor.
  - intros [|m' Hm Hl|m' ext Hm Hl Hext|key Hkey|key m' Hkey Hl| | |].
    + left. rewrite <- (app_nil_r (units ".env")). apply lang_cat; [apply lang_word|]. apply lang_opt. by left.
    + left. change (units ".env." ++ m') with (units ".env" ++ (units "." ++ m')). apply lang_cat; [apply lang_word|].
      apply lang_opt. right. apply lang_cat; [apply lang_word|by apply lang_plus_dot].
    + right; left. apply lang_cat; [by apply lang_plus_dot|]. apply lang_cat; [apply lang_word|by apply Hexts].
    + right; right; left. apply lang_cat; [apply lang_word|]. rewrite <- (app_nil_r (units key)).
      apply lang_cat; [by apply Hkeys|]. apply lang_opt. by left.
    + right; right; left. apply lang_cat; [apply lang_word|]. apply lang_cat; [by apply Hkeys|]. apply lang_opt. right.
      apply lang_cat; [apply lang_word|by apply lang_star_dot].
    + do 3 right; left. apply lang_word.
    + do 4 right; left. apply lang_word.
    + do 5 right. apply lang_word.
Qed.

(** What [test] finds. *)
Lemma test_from_spec r : advances r -> forall s before,
  test_from r before s = true <->
  exists m rest y, s = m ++ rest /\ matches r {| behind := rev m ++ before; ahead := rest; groups := [] |} y.
Proof.
  intros Hr s. induction s as [|c s IH]; intros before; cbn [test_from]; destruct (exec r before _) as [z|] eqn:E.
  - split; [|done]. intros _. destruct (exec_passes _ _ _ _ E) as (m & y & Hy & _). by exists [], [], y.
  - split; [done|]. intros (m & rest & y & Hm & Hy). symmetry in Hm. apply app_eq_nil in Hm as [-> ->].
    by apply (exec_complete r before [] y Hr) in Hy.
  - split; [|done]. intros _. destruct (exec_passes _ _ _ _ E) as (m & y & Hy & _). by exists [], (c :: s), y.
  - rewrite IH. split.
    + intros (m & rest & y & -> & Hy). exists (c :: m), rest, y. split; [done|]. cbn [rev]. by rewrite <- app_assoc.
    + intros ([|d m] & rest & y & Hm & Hy); cbn in Hm.
      * subst. by apply (exec_complete r before _ y Hr) in Hy.
      * injection Hm as <- ->. exists m, rest, y. split; [done|]. cbn [rev] in Hy. by rewrite <- app_assoc in Hy.
Qed.

Lemma test_spec r s :
  advances r ->
  test r s = true <-> exists m rest y, s = m ++ rest /\ matches r {| behind := rev m; ahead := rest; groups := [] |} y.
Proof. intros Hr. unfold test. rewrite (test_from_spec r Hr). setoid_rewrite app_nil_r. done. Qed.

Lemma one_less p x y : matches (One p) x y -> (left y < left x)%nat.
Proof. intros (c & s & H & _ & ->). unfold left. rewrite H. cbn. lia. Qed.

Lemma lit_advances s : advances (lit s).
Proof. by induction s. Qed.

Lemma secret_file_plain : plain secret_file.
Proof. by vm_compute. Qed.

Lemma secret_file_advances : advances secret_file.
Proof.
  assert (Hdot : forall n, advances (Many true n None (One dot))) by (intros n; split; [done|]; split; [done|apply one_less]).
  assert (Hopt : forall b, advances b -> advances (opt (Cat (word ".") b))).
  { intros b Hb. split; [split; [apply lit_advances|exact Hb]|]. split; [cbn; lia|].
    intros x y (z & Hz & Hy). destruct (matches_passes _ _ _ Hy) as [m Hm]. apply passes_left in Hm.
    destruct Hz as (w & Hw & ->). apply one_less in Hw. lia. }
  assert (Hcat : forall a b, advances a -> advances b -> advances (Cat a b)) by done.
  assert (Hor : forall a b, advances a -> advances b -> advances (Or a b)) by done.
  unfold secret_file. cbn [one_of SECRET_EXTENSIONS SSH_KEYS].
  repeat lazymatch goal with
  | |- advances (Cat _ _) => apply Hcat
  | |- advances (Or _ _) => apply Hor
  | |- advances (opt _) => apply Hopt
  | |- advances (word _) => apply lit_advances
  | |- _ => apply Hdot
  end.
Qed.

Lemma is_secret_name_spec s : test SECRET_FILE_PATTERN s = true <-> secret_name s.
Proof.
  rewrite <- lang_secret_file, test_spec by (split; [done|split; [apply secret_file_advances|done]]). split.
  - intros (m & rest & y & -> & z & [Hstart ->] & w & Hw & Hend & ->). cbn in Hstart, Hend.
    destruct m as [|c m]; [|cbn in Hstart; by destruct (rev m)].
    apply (matches_lang _ secret_file_plain) in Hw as (m & [[Ha _] _] & Hm). cbn in Ha. destruct (ahead w); [|done].
    by rewrite Ha, app_nil_r.
  - intros Hs. exists [], s, {| behind := rev s; ahead := []; groups := [] |}. split; [done|].
    eexists; split; [split; [|reflexivity]; done|]. eexists; split; [|split; [|reflexivity]; done].
    apply (matches_lang _ secret_file_plain). exists s. split; [|exact Hs]. by split; [split; cbn; rewrite ?app_nil_r|].
Qed.

Lemma is_template_name_spec s : test SECRET_FILE_TEMPLATE_SUFFIX s = true <-> template_name s.
Proof.
  rewrite test_spec by (unfold SECRET_FILE_TEMPLATE_SUFFIX, word; cbn; tauto). split.
  - intros (m & rest & y & -> & z & Hz & w & Hw & Hend & ->).
    apply (matches_lang (word ".")) in Hz as (m1 & [[Ha1 _] _] & ->%lang_lit); [|by vm_compute].
    apply (matches_lang (one_of TEMPLATE_SUFFIXES)) in Hw as (m2 & [[Ha2 _] _] & Hm2); [|by vm_compute].
    apply lang_one_of in Hm2 as (suffix & Hin & ->). cbn in Ha1, Hend. destruct (ahead w); [|done].
    exists m, suffix. split; [done|]. by rewrite Ha1, Ha2, app_nil_r.
  - intros (m & suffix & Hin & ->). exists m, (units "." ++ units suffix).
    exists {| behind := rev (units suffix) ++ rev (units ".") ++ rev m; ahead := []; groups := [] |}. split; [done|].
    exists {| behind := rev (units ".") ++ rev m; ahead := units suffix; groups := [] |}. split.
    { apply (matches_lang (word ".")); [by vm_compute|]. exists (units "."). split; [done|by apply lang_lit]. }
    eexists; split; [|split; [|reflexivity]; done].
    apply (matches_lang (one_of TEMPLATE_SUFFIXES)); [by vm_compute|]. exists (units suffix).
    split; [by split; [split; cbn; rewrite ?app_nil_r|]|]. apply lang_one_of. by exists suffix.
Qed.

(** The guard refuses the names of secrets, and only them. *)
Lemma is_secret_file_spec path : is_secret_file path = true <-> keeps_secrets path.
Proof.
  unfold is_secret_file, keeps_secrets. rewrite andb_true_iff, negb_true_iff, is_secret_name_spec.
  rewrite <- not_true_iff_false, is_template_name_spec. done.
Qed.

(** ** No file of secrets is published *)

(** A request to publish something. *)
Definition is_publication (EXECUTOR_BASE_URL : string) (r : HttpRequest) : Prop :=
  rq_method r = "POST" /\ rq_url r = ExecutorClient.baseUrl EXECUTOR_BASE_URL +:+ "/services".

(** The files of its body keep no secrets. *)
Definition publishes_no_secrets (r : HttpRequest) : Prop :=
  exists i env requestId, rq_body r = Some (start_json i env requestId) /\
    Forall (fun path => ~ keeps_secrets path) (keys (sp_files i)).

Section Published.
Context {Parser : JsonParse} (EXECUTOR_BASE_URL STATIC_SERVER_SOURCE : string).

Lemma rejectSecretFiles_ok files : rejectSecretFiles files = inr tt -> Forall (fun path => ~ keeps_secrets path) (keys files).
Proof.
  unfold rejectSecretFiles. destruct (findSecretFiles files) eqn:E; [|done]. intros _. apply Forall_forall. intros path Hin Hs.
  apply is_secret_file_spec in Hs. assert (Hf : In path (findSecretFiles files)).
  { apply filter_In. split; [by apply list_elem_of_In|done]. }
  by rewrite E in Hf.
Qed.

Lemma server_path_is_public : ~ keeps_secrets STATIC_SERVER_PATH.
Proof. rewrite <- is_secret_file_spec. by vm_compute. Qed.

Lemma expand_files input i :
  expandPreviewTemplate STATIC_SERVER_SOURCE input = inr i -> Forall (fun path => ~ keeps_secrets path) (keys (sp_files i)).
Proof.
  unfold expandPreviewTemplate. destruct (rejectSecretFiles _) as [|[]] eqn:E; [done|]. apply rejectSecretFiles_ok in E.
  destruct (parseDb _) as [|db]; [done|]. destruct (parseSecrets _) as [|secrets]; [done|].
  destruct (check_db_template _ _); [done|]. destruct (pv_template input) as [template|].
  - destruct (String.eqb template NODE_TEMPLATE).
    { unfold expand_node. by destruct (validateNodePackageJson _); [|intros [= <-]]. }
    destruct (String.eqb template STATIC_TEMPLATE); [|done].
    unfold expand_static. destruct (negb _); [done|]. destruct (has_key _ _); [done|]. intros [= <-].
    unfold keys. cbn [sp_files Previews.request]. rewrite map_app. apply Forall_app. split; [done|].
    constructor; [exact server_path_is_public|constructor].
  - unfold expand_command. destruct (pv_command input) as [[|c command]|], (pv_port input) as [port|]; try done.
    by intros [= <-].
Qed.

(** ** What every action of the component does to its requests *)

Definition publishes_safely (v v' : TermWorld Vault) : Prop :=
  h_requests (tm_http v') = h_requests (tm_http v) \/
  exists r, h_requests (tm_http v') = h_requests (tm_http v) ++ [r] /\
    (is_publication EXECUTOR_BASE_URL r -> publishes_no_secrets r).

Lemma preview_quiet_service {A} (p : jin A) : steps publishes_safely (service p : preview A).
Proof. apply (steps_zoom _ _ (fun _ _ => True)); [by left|]. induction p; cbn; auto. Qed.

Lemma quiet_vault {X} (f : Z -> Vault -> Vault * (JinError + X)) : steps publishes_safely (PreviewTools.vault f).
Proof.
  split; [|by intros [|]]. intros v. left. by destruct (f _ _).
Qed.

Lemma quiet_cast {A} (o : option A) : steps publishes_safely (cast o).
Proof. by destruct o. Qed.

Lemma quiet_checked {X} (r : checked X) : steps publishes_safely (PreviewTools.lift_checked r).
Proof. by destruct r. Qed.

(** A request that is not a publication, or one whose files are safe. *)
Lemma quiet_ask method path body :
  (is_publication EXECUTOR_BASE_URL {| rq_method := method; rq_url := ExecutorClient.baseUrl EXECUTOR_BASE_URL +:+ path; rq_body := body |} ->
   publishes_no_secrets {| rq_method := method; rq_url := ExecutorClient.baseUrl EXECUTOR_BASE_URL +:+ path; rq_body := body |}) ->
  steps publishes_safely (ExecutorClient.send EXECUTOR_BASE_URL method path body) /\
  steps publishes_safely (ExecutorClient.ask EXECUTOR_BASE_URL method path body).
Proof.
  intros H. assert (Hs : steps publishes_safely (ExecutorClient.send EXECUTOR_BASE_URL method path body)).
  { apply steps_bind; [split; [|done]; intros v; right; by eexists|]. intros [|status proxied answer]; [done|].
    cbv zeta. by case_match. }
  split; [exact Hs|]. apply steps_bind; [exact Hs|]. intros r. unfold json_of. by case_match.
Qed.

(** Another path of the API. *)
Lemma not_a_publication method path body :
  method <> "POST" \/ path <> "/services" ->
  is_publication EXECUTOR_BASE_URL {| rq_method := method; rq_url := ExecutorClient.baseUrl EXECUTOR_BASE_URL +:+ path; rq_body := body |} -> False.
Proof. intros [H|H] [H1 H2]; cbn in *; [done|]. by apply string_app_inj_l in H2. Qed.

Lemma quiet_get path : steps publishes_safely (ExecutorClient.ask EXECUTOR_BASE_URL "GET" path None).
Proof. apply quiet_ask. intros H%not_a_publication; [done|by left]. Qed.

Lemma quiet_post path body : path <> "/services" -> steps publishes_safely (ExecutorClient.ask EXECUTOR_BASE_URL "POST" path body).
Proof. intros Hp. apply quiet_ask. intros H%not_a_publication; [done|by right]. Qed.

Lemma quiet_start payload requestId :
  steps publishes_safely (PreviewTools.startPreview EXECUTOR_BASE_URL STATIC_SERVER_SOURCE payload requestId).
Proof.
  unfold PreviewTools.startPreview. destruct (expandPreviewTemplate STATIC_SERVER_SOURCE payload) as [e|i] eqn:E; [done|].
  cbn [PreviewTools.lift_checked bind]. apply steps_bind.
  - destruct (default [] (pv_envNames payload)); [done|]. apply steps_bind; [|done].
    unfold PreviewTools.takeEnv. apply steps_bind; [apply quiet_vault|]. intros [env|]; [|done]. by case_match.
  - intros env. apply quiet_ask. intros _. do 3 eexists. split; [reflexivity|]. by apply expand_files in E.
Qed.
End Published.

Create HintDb previews.
#[export] Hint Resolve preview_quiet_service quiet_vault quiet_cast quiet_checked quiet_get quiet_start : previews.
#[export] Hint Extern 2 (steps _ (ExecutorClient.ask _ "POST" _ _)) => (apply quiet_post; discriminate) : previews.

Section Methods.
Context `{Api : AuditApi} `{Crypto : NodeCrypto} {Parser : JsonParse}.
Context (EXECUTOR_BASE_URL STATIC_SERVER_SOURCE : string) (autonomy : AutonomyConfig).
Abbreviation safe := (steps (publishes_safely EXECUTOR_BASE_URL)).

Ltac quiet_tac :=
  repeat first
    [ solve [auto with previews]
    | apply steps_bind | apply steps_catch | apply steps_try_with
    | progress intros
    | done
    | case_match ].

Lemma safe_stop serviceId : safe (ExecutorClient.stopPreviewService EXECUTOR_BASE_URL serviceId).
Proof.
  apply steps_bind; [|done]. apply quiet_ask. intros H%not_a_publication; [done|by left].
Qed.

Lemma safe_extend serviceId n : safe (ExecutorClient.extendPreviewService EXECUTOR_BASE_URL serviceId n).
Proof. apply quiet_post. unfold ExecutorClient.service_path. intros H. cbn in H. discriminate H. Qed.

#[local] Hint Resolve safe_stop safe_extend : previews.

Lemma safe_executors :
  Forall (fun kv => forall payload requestId, safe (snd kv payload requestId))
    (PreviewTools.executors EXECUTOR_BASE_URL STATIC_SERVER_SOURCE).
Proof.
  unfold PreviewTools.executors, ExecutorClient.runCode, ExecutorClient.saveGithubDemo, ExecutorClient.listPreviewServices,
    ExecutorClient.listGithubDemos.
  repeat (constructor; [intros payload requestId; cbn [snd]; quiet_tac|]). constructor.
Qed.

Lemma safe_preview_execute toolName payload requestId :
  safe (PreviewTools.execute EXECUTOR_BASE_URL STATIC_SERVER_SOURCE toolName payload requestId).
Proof.
  assert (Hr : forall ex, PreviewTools.registered EXECUTOR_BASE_URL STATIC_SERVER_SOURCE toolName = Some ex ->
    forall payload requestId, safe (ex payload requestId)).
  { intros ex. unfold PreviewTools.registered. destruct (List.find _ _) as [kv|] eqn:E; [|done]. intros [= <-].
    apply find_some in E as [Hin _]. apply list_elem_of_In in Hin.
    exact (proj1 (Forall_forall _ _) safe_executors kv Hin). }
  unfold PreviewTools.execute. destruct (PreviewTools.registered _ _ _) as [ex|] eqn:E; [|done].
  apply steps_bind; [auto with previews|]. intros _. apply steps_try_with; [by apply (Hr ex)|quiet_tac..].
Qed.

Lemma safe_publish rest env :
  safe (OwnerPublish.publish EXECUTOR_BASE_URL STATIC_SERVER_SOURCE autonomy rest env).
Proof.
  unfold OwnerPublish.publish. destruct (validateDemoEnv _); [|exact I].
  destruct (expandPreviewTemplate _ _) as [e|i]; [destruct e; exact I|].
  apply steps_bind; [auto with previews|]. intros decision. cbv zeta.
  apply steps_bind; [unfold OwnerPublish.keep_values; destruct (default [] env); [done|apply quiet_vault]|]. intros _.
  apply steps_catch; [|intros e; apply steps_bind; [apply quiet_vault|done]].
  unfold OwnerPublish.decideAndRun. pose proof safe_preview_execute as Hx. destruct (hd_level decision);
    (apply steps_bind; [first [apply Hx|apply preview_quiet_service]|intros ?; quiet_tac]).
Qed.

(** The methods of the component, and any other that makes no publication. *)
Inductive preview_client : preview unit -> Prop :=
| client_publish body : preview_client (discard (PreviewController.publish EXECUTOR_BASE_URL STATIC_SERVER_SOURCE autonomy body))
| client_files serviceId dir : preview_client (discard (PreviewController.exportFiles EXECUTOR_BASE_URL serviceId dir))
| client_list : preview_client (discard (PreviewController.list_services EXECUTOR_BASE_URL))
| client_stop serviceId : preview_client (PreviewController.stop EXECUTOR_BASE_URL serviceId)
| client_tool toolName payload requestId :
    preview_client (discard (PreviewTools.execute EXECUTOR_BASE_URL STATIC_SERVER_SOURCE toolName payload requestId))
| client_service (p : jin unit) : preview_client (service p).

Lemma safe_client p : preview_client p -> safe p.
Proof.
  assert (Hd : forall A (q : preview A), safe q -> safe (discard q)) by (intros; by apply steps_bind).
  intros [body|serviceId dir| |serviceId|toolName payload requestId|q].
  - apply Hd. unfold PreviewController.publish. destruct (PublishPreviewSchema body) as [[input env]|]; [|done].
    apply steps_bind; [apply safe_publish|done].
  - apply Hd. unfold PreviewController.exportFiles. destruct (PreviewFilesQuerySchema dir); [|done].
    apply steps_bind; [auto with previews|]. intros requestId. apply steps_bind; [auto with previews|]. intros _.
    apply steps_bind; [apply quiet_get|done].
  - apply Hd, quiet_get.
  - apply safe_stop.
  - apply Hd, safe_preview_execute.
  - apply preview_quiet_service.
Qed.

(** Outside of these methods nothing is asked of the executor. *)
Definition preview_env (v v' : TermWorld Vault) : Prop := tm_http v' = tm_http v.

(** C36. No file with the name of a secret is published: whatever methods of the
    component run at the same time, with whatever payloads (those of the agent
    included), no request to publish carries a file whose last path segment, in any
    letter case, is [.env] or [.env.] and more text, text and [.pem], [.key], [.p12] or
    [.pfx], [id_rsa], [id_ed25519] or [id_ecdsa] alone or followed by a dot and any
    text, [.npmrc], [.netrc] or [brevo.json], where the free text has no line break,
    unless it ends in [.example], [.sample] or [.template].  Other names pass: those
    with a line break, those of other keys ([id_dsa]), those before a final slash. *)
Theorem no_file_of_secrets_is_published (v0 : TermWorld Vault) (c : config (TermWorld Vault) JinError unit) :
  h_requests (tm_http v0) = [] -> reachable preview_env preview_client v0 c ->
  Forall (fun r => is_publication EXECUTOR_BASE_URL r -> publishes_no_secrets r) (h_requests (tm_http (c_store c))).
Proof.
  intros H0 Hr.
  apply (pool_invariant preview_env preview_client
    (fun v => Forall (fun r => is_publication EXECUTOR_BASE_URL r -> publishes_no_secrets r) (h_requests (tm_http v))) v0 c).
  - intros p Hp. eapply steps_mono; [|by apply safe_client]. intros v v' [->|(r & -> & Hr')] Hv; [done|].
    apply Forall_app. split; [done|]. by constructor.
  - by intros v v' ->.
  - by rewrite H0.
  - exact Hr.
Qed.
End Methods.

(** ** The values of the variables stay in memory *)

Section Values.
Context `{Api : AuditApi} `{Crypto : NodeCrypto} {Parser : JsonParse}.
Context (EXECUTOR_BASE_URL STATIC_SERVER_SOURCE : string) (autonomy : AutonomyConfig).

(** The same store, but for what the vault keeps under [rid]. *)
Definition same_but_values (rid : string) (v1 v2 : TermWorld Vault) : Prop :=
  tm_world v1 = tm_world v2 /\ tm_http v1 = tm_http v2 /\ delete rid (tm_state v1) = delete rid (tm_state v2).

Lemma run_preview_service {A} (p : jin A) (v : TermWorld Vault) :
  run (service p) v = (put_world (run p (tm_world v)).1 v, (run p (tm_world v)).2).
Proof. apply run_zoom; [done..|]. by intros []. Qed.

Lemma run_vault {X} (f : Z -> Vault -> Vault * (JinError + X)) v :
  run (PreviewTools.vault f) v =
  (put_state (f (clock (w_sys (tm_world v))) (tm_state v)).1 v, (f (clock (w_sys (tm_world v))) (tm_state v)).2).
Proof. unfold PreviewTools.vault. cbn [run sync]. destruct (f _ _) as [s [e|x]]; done. Qed.

Lemma put_same requestId env1 env2 ttl t v :
  delete requestId (EnvVault.put requestId env1 ttl t v).1 = delete requestId (EnvVault.put requestId env2 ttl t v).1 /\
  (EnvVault.put requestId env1 ttl t v).2 = (EnvVault.put requestId env2 ttl t v).2.
Proof.
  unfold EnvVault.put. destruct (_ && _); [done|]. cbn [fst snd]. split; [|done]. by rewrite !delete_insert_eq.
Qed.

(** A decision that waits does the same whatever the vault keeps. *)
Lemma decide_pending input decision hash names v1 v2 v1' rid :
  same_but_values (hd_requestId decision) v1 v2 ->
  run (OwnerPublish.decideAndRun EXECUTOR_BASE_URL STATIC_SERVER_SOURCE input decision hash names) v1 = (v1', inr (publish_pending rid)) ->
  exists v2', run (OwnerPublish.decideAndRun EXECUTOR_BASE_URL STATIC_SERVER_SOURCE input decision hash names) v2 = (v2', inr (publish_pending rid)) /\
    rid = hd_requestId decision /\ same_but_values rid v1' v2'.
Proof.
  intros (Hw & Hh & Hd). unfold OwnerPublish.decideAndRun.
  assert (Hnever : forall level,
    run (result <- PreviewTools.execute EXECUTOR_BASE_URL STATIC_SERVER_SOURCE PREVIEW_TOOL (payload_json input) (Some (hd_requestId decision)) ;;
         service (audit_toolCall (hd_requestId decision) OWNER_ACTOR PREVIEW_TOOL hash
           (match hd_relaxedBy decision with
            | Some mode => Some ("Autoejecutada sin aprobación (" +:+ mode +:+ "): " +:+ quoted PREVIEW_TOOL +:+ " era confirm")
            | None => None
            end) (if decide (level = Auto) then "auto" else "notified") None) ;;;
         (if decide (level = Notify)
          then service (emit (HITL_ACTION_NOTIFIED_EVENT (hd_requestId decision) PREVIEW_TOOL OWNER_ACTOR (hd_relaxedBy decision)))
          else Ret tt) ;;; Ret (publish_started (hd_requestId decision) result)) v1 <> (v1', inr (publish_pending rid))).
  { intros level. rewrite run_bind. destruct (run (PreviewTools.execute _ _ _ _ _) v1) as [w [e|result]]; [done|].
    rewrite run_bind. destruct (run (service _) w) as [w' [e|row]]; [done|]. rewrite run_bind.
    by destruct (run (if decide (level = Notify) then _ else _) w') as [w'' [e|[]]]. }
  destruct (hd_level decision); [by intros H%(Hnever Auto)|by intros H%(Hnever Notify)|..].
  all: rewrite !run_bind, !run_preview_service, <- Hw; destruct (run (DualConfirm.createPendingApproval _) (tm_world v1)) as [w [e|[]]];
    cbn; [done|]; intros [= <- <-]; eexists; split; [reflexivity|]; split; [done|]; by splits.
Qed.

(** C37. The values of the variables stay in memory: two publications that differ only in
    the values of their variables leave, while their approval waits, the same tables (the
    approval with its payload, its hash and its summary, the log), the same requests and
    the same answer; they differ only in what the vault keeps under their identifier. *)
Theorem values_stay_in_memory (rest : PreviewServiceToolInput) (env1 env2 : strings) (v v1 : TermWorld Vault) (rid : string) :
  keys env1 = keys env2 -> validateDemoEnv env1 = [] -> validateDemoEnv env2 = [] ->
  run (OwnerPublish.publish EXECUTOR_BASE_URL STATIC_SERVER_SOURCE autonomy rest (Some env1)) v = (v1, inr (publish_pending rid)) ->
  exists v2,
    run (OwnerPublish.publish EXECUTOR_BASE_URL STATIC_SERVER_SOURCE autonomy rest (Some env2)) v = (v2, inr (publish_pending rid)) /\
    same_but_values rid v1 v2.
Proof.
  intros Hk H1 H2. unfold OwnerPublish.publish.
  change (default [] (Some env1)) with env1. change (default [] (Some env2)) with env2. rewrite H1, H2, Hk.
  destruct (expandPreviewTemplate _ _) as [e|i]; [by destruct e|].
  rewrite !run_bind, run_preview_service. destruct (run (HitlPolicy.decide _ _ _) _) as [w [e|decision]]; cbn [fst snd]; [done|].
  cbv zeta. set (v' := put_world w v).
  assert (Hput : exists va vb r,
    run (OwnerPublish.keep_values (hd_requestId decision) env1) v' = (va, r) /\
    run (OwnerPublish.keep_values (hd_requestId decision) env2) v' = (vb, r) /\
    same_but_values (hd_requestId decision) va vb).
  { unfold OwnerPublish.keep_values. destruct env1 as [|kv1 env1], env2 as [|kv2 env2]; try done; [by do 3 eexists|].
    rewrite !run_vault. destruct (put_same (hd_requestId decision) (kv1 :: env1) (kv2 :: env2) DEFAULT_TTL_MS
      (clock (w_sys (tm_world v'))) (tm_state v')) as [Hs Hr].
    do 3 eexists. split; [reflexivity|]. rewrite Hr. split; [reflexivity|]. by split_and!. }
  destruct Hput as (va & vb & r & Ha & Hb & Hab). rewrite !run_bind, Ha, Hb. destruct r as [e|[]]; [done|].
  rewrite !run_catch. destruct (run (OwnerPublish.decideAndRun _ _ _ _ _ _) va) as [va' [e|res]] eqn:Ed.
  { rewrite run_bind, run_vault. done. }
  intros [= -> ->]. destruct (decide_pending _ _ _ _ _ _ _ _ Hab Ed) as (vb' & -> & _ & Hsame). by exists vb'.
Qed.
End Values.

(** ** What is approved is what is launched *)

Lemma as_strings_json l : as_strings (strings_json l) = Some l.
Proof.
  unfold as_strings, strings_json. induction l as [|[k s] l IH]; [done|]. cbn [map mapM]. cbn [fst snd as_string].
  cbn in IH. cbn. by rewrite IH.
Qed.

Lemma as_list_json l : as_list (list_json l) = Some l.
Proof. unfold as_list, list_json. induction l as [|s l IH]; [done|]. cbn in IH |- *. by rewrite IH. Qed.

(** The payload that the approval stores reads back as the input that was checked. *)
Lemma read_payload_json i : read_payload (payload_json i) = Some i.
Proof.
  assert (Hs := as_strings_json (pv_files i)). assert (Hl := as_list_json).
  destruct i as [files template command port ttl slug mail db secrets names]; cbn [pv_files] in Hs.
  unfold read_payload, payload_json, optional.
  cbn [pv_files pv_template pv_command pv_port pv_ttlSeconds pv_slugHint pv_mailEgress pv_db pv_secrets pv_envNames].
  destruct template, command, port, slug, mail, db, secrets, names; cbn -[as_strings strings_json as_list list_json];
    rewrite Hs; cbn -[as_list list_json]; by rewrite ?Hl.
Qed.

(** ** A launch that fails *)

Section Launch.
Context `{Api : AuditApi} `{Crypto : NodeCrypto} {Parser : JsonParse}.
Context (EXECUTOR_BASE_URL STATIC_SERVER_SOURCE : string).
Abbreviation launch := (PreviewTools.startPreview EXECUTOR_BASE_URL STATIC_SERVER_SOURCE).

Lemma state_fetch r (v : TermWorld Vault) : tm_state (run (fetch r) v).1 = tm_state v.
Proof. done. Qed.

(** The requests leave the vault as it is. *)
Lemma state_ask method path body v : tm_state (run (ExecutorClient.ask EXECUTOR_BASE_URL method path body) v).1 = tm_state v.
Proof.
  unfold ExecutorClient.ask, ExecutorClient.send, fetch. cbn [bind run]. destruct (h_answer _ _ _) as [|status proxied answer]; [done|].
  cbv zeta. destruct (rs_ok _); [|done]. cbn [bind]. unfold json_of. by case_match.
Qed.

(** The values that a publication gets, or why it gets none. *)
Definition given (names : list string) (entry : option strings) : JinError + strings :=
  match entry with
  | None => inl (PlainError PreviewTools.UNAVAILABLE)
  | Some env =>
      if String.eqb (joined (keys env)) (joined names) then inr env
      else inl (PlainError "Las variables recibidas no coinciden con las aprobadas: no se crea la demo.")
  end.

Lemma run_takeEnv names rid v :
  truthy rid = true ->
  run (PreviewTools.takeEnv names (Some rid)) v =
  (put_state (delete rid (tm_state v)) v,
   given names (EnvVault.take rid (clock (w_sys (tm_world v))) (tm_state v)).2).
Proof.
  intros Hr. unfold PreviewTools.takeEnv. rewrite run_bind, run_vault. rewrite Hr. cbn [EnvVault.take fst snd].
  destruct (match tm_state v !! rid with Some _ => _ | None => _ end) as [env|]; cbn [given]; [|done].
  by destruct (String.eqb _ _).
Qed.

(** A launch takes its values with it: once an approved publication with variables has
    been launched, and failed (the executor was down), launching it again asks the
    executor for nothing and fails with the message of a restart, although the approval
    went back to pending and the owner is told to approve it again. *)
Lemma a_failed_launch_loses_its_values (payload : PreviewServiceToolInput) (i : StartPreviewServiceInput)
    (rid : string) (v : TermWorld Vault) :
  expandPreviewTemplate STATIC_SERVER_SOURCE payload = inr i -> default [] (pv_envNames payload) <> [] -> truthy rid = true ->
  let v1 := (run (launch payload (Some rid)) v).1 in
  exists v2, run (launch payload (Some rid)) v1 = (v2, inl (PlainError PreviewTools.UNAVAILABLE)) /\
    tm_http v2 = tm_http v1.
Proof.
  intros Hi Hnames Hrid. cbv zeta.
  assert (Hlaunch : forall w, run (launch payload (Some rid)) w =
    match run (PreviewTools.takeEnv (default [] (pv_envNames payload)) (Some rid)) w with
    | (w', inl e) => (w', inl e)
    | (w', inr env) => run (ExecutorClient.startPreviewService EXECUTOR_BASE_URL i (Some env) (Some rid)) w'
    end).
  { intros w. unfold launch. rewrite Hi, Hrid. cbn [PreviewTools.lift_checked bind]. rewrite run_bind.
    destruct (default [] (pv_envNames payload)) as [|n names]; [done|]. rewrite run_bind.
    by destruct (run (PreviewTools.takeEnv _ _) w) as [w' [e|env]]. }
  assert (Hgone : tm_state (run (launch payload (Some rid)) v).1 !! rid = None).
  { rewrite Hlaunch, run_takeEnv by done. destruct (given _ _) as [e|env]; [by apply lookup_delete_eq|].
    unfold ExecutorClient.startPreviewService. rewrite state_ask. by apply lookup_delete_eq. }
  set (v1 := (run (launch payload (Some rid)) v).1) in *. rewrite Hlaunch, run_takeEnv by done.
  unfold EnvVault.take. rewrite Hgone. cbn [snd given]. by eexists.
Qed.
End Launch.

(** The vault keeps at most fifty entries. *)
Lemma put_bounded requestId env ttl t v :
  (size v <= MAX_ENTRIES)%nat -> (size (EnvVault.put requestId env ttl t v).1 <= MAX_ENTRIES)%nat.
Proof.
  intros Hv. unfold EnvVault.put.
  assert (Hp : (size (EnvVault.purge t v) <= size v)%nat).
  { unfold EnvVault.purge. apply map_subseteq_size, map_filter_subseteq. }
  destruct (_ && _) eqn:E; cbn [fst]; [lia|].
  destruct (EnvVault.purge t v !! requestId) as [old|] eqn:Eo.
  - rewrite map_size_insert_Some by (by eexists). lia.
  - rewrite map_size_insert_None by done. apply andb_false_iff in E as [E|E].
    + apply Nat.leb_gt in E. lia.
    + by apply negb_false_iff, bool_decide_eq_true in E as [? ?].
Qed.

Module PreviewExamples.
#[local] Existing Instance toy_crypto.
#[local] Instance object : JsonParse := {| json_parse _ := Some (JObj []) |}.

Definition url : string := "http://executor/".
Definition server : string := "server".

Example secret_files :
  map is_secret_file [".env"; "a/.ENV.local"; ".env.example"; "certs/x.PEM"; "id_rsa"; "id_rsa.pub"; "env"; "a.env"; "brevo.json"; "x.key.txt"] =
  [true; true; false; true; true; true; false; false; true; false].
Proof. vm_compute. reflexivity. Qed.

(** A folder at the end of the path hides the name. *)
(** Names of secrets that the expression does not match. *)
Example names_that_pass :
  map is_secret_file ["a" +:+ newline +:+ "b.pem"; ".env.a" +:+ newline +:+ "b"; "id_dsa"] = [false; false; false].
Proof. by vm_compute. Qed.

Example a_slash_hides_the_name : is_secret_file ".env/" = false.
Proof. vm_compute. reflexivity. Qed.

Definition project : PreviewServiceToolInput :=
  {| pv_files := [("index.html", "<h1>hola</h1>")]; pv_template := Some STATIC_TEMPLATE; pv_command := None; pv_port := None;
     pv_ttlSeconds := 3600; pv_slugHint := None; pv_mailEgress := None; pv_db := None; pv_secrets := None; pv_envNames := None |}.
Definition values1 : strings := [("API_KEY", "one")].
Definition values2 : strings := [("API_KEY", "two")].

(** The executor is down. *)
Definition store : TermWorld Vault :=
  {| tm_world := empty_world 1000; tm_http := {| h_requests := []; h_answer := fun _ _ => net_failure |}; tm_state := ∅ |}.

Definition publish (env : strings) : preview OwnerPublishResult :=
  OwnerPublish.publish url server AutonomyExamples.yaml_config project (Some env).
Definition published : TermWorld Vault := (run (publish values1) store).1.

Example waits : (run (publish values1) store).2 = inr (publish_pending (uuid_string 0)).
Proof. vm_compute. reflexivity. Qed.

(** A rejection does not reach the vault: the values stay, and count, until they expire. *)
Lemma a_rejected_publication_keeps_its_values :
  let v := (run (service (ApprovalExecution.resolveRejection (uuid_string 0) "owner") : preview unit) published).1 in
  map fst (map_to_list (w_pending (tm_world v))) = [] /\ EnvVault.has (uuid_string 0) 1000 (tm_state v) = true.
Proof. vm_compute. by split. Qed.

Definition approved : PreviewServiceToolInput := with_envNames (keys values1) project.
Definition launch : preview json := PreviewTools.startPreview url server approved (Some (uuid_string 0)).
End PreviewExamples.

(** ** The theorems at a concrete input *)

#[local] Existing Instance toy_crypto.
#[local] Existing Instance PreviewExamples.object.

Lemma no_file_of_secrets_is_published_witness :
  Forall (fun r => is_publication PreviewExamples.url r -> publishes_no_secrets r)
    (h_requests (tm_http (c_store (Effects.interleave (List.repeat 0 40)%nat PreviewExamples.store
      [discard (PreviewTools.execute PreviewExamples.url PreviewExamples.server PREVIEW_TOOL
                  (payload_json PreviewExamples.project) None)])))).
Proof.
  apply (@no_file_of_secrets_is_published auditService toy_crypto PreviewExamples.object PreviewExamples.url
    PreviewExamples.server AutonomyExamples.yaml_config PreviewExamples.store); [done|].
  eapply reachable_rtc; [|apply interleave_steps]. apply reachable_spawned. repeat constructor.
Defined.

Lemma values_stay_in_memory_witness :
  exists v2,
    run (PreviewExamples.publish PreviewExamples.values2) PreviewExamples.store = (v2, inr (publish_pending (uuid_string 0))) /\
    same_but_values (uuid_string 0) PreviewExamples.published v2.
Proof.
  apply (@values_stay_in_memory auditService toy_crypto PreviewExamples.object PreviewExamples.url PreviewExamples.server
    AutonomyExamples.yaml_config PreviewExamples.project PreviewExamples.values1 PreviewExamples.values2 PreviewExamples.store
    PreviewExamples.published (uuid_string 0)); [done|by vm_compute|by vm_compute|].
  vm_compute. reflexivity.
Defined.

Lemma a_failed_launch_loses_its_values_witness :
  let v1 := (run PreviewExamples.launch PreviewExamples.published).1 in
  exists v2, run PreviewExamples.launch v1 = (v2, inl (PlainError PreviewTools.UNAVAILABLE)) /\ tm_http v2 = tm_http v1.
Proof.
  eapply (@a_failed_launch_loses_its_values PreviewExamples.object PreviewExamples.url PreviewExamples.server
    PreviewExamples.approved _ (uuid_string 0) PreviewExamples.published); [vm_compute; reflexivity|done|done].
Defined.
