(* ===== verification/Integrations.v ===== *)
(** * Integrations: Gmail, Google Calendar and Canvas

    [src/integrations/google] and [src/integrations/canvas].  The library of Google and the
    server of Canvas are other programs: each request is recorded with its time, and the
    oracles of the store answer.  The night report and the morning alert are here too, with
    their table. *)
From S2P Require Import Prelude Effects Js Text Registry Store AuditApi Hitl Models Budget Sanitizer TerminalClient TelegramBot Previews.
From Stdlib Require Import Ascii String QArith Qcanon.
Local Open Scope stdpp_scope.
Local Open Scope Z_scope.
Local Open Scope jin_scope.

(** [Date.parse]: beyond the ISO format ECMAScript leaves it to the engine.  [None] is an
    invalid date. *)
Class DateParse := { date_parse : string -> option Z }.

(** ** What is kept of each external service *)

(** The instants that its client keeps to limit the rate, and the requests made so far. *)
Record ApiState (C : Type) := { as_requestTimestamps : list Z; as_calls : list (Z * C) }.
Arguments as_requestTimestamps {C}. Arguments as_calls {C}.

Definition no_requests {C} : ApiState C := {| as_requestTimestamps := []; as_calls := [] |}.

Inductive GmailCall :=
| messages_list (q : option string) (maxResults : Z)
| messages_get (id : string)
| threads_get (id : string)
| messages_send (raw : string) (threadId : option string).

Record EventBody := {
  eb_summary : option string;
  eb_description : option string;
  eb_location : option string;
  eb_start : option string;
  eb_end : option string
}.

Inductive CalendarCall :=
| events_list (maxResults : Z) (timeMin timeMax : option string)
| events_insert (body : EventBody)
| events_patch (eventId : string) (body : EventBody)
| events_delete (eventId : string).

(** A message as the library gives it: every field may be missing. *)
Record GmailPart := { gp_mimeType : option string; gp_data : option string }.
Record GmailPayload := {
  gl_headers : option (list (option string * option string));
  gl_data : option string;
  gl_parts : option (list GmailPart)
}.
Record GmailMessage := {
  gm_id : option string;
  gm_threadId : option string;
  gm_snippet : option string;
  gm_payload : option GmailPayload
}.

(** The answers of Google to the n-th request of each client; an error has a message. *)
Record GoogleOracle := {
  go_list : nat -> string + list (option string);
  go_message : nat -> string + GmailMessage;
  go_thread : nat -> string + list GmailMessage;
  go_sent : nat -> string + (option string * option string);
  go_events : nat -> string + list json;
  go_event : nat -> string + json;
  go_deleted : nat -> string + unit
}.

(** [shadowing_runs] *)
Record ShadowingRunRow := {
  sr_ranAt : Z;
  sr_status : string;
  sr_error : option string;
  sr_summaryMarkdown : option string;
  sr_coursesChecked : Z;
  sr_announcementsCount : Z;
  sr_assignmentsCount : Z;
  sr_modelId : option string
}.

Record IntWorld := {
  iw_world : World;
  iw_runs : list ShadowingRunRow;
  iw_alerts : list MorningAlertEvent;            (* what was emitted, in order *)
  iw_canvas : ApiState HttpRequest;
  iw_canvas_answer : nat -> HttpRequest -> HttpAnswer;
  iw_gmail : ApiState GmailCall;
  iw_calendar : ApiState CalendarCall;
  iw_google : GoogleOracle
}.

Definition iw_put (w : World) (v : IntWorld) : IntWorld :=
  {| iw_world := w; iw_runs := iw_runs v; iw_alerts := iw_alerts v; iw_canvas := iw_canvas v;
     iw_canvas_answer := iw_canvas_answer v; iw_gmail := iw_gmail v; iw_calendar := iw_calendar v;
     iw_google := iw_google v |}.
Definition put_runs (l : list ShadowingRunRow) (v : IntWorld) : IntWorld :=
  {| iw_world := iw_world v; iw_runs := l; iw_alerts := iw_alerts v; iw_canvas := iw_canvas v;
     iw_canvas_answer := iw_canvas_answer v; iw_gmail := iw_gmail v; iw_calendar := iw_calendar v;
     iw_google := iw_google v |}.
Definition put_alerts (l : list MorningAlertEvent) (v : IntWorld) : IntWorld :=
  {| iw_world := iw_world v; iw_runs := iw_runs v; iw_alerts := l; iw_canvas := iw_canvas v;
     iw_canvas_answer := iw_canvas_answer v; iw_gmail := iw_gmail v; iw_calendar := iw_calendar v;
     iw_google := iw_google v |}.
Definition put_canvas (s : ApiState HttpRequest) (v : IntWorld) : IntWorld :=
  {| iw_world := iw_world v; iw_runs := iw_runs v; iw_alerts := iw_alerts v; iw_canvas := s;
     iw_canvas_answer := iw_canvas_answer v; iw_gmail := iw_gmail v; iw_calendar := iw_calendar v;
     iw_google := iw_google v |}.
Definition put_gmail (s : ApiState GmailCall) (v : IntWorld) : IntWorld :=
  {| iw_world := iw_world v; iw_runs := iw_runs v; iw_alerts := iw_alerts v; iw_canvas := iw_canvas v;
     iw_canvas_answer := iw_canvas_answer v; iw_gmail := s; iw_calendar := iw_calendar v;
     iw_google := iw_google v |}.
Definition put_calendar (s : ApiState CalendarCall) (v : IntWorld) : IntWorld :=
  {| iw_world := iw_world v; iw_runs := iw_runs v; iw_alerts := iw_alerts v; iw_canvas := iw_canvas v;
     iw_canvas_answer := iw_canvas_answer v; iw_gmail := iw_gmail v; iw_calendar := s;
     iw_google := iw_google v |}.

Abbreviation int := (prog IntWorld JinError).

Definition services {A} (p : jin A) : int A := zoom iw_world iw_put p.
Definition int_clock (v : IntWorld) : Z := clock (w_sys (iw_world v)).
Definition int_now : int Z := reads int_clock.

(** An outcome of the code, a cast of an argument to the type its tool declares. *)
Definition lift_result {X} (r : JinError + X) : int X := match r with inl e => Throw e | inr x => Ret x end.
Definition typed {X} (o : option X) : int X := match o with Some x => Ret x | None => Throw (PlainError "TypeError") end.

(** ** The sliding window of the three clients *)

(** The instants that have left the window are dropped; then one more request passes if
    fewer than [limit] remain. *)
Definition slideWindow (limit windowMs t : Z) (stamps : list Z) : list Z * bool :=
  let kept := drop_while (fun s => s <=? t - windowMs) stamps in
  if limit <=? Z.of_nat (List.length kept) then (kept, false) else (kept ++ [t], true).

(** [checkRateLimit()] and what follows without a pause: the arguments of the request are
    built, which may throw, and the request is made. *)
Definition limited {C R} (state : IntWorld -> ApiState C) (put : ApiState C -> IntWorld -> IntWorld)
    (checkRateLimit : Z -> list Z -> list Z * bool) (tooMany : JinError) (answer : IntWorld -> nat -> C -> R)
    (build : JinError + C) : int R :=
  Act (fun v =>
         let s := state v in
         let '(stamps, passes) := checkRateLimit (int_clock v) (as_requestTimestamps s) in
         if passes then
           match build with
           | inl e => (put {| as_requestTimestamps := stamps; as_calls := as_calls s |} v, inl e)
           | inr c => (put {| as_requestTimestamps := stamps; as_calls := as_calls s ++ [(int_clock v, c)] |} v,
                       inr (answer v (List.length (as_calls s)) c))
           end
         else (put {| as_requestTimestamps := stamps; as_calls := as_calls s |} v, inl tooMany))
      lift_result.

(** An error of the library, as its message. *)
Definition google_result {X} (r : string + X) : int X := match r with inl m => Throw (PlainError m) | inr x => Ret x end.

(** [catch (err) { if (err instanceof JinError) throw err; throw new ...(message) }]: the
    errors that are not the program's are those of the library and of dates. *)
Definition rethrown (wrap : string -> JinError) (e : JinError) : JinError :=
  match e with PlainError m => wrap m | _ => e end.

(** [date.toISOString()] *)
Definition toISOString (d : option Z) : JinError + string :=
  match d with Some t => inr (to_iso_string t) | None => inl (PlainError "Invalid time value") end.

(** ** google-gmail-client.service.ts *)

Record GmailMessageSummary := {
  gs_id : string;
  gs_threadId : string;
  gs_snippet : option string;
  gs_from : option string;
  gs_to : option string;
  gs_subject : option string;
  gs_date : option string;
  gs_body : option string
}.

(** [/[\r\n]/] *)
Definition is_line_break (c : ascii) : bool := Ascii.eqb c (ascii_of_nat 13) || Ascii.eqb c (ascii_of_nat 10).
Definition has_line_break (s : string) : bool := existsb is_line_break (list_ascii_of_string s).

Definition header_injection (field : string) : JinError :=
  GoogleGmailApiError (field +:+ " contiene caracteres no permitidos (posible inyección de headers)").

Definition assertNoHeaderInjection (value field : string) : int unit :=
  if has_line_break value then Throw (header_injection field) else Ret tt.

Definition CRLF : string := String (ascii_of_nat 13) (String (ascii_of_nat 10) "").

(** [rawLines.join('\r\n')] *)
Definition rawEmail (to subject body : string) : string :=
  join CRLF ["To: " +:+ to; "Subject: " +:+ subject; "Content-Type: text/plain; charset=utf-8"; "MIME-Version: 1.0"; ""; body].

(** [Buffer.from(rawLines.join('\r\n')).toString('base64url')] *)
Definition encodedMessage (to subject body : string) : string :=
  base64url (units (to_well_formed (rawEmail to subject body))).

(** [headers.find((h) => h.name?.toLowerCase() === name.toLowerCase())?.value] *)
Definition getHeader (headers : list (option string * option string)) (name : string) : option string :=
  match List.find (fun h => match fst h with Some n => String.eqb (lower n) (lower name) | None => false end) headers with
  | Some h => snd h
  | None => None
  end.

Definition bodyData (payload : option GmailPayload) : string :=
  match payload ≫= gl_data with
  | Some d => d
  | None =>
      default "" (((payload ≫= gl_parts) ≫=
        List.find (fun p => bool_decide (gp_mimeType p = Some "text/plain"))) ≫= gp_data)
  end.

(** [Buffer.from(bodyData, 'base64').toString('utf-8')] *)
Definition bodyText (payload : option GmailPayload) : string :=
  let data := bodyData payload in
  if truthy data then written (utf8_decode (base64_decode data)) else "".

Definition summary_of (defaultId defaultThreadId : string) (m : GmailMessage) : GmailMessageSummary :=
  let headers := default [] (gm_payload m ≫= gl_headers) in
  {| gs_id := default defaultId (gm_id m); gs_threadId := default defaultThreadId (gm_threadId m);
     gs_snippet := gm_snippet m; gs_from := getHeader headers "From"; gs_to := getHeader headers "To";
     gs_subject := getHeader headers "Subject"; gs_date := getHeader headers "Date";
     gs_body := Some (bodyText (gm_payload m)) |}.

Module GmailClient.
Definition maxRequestsPerMinute : Z := 60.
Definition windowMs : Z := 60 * 1000.

Definition checkRateLimit (t : Z) (stamps : list Z) : list Z * bool := slideWindow maxRequestsPerMinute windowMs t stamps.

(** [this.checkRateLimit(); ... await gmail.users...] *)
Definition request {R} (answer : IntWorld -> nat -> R) (c : GmailCall) : int R :=
  limited iw_gmail put_gmail checkRateLimit GoogleGmailRateLimitError (fun v n _ => answer v n) (inr c).

(** What the catch of each method does with what it catches. *)
Definition guarded {X} (p : int X) : int X := catch p (fun e => Throw (rethrown GoogleGmailApiError e)).

Definition getMessage (messageId : string) : int GmailMessageSummary :=
  guarded (answer <- request (fun v => go_message (iw_google v)) (messages_get messageId) ;;
           m <- google_result answer ;;
           Ret (summary_of messageId "" m)).

(** The messages of a list, each with a request of its own. *)
Fixpoint getMessages (refs : list (option string)) : int (list GmailMessageSummary) :=
  match refs with
  | [] => Ret []
  | Some id :: refs' =>
      if truthy id then
        msg <- getMessage id ;;
        summaries <- getMessages refs' ;;
        Ret (msg :: summaries)
      else getMessages refs'
  | None :: refs' => getMessages refs'
  end.

Definition listMessages (query : option string) (maxResults : option Z) : int (list GmailMessageSummary) :=
  guarded
    (answer <- request (fun v => go_list (iw_google v))
                 (messages_list (query ≫= fun q => if truthy q then Some q else None) (default 20 maxResults)) ;;
     refs <- google_result answer ;;
     getMessages refs).

Definition getThread (threadId : string) : int (list GmailMessageSummary) :=
  guarded (answer <- request (fun v => go_thread (iw_google v)) (threads_get threadId) ;;
           messages <- google_result answer ;;
           Ret (map (summary_of "" threadId) messages)).

Definition sendEmail (to subject body : string) (threadId : option string) : int (string * string) :=
  assertNoHeaderInjection to "Destinatario (to)" ;;;
  assertNoHeaderInjection subject "Asunto (subject)" ;;;
  guarded
    (answer <- request (fun v => go_sent (iw_google v))
                 (messages_send (encodedMessage to subject body) (threadId ≫= fun t => if truthy t then Some t else None)) ;;
     sent <- google_result answer ;;
     Ret (default "" (fst sent), default "" (snd sent))).
End GmailClient.

(** ** google-calendar-client.service.ts *)

(** A date of the program may be invalid: [new Date('tomorrow')]. *)
Record CalendarEventInput := {
  ce_summary : string;
  ce_description : option string;
  ce_location : option string;
  ce_start : option Z;
  ce_end : option Z
}.

(** [Partial<CalendarEventInput>] *)
Record CalendarEventPatch := {
  cp_summary : option string;
  cp_description : option string;
  cp_location : option string;
  cp_start : option (option Z);
  cp_end : option (option Z)
}.

Record ListEventsOptions := {
  lo_timeMin : option (option Z);
  lo_timeMax : option (option Z);
  lo_maxResults : option Z
}.

(** An optional date as text. *)
Definition iso_of (d : option (option Z)) : JinError + option string :=
  match d with
  | None => inr None
  | Some d => match toISOString d with inl e => inl e | inr s => inr (Some s) end
  end.

Definition nonempty (o : option string) : option string := o ≫= fun s => if truthy s then Some s else None.

Definition insert_body (e : CalendarEventInput) : JinError + CalendarCall :=
  match toISOString (ce_start e) with
  | inl err => inl err
  | inr start =>
      match toISOString (ce_end e) with
      | inl err => inl err
      | inr end_ =>
          inr (events_insert {| eb_summary := Some (ce_summary e); eb_description := nonempty (ce_description e);
                                eb_location := nonempty (ce_location e); eb_start := Some start; eb_end := Some end_ |})
      end
  end.

Definition patch_body (eventId : string) (e : CalendarEventPatch) : JinError + CalendarCall :=
  match iso_of (cp_start e) with
  | inl err => inl err
  | inr start =>
      match iso_of (cp_end e) with
      | inl err => inl err
      | inr end_ =>
          inr (events_patch eventId {| eb_summary := cp_summary e; eb_description := cp_description e;
                                       eb_location := cp_location e; eb_start := start; eb_end := end_ |})
      end
  end.

Definition list_params (o : ListEventsOptions) : JinError + CalendarCall :=
  match iso_of (lo_timeMin o) with
  | inl err => inl err
  | inr timeMin =>
      match iso_of (lo_timeMax o) with
      | inl err => inl err
      | inr timeMax => inr (events_list (default 50 (lo_maxResults o)) timeMin timeMax)
      end
  end.

Module CalendarClient.
Definition maxRequestsPerMinute : Z := 60.
Definition windowMs : Z := 60 * 1000.

Definition checkRateLimit (t : Z) (stamps : list Z) : list Z * bool := slideWindow maxRequestsPerMinute windowMs t stamps.

Definition request {X} (answer : IntWorld -> nat -> string + X) (build : JinError + CalendarCall) : int X :=
  catch (answer <- limited iw_calendar put_calendar checkRateLimit GoogleCalendarRateLimitError (fun v n _ => answer v n) build ;;
         google_result answer)
    (fun e => Throw (rethrown GoogleCalendarApiError e)).

Definition listEvents (options : ListEventsOptions) : int (list json) :=
  request (fun v => go_events (iw_google v)) (list_params options).

Definition createEvent (eventData : CalendarEventInput) : int json :=
  request (fun v => go_event (iw_google v)) (insert_body eventData).

Definition updateEvent (eventId : string) (eventData : CalendarEventPatch) : int json :=
  request (fun v => go_event (iw_google v)) (patch_body eventId eventData).

Definition deleteEvent (eventId : string) : int unit :=
  request (fun v => go_deleted (iw_google v)) (inr (events_delete eventId)).
End CalendarClient.

(** ** canvas-client.service.ts *)

Module CanvasClient.
Section Client.
Context {Parser : JsonParse} (CANVAS_BASE_URL : string).

Definition MAX_REQUESTS_PER_MINUTE : Z := 30.
Definition ONE_MINUTE_MS : Z := 60 * 1000.

Definition baseUrl : string := strip_slashes CANVAS_BASE_URL.

Definition checkRateLimit (t : Z) (stamps : list Z) : list Z * bool :=
  slideWindow MAX_REQUESTS_PER_MINUTE ONE_MINUTE_MS t stamps.

(** The headers carry the token: the record of a request has none. *)
Definition canvas_request (endpoint : string) : HttpRequest :=
  {| rq_method := "GET";
     rq_url := baseUrl +:+ (if String.prefix "/" endpoint then endpoint else "/" +:+ endpoint);
     rq_body := None |}.

Definition fetchCanvas (endpoint : string) : int json :=
  answer <- limited iw_canvas put_canvas checkRateLimit CanvasRateLimitError
              (fun v n r => iw_canvas_answer v n r) (inr (canvas_request endpoint)) ;;
  match answer with
  | net_failure => Throw (PlainError "fetch failed")
  | response status _ body =>
      if (200 <=? status) && (status <? 300) then
        match json_parse body with Some v => Ret v | None => Throw (PlainError "SyntaxError") end
      else Throw (CanvasApiError status body)
  end.

(** [as T[]] *)
Definition as_array (v : json) : option (list json) := match v with JArr l => Some l | _ => None end.
Definition fetch_array (endpoint : string) : int (list json) :=
  v <- fetchCanvas endpoint ;; typed (as_array v).

Definition getActiveCourses : int (list json) := fetch_array "/api/v1/courses?enrollment_state=active&per_page=50".

Definition getUpcomingAssignments (courseId : option Z) : int (list json) :=
  match courseId with
  | Some id => fetch_array ("/api/v1/courses/" +:+ pretty id +:+ "/assignments?bucket=upcoming&per_page=50")
  | None => fetch_array "/api/v1/users/self/upcoming_events?per_page=50"
  end.

Definition announcements_path (courseIds : list Z) (since : string) : string :=
  "/api/v1/announcements?" +:+ join "&" (map (fun id => "context_codes[]=course_" +:+ pretty id) courseIds) +:+ "&" +:+
  "start_date=" +:+ encodeURIComponent since +:+ "&per_page=50".

Definition getCourseAnnouncements (courseIds : list Z) (sinceDate : option Z) : int (list json) :=
  match courseIds with
  | [] => Ret []
  | _ =>
      since <- lift_result (toISOString sinceDate) ;;
      fetch_array (announcements_path courseIds since)
  end.
End Client.
End CanvasClient.

(** ** google.module.ts and canvas.module.ts *)

(** [new Date(text)] *)
Definition new_Date `{DateParse} (text : string) : option Z := date_parse text.

(** Fields of a payload, as the types of the tools declare them. *)
Definition optional_string (key : string) (v : json) : int (option string) := typed (optional key as_string v).
Definition optional_number (key : string) (v : json) : int (option Z) := typed (optional key as_number v).
Definition required_string (key : string) (v : json) : int string := typed (json_string key v).

(** [payload ?? {}] *)
Definition or_empty (payload : option json) : json :=
  match payload with Some JNull | None => JObj [] | Some v => v end.

Definition DAY_MS : Z := 24 * 60 * 60 * 1000.

Section Modules.
Context {Parser : JsonParse} {Dates : DateParse} (CANVAS_BASE_URL : string).

(** A result of the library, as the tool returns it. *)
Definition field_opt (key : string) (o : option string) : list (string * json) := field key JStr o.

Definition summary_json (s : GmailMessageSummary) : json :=
  JObj ([("id", JStr (gs_id s)); ("threadId", JStr (gs_threadId s))] ++ field_opt "snippet" (gs_snippet s) ++
    field_opt "from" (gs_from s) ++ field_opt "to" (gs_to s) ++ field_opt "subject" (gs_subject s) ++
    field_opt "date" (gs_date s) ++ field_opt "body" (gs_body s)).

(** [if (timeMin) opts.timeMin = new Date(timeMin)] *)
Definition date_if_given (text : option string) : option (option Z) :=
  text ≫= fun t => if truthy t then Some (new_Date t) else None.

Definition send_email_tool (payload : json) : int json :=
  to <- required_string "to" payload ;;
  subject <- required_string "subject" payload ;;
  body <- required_string "body" payload ;;
  threadId <- optional_string "threadId" payload ;;
  sent <- GmailClient.sendEmail to subject body threadId ;;
  Ret (JObj [("id", JStr (fst sent)); ("threadId", JStr (snd sent))]).

Definition read_emails_tool (payload : json) : int json :=
  query <- optional_string "query" payload ;;
  threadId <- optional_string "threadId" payload ;;
  maxResults <- optional_number "maxResults" payload ;;
  emails <- match nonempty threadId with
            | Some id => GmailClient.getThread id
            | None => GmailClient.listMessages query maxResults
            end ;;
  Ret (JArr (map summary_json emails)).

Definition list_events_tool (payload : json) : int json :=
  timeMin <- optional_string "timeMin" payload ;;
  timeMax <- optional_string "timeMax" payload ;;
  maxResults <- optional_number "maxResults" payload ;;
  items <- CalendarClient.listEvents {| lo_timeMin := date_if_given timeMin; lo_timeMax := date_if_given timeMax;
                                        lo_maxResults := maxResults |} ;;
  Ret (JArr items).

Definition create_event_tool (payload : json) : int json :=
  summary <- required_string "summary" payload ;;
  description <- optional_string "description" payload ;;
  location <- optional_string "location" payload ;;
  start <- required_string "start" payload ;;
  end_ <- required_string "end" payload ;;
  CalendarClient.createEvent {| ce_summary := summary; ce_description := nonempty description;
    ce_location := nonempty location; ce_start := new_Date start; ce_end := new_Date end_ |}.

Definition update_event_tool (payload : json) : int json :=
  eventId <- required_string "eventId" payload ;;
  eventData <- typed (json_field "eventData" payload) ;;
  summary <- optional_string "summary" eventData ;;
  description <- optional_string "description" eventData ;;
  location <- optional_string "location" eventData ;;
  start <- optional_string "start" eventData ;;
  end_ <- optional_string "end" eventData ;;
  CalendarClient.updateEvent eventId {| cp_summary := summary; cp_description := description; cp_location := location;
    cp_start := date_if_given start; cp_end := date_if_given end_ |}.

Definition delete_event_tool (payload : json) : int json :=
  eventId <- required_string "eventId" payload ;;
  CalendarClient.deleteEvent eventId ;;;
  Ret JNull.

Definition list_assignments_tool (payload : json) : int json :=
  courseId <- optional_number "courseId" payload ;;
  assignments <- CanvasClient.getUpcomingAssignments CANVAS_BASE_URL courseId ;;
  Ret (JArr assignments).

(** [sinceDate ? new Date(sinceDate) : new Date(Date.now() - 24 h)] *)
Definition since_or_yesterday (sinceDate : option string) : int (option Z) :=
  match nonempty sinceDate with
  | Some text => Ret (new_Date text)
  | None => t <- int_now ;; Ret (Some (t - DAY_MS))
  end.

(** [courseIds: readonly number[]] *)
Definition as_numbers (v : json) : option (list Z) := match v with JArr l => mapM as_number l | _ => None end.

Definition course_content_tool (payload : json) : int json :=
  courseIds <- typed (optional "courseIds" as_numbers payload) ;;
  sinceDate <- optional_string "sinceDate" payload ;;
  since <- since_or_yesterday sinceDate ;;
  announcements <- CanvasClient.getCourseAnnouncements CANVAS_BASE_URL (default [] courseIds) since ;;
  Ret (JArr announcements).

Definition STUDY_BLOCK : string := "Bloque de estudio sugerido por Shadowing Académico (Canvas)".

Definition study_block (title startTime endTime : string) : CalendarEventInput :=
  {| ce_summary := title; ce_description := Some STUDY_BLOCK; ce_location := None;
     ce_start := new_Date startTime; ce_end := new_Date endTime |}.

Definition study_block_tool (payload : json) : int json :=
  title <- required_string "title" payload ;;
  startTime <- required_string "startTime" payload ;;
  endTime <- required_string "endTime" payload ;;
  CalendarClient.createEvent (study_block title startTime endTime).

(** The executors that the two modules register. *)
Definition integration_executors : list (string * (option json -> int json)) :=
  [("sendEmail", fun payload => p <- typed payload ;; send_email_tool p);
   ("readEmails", fun payload => read_emails_tool (or_empty payload));
   ("listCalendarEvents", fun payload => list_events_tool (or_empty payload));
   ("createCalendarEvent", fun payload => p <- typed payload ;; create_event_tool p);
   ("updateCalendarEvent", fun payload => p <- typed payload ;; update_event_tool p);
   ("deleteCalendarEventPast", fun payload => p <- typed payload ;; delete_event_tool p);
   ("deleteCalendarEventFuture", fun payload => p <- typed payload ;; delete_event_tool p);
   ("canvasListAssignments", fun payload => list_assignments_tool (or_empty payload));
   ("canvasGetCourseContent", fun payload => course_content_tool (or_empty payload));
   ("canvasScheduleStudyBlock", fun payload => p <- typed payload ;; study_block_tool p)].

Definition integration_executor (toolName : string) : option (option json -> int json) :=
  snd <$> List.find (fun kv => String.eqb (fst kv) toolName) integration_executors.

(** [ToolExecutorRegistry.execute] with these executors. *)
Definition execute_integration (requestId toolName : string) (payload : option json) : int json :=
  match integration_executor toolName with
  | None => Throw (NoExecutorRegisteredError toolName)
  | Some executor =>
      services (observe (ExecStart requestId toolName (default JNull payload))) ;;;
      try_with (executor payload)
        (fun result => services (observe (ExecOk requestId toolName)) ;;; Ret result)
        (fun err => services (observe (ExecFail requestId toolName)) ;;; Throw err)
  end.
End Modules.
