(* ===== verification/IntegrationTools.v ===== *)
(** * IntegrationTools: what the tools of Gmail, Calendar and Canvas do, and the night report

    The services of [src/integrations] over the clients of [Integrations.v]:
    [google-gmail-tools.service.ts], [google-calendar-tools.service.ts],
    [canvas-tools.service.ts], [shadowing.service.ts] and [morning-alert.service.ts]. *)
From S2P Require Import Prelude Effects Js Text Registry Store AuditApi Hitl Models Budget Sanitizer TerminalClient TelegramBot Previews Integrations.
From stdpp Require Import sorting.
From Stdlib Require Import Ascii String QArith Qcanon.
Local Open Scope stdpp_scope.
Local Open Scope Z_scope.
Local Open Scope jin_scope.

(** ** The services of the tools *)

(** [computeHash(data)]: the hash of [JSON.stringify(data ?? {})]. *)
Definition computeHash `{NodeCrypto} (data : option json) : string := hashOf (default (JObj []) data).

Definition wrapped (content source sessionNonce : string) : int string :=
  lift_result (wrapUntrustedContent content source sessionNonce).

Definition count_of {X} (l : list X) : string := pretty (List.length l).

(** A request of one message of the user. *)
Definition one_message (systemPrompt content : string) (maxOutputTokens : Z) (temperature : Qc) : ModelCompletionRequest :=
  {| mcr_systemPrompt := Some systemPrompt;
     mcr_messages := [{| mm_role := user; mm_content := content_string content |}];
     mcr_maxOutputTokens := maxOutputTokens; mcr_temperature := temperature; mcr_tools := None; mcr_effort := None |}.

(** ** google-gmail-tools.service.ts *)

Record ReadEmailsOptions := { ro_query : option string; ro_threadId : option string; ro_maxResults : option Z }.

Definition read_options_json (o : ReadEmailsOptions) : json :=
  JObj (field "query" JStr (ro_query o) ++ field "threadId" JStr (ro_threadId o) ++ field "maxResults" JNum (ro_maxResults o)).

Record SendEmailInput := { se_to : string; se_subject : string; se_body : string; se_threadId : option string }.

Definition send_input_json (i : SendEmailInput) : json :=
  JObj ([("to", JStr (se_to i)); ("subject", JStr (se_subject i)); ("body", JStr (se_body i))] ++
    field "threadId" JStr (se_threadId i)).

(** [text ? wrapUntrustedContent(text, source, nonce) : undefined] *)
Definition wrapped_if_any (text : option string) (source sessionNonce : string) : int (option string) :=
  match nonempty text with
  | Some t => w <- wrapped t source sessionNonce ;; Ret (Some w)
  | None => Ret None
  end.

(** One mail with its texts inside the tag of the session. *)
Definition sanitize_email (sessionNonce : string) (email : GmailMessageSummary) : int GmailMessageSummary :=
  snippet <- wrapped_if_any (gs_snippet email) "gmail_snippet" sessionNonce ;;
  body <- wrapped_if_any (gs_body email) "gmail_body" sessionNonce ;;
  Ret {| gs_id := gs_id email; gs_threadId := gs_threadId email; gs_snippet := snippet; gs_from := gs_from email;
         gs_to := gs_to email; gs_subject := gs_subject email; gs_date := gs_date email; gs_body := body |}.

Fixpoint sanitize_emails (sessionNonce : string) (l : list GmailMessageSummary) : int (list GmailMessageSummary) :=
  match l with
  | [] => Ret []
  | e :: l' =>
      e' <- sanitize_email sessionNonce e ;;
      rest <- sanitize_emails sessionNonce l' ;;
      Ret (e' :: rest)
  end.

Definition pending_result (d : HitlDecision) : json :=
  JObj [("pendingApproval", JBool true); ("requestId", JStr (hd_requestId d)); ("toolName", JStr (hd_toolName d));
        ("level", JStr (level_name (hd_level d)))].

Module GmailTools.
Section Tools.
Context `{Api : AuditApi} `{Crypto : NodeCrypto} `{Router : BudgetGuardedApi}.

Definition readEmails (options : option ReadEmailsOptions) : int (string * list GmailMessageSummary) :=
  let options_json := read_options_json <$> options in
  decision <- services (classifyToolCall "readEmails" (default JNull options_json)) ;;
  sessionNonce <- services generateSessionNonce ;;
  let inputsHash := computeHash options_json in
  let threadId := nonempty (options ≫= ro_threadId) in
  rawEmails <- match threadId with
               | Some id => GmailClient.getThread id
               | None => GmailClient.listMessages (options ≫= ro_query) (options ≫= ro_maxResults)
               end ;;
  emails <- sanitize_emails sessionNonce rawEmails ;;
  services (audit_toolCall (hd_requestId decision) "system" (hd_toolName decision) inputsHash
    (Some (match threadId with
           | Some id => "Leer hilo de correo " +:+ quoted id
           | None => "Consultar lista de correos con query " +:+ quoted (default "todos" (options ≫= ro_query))
           end))
    "auto" (Some ("Consultados " +:+ count_of emails +:+ " mensajes de Gmail"))) ;;;
  Ret (sessionNonce, emails).

Definition sendEmail (input : SendEmailInput) : int json :=
  (if has_line_break (se_to input) then Throw (header_injection "Destinatario (to)") else Ret tt) ;;;
  (if has_line_break (se_subject input) then Throw (header_injection "Asunto (subject)") else Ret tt) ;;;
  decision <- services (classifyToolCall "sendEmail" (send_input_json input)) ;;
  services (DualConfirm.createPendingApproval {|
    cpa_requestId := hd_requestId decision; cpa_toolName := hd_toolName decision; cpa_level := hd_level decision;
    cpa_inputsHash := computeHash (Some (send_input_json input));
    cpa_planSummary := Some ("Enviar correo a " +:+ se_to input +:+ ": " +:+ quoted (se_subject input));
    cpa_payload := Some (send_input_json input); cpa_actor := None; cpa_externalInputsSummary := None |}) ;;;
  Ret (pending_result decision).

Definition SUMMARY_PROMPT : string :=
  "Eres el asistente personal de correo de Jin. Analiza los correos recibidos dentro de las etiquetas de contenido no confiable. Genera un resumen ejecutivo en formato Markdown estructurado:"
  +:+ newline +:+ "1. ✉️ Resumen de Correos Principales (Remitente, Asunto, Puntos Clave)"
  +:+ newline +:+ "2. 🚨 Correos que requieren atención o respuesta urgente"
  +:+ newline +:+ "Sé directo, conciso y profesional.".

Definition summary_message (sessionNonce : string) (emails : list GmailMessageSummary) : string :=
  "A continuación se muestran los correos recuperados (sessionNonce: " +:+ sessionNonce +:+ "):" +:+ newline +:+ newline
  +:+ stringify (JArr (map summary_json emails)).

Definition summarizeEmails (query : option string) : int string :=
  read <- readEmails (Some {| ro_query := Some (default "label:INBOX is:unread" query); ro_threadId := None;
                              ro_maxResults := Some 10 |}) ;;
  let '(sessionNonce, emails) := read in
  match emails with
  | [] => Ret "🎉 No tienes correos no leídos pendientes."
  | _ =>
      response <- services (guarded_complete "chat_conversational"
        (one_message SUMMARY_PROMPT (summary_message sessionNonce emails) 2000 (Q2Qc (5 # 10))) no_hints None) ;;
      Ret (mcs_content response)
  end.
End Tools.
End GmailTools.

(** ** google-calendar-tools.service.ts *)

(** [JSON.stringify] of a date. *)
Definition date_json (d : option Z) : json := match d with Some t => JStr (to_iso_string t) | None => JNull end.

Definition list_options_json (o : ListEventsOptions) : json :=
  JObj (field "timeMin" date_json (lo_timeMin o) ++ field "timeMax" date_json (lo_timeMax o) ++
    field "maxResults" JNum (lo_maxResults o)).

Definition event_json (e : CalendarEventInput) : json :=
  JObj ([("summary", JStr (ce_summary e)); ("start", date_json (ce_start e)); ("end", date_json (ce_end e))] ++
    field "description" JStr (ce_description e) ++ field "location" JStr (ce_location e)).

Definition patch_json (e : CalendarEventPatch) : json :=
  JObj (field "summary" JStr (cp_summary e) ++ field "description" JStr (cp_description e) ++
    field "location" JStr (cp_location e) ++ field "start" date_json (cp_start e) ++ field "end" date_json (cp_end e)).

Definition event_id_json (eventId : string) : json := JObj [("eventId", JStr eventId)].

(** The row of what a tool of the calendar has done. *)
Definition record_calendar `{Api : AuditApi} `{Crypto : NodeCrypto} (decision : HitlDecision) (input : option json) (planSummary approvalStatus : string)
    (external : option string) : int unit :=
  services (audit_toolCall (hd_requestId decision) "system" (hd_toolName decision) (computeHash input) (Some planSummary)
    approvalStatus external) ;;;
  Ret tt.

Module CalendarTools.
Section Tools.
Context `{Api : AuditApi} `{Crypto : NodeCrypto}.

Definition listCalendarEvents (options : option ListEventsOptions) : int (list json) :=
  let options_json := list_options_json <$> options in
  decision <- services (classifyToolCall "listCalendarEvents" (default JNull options_json)) ;;
  items <- CalendarClient.listEvents (default {| lo_timeMin := None; lo_timeMax := None; lo_maxResults := None |} options) ;;
  record_calendar decision options_json "Listar eventos de Google Calendar" "auto"
    (Some ("Consultados " +:+ count_of items +:+ " eventos de Calendar")) ;;;
  Ret items.

Definition createCalendarEvent (eventData : CalendarEventInput) : int json :=
  decision <- services (classifyToolCall "createCalendarEvent" (event_json eventData)) ;;
  event <- CalendarClient.createEvent eventData ;;
  record_calendar decision (Some (event_json eventData))
    ("Crear evento " +:+ quoted (ce_summary eventData) +:+ " en Google Calendar") "notified" None ;;;
  Ret event.

Definition updateCalendarEvent (eventId : string) (eventData : CalendarEventPatch) : int json :=
  let input := JObj [("eventId", JStr eventId); ("eventData", patch_json eventData)] in
  decision <- services (classifyToolCall "updateCalendarEvent" input) ;;
  event <- CalendarClient.updateEvent eventId eventData ;;
  record_calendar decision (Some input) ("Actualizar evento " +:+ quoted eventId +:+ " en Google Calendar") "notified" None ;;;
  Ret event.

Definition deleteCalendarEventPast (eventId : string) : int json :=
  decision <- services (classifyToolCall "deleteCalendarEventPast" (event_id_json eventId)) ;;
  CalendarClient.deleteEvent eventId ;;;
  record_calendar decision (Some (event_id_json eventId))
    ("Borrar evento pasado " +:+ quoted eventId +:+ " de Google Calendar") "notified" None ;;;
  Ret (JObj [("deleted", JBool true); ("eventId", JStr eventId)]).

Definition deleteCalendarEventFuture (eventId : string) : int json :=
  decision <- services (classifyToolCall "deleteCalendarEventFuture" (event_id_json eventId)) ;;
  services (DualConfirm.createPendingApproval {|
    cpa_requestId := hd_requestId decision; cpa_toolName := hd_toolName decision; cpa_level := hd_level decision;
    cpa_inputsHash := computeHash (Some (event_id_json eventId));
    cpa_planSummary := Some ("Borrar evento futuro " +:+ quoted eventId +:+ " de Google Calendar");
    cpa_payload := Some (event_id_json eventId); cpa_actor := None; cpa_externalInputsSummary := None |}) ;;;
  Ret (pending_result decision).
End Tools.
End CalendarTools.

(** ** canvas-tools.service.ts *)

(** The inputs are kept as the caller built them: their hash has the order of its keys. *)
Module CanvasTools.
Section Tools.
Context `{Api : AuditApi} `{Crypto : NodeCrypto} {Parser : JsonParse} {Dates : DateParse} (CANVAS_BASE_URL : string).

(** [input.requestId ?? randomUUID()], [input.sessionNonce ?? generateSessionNonce()] *)
Definition given_or (given : option string) (drawn : jin string) : int string :=
  match given with Some x => Ret x | None => services drawn end.

Definition record_read (requestId toolName : string) (input : json) (planSummary summary : string) : int unit :=
  services (audit_toolCall requestId "agent" toolName (computeHash (Some input)) (Some planSummary) "auto" (Some summary)) ;;;
  Ret tt.

Definition executeListAssignments (input : json) : int (list json * string) :=
  courseId <- optional_number "courseId" input ;;
  requestId <- given_or (json_string "requestId" input) randomUUID ;;
  nonce <- given_or (json_string "sessionNonce" input) generateSessionNonce ;;
  assignments <- CanvasClient.getUpcomingAssignments CANVAS_BASE_URL courseId ;;
  wrappedContent <- wrapped (stringify (JArr assignments)) "canvas_list_assignments" nonce ;;
  record_read requestId "canvasListAssignments" input "Listar tareas de Canvas LMS"
    ("Consultadas " +:+ count_of assignments +:+ " tareas de Canvas") ;;;
  Ret (assignments, wrappedContent).

Definition executeGetCourseContent (input : json) : int (list json * string) :=
  courseIds <- typed (json_field "courseIds" input ≫= as_numbers) ;;
  requestId <- given_or (json_string "requestId" input) randomUUID ;;
  nonce <- given_or (json_string "sessionNonce" input) generateSessionNonce ;;
  since <- since_or_yesterday (json_string "sinceDate" input) ;;
  announcements <- CanvasClient.getCourseAnnouncements CANVAS_BASE_URL courseIds since ;;
  wrappedContent <- wrapped (stringify (JArr announcements)) "canvas_get_course_content" nonce ;;
  record_read requestId "canvasGetCourseContent" input "Leer contenido de cursos en Canvas LMS"
    ("Consultados " +:+ count_of announcements +:+ " anuncios de Canvas de " +:+ count_of courseIds +:+ " curso(s)") ;;;
  Ret (announcements, wrappedContent).

Definition executeScheduleStudyBlock (title startTime endTime : string) : int json :=
  CalendarTools.createCalendarEvent (study_block title startTime endTime).
End Tools.
End CanvasTools.

(** ** shadowing.service.ts *)

Record ShadowingResult := {
  sw_sessionNonce : string;
  sw_coursesChecked : Z;
  sw_recentAnnouncementsCount : Z;
  sw_upcomingAssignmentsCount : Z;
  sw_summaryMarkdown : string;
  sw_modelId : string
}.

Definition MAX_STORED_ERROR_LENGTH : nat := 500.

Definition len {X} (l : list X) : Z := Z.of_nat (List.length l).

Module Shadowing.
Definition SYSTEM_PROMPT : string :=
  "Eres el asistente académico personal de Jin. Analiza la información académica de Canvas LMS recibida dentro de las etiquetas de contenido no confiable. Genera un resumen ejecutivo en formato Markdown con las siguientes secciones:"
  +:+ newline +:+ "1. 📌 Anuncios Recientes Relevantes"
  +:+ newline +:+ "2. ⏰ Próximas Entregas y Deadlines"
  +:+ newline +:+ "3. 💡 Acciones Sugeridas para hoy"
  +:+ newline +:+ "Mantén un tono profesional, directo y conciso.".

Definition canvas_payload (since : Z) (courses announcements upcomingAssignments : list json) : json :=
  JObj [("since", JStr (to_iso_string since)); ("coursesCount", JNum (len courses)); ("announcements", JArr announcements);
        ("upcomingAssignments", JArr upcomingAssignments)].

Definition night_message (wrappedContent : string) : string :=
  "A continuación se presentan las actualizaciones de Canvas LMS:" +:+ newline +:+ newline +:+ wrappedContent.

(** [status], what went well or the error: the columns left out have their defaults. *)
Definition run_row (t : Z) (outcome : JinError + ShadowingResult) : ShadowingRunRow :=
  match outcome with
  | inr result =>
      {| sr_ranAt := t; sr_status := "ok"; sr_error := None; sr_summaryMarkdown := Some (sw_summaryMarkdown result);
         sr_coursesChecked := sw_coursesChecked result; sr_announcementsCount := sw_recentAnnouncementsCount result;
         sr_assignmentsCount := sw_upcomingAssignmentsCount result; sr_modelId := Some (sw_modelId result) |}
  | inl err =>
      {| sr_ranAt := t; sr_status := "failed"; sr_error := Some (js_slice MAX_STORED_ERROR_LENGTH (messageOf err));
         sr_summaryMarkdown := None; sr_coursesChecked := 0; sr_announcementsCount := 0; sr_assignmentsCount := 0;
         sr_modelId := None |}
  end.

(** A failure to store the run is logged. *)
Definition persistRun (outcome : JinError + ShadowingResult) : int unit :=
  catch (statement_on iw_world iw_put (fun v => (put_runs (iw_runs v ++ [run_row (int_clock v) outcome]) v, tt)))
    (fun _ => Ret tt).

Section Service.
Context `{Api : AuditApi} `{Crypto : NodeCrypto} {Parser : JsonParse} `{Router : BudgetGuardedApi} (CANVAS_BASE_URL : string).

(** [Promise.all] of two requests: both are made; the first error counts. *)
Definition both {A B} (p : int A) (q : int B) : int (A * B) :=
  try_with p (fun a => b <- q ;; Ret (a, b)) (fun e => try_with q (fun _ => Throw e) (fun _ => Throw e)).

Definition runShadowing (sinceDate : option Z) : int ShadowingResult :=
  requestId <- services randomUUID ;;
  sessionNonce <- services generateSessionNonce ;;
  since <- match sinceDate with Some t => Ret t | None => t <- int_now ;; Ret (t - DAY_MS) end ;;
  courses <- CanvasClient.getActiveCourses CANVAS_BASE_URL ;;
  courseIds <- typed (mapM (fun c => json_field "id" c ≫= as_number) courses) ;;
  data <- both (CanvasClient.getCourseAnnouncements CANVAS_BASE_URL courseIds (Some since))
               (CanvasClient.getUpcomingAssignments CANVAS_BASE_URL None) ;;
  let '(announcements, upcomingAssignments) := data in
  wrappedContent <- wrapped (stringify (canvas_payload since courses announcements upcomingAssignments))
                      "canvas_shadowing" sessionNonce ;;
  response <- services (guarded_complete "long_context"
    (one_message SYSTEM_PROMPT (night_message wrappedContent) 8000 (Q2Qc (4 # 10))) no_hints None) ;;
  services (audit_toolCall requestId "system_cron" "canvas_shadowing_cron"
    (computeHash (Some (JObj [("since", JStr (to_iso_string since))])))
    (Some "Ejecución de Shadowing Académico nocturno") "auto"
    (Some ("Shadowing: " +:+ count_of courses +:+ " cursos, " +:+ count_of announcements +:+ " anuncios, " +:+
           count_of upcomingAssignments +:+ " entregables próximos."))) ;;;
  Ret {| sw_sessionNonce := sessionNonce; sw_coursesChecked := len courses;
         sw_recentAnnouncementsCount := len announcements; sw_upcomingAssignmentsCount := len upcomingAssignments;
         sw_summaryMarkdown := mcs_content response; sw_modelId := mcs_modelId response |}.

(** The cron of midnight. *)
Definition handleCron : int unit :=
  try_with (runShadowing None) (fun result => persistRun (inr result)) (fun err => persistRun (inl err)).
End Service.
End Shadowing.

(** ** morning-alert.service.ts *)

Definition MAX_RUN_AGE_MS : Z := 12 * 60 * 60 * 1000.

(** [orderBy(desc(ranAt))]; rows that tie keep the order of the table. *)
Definition later_run (a b : ShadowingRunRow) : Prop := sr_ranAt b <= sr_ranAt a.
#[export] Instance later_run_dec a b : Decision (later_run a b).
Proof. unfold later_run; apply _. Defined.

Definition latest_run (since : Z) (runs : list ShadowingRunRow) : option ShadowingRunRow :=
  head (merge_sort later_run (List.filter (fun r => since <=? sr_ranAt r) runs)).

Definition event_of (latest : option ShadowingRunRow) : MorningAlertEvent :=
  match latest with
  | None => morning_missing
  | Some row =>
      let ranAt := to_iso_string (sr_ranAt row) in
      match nonempty (sr_summaryMarkdown row) with
      | Some summary =>
          if String.eqb (sr_status row) "ok" then morning_summary ranAt summary
          else morning_failed ranAt (default "la corrida terminó sin resumen" (sr_error row))
      | None => morning_failed ranAt (default "la corrida terminó sin resumen" (sr_error row))
      end
  end.

Definition kind_of (event : MorningAlertEvent) : string :=
  match event with morning_summary _ _ => "summary" | morning_failed _ _ => "failed" | morning_missing => "missing" end.

Module MorningAlert.
Section Service.
Context `{Api : AuditApi} `{Crypto : NodeCrypto}.

(** The row of the alert; a failure to write it is logged. *)
Definition record_alert (event : MorningAlertEvent) (latest : option ShadowingRunRow) : int unit :=
  catch
    (requestId <- services randomUUID ;;
     services (audit_toolCall requestId "system_cron" "morning_alert_cron"
       (hashOf (JObj ([("kind", JStr (kind_of event))] ++
                      field "ranAt" (fun row => JStr (to_iso_string (sr_ranAt row))) latest)))
       (Some ("Alerta matutina 06:00 (" +:+ kind_of event +:+ ")")) "auto" None) ;;;
     Ret tt)
    (fun _ => Ret tt).

(** [now] is when the cron starts. *)
Definition run : int MorningAlertEvent :=
  t <- int_now ;;
  latest <- statement_on iw_world iw_put (fun v => (v, latest_run (t - MAX_RUN_AGE_MS) (iw_runs v))) ;;
  let event := event_of latest in
  writes (fun v => put_alerts (iw_alerts v ++ [event]) v) ;;;
  record_alert event latest ;;;
  Ret event.

(** The cron of six. *)
Definition handleCron : int unit := catch (run ;;; Ret tt) (fun _ => Ret tt).
End Service.
End MorningAlert.
