(* ===== verification/ErrorFilter.v ===== *)
(** * ErrorFilter: what a failed request answers

    [src/common/errors/jin-error.ts], [src/common/filters/jin-error.filter.ts] and the codes and
    states of HTTP that the classes of errors of the components declare.  The body of an
    [HttpException] is the framework's, a parameter. *)
From S2P Require Import Prelude Effects Js Text Registry Store TerminalClient.
Local Open Scope stdpp_scope.
Local Open Scope Z_scope.
Local Open Scope jin_scope.

(** The options that a subclass of [JinError] gives to its base; [None] is an error of
    another class. *)
Definition JinErrorOptions (e : JinError) : option (string * Z) :=
  match e with
  | UnknownToolError _ => Some ("HITL_UNKNOWN_TOOL", 400)
  | ToolExecutorAlreadyRegisteredError _ => Some ("HITL_TOOL_EXECUTOR_ALREADY_REGISTERED", 500)
  | NoExecutorRegisteredError _ => Some ("HITL_NO_EXECUTOR_REGISTERED", 500)
  | PendingApprovalNotFoundError _ => Some ("HITL_PENDING_APPROVAL_NOT_FOUND", 404)
  | SecondApprovalTooEarlyError _ _ => Some ("HITL_SECOND_APPROVAL_TOO_EARLY", 409)
  | ApprovalAlreadyResolvedError _ => Some ("HITL_APPROVAL_ALREADY_RESOLVED", 409)
  | AuditChainLockedError => Some ("AUDIT_CHAIN_LOCKED", 503)
  | SessionBudgetExceededError _ => Some ("BUDGET_SESSION_EXCEEDED", 429)
  | DailyBudgetExceededError => Some ("BUDGET_DAILY_EXCEEDED", 429)
  | KillSwitchActiveError _ => Some ("BUDGET_KILL_SWITCH_ACTIVE", 503)
  | UnknownTaskProfileError _ => Some ("MODEL_PROVIDER_UNKNOWN_TASK_PROFILE", 400)
  | UnknownModelVendorError _ => Some ("MODEL_PROVIDER_UNKNOWN_VENDOR", 500)
  | InvalidChatModelOptionError _ _ => Some ("MODEL_PROVIDER_INVALID_CHAT_OPTION", 400)
  | AllProvidersFailedError _ _ _ _ => Some ("MODEL_PROVIDER_ALL_FAILED", 502)
  | StreamAlreadyPartiallyEmittedError _ _ _ => Some ("MODEL_PROVIDER_STREAM_INTERRUPTED", 502)
  | AgentPlanStepOutOfBoundsError _ _ => Some ("AGENT_PLAN_STEP_OUT_OF_BOUNDS", 400)
  | TicketDecompositionParseError _ => Some ("AGENT_TICKET_DECOMPOSITION_PARSE_ERROR", 502)
  | ReconciliationParseError _ => Some ("AGENT_RECONCILIATION_PARSE_ERROR", 502)
  | InvalidSessionNonceError _ => Some ("SECURITY_INVALID_SESSION_NONCE", 400)
  | TerminalUpstreamError code httpStatus _ => Some (code, httpStatus)
  | TerminalUnavailableError => Some ("TERMINAL_EXECUTOR_UNREACHABLE", 502)
  | RelayQuotaExceededError => Some ("RELAY_QUOTA_EXCEEDED", 429)
  | RelayDisabledError => Some ("RELAY_DISABLED", 503)
  | EmbeddingProviderError _ => Some ("MEMORY_EMBEDDING_PROVIDER_ERROR", 502)
  | ConsolidationParseError _ => Some ("MEMORY_CONSOLIDATION_PARSE_ERROR", 502)
  | ExecutorApiError _ _ => Some ("EXECUTOR_API_ERROR", 502)
  | CanvasApiError _ _ => Some ("CANVAS_API_ERROR", 502)
  | CanvasRateLimitError => Some ("CANVAS_RATE_LIMIT_EXCEEDED", 429)
  | GoogleGmailApiError _ => Some ("GOOGLE_GMAIL_API_ERROR", 502)
  | GoogleGmailRateLimitError => Some ("GOOGLE_GMAIL_RATE_LIMIT_EXCEEDED", 429)
  | GoogleCalendarApiError _ => Some ("GOOGLE_CALENDAR_API_ERROR", 502)
  | GoogleCalendarRateLimitError => Some ("GOOGLE_CALENDAR_RATE_LIMIT_EXCEEDED", 429)
  | InvalidCredentialsError => Some ("AUTH_INVALID_CREDENTIALS", 401)
  | UnknownMcpServerError _ => Some ("MCP_UNKNOWN_SERVER", 400)
  | McpUnsupportedServerError _ _ => Some ("MCP_UNSUPPORTED_SERVER", 502)
  | McpUnexpectedResponseError _ _ => Some ("MCP_UNEXPECTED_RESPONSE", 502)
  | RunNotFoundError _ => Some ("AGENT_RUN_NOT_FOUND", 404)
  | DbError | ZodError _ | PlainError _ | TelegramError _ | GrammyError _ _ _ | PreviewTemplateInputError _
  | BadRequestException _ | ConflictException _ | NotFoundException _ | UnauthorizedException _ => None
  end.

(** [err instanceof JinError] *)
Definition isJinError (e : JinError) : bool := match JinErrorOptions e with Some _ => true | None => false end.

(** What reaches the filter: an error of the program, or one of the parser of bodies, of
    which it reads [status] and [expose]. *)
Inductive Exception :=
| of_program (e : JinError)
| of_parser (status expose : option json).

(** [exposedClientStatus] *)
Definition exposedClientStatus (status expose : option json) : option Z :=
  match expose, status with
  | Some (JBool true), Some (JNum n) => if (400 <=? n) && (n <? 500) then Some n else None
  | _, _ => None
  end.

Definition answer_body (status : Z) (code message : string) : json :=
  JObj [("statusCode", JNum status); ("code", JStr code); ("message", JStr message)].

Definition internal_error : Z * json := (500, answer_body 500 "INTERNAL_ERROR" "Error interno del servidor.").

Module JinErrorFilter.
Section Filter.
(** [exception.getStatus()] and [exception.getResponse()] of an [HttpException]. *)
Context (http_exception : JinError -> option (Z * json)).

(** The state and the body of the answer. *)
Definition catch (exception : Exception) : Z * json :=
  match exception with
  | of_program e =>
      match JinErrorOptions e with
      | Some (code, status) => (status, answer_body status code (messageOf e))
      | None => match http_exception e with
                | Some (status, body) => (status, body)
                | None => internal_error
                end
      end
  | of_parser status expose =>
      match exposedClientStatus status expose with
      | Some status =>
          (status, answer_body status (if status =? 413 then "PAYLOAD_TOO_LARGE" else "BAD_REQUEST")
                     (if status =? 413 then "La solicitud es demasiado grande." else "La solicitud no es válida."))
      | None => internal_error
      end
  end.
End Filter.
End JinErrorFilter.

(** ** The states are states of an error *)

Definition error_status (status : Z) : Prop := 400 <= status < 600.

(** An error as the classes of the source build it. *)
Definition well_built (e : JinError) : Prop :=
  match e with
  | TerminalUpstreamError _ _ _ => exists upstreamStatus message code, e = new_TerminalUpstreamError upstreamStatus message code
  | _ => True
  end.

Lemma upstream_status upstreamStatus message upstreamCode code httpStatus m :
  new_TerminalUpstreamError upstreamStatus message upstreamCode = TerminalUpstreamError code httpStatus m ->
  error_status httpStatus.
Proof.
  unfold new_TerminalUpstreamError, PASSTHROUGH_STATUSES, error_status. cbn. intros [= _ <- _].
  repeat match goal with |- context [if ?b then _ else _] => destruct b eqn:?; [try lia|] end; try lia.
Qed.

Lemma declared_status e code status : well_built e -> JinErrorOptions e = Some (code, status) -> error_status status.
Proof.
  unfold error_status. destruct e; intros Hw H; cbn in H; try discriminate H; injection H as <- <-; try lia.
  destruct Hw as (s & m & c & Hw). by eapply upstream_status.
Qed.

Lemma exposed_status status expose n : exposedClientStatus status expose = Some n -> 400 <= n < 500.
Proof.
  destruct expose as [[|[|]| | | |]|], status as [[]|]; cbn; try done. destruct (_ && _) eqn:E; [|done]. intros [= <-].
  apply andb_true_iff in E as [?%Z.leb_le ?%Z.ltb_lt]. done.
Qed.

(** Whatever fails, the answer has the state of an error, if the framework's errors have one;
    and an error that is neither of the program's classes, nor of the framework, nor one that
    the parser of bodies exposes, always gives the same answer. *)
Lemma every_failure_is_an_error_answer http_exception exception
  (Hbuilt : match exception with of_program e => well_built e | _ => True end)
  (Hhttp : forall e status body, http_exception e = Some (status, body) -> error_status status) :
  error_status (JinErrorFilter.catch http_exception exception).1.
Proof.
  destruct exception as [e|status expose]; cbn.
  - destruct (JinErrorOptions e) as [[code status]|] eqn:E; [by eapply declared_status|].
    destruct (http_exception e) as [[status body]|] eqn:Eh; [by eapply Hhttp|]. by split.
  - destruct (exposedClientStatus status expose) eqn:E; [|by split]. apply exposed_status in E. unfold error_status. cbn. lia.
Qed.
