(* ===== verification/Gateways.v ===== *)
(** * Gateways: who may speak to the server, and the chat

    [src/auth], [src/chat/chat.gateway.ts], [src/chat/chat.controller.ts],
    [src/chat/model-message.schema.ts] and [src/realtime/realtime.gateway.ts].  The library
    of JSON Web Tokens and Argon2 are parameters; a socket is an object with its handshake,
    whether it is connected, and what it was sent. *)
From S2P Require Import Prelude Effects Js Text Registry Store Models Agent Orchestrator PushService Previews.
From Stdlib Require Import Ascii String QArith Qcanon.
Local Open Scope stdpp_scope.
Local Open Scope Z_scope.
Local Open Scope jin_scope.

(** ** The standard library: decodeURIComponent *)

Definition hex_value (c : ascii) : option Z :=
  let n := Z.of_nat (nat_of_ascii c) in
  if (48 <=? n) && (n <=? 57) then Some (n - 48)
  else if (65 <=? n) && (n <=? 70) then Some (n - 55)
  else if (97 <=? n) && (n <=? 102) then Some (n - 87)
  else None.

(** The code points that [n] bytes of UTF-8 may encode. *)
Definition encoded_in (n : nat) (cp : Z) : bool :=
  match n with
  | 2%nat => 128 <=? cp
  | 3%nat => (2048 <=? cp) && negb ((55296 <=? cp) && (cp <? 57344))
  | _ => (65536 <=? cp) && (cp <=? 1114111)
  end.

(** The bytes still to come of a character, of how many, its bits and bytes so far. *)
Record Octets := { oc_missing : nat; oc_length : nat; oc_bits : Z; oc_bytes : string }.

(** A byte that begins a character. *)
Definition lead_octet (b : Z) (byte : string) : option Octets :=
  if (192 <=? b) && (b <? 224) then Some {| oc_missing := 1; oc_length := 2; oc_bits := b - 192; oc_bytes := byte |}
  else if (224 <=? b) && (b <? 240) then Some {| oc_missing := 2; oc_length := 3; oc_bits := b - 224; oc_bytes := byte |}
  else if (240 <=? b) && (b <? 248) then Some {| oc_missing := 3; oc_length := 4; oc_bits := b - 240; oc_bytes := byte |}
  else None.

(** [None] is the [URIError] of a malformed sequence. *)
Fixpoint decode_from (st : option Octets) (s : string) : option string :=
  match s with
  | EmptyString => match st with None => Some "" | Some _ => None end
  | String c s' =>
      if Ascii.eqb c "%" then
        match s' with
        | String x (String y rest) =>
            hi ← hex_value x; lo ← hex_value y;
            let b := 16 * hi + lo in
            let byte := String (ascii_of_nat (Z.to_nat b)) "" in
            match st with
            | None =>
                if b <? 128 then String.append byte <$> decode_from None rest
                else o ← lead_octet b byte; decode_from (Some o) rest
            | Some o =>
                if negb ((128 <=? b) && (b <? 192)) then None
                else
                  let bits := oc_bits o * 64 + (b - 128) in
                  let bytes := oc_bytes o +:+ byte in
                  match oc_missing o with
                  | S (S m) => decode_from (Some {| oc_missing := S m; oc_length := oc_length o; oc_bits := bits;
                                                    oc_bytes := bytes |}) rest
                  | _ => if encoded_in (oc_length o) bits then String.append bytes <$> decode_from None rest else None
                  end
            end
        | _ => None
        end
      else match st with None => String c <$> decode_from None s' | Some _ => None end
  end.

Definition decodeURIComponent (s : string) : option string := decode_from None s.

(** [s.trim()] *)
Definition trimmed (s : string) : string := written (trim (text_of s)).

(** [pair.indexOf('=')] and the two slices around it. *)
Fixpoint cut_at (sep : ascii) (s : string) : option (string * string) :=
  match s with
  | EmptyString => None
  | String c s' =>
      if Ascii.eqb c sep then Some ("", s')
      else '(a, b) ← cut_at sep s'; Some (String c a, b)
  end.

(** [s.slice(prefix.length)] when [s.startsWith(prefix)]. *)
Fixpoint after_prefix (p s : string) : option string :=
  match p, s with
  | EmptyString, _ => Some s
  | String a p', String b s' => if Ascii.eqb a b then after_prefix p' s' else None
  | _, _ => None
  end.

(** ** auth/ws-token.ts *)

Record Handshake := {
  hk_auth_token : option string;
  hk_cookie : option string;
  hk_authorization : option string
}.

Definition SESSION_COOKIE_NAME : string := "__Host-jin_session".
Definition URIError : JinError := PlainError "URI malformed".

(** The cookies of a header, the last assignment first. *)
Fixpoint parse_pairs (pairs : list string) (cookies : list (string * string)) : JinError + list (string * string) :=
  match pairs with
  | [] => inr cookies
  | p :: pairs' =>
      match cut_at "=" p with
      | None => parse_pairs pairs' cookies
      | Some (key, value) =>
          match decodeURIComponent (trimmed value) with
          | None => inl URIError
          | Some v => parse_pairs pairs' ((trimmed key, v) :: cookies)
          end
      end
  end.

Definition parseCookies (cookieHeader : option string) : JinError + list (string * string) :=
  match cookieHeader with
  | Some header => if truthy header then parse_pairs (split_on ";" header) [] else inr []
  | None => inr []
  end.

Definition cookie (name : string) (cookies : list (string * string)) : option string :=
  snd <$> List.find (fun kv => String.eqb (fst kv) name) cookies.

(** [Authorization: Bearer ...] *)
Definition bearer (authorization : option string) : option string := authorization ≫= after_prefix "Bearer ".

Definition present (o : option string) : option string := o ≫= fun s => if truthy s then Some s else None.

Definition extractWsToken (h : Handshake) : JinError + option string :=
  match present (hk_auth_token h) with
  | Some token => inr (Some token)
  | None =>
      match parseCookies (hk_cookie h) with
      | inl e => inl e
      | inr cookies =>
          match present (cookie SESSION_COOKIE_NAME cookies) with
          | Some token => inr (Some token)
          | None => inr (bearer (hk_authorization h))
          end
      end
  end.

(** ** auth.service.ts, auth.controller.ts and jwt-auth.guard.ts *)

(** [JwtService] with the secret of the server, and [argon2.verify], which may reject. *)
Class Credentials := {
  jwt_sign (t : Z) (sub expiresIn : string) : string;
  jwt_verify (t : Z) (token : string) : bool;
  argon2_verify (hash password : string) : option bool
}.

Definition JWT_EXPIRES_IN : string := "7d".
Definition JWT_SUBJECT : string := "owner".
Definition SESSION_COOKIE_MAX_AGE_MS : Z := 7 * 24 * 60 * 60 * 1000.

Record SetCookie := {
  sc_name : string;
  sc_value : string;
  sc_httpOnly : bool;
  sc_secure : bool;
  sc_sameSite : string;
  sc_path : string;
  sc_maxAge : Z
}.

Module Auth.
Section Service.
Context {Cred : Credentials} (OWNER_PASSWORD_HASH : string).

Definition login (password : string) : jin string :=
  if default false (argon2_verify OWNER_PASSWORD_HASH password)
  then t <- now ;; Ret (jwt_sign t JWT_SUBJECT JWT_EXPIRES_IN)
  else Throw InvalidCredentialsError.

(** The endpoint: the token in the body and in a cookie. *)
Definition login_endpoint (password : string) : jin (string * SetCookie) :=
  accessToken <- login password ;;
  Ret (accessToken, {| sc_name := SESSION_COOKIE_NAME; sc_value := accessToken; sc_httpOnly := true; sc_secure := true;
                       sc_sameSite := "strict"; sc_path := "/"; sc_maxAge := SESSION_COOKIE_MAX_AGE_MS |}).

(** [res.clearCookie(SESSION_COOKIE_NAME, { path: '/' })]: a cookie without a value that has
    expired, with the options that are written and no other. *)
Definition logout : SetCookie :=
  {| sc_name := SESSION_COOKIE_NAME; sc_value := ""; sc_httpOnly := false; sc_secure := false;
     sc_sameSite := ""; sc_path := "/"; sc_maxAge := 0 |}.
End Service.
End Auth.

Definition PUBLIC_PATH_ALLOWLIST : list string := ["/metrics"].

(** What the guard reads of a request: the cookies are those of cookie-parser. *)
Record HttpCall := {
  hc_isPublic : bool;
  hc_path : string;
  hc_cookies : list (string * string);
  hc_authorization : option string
}.

Definition extractToken (request : HttpCall) : option string :=
  match present (cookie SESSION_COOKIE_NAME (hc_cookies request)) with
  | Some token => Some token
  | None => bearer (hc_authorization request)
  end.

Definition canActivate {Cred : Credentials} (request : HttpCall) : jin bool :=
  if hc_isPublic request then Ret true
  else if existsb (String.eqb (hc_path request)) PUBLIC_PATH_ALLOWLIST then Ret true
  else
    match present (extractToken request) with
    | None => Throw (UnauthorizedException "Falta token de autenticación.")
    | Some token =>
        t <- now ;;
        if jwt_verify t token then Ret true else Throw (UnauthorizedException "Token inválido o expirado.")
    end.

(** The cookies of a browser, which an answer changes.  As the draft that replaces RFC 6265
    says, one that is named [__Host-] and is not [Secure] is ignored. *)
Class Browser := {
  keep_cookie : list (string * string) -> SetCookie -> list (string * string);
  keeps_secure : forall cookies c, sc_secure c = true -> sc_path c = "/" -> 0 < sc_maxAge c ->
    cookie (sc_name c) (keep_cookie cookies c) = Some (sc_value c);
  ignores_host_prefix : forall cookies c, String.prefix "__Host-" (sc_name c) = true -> sc_secure c = false ->
    keep_cookie cookies c = cookies
}.

(** ** chat/model-message.schema.ts *)

Record ChatBody := {
  cb_sessionId : string;
  cb_objective : string;
  cb_history : option (list ModelMessage);
  cb_notifyWhenDone : option bool
}.

(** [z.unknown()]: a field left out is read as null. *)
Definition unknown (key : string) (v : json) : json := default JNull (json_field key v).

Definition ModelToolCallSchema (v : json) : option ModelToolCall :=
  id ← json_string "id" v; name ← json_string "name" v;
  Some {| mtc_id := id; mtc_name := name; mtc_input := unknown "input" v |}.

Definition ModelMessageContentBlockSchema (v : json) : option ModelMessageContentBlock :=
  type ← json_string "type" v;
  if String.eqb type "text" then block_text <$> json_string "text" v
  else if String.eqb type "tool_use" then block_tool_use <$> (json_field "toolCall" v ≫= ModelToolCallSchema)
  else if String.eqb type "tool_result" then
    toolCallId ← json_string "toolCallId" v;
    isError ← optional "isError" as_bool v;
    Some (block_tool_result toolCallId (unknown "output" v) isError)
  else None.

Definition parse_role (v : json) : option Role :=
  role ← json_string "role" v;
  if String.eqb role "user" then Some user else if String.eqb role "assistant" then Some assistant else None.

Definition ModelMessageSchema (v : json) : option ModelMessage :=
  role ← parse_role v;
  content ← json_field "content" v;
  content ← match content with
            | JStr s => Some (content_string s)
            | JArr l => content_blocks <$> mapM ModelMessageContentBlockSchema l
            | _ => None
            end;
  Some {| mm_role := role; mm_content := content |}.

Definition as_messages (v : json) : option (list ModelMessage) :=
  match v with JArr l => mapM ModelMessageSchema l | _ => None end.

(** [z.string().min(1)] *)
Definition nonempty_string (key : string) (v : json) : option string := present (json_string key v).

Definition ChatBodySchema (v : json) : option ChatBody :=
  sessionId ← nonempty_string "sessionId" v;
  objective ← nonempty_string "objective" v;
  history ← optional "history" as_messages v;
  notifyWhenDone ← optional "notifyWhenDone" as_bool v;
  Some {| cb_sessionId := sessionId; cb_objective := objective; cb_history := history; cb_notifyWhenDone := notifyWhenDone |}.

(** [toModelMessages] only rebuilds what was parsed. *)
Definition toModelMessages (history : option (list ModelMessage)) : option (list ModelMessage) := history.

(** [fromModelMessages], as the answer carries it. *)
Definition role_name (r : Role) : string := match r with user => "user" | assistant => "assistant" end.

Definition fromContentBlock (b : ModelMessageContentBlock) : json :=
  match b with
  | block_text text => JObj [("type", JStr "text"); ("text", JStr text)]
  | block_tool_use call =>
      JObj [("type", JStr "tool_use");
            ("toolCall", JObj [("id", JStr (mtc_id call)); ("name", JStr (mtc_name call)); ("input", mtc_input call)])]
  | block_tool_result toolCallId output isError =>
      JObj ([("type", JStr "tool_result"); ("toolCallId", JStr toolCallId); ("output", output)] ++ field "isError" JBool isError)
  end.

Definition fromModelMessage (message : ModelMessage) : json :=
  JObj [("role", JStr (role_name (mm_role message)));
        ("content", match mm_content message with
                    | content_string s => JStr s
                    | content_blocks l => JArr (map fromContentBlock l)
                    end)].

Definition fromModelMessages (messages : list ModelMessage) : json := JArr (map fromModelMessage messages).

(** ** Sockets *)

(** What the server sends through a socket. *)
Inductive Sent :=
| chat_response (result : AgentTurnResult)
| chat_error (message : string)
| pending_approval_new (requestId toolName : string) (level : HitlLevel)
| bridge_new_message (id : string)
| kill_switch_activated
| budget_alert (ratio threshold : Qc).

(** [so_sent] are the messages sent while it was connected: the others are dropped. *)
Record Socket := { so_handshake : Handshake; so_connected : bool; so_sent : list Sent }.

Record GateWorld := {
  gw_world : World;
  gw_sockets : gmap nat Socket;
  gw_finished : list ChatTurnFinishedEvent      (* CHAT_TURN_FINISHED_EVENT, in order *)
}.

Definition gw_put (w : World) (v : GateWorld) : GateWorld :=
  {| gw_world := w; gw_sockets := gw_sockets v; gw_finished := gw_finished v |}.
Definition put_sockets (m : gmap nat Socket) (v : GateWorld) : GateWorld :=
  {| gw_world := gw_world v; gw_sockets := m; gw_finished := gw_finished v |}.
Definition put_finished (l : list ChatTurnFinishedEvent) (v : GateWorld) : GateWorld :=
  {| gw_world := gw_world v; gw_sockets := gw_sockets v; gw_finished := l |}.

Abbreviation gate := (prog GateWorld JinError).

Definition gate_services {A} (p : jin A) : gate A := zoom gw_world gw_put p.

(** [client.disconnect(true)] *)
Definition disconnected (s : Socket) : Socket :=
  {| so_handshake := so_handshake s; so_connected := false; so_sent := so_sent s |}.

(** [client.emit(...)] *)
Definition sent_to (m : Sent) (s : Socket) : Socket :=
  {| so_handshake := so_handshake s; so_connected := so_connected s;
     so_sent := if so_connected s then so_sent s ++ [m] else so_sent s |}.

Definition update_socket (client : nat) (f : Socket -> Socket) (v : GateWorld) : GateWorld :=
  put_sockets (alter f client (gw_sockets v)) v.

Definition is_connected (client : nat) (v : GateWorld) : bool :=
  match gw_sockets v !! client with Some s => so_connected s | None => false end.

Definition emit_to (client : nat) (m : Sent) : gate unit := writes (update_socket client (sent_to m)).
Definition disconnect (client : nat) : gate unit := writes (update_socket client disconnected).

(** [handleConnection] of the three gateways. *)
Definition handleConnection {Cred : Credentials} (client : nat) : gate unit :=
  handshake <- reads (fun v : GateWorld => option_map so_handshake (gw_sockets v !! client)) ;;
  match handshake with
  | None => Ret tt
  | Some h =>
      match extractWsToken h with
      | inl err => Throw err
      | inr token =>
          match present token with
          | None => disconnect client
          | Some token =>
              t <- gate_services now ;;
              if jwt_verify t token then Ret tt else disconnect client
          end
      end
  end.

(** ** chat.gateway.ts *)

Definition CHAT_ACTOR_LABEL : string := "web-chat".

Module ChatGateway.
Section Gateway.
Context `{TurnApi : AgentApi}.

(** What a turn is asked with; the progress that goes to the socket is not recorded. *)
Definition turn_input (body : ChatBody) : AgentTurnInput :=
  {| ati_sessionId := cb_sessionId body; ati_objective := cb_objective body;
     ati_history := toModelMessages (cb_history body); ati_allowedTools := None;
     ati_actorLabel := Some CHAT_ACTOR_LABEL; ati_onProgress := Some (fun _ w => w) |}.

(** [notifyIfGone] *)
Definition notifyIfGone (client : nat) (body : ChatBody) (ok : bool) (v : GateWorld) : GateWorld :=
  if negb (default false (cb_notifyWhenDone body)) || is_connected client v then v
  else put_finished (gw_finished v ++ [{| ctf_sessionId := cb_sessionId body; ctf_objective := cb_objective body; ctf_ok := ok |}]) v.

(** The end of a turn: the answer, and the notice if nobody listens. *)
Definition finish_turn (client : nat) (body : ChatBody) (m : Sent) (ok : bool) : gate unit :=
  writes (fun v => notifyIfGone client body ok (update_socket client (sent_to m) v)).

Definition handleMessage (payload : json) (client : nat) : gate unit :=
  match ChatBodySchema payload with
  | None => emit_to client (chat_error "Payload inválido.")
  | Some body =>
      try_with (gate_services (agent_runTurn (turn_input body)))
        (fun result => finish_turn client body (chat_response result) true)
        (fun err => finish_turn client body (chat_error (messageOf err)) false)
  end.
End Gateway.
End ChatGateway.

(** ** chat.controller.ts *)

Module ChatController.
Definition chat `{TurnApi : AgentApi} (body : json) : jin (option AgentTurnResult) :=
  match ChatBodySchema body with
  | None => Ret None
  | Some b =>
      result <- agent_runTurn {| ati_sessionId := cb_sessionId b; ati_objective := cb_objective b;
                                 ati_history := toModelMessages (cb_history b); ati_allowedTools := None;
                                 ati_actorLabel := Some CHAT_ACTOR_LABEL; ati_onProgress := None |} ;;
      Ret (Some result)
  end.
End ChatController.

(** ** realtime.gateway.ts *)

(** [this.server.emit(...)] reaches every socket that is connected. *)
Definition server_emit (m : Sent) : gate unit := writes (fun v => put_sockets (sent_to m <$> gw_sockets v) v).

Module RealtimeGateway.
Definition on_event (event : DomainEvent) : gate unit :=
  match event with
  | PENDING_APPROVAL_CREATED_EVENT requestId toolName level => server_emit (pending_approval_new requestId toolName level)
  | KILL_SWITCH_ACTIVATED_EVENT _ _ => server_emit kill_switch_activated
  | BUDGET_THRESHOLD_CROSSED_EVENT ratio threshold => server_emit (budget_alert ratio threshold)
  | _ => Ret tt
  end.

Definition handleRelayMessageCreated (id : string) : gate unit := server_emit (bridge_new_message id).
End RealtimeGateway.

(** ** A valid token keeps the socket, and so does a cookie that cannot be read *)

(** A pair of the cookie header: a name up to the first equals sign, and a value. *)
Definition is_pair (p key value : string) : Prop :=
  p = key +:+ "=" +:+ value /\ "="%char ∉ String.list_ascii_of_string key.

(** No token in [auth]. *)
Definition no_auth_token (h : Handshake) : Prop := hk_auth_token h = None \/ hk_auth_token h = Some "".

(** The header has a pair whose value [decodeURIComponent] refuses. *)
Definition has_unreadable_pair (h : Handshake) : Prop :=
  no_auth_token h /\
  exists header p key value, hk_cookie h = Some header /\ header <> "" /\ p ∈ split_on ";" header /\
    is_pair p key value /\ decodeURIComponent (trimmed value) = None.

(** What the header says of a cookie: the decoded value of its last pair with that name,
    both without the white space around them. *)
Definition cookie_value (header name v : string) : Prop :=
  exists before p key value after, split_on ";" header = before ++ p :: after /\
    is_pair p key value /\ trimmed key = name /\ decodeURIComponent (trimmed value) = Some v /\
    forall q k x, q ∈ after -> is_pair q k x -> trimmed k <> name.

(** The token of a handshake: that of [auth], or else that of the session cookie, or else
    that of the authorization header. *)
Inductive shows (h : Handshake) (token : string) : Prop :=
| shows_auth : hk_auth_token h = Some token -> shows h token
| shows_cookie header :
    no_auth_token h -> hk_cookie h = Some header ->
    cookie_value header "__Host-jin_session" token -> shows h token
| shows_bearer :
    no_auth_token h ->
    (forall header v, hk_cookie h = Some header -> cookie_value header "__Host-jin_session" v -> v = "") ->
    hk_authorization h = Some ("Bearer " +:+ token) -> shows h token.

Definition shows_valid_token {Cred : Credentials} (t : Z) (h : Handshake) : Prop :=
  exists token, shows h token /\ token <> "" /\ jwt_verify t token = true.

Lemma cut_at_pair p key value : cut_at "=" p = Some (key, value) <-> is_pair p key value.
Proof.
  unfold is_pair. revert key. induction p as [|c p IH]; intros key; cbn.
  - split; [done|]. intros [H _]. by destruct key.
  - destruct (Ascii.eqb_spec c "=") as [->|Hc].
    + split; [intros [= <- <-]; split; [done|apply not_elem_of_nil]|].
      intros [H Hn]. destruct key as [|d key]; cbn in H; [by injection H as ->|].
      injection H as Hd _. exfalso. apply Hn. rewrite <- Hd. by left.
    + destruct (cut_at "=" p) as [[a b]|] eqn:E; cbn.
      * split.
        -- intros [= <- <-]. destruct (proj1 (IH a) eq_refl) as [-> Hn]. split; [done|].
           cbn. intros [H|H]%elem_of_cons; [by rewrite <- H in Hc|done].
        -- intros [H Hn]. destruct key as [|d key]; cbn in H; [by injection H as -> _|].
           injection H as -> H. cbn in Hn. apply not_elem_of_cons in Hn as [_ Hn].
           by injection (proj2 (IH key) (conj H Hn)) as -> ->.
      * split; [done|]. intros [H Hn]. destruct key as [|d key]; cbn in H; [by injection H as -> _|].
        injection H as -> H. cbn in Hn. apply not_elem_of_cons in Hn as [_ Hn].
        discriminate (proj2 (IH key) (conj H Hn)).
Qed.

Lemma parse_pairs_throws pairs : forall cookies e, parse_pairs pairs cookies = inl e ->
  e = URIError /\ exists p key value, p ∈ pairs /\ is_pair p key value /\ decodeURIComponent (trimmed value) = None.
Proof.
  induction pairs as [|p pairs IH]; intros cookies e H; cbn in H; [done|].
  destruct (cut_at "=" p) as [[key value]|] eqn:Ep; [destruct (decodeURIComponent (trimmed value)) eqn:Ed|].
  - apply IH in H as (He & q & k & x & Hq & Hr). split; [done|]. exists q, k, x. split; [by right|done].
  - injection H as <-. split; [done|]. exists p, key, value. split; [by left|]. by rewrite <- cut_at_pair.
  - apply IH in H as (He & q & k & x & Hq & Hr). split; [done|]. exists q, k, x. split; [by right|done].
Qed.

Lemma parse_pairs_unreadable pairs p key value : forall cookies,
  p ∈ pairs -> is_pair p key value -> decodeURIComponent (trimmed value) = None ->
  parse_pairs pairs cookies = inl URIError.
Proof.
  induction pairs as [|q pairs IH]; intros cookies Hp Ep Ed; [by apply elem_of_nil in Hp|].
  pose proof (proj2 (cut_at_pair _ _ _) Ep) as Ec.
  apply elem_of_cons in Hp as [->|Hp]; cbn; [by rewrite Ec, Ed|].
  destruct (cut_at "=" q) as [[k x]|]; [destruct (decodeURIComponent (trimmed x))|]; auto.
Qed.

Lemma truthy_spec s : truthy s = true <-> s <> "".
Proof. by destruct s. Qed.

Lemma present_none h : present (hk_auth_token h) = None <-> no_auth_token h.
Proof.
  unfold no_auth_token, present. destruct (hk_auth_token h) as [[|c s]|]; cbn; (split; [|intros [H|H]]; congruence || auto).
Qed.

Lemma extractWsToken_throws h e : extractWsToken h = inl e <-> e = URIError /\ has_unreadable_pair h.
Proof.
  unfold extractWsToken, has_unreadable_pair, parseCookies. rewrite <- present_none. split.
  - destruct (present (hk_auth_token h)); [done|]. intros H.
    destruct (hk_cookie h) as [header|]; [|by destruct (present _)].
    destruct (truthy header) eqn:Et; [|by destruct (present _)]. apply truthy_spec in Et.
    destruct (parse_pairs _ _) as [e'|cookies] eqn:Ep; [|by destruct (present _)]. injection H as <-.
    apply parse_pairs_throws in Ep as (-> & p & key & value & Hp & Hc & Hd). split; [done|]. split; [done|].
    by exists header, p, key, value.
  - intros (-> & -> & header & p & key & value & -> & Ht & Hp & Hc & Hd). apply truthy_spec in Ht as ->.
    by rewrite (parse_pairs_unreadable _ p key value).
Qed.

Lemma extractWsToken_unreadable h : extractWsToken h = inl URIError <-> has_unreadable_pair h.
Proof. rewrite extractWsToken_throws. split; [by intros [_ H]|done]. Qed.

(** The object of the cookies has what the header says. *)
Definition last_pair (name : string) (pairs : list string) (v : string) : Prop :=
  exists before p key value after, pairs = before ++ p :: after /\
    is_pair p key value /\ trimmed key = name /\ decodeURIComponent (trimmed value) = Some v /\
    forall q k x, q ∈ after -> is_pair q k x -> trimmed k <> name.

Lemma parse_pairs_value name pairs : forall acc cookies v, parse_pairs pairs acc = inr cookies ->
  cookie name cookies = Some v <->
  last_pair name pairs v \/
  (forall q k x, q ∈ pairs -> is_pair q k x -> trimmed k <> name) /\ cookie name acc = Some v.
Proof.
  induction pairs as [|p pairs IH]; intros acc cookies v H; cbn in H.
  { injection H as <-. split; [intros Hc; right; split; [by intros q k x Hq%elem_of_nil|done]|].
    intros [(b & p & k & x & a & Hb & _)|[_ Hc]]; [by destruct b|done]. }
  assert (Hmore : forall w, last_pair name pairs w -> last_pair name (p :: pairs) w).
  { intros w (b & q & k & x & a & -> & Hr). by exists (p :: b), q, k, x, a. }
  assert (Hless : forall w, last_pair name (p :: pairs) w -> last_pair name pairs w \/
    (exists k x, is_pair p k x /\ trimmed k = name /\ decodeURIComponent (trimmed x) = Some w) /\
    forall q k x, q ∈ pairs -> is_pair q k x -> trimmed k <> name).
  { intros w ([|b0 b] & q & k & x & a & Hb & Hp & Hk & Hd & Hn); injection Hb as -> ->; [right|left].
    - split; [by exists k, x|exact Hn].
    - by exists b, q, k, x, a. }
  destruct (cut_at "=" p) as [[key value]|] eqn:Ep.
  - pose proof (proj1 (cut_at_pair _ _ _) Ep) as Hp.
    destruct (decodeURIComponent (trimmed value)) as [d|] eqn:Ed; [|done].
    rewrite (IH _ _ v H). unfold cookie at 1. cbn. split.
    + intros [Hl|[Hn Hc]]; [left; auto|]. destruct (String.eqb_spec (trimmed key) name) as [Hk|Hk]; cbn in Hc.
      * injection Hc as <-. left. by exists [], p, key, value, pairs.
      * right. split; [|exact Hc]. intros q k x [->|Hq]%elem_of_cons Hq2; [|by eapply Hn].
        apply cut_at_pair in Hq2. by rewrite Ep in Hq2; injection Hq2 as <- <-.
    + intros [Hl|[Hn Hc]].
      * destruct (Hless _ Hl) as [Hl'|[(k & x & Hp' & Hk & Hd) Hn]]; [by left|]. right. split; [exact Hn|].
        apply cut_at_pair in Hp'. rewrite Ep in Hp'. injection Hp' as <- <-. rewrite Ed in Hd. injection Hd as ->.
        by rewrite (proj2 (String.eqb_eq _ _) Hk).
      * right. split; [intros q k x Hq; apply Hn; by right|].
        destruct (String.eqb_spec (trimmed key) name) as [Hk|_]; [|exact Hc].
        exfalso. by apply (Hn p key value ltac:(by left)).
  - rewrite (IH _ _ v H). split.
    + intros [Hl|[Hn Hc]]; [left; auto|right]. split; [|done]. intros q k x [->|Hq]%elem_of_cons Hq2; [|by eapply Hn].
      apply cut_at_pair in Hq2. by rewrite Ep in Hq2.
    + intros [Hl|[Hn Hc]]; [|right; split; [intros q k x Hq; apply Hn; by right|done]].
      destruct (Hless _ Hl) as [Hl'|[(k & x & Hp' & _) _]]; [by left|]. apply cut_at_pair in Hp'. by rewrite Ep in Hp'.
Qed.

Lemma split_empty : split_on ";" "" = [""].
Proof. done. Qed.

Lemma parseCookies_value header cookies v :
  parseCookies (Some header) = inr cookies ->
  cookie SESSION_COOKIE_NAME cookies = Some v <-> cookie_value header "__Host-jin_session" v.
Proof.
  unfold parseCookies. destruct (truthy header) eqn:Et.
  - intros H. rewrite (parse_pairs_value _ _ _ _ v H). split; [by intros [Hl|[_ Hc]]|by left].
  - assert (header = "") as -> by (by destruct header).
    intros [= <-]. split; [done|]. intros (b & p & k & x & a & Hb & [Hp _] & _).
    rewrite split_empty in Hb. destruct b as [|? []]; injection Hb as Hb; [|done..]. subst p. by destruct k.
Qed.

Lemma after_prefix_spec p s r : after_prefix p s = Some r <-> s = p +:+ r.
Proof.
  revert s. induction p as [|a p IH]; intros s; cbn; [split; [by intros [= ->]|by intros ->]|].
  destruct s as [|b s]; [done|]. destruct (Ascii.eqb_spec a b) as [->|Hn].
  - rewrite IH. split; [by intros ->|by intros [= ->]].
  - split; [done|]. by intros [= -> _].
Qed.

(** What [extractWsToken] returns, if it does, is the token that the handshake shows. *)
Lemma extractWsToken_shows h o token :
  extractWsToken h = inr o -> token <> "" -> o = Some token <-> shows h token.
Proof.
  unfold extractWsToken. intros He Hne.
  destruct (present (hk_auth_token h)) as [a|] eqn:Ea.
  { injection He as <-. unfold present in Ea. destruct (hk_auth_token h) as [a'|] eqn:Eh; cbn in Ea; [|done].
    destruct (truthy a') eqn:Et; [|done]. injection Ea as ->. apply truthy_spec in Et.
    split; [intros [= ->]; by apply shows_auth|].
    intros [H|header [H|H] _ _|[H|H] _ _]; rewrite Eh in H; congruence. }
  apply present_none in Ea.
  destruct (parseCookies (hk_cookie h)) as [e|cookies] eqn:Ep; [done|].
  assert (Hcv : forall header v, hk_cookie h = Some header ->
    cookie SESSION_COOKIE_NAME cookies = Some v <-> cookie_value header "__Host-jin_session" v).
  { intros header v Hh. rewrite Hh in Ep. by apply parseCookies_value. }
  assert (Hnone : hk_cookie h = None -> cookie SESSION_COOKIE_NAME cookies = None).
  { intros Hh. rewrite Hh in Ep. by injection Ep as <-. }
  assert (Hauth : hk_auth_token h <> Some token) by (destruct Ea as [-> | ->]; congruence).
  destruct (present (cookie SESSION_COOKIE_NAME cookies)) as [c|] eqn:Ec.
  - injection He as <-. unfold present in Ec. destruct (cookie SESSION_COOKIE_NAME cookies) as [c'|] eqn:Ek; cbn in Ec; [|done].
    destruct (truthy c') eqn:Et; [|done]. injection Ec as ->. apply truthy_spec in Et.
    destruct (hk_cookie h) as [header|] eqn:Eh; [|discriminate (Hnone eq_refl)].
    specialize (Hcv header). split.
    + intros [= ->]. eapply shows_cookie; [done|exact Eh|]. by apply Hcv.
    + intros [H|header' _ H Hv|_ H _]; [done| |].
      * rewrite Eh in H. injection H as <-. apply Hcv in Hv; [|done]. congruence.
      * exfalso. apply Et, (H header); [done|]. by apply Hcv.
  - injection He as <-. unfold bearer.
    assert (Hempty : forall header v, hk_cookie h = Some header -> cookie_value header "__Host-jin_session" v -> v = "").
    { intros header v Hh Hv. apply (Hcv header v Hh) in Hv. rewrite Hv in Ec. cbn in Ec.
      by destruct v. }
    split.
    + intros H. destruct (hk_authorization h) as [a|] eqn:Eh; [|done].
      change (after_prefix "Bearer " a = Some token) in H. apply after_prefix_spec in H as ->. by apply shows_bearer.
    + intros [H|header _ H Hv|_ _ ->]; [done| |by apply (after_prefix_spec "Bearer ")].
      by apply (Hempty header token H) in Hv.
Qed.

Lemma connected_after_disconnect client v : is_connected client (update_socket client disconnected v) = false.
Proof.
  unfold is_connected, update_socket. cbn. rewrite lookup_alter. by destruct (decide _), (gw_sockets v !! client).
Qed.

(** C38. Of the sockets that connect, [handleConnection] leaves open those that show a token
    the server signed and that has not expired, and closes every other one but those whose
    cookie header has a value that cannot be decoded: for these it throws before the
    [try], and the socket stays open without any token.  The token is that of [auth], or
    else the value of the last cookie named [__Host-jin_session], or else what follows
    [Bearer] in the authorization header. *)
Theorem the_handshake_decides {Cred : Credentials} (client : nat) (s : Socket) (v v' : GateWorld) r
  (Hs : gw_sockets v !! client = Some s) (Hc : so_connected s = true)
  (Hrun : run (handleConnection client) v = (v', r)) :
  (is_connected client v' = true <->
     shows_valid_token (clock (w_sys (gw_world v))) (so_handshake s) \/ has_unreadable_pair (so_handshake s)) /\
  (forall other, other <> client -> gw_sockets v' !! other = gw_sockets v !! other) /\
  (has_unreadable_pair (so_handshake s) <-> r = inl URIError).
Proof.
  assert (Hopen : is_connected client v = true) by (unfold is_connected; by rewrite Hs).
  assert (Hshut : forall other, other <> client ->
    gw_sockets (update_socket client disconnected v) !! other = gw_sockets v !! other).
  { intros other Ho. cbn. by apply lookup_alter_ne. }
  rewrite <- (extractWsToken_unreadable (so_handshake s)).
  unfold handleConnection in Hrun. rewrite run_bind, run_reads, Hs in Hrun. cbn [option_map] in Hrun.
  destruct (extractWsToken (so_handshake s)) as [e|o] eqn:Ex.
  { cbn in Hrun. injection Hrun as <- <-. destruct (proj1 (extractWsToken_throws _ _) Ex) as [-> _].
    rewrite Hopen. split; [by split; [right|]|done]. }
  split; [|split; [|split; [by intros H|intros ->]]].
  - assert (Hshown : forall token, token <> "" -> shows (so_handshake s) token -> present o = Some token).
    { intros token Hne Hsh. apply (extractWsToken_shows _ o) in Hsh as ->; [|done..]. cbn. by apply truthy_spec in Hne as ->. }
    destruct (present o) as [token|] eqn:Eo.
    + assert (Ho : token <> "" /\ o = Some token).
      { destruct o as [x|]; [|done]. cbn in Eo. destruct (truthy x) eqn:Et; [|done]. injection Eo as ->. by apply truthy_spec in Et. }
      destruct Ho as [Hne Ho]. cbn in Hrun. destruct (jwt_verify _ token) eqn:Ev; cbn in Hrun; injection Hrun as <- _.
      * split; [intros _; left|intros _; unfold is_connected in *; by destruct v].
        exists token. split; [by apply (extractWsToken_shows _ o)|done].
      * rewrite connected_after_disconnect. split; [done|]. intros [(x & Hx & Hn & Hv)|H]; [|done].
        apply (Hshown x Hn) in Hx as [= ->]. congruence.
    + injection Hrun as <- _. rewrite connected_after_disconnect. split; [done|].
      intros [(x & Hx & Hn & _)|H]; [|done]. by apply (Hshown x Hn) in Hx.
  - intros other Hne. destruct (present o) as [token|]; [cbn in Hrun; destruct (jwt_verify _ token); cbn in Hrun|];
      injection Hrun as <- _; destruct v; by auto.
  - destruct (present o) as [token|]; [cbn in Hrun; destruct (jwt_verify _ token); cbn in Hrun|]; done.
Qed.

(** ** The session does not end at logout

    The cookie that would delete that of the session is one that browsers ignore, and the
    server keeps no list of the tokens it no longer accepts. *)
Lemma logout_leaves_the_session {Cred : Credentials} {Browse : Browser} hash password cookies w w' token c path
  (Hlogin : run (Auth.login_endpoint hash password) w = (w', inr (token, c))) (Htoken : truthy token = true) :
  let kept := keep_cookie (keep_cookie cookies c) Auth.logout in
  forall later, jwt_verify (clock (w_sys later)) token = true ->
  run (canActivate {| hc_isPublic := false; hc_path := path; hc_cookies := kept; hc_authorization := None |}) later = (later, inr true).
Proof.
  intros kept later Hv. unfold kept. rewrite ignores_host_prefix by done.
  assert (Hc : cookie SESSION_COOKIE_NAME (keep_cookie cookies c) = Some token).
  { unfold Auth.login_endpoint, Auth.login in Hlogin. destruct (default false _); [|done].
    cbn in Hlogin. injection Hlogin as _ <- <-. match goal with |- context [keep_cookie cookies ?c] => exact (keeps_secure cookies c eq_refl eq_refl eq_refl) end. }
  unfold canActivate, extractToken. cbn [hc_isPublic hc_path hc_cookies hc_authorization]. rewrite Hc. cbn. rewrite Htoken. cbn. rewrite Htoken.
  destruct (_ || _); cbn; [done|]. by rewrite Hv.
Qed.

(** ** The history comes back as it was sent *)

Lemma parse_fromContentBlock b : ModelMessageContentBlockSchema (fromContentBlock b) = Some b.
Proof. destruct b as [text|[id name input]|toolCallId output [[|]|]]; reflexivity. Qed.

Lemma parse_fromModelMessage m : ModelMessageSchema (fromModelMessage m) = Some m.
Proof.
  destruct m as [[|] [s|l]]; try reflexivity; unfold ModelMessageSchema, fromModelMessage; cbn.
  all: by rewrite (mapM_fmap_Some _ fromContentBlock l parse_fromContentBlock : mapM _ (map _ _) = _).
Qed.

(** The history that an answer carries, sent with the next message, is read as the
    history it was: no call of a tool, result, error mark or text is lost on the way. *)
Lemma the_history_comes_back (history : list ModelMessage) :
  as_messages (fromModelMessages history) = Some history.
Proof. exact (mapM_fmap_Some _ fromModelMessage history parse_fromModelMessage). Qed.

(** ** A turn is told or announced *)

(** What the end of a turn sends, and whether it went well. *)
Definition told (outcome : JinError + AgentTurnResult) : Sent * bool :=
  match outcome with
  | inr result => (chat_response result, true)
  | inl err => (chat_error (messageOf err), false)
  end.

(** The turn runs as it would alone.  A socket that is open gets the answer or the error and
    nothing is announced; one that is closed gets nothing, and the end of the turn is
    announced when the app asked for it.  The handler itself never throws. *)
Lemma a_turn_is_told_or_announced `{TurnApi : AgentApi} payload body client s (v : GateWorld)
  (Hbody : ChatBodySchema payload = Some body) (Hs : gw_sockets v !! client = Some s) :
  let turn := run (agent_runTurn (ChatGateway.turn_input body)) (gw_world v) in
  let v' := (run (ChatGateway.handleMessage payload client) v).1 in
  (run (ChatGateway.handleMessage payload client) v).2 = inr tt /\ gw_world v' = turn.1 /\
  gw_sockets v' = <[client := sent_to (told turn.2).1 s]> (gw_sockets v) /\
  gw_finished v' = gw_finished v ++
    (if default false (cb_notifyWhenDone body) && negb (so_connected s)
     then [{| ctf_sessionId := cb_sessionId body; ctf_objective := cb_objective body; ctf_ok := (told turn.2).2 |}] else []).
Proof.
  intros turn v'. unfold v', ChatGateway.handleMessage. rewrite Hbody, run_try_with.
  unfold gate_services. rewrite !(run_zoom gw_world gw_put) by first [done | by intros []]. fold turn.
  assert (Hend : forall m ok w, run (ChatGateway.finish_turn client body m ok) (gw_put w v) =
    ({| gw_world := w; gw_sockets := <[client := sent_to m s]> (gw_sockets v);
        gw_finished := gw_finished v ++
          (if default false (cb_notifyWhenDone body) && negb (so_connected s)
           then [{| ctf_sessionId := cb_sessionId body; ctf_objective := cb_objective body; ctf_ok := ok |}] else []) |}, inr tt)).
  { intros m ok w. unfold ChatGateway.finish_turn. rewrite run_writes. f_equal. unfold ChatGateway.notifyIfGone, is_connected, update_socket.
    cbn. rewrite lookup_alter_eq, Hs. cbn.
    replace (alter (sent_to m) client (gw_sockets v)) with (<[client := sent_to m s]> (gw_sockets v)).
    - destruct (default false _), (so_connected s); cbn; unfold put_finished, put_sockets, gw_put; cbn; by rewrite ?app_nil_r.
    - apply map_eq. intros i. destruct (decide (i = client)) as [->|Hi].
      + by rewrite lookup_insert_eq, lookup_alter_eq, Hs.
      + by rewrite lookup_insert_ne, lookup_alter_ne. }
  destruct turn as [w [err|result]] eqn:Et; cbn -[ChatGateway.finish_turn]; by rewrite Hend.
Qed.

(** ** A visitor without a token *)

Module GatewayExamples.
#[local] Instance credentials : Credentials := {|
  jwt_sign t sub expiresIn := "token"; jwt_verify t token := String.eqb token "token";
  argon2_verify hash password := Some (String.eqb hash password) |}.

(** An agent that answers without doing anything. *)
#[local] Instance agent : AgentApi := {| agent_runTurn input := Ret {|
  atr_finalResponse := ati_objective input; atr_plan := {| steps_of := [] |}; atr_pendingApprovals := []; atr_iterationsUsed := 1; atr_modelsUsed := [];
  atr_compactedHistory := None |} |}.

Definition visitor (cookie : string) : Socket :=
  {| so_handshake := {| hk_auth_token := None; hk_cookie := Some cookie; hk_authorization := None |};
     so_connected := true; so_sent := [] |}.
Definition lobby (s : Socket) : GateWorld := {| gw_world := empty_world 1000; gw_sockets := {[ 0%nat := s ]}; gw_finished := [] |}.
Definition hello : json := JObj [("sessionId", JStr "s"); ("objective", JStr "hello"); ("notifyWhenDone", JBool true)].
Definition answers (s : option Socket) : list string :=
  default [] ((fun s => omap (fun m => match m with chat_response r => Some (atr_finalResponse r) | _ => None end) (so_sent s)) <$> s).

Example cookies_are_decoded :
  decodeURIComponent "caf%C3%A9%20a" = Some ("caf" +:+ String "195" (String "169" " a")) /\ decodeURIComponent "%" = None /\
  decodeURIComponent "%C3" = None /\ decodeURIComponent "%C0%80" = None.
Proof. vm_compute. done. Qed.

Example the_owner_is_heard :
  let v := (run (handleConnection 0 ;;; ChatGateway.handleMessage hello 0) (lobby (visitor "__Host-jin_session=token"))).1 in
  answers (gw_sockets v !! 0%nat) = ["hello"].
Proof. vm_compute. reflexivity. Qed.

(** Without a cookie the socket is closed; with one that cannot be decoded it is served. *)
Example a_stranger_is_heard :
  is_connected 0 (run (handleConnection 0) (lobby (visitor "a=b"))).1 = false /\
  answers (gw_sockets (run (ChatGateway.handleMessage hello 0) (run (handleConnection 0) (lobby (visitor "a=%"))).1).1 !! 0%nat) = ["hello"].
Proof. vm_compute. done. Qed.

(** A message that arrives while the token is being checked starts a turn, and is answered
    if the check ends after it. *)
Example a_message_before_the_check :
  let v := c_store (Effects.interleave [1; 1; 0; 1]%nat (lobby (visitor "__Host-jin_session=stolen"))
    [ChatGateway.handleMessage hello 0; handleConnection 0]) in
  is_connected 0 v = false /\ answers (gw_sockets v !! 0%nat) = ["hello"].
Proof. vm_compute. by split. Qed.

(** A turn that ends after its socket closed is announced. *)
Example a_turn_nobody_waits_for :
  map ctf_objective (gw_finished (run (disconnect 0 ;;; ChatGateway.handleMessage hello 0) (lobby (visitor ""))).1) = ["hello"].
Proof. vm_compute. reflexivity. Qed.
End GatewayExamples.

(** ** The theorems at a concrete input *)

Lemma the_handshake_decides_witness :
  let after (cookie : string) := (run (@handleConnection GatewayExamples.credentials 0)
    (GatewayExamples.lobby (GatewayExamples.visitor cookie))).1 in
  is_connected 0 (after "a=%") = true /\ is_connected 0 (after "a=1; __Host-jin_session=token") = true.
Proof.
  intros after. split.
  - destruct (@the_handshake_decides GatewayExamples.credentials 0 (GatewayExamples.visitor "a=%")
      (GatewayExamples.lobby (GatewayExamples.visitor "a=%")) _ _ eq_refl eq_refl (surjective_pairing _)) as ([_ H] & _ & _).
    apply H. right. split; [by left|]. exists "a=%", "a=%", "a", "%". split; [done|]. split; [done|]. split; [by left|].
    split; [by apply cut_at_pair|done].
  - set (header := "a=1; __Host-jin_session=token").
    destruct (@the_handshake_decides GatewayExamples.credentials 0 (GatewayExamples.visitor header)
      (GatewayExamples.lobby (GatewayExamples.visitor header)) _ _ eq_refl eq_refl (surjective_pairing _)) as ([_ H] & _ & _).
    apply H. left. exists "token". split; [|done]. apply (shows_cookie _ _ header); [by left|done|].
    exists ["a=1"], " __Host-jin_session=token", " __Host-jin_session", "token", [].
    split; [done|]. split; [by apply cut_at_pair|]. split; [by vm_compute|]. split; [by vm_compute|].
    by intros q k x Hq%elem_of_nil.
Defined.
