(* ===== verification/TerminalGateway.v ===== *)
(** * TerminalGateway: the terminal on the owner's phone

    [src/terminal/terminal.gateway.ts]: the socket of the app, the sessions of
    [TerminalPty.v] behind it, and the events that go from one to the other.  A listener is a
    closure of a call of [open]; it runs within the action of the service that calls it.
    Each call of a service is an action of its own, so that a method is cut in more places
    than the code is. *)
From S2P Require Import Prelude Effects Js Text PtyGate Registry Store AuditApi AuditLog Models Frame TerminalClient TerminalPty TerminalSafety TerminalKeys ErrorFilter PushService Previews Gateways.
From Stdlib Require Import Ascii String.
Local Open Scope stdpp_scope.
Local Open Scope Z_scope.
Local Open Scope jin_scope.

(** ** Payloads *)

Definition in_range (lo hi n : Z) : bool := (lo <=? n) && (n <=? hi).

(** [z.number().int().min(lo).max(hi)]; the numbers of the model are whole. *)
Definition int_in (lo hi : Z) (key : string) (v : json) : option Z :=
  n ← json_field key v ≫= as_number; if in_range lo hi n then Some n else None.

Definition SizeSchema (v : json) : option PtySize :=
  cols ← int_in 20 300 "cols" v; rows ← int_in 5 100 "rows" v; Some (Build_PtySize cols rows).

Definition minutes_ok (n : Z) : bool := in_range (PTY_KEEPALIVE_MIN_MS / 60000) (PTY_KEEPALIVE_MAX_MS / 60000) n.
Definition KeepAliveMinutes (v : json) : option Z := n ← as_number v; if minutes_ok n then Some n else None.
Definition KeepAliveSchema (v : json) : option Z := json_field "keepAliveMinutes" v ≫= KeepAliveMinutes.

Record OpenBody := { ob_workspaceId : string; ob_size : PtySize; ob_keepAliveMinutes : option Z }.

(** [/^[A-Za-z0-9+/]+={0,2}$/] *)
Definition is_base64_char (c : ascii) : bool :=
  let n := Z.of_nat (nat_of_ascii c) in
  in_range 65 90 n || in_range 97 122 n || in_range 48 57 n || Ascii.eqb c "+" || Ascii.eqb c "/".
Fixpoint equals_signs (most : nat) (s : string) : bool :=
  match s, most with
  | EmptyString, _ => true
  | String c s', S most' => Ascii.eqb c "=" && equals_signs most' s'
  | _, O => false
  end.
Fixpoint base64_from (s : string) : bool :=
  match s with
  | String c s' => if is_base64_char c then base64_from s' else equals_signs 2 s
  | EmptyString => true
  end.
Definition is_base64 (s : string) : bool :=
  match s with String c s' => is_base64_char c && base64_from s' | EmptyString => false end.

Definition InputSchema (v : json) : option string :=
  data ← nonempty_string "data" v;
  if (js_length data <=? 88 * 1024) && is_base64 data then Some data else None.

(** ** The sockets *)

Inductive PtySent :=
| pty_opened (ptyId : string) (resumed : bool)
| pty_output (data : string)
| pty_exit (code : Z)
| pty_notice (message : string)
| pty_error (message : string).

(** A socket, with the fields of [client.data]. *)
Record PtySocket := {
  px_handshake : Handshake;
  px_connected : bool;
  px_ptyId : option string;
  px_listener : option nat;
  px_sent : list PtySent
}.

(** The variables of a call of [open] that its listener holds. *)
Record Opening := { op_client : nat; op_ready : bool; op_queued : list PtyEvent }.

Record TerminalGate := {
  tg_pty : PtyWorld;
  tg_sockets : gmap nat PtySocket;
  tg_openings : list Opening
}.

Abbreviation tgate := (prog TerminalGate JinError).

Definition with_pty (v : PtyWorld) (g : TerminalGate) : TerminalGate :=
  {| tg_pty := v; tg_sockets := tg_sockets g; tg_openings := tg_openings g |}.
Definition upd_px (client : nat) (f : PtySocket -> PtySocket) (g : TerminalGate) : TerminalGate :=
  {| tg_pty := tg_pty g; tg_sockets := alter f client (tg_sockets g); tg_openings := tg_openings g |}.
Definition upd_openings (f : list Opening -> list Opening) (g : TerminalGate) : TerminalGate :=
  {| tg_pty := tg_pty g; tg_sockets := tg_sockets g; tg_openings := f (tg_openings g) |}.

Definition set_px_connected (b : bool) (x : PtySocket) : PtySocket :=
  {| px_handshake := px_handshake x; px_connected := b; px_ptyId := px_ptyId x; px_listener := px_listener x; px_sent := px_sent x |}.
Definition set_px_data (ptyId : option string) (listener : option nat) (x : PtySocket) : PtySocket :=
  {| px_handshake := px_handshake x; px_connected := px_connected x; px_ptyId := ptyId; px_listener := listener; px_sent := px_sent x |}.
(** [client.emit(...)]: what is sent to a closed socket is lost. *)
Definition px_emit (m : PtySent) (x : PtySocket) : PtySocket :=
  {| px_handshake := px_handshake x; px_connected := px_connected x; px_ptyId := px_ptyId x; px_listener := px_listener x;
     px_sent := if px_connected x then px_sent x ++ [m] else px_sent x |}.

Module TerminalGateway.
Section Gateway.
Context `{Api : AuditApi} `{Crypto : NodeCrypto} {Parser : JsonParse} {Cred : Credentials} (baseUrl : string).
(** [z.string().uuid()] *)
Context (is_uuid : string -> bool).

Definition OpenSchema (v : json) : option OpenBody :=
  size ← SizeSchema v;
  workspaceId ← json_string "workspaceId" v;
  keepAliveMinutes ← optional "keepAliveMinutes" KeepAliveMinutes v;
  if is_uuid workspaceId
  then Some {| ob_workspaceId := workspaceId; ob_size := size; ob_keepAliveMinutes := keepAliveMinutes |}
  else None.

Definition forwarded_event (event : PtyEvent) : PtySent :=
  match event with
  | ev_out data => pty_output data
  | ev_exit code => pty_exit code
  | ev_notice message => pty_notice message
  | ev_error message => pty_error message
  end.

(** [forward] *)
Definition forward (client : nat) (event : PtyEvent) (g : TerminalGate) : TerminalGate :=
  upd_px client (px_emit (forwarded_event event)) g.

(** The listener of an opening. *)
Definition listen (listener : nat) (event : PtyEvent) (g : TerminalGate) : TerminalGate :=
  match tg_openings g !! listener with
  | None => g
  | Some o =>
      if op_ready o then forward (op_client o) event g
      else upd_openings (alter (fun o => {| op_client := op_client o; op_ready := op_ready o; op_queued := op_queued o ++ [event] |})
                               listener) g
  end.

(** The service after an action: the listeners hear the events that it delivered. *)
Definition put_pty (v : PtyWorld) (g : TerminalGate) : TerminalGate :=
  fold_left (fun g d => listen d.1 d.2 g)
    (drop (List.length (pt_delivered (tm_state (tg_pty g)))) (pt_delivered (tm_state v))) (with_pty v g).

Definition terminal {A} (p : pty A) : tgate A := zoom tg_pty put_pty p.

Definition data_of (client : nat) : tgate (option string * option nat) :=
  reads (fun g => match tg_sockets g !! client with
                  | Some x => (present (px_ptyId x), px_listener x)
                  | None => (None, None)
                  end).

Definition emit_pty (client : nat) (m : PtySent) : tgate unit := writes (upd_px client (px_emit m)).

(** The other [messageOf]: the text of an error of another class stays in the log. *)
Definition messageOf (error : JinError) : string :=
  if isJinError error then Store.messageOf error else "Falló la terminal.".

Definition handleConnection (client : nat) : tgate unit :=
  handshake <- reads (fun g : TerminalGate => option_map px_handshake (tg_sockets g !! client)) ;;
  match handshake with
  | None => Ret tt
  | Some h =>
      match extractWsToken h with
      | inl err => Throw err
      | inr token =>
          match present token with
          | None => writes (upd_px client (set_px_connected false))
          | Some token =>
              t <- terminal (service now) ;;
              if jwt_verify t token then Ret tt else writes (upd_px client (set_px_connected false))
          end
      end
  end.

Definition detach_data (d : option string * option nat) : tgate unit :=
  match d with
  | (Some ptyId, Some listener) => terminal (TerminalPty.detach ptyId listener)
  | _ => Ret tt
  end.

Definition handleDisconnect (client : nat) : tgate unit := d <- data_of client ;; detach_data d.

(** [dataOf(client)] is cleared, and a listener is made. *)
Definition begin_opening (client : nat) : tgate nat :=
  Act (fun g => (upd_openings (fun l => l ++ [{| op_client := client; op_ready := false; op_queued := [] |}])
                   (upd_px client (set_px_data None None) g), List.length (tg_openings g))) Ret.

(** [pty:opened], then the events that waited for it. *)
Definition end_opening (client listener : nat) (ptyId : string) (resumed : bool) (g : TerminalGate) : TerminalGate :=
  let queued := default [] (op_queued <$> (tg_openings g !! listener)) in
  let g := upd_px client (fun x => px_emit (pty_opened ptyId resumed) (set_px_data (Some ptyId) (Some listener) x)) g in
  let g := upd_openings (alter (fun o => {| op_client := op_client o; op_ready := true; op_queued := op_queued o |}) listener) g in
  fold_left (fun g event => forward client event g) queued g.

Definition open (payload : json) (client : nat) : tgate unit :=
  match OpenSchema payload with
  | None => emit_pty client (pty_error "Pedido de terminal inválido.")
  | Some body =>
      previous <- data_of client ;;
      detach_data previous ;;;
      listener <- begin_opening client ;;
      try_with
        (terminal (TerminalPty.openOrAttach baseUrl (ob_workspaceId body) (ob_size body) listener
                     (option_map (fun m => m * 60000) (ob_keepAliveMinutes body))))
        (fun '(ptyId, resumed) => writes (end_opening client listener ptyId resumed))
        (fun error => emit_pty client (pty_error (messageOf error)))
  end.

Definition input (payload : json) (client : nat) : tgate unit :=
  d <- data_of client ;;
  match InputSchema payload, d.1 with
  | Some data, Some ptyId =>
      catch (terminal (TerminalPty.input ptyId (base64_decode data)))
        (fun error => emit_pty client (pty_error (messageOf error)))
  | _, _ => Ret tt
  end.

Definition resize (payload : json) (client : nat) : tgate unit :=
  d <- data_of client ;;
  match SizeSchema payload, d.1 with
  | Some size, Some ptyId => catch (terminal (TerminalPty.resize baseUrl ptyId size)) (fun _ => Ret tt)
  | _, _ => Ret tt
  end.

Definition keepAlive (payload : json) (client : nat) : tgate unit :=
  d <- data_of client ;;
  match KeepAliveSchema payload, d.1 with
  | Some minutes, Some ptyId => terminal (TerminalPty.setKeepAlive ptyId (minutes * 60000))
  | _, _ => Ret tt
  end.

Definition close (client : nat) : tgate unit :=
  d <- data_of client ;;
  match d.1 with
  | Some ptyId =>
      writes (upd_px client (fun x => set_px_data None (px_listener x) x)) ;;;
      terminal (TerminalPty.close baseUrl ptyId "cerrada por el owner")
  | None => Ret tt
  end.
End Gateway.
End TerminalGateway.

(** ** A terminal without an app is counted down *)

(** What one action may do, at the time [now], to the countdown of a session: begin it
    anew, never sooner than the whole wait; let it fire, once it is due or when the
    server stops; stop it, for an app that listens or for good.  A session that its app
    leaves is counted down from that moment. *)
Record counts (now : Z) (x x' : PtySession) : Prop := {
  counts_end : s_ended x <> None -> s_ended x' = s_ended x;
  counts_wait : s_keepAliveMs x' = s_keepAliveMs x \/
    PTY_KEEPALIVE_MIN_MS <= s_keepAliveMs x' <= PTY_KEEPALIVE_MAX_MS;
  counts_due due : s_detachTimer x' = timer_due due ->
    s_detachTimer x = timer_due due \/ due = now + s_keepAliveMs x';
  counts_fired : s_detachTimer x' = timer_fired ->
    s_detachTimer x = timer_fired \/ s_aborted x' = true \/
    exists due, s_detachTimer x = timer_due due /\ due <= now;
  counts_none : s_detachTimer x' = timer_none ->
    s_detachTimer x = timer_none \/ s_listener x' <> None \/ s_ended x' <> None;
  counts_heard : s_listener x' <> None ->
    s_detachTimer x' = timer_none \/ s_listener x <> None /\ s_detachTimer x <> timer_none;
  counts_left : s_listener x <> None -> s_listener x' = None -> s_ended x' = None ->
    s_detachTimer x' = timer_due (now + s_keepAliveMs x')
}.

Lemma clamp_bounds requested : PTY_KEEPALIVE_MIN_MS <= clampKeepAlive requested <= PTY_KEEPALIVE_MAX_MS.
Proof. unfold clampKeepAlive, PTY_KEEPALIVE_MIN_MS, PTY_KEEPALIVE_MAX_MS, PTY_KEEPALIVE_DEFAULT_MS. destruct requested; lia. Qed.

(** An assignment that says nothing of the listener, the timer or the end. *)
Lemma counts_same now x x' :
  s_ended x' = s_ended x -> s_listener x' = s_listener x -> s_detachTimer x' = s_detachTimer x ->
  s_keepAliveMs x' = s_keepAliveMs x -> counts now x x'.
Proof.
  intros He Hl Ht Hk. split; rewrite ?He, ?Hl, ?Ht, ?Hk; auto; [|done].
  intros H. destruct (s_detachTimer x); auto.
Qed.

(** An action on the heap of the sessions: each keeps to its countdown, and those it adds
    have an app. *)
Definition beats (now : Z) (s s' : PtyState) : Prop :=
  forall ref, match pt_heap s !! ref, pt_heap s' !! ref with
              | Some x, Some x' => counts now x x'
              | Some _, None => False
              | None, Some x' => s_detachTimer x' = timer_none /\ s_listener x' <> None /\
                  PTY_KEEPALIVE_MIN_MS <= s_keepAliveMs x' <= PTY_KEEPALIVE_MAX_MS
              | None, None => True
              end.

Definition keeps_count (v v' : PtyWorld) : Prop := beats (clock_of v) (tm_state v) (tm_state v').

Lemma beats_heap now s s' : pt_heap s' = pt_heap s -> beats now s s'.
Proof. intros H ref. rewrite H. destruct (pt_heap s !! ref); [by apply counts_same|done]. Qed.

#[export] Instance keeps_count_refl : Reflexive keeps_count.
Proof. intros v. by apply beats_heap. Qed.

Lemma beats_one now s s' ref f :
  pt_heap s' = alter f ref (pt_heap s) -> (forall x, pt_heap s !! ref = Some x -> counts now x (f x)) -> beats now s s'.
Proof.
  intros H Hf i. rewrite H. destruct (decide (i = ref)) as [->|Hi].
  - rewrite list_lookup_alter_eq. destruct (pt_heap s !! ref) as [x|]; cbn; auto.
  - rewrite list_lookup_alter_ne by done. destruct (pt_heap s !! i); [by apply counts_same|done].
Qed.

Lemma heap_fold_deliver l (es : list PtyEvent) s :
  pt_heap (fold_left (fun s e => deliver l e s) es s) = pt_heap s.
Proof. revert s. induction es as [|e es IH]; intros s; cbn; [done|]. by rewrite IH. Qed.

Lemma heap_notify ref e s : pt_heap (TerminalPty.notify ref e s) = pt_heap s.
Proof. unfold TerminalPty.notify. by case_match. Qed.

Lemma heap_attach ref l s :
  pt_heap (TerminalPty.attach ref l s) = alter (fun x => set_listener (Some l) (set_detachTimer timer_none x)) ref (pt_heap s).
Proof. unfold TerminalPty.attach. case_match; [by rewrite heap_fold_deliver|done]. Qed.

(** An app comes to a session. *)
Lemma counts_attach now x x' :
  s_ended x' = s_ended x -> s_listener x' <> None -> s_detachTimer x' = timer_none ->
  (s_keepAliveMs x' = s_keepAliveMs x \/ PTY_KEEPALIVE_MIN_MS <= s_keepAliveMs x' <= PTY_KEEPALIVE_MAX_MS) ->
  counts now x x'.
Proof. intros He Hl Ht Hk. split; rewrite ?He, ?Ht; auto; done. Qed.

(** The countdown begins. *)
Lemma counts_arm now x x' :
  s_ended x' = s_ended x -> s_listener x' = None -> s_detachTimer x' = timer_due (now + s_keepAliveMs x') ->
  (s_keepAliveMs x' = s_keepAliveMs x \/ PTY_KEEPALIVE_MIN_MS <= s_keepAliveMs x' <= PTY_KEEPALIVE_MAX_MS) ->
  counts now x x'.
Proof. intros He Hl Ht Hk. split; rewrite ?He, ?Hl, ?Ht; auto; try done. intros due [= <-]. by right. Qed.

(** What the actions so far make of a session. *)
Definition counted_down (x : PtySession) : Prop :=
  (s_ended x = None -> s_listener x = None -> s_detachTimer x <> timer_none) /\
  (s_listener x <> None -> s_detachTimer x = timer_none) /\
  PTY_KEEPALIVE_MIN_MS <= s_keepAliveMs x <= PTY_KEEPALIVE_MAX_MS.

Lemma counts_counted now x x' : counts now x x' -> counted_down x -> counted_down x'.
Proof.
  intros [He Hw Hd Hf Hn Hh Hl] (H1 & H2 & H3). split; [|split].
  - intros He' Hl' Ht. destruct (s_listener x) eqn:El; [rewrite Hl in Ht; done|].
    destruct (s_ended x) eqn:Ee; [by rewrite He in He'|].
    destruct (Hn Ht) as [Hx|[Hx|Hx]]; [by apply H1|done..].
  - intros Hl'. destruct (Hh Hl') as [Ht|[Hlx Ht]]; [done|]. by apply H2 in Hlx.
  - destruct Hw as [-> |Hw]; done.
Qed.

Lemma beats_counted now s s' : beats now s s' -> Forall counted_down (pt_heap s) -> Forall counted_down (pt_heap s').
Proof.
  intros Hb Hs. apply Forall_lookup. intros ref x' Hx'. specialize (Hb ref). rewrite Hx' in Hb.
  destruct (pt_heap s !! ref) as [x|] eqn:Ex.
  - eapply counts_counted; [exact Hb|]. exact (Forall_lookup_1 _ _ ref x Hs Ex).
  - destruct Hb as (Ht & Hl & Hk). split; [done|]. split; [done|exact Hk].
Qed.

Section Counted.
Context `{Laws : AuditApiLaws} `{Crypto : NodeCrypto} {Parser : JsonParse} (baseUrl : string).

(** The calls of the other services, and the requests, leave the terminals as they are. *)
Definition same_state (v v' : PtyWorld) : Prop := tm_state v' = tm_state v.

#[local] Instance same_state_preorder : PreOrder same_state.
Proof. split; [done|]. intros v1 v2 v3 H1 H2. unfold same_state in *. congruence. Qed.

Lemma same_service {A} (p : jin A) : steps same_state (service p : pty A).
Proof. apply (steps_zoom _ _ (fun _ _ => True)); [done|]. induction p as [a|e|X f c IH]; cbn; auto. Qed.

Lemma same_read {X} (f : PtyState -> X) : steps same_state (read_state f).
Proof. by split. Qed.

Lemma same_send method path body (aborted : pty bool) :
  steps same_state aborted -> steps same_state (send baseUrl method path body aborted).
Proof.
  intros Ha. unfold send. apply steps_bind; [by split|].
  intros [|st pr txt]; [apply steps_bind; [done|by intros []]|]. by case_match.
Qed.

Lemma same_send_only method path body : steps same_state (send_only baseUrl method path body : pty unit).
Proof. unfold send_only. apply steps_bind; [by apply same_send|done]. Qed.

Lemma same_json_request method path body : steps same_state (json_request baseUrl method path body : pty json).
Proof.
  unfold json_request. apply steps_bind; [by apply same_send|]. intros r. unfold json_of. by case_match.
Qed.

Lemma same_audit toolName inputs summary : steps same_state (TerminalPty.audit toolName inputs summary).
Proof.
  unfold TerminalPty.audit, record_call. apply steps_bind; [apply same_service|].
  intros requestId. apply steps_bind; [apply same_service|done].
Qed.

Lemma count_same_state {A} (p : pty A) : steps same_state p -> steps keeps_count p.
Proof. apply steps_mono. intros v v' E. apply beats_heap. by rewrite E. Qed.
#[local] Hint Resolve same_service same_read same_send_only same_json_request same_audit : frames.
#[local] Hint Extern 3 (steps keeps_count _) => (apply count_same_state; solve [auto with frames]) : frames.

Lemma count_on_state f : (forall t s, beats t s (f t s)) -> steps keeps_count (on_state f).
Proof. intros H. split; [|done]. intros v. exact (H _ _). Qed.

Lemma count_sync_state {X} (f : Z -> PtyState -> PtyState * (JinError + X)) :
  (forall t s, beats t s (f t s).1) -> steps keeps_count (sync_state f).
Proof.
  intros H. split; [|by intros []]. intros v. specialize (H (clock_of v) (tm_state v)).
  unfold keeps_count. destruct (f (clock_of v) (tm_state v)). exact H.
Qed.

Lemma count_finish ref e reason : steps keeps_count (TerminalPty.finish ref e reason).
Proof.
  unfold TerminalPty.finish. frame_tac. unfold TerminalPty.finish_begin. apply count_sync_state. intros t s.
  destruct (pt_heap s !! ref) as [x|] eqn:Ex; [|by apply beats_heap]. destruct (s_ended x) eqn:Ee; [by apply beats_heap|].
  cbv zeta. cbn [fst].
  apply (beats_one _ _ _ ref (fun y => set_lingerTimer (timer_due (t + ENDED_LINGER_MS)) (set_detachTimer timer_none (set_ended (Some e) y)))).
  - cbn. rewrite heap_notify. case_bool_decide; cbn; by rewrite list_alter_alter_eq.
  - intros y Hy. rewrite Ex in Hy. injection Hy as <-. split; cbn; auto; done.
Qed.
#[local] Hint Resolve count_finish : frames.

Lemma count_resize ptyId size : steps keeps_count (TerminalPty.resize baseUrl ptyId size).
Proof. unfold TerminalPty.resize, ptyResize. frame_tac. Qed.
#[local] Hint Resolve count_resize : frames.

Lemma count_close ptyId reason : steps keeps_count (TerminalPty.close baseUrl ptyId reason).
Proof. unfold TerminalPty.close, closePty. frame_tac. Qed.
#[local] Hint Resolve count_close : frames.

Lemma beats_attach now ref l s : beats now s (TerminalPty.attach ref l s).
Proof. eapply beats_one; [apply heap_attach|]. intros x _. apply counts_attach; auto; done. Qed.

Lemma beats_commit ws ptyId l ka now s : beats now s (TerminalPty.open_commit ws ptyId l ka now s).
Proof.
  unfold TerminalPty.open_commit. cbv zeta. intros ref. rewrite heap_attach. cbn.
  destruct (decide (ref = List.length (pt_heap s))) as [->|Hne].
  - rewrite list_lookup_alter_eq, lookup_app_r, Nat.sub_diag, (lookup_ge_None_2 (pt_heap s)) by lia. cbn.
    split; [done|]. split; [done|]. apply clamp_bounds.
  - rewrite list_lookup_alter_ne by done. destruct (pt_heap s !! ref) as [x|] eqn:Ex.
    + rewrite (lookup_app_l_Some _ _ _ _ Ex). by apply counts_same.
    + apply lookup_ge_None in Ex. rewrite lookup_ge_None_2; [done|]. rewrite length_app. cbn. lia.
Qed.

Lemma count_openOrAttach ws size l ka : steps keeps_count (TerminalPty.openOrAttach baseUrl ws size l ka).
Proof.
  unfold TerminalPty.openOrAttach. apply steps_bind.
  - unfold TerminalPty.open_begin. split; [|by intros []]. intros v.
    repeat case_match; unfold keeps_count; cbn [fst tm_state put_state];
      first [ apply beats_attach | by apply beats_heap
            | eapply beats_one; [rewrite heap_attach; cbn [upd_session pt_heap]; apply list_alter_alter_eq|] ].
    intros x _. apply counts_attach; try done. right. refine (clamp_bounds (Some _)).
  - unfold openPty. frame_tac; apply count_on_state; intros t s; [apply beats_commit|].
    case_match; by apply beats_heap.
Qed.

Lemma session_of_heap ptyId s ref x : session_of ptyId s = Some (ref, x) -> pt_heap s !! ref = Some x.
Proof. unfold session_of. intros H. by simplify_option_eq. Qed.

Lemma count_detach ptyId l : steps keeps_count (TerminalPty.detach ptyId l).
Proof.
  apply count_on_state. intros t s. destruct (session_of ptyId s) as [[ref x]|] eqn:E; [|by apply beats_heap].
  case_match; [|by apply beats_heap]. apply session_of_heap in E. destruct (s_ended x) eqn:Ee.
  - apply (beats_one _ _ _ ref (set_listener None)); [done|]. intros y Hy. assert (y = x) as -> by congruence.
    split; cbn; rewrite ?Ee; auto; try done; by intros [].
  - eapply (beats_one _ _ _ ref); [apply list_alter_alter_eq|]. intros y _. apply counts_arm; auto; done.
Qed.

Lemma count_input ptyId data : steps keeps_count (TerminalPty.input ptyId data).
Proof.
  apply count_sync_state. intros t s. destruct (session_of ptyId s) as [[ref x]|] eqn:E; [|by apply beats_heap].
  apply session_of_heap in E. destruct (s_ended x); [by apply beats_heap|]. unfold TerminalPty.withinRate. cbv zeta.
  destruct (if 1000 <=? t - s_rateWindowStart x then _ else _) as [start rate]. destruct (_ <=? _); cbn [fst].
  - eapply (beats_one _ _ _ ref); [cbn [upd_session pt_heap]; apply list_alter_alter_eq|]. intros y Hy.
    assert (y = x) as -> by congruence. by apply counts_same.
  - eapply (beats_one _ _ _ ref); [rewrite heap_notify; reflexivity|]. intros y Hy.
    assert (y = x) as -> by congruence. by apply counts_same.
Qed.

Lemma count_setKeepAlive ptyId ms : steps keeps_count (TerminalPty.setKeepAlive ptyId ms).
Proof.
  apply count_on_state. intros t s. destruct (session_of ptyId s) as [[ref x]|]; [|by apply beats_heap].
  case_match; [by apply beats_heap|]. eapply (beats_one _ _ _ ref); [reflexivity|]. intros y _. cbn.
  assert (Hk := clamp_bounds (Some ms)).
  destruct (s_detachTimer y) eqn:Et; split; cbn; rewrite ?Et; auto; try done.
  all: try (intros due [= <-]; by right).
  all: intros Hl; right; by split.
Qed.

Lemma count_detachTimerFires ref : steps keeps_count (TerminalPty.detachTimerFires baseUrl ref).
Proof.
  unfold TerminalPty.detachTimerFires. frame_tac. apply count_sync_state. intros t s.
  destruct (pt_heap s !! ref) as [x|] eqn:Ex; [|by apply beats_heap].
  destruct (s_detachTimer x) as [|due|] eqn:Et; [by apply beats_heap| |by apply beats_heap].
  destruct (Z.leb_spec due t); [|by apply beats_heap]. cbn [fst].
  eapply (beats_one _ _ _ ref); [reflexivity|]. intros y Hy. assert (y = x) as -> by congruence.
  split; cbn; rewrite ?Et; auto; try done. intros _. right. right. by exists due.
Qed.

Lemma count_lingerTimerFires ref : steps keeps_count (TerminalPty.lingerTimerFires ref).
Proof.
  apply count_on_state. intros t s. destruct (pt_heap s !! ref) as [x|]; [|by apply beats_heap].
  destruct (s_lingerTimer x); [by apply beats_heap| |by apply beats_heap]. case_match; [|by apply beats_heap].
  apply (beats_one _ _ _ ref (set_lingerTimer timer_fired)); [done|]. intros y _. by apply counts_same.
Qed.

(** What [onModuleDestroy] makes of a session. *)
Definition stopped (x x' : PtySession) : Prop :=
  x' = x \/
  s_ended x' = s_ended x /\ s_listener x' = s_listener x /\ s_keepAliveMs x' = s_keepAliveMs x /\ s_aborted x' = true /\
  s_detachTimer x' = match s_detachTimer x with timer_none => timer_none | _ => timer_fired end.

Lemma counts_stopped now x x' : stopped x x' -> counts now x x'.
Proof.
  intros [->|(He & Hl & Hk & Ha & Ht)]; [by apply counts_same|].
  split; rewrite ?He, ?Hl, ?Hk, ?Ha, ?Ht; auto; destruct (s_detachTimer x); try done; auto.
Qed.

Lemma stopped_trans x y z : stopped x y -> stopped y z -> stopped x z.
Proof.
  intros [->|(A1 & A2 & A3 & A4 & A5)]; [done|]. intros [->|(B1 & B2 & B3 & B4 & B5)]; [by right|].
  right. splits; try congruence. rewrite B5, A5. by destruct (s_detachTimer x).
Qed.

Lemma count_onModuleDestroy : steps keeps_count TerminalPty.onModuleDestroy.
Proof.
  apply count_on_state. intros t s. generalize (map_to_list (pt_sessions s)). intros l.
  assert (H : forall s0, Forall2 stopped (pt_heap s) (pt_heap s0) -> Forall2 stopped (pt_heap s)
    (pt_heap (fold_left (fun s kv => upd_session kv.2 (fun x => set_aborted (set_lingerTimer timer_fired (set_detachTimer
                 match s_detachTimer x with timer_none => timer_none | _ => timer_fired end x))) s) l s0))).
  { induction l as [|kv l IH]; intros s0 H; cbn; [done|]. apply IH. cbn.
    apply Forall2_same_length_lookup. split; [rewrite length_alter; by eapply Forall2_length|].
    intros i x x' Hx Hx'. destruct (decide (i = kv.2)) as [->|Hi].
    - rewrite list_lookup_alter_eq in Hx'. destruct (pt_heap s0 !! kv.2) as [y|] eqn:Ey; [|done]. injection Hx' as <-.
      apply (stopped_trans x y); [by eapply Forall2_lookup_lr|]. by right.
    - rewrite list_lookup_alter_ne in Hx' by done. by eapply Forall2_lookup_lr. }
  specialize (H s). intros ref. assert (Hr : Forall2 stopped (pt_heap s) (pt_heap s)).
  { apply Forall2_same_length_lookup. split; [done|]. intros i x x' Hx Hx'. left. congruence. }
  apply H in Hr. destruct (pt_heap s !! ref) as [x|] eqn:Ex.
  - destruct (Forall2_lookup_l _ _ _ _ _ Hr Ex) as (x' & -> & Hst). by apply counts_stopped.
  - apply lookup_ge_None in Ex. rewrite (Forall2_length _ _ _ Hr) in Ex. by rewrite lookup_ge_None_2.
Qed.

Lemma count_serveInput ref : steps keeps_count (TerminalPty.serveInput baseUrl ref).
Proof.
  assert (Hf : forall ws id step, steps keeps_count (TerminalPty.forward baseUrl ref ws id step)).
  { intros. unfold TerminalPty.forward, ptyInput. frame_tac. apply count_on_state. intros. by apply beats_heap. }
  assert (Hone : forall t s f, (forall x, s_ended (f x) = s_ended x /\ s_listener (f x) = s_listener x /\
      s_detachTimer (f x) = s_detachTimer x /\ s_keepAliveMs (f x) = s_keepAliveMs x) -> beats t s (upd_session ref f s)).
  { intros t s f H. apply (beats_one _ _ _ ref f); [done|]. intros x _. destruct (H x) as (? & ? & ? & ?). by apply counts_same. }
  unfold TerminalPty.serveInput, TerminalPty.process, TerminalPty.onInputFailure, TerminalPty.process_step, TerminalPty.feed_session.
  frame_tac; try apply Hf; try apply count_sync_state; try apply count_on_state; intros t s.
  all: try by apply Hone.
  - unfold TerminalPty.take_input. destruct (pt_heap s !! ref) as [x|]; [|by apply beats_heap].
    destruct (s_processing x), (s_inputChain x); try by apply beats_heap. by apply Hone.
  - destruct (pt_heap s !! ref) as [x|]; [|by apply beats_heap]. destruct (PtyGate.feed _ _). by apply Hone.
  - apply beats_heap, heap_notify.
Qed.

Lemma beats_output_line ref d t s : beats t s (TerminalPty.output_line ref d t s).
Proof.
  unfold TerminalPty.output_line. cbv zeta.
  set (f := fun x => TerminalPty.remember (base64_decode d) (add_bytes 0 (Z.of_nat (List.length (base64_decode d))) x)).
  assert (Hf : forall x, s_ended (f x) = s_ended x /\ s_listener (f x) = s_listener x /\
    s_detachTimer (f x) = s_detachTimer x /\ s_keepAliveMs (f x) = s_keepAliveMs x).
  { intros x. unfold f, TerminalPty.remember. by destruct (TerminalPty.trim_ring _ _). }
  assert (H : forall s', pt_heap s' = pt_heap (upd_session ref f s) -> beats t s s').
  { intros s' Hs'. apply (beats_one _ _ _ ref f); [exact Hs'|]. intros x _. destruct (Hf x) as (? & ? & ? & ?). by apply counts_same. }
  destruct (_ !! ref) as [y|] eqn:Ey; [|by apply H]. destruct (s_listener y) eqn:El; [by apply H|].
  destruct (s_detachTimer y) eqn:Et; [by apply H|..].
  all: eapply (beats_one _ _ _ ref); [cbn [upd_session pt_heap]; apply list_alter_alter_eq|]; intros x Hx.
  all: cbn in Ey; rewrite list_lookup_alter_eq, Hx in Ey; injection Ey as Ey.
  all: destruct (Hf x) as (He & Hl & _ & Hk); apply counts_arm; cbn; auto; by rewrite Ey.
Qed.

Lemma count_handleLine ref raw : steps keeps_count (TerminalPty.handleLine ref raw).
Proof. unfold TerminalPty.handleLine. frame_tac; apply count_on_state; intros t v; apply beats_output_line. Qed.
#[local] Hint Resolve count_handleLine : frames.

Lemma count_handleLines ref lines : steps keeps_count (TerminalPty.handleLines ref lines).
Proof. induction lines as [|l lines IH]; cbn; frame_tac. Qed.
#[local] Hint Resolve count_handleLines : frames.

Lemma count_readStream ref st started pending reads :
  steps keeps_count (TerminalPty.readStream ref st started pending reads).
Proof.
  revert st started pending. induction reads as [|[value|] reads IH]; intros; cbn [TerminalPty.readStream]; [done| |done].
  destruct (TerminalPty.utf8_run st value) as [st' out]. cbv zeta.
  destruct (TerminalPty.split_lines _ _) as [lines rest].
  apply steps_bind; [apply count_handleLines|]. intros []; [done|apply IH].
Qed.
#[local] Hint Resolve count_readStream : frames.

Lemma count_ptyOutput ws ptyId ref :
  steps keeps_count (ptyOutput baseUrl ws ptyId (read_state (TerminalPty.is_aborted ref))).
Proof. by apply count_same_state, same_send. Qed.
#[local] Hint Resolve count_ptyOutput : frames.

Lemma count_pump ref ws ptyId failures streams :
  steps keeps_count (TerminalPty.pump baseUrl ref ws ptyId failures streams).
Proof.
  revert failures. induction streams as [|stream streams IH]; intros failures; cbn [TerminalPty.pump]; frame_tac.
Qed.

Lemma terminal_method_counts p : terminal_method baseUrl p -> steps keeps_count p.
Proof.
  intros Hp. destruct Hp;
    first [ apply count_detach | apply count_input | apply count_serveInput | apply count_setKeepAlive
          | apply count_resize | apply count_close | apply count_detachTimerFires | apply count_lingerTimerFires
          | apply count_pump | apply count_onModuleDestroy | apply count_same_state, same_service | apply steps_bind; [apply count_openOrAttach|done] ].
Qed.

(** C39. However the requests of the apps, the chains of input, the timers, the output of the
    shells and the other services interleave, and whatever fails: a terminal that has not
    ended has a countdown exactly while its field [listener] is empty, of a wait of five
    minutes at least and of four hours at most; and whatever action comes next, a countdown
    begins with the whole wait from that moment, fires only when it is due or the server
    stops, and stops only for an app that listens or for the end, which is final.  (A socket
    that closes while its terminal is being opened leaves its listener in the field:
    [a_phone_hangs_up_too_soon].) *)
Theorem a_lone_terminal_is_counted_down (v0 : PtyWorld) (cf : config PtyWorld JinError unit) :
  pt_heap (tm_state v0) = [] -> reachable terminal_time (terminal_method baseUrl) v0 cf ->
  Forall (fun x =>
      (s_ended x = None -> s_listener x = None -> s_detachTimer x <> timer_none) /\
      (s_listener x <> None -> s_detachTimer x = timer_none) /\
      PTY_KEEPALIVE_MIN_MS <= s_keepAliveMs x <= PTY_KEEPALIVE_MAX_MS)
    (pt_heap (tm_state (c_store cf))) /\
  forall cf', pool_step terminal_time (terminal_method baseUrl) cf cf' ->
    forall ref x, pt_heap (tm_state (c_store cf)) !! ref = Some x ->
    exists x', pt_heap (tm_state (c_store cf')) !! ref = Some x' /\ counts (clock_of (c_store cf)) x x'.
Proof.
  intros H0 Hr. split.
  - apply (pool_invariant terminal_time (terminal_method baseUrl) (fun v => Forall counted_down (pt_heap (tm_state v))) v0 cf); [| | |exact Hr].
    + intros p Hp. eapply steps_mono; [|by apply terminal_method_counts]. intros v v'. apply beats_counted.
    + by intros w w' (x & _ & ->).
    + rewrite H0. constructor.
  - intros cf' Hs ref x Hx.
    assert (Hb : keeps_count (c_store cf) (c_store cf')).
    { eapply pool_step_steps; [apply _|apply terminal_method_counts| |exact Hr|exact Hs].
      intros v v' (w & _ & ->). by apply beats_heap. }
    specialize (Hb ref). rewrite Hx in Hb. destruct (pt_heap (tm_state (c_store cf')) !! ref) as [x'|]; [|done]. by exists x'.
Qed.

Lemma finish_ends ref e reason v : TerminalPty.is_ended ref (tm_state (run (TerminalPty.finish ref e reason) v).1) = true.
Proof.
  unfold TerminalPty.finish. rewrite run_bind.
  assert (Hb : exists r v', run (TerminalPty.finish_begin ref e) v = (v', inr r) /\ TerminalPty.is_ended ref (tm_state v') = true).
  { unfold TerminalPty.finish_begin, sync_state, sync. cbn [run]. destruct (pt_heap (tm_state v) !! ref) as [x|] eqn:Hx.
    - destruct (s_ended x) eqn:Ee; cbn [run fst snd].
      + do 2 eexists. split; [reflexivity|]. cbn. unfold TerminalPty.is_ended. by rewrite Hx, Ee.
      + do 2 eexists. split; [reflexivity|]. unfold TerminalPty.is_ended. cbn [tm_state put_state upd_session pt_heap].
        rewrite list_lookup_alter_eq, heap_notify. case_bool_decide; cbn [upd_byWorkspace upd_session pt_heap];
          by rewrite list_lookup_alter_eq, Hx.
    - do 2 eexists. split; [reflexivity|]. cbn. unfold TerminalPty.is_ended. by rewrite Hx. }
  destruct Hb as (r & v' & -> & Hb). destruct r as [[x n]|]; [|exact Hb].
  assert (Hs : same_state v' (run (catch (TerminalPty.audit CLOSE_TERMINAL_PTY_TOOL
      (JObj [("workspaceId", JStr (s_workspaceId x)); ("reason", JStr reason); ("bytesIn", JNum (s_bytesIn x));
             ("bytesOut", JNum (s_bytesOut x)); ("seconds", JNum n)])
      ("terminal interactiva: cerrar (" +:+ reason +:+ ")")) (fun _ => Ret tt)) v').1).
  { apply (steps_run same_state), steps_catch; [apply same_audit|done]. }
  by rewrite Hs.
Qed.

(** When the countdown is over the terminal ends, whether the executor answers or not. *)
Lemma an_overdue_terminal_ends ref x t (v : PtyWorld) :
  pt_heap (tm_state v) !! ref = Some x -> pt_sessions (tm_state v) !! s_ptyId x = Some ref ->
  s_detachTimer x = timer_due t -> t <= clock_of v ->
  TerminalPty.is_ended ref (tm_state (run (TerminalPty.detachTimerFires baseUrl ref) v).1) = true.
Proof.
  intros Hx Hs Ht Hle. unfold TerminalPty.detachTimerFires. rewrite run_bind. unfold sync_state, sync. cbn [run].
  rewrite Hx, Ht. rewrite (proj2 (Z.leb_le _ _) Hle). cbn [run].
  set (s := upd_session ref (set_detachTimer timer_fired) (tm_state v)).
  assert (Hx1 : pt_heap s !! ref = Some (set_detachTimer timer_fired x)) by (unfold s; cbn; by rewrite list_lookup_alter_eq, Hx).
  assert (Hof : session_of (s_ptyId x) s = Some (ref, set_detachTimer timer_fired x)).
  { unfold session_of. cbn. rewrite Hs. cbn. by rewrite list_lookup_alter_eq, Hx. }
  unfold TerminalPty.close. rewrite run_bind. unfold read_state. cbn [run tm_state put_state]. rewrite Hof.
  cbn [s_ended set_detachTimer]. destruct (s_ended x) eqn:Ee.
  { cbn. unfold TerminalPty.is_ended. rewrite Hx1. cbn. by rewrite Ee. }
  rewrite run_bind. destruct (run (catch _ _) _) as [v2 [e|[]]] eqn:Ec; [|apply finish_ends].
  rewrite run_catch in Ec. destruct (run (closePty _ _ _) _) as [v3 [e'|[]]]; by injection Ec.
Qed.
End Counted.

(** ** The socket and its terminal *)

(** A socket that closes with its terminal open starts the countdown. *)
Lemma a_closed_socket_starts_the_countdown client px ptyId listener ref x (g : TerminalGate) :
  tg_sockets g !! client = Some px -> present (px_ptyId px) = Some ptyId -> px_listener px = Some listener ->
  session_of ptyId (tm_state (tg_pty g)) = Some (ref, x) -> s_listener x = Some listener -> s_ended x = None ->
  pt_heap (tm_state (tg_pty (run (TerminalGateway.handleDisconnect client) g).1)) !! ref =
    Some (set_detachTimer (timer_due (clock_of (tg_pty g) + s_keepAliveMs x)) (set_listener None x)).
Proof.
  intros Hpx Hid Hl Hof Hlx He. unfold TerminalGateway.handleDisconnect, TerminalGateway.data_of. rewrite run_bind, run_reads, Hpx, Hid, Hl.
  unfold TerminalGateway.detach_data, TerminalGateway.terminal, TerminalPty.detach, on_state. cbn [zoom run fst].
  rewrite Hof. rewrite bool_decide_true by done. rewrite He. unfold TerminalGateway.put_pty.
  cbn [put_state tm_state upd_session pt_delivered]. rewrite drop_all. cbn [fold_left with_pty tg_pty tm_state put_state upd_session pt_heap].
  by rewrite list_alter_alter_eq, list_lookup_alter_eq, (session_of_heap _ _ _ _ Hof).
Qed.

Module TerminalGatewayExamples.
#[local] Existing Instance toy_crypto.
#[local] Existing Instance TerminalExamples.parser.
#[local] Existing Instance GatewayExamples.credentials.
#[local] Existing Instance auditService.

Definition phone : PtySocket :=
  {| px_handshake := {| hk_auth_token := Some "token"; hk_cookie := None; hk_authorization := None |};
     px_connected := true; px_ptyId := None; px_listener := None; px_sent := [] |}.
Definition gate : TerminalGate :=
  {| tg_pty := {| tm_world := empty_world 5000; tm_http := TerminalExamples.http true; tm_state := no_sessions |};
     tg_sockets := {[ 0%nat := phone ]}; tg_openings := [] |}.
Definition open_payload : json := JObj [("cols", JNum 80); ("rows", JNum 24); ("workspaceId", JStr "proj")].
Definition open : tgate unit := TerminalGateway.open "http://executor" (fun _ => true) open_payload 0.
(** The socket closes. *)
Definition hang_up : tgate unit := writes (upd_px 0 (set_px_connected false)) ;;; TerminalGateway.handleDisconnect 0.
Definition output (d : string) : tgate unit := TerminalGateway.terminal (on_state (TerminalPty.output_line 0 d)).

Definition lone (g : TerminalGate) : list (option nat * Timer) :=
  map (fun x => (s_listener x, s_detachTimer x)) (pt_heap (tm_state (tg_pty g))).
Definition sent (g : TerminalGate) : list PtySent := default [] (px_sent <$> (tg_sockets g !! 0%nat)).

Example base64_is_checked :
  map is_base64 ["TA=="; "TAo="; "TAoK"; "T==="; "=TA="; ""; "TA =="] = [true; true; true; false; false; false; false].
Proof. reflexivity. Qed.

(** What came out while the app was away is told after [pty:opened]. *)
Example an_app_comes_back :
  sent (run (open ;;; output "YQ==" ;;; hang_up ;;; output "Yg==" ;;; writes (upd_px 0 (set_px_connected true)) ;;; open) gate).1 =
  [pty_opened "pty-1" false; pty_output "YQ=="; pty_opened "pty-1" true; pty_output "YWI="].
Proof. vm_compute. reflexivity. Qed.

Example a_phone_hangs_up : lone (run (open ;;; hang_up) gate).1 = [(None, timer_due (5000 + PTY_KEEPALIVE_DEFAULT_MS))].
Proof. vm_compute. reflexivity. Qed.

(** A socket that closes while its terminal is being opened leaves it with a listener that
    nobody will detach, and no countdown. *)
Lemma a_phone_hangs_up_too_soon :
  let g := c_store (Effects.interleave ([0; 0; 0; 1; 1] ++ List.repeat 0 30)%nat gate [open; hang_up]) in
  lone g = [(Some 0%nat, timer_none)] /\ px_connected <$> (tg_sockets g !! 0%nat) = Some false.
Proof. vm_compute. by repeat split. Qed.
End TerminalGatewayExamples.

(** ** The theorem at a concrete input *)

#[local] Existing Instance toy_crypto.

Lemma a_lone_terminal_is_counted_down_witness :
  let opening : pty unit := discard (@TerminalPty.openOrAttach (@auditService toy_crypto) toy_crypto TerminalExamples.parser
    "http://executor" "proj" (Build_PtySize 80 24) 7 (Some 1)) in
  let v := (run opening (tg_pty TerminalGatewayExamples.gate)).1 in
  let v' := (run (TerminalPty.detach "pty-1" 7) v).1 in
  Forall (fun x => s_listener x <> None -> s_detachTimer x = timer_none) (pt_heap (tm_state v)) /\
  exists x x', pt_heap (tm_state v) !! 0%nat = Some x /\ pt_heap (tm_state v') !! 0%nat = Some x' /\
    s_detachTimer x' = timer_due (5000 + PTY_KEEPALIVE_MIN_MS) /\ counts 5000 x x'.
Proof.
  intros opening v v'.
  set (method := @terminal_method (@auditService toy_crypto) toy_crypto TerminalExamples.parser "http://executor").
  assert (Hreach : reachable terminal_time method (tg_pty TerminalGatewayExamples.gate)
    (Config v [Ret tt; TerminalPty.detach "pty-1" 7])).
  { eapply reach_step; [|apply (step_spawn _ _ _ [Ret tt]), m_detach].
    apply (reachable_run1 terminal_time _ _ (tg_pty TerminalGatewayExamples.gate) [] [] opening v tt); [|by vm_compute].
    eapply reach_step; [apply reach_init|]. apply (step_spawn _ _ _ []). apply m_open. }
  destruct (@a_lone_terminal_is_counted_down (@auditService toy_crypto) toy_crypto TerminalExamples.parser "http://executor"
    (tg_pty TerminalGatewayExamples.gate) _ eq_refl Hreach) as [H1 H2]. cbn [c_store] in H1, H2.
  split; [eapply Forall_impl; [exact H1|]; by intros x (_ & H & _)|].
  destruct (pt_heap (tm_state v) !! 0%nat) as [x|] eqn:Ex; [|by vm_compute in Ex].
  specialize (H2 (Config v' [Ret tt; Ret tt])).
  assert (Hs : pool_step terminal_time method (Config v [Ret tt; TerminalPty.detach "pty-1" 7]) (Config v' [Ret tt; Ret tt])).
  { apply (step_act terminal_time method v [Ret tt] []). }
  destruct (H2 Hs 0%nat x Ex) as (x' & Hx' & Hc). cbn [c_store] in Hx'. exists x, x'. split; [done|]. split; [exact Hx'|].
  split; [|exact Hc].
  assert (Ht : s_detachTimer <$> pt_heap (tm_state v') !! 0%nat = Some (timer_due (5000 + PTY_KEEPALIVE_MIN_MS))) by (by vm_compute).
  rewrite Hx' in Ht. by injection Ht.
Defined.
