(* ===== verification/TerminalController.v ===== *)
(** * TerminalController: the endpoints of the terminal

    [src/terminal/terminal.controller.ts] and the schemas of [src/terminal/terminal.schemas.ts]
    that it checks its requests with: each endpoint on the operations of [OwnerTerminal.v], and
    the live preview, which forwards a request to a port of the project.  A body that its
    schema rejects never reaches the endpoint. *)
From S2P Require Import Prelude Effects Js Text PtyGate Registry Store AuditApi AuditLog Models Frame Previews TerminalClient OwnerTerminal Gateways.
From Stdlib Require Import Ascii String.
Local Open Scope stdpp_scope.
Local Open Scope Z_scope.
Local Open Scope jin_scope.

(** ** The schemas *)

Definition TERMINAL_MAX_COMMAND_LENGTH : Z := 4096.
Definition TERMINAL_MAX_TIMEOUT_SECONDS : Z := 600.
Definition TERMINAL_FS_MAX_FILE_BYTES : Z := 512 * 1024.

Definition in_range (lo hi n : Z) : bool := (lo <=? n) && (n <=? hi).

Definition refined {A} (ok : A -> bool) (o : option A) : option A := x ← o; if ok x then Some x else None.

Definition TerminalFilesSchema (v : json) : option (list (string * string)) :=
  refined files_ok (match v with JObj fields => parse_strings fields | _ => None end).

Definition StartTerminalSchema (v : json) : option StartTerminalInput :=
  if negb (strict ["files"; "ttlSeconds"; "claudeCode"] v) then None
  else
    files ← match json_field "files" v with None => Some [] | Some f => TerminalFilesSchema f end;
    ttl ← json_field "ttlSeconds" v ≫= as_number;
    claude ← optional "claudeCode" as_bool v;
    refined start_input_ok (Some {| sti_files := files; sti_ttlSeconds := ttl; sti_claudeCode := claude |}).

Definition command_ok (command : string) : bool := in_range 1 TERMINAL_MAX_COMMAND_LENGTH (js_length command).

Definition ExecTerminalSchema (v : json) : option ExecTerminalInput :=
  if negb (strict ["command"; "timeoutSeconds"] v) then None
  else
    command ← refined command_ok (json_string "command" v);
    timeout ← optional "timeoutSeconds" (fun x => refined (in_range 1 TERMINAL_MAX_TIMEOUT_SECONDS) (as_number x)) v;
    Some {| xti_command := command; xti_timeoutSeconds := timeout |}.

Definition ExposeTerminalSchema (v : json) : option ExposeTerminalInput :=
  if negb (strict ["dir"; "slugHint"] v) then None
  else
    dir ← match json_field "dir" v with None => Some "dist" | Some d => as_string d end;
    hint ← optional "slugHint" as_string v;
    refined expose_input_ok (Some {| eti_dir := dir; eti_slugHint := hint |}).

Definition ImportTerminalSchema (v : json) : option (list (string * string)) :=
  if strict ["files"] v then json_field "files" v ≫= TerminalFilesSchema else None.

(** [z.union([z.literal('.'), ok]).default('.')] *)
Definition dir_or_dot (ok : string -> bool) (o : option json) : option string :=
  match o with
  | None => Some "."
  | Some (JStr s) => if String.eqb s "." || ok s then Some s else None
  | Some _ => None
  end.

Definition ExportTerminalQuerySchema (v : json) : option string := dir_or_dot SafePath (json_field "dir" v).

Definition has_backslash (s : string) : bool := existsb (Ascii.eqb "\") (list_ascii_of_string s).

Definition FsFilePath (path : string) : bool :=
  in_range 1 400 (js_length path) && negb (String.prefix "/" path) && negb (has_backslash path) &&
  negb (existsb (String.eqb "..") (split_on "/" path)).

Definition FsListQuerySchema (v : json) : option string := dir_or_dot FsFilePath (json_field "path" v).
Definition FsReadQuerySchema (v : json) : option string := refined FsFilePath (json_string "path" v).
Definition FsMkdirSchema (v : json) : option string := if strict ["path"] v then FsReadQuerySchema v else None.

Definition is_lower_hex (c : ascii) : bool :=
  let n := Z.of_nat (nat_of_ascii c) in in_range 48 57 n || in_range 97 102 n.

(** [/^[0-9a-f]{64}$/] *)
Definition is_sha256 (s : string) : bool :=
  (String.length s =? 64)%nat && forallb is_lower_hex (list_ascii_of_string s).

Definition FsWriteSchema (v : json) : option FsWriteInput :=
  if negb (strict ["path"; "content"; "expectedSha256"; "force"] v) then None
  else
    path ← refined FsFilePath (json_string "path" v);
    content ← refined (fun text => Z.of_nat (String.length text) <=? TERMINAL_FS_MAX_FILE_BYTES) (json_string "content" v);
    sha ← optional "expectedSha256" (fun x => refined is_sha256 (as_string x)) v;
    force ← match json_field "force" v with None => Some false | Some x => as_bool x end;
    Some {| fwi_path := path; fwi_content := content; fwi_expectedSha256 := sha; fwi_force := force |}.

Record StartServiceInput := { ssi_command : string; ssi_port : Z }.

Definition StartServiceSchema (v : json) : option StartServiceInput :=
  if negb (strict ["command"; "port"] v) then None
  else
    command ← refined command_ok (json_string "command" v);
    port ← refined (in_range 1024 65535) (json_field "port" v ≫= as_number);
    Some {| ssi_command := command; ssi_port := port |}.

(** ** The live preview *)

Definition PREVIEW_REQUEST_HEADERS : list string := ["accept"; "accept-language"; "content-type"; "range"; "user-agent"].
Definition MAX_PREVIEW_BODY_BYTES : Z := 10 * 1024 * 1024.

(** What the preview reads of a request: the headers with one value, the body that the
    framework has parsed, if it has, and the chunks that are left to read. *)
Record PreviewCall := {
  pc_method : string;
  pc_originalUrl : string;
  pc_headers : list (string * string);
  pc_body : option json;
  pc_readableEnded : bool;
  pc_chunks : list bytes
}.

Definition header (name : string) (headers : list (string * string)) : option string :=
  snd <$> List.find (fun kv => String.eqb (fst kv) name) headers.

Definition previewRequestHeaders (req : PreviewCall) : list (string * string) :=
  omap (fun name => pair name <$> header name (pc_headers req)) PREVIEW_REQUEST_HEADERS.

(** [Object.keys(parsed).length > 0] *)
Definition has_keys (parsed : json) : bool :=
  match parsed with JObj (_ :: _) | JArr (_ :: _) => true | _ => false end.

Definition body_too_big : JinError := BadRequestException "Cuerpo demasiado grande.".

(** The loop over the chunks. *)
Fixpoint read_chunks (size : Z) (chunks : list bytes) : JinError + bytes :=
  match chunks with
  | [] => inr []
  | chunk :: rest =>
      let size := size + Z.of_nat (List.length chunk) in
      if MAX_PREVIEW_BODY_BYTES <? size then inl body_too_big
      else match read_chunks size rest with inl e => inl e | inr b => inr (chunk ++ b) end
  end.

(** The bytes of a body that was not parsed are a string of the model. *)
Definition previewRequestBody (req : PreviewCall) : JinError + option json :=
  if String.eqb (pc_method req) "GET" || String.eqb (pc_method req) "HEAD" then inr None
  else
    match refined has_keys (pc_body req) with
    | Some parsed => inr (Some parsed)
    | None =>
        if pc_readableEnded req then inr None
        else
          match read_chunks 0 (pc_chunks req), pc_chunks req with
          | inl e, _ => inl e
          | inr _, [] => inr None
          | inr b, _ => inr (Some (JStr (string_of_bytes b)))
          end
    end.

(** ** The endpoints *)

Module TerminalController.
Section Controller.
Context `{Api : AuditApi} `{Crypto : NodeCrypto} {Parser : JsonParse} (baseUrl : string) {St : Type}.
Abbreviation owner := (term St).

Definition lift_result {A} (r : JinError + A) : owner A := match r with inl e => Throw e | inr x => Ret x end.

Definition portOrFail (raw : string) : JinError + Z :=
  match (if in_range 1 5 (Z.of_nat (String.length raw)) then parse_digits 0 raw else None) with
  | Some port => if in_range 1024 65535 port then inr port else inl (BadRequestException "Puerto no válido (1024–65535).")
  | None => inl (BadRequestException "Puerto no válido (1024–65535).")
  end.

Definition workspaceIdOrFail (raw : string) : JinError + string :=
  match parseWorkspaceId raw with
  | Some id => inr id
  | None => inl (BadRequestException "Id de proyecto inválido.")
  end.

(** What the pipe of validation throws. *)
Definition dto {A} (o : option A) : JinError + A :=
  match o with Some x => inr x | None => inl (BadRequestException "Validation failed") end.

Definition on_workspace {A} (raw : string) (k : string -> owner A) : owner A :=
  id <- lift_result (workspaceIdOrFail raw) ;; k id.
Definition on_port {A} (raw : string) (k : Z -> owner A) : owner A := port <- lift_result (portOrFail raw) ;; k port.

Definition list_ : owner json := OwnerTerminal.list_all baseUrl.

Definition start (raw : string) (body : json) : owner string :=
  input <- lift_result (dto (StartTerminalSchema body)) ;;
  on_workspace raw (fun id => OwnerTerminal.requestStart baseUrl id input).

Definition stopPod (raw : string) : owner unit := on_workspace raw (OwnerTerminal.stopPod baseUrl).
Definition deleteWorkspace (raw : string) : owner unit := on_workspace raw (OwnerTerminal.deleteWorkspace baseUrl).

(** The writes of [exec]: the chunks of the executor's stream as they are, and a last line
    when a read fails while the client is there. *)
Definition stream_failed (error : JinError) : string :=
  stringify (JObj [("t", JStr "error"); ("message", JStr (messageOf error))]) +:+ newline.

Fixpoint exec_stream (aborted : owner bool) (reads : list (JinError + bytes)) : owner (list bytes) :=
  match reads with
  | [] => Ret []
  | inr value :: reads' => written <- exec_stream aborted reads' ;; Ret (value :: written)
  | inl error :: _ => cut <- aborted ;; Ret (if cut : bool then [] else [units (stream_failed error)])
  end.

(** [reads] are what the reads of the body of an answer give. *)
Definition exec (raw : string) (body : json) (aborted : owner bool) (reads : Response -> list (JinError + bytes)) :
    owner (list bytes) :=
  input <- lift_result (dto (ExecTerminalSchema body)) ;;
  upstream <- on_workspace raw (fun id => OwnerTerminal.exec baseUrl id input aborted) ;;
  exec_stream aborted (reads upstream).

Definition exportFiles (raw : string) (query : json) : owner json :=
  dir <- lift_result (dto (ExportTerminalQuerySchema query)) ;;
  on_workspace raw (fun id => TerminalClient.exportFiles baseUrl id dir).

Definition importFiles (raw : string) (body : json) : owner json :=
  files <- lift_result (dto (ImportTerminalSchema body)) ;;
  on_workspace raw (fun id => OwnerTerminal.importFiles baseUrl id files).

Definition fsList (raw : string) (query : json) : owner json :=
  path <- lift_result (dto (FsListQuerySchema query)) ;;
  on_workspace raw (fun id => TerminalClient.fsList baseUrl id path).

Definition fsRead (raw : string) (query : json) : owner json :=
  path <- lift_result (dto (FsReadQuerySchema query)) ;;
  on_workspace raw (fun id => TerminalClient.fsRead baseUrl id path).

Definition fsWrite (raw : string) (body : json) : owner json :=
  input <- lift_result (dto (FsWriteSchema body)) ;;
  on_workspace raw (fun id => OwnerTerminal.fsWrite baseUrl id input).

Definition fsMkdir (raw : string) (body : json) : owner unit :=
  path <- lift_result (dto (FsMkdirSchema body)) ;;
  on_workspace raw (fun id => OwnerTerminal.fsMkdir baseUrl id path).

Definition fsDelete (raw : string) (query : json) : owner unit :=
  path <- lift_result (dto (FsReadQuerySchema query)) ;;
  on_workspace raw (fun id => OwnerTerminal.fsDelete baseUrl id path).

(** What is answered of a service that was started; the copies that the other endpoints make
    of their results are the results. *)
Definition service_started (result : json) : json :=
  let copy key := match json_field key result with Some x => [(key, x)] | None => [] end in
  JObj (copy "status" ++ copy "port" ++ copy "log" ++
        match json_string "status" result with
        | Some status => if String.eqb status "exited" then copy "code" else []
        | None => []
        end).

Definition startService (raw : string) (body : json) : owner json :=
  input <- lift_result (dto (StartServiceSchema body)) ;;
  result <- on_workspace raw (fun id => OwnerTerminal.startService baseUrl id (ssi_command input) (ssi_port input)) ;;
  Ret (service_started result).

Definition listServices (raw : string) : owner json := on_workspace raw (TerminalClient.listServices baseUrl).

Definition stopService (raw rawPort : string) : owner unit :=
  on_workspace raw (fun id => on_port rawPort (OwnerTerminal.stopService baseUrl id)).

Definition serviceLogs (raw rawPort : string) : owner (option json) :=
  on_workspace raw (fun id => on_port rawPort (TerminalClient.serviceLogs baseUrl id)).

Definition expose (raw : string) (body : json) : owner string :=
  input <- lift_result (dto (ExposeTerminalSchema body)) ;;
  on_workspace raw (fun id => OwnerTerminal.requestExpose baseUrl id input).

(** What follows the prefix of the preview in the address, with a slash in front. *)
Definition pathAndQuery (raw rawPort originalUrl : string) : string :=
  let prefix := "/api/terminal/workspaces/" +:+ encodeURIComponent raw +:+ "/preview/" +:+ rawPort in
  let rest := default "" (after_prefix prefix originalUrl) in
  if String.eqb rest "" || String.prefix "?" rest then "/" +:+ rest else rest.

(** [preview]; the copy of the stream is not modelled. *)
Definition preview (raw rawPort : string) (req : PreviewCall) (aborted : owner bool) : owner Response :=
  on_workspace raw (fun id => on_port rawPort (fun port =>
    body <- lift_result (previewRequestBody req) ;;
    proxy baseUrl id port (pc_method req) (pathAndQuery raw rawPort (pc_originalUrl req)) body aborted)).
End Controller.
End TerminalController.

(** ** The standard library: the path of a URL

    [fetch] parses its address as browsers do: the segments of the path that are two dots,
    written as they are or encoded, take away the one before them. *)

(** The segments of a path, up to its query or fragment; a backslash is a slash. *)
Fixpoint path_segments (acc : string) (s : string) : list string :=
  match s with
  | EmptyString => [acc]
  | String c s' =>
      if Ascii.eqb c "?" || Ascii.eqb c "#" then [acc]
      else if Ascii.eqb c "/" || Ascii.eqb c "\" then acc :: path_segments "" s'
      else path_segments (acc +:+ String c "") s'
  end.

Definition single_dot (s : string) : bool := existsb (String.eqb (lower s)) ["."; "%2e"].
Definition double_dot (s : string) : bool := existsb (String.eqb (lower s)) [".."; ".%2e"; "%2e."; "%2e%2e"].

(** [path] is the path so far, the last segment first. *)
Fixpoint follow_segments (path : list string) (segments : list string) : list string :=
  match segments with
  | [] => path
  | s :: rest =>
      let last := match rest with [] => true | _ => false end in
      if double_dot s then follow_segments (if last then "" :: tail path else tail path) rest
      else if single_dot s then follow_segments (if last then "" :: path else path) rest
      else follow_segments (s :: path) rest
  end.

(** What the parser takes out first: the control characters and spaces at the end (the
    address does not begin with one), and the tabs and line breaks anywhere. *)
Fixpoint drop_trailing (s : string) : string :=
  match s with
  | EmptyString => EmptyString
  | String c s' =>
      match drop_trailing s' with
      | EmptyString => if (nat_of_ascii c <=? 32)%nat then EmptyString else String c EmptyString
      | t => String c t
      end
  end.

Definition tab_or_newline (c : ascii) : bool := existsb (Nat.eqb (nat_of_ascii c)) [9; 10; 13]%nat.

Fixpoint drop_newlines (s : string) : string :=
  match s with
  | EmptyString => EmptyString
  | String c s' => if tab_or_newline c then drop_newlines s' else String c (drop_newlines s')
  end.

Definition url_input (s : string) : string := drop_newlines (drop_trailing s).

(** The path of an address below [base], a path of plain segments, the first one first. *)
Definition resolved (base : list string) (below : string) : list string :=
  match path_segments "" (url_input below) with
  | _ :: segments => rev (follow_segments (rev base) segments)
  | [] => base
  end.

Definition plain (s : string) : bool := negb (double_dot s) && negb (single_dot s).

(** ** Where a preview goes *)

Definition within_segment (c : ascii) : bool :=
  negb (Ascii.eqb c "?" || Ascii.eqb c "#" || (Ascii.eqb c "/" || Ascii.eqb c "\")).
Definition one_segment (s : string) : bool := forallb within_segment (list_ascii_of_string s).

Lemma path_segments_app x : forall acc rest, one_segment x = true ->
  path_segments acc (x +:+ String "/" rest) = (acc +:+ x) :: path_segments "" rest.
Proof.
  induction x as [|c x IH]; intros acc rest Hx; cbn.
  - by rewrite string_app_nil_r.
  - cbn in Hx. apply andb_true_iff in Hx as [Hc Hx]. unfold within_segment in Hc. apply negb_true_iff, orb_false_iff in Hc as [Hq Hs].
    rewrite Hq, Hs, IH by done. by rewrite string_app_assoc.
Qed.

Lemma drop_trailing_app x c s :
  (32 < nat_of_ascii c)%nat -> drop_trailing (x +:+ String c s) = x +:+ String c (drop_trailing s).
Proof.
  intros Hc. induction x as [|a x IH]; cbn [String.append drop_trailing].
  - destruct (drop_trailing s); [by rewrite (proj2 (Nat.leb_gt _ _) Hc)|done].
  - rewrite IH. by destruct x.
Qed.

Lemma drop_newlines_app x y : drop_newlines (x +:+ y) = drop_newlines x +:+ drop_newlines y.
Proof.
  induction x as [|c x IH]; [done|]. cbn [String.append drop_newlines]. rewrite IH.
  destruct (tab_or_newline c); reflexivity.
Qed.

(** No tab or line break. *)
Definition unbroken (s : string) : bool := forallb (fun c => negb (tab_or_newline c)) (list_ascii_of_string s).

Lemma drop_newlines_unbroken s : unbroken s = true -> drop_newlines s = s.
Proof.
  unfold unbroken. induction s as [|c s IH]; [done|]. cbn [list_ascii_of_string forallb drop_newlines].
  intros [Hc%negb_true_iff Hs]%andb_true_iff. by rewrite Hc, IH.
Qed.

Lemma unbroken_app a b : unbroken (a +:+ b) = unbroken a && unbroken b.
Proof.
  unfold unbroken. induction a as [|c a IH]; [done|]. cbn [String.append list_ascii_of_string forallb].
  by rewrite IH, andb_assoc.
Qed.

Lemma url_input_slash x p : unbroken x = true -> url_input (x +:+ String "/" p) = x +:+ String "/" (url_input p).
Proof.
  intros Hx. unfold url_input. rewrite drop_trailing_app by (vm_compute; lia). rewrite drop_newlines_app.
  rewrite (drop_newlines_unbroken x) by done. reflexivity.
Qed.

Lemma path_segments_ne acc s : path_segments acc s <> [].
Proof. revert acc. induction s as [|c s IH]; intros acc; cbn; [done|]. by repeat case_match. Qed.

Lemma follow_plain s path rest : plain s = true -> follow_segments path (s :: rest) = follow_segments (s :: path) rest.
Proof. unfold plain. intros [Hd%negb_true_iff Hs%negb_true_iff]%andb_true_iff. cbn [follow_segments]. by rewrite Hd, Hs. Qed.

Lemma follow_stays segments : forall path, Forall (fun s => double_dot s = false) segments ->
  exists ext, follow_segments path segments = ext ++ path.
Proof.
  induction segments as [|s rest IH]; intros path Hs; cbn [follow_segments]; [by exists []|]. inversion_clear Hs as [|? ? H1 H2]. rewrite H1.
  destruct (single_dot s).
  - destruct rest; [by exists [""]|]. by apply IH.
  - destruct (IH (s :: path) H2) as (ext & ->). exists (ext ++ [s]). by rewrite <- app_assoc.
Qed.

Lemma one_segment_app a b : one_segment (a +:+ b) = one_segment a && one_segment b.
Proof. induction a as [|c a IH]; [done|]. cbn. unfold one_segment in *. by rewrite IH, andb_assoc. Qed.

Lemma encoded_segment s : one_segment (encodeURIComponent s) = true.
Proof.
  induction s as [|c s IH]; [done|]. cbn [encodeURIComponent]. rewrite one_segment_app, IH, andb_true_r.
  by destruct c as [[] [] [] [] [] [] [] []].
Qed.

Lemma digits_are_plain s acc n : parse_digits acc s = Some n -> one_segment s = true.
Proof.
  revert acc. induction s as [|c s IH]; intros acc H; [done|]. cbn in H. destruct (digit_value c) eqn:Ec; [|done].
  unfold one_segment in *. cbn. rewrite (IH _ H), andb_true_r. by destruct c as [[] [] [] [] [] [] [] []].
Qed.

Lemma encoded_unbroken s : unbroken (encodeURIComponent s) = true.
Proof.
  induction s as [|c s IH]; [done|]. cbn [encodeURIComponent]. rewrite unbroken_app, IH, andb_true_r.
  by destruct c as [[] [] [] [] [] [] [] []].
Qed.

Lemma digits_unbroken s acc n : parse_digits acc s = Some n -> unbroken s = true.
Proof.
  revert acc. induction s as [|c s IH]; intros acc H; [done|]. cbn in H. destruct (digit_value c) eqn:Ec; [|done].
  unfold unbroken in *. cbn [list_ascii_of_string forallb]. rewrite (IH _ H), andb_true_r.
  by destruct c as [[] [] [] [] [] [] [] []].
Qed.

(** A segment that begins with another character than a dot or a percent sign is plain. *)
Lemma plain_head c s : negb (Ascii.eqb (lower_char c) "." || Ascii.eqb (lower_char c) "%") = true -> plain (String c s) = true.
Proof.
  intros [H1 H2]%negb_true_iff%orb_false_iff. unfold plain, double_dot, single_dot. cbn -[lower].
  change (lower (String c s)) with (String (lower_char c) (lower s)). cbn. by rewrite H1, H2.
Qed.

Lemma encoded_id_is_plain raw id : parseWorkspaceId raw = Some id -> plain (encodeURIComponent id) = true.
Proof.
  unfold parseWorkspaceId. destruct raw as [|c raw]; [done|]. cbn [uuid_groups]. destruct (is_hex c) eqn:Hc; [|done].
  destruct (_ && _); [|done]. intros [= <-]. change (lower (String c raw)) with (String (lower_char c) (lower raw)).
  cbn [encodeURIComponent]. destruct c as [[] [] [] [] [] [] [] []]; try discriminate Hc; by apply plain_head.
Qed.

Lemma pretty_port_is_plain port : 1024 <= port ->
  one_segment (pretty port) = true /\ plain (pretty port) = true /\ unbroken (pretty port) = true.
Proof.
  intros Hp. destruct port as [|p|p]; [lia| |lia].
  assert (Hd : parse_digits 0 (pretty (Z.pos p)) = Some (Z.pos p)).
  { change (pretty (Z.pos p)) with (pretty_N_go (N.pos p) ""). by rewrite parse_digits_pretty_go. }
  split; [by eapply digits_are_plain|]. split; [|by eapply digits_unbroken].
  destruct (pretty (Z.pos p)) as [|c s]; [done|]. cbn in Hd.
  destruct (digit_value c) eqn:Ec; [|done]. apply plain_head. by destruct c as [[] [] [] [] [] [] [] []].
Qed.

(** The address of a preview, below the executor's address of the terminals. *)
Definition preview_address (id : string) (port : Z) (p : string) : string :=
  "/" +:+ encodeURIComponent id +:+ "/proxy/" +:+ pretty port +:+ "/" +:+ p.

Lemma preview_resolved raw id port base p : parseWorkspaceId raw = Some id -> 1024 <= port ->
  resolved base (preview_address id port p) =
  rev (follow_segments (pretty port :: "proxy" :: encodeURIComponent id :: rev base) (path_segments "" (url_input p))).
Proof.
  intros Hid Hp. destruct (pretty_port_is_plain port Hp) as (Ho & Hpl & Hu). unfold resolved, preview_address.
  assert (Hin : url_input ("/" +:+ encodeURIComponent id +:+ "/proxy/" +:+ pretty port +:+ "/" +:+ p) =
    String "/" (encodeURIComponent id +:+ String "/" ("proxy" +:+ String "/" (pretty port +:+ String "/" (url_input p))))).
  { pose proof (url_input_slash ("/" +:+ encodeURIComponent id +:+ "/proxy/" +:+ pretty port) p) as H.
    rewrite !string_app_assoc in H. apply H. rewrite !unbroken_app, encoded_unbroken, Hu. done. }
  rewrite Hin. change (path_segments "" (String "/" ?x)) with ("" :: path_segments "" x).
  rewrite path_segments_app by apply encoded_segment. rewrite (path_segments_app "proxy") by done. rewrite path_segments_app by done.
  change ("" +:+ ?x) with x. rewrite follow_plain by by eapply encoded_id_is_plain. rewrite follow_plain by done. by rewrite follow_plain.
Qed.

(** What follows the prefix of the preview in an address asks for the path ["/" +:+ p]. *)
Definition asks_for (rest p : string) : Prop :=
  rest = "/" +:+ p \/ rest = p /\ (p = "" \/ exists query, p = "?" +:+ query).

Lemma after_prefix_app x y : after_prefix x (x +:+ y) = Some y.
Proof. induction x as [|c x IH]; [done|]. cbn. by rewrite Ascii.eqb_refl. Qed.

Lemma path_of_preview raw rawPort rest p :
  asks_for rest p ->
  TerminalController.pathAndQuery raw rawPort
    ("/api/terminal/workspaces/" +:+ encodeURIComponent raw +:+ "/preview/" +:+ rawPort +:+ rest) = "/" +:+ p.
Proof.
  intros Hr. unfold TerminalController.pathAndQuery. cbv zeta.
  assert (Ha : "/api/terminal/workspaces/" +:+ encodeURIComponent raw +:+ "/preview/" +:+ rawPort +:+ rest =
    ("/api/terminal/workspaces/" +:+ encodeURIComponent raw +:+ "/preview/" +:+ rawPort) +:+ rest)
    by (by rewrite !string_app_assoc).
  rewrite Ha, after_prefix_app. cbn [default]. destruct Hr as [->|[-> [->|[query ->]]]]; try reflexivity.
  by destruct query.
Qed.

Section Previews.
Context `{Api : AuditApi} `{Crypto : NodeCrypto} {Parser : JsonParse} (baseUrl : string) {St : Type}.

(** C40. A preview sends the executor one request, with the method of the one it was given,
    to the address of the project and port it is for followed by the path and query that it
    was given, as they are, and records nothing.  While no segment of that path is two dots,
    written as they are or encoded, the request stays below the port; but one that begins
    with three of them reaches, with any method, any address of the terminals of the
    executor, such as that which deletes the disk of another project. *)
Theorem a_preview_may_leave_its_port raw rawPort id port req (gone : TermWorld St -> bool) (base : list string)
    (rest p : string) (v : TermWorld St) :
  parseWorkspaceId raw = Some id -> TerminalController.portOrFail rawPort = inr port ->
  (exists body, previewRequestBody req = inr body) ->
  pc_originalUrl req = "/api/terminal/workspaces/" +:+ encodeURIComponent raw +:+ "/preview/" +:+ rawPort +:+ rest ->
  asks_for rest p ->
  let v' := (run (TerminalController.preview baseUrl raw rawPort req (reads gone)) v).1 in
  let address := "/" +:+ encodeURIComponent id +:+ "/proxy/" +:+ pretty port +:+ "/" +:+ p in
  (exists rq, h_requests (tm_http v') = h_requests (tm_http v) ++ [rq] /\ rq_method rq = pc_method req /\
     rq_url rq = baseUrl +:+ address) /\
  log_of v' = log_of v /\
  (Forall (fun s => double_dot s = false) (path_segments "" (url_input p)) ->
     (base ++ [encodeURIComponent id; "proxy"; pretty port]) `prefix_of` resolved base address) /\
  (forall other, p = "../../../" +:+ other -> resolved base address = resolved base ("/" +:+ other)).
Proof.
  intros Hid Hport [body Hbody] Hurl Hasks v' address.
  set (rq := {| rq_method := pc_method req; rq_url := baseUrl +:+ address; rq_body := body |}).
  assert (Hp : 1024 <= port).
  { unfold TerminalController.portOrFail in Hport. destruct (in_range 1 5 _); [|done]. destruct (parse_digits 0 rawPort) as [n|]; [|done].
    destruct (in_range 1024 65535 n) eqn:E; [|done]. injection Hport as ->. by apply andb_true_iff in E as [?%Z.leb_le _]. }
  assert (Hsent : tm_http v' = tm_http (add_request rq v) /\ tm_world v' = tm_world v).
  { unfold v', TerminalController.preview, TerminalController.on_workspace, TerminalController.on_port, TerminalController.workspaceIdOrFail.
    rewrite Hid, Hport, Hbody, Hurl, (path_of_preview _ _ _ _ Hasks). cbn [TerminalController.lift_result bind].
    unfold proxy. rewrite run_bind. unfold fetch. cbn [run].
    change {| rq_method := _ |} with rq. destruct (h_answer _ _ rq) as [|st [] txt]; [|by split..].
    cbn [run bind reads]. by destruct (gone _). }
  destruct Hsent as [Hh Hw]. split; [exists rq; by rewrite Hh|].
  split; [unfold log_of; by rewrite Hw|]. change address with (preview_address id port p). rewrite (preview_resolved raw) by done. split.
  - intros Hs. destruct (follow_stays _ (pretty port :: "proxy" :: encodeURIComponent id :: rev base) Hs) as (ext & ->).
    rewrite rev_app_distr. cbn [rev]. rewrite rev_involutive, <- !app_assoc. exists (rev ext). by rewrite <- !app_assoc.
  - intros other ->. unfold resolved.
    change ("../../../" +:+ other) with ("../../.." +:+ String "/" other). rewrite url_input_slash by done.
    change ("/" +:+ other) with ("" +:+ String "/" other). rewrite url_input_slash by done.
    change (path_segments "" ("" +:+ String "/" (url_input other))) with ("" :: path_segments "" (url_input other)).
    change (path_segments "" ("../../.." +:+ String "/" (url_input other))) with (".." :: ".." :: ".." :: path_segments "" (url_input other)).
    destruct (path_segments "" (url_input other)) as [|s l] eqn:E; [by apply path_segments_ne in E|]. done.
Qed.
End Previews.

(** ** Examples *)

Module TerminalControllerExamples.
#[local] Existing Instance toy_crypto.
#[local] Existing Instance OwnerTerminalExamples.parser.
#[local] Existing Instance auditService.

Definition project : string := "0a1b2c3d-0000-4000-8000-00000000000f".
Definition api : string := "/api/terminal/workspaces/" +:+ project +:+ "/preview/3000".
Definition call (method address : string) : PreviewCall :=
  {| pc_method := method; pc_originalUrl := address; pc_headers := [("accept", "*/*"); ("authorization", "Bearer token")];
     pc_body := None; pc_readableEnded := true; pc_chunks := [] |}.
Definition asked (method address : string) : list string :=
  map rq_url (h_requests (tm_http (run (TerminalController.preview "http://executor/terminal/workspaces" project "3000"
    (call method address) (Ret false)) OwnerTerminalExamples.start_world).1)).

Example the_page_is_asked : asked "GET" (api +:+ "?x=1") =
  ["http://executor/terminal/workspaces/" +:+ project +:+ "/proxy/3000/?x=1"].
Proof. by vm_compute. Qed.

Example the_token_stays : previewRequestHeaders (call "GET" api) = [("accept", "*/*")].
Proof. reflexivity. Qed.

Example addresses : map (resolved ["terminal"; "workspaces"]) ["/p/proxy/3000/a/./b?c/d"; "/p/proxy/3000/%2E%2e\..\../q"] =
  [["terminal"; "workspaces"; "p"; "proxy"; "3000"; "a"; "b"]; ["terminal"; "workspaces"; "q"]].
Proof. by vm_compute. Qed.

(** A tab between two dots does not keep them apart. *)
Example breaks_are_dropped :
  resolved ["terminal"; "workspaces"] ("/p/proxy/3000/." +:+ String "009" "./x ") = ["terminal"; "workspaces"; "p"; "proxy"; "x"].
Proof. by vm_compute. Qed.

Example ports : map TerminalController.portOrFail ["3000"; "80"; "65535"; "070000"; "3e3"] =
  [inr 3000; inl (BadRequestException "Puerto no válido (1024–65535)."); inr 65535;
   inl (BadRequestException "Puerto no válido (1024–65535)."); inl (BadRequestException "Puerto no válido (1024–65535).")].
Proof. by vm_compute. Qed.
End TerminalControllerExamples.

(** ** The theorem at a concrete input *)

#[local] Existing Instance OwnerTerminalExamples.parser.

(** The disk of another project is deleted, and nothing is recorded. *)
Lemma a_preview_may_leave_its_port_witness :
  let v' := (run (TerminalController.preview "http://executor/terminal/workspaces" TerminalControllerExamples.project "3000"
    (TerminalControllerExamples.call "DELETE" (TerminalControllerExamples.api +:+ "/../../../other")) (reads (fun _ => false)))
    OwnerTerminalExamples.start_world).1 in
  let address := "/" +:+ TerminalControllerExamples.project +:+ "/proxy/3000/../../../other" in
  (exists rq, h_requests (tm_http v') = [rq] /\ rq_method rq = "DELETE" /\
     rq_url rq = "http://executor/terminal/workspaces" +:+ address) /\
  log_of v' = log_of OwnerTerminalExamples.start_world /\
  resolved ["terminal"; "workspaces"] address = ["terminal"; "workspaces"; "other"].
Proof.
  intros v' address. destruct (@a_preview_may_leave_its_port OwnerTerminalExamples.parser "http://executor/terminal/workspaces" unit
    TerminalControllerExamples.project "3000" TerminalControllerExamples.project 3000
    (TerminalControllerExamples.call "DELETE" (TerminalControllerExamples.api +:+ "/../../../other")) (fun _ => false)
    ["terminal"; "workspaces"] "/../../../other" "../../../other" OwnerTerminalExamples.start_world) as (H1 & H2 & _ & H4).
  - by vm_compute.
  - by vm_compute.
  - by exists None.
  - by vm_compute.
  - by left.
  - split; [exact H1|]. split; [exact H2|]. exact (H4 "other" eq_refl).
Defined.
