(* ===== verification/Vendors.v ===== *)
(** * Vendors: the models of Anthropic, Google and OpenAI

    [anthropic.provider.ts], [google.provider.ts] and [openai.provider.ts] of
    [src/model-provider]: how a request of the program becomes one of each vendor and how its
    answer comes back.  The SDKs of the vendors are parameters: one operation each, of the
    request that the provider builds. *)
From S2P Require Import Prelude Effects Js Registry Store AuditApi AuditLog Hitl Autonomy FeatureFlags Models Budget Sanitizer Agent.
From Stdlib Require Import QArith Qcanon.
Local Open Scope stdpp_scope.
Local Open Scope Z_scope.
Local Open Scope jin_scope.

(** [typeof output === 'string' ? output : JSON.stringify(output)] *)
Definition output_text (output : json) : string := match output with JStr s => s | _ => stringify output end.

(** [value ?? {}] *)
Definition or_object (input : json) : json := match input with JNull => JObj [] | _ => input end.

Definition effort_of (effort : string) : option ModelEffort :=
  if String.eqb effort "low" then Some effort_low
  else if String.eqb effort "medium" then Some effort_medium
  else if String.eqb effort "high" then Some effort_high else None.

(** ** anthropic.provider.ts *)

Inductive AnthropicBlock :=
| ab_text (text : string)
| ab_tool_use (id name : string) (input : json)
| ab_tool_result (tool_use_id content : string) (is_error : option bool).

Inductive AnthropicContent := ac_string (text : string) | ac_blocks (blocks : list AnthropicBlock).

Definition toAnthropicBlock (b : ModelMessageContentBlock) : AnthropicBlock :=
  match b with
  | block_text text => ab_text text
  | block_tool_use call => ab_tool_use (mtc_id call) (mtc_name call) (mtc_input call)
  | block_tool_result toolCallId output isError => ab_tool_result toolCallId (output_text output) isError
  end.

Definition toAnthropicContent (content : ModelMessageContent) : AnthropicContent :=
  match content with
  | content_string s => ac_string s
  | content_blocks l => ac_blocks (map toAnthropicBlock l)
  end.

Record AnthropicParams := {
  ap_model : string;
  ap_max_tokens : Z;
  ap_temperature : option Qc;
  ap_system : option string;
  ap_messages : list (Role * AnthropicContent);
  ap_tools : option (list ModelToolDeclaration);
  ap_thinking : ThinkingParams
}.

(** What the provider reads of a message of the vendor; a block of another type is [None]. *)
Record AnthropicMessage := {
  am_content : list (option (string + ModelToolCall));
  am_model : string;
  am_input_tokens : Z;
  am_output_tokens : Z;
  am_stop_reason : option string
}.

Class AnthropicSdk := {
  messages_create : AnthropicParams -> jin AnthropicMessage;
  (** [stream], whose listener hears each delta and the text so far *)
  messages_stream : AnthropicParams -> ModelStreamDeltaListener -> jin AnthropicMessage
}.

Module AnthropicProvider.
Definition toModelStopReason (stopReason : option string) : ModelStopReason :=
  match stopReason with
  | Some r => if String.eqb r "tool_use" then tool_use else if String.eqb r "max_tokens" then max_tokens
              else if String.eqb r "refusal" then refusal else end_turn
  | None => end_turn
  end.

Definition texts (content : list (option (string + ModelToolCall))) : list string :=
  omap (fun b => match b with Some (inl text) => Some text | _ => None end) content.
Definition calls (content : list (option (string + ModelToolCall))) : list ModelToolCall :=
  omap (fun b => match b with Some (inr call) => Some call | _ => None end) content.

Definition toCompletionResponse (message : AnthropicMessage) : ModelCompletionResponse := {|
  mcs_content := join "" (texts (am_content message)); mcs_modelId := am_model message;
  mcs_inputTokens := am_input_tokens message; mcs_outputTokens := am_output_tokens message;
  mcs_toolCalls := calls (am_content message); mcs_stopReason := toModelStopReason (am_stop_reason message) |}.

Definition is_enabled (thinking : ThinkingParams) : bool :=
  match thinking with thinking_enabled _ => true | _ => false end.

Definition buildCreateParams (modelId : string) (request : ModelCompletionRequest) : AnthropicParams :=
  let maxTokens := anthropicMaxTokens modelId (mcr_maxOutputTokens request) in
  let thinking := anthropicThinkingParams modelId (mcr_effort request ≫= effort_of) maxTokens in
  {| ap_model := modelId; ap_max_tokens := maxTokens;
     ap_temperature := if anthropicModelAcceptsSampling modelId && negb (is_enabled thinking)
                       then Some (mcr_temperature request) else None;
     ap_system := mcr_systemPrompt request;
     ap_messages := map (fun m => (mm_role m, toAnthropicContent (mm_content m))) (mcr_messages request);
     ap_tools := mcr_tools request; ap_thinking := thinking |}.

Definition complete {Sdk : AnthropicSdk} (modelId : string) (request : ModelCompletionRequest) : jin ModelCompletionResponse :=
  response <- messages_create (buildCreateParams modelId request) ;; Ret (toCompletionResponse response).

Definition completeStream {Sdk : AnthropicSdk} (modelId : string) (request : ModelCompletionRequest)
    (onDelta : ModelStreamDeltaListener) : jin ModelCompletionResponse :=
  finalMessage <- messages_stream (buildCreateParams modelId request) onDelta ;; Ret (toCompletionResponse finalMessage).

Definition provider {Sdk : AnthropicSdk} : ModelProviderClient :=
  {| pc_complete := complete; pc_completeStream := Some completeStream |}.
End AnthropicProvider.

(** ** google.provider.ts *)

Inductive Part :=
| part_text (text : string)
| part_functionCall (id name : string) (args : json)
| part_functionResponse (id name : string) (error : bool) (output : json).

Record GeminiRequest := {
  gr_model : string;
  gr_contents : list (Role * list Part);   (* [assistant] is the role [model] *)
  gr_systemInstruction : option string;
  gr_maxOutputTokens : Z;
  gr_temperature : Qc;
  gr_functionDeclarations : option (list ModelToolDeclaration)
}.

Record GeminiCall := { gc_id : option string; gc_name : option string; gc_args : option json }.

Record GeminiResponse := {
  gs_functionCalls : option (list GeminiCall);
  gs_text : option string;
  gs_modelVersion : option string;
  gs_promptTokenCount : option Z;
  gs_candidatesTokenCount : option Z;
  gs_finishReason : option string
}.

Class GoogleSdk := { generateContent : GeminiRequest -> jin GeminiResponse }.

Module GoogleProvider.
(** The entries of the map of one message, in order. *)
Definition named_calls (m : ModelMessage) : list (string * string) :=
  match mm_content m with
  | content_string _ => []
  | content_blocks l => omap (fun b => match b with block_tool_use c => Some (mtc_id c, mtc_name c) | _ => None end) l
  end.

Definition buildToolCallIdToNameMap (messages : list ModelMessage) : gmap string string :=
  fold_left (fun map kv => <[kv.1 := kv.2]> map) (concat (map named_calls messages)) ∅.

Definition toGeminiPart (names : gmap string string) (b : ModelMessageContentBlock) : Part :=
  match b with
  | block_text text => part_text text
  | block_tool_use call => part_functionCall (mtc_id call) (mtc_name call) (or_object (mtc_input call))
  | block_tool_result toolCallId output isError =>
      part_functionResponse toolCallId (default toolCallId (names !! toolCallId)) (default false isError) output
  end.

Definition toGeminiParts (content : ModelMessageContent) (names : gmap string string) : list Part :=
  match content with
  | content_string s => [part_text s]
  | content_blocks l => map (toGeminiPart names) l
  end.

Definition gemini_request (modelId : string) (request : ModelCompletionRequest) : GeminiRequest :=
  let names := buildToolCallIdToNameMap (mcr_messages request) in
  {| gr_model := modelId;
     gr_contents := map (fun m => (mm_role m, toGeminiParts (mm_content m) names)) (mcr_messages request);
     gr_systemInstruction := mcr_systemPrompt request; gr_maxOutputTokens := mcr_maxOutputTokens request;
     gr_temperature := mcr_temperature request; gr_functionDeclarations := mcr_tools request |}.

Definition toModelStopReason (hasFunctionCalls : bool) (finishReason : option string) : ModelStopReason :=
  if hasFunctionCalls then tool_use
  else match finishReason with
       | Some r => if String.eqb r "MAX_TOKENS" then max_tokens else end_turn
       | None => end_turn
       end.

(** The calls of an answer; one without an identifier is given a new one. *)
Fixpoint to_calls (l : list GeminiCall) : jin (list ModelToolCall) :=
  match l with
  | [] => Ret []
  | call :: l' =>
      id <- match gc_id call with Some id => Ret id | None => randomUUID end ;;
      rest <- to_calls l' ;;
      Ret ({| mtc_id := id; mtc_name := default "" (gc_name call); mtc_input := or_object (default JNull (gc_args call)) |} :: rest)
  end.

Definition complete {Sdk : GoogleSdk} (modelId : string) (request : ModelCompletionRequest) : jin ModelCompletionResponse :=
  response <- generateContent (gemini_request modelId request) ;;
  toolCalls <- to_calls (default [] (gs_functionCalls response)) ;;
  Ret {| mcs_content := default "" (gs_text response); mcs_modelId := default modelId (gs_modelVersion response);
         mcs_inputTokens := default 0 (gs_promptTokenCount response);
         mcs_outputTokens := default 0 (gs_candidatesTokenCount response); mcs_toolCalls := toolCalls;
         mcs_stopReason := toModelStopReason (0 <? length toolCalls)%nat (gs_finishReason response) |}.

Definition provider {Sdk : GoogleSdk} : ModelProviderClient := {| pc_complete := complete; pc_completeStream := None |}.
End GoogleProvider.

(** ** openai.provider.ts *)

(** A call of a function, with its arguments as text. *)
Record OpenAICall := { oc_id : string; oc_name : string; oc_arguments : string }.

Inductive OpenAIMessage :=
| om_system (content : string)
| om_user (content : string)
| om_assistant (content : option string) (tool_calls : list OpenAICall)
| om_tool (tool_call_id content : string).

Record OpenAIRequest := {
  or_model : string;
  or_messages : list OpenAIMessage;
  or_max_completion_tokens : Z;
  or_temperature : option Qc;
  or_reasoning_effort : option string;
  or_tools : option (list ModelToolDeclaration)
}.

(** The first choice of the answer, if any; the calls that are not of functions are left out. *)
Record OpenAIChoice := { och_content : option string; och_tool_calls : list OpenAICall; och_finish_reason : option string }.
Record OpenAIResponse := {
  os_choice : option OpenAIChoice;
  os_model : string;
  os_prompt_tokens : option Z;
  os_completion_tokens : option Z
}.

Class OpenAISdk := { chat_completions_create : OpenAIRequest -> jin OpenAIResponse }.

Module OpenAIProvider.
Definition textParts (l : list ModelMessageContentBlock) : list string :=
  omap (fun b => match b with block_text text => Some text | _ => None end) l.
Definition toolCalls (l : list ModelMessageContentBlock) : list OpenAICall :=
  omap (fun b => match b with
                 | block_tool_use c => Some {| oc_id := mtc_id c; oc_name := mtc_name c;
                                               oc_arguments := stringify (or_object (mtc_input c)) |}
                 | _ => None
                 end) l.
Definition toolResultMessages (l : list ModelMessageContentBlock) : list OpenAIMessage :=
  omap (fun b => match b with
                 | block_tool_result toolCallId output _ => Some (om_tool toolCallId (output_text output))
                 | _ => None
                 end) l.

(** What one message becomes: the results first, then its text and calls. *)
Definition of_message (m : ModelMessage) : list OpenAIMessage :=
  match mm_content m with
  | content_string s => [match mm_role m with assistant => om_assistant (Some s) [] | user => om_user s end]
  | content_blocks l =>
      toolResultMessages l ++
      match textParts l, toolCalls l with
      | [], [] => []
      | texts, calls => [om_assistant (match texts with [] => None | _ => Some (join "" texts) end) calls]
      end
  end.

Definition toOpenAIMessages (messages : list ModelMessage) : list OpenAIMessage := concat (map of_message messages).

Definition toModelStopReason (finishReason : option string) : ModelStopReason :=
  match finishReason with
  | Some r => if String.eqb r "tool_calls" then tool_use else if String.eqb r "length" then max_tokens
              else if String.eqb r "content_filter" then refusal else end_turn
  | None => end_turn
  end.

Section Provider.
Context {Parser : JsonParse}.

Definition parseToolArguments (rawArguments : string) : json := default (JObj []) (json_parse rawArguments).

Definition openai_request (modelId : string) (request : ModelCompletionRequest) : OpenAIRequest := {|
  or_model := modelId;
  or_messages := match mcr_systemPrompt request with Some s => [om_system s] | None => [] end
                 ++ toOpenAIMessages (mcr_messages request);
  or_max_completion_tokens := mcr_maxOutputTokens request;
  or_temperature := match mcr_effort request with None => Some (mcr_temperature request) | Some _ => None end;
  or_reasoning_effort := match mcr_tools request with None => mcr_effort request | Some _ => None end;
  or_tools := mcr_tools request |}.

Definition complete {Sdk : OpenAISdk} (modelId : string) (request : ModelCompletionRequest) : jin ModelCompletionResponse :=
  response <- chat_completions_create (openai_request modelId request) ;;
  let calls := match os_choice response with Some c => och_tool_calls c | None => [] end in
  Ret {| mcs_content := default "" (os_choice response ≫= och_content); mcs_modelId := os_model response;
         mcs_inputTokens := default 0 (os_prompt_tokens response);
         mcs_outputTokens := default 0 (os_completion_tokens response);
         mcs_toolCalls := map (fun c => {| mtc_id := oc_id c; mtc_name := oc_name c;
                                          mtc_input := parseToolArguments (oc_arguments c) |}) calls;
         mcs_stopReason := toModelStopReason (os_choice response ≫= och_finish_reason) |}.

Definition provider {Sdk : OpenAISdk} : ModelProviderClient := {| pc_complete := complete; pc_completeStream := None |}.
End Provider.
End OpenAIProvider.
