(* ===== verification/VendorSafety.v ===== *)
(** * VendorSafety: the conversations that the vendors are sent

    The vendors reject a request whose calls are not all answered: each answer of the model that
    calls tools has to be followed by the results of those calls, and a result has to follow
    its call.  This file states that rule for the messages of the program and for those of
    each vendor, and shows that the loop of the agent keeps it for the three of them. *)
From S2P Require Import Prelude Effects Js Registry Store AuditApi AuditLog Hitl Autonomy FeatureFlags Models Budget Sanitizer Agent Orchestrator TelegramBot Vendors.
From Stdlib Require Import QArith Qcanon.
Local Open Scope stdpp_scope.
Local Open Scope Z_scope.
Local Open Scope jin_scope.

(** ** The rule *)

(** What the rule sees of a message: its author, whether it says nothing at all, the calls
    that it makes and those that it answers. *)
Record Shape := { sh_role : Role; sh_empty : bool; sh_calls : list string; sh_results : list string }.

(** [pending] are the calls that wait for an answer before the message, the result those that
    wait after it. *)
Definition turn_step (pending : list string) (s : Shape) : option (list string) :=
  if sh_empty s then None
  else match sh_role s with
       | assistant => if decide (pending = [] /\ sh_results s = []) then Some (sh_calls s) else None
       | user => if decide (sh_results s = pending /\ sh_calls s = []) then Some [] else None
       end.

Section Scan.
Context {M : Type} (step : list string -> M -> option (list string)).

Fixpoint scan (pending : list string) (l : list M) : option (list string) :=
  match l with
  | [] => Some pending
  | m :: l' => match step pending m with Some q => scan q l' | None => None end
  end.

Lemma scan_app p l1 l2 : scan p (l1 ++ l2) = match scan p l1 with Some q => scan q l2 | None => None end.
Proof. revert p. induction l1 as [|m l1 IH]; intros p; [done|]. cbn. destruct (step p m); [apply IH|done]. Qed.
End Scan.

Lemma scan_map {M N} step (f : M -> N) p l : scan step p (map f l) = scan (fun q m => step q (f m)) p l.
Proof. revert p. induction l as [|m l IH]; intros p; [done|]. cbn. destruct (step p (f m)); [apply IH|done]. Qed.

Lemma scan_ext {M} (step step' : list string -> M -> option (list string)) p l :
  (forall q m, step q m = step' q m) -> scan step p l = scan step' p l.
Proof.
  intros H. revert p. induction l as [|m l IH]; intros p; [done|]. cbn. rewrite H.
  destruct (step' p m); [apply IH|done].
Qed.

(** *** Of the program *)

Definition call_ids (l : list ModelMessageContentBlock) : list string :=
  omap (fun b => match b with block_tool_use c => Some (mtc_id c) | _ => None end) l.
Definition result_ids (l : list ModelMessageContentBlock) : list string :=
  omap (fun b => match b with block_tool_result id _ _ => Some id | _ => None end) l.

Definition shape (m : ModelMessage) : Shape :=
  match mm_content m with
  | content_string _ => {| sh_role := mm_role m; sh_empty := false; sh_calls := []; sh_results := [] |}
  | content_blocks l => {| sh_role := mm_role m; sh_empty := (length l =? 0)%nat;
                           sh_calls := call_ids l; sh_results := result_ids l |}
  end.

Definition waiting (l : list ModelMessage) : option (list string) := scan (fun p m => turn_step p (shape m)) [] l.

(** A conversation where every call is answered and nothing else is. *)
Definition conversation_ok (l : list ModelMessage) : Prop := waiting l = Some [].

(** *** Of Anthropic *)

Definition anthropic_shape (m : Role * AnthropicContent) : Shape :=
  match m.2 with
  | ac_string _ => {| sh_role := m.1; sh_empty := false; sh_calls := []; sh_results := [] |}
  | ac_blocks l =>
      {| sh_role := m.1; sh_empty := (length l =? 0)%nat;
         sh_calls := omap (fun b => match b with ab_tool_use id _ _ => Some id | _ => None end) l;
         sh_results := omap (fun b => match b with ab_tool_result id _ _ => Some id | _ => None end) l |}
  end.

Definition anthropic_accepts (p : AnthropicParams) : bool :=
  bool_decide (scan (fun q m => turn_step q (anthropic_shape m)) [] (ap_messages p) = Some []).

(** *** Of Google *)

Definition gemini_shape (m : Role * list Part) : Shape := {|
  sh_role := m.1; sh_empty := (length m.2 =? 0)%nat;
  sh_calls := omap (fun p => match p with part_functionCall id _ _ => Some id | _ => None end) m.2;
  sh_results := omap (fun p => match p with part_functionResponse id _ _ _ => Some id | _ => None end) m.2 |}.

Definition gemini_accepts (r : GeminiRequest) : bool :=
  bool_decide (scan (fun q m => turn_step q (gemini_shape m)) [] (gr_contents r) = Some []).

(** *** Of OpenAI: a message for each result *)

Definition openai_step (pending : list string) (m : OpenAIMessage) : option (list string) :=
  match m, pending with
  | om_tool id _, p :: pending' => if String.eqb id p then Some pending' else None
  | om_assistant _ calls, [] => Some (map oc_id calls)
  | om_system _, [] | om_user _, [] => Some []
  | _, _ => None
  end.

Definition openai_accepts (r : OpenAIRequest) : bool :=
  bool_decide (scan openai_step [] (or_messages r) = Some []).

(** What the three would accept. *)
Definition vendors_accept (modelId : string) (r : ModelCompletionRequest) : bool :=
  anthropic_accepts (AnthropicProvider.buildCreateParams modelId r) &&
  gemini_accepts (GoogleProvider.gemini_request modelId r) &&
  openai_accepts (OpenAIProvider.openai_request modelId r).

Definition rejected : JinError := PlainError "400".

(** The same router, where a request that one of them would reject throws. *)
Definition vetted (modelId : string) (G : BudgetGuardedApi) : BudgetGuardedApi := {|
  guarded_complete := fun t r h s =>
    if vendors_accept modelId r then guarded_complete t r h s else Throw rejected;
  guarded_completeStream := fun t r l h s =>
    if vendors_accept modelId r then guarded_completeStream t r l h s else Throw rejected |}.

(** ** The translations keep the rule *)

Lemma omap_map {A B C} (f : A -> B) (g : B -> option C) l : omap g (map f l) = omap (fun x => g (f x)) l.
Proof. induction l as [|x l IH]; [done|]. cbn. destruct (g (f x)); [f_equal|]; exact IH. Qed.

Lemma omap_ext' {A C} (f g : A -> option C) (l : list A) : (forall x, f x = g x) -> omap f l = omap g l.
Proof. intros H. induction l as [|x l IH]; [done|]. cbn. rewrite H. destruct (g x); [f_equal|]; exact IH. Qed.

Lemma anthropic_keeps_the_shape m : anthropic_shape (mm_role m, toAnthropicContent (mm_content m)) = shape m.
Proof.
  unfold anthropic_shape, shape, toAnthropicContent. destruct m as [r [t|l]]; [done|]. cbn.
  rewrite !omap_map, length_map. f_equal; apply omap_ext'; by intros [].
Qed.

Lemma gemini_keeps_the_shape names m :
  gemini_shape (mm_role m, GoogleProvider.toGeminiParts (mm_content m) names) = shape m.
Proof.
  unfold gemini_shape, shape, GoogleProvider.toGeminiParts. destruct m as [r [t|l]]; [done|]. cbn.
  rewrite !omap_map, length_map. f_equal; apply omap_ext'; by intros [].
Qed.

Lemma tool_messages_answer l pending :
  scan openai_step (result_ids l ++ pending) (OpenAIProvider.toolResultMessages l) = Some pending.
Proof.
  induction l as [|[t|c|id o e] l IH]; [done|exact IH|exact IH|].
  unfold result_ids, OpenAIProvider.toolResultMessages in *. cbn. rewrite String.eqb_refl. exact IH.
Qed.

Lemma openai_calls l : map oc_id (OpenAIProvider.toolCalls l) = call_ids l.
Proof.
  unfold OpenAIProvider.toolCalls, call_ids.
  induction l as [|[t|c|id o e] l IH]; [done|exact IH|cbn; by f_equal|exact IH].
Qed.

(** The last message of a translation, if there is one, makes the calls of the message. *)
Lemma own_message_calls l :
  scan openai_step [] match OpenAIProvider.textParts l, OpenAIProvider.toolCalls l with
                      | [], [] => []
                      | texts, calls => [om_assistant (match texts with [] => None | _ => Some (join "" texts) end) calls]
                      end = Some (call_ids l).
Proof.
  rewrite <- openai_calls. destruct (OpenAIProvider.textParts l), (OpenAIProvider.toolCalls l); reflexivity.
Qed.

Lemma openai_message_keeps_the_rule p m q :
  turn_step p (shape m) = Some q -> scan openai_step p (OpenAIProvider.of_message m) = Some q.
Proof.
  unfold turn_step, shape, OpenAIProvider.of_message. destruct m as [r [t|l]]; cbn [mm_role mm_content].
  { cbn. destruct r; case_decide as H; [|done| |done]; intros [= <-]; destruct H; by subst p. }
  cbn. destruct (length l =? 0)%nat; [done|]. rewrite scan_app.
  destruct r; case_decide as H; [|done| |done]; intros [= <-].
  - destruct H as [<- Hc]. rewrite <- (app_nil_r (result_ids l)), tool_messages_answer, own_message_calls.
    by rewrite Hc.
  - destruct H as [-> Hr]. pose proof (tool_messages_answer l []) as Ht. rewrite Hr in Ht. cbn in Ht. rewrite Ht.
    apply own_message_calls.
Qed.

Lemma openai_keeps_the_rule p l q :
  scan (fun p m => turn_step p (shape m)) p l = Some q ->
  scan openai_step p (OpenAIProvider.toOpenAIMessages l) = Some q.
Proof.
  revert p. induction l as [|m l IH]; intros p; [done|]. cbn [scan].
  destruct (turn_step p (shape m)) as [q'|] eqn:E; [|done]. intros H.
  change (OpenAIProvider.toOpenAIMessages (m :: l)) with
    (OpenAIProvider.of_message m ++ OpenAIProvider.toOpenAIMessages l).
  rewrite scan_app, (openai_message_keeps_the_rule _ _ _ E). by apply IH.
Qed.

(** A conversation of the program is one for each vendor. *)
Lemma vendors_accept_conversations modelId r :
  conversation_ok (mcr_messages r) -> vendors_accept modelId r = true.
Proof.
  intros H. unfold vendors_accept. rewrite !andb_true_iff. splits; apply bool_decide_eq_true.
  - cbn. rewrite scan_map. rewrite <- H. apply scan_ext. intros q m. by rewrite anthropic_keeps_the_shape.
  - cbn. rewrite scan_map. rewrite <- H. apply scan_ext. intros q m. by rewrite gemini_keeps_the_shape.
  - cbn. rewrite scan_app. apply openai_keeps_the_rule in H.
    destruct (mcr_systemPrompt r); exact H.
Qed.

(** ** The loop of the agent *)

(** Two programs that do the same from any store, with a result that has [P]. *)
Definition agrees {A} (P : A -> Prop) (p' p : jin A) : Prop :=
  forall w, run p' w = run p w /\ match (run p w).2 with inr a => P a | inl _ => True end.

Lemma agrees_bind {A B} (P : A -> Prop) (Q : B -> Prop) (p' p : jin A) (k' k : A -> jin B) :
  agrees P p' p -> (forall a, P a -> agrees Q (k' a) (k a)) -> agrees Q (bind p' k') (bind p k).
Proof.
  intros Hp Hk w. rewrite !run_bind. destruct (Hp w) as [-> H].
  destruct (run p w) as [w1 [e|a]]; [done|]. by apply Hk.
Qed.

(** A program that returns from any store, with a result that has [P]. *)
Definition always_returns {A} (P : A -> Prop) (p : jin A) : Prop :=
  forall w, exists w' r, run p w = (w', inr r) /\ P r.

Definition any {A} (_ : A) : Prop := True.

Lemma returns_ret {A} (P : A -> Prop) a : P a -> always_returns P (Ret a : jin A).
Proof. intros H w. by exists w, a. Qed.

Lemma returns_bind {A B} (P : A -> Prop) (Q : B -> Prop) (p : jin A) (k : A -> jin B) :
  always_returns P p -> (forall a, P a -> always_returns Q (k a)) -> always_returns Q (bind p k).
Proof.
  intros Hp Hk w. rewrite run_bind. destruct (Hp w) as (w1 & a & -> & Ha). by apply Hk.
Qed.

Lemma returns_try {A B} (Q : B -> Prop) (p : jin A) (k : A -> jin B) h :
  (forall a, always_returns Q (k a)) -> (forall e, always_returns Q (h e)) ->
  always_returns Q (try_with p k h).
Proof.
  intros Hk Hh w. rewrite run_try_with. destruct (run p w) as [w1 [e|a]]; [apply Hh|apply Hk].
Qed.

Lemma returns_progress o e : always_returns any (Agent.progress o e).
Proof. destruct o as [l|]; [|by apply returns_ret]. intros w. by exists (l e w), tt. Qed.

Lemma agrees_returns {A} (P : A -> Prop) (p : jin A) : always_returns P p -> agrees P p p.
Proof. intros H w. split; [done|]. by destruct (H w) as (w' & a & -> & Ha). Qed.

Lemma agrees_ret {A} (P : A -> Prop) (a : A) : P a -> agrees P (Ret a) (Ret a : jin A).
Proof. intros. by apply agrees_returns, returns_ret. Qed.

Lemma agrees_same {A} (p' p : jin A) : p' = p -> agrees (fun _ => True) p' p.
Proof. intros -> w. split; [done|]. by destruct (run p w) as [? []]. Qed.

Lemma call_ids_app l1 l2 : call_ids (l1 ++ l2) = call_ids l1 ++ call_ids l2.
Proof. apply omap_app. Qed.
Lemma result_ids_app l1 l2 : result_ids (l1 ++ l2) = result_ids l1 ++ result_ids l2.
Proof. apply omap_app. Qed.

Lemma call_ids_of_calls calls : call_ids (map block_tool_use calls) = map mtc_id calls.
Proof. unfold call_ids. induction calls as [|c calls IH]; [done|]. cbn. by f_equal. Qed.
Lemma result_ids_of_calls calls : result_ids (map block_tool_use calls) = [].
Proof. unfold result_ids. by induction calls. Qed.

(** The blocks so far are the results of the calls [ids], in their order, and nothing else. *)
Definition answers (ids : list string) (st : CallState) : Prop :=
  result_ids (cst_toolResultBlocks st) = ids /\ call_ids (cst_toolResultBlocks st) = [] /\
  length (cst_toolResultBlocks st) = length ids.

Lemma answers_push ids st call output isError :
  answers ids st -> answers (ids ++ [mtc_id call]) (push_block (buildToolResultBlock (mtc_id call) output isError) st).
Proof.
  intros (Hr & Hc & Hl). unfold answers, push_block. cbn [cst_toolResultBlocks].
  rewrite result_ids_app, call_ids_app, !length_app, Hr, Hc, Hl. by destruct isError.
Qed.
#[local] Hint Resolve answers_push : core.

Section Loop.
Context `{Api : AuditApi} `{Crypto : NodeCrypto}.
Context (autonomy : AutonomyConfig) (config : AgentConfig) (executors : ToolExecutorRegistry).
Context (consolidate : string -> string -> jin unit) (describeCurrentDateTime : Z -> string)
        (zodMessage : json -> string).

Lemma real_call_answers call sessionId nonce actor messages o ids st :
  answers ids st -> always_returns (answers (ids ++ [mtc_id call]))
    (Agent.handleRealToolCall autonomy config executors call sessionId nonce actor messages o st).
Proof.
  intros Ha. unfold Agent.handleRealToolCall. eapply (returns_bind any); [apply returns_progress|]. intros _ _. cbv zeta.
  apply (returns_bind any).
  { unfold FeatureFlags.isIntegrationEnabled. case_match; intros w; by repeat eexists. }
  assert (Hrefuse : forall summary, always_returns (answers (ids ++ [mtc_id call])) (Agent.refuse o call summary st)).
  { intros summary. eapply (returns_bind any); [apply returns_progress|]. intros _ _. apply returns_ret. by auto. }
  intros enabled _.
  destruct (getToolDefinition (mtc_name call) ≫= td_integration) as [i|], enabled; try apply Hrefuse.
  all: case_match; [apply Hrefuse|].
  all: apply returns_try; [intros []|intros err]; cbv zeta.
  all: eapply (returns_bind any); [apply returns_progress|intros _ _; apply returns_ret, answers_push; exact Ha].
Qed.

Lemma every_call_is_answered calls sessionId nonce actor messages o ids st :
  answers ids st -> always_returns (answers (ids ++ map mtc_id calls))
    (Agent.handleToolCalls autonomy config executors zodMessage calls sessionId nonce actor messages o st).
Proof.
  revert ids st. induction calls as [|call calls IH]; intros ids st Ha; cbn [Agent.handleToolCalls map].
  { rewrite app_nil_r. by apply returns_ret. }
  replace (ids ++ mtc_id call :: map mtc_id calls) with ((ids ++ [mtc_id call]) ++ map mtc_id calls)
    by (by rewrite <- app_assoc).
  apply (returns_bind (answers (ids ++ [mtc_id call]))); [|intros st'; apply IH].
  case_match; [|case_match; [|by apply real_call_answers]]; cbv zeta.
  all: eapply (returns_bind any); [apply returns_progress|intros _ _; apply returns_ret].
  - unfold Agent.handleDeclarePlan. by destruct (parseDeclarePlan _); apply answers_push.
  - unfold Agent.handleUpdatePlanStep. destruct (parseUpdatePlanStep _) as [[[i s] note]|]; [|by apply answers_push].
    destruct (updatePlanStep _ _ _ _); by apply answers_push.
Qed.

Lemma conversation_with_a_text l r t :
  conversation_ok l -> conversation_ok (l ++ [{| mm_role := r; mm_content := content_string t |}]).
Proof.
  unfold conversation_ok, waiting. intros H. rewrite scan_app, H. cbn. by destruct r.
Qed.

(** The answer of the model with its calls, then their results. *)
Lemma conversation_with_calls l calls st' :
  conversation_ok l -> calls <> [] -> answers (map mtc_id calls) st' ->
  conversation_ok ((l ++ [{| mm_role := assistant; mm_content := content_blocks (map block_tool_use calls) |}])
    ++ [{| mm_role := user; mm_content := content_blocks (cst_toolResultBlocks st') |}]).
Proof.
  unfold conversation_ok, waiting. intros H Hne (Hr & Hc & Hl). rewrite <- app_assoc, scan_app, H.
  unfold scan, turn_step, shape. cbn [mm_content mm_role app sh_role sh_empty sh_calls sh_results].
  rewrite call_ids_of_calls, result_ids_of_calls, !length_map, Hr, Hc, Hl, length_map.
  destruct calls as [|c calls]; [done|]. cbn [length Nat.eqb].
  rewrite decide_True by done. by rewrite decide_True by done.
Qed.

(** What a compaction keeps is a conversation of its own. *)
Lemma conversation_from_a_turn l1 l2 m rest :
  conversation_ok (l1 ++ l2) -> l2 = m :: rest -> is_turn_start m = true -> conversation_ok l2.
Proof.
  unfold conversation_ok, waiting. rewrite scan_app. intros H -> Hm.
  destruct (scan _ [] l1) as [p|]; [|done]. enough (p = []) by (by subst p).
  unfold is_turn_start in Hm. destruct m as [[] [t|b]]; try done.
  cbn in H. unfold turn_step in H. cbn in H. case_decide as Hd; [|done]. by destruct Hd.
Qed.

Definition history_ok (r : AgentTurnResult) : Prop :=
  match atr_compactedHistory r with Some h => conversation_ok h | None => True end.

Context (modelId : string) (G : BudgetGuardedApi).

Lemma agrees_finalize sessionId messages text plan pendings n models :
  agc_preserveLastTurns config >= 1 -> conversation_ok messages ->
  agrees history_ok
    (Agent.finalizeTurn (Guarded := vetted modelId G) config consolidate sessionId messages text plan pendings n models)
    (Agent.finalizeTurn (Guarded := G) config consolidate sessionId messages text plan pendings n models).
Proof.
  intros Hp Hok. unfold Agent.finalizeTurn. cbv zeta.
  pose proof (compaction_keeps_the_last_turns messages (agc_maxHistoryTokens config)
    (agc_preserveLastTurns config) ltac:(lia)) as Hc.
  destruct (planHistoryCompaction _ _ _) as [cp|]; [|by apply agrees_ret].
  destruct Hc as (_ & Hsplit & _ & (m & rest & Hrest & Hm) & _).
  eapply (agrees_bind (fun o => match o with
    | Some m => exists t, m = {| mm_role := user; mm_content := content_string t |} | None => True end)).
  - intros w. split; [done|]. unfold HistoryCompaction.compact. rewrite run_try_with.
    destruct (run _ w) as [w1 [e|r]]; [done|]. cbv beta. rewrite run_bind, run_catch.
    destruct (run (consolidate _ _) w1) as [w2 [e|[]]]; cbn; by eexists.
  - intros [s|]; [|by intros _; apply agrees_ret]. intros [t ->]. apply agrees_ret. unfold history_ok. cbn.
    rewrite <- Hsplit in Hok. pose proof (conversation_from_a_turn _ _ _ _ Hok Hrest Hm) as H.
    unfold conversation_ok, waiting in *. cbn. exact H.
Qed.

Lemma agrees_call_model input sp tools messages n :
  conversation_ok messages ->
  agrees (fun _ => True)
    (Agent.call_model (Guarded := vetted modelId G) config input sp tools messages n)
    (Agent.call_model (Guarded := G) config input sp tools messages n).
Proof.
  intros Hok. apply agrees_same. unfold Agent.call_model. cbv zeta.
  destruct (ati_onProgress input); cbn [guarded_complete guarded_completeStream vetted];
    rewrite vendors_accept_conversations by exact Hok; reflexivity.
Qed.

Lemma agrees_turn_loop remaining input nonce sp actor tools messages st n models :
  agc_preserveLastTurns config >= 1 -> conversation_ok messages ->
  agrees history_ok
    (Agent.turn_loop (Guarded := vetted modelId G) autonomy config executors consolidate zodMessage remaining input
       nonce sp actor tools messages st n models)
    (Agent.turn_loop (Guarded := G) autonomy config executors consolidate zodMessage remaining input
       nonce sp actor tools messages st n models).
Proof.
  intros Hp. revert messages st n models.
  induction remaining as [|remaining IH]; intros messages st n models Hok; cbn [Agent.turn_loop].
  { by apply agrees_finalize. }
  cbv zeta. eapply agrees_bind; [by apply agrees_call_model|]. intros response _.
  destruct (negb _ || _) eqn:E; [by apply agrees_finalize|].
  apply orb_false_iff in E as [_ E]. apply Nat.eqb_neq in E.
  eapply agrees_bind; [apply agrees_returns, (every_call_is_answered _ _ _ _ _ _ []); by split|].
  intros st' Hst'. apply IH, conversation_with_calls; [done| |exact Hst'].
  by destruct (mcs_toolCalls response).
Qed.

(** C15. The vendors are only sent conversations that they take: whatever the models answer
    and whatever the tools do, a turn that starts from a conversation where every call is
    answered runs just as it would with a router that throws on a request whose translation
    for Anthropic, for Google or for OpenAI leaves a call without its result or has a result
    without its call; and the history that it hands back after a compaction is such a
    conversation again. *)
Theorem every_call_of_a_model_is_answered (input : AgentTurnInput) (w : World) :
  1 <= agc_preserveLastTurns config -> conversation_ok (default [] (ati_history input)) ->
  run (Agent.runTurn (Guarded := vetted modelId G) autonomy config executors consolidate
         describeCurrentDateTime zodMessage input) w =
  run (Agent.runTurn (Guarded := G) autonomy config executors consolidate
         describeCurrentDateTime zodMessage input) w /\
  forall w' r history,
    run (Agent.runTurn (Guarded := G) autonomy config executors consolidate
           describeCurrentDateTime zodMessage input) w = (w', inr r) ->
    atr_compactedHistory r = Some history -> conversation_ok history.
Proof.
  intros Hp Hok.
  assert (H : agrees history_ok
    (Agent.runTurn (Guarded := vetted modelId G) autonomy config executors consolidate
         describeCurrentDateTime zodMessage input)
    (Agent.runTurn (Guarded := G) autonomy config executors consolidate
         describeCurrentDateTime zodMessage input)).
  { unfold Agent.runTurn. eapply agrees_bind; [by apply agrees_same|]. intros nonce _.
    eapply agrees_bind; [by apply agrees_same|]. intros sp _.
    apply agrees_turn_loop; [lia|by apply conversation_with_a_text]. }
  destruct (H w) as [Heq Hr]. split; [exact Heq|]. intros w' r history Hrun Hh.
  rewrite Hrun in Hr. cbn in Hr. unfold history_ok in Hr. by rewrite Hh in Hr.
Qed.
End Loop.

(** *** Where the histories come from *)

Lemma texts_are_a_conversation l :
  Forall (fun m => exists t, mm_content m = content_string t) l -> conversation_ok l.
Proof.
  unfold conversation_ok, waiting. induction 1 as [|[r c] l [t Ht] _ IH]; [done|]. cbn in Ht. subst c.
  cbn in *. by destruct r.
Qed.

(** The transcript of Telegram and the board of the orchestrator are conversations. *)
Lemma the_transcript_is_a_conversation turns : conversation_ok (map history_message turns).
Proof. apply texts_are_a_conversation, Forall_map, Forall_true. intros t. by eexists. Qed.

Lemma the_board_is_a_conversation siblings : conversation_ok (buildBoardContextMessages siblings).
Proof.
  apply texts_are_a_conversation. destruct siblings; [constructor|].
  repeat constructor; by eexists.
Qed.

(** *** The names that Gemini is given *)

Lemma fold_insert_other (l : list (string * string)) (m : gmap string string) id :
  id ∉ map fst l -> fold_left (fun map kv => <[kv.1 := kv.2]> map) l m !! id = m !! id.
Proof.
  revert m. induction l as [|[k v] l IH]; intros m Hid; [done|]. cbn in *.
  apply not_elem_of_cons in Hid as [Hk Hid]. rewrite IH by done. by apply lookup_insert_ne.
Qed.

(** As long as the calls of a conversation have identifiers of their own, the answer to a
    call goes under the name of its function. *)
Lemma a_result_is_named_after_its_call messages id name :
  let calls := concat (map GoogleProvider.named_calls messages) in
  NoDup (map fst calls) -> (id, name) ∈ calls ->
  GoogleProvider.buildToolCallIdToNameMap messages !! id = Some name.
Proof.
  intros calls. unfold GoogleProvider.buildToolCallIdToNameMap. fold calls.
  generalize (∅ : gmap string string). induction calls as [|[k v] l IH]; intros m Hd Hin.
  { by apply elem_of_nil in Hin. }
  cbn in Hd. apply NoDup_cons in Hd as [Hk Hd]. cbn.
  apply elem_of_cons in Hin as [[= -> ->]|Hin]; [|by apply IH].
  rewrite fold_insert_other by done. by rewrite lookup_insert_eq.
Qed.

(** *** A turn over a history with a call *)
Module VendorExamples.
#[local] Existing Instance toy_crypto.

Definition past : list ModelMessage :=
  [{| mm_role := user; mm_content := content_string "¿qué hora es?" |};
   {| mm_role := assistant;
      mm_content := content_blocks [block_text "Miro."; block_tool_use {| mtc_id := "c0"; mtc_name := "readEmails"; mtc_input := JNull |}] |};
   {| mm_role := user; mm_content := content_blocks [block_tool_result "c0" (JStr "nada") (Some true)] |};
   {| mm_role := assistant; mm_content := content_string "No sé." |}].

Definition input : AgentTurnInput := {|
  ati_sessionId := "s"; ati_objective := "leé mi correo"; ati_history := Some past;
  ati_allowedTools := None; ati_actorLabel := None; ati_onProgress := None |}.

(** A result before the call that it answers. *)
Example results_need_their_calls : waiting (rev past) = None.
Proof. reflexivity. Qed.

Definition request : ModelCompletionRequest := {|
  mcr_systemPrompt := Some "s"; mcr_messages := past; mcr_maxOutputTokens := 10; mcr_temperature := 0%Qc;
  mcr_tools := None; mcr_effort := None |}.

Example past_for_openai :
  or_messages (OpenAIProvider.openai_request "gpt-6" request) =
  [om_system "s"; om_user "¿qué hora es?";
   om_assistant (Some "Miro.") [{| oc_id := "c0"; oc_name := "readEmails"; oc_arguments := "{}" |}];
   om_tool "c0" "nada"; om_assistant (Some "No sé.") []].
Proof. reflexivity. Qed.

Example past_for_gemini :
  gr_contents (GoogleProvider.gemini_request "gemini" request) =
  [(user, [part_text "¿qué hora es?"]);
   (assistant, [part_text "Miro."; part_functionCall "c0" "readEmails" (JObj [])]);
   (user, [part_functionResponse "c0" "readEmails" true (JStr "nada")]);
   (assistant, [part_text "No sé."])].
Proof. reflexivity. Qed.
End VendorExamples.

Lemma every_call_of_a_model_is_answered_witness :
  conversation_ok VendorExamples.past /\
  run (@Agent.runTurn (@auditService toy_crypto) toy_crypto
         (vetted "claude-sonnet-5" AgentExamples.scripted_router) AutonomyExamples.yaml_config
         AgentExamples.yaml_agent AgentExamples.mail_executors (fun _ _ => Ret tt) (fun _ => "hoy") (fun _ => "zod")
         VendorExamples.input) (empty_world 0) =
  run (@Agent.runTurn (@auditService toy_crypto) toy_crypto AgentExamples.scripted_router
         AutonomyExamples.yaml_config AgentExamples.yaml_agent AgentExamples.mail_executors
         (fun _ _ => Ret tt) (fun _ => "hoy") (fun _ => "zod") VendorExamples.input) (empty_world 0).
Proof.
  assert (Hp : conversation_ok VendorExamples.past) by reflexivity. split; [exact Hp|].
  apply (@every_call_of_a_model_is_answered (@auditService toy_crypto) toy_crypto AutonomyExamples.yaml_config
    AgentExamples.yaml_agent AgentExamples.mail_executors (fun _ _ => Ret tt) (fun _ => "hoy") (fun _ => "zod")
    "claude-sonnet-5" AgentExamples.scripted_router VendorExamples.input (empty_world 0));
    [vm_compute; discriminate|exact Hp].
Defined.
