(* ===== verification/Configs.v ===== *)
(** * Configs: the configuration files

    The schemas of [models-config.schema.ts], [agent-config.schema.ts],
    [autonomy-config.schema.ts], [budget-config.schema.ts], [feature-flags-config.schema.ts]
    and [mcp-config.schema.ts], and the files of [config/] as the repository has them.
    Reading a file and the parser of YAML are a parameter, the texts of the issues of Zod
    another one. *)
From S2P Require Import Prelude Effects Js Registry Store AuditApi AuditLog Hitl Autonomy FeatureFlags Models Budget Agent.
From Stdlib Require Import QArith Qcanon.
Local Open Scope stdpp_scope.
Local Open Scope Z_scope.

(** A value of YAML, with numbers that are exact and finite. *)
Inductive yaml :=
| YNull
| YBool (b : bool)
| YNum (q : Qc)
| YStr (s : string)
| YSeq (l : list yaml)
| YMap (l : list (string * yaml)).

Definition YInt (z : Z) : yaml := YNum (qc_of_Z z).
(** A decimal with [n] digits after the point. *)
Definition YDec (digits : Z) (n : nat) : yaml := YNum (qc_of_Z digits / qc_of_Z (10 ^ Z.of_nat n))%Qc.

(** ** The schemas of Zod that the files use *)

(** What a schema makes of a value, [undefined] among them; [None] is an issue. *)
Definition schema (A : Type) : Type := option yaml -> option A.

Module Zod.
Definition string_ : schema string := fun v => match v with Some (YStr s) => Some s | _ => None end.
Definition min1 : schema string := fun v => s ← string_ v; if String.eqb s "" then None else Some s.
Definition boolean : schema bool := fun v => match v with Some (YBool b) => Some b | _ => None end.
Definition number : schema Qc := fun v => match v with Some (YNum q) => Some q | _ => None end.

Definition MAX_SAFE_INTEGER : Z := 2 ^ 53 - 1.

(** [z.number().int()]: an integer that a number represents without doubt. *)
Definition int : schema Z := fun v =>
  q ← number v;
  if (Pos.eqb (Qden (this q)) 1 && (Z.abs (Qnum (this q)) <=? MAX_SAFE_INTEGER)) then Some (Qnum (this q)) else None.

Definition refine {A} (p : A -> bool) (s : schema A) : schema A := fun v => a ← s v; if p a then Some a else None.
Definition positive_int : schema Z := refine (fun z => 0 <? z) int.
Definition positive : schema Qc := refine (fun q => negb (qc_le q 0)) number.
Definition non_negative : schema Qc := refine (fun q => qc_le 0 q) number.

Definition optional {A} (s : schema A) : schema (option A) :=
  fun v => match v with None => Some None | _ => Some <$> s v end.
Definition default_ {A} (d : A) (s : schema A) : schema A := fun v => match v with None => Some d | _ => s v end.

Definition enum {A} (l : list (string * A)) : schema A :=
  fun v => s ← string_ v; snd <$> List.find (fun kv => String.eqb kv.1 s) l.

Definition array {A} (s : schema A) : schema (list A) :=
  fun v => match v with Some (YSeq l) => mapM (fun x => s (Some x)) l | _ => None end.

Definition record {A} (s : schema A) : schema (gmap string A) :=
  fun v => match v with
           | Some (YMap l) => list_to_map <$> mapM (fun kv => a ← s (Some kv.2); Some (kv.1, a)) l
           | _ => None
           end.

(** [z.object]: the fields are read off the value. *)
Definition field (key : string) (l : list (string * yaml)) : option yaml :=
  snd <$> List.find (fun kv => String.eqb kv.1 key) l.
Definition object {A} (fields : list (string * yaml) -> option A) : schema A :=
  fun v => match v with Some (YMap l) => fields l | _ => None end.
End Zod.

(** What reads a file and parses it as YAML, or throws. *)
Class ConfigFiles := { load_yaml : string -> JinError + option yaml; zod_issues : option yaml -> string }.

Section Files.
Context {Files : ConfigFiles}.

(** [safeParse], and the error that lists the issues. *)
Definition parse_or_throw {A} (what : string) (s : schema A) (raw : option yaml) : JinError + A :=
  match s raw with
  | Some a => inr a
  | None => inl (PlainError (what +:+ " inválido:" +:+ newline +:+ zod_issues raw))
  end.

(** [parse(load(readFileSync(filePath)))] *)
Definition load_with {A} (parse : option yaml -> JinError + A) (filePath : string) : JinError + A :=
  match load_yaml filePath with inl e => inl e | inr raw => parse raw end.

(** ** models-config.schema.ts *)

(** The fields of a profile, read off the file. *)
Definition ModelProfileYamlSchema : schema ModelProfileConfig := Zod.object (fun l =>
  description ← Zod.min1 (Zod.field "description" l);
  primary ← Zod.min1 (Zod.field "primary" l);
  fallback ← Zod.min1 (Zod.field "fallback" l);
  max_tokens_input ← Zod.positive_int (Zod.field "max_tokens_input" l);
  max_tokens_output ← Zod.positive_int (Zod.field "max_tokens_output" l);
  temperature ← Zod.refine (fun q => qc_le 0 q && qc_le q (qc_of_Z 2)) Zod.number (Zod.field "temperature" l);
  Some {| mpc_description := description; mpc_primary := primary; mpc_fallback := fallback;
          mpc_maxTokensInput := max_tokens_input; mpc_maxTokensOutput := max_tokens_output;
          mpc_temperature := temperature |}).

Definition TASK_PROFILES : list string :=
  ["reasoning_heavy"; "coding_default"; "long_context"; "extraction_fast"; "chat_conversational";
   "code_execution_planner"; "memory_consolidation"; "history_compaction"; "vision_analysis"].

Definition ModelsYamlSchema : schema ModelsConfig := Zod.object (fun l =>
  Zod.object (fun profiles =>
    list_to_map <$> mapM (fun name => p ← ModelProfileYamlSchema (Zod.field name profiles); Some (name, p)) TASK_PROFILES)
  (Zod.field "profiles" l)).

Definition parseModelsConfig : option yaml -> JinError + ModelsConfig :=
  parse_or_throw "config/models.yaml" ModelsYamlSchema.
Definition loadModelsConfig : string -> JinError + ModelsConfig := load_with parseModelsConfig.

Definition ModelPriceYamlSchema : schema ModelPrice := Zod.object (fun l =>
  input_per_million ← Zod.non_negative (Zod.field "input_per_million" l);
  output_per_million ← Zod.non_negative (Zod.field "output_per_million" l);
  Some {| mp_inputPerMillion := input_per_million; mp_outputPerMillion := output_per_million |}).

Definition ModelPricesYamlSchema : schema ModelPrices := Zod.object (fun l =>
  Zod.record ModelPriceYamlSchema (Zod.field "model_prices" l)).

Definition parseModelPrices : option yaml -> JinError + ModelPrices :=
  parse_or_throw "config/models.yaml (model_prices)" ModelPricesYamlSchema.
Definition loadModelPrices : string -> JinError + ModelPrices := load_with parseModelPrices.

Definition ChatOptionYamlSchema : schema ChatModelOption := Zod.object (fun l =>
  vendor ← Zod.enum [("anthropic", anthropic); ("google", google); ("openai", openai)] (Zod.field "vendor" l);
  model ← Zod.min1 (Zod.field "model" l);
  label ← Zod.min1 (Zod.field "label" l);
  supports_effort ← Zod.boolean (Zod.field "supports_effort" l);
  Some {| cmo_vendor := vendor; cmo_modelId := model; cmo_label := label; cmo_supportsEffort := supports_effort |}).

Definition not_empty {A} (l : list A) : bool := match l with [] => false | _ => true end.

Definition ChatOptionsYamlSchema : schema (list ChatModelOption) := Zod.object (fun l =>
  Zod.refine not_empty (Zod.array ChatOptionYamlSchema) (Zod.field "chat_options" l)).

Definition parseChatOptions : option yaml -> JinError + list ChatModelOption :=
  parse_or_throw "config/models.yaml (chat_options)" ChatOptionsYamlSchema.
Definition loadChatOptions : string -> JinError + list ChatModelOption := load_with parseChatOptions.

(** ** agent-config.schema.ts *)

Definition AgentYamlSchema : schema AgentConfig := Zod.object (fun l =>
  max_iterations_per_turn ← Zod.positive_int (Zod.field "max_iterations_per_turn" l);
  max_consecutive_tool_failures ← Zod.positive_int (Zod.field "max_consecutive_tool_failures" l);
  max_concurrent_sub_agents ← Zod.positive_int (Zod.field "max_concurrent_sub_agents" l);
  max_history_tokens ← Zod.positive_int (Zod.field "max_history_tokens" l);
  preserve_last_turns ← Zod.refine (fun z => 1 <=? z) Zod.int (Zod.field "preserve_last_turns" l);
  max_output_tokens ← Zod.refine (fun z => z <=? 32000) Zod.positive_int (Zod.field "max_output_tokens" l);
  Some {| agc_maxIterationsPerTurn := max_iterations_per_turn;
          agc_maxConsecutiveToolFailures := max_consecutive_tool_failures;
          agc_maxConcurrentSubAgents := max_concurrent_sub_agents;
          agc_maxHistoryTokens := max_history_tokens; agc_preserveLastTurns := preserve_last_turns;
          agc_maxOutputTokens := max_output_tokens |}).

Definition parseAgentConfig : option yaml -> JinError + AgentConfig := parse_or_throw "config/agent.yaml" AgentYamlSchema.
Definition loadAgentConfig : string -> JinError + AgentConfig := load_with parseAgentConfig.

(** ** autonomy-config.schema.ts *)

Definition ModeLimitsSchema : schema ModeLimits :=
  Zod.refine (fun v => ml_defaultHours v <=? ml_maxHours v) (Zod.object (fun l =>
    default_hours ← Zod.positive_int (Zod.field "default_hours" l);
    max_hours ← Zod.positive_int (Zod.field "max_hours" l);
    Some {| ml_defaultHours := default_hours; ml_maxHours := max_hours |})).

Definition AutonomyYamlSchema : schema AutonomyConfig := Zod.object (fun l =>
  semi_auto ← Zod.default_ {| ml_defaultHours := 24; ml_maxHours := 72 |} ModeLimitsSchema (Zod.field "semi_auto" l);
  auto ← Zod.default_ {| ml_defaultHours := 4; ml_maxHours := 24 |} ModeLimitsSchema (Zod.field "auto" l);
  circuit_breaker ← Zod.default_ 20 (Zod.object (fun b =>
    Zod.positive_int (Zod.field "max_relaxed_actions_per_hour" b))) (Zod.field "circuit_breaker" l);
  Some {| ac_semiAuto := semi_auto; ac_auto := auto; ac_maxRelaxedActionsPerHour := circuit_breaker |}).

(** [raw ?? {}] *)
Definition parseAutonomyConfig (raw : option yaml) : JinError + AutonomyConfig :=
  parse_or_throw "config/autonomy.yaml" AutonomyYamlSchema
    (match raw with None | Some YNull => Some (YMap []) | _ => raw end).
Definition loadAutonomyConfig : string -> JinError + AutonomyConfig := load_with parseAutonomyConfig.

(** ** budget-config.schema.ts *)

Definition BudgetYamlSchema : schema BudgetConfig := Zod.object (fun l =>
  session_max_input_tokens ← Zod.positive_int (Zod.field "session_max_input_tokens" l);
  session_max_output_tokens ← Zod.positive_int (Zod.field "session_max_output_tokens" l);
  daily_max_tokens ← Zod.positive_int (Zod.field "daily_max_tokens" l);
  daily_max_usd ← Zod.positive (Zod.field "daily_max_usd" l);
  runaway_multiplier ← Zod.positive (Zod.field "runaway_multiplier" l);
  runaway_lookback_hours ← Zod.positive_int (Zod.field "runaway_lookback_hours" l);
  runaway_min_hourly_tokens ← Zod.positive_int (Zod.field "runaway_min_hourly_tokens" l);
  Some {| sessionMaxInputTokens := session_max_input_tokens; sessionMaxOutputTokens := session_max_output_tokens;
          dailyMaxTokens := daily_max_tokens; dailyMaxUsd := daily_max_usd; runawayMultiplier := runaway_multiplier;
          runawayLookbackHours := runaway_lookback_hours; runawayMinHourlyTokens := runaway_min_hourly_tokens |}).

Definition parseBudgetConfig : option yaml -> JinError + BudgetConfig :=
  parse_or_throw "config/budget.yaml" BudgetYamlSchema.
Definition loadBudgetConfig : string -> JinError + BudgetConfig := load_with parseBudgetConfig.

(** ** feature-flags-config.schema.ts *)

Definition HitlLevelSchema : schema HitlLevel := fun v => s ← Zod.string_ v; parseHitlLevel s.

Definition enabled_schema : schema bool := Zod.object (fun l => Zod.boolean (Zod.field "enabled" l)).

Definition IntegrationsSchema : schema (IntegrationName -> bool) :=
  Zod.default_ (fun _ => true) (Zod.object (fun l =>
    canvas ← enabled_schema (Zod.field "canvas" l);
    google ← enabled_schema (Zod.field "google" l);
    mcp ← enabled_schema (Zod.field "mcp" l);
    telegram ← enabled_schema (Zod.field "telegram" l);
    Some (fun i => match i with Canvas => canvas | Google => google | Mcp => mcp | Telegram => telegram end))).

Definition FeatureFlagsYamlSchema : schema FeatureFlagsConfig := Zod.object (fun l =>
  integrations ← IntegrationsSchema (Zod.field "integrations" l);
  modelRouting ← Zod.default_ ∅ (Zod.record (Zod.object (fun r =>
    Zod.optional Zod.string_ (Zod.field "primary" r)))) (Zod.field "modelRouting" l);
  hitlOverrides ← Zod.default_ ∅ (Zod.record HitlLevelSchema) (Zod.field "hitlOverrides" l);
  Some {| ff_integrations := integrations; ff_modelRouting := modelRouting; ff_hitlOverrides := hitlOverrides |}).

Definition parseFeatureFlagsConfig : option yaml -> JinError + FeatureFlagsConfig :=
  parse_or_throw "config/feature-flags.yaml" FeatureFlagsYamlSchema.
Definition loadFeatureFlagsConfig : string -> JinError + FeatureFlagsConfig := load_with parseFeatureFlagsConfig.
End Files.

(** ** mcp-config.schema.ts *)

Record McpServerConfig := { mcp_name : string; mcp_url : string; mcp_description : string }.
Abbreviation McpServersConfig := (list McpServerConfig).

(** Whether [new URL(s)] takes the text. *)
Class UrlSyntax := { is_url : string -> bool }.

Section Mcp.
Context {Files : ConfigFiles} {Urls : UrlSyntax}.

Definition McpServerYamlSchema : schema McpServerConfig := Zod.object (fun l =>
  name ← Zod.min1 (Zod.field "name" l);
  url ← Zod.refine is_url Zod.string_ (Zod.field "url" l);
  description ← Zod.min1 (Zod.field "description" l);
  Some {| mcp_name := name; mcp_url := url; mcp_description := description |}).

Definition McpServersYamlSchema : schema McpServersConfig := Zod.object (fun l =>
  Zod.refine not_empty (Zod.array McpServerYamlSchema) (Zod.field "servers" l)).

Definition parseMcpServersConfig : option yaml -> JinError + McpServersConfig :=
  parse_or_throw "config/mcp-servers.yaml" McpServersYamlSchema.
Definition loadMcpServersConfig : string -> JinError + McpServersConfig := load_with parseMcpServersConfig.
End Mcp.

(** ** What the schemas accept *)

Lemma object_Some {A} (fields : list (string * yaml) -> option A) v a :
  Zod.object fields v = Some a -> exists l, v = Some (YMap l) /\ fields l = Some a.
Proof. unfold Zod.object. intros H. repeat case_match; try done. by eexists. Qed.

Lemma refine_Some {A} p (s : schema A) v a : Zod.refine p s v = Some a -> s v = Some a /\ p a = true.
Proof.
  unfold Zod.refine. intros H. apply bind_Some in H as (x & Hx & H). destruct (p x) eqn:E; [|done].
  by injection H as <-.
Qed.

Lemma default_Some {A} (d : A) s v a : Zod.default_ d s v = Some a -> a = d \/ exists y, s (Some y) = Some a.
Proof. unfold Zod.default_. destruct v as [y|]; [intros; right; by exists y|]. intros [= <-]. by left. Qed.

Lemma positive_int_Some v z : Zod.positive_int v = Some z -> 0 < z <= Zod.MAX_SAFE_INTEGER.
Proof.
  intros H. apply refine_Some in H as [H Hp]. unfold Zod.int in H. apply bind_Some in H as (q & _ & H).
  destruct (_ && _) eqn:E; [|done]. injection H as <-. apply andb_true_iff in E as [_ E]. lia.
Qed.

Lemma qc_lt_le a b : qc_le a b = false -> Qclt b a.
Proof.
  unfold qc_le, Qclt. intros H. apply Qnot_le_lt. intros Hle. apply Qle_bool_iff in Hle. congruence.
Qed.

Lemma positive_Some v q : Zod.positive v = Some q -> Qclt 0 q.
Proof. intros H. apply refine_Some in H as [_ Hp]. apply qc_lt_le. by destruct (qc_le q 0). Qed.

Lemma non_negative_Some v q : Zod.non_negative v = Some q -> Qcle 0 q.
Proof. intros H. apply refine_Some in H as [_ Hp]. by apply Qle_bool_iff. Qed.

(** Take a schema that accepted apart into what its fields accepted. *)
Ltac accepted H :=
  repeat match type of H with
  | Zod.object _ _ = Some _ => apply object_Some in H as (? & _ & H)
  | (_ ≫= _) = Some _ => let x := fresh "x" in let Hx := fresh "Hx" in apply bind_Some in H as (x & Hx & H)
  end.

Lemma parse_inr {A} {Files : ConfigFiles} what (s : schema A) raw a :
  parse_or_throw what s raw = inr a -> s raw = Some a.
Proof. unfold parse_or_throw. by destruct (s raw); [intros [= ->]|]. Qed.

Lemma agent_schema_ok raw c : AgentYamlSchema raw = Some c -> agent_config_ok c.
Proof.
  intros H. unfold AgentYamlSchema in H. accepted H. injection H as <-. unfold agent_config_ok. cbn.
  apply positive_int_Some in Hx, Hx0, Hx1, Hx2. apply refine_Some in Hx3 as [_ H3], Hx4 as [H4 H5].
  apply positive_int_Some in H4. lia.
Qed.

Lemma limits_schema_ok raw l : ModeLimitsSchema raw = Some l -> limits_valid l.
Proof.
  intros H. apply refine_Some in H as [H Hle]. accepted H. injection H as <-. cbn in Hle.
  apply positive_int_Some in Hx, Hx0. unfold limits_valid. cbn. lia.
Qed.

Lemma autonomy_schema_ok raw c : AutonomyYamlSchema raw = Some c -> config_valid c.
Proof.
  intros H. unfold AutonomyYamlSchema in H. accepted H. injection H as <-. unfold config_valid. cbn.
  apply default_Some in Hx, Hx0, Hx1. splits.
  - destruct Hx as [->|[y Hy]]; [unfold limits_valid; cbn; lia|by eapply limits_schema_ok].
  - destruct Hx0 as [->|[y Hy]]; [unfold limits_valid; cbn; lia|by eapply limits_schema_ok].
  - destruct Hx1 as [->|[y Hy]]; [lia|]. accepted Hy. apply positive_int_Some in Hy. lia.
Qed.

Lemma budget_schema_ok raw c : BudgetYamlSchema raw = Some c -> budget_config_ok c.
Proof.
  intros H. unfold BudgetYamlSchema in H. accepted H. injection H as <-. unfold budget_config_ok. cbn.
  apply positive_int_Some in Hx, Hx0, Hx1, Hx4, Hx5. apply positive_Some in Hx2, Hx3. splits; (lia || done).
Qed.

Lemma min1_Some v x : Zod.min1 v = Some x -> x <> "".
Proof.
  unfold Zod.min1. intros H. accepted H. destruct (String.eqb_spec x0 ""); [done|]. by injection H as <-.
Qed.

Lemma profile_schema_ok raw p :
  ModelProfileYamlSchema raw = Some p -> mpc_primary p <> "" /\ mpc_fallback p <> "".
Proof.
  intros H. unfold ModelProfileYamlSchema in H. accepted H. injection H as <-. cbn.
  by apply min1_Some in Hx0, Hx1.
Qed.

(** A table read key by key has every key. *)
Lemma mapM_keys {A} (read : string -> option A) keys entries :
  mapM (fun name => a ← read name; Some (name, a)) keys = Some entries ->
  forall key, key ∈ keys -> exists a, read key = Some a /\ (list_to_map entries : gmap string A) !! key = Some a.
Proof.
  revert entries. induction keys as [|name keys IH]; intros entries H key Hin; [by apply elem_of_nil in Hin|].
  cbn in H. apply bind_Some in H as (e & He & H). apply bind_Some in He as (a & Ha & [= <-]).
  apply bind_Some in H as (rest & Hrest & [= <-]). cbn.
  destruct (decide (key = name)) as [->|Hne].
  - exists a. split; [done|apply lookup_insert_eq].
  - apply elem_of_cons in Hin as [?|Hin]; [done|]. rewrite lookup_insert_ne by done. by apply IH.
Qed.

Lemma models_schema_ok raw profiles name :
  ModelsYamlSchema raw = Some profiles -> name ∈ TASK_PROFILES ->
  exists p, profiles !! name = Some p /\ mpc_primary p <> "" /\ mpc_fallback p <> "".
Proof.
  intros H Hin. unfold ModelsYamlSchema in H. accepted H.
  destruct (mapM _ _) as [entries|] eqn:E; [|done]. injection H as <-.
  destruct (mapM_keys (fun name => ModelProfileYamlSchema (Zod.field name x0)) _ _ E name Hin) as (p & Hp & Hl).
  exists p. split; [exact Hl|by eapply profile_schema_ok].
Qed.

Lemma prices_schema_ok raw prices modelId price :
  ModelPricesYamlSchema raw = Some prices -> prices !! modelId = Some price ->
  Qcle 0 (mp_inputPerMillion price) /\ Qcle 0 (mp_outputPerMillion price).
Proof.
  intros H Hl. unfold ModelPricesYamlSchema in H. accepted H. unfold Zod.record in H.
  destruct (Zod.field _ _) as [[| | | | |l]|]; try done. destruct (mapM _ _) as [entries|] eqn:E; [|done].
  injection H as <-. apply elem_of_list_to_map_2 in Hl. apply mapM_Some_1 in E.
  apply list_elem_of_lookup in Hl as [i Hi].
  apply (Forall2_lookup_r _ _ _ _ _ E) in Hi as ([k v] & _ & Hv).
  apply bind_Some in Hv as (a & Ha & [= <- <-]).
  unfold ModelPriceYamlSchema in Ha. accepted Ha. injection Ha as <-. cbn.
  by apply non_negative_Some in Hx, Hx0.
Qed.

Section Accepted.
Context {Files : ConfigFiles}.

(** C30. What the process starts with is what the rest of the development assumes: whatever
    the files of [config/] hold, a configuration of the agent, of the autonomy modes or of
    the budget that its parser accepts is within the limits that their theorems ask for, a
    table of models that is accepted has a model with a name for each of the nine tasks,
    whatever the hints of a call, and no price is negative. *)
Theorem accepted_configurations_are_valid (raw : option yaml) :
  (forall c, parseAgentConfig raw = inr c -> agent_config_ok c) /\
  (forall c, parseAutonomyConfig raw = inr c -> config_valid c) /\
  (forall c, parseBudgetConfig raw = inr c -> budget_config_ok c) /\
  (forall profiles taskProfile hints, parseModelsConfig raw = inr profiles -> taskProfile ∈ TASK_PROFILES ->
     exists m, selectModel profiles taskProfile hints = inr m /\ sm_modelId m <> "") /\
  (forall prices modelId price, parseModelPrices raw = inr prices -> prices !! modelId = Some price ->
     Qcle 0 (mp_inputPerMillion price) /\ Qcle 0 (mp_outputPerMillion price)).
Proof.
  splits.
  - intros c H%parse_inr. by eapply agent_schema_ok.
  - intros c H%parse_inr. by eapply autonomy_schema_ok.
  - intros c H%parse_inr. by eapply budget_schema_ok.
  - intros profiles t hints H%parse_inr Ht. destruct (models_schema_ok _ _ _ H Ht) as (p & Hp & H1 & H2).
    unfold selectModel. rewrite Hp. eexists. split; [reflexivity|]. cbn [sm_modelId]. by case_match.
  - intros prices m price H%parse_inr Hl. by eapply prices_schema_ok.
Qed.
End Accepted.

(** ** The files of the repository *)

Module Shipped.
Definition models_yaml : yaml :=
  YMap [
    ("profiles", YMap [
      ("reasoning_heavy", YMap [
        ("description", YStr "Razonamiento complejo, debug, arquitectura");
        ("primary", YStr "claude-opus-4-8");
        ("fallback", YStr "claude-sonnet-5");
        ("max_tokens_input", YInt 200000);
        ("max_tokens_output", YInt 8000);
        ("temperature", YDec 3 1)]);
      ("coding_default", YMap [
        ("description", YStr "Generación y edición de código diario");
        ("primary", YStr "claude-sonnet-5");
        ("fallback", YStr "gemini-3.5-flash");
        ("max_tokens_input", YInt 100000);
        ("max_tokens_output", YInt 4000);
        ("temperature", YDec 2 1)]);
      ("long_context", YMap [
        ("description", YStr "Análisis de documentos largos, PDFs, hilos de correo");
        ("primary", YStr "gemini-3.1-pro");
        ("fallback", YStr "claude-opus-4-8");
        ("max_tokens_input", YInt 1500000);
        ("max_tokens_output", YInt 8000);
        ("temperature", YDec 4 1)]);
      ("extraction_fast", YMap [
        ("description", YStr "Clasificación, extracción de entidades, resúmenes cortos");
        ("primary", YStr "claude-haiku-4-5");
        ("fallback", YStr "gemini-2.5-flash-lite");
        ("max_tokens_input", YInt 32000);
        ("max_tokens_output", YInt 1000);
        ("temperature", YDec 1 1)]);
      ("chat_conversational", YMap [
        ("description", YStr "Chat con el usuario, respuestas conversacionales");
        ("primary", YStr "claude-sonnet-5");
        ("fallback", YStr "claude-haiku-4-5");
        ("max_tokens_input", YInt 50000);
        ("max_tokens_output", YInt 8000);
        ("temperature", YDec 7 1)]);
      ("code_execution_planner", YMap [
        ("description", YStr "Genera código para pods Deno / Modal");
        ("primary", YStr "claude-opus-4-8");
        ("fallback", YStr "claude-sonnet-5");
        ("max_tokens_input", YInt 100000);
        ("max_tokens_output", YInt 8000);
        ("temperature", YDec 2 1)]);
      ("memory_consolidation", YMap [
        ("description", YStr "Destila la sesión en entradas de memoria (sqlite-vec)");
        ("primary", YStr "claude-haiku-4-5");
        ("fallback", YStr "gemini-2.5-flash-lite");
        ("max_tokens_input", YInt 64000);
        ("max_tokens_output", YInt 2000);
        ("temperature", YDec 2 1)]);
      ("history_compaction", YMap [
        ("description", YStr "Comprime un tramo viejo del historial de chat a un resumen (poda + compresión, docs/RECOMENDACIONES.md #2)");
        ("primary", YStr "claude-haiku-4-5");
        ("fallback", YStr "gemini-2.5-flash-lite");
        ("max_tokens_input", YInt 64000);
        ("max_tokens_output", YInt 1000);
        ("temperature", YDec 2 1)]);
      ("vision_analysis", YMap [
        ("description", YStr "Análisis de screenshots, imágenes, gráficas");
        ("primary", YStr "claude-opus-4-8");
        ("fallback", YStr "gemini-3.1-pro");
        ("max_tokens_input", YInt 100000);
        ("max_tokens_output", YInt 4000);
        ("temperature", YDec 3 1)])]);
    ("model_prices", YMap [
      ("claude-fable-5", YMap [("input_per_million", YInt 10); ("output_per_million", YInt 50)]);
      ("claude-opus-4-8", YMap [("input_per_million", YInt 15); ("output_per_million", YInt 75)]);
      ("claude-opus-4-7", YMap [("input_per_million", YInt 15); ("output_per_million", YInt 75)]);
      ("claude-sonnet-5", YMap [("input_per_million", YInt 3); ("output_per_million", YInt 15)]);
      ("claude-haiku-4-5", YMap [("input_per_million", YInt 1); ("output_per_million", YInt 5)]);
      ("gemini-3.5-flash", YMap [("input_per_million", YDec 150 2); ("output_per_million", YInt 9)]);
      ("gemini-3.1-pro", YMap [("input_per_million", YDec 125 2); ("output_per_million", YInt 10)]);
      ("gemini-2.5-flash-lite", YMap [("input_per_million", YDec 10 2); ("output_per_million", YDec 40 2)]);
      ("antigravity-preview-05-2026", YMap [("input_per_million", YInt 0); ("output_per_million", YInt 0)]);
      ("claude-sonnet-5-5", YMap [("input_per_million", YInt 2); ("output_per_million", YInt 10)]);
      ("claude-opus-5-5", YMap [("input_per_million", YInt 4); ("output_per_million", YInt 20)]);
      ("gpt-6-astra", YMap [("input_per_million", YInt 10); ("output_per_million", YInt 50)]);
      ("gpt-6-sol", YMap [("input_per_million", YInt 2); ("output_per_million", YInt 10)]);
      ("gpt-6-luna", YMap [("input_per_million", YDec 10 2); ("output_per_million", YDec 50 2)])]);
    ("chat_options", YSeq [
      YMap [
        ("vendor", YStr "anthropic");
        ("model", YStr "claude-opus-5-5");
        ("label", YStr "Claude Opus 5.5 — el más capaz");
        ("supports_effort", YBool true)];
      YMap [
        ("vendor", YStr "anthropic");
        ("model", YStr "claude-sonnet-5-5");
        ("label", YStr "Claude Sonnet 5.5 — balanceado");
        ("supports_effort", YBool true)];
      YMap [
        ("vendor", YStr "anthropic");
        ("model", YStr "claude-haiku-4-5");
        ("label", YStr "Claude Haiku 4.5 — rápido y barato");
        ("supports_effort", YBool true)];
      YMap [
        ("vendor", YStr "google");
        ("model", YStr "gemini-3.1-pro");
        ("label", YStr "Gemini 3.1 Pro — contexto masivo");
        ("supports_effort", YBool false)];
      YMap [
        ("vendor", YStr "google");
        ("model", YStr "gemini-3.5-flash");
        ("label", YStr "Gemini 3.5 Flash — agentic, rápido");
        ("supports_effort", YBool false)];
      YMap [
        ("vendor", YStr "openai");
        ("model", YStr "gpt-6-astra");
        ("label", YStr "GPT-6 Astra — el más capaz de OpenAI");
        ("supports_effort", YBool false)];
      YMap [
        ("vendor", YStr "openai");
        ("model", YStr "gpt-6-sol");
        ("label", YStr "GPT-6 Sol — balanceado, para código");
        ("supports_effort", YBool false)];
      YMap [
        ("vendor", YStr "openai");
        ("model", YStr "gpt-6-luna");
        ("label", YStr "GPT-6 Luna — rápido y barato");
        ("supports_effort", YBool false)]])].

Definition agent_yaml : yaml :=
  YMap [
    ("max_iterations_per_turn", YInt 15);
    ("max_consecutive_tool_failures", YInt 3);
    ("max_concurrent_sub_agents", YInt 3);
    ("max_history_tokens", YInt 30000);
    ("preserve_last_turns", YInt 6);
    ("max_output_tokens", YInt 8000)].

Definition autonomy_yaml : yaml :=
  YMap [
    ("semi_auto", YMap [("default_hours", YInt 24); ("max_hours", YInt 72)]);
    ("auto", YMap [("default_hours", YInt 4); ("max_hours", YInt 24)]);
    ("circuit_breaker", YMap [("max_relaxed_actions_per_hour", YInt 20)])].

Definition budget_yaml : yaml :=
  YMap [
    ("session_max_input_tokens", YInt 500000);
    ("session_max_output_tokens", YInt 100000);
    ("daily_max_tokens", YInt 5000000);
    ("daily_max_usd", YInt 10);
    ("runaway_multiplier", YInt 2);
    ("runaway_lookback_hours", YInt 24);
    ("runaway_min_hourly_tokens", YInt 500000)].

Definition feature_flags_yaml : yaml :=
  YMap [
    ("integrations", YMap [
      ("canvas", YMap [("enabled", YBool true)]);
      ("google", YMap [("enabled", YBool true)]);
      ("mcp", YMap [("enabled", YBool true)]);
      ("telegram", YMap [("enabled", YBool true)])]);
    ("modelRouting", YMap []);
    ("hitlOverrides", YMap [])].

Definition mcp_servers_yaml : yaml :=
  YMap [
    ("servers", YSeq [
      YMap [
        ("name", YStr "context7");
        ("url", YStr "https://mcp.context7.com/mcp");
        ("description", YStr "Documentación oficial de librerías y frameworks (React, Tailwind, Next.js, etc.), vía Context7.")]])].

(** The files, and nothing else. *)
Definition files : ConfigFiles := {|
  load_yaml := fun filePath =>
    match List.find (fun kv => String.eqb kv.1 filePath)
            [("config/models.yaml", models_yaml); ("config/agent.yaml", agent_yaml);
             ("config/autonomy.yaml", autonomy_yaml); ("config/budget.yaml", budget_yaml);
             ("config/feature-flags.yaml", feature_flags_yaml); ("config/mcp-servers.yaml", mcp_servers_yaml)] with
    | Some kv => inr (Some kv.2)
    | None => inl (PlainError "ENOENT")
    end;
  zod_issues := fun _ => "?" |}.
#[local] Existing Instance files.
#[local] Instance https : UrlSyntax := {| is_url := String.prefix "https://" |}.

Example shipped_agent : loadAgentConfig "config/agent.yaml" = inr AgentExamples.yaml_agent.
Proof. vm_compute. reflexivity. Qed.

Example shipped_autonomy : loadAutonomyConfig "config/autonomy.yaml" = inr AutonomyExamples.yaml_config.
Proof. vm_compute. reflexivity. Qed.

Example shipped_servers : match loadMcpServersConfig "config/mcp-servers.yaml" with
  | inr [server] => mcp_name server = "context7" | _ => False end.
Proof. vm_compute. reflexivity. Qed.

Example shipped_flags : match loadFeatureFlagsConfig "config/feature-flags.yaml" with
  | inr c => forallb (ff_integrations c) [Canvas; Google; Mcp; Telegram] = true | _ => False end.
Proof. vm_compute. reflexivity. Qed.

(** The models that the files name: those of the profiles and those the owner may choose. *)
Definition named_models : list string :=
  match loadModelsConfig "config/models.yaml", loadChatOptions "config/models.yaml" with
  | inr profiles, inr options =>
      concat (map (fun kv => [mpc_primary kv.2; mpc_fallback kv.2]) (map_to_list profiles)) ++ map cmo_modelId options
  | _, _ => []
  end.

Definition has_price (modelId : string) : bool :=
  match loadModelPrices "config/models.yaml" with
  | inr prices => bool_decide (is_Some (resolvePrice prices modelId)) &&
                  bool_decide (is_Some (resolvePrice prices (modelId +:+ "-20251001")))
  | inl _ => false
  end.

Definition has_vendor (modelId : string) : bool :=
  existsb (fun prefix => startsWith modelId prefix) ["claude-"; "gemini-"; "gpt-"].

(** Each of them has a vendor and a price, also under the name with a date that its vendor answers. *)
Example every_named_model_is_known :
  length named_models = 26%nat /\ forallb has_vendor named_models = true /\ forallb has_price named_models = true.
Proof. vm_compute. done. Qed.
End Shipped.

Lemma accepted_configurations_are_valid_witness :
  agent_config_ok AgentExamples.yaml_agent /\ config_valid AutonomyExamples.yaml_config.
Proof.
  split.
  - apply (proj1 (@accepted_configurations_are_valid Shipped.files (Some Shipped.agent_yaml))).
    exact Shipped.shipped_agent.
  - apply (proj1 (proj2 (@accepted_configurations_are_valid Shipped.files (Some Shipped.autonomy_yaml)))).
    exact Shipped.shipped_autonomy.
Defined.
