(* ===== verification/Snapshots.v ===== *)
(** * Snapshots: the copies of the projects of the editor

    [src/project-snapshots]: the schema of a copy ([project-snapshot.logic.ts]), the table
    ([project-snapshots.store.ts]), the service that records each action in the audit log
    ([project-snapshots.service.ts]) and the endpoints.  The identifier that the database
    gives a row is drawn before its statement. *)
From stdpp Require Import sorting.
From S2P Require Import Prelude Effects Js Text Registry Store AuditApi AuditLog Hitl TerminalClient Previews.
From Stdlib Require Import Ascii String.
Local Open Scope stdpp_scope.
Local Open Scope Z_scope.
Local Open Scope jin_scope.

(** ** project-snapshot.logic.ts *)

Definition SNAPSHOT_MAX_FILES : nat := 50.
Definition SNAPSHOT_MAX_TOTAL_BYTES : Z := 256 * 1024.
Definition SNAPSHOT_MAX_PATH_LENGTH : Z := 200.
Definition SNAPSHOT_MAX_COUNT : Z := 100.

Definition isSafePath (path : string) : bool :=
  (0 <? js_length path) && (js_length path <=? SNAPSHOT_MAX_PATH_LENGTH) && negb (String.prefix "/" path) &&
  negb (existsb (fun c => Ascii.eqb c "\"%char) (list_ascii_of_string path)) &&
  negb (existsb (fun c => (nat_of_ascii c =? 13)%nat || (nat_of_ascii c =? 10)%nat) (list_ascii_of_string path)) &&
  negb (existsb (fun part => existsb (String.eqb part) [""; "."; ".."]) (split_on "/"%char path)).

Record SnapshotConfig := {
  sc_template : string;
  sc_database : option (option string);     (* absent, [null] or an engine *)
  sc_mailEgress : bool;
  sc_ttlSeconds : Z;
  sc_envNames : list string
}.

Definition SnapshotConfigSchema (v : json) : option SnapshotConfig :=
  _ ← only_keys ["template"; "database"; "mailEgress"; "ttlSeconds"; "envNames"] v;
  template ← json_field "template" v ≫= one_of_names ["static"; "node"];
  database ← optional "database" (fun x => match x with JNull => Some None | _ => Some <$> one_of_names DEMO_DB_ENGINES x end) v;
  mailEgress ← json_field "mailEgress" v ≫= as_bool;
  ttlSeconds ← json_field "ttlSeconds" v ≫= (fun x => refine (fun n => (60 <=? n) && (n <=? 24 * 60 * 60)) (as_number x));
  envNames ← json_field "envNames" v ≫=
    (fun x => refine (fun l => forallb ENV_NAME_PATTERN l && (List.length l <=? MAX_ENV_VARS)%nat) (as_list x));
  Some {| sc_template := template; sc_database := database; sc_mailEgress := mailEgress; sc_ttlSeconds := ttlSeconds;
          sc_envNames := envNames |}.

Record CreateSnapshotInput := {
  cs_name : string;
  cs_note : option string;
  cs_files : strings;
  cs_config : option SnapshotConfig
}.

(** [s.trim()] *)
Definition trimmed_text (s : string) : string := written (trim (text_of s)).

Definition snapshotBytes (files : strings) : Z :=
  fold_left (fun total kv => total + Z.of_nat (String.length (snd kv))) files 0.

(** The shape of a body, before its files are looked at. *)
Definition read_snapshot (v : json) : option CreateSnapshotInput :=
  _ ← only_keys ["name"; "note"; "files"; "config"] v;
  name ← json_field "name" v ≫= (fun x => refine (length_between 1 60) (trimmed_text <$> as_string x));
  note ← optional "note" (fun x => refine (fun s => js_length s <=? 500) (trimmed_text <$> as_string x)) v;
  files ← json_field "files" v ≫= as_strings;
  config ← optional "config" SnapshotConfigSchema v;
  Some {| cs_name := name; cs_note := note; cs_files := files; cs_config := config |}.

(** [superRefine]: a message for each rule that the files break. *)
Definition file_issues (files : strings) : list string :=
  let paths := keys files in
  (if (List.length paths =? 0)%nat || (SNAPSHOT_MAX_FILES <? List.length paths)%nat
   then ["El respaldo necesita entre 1 y " +:+ pretty SNAPSHOT_MAX_FILES +:+ " archivos."] else []) ++
  (match List.filter (fun path => negb (isSafePath path)) paths with
   | [] => []
   | invalid => ["Rutas no válidas: " +:+ join ", " (List.firstn 5 invalid) +:+ "."]
   end) ++
  (if SNAPSHOT_MAX_TOTAL_BYTES <? snapshotBytes files
   then ["El proyecto supera " +:+ pretty (SNAPSHOT_MAX_TOTAL_BYTES / 1024) +:+ " KB."] else []) ++
  (match findSecretFiles files with
   | [] => []
   | secrets => ["Estos archivos parecen secretos y no se respaldan: " +:+ join ", " secrets +:+
                 ". Las claves van como variables de entorno."]
   end).

(** ** project-snapshots.store.ts *)

Record ProjectSnapshotRow := {
  psr_id : string;
  psr_name : string;
  psr_note : option string;
  psr_createdAt : Z;
  psr_fileCount : Z;
  psr_totalBytes : Z;
  psr_files : strings;
  psr_config : option SnapshotConfig          (* [None] is the object without fields *)
}.

(** [Omit<ProjectSnapshotRow, 'files'>] *)
Record ProjectSnapshotSummaryRow := {
  pss_id : string;
  pss_name : string;
  pss_note : option string;
  pss_createdAt : Z;
  pss_fileCount : Z;
  pss_totalBytes : Z;
  pss_config : option SnapshotConfig
}.

Record SnapshotWorld := { sn_world : World; sn_rows : list ProjectSnapshotRow }.
Abbreviation snapshots := (prog SnapshotWorld JinError).

Definition put_sn_world (w : World) (v : SnapshotWorld) : SnapshotWorld := {| sn_world := w; sn_rows := sn_rows v |}.
Definition put_sn_rows (l : list ProjectSnapshotRow) (v : SnapshotWorld) : SnapshotWorld :=
  {| sn_world := sn_world v; sn_rows := l |}.

Definition sn_service {A} (p : jin A) : snapshots A := zoom sn_world put_sn_world p.
Definition sn_statement {X} (f : SnapshotWorld -> SnapshotWorld * X) : snapshots X :=
  statement_on sn_world put_sn_world f.

Definition has_snapshot_id (id : string) (r : ProjectSnapshotRow) : bool := String.eqb (psr_id r) id.

Definition snapshot_summary (r : ProjectSnapshotRow) : ProjectSnapshotSummaryRow := {|
  pss_id := psr_id r; pss_name := psr_name r; pss_note := psr_note r; pss_createdAt := psr_createdAt r;
  pss_fileCount := psr_fileCount r; pss_totalBytes := psr_totalBytes r; pss_config := psr_config r |}.

Definition newer_snapshot (a b : ProjectSnapshotSummaryRow) : Prop := pss_createdAt b <= pss_createdAt a.
#[export] Instance newer_snapshot_dec a b : Decision (newer_snapshot a b).
Proof. unfold newer_snapshot. apply _. Defined.

Module SnapshotsStore.
(** [insert ... returning] *)
Definition insert (name : string) (note : option string) (files : strings) (config : option SnapshotConfig)
    (fileCount totalBytes : Z) : snapshots ProjectSnapshotRow :=
  id <- sn_service randomUUID ;;
  sn_statement (fun v =>
    let row := {| psr_id := id; psr_name := name; psr_note := note; psr_createdAt := clock (w_sys (sn_world v));
                  psr_fileCount := fileCount; psr_totalBytes := totalBytes; psr_files := files; psr_config := config |} in
    (put_sn_rows (sn_rows v ++ [row]) v, row)).

Definition list : snapshots (list ProjectSnapshotSummaryRow) :=
  sn_statement (fun v => (v, merge_sort newer_snapshot (map snapshot_summary (sn_rows v)))).

Definition get (id : string) : snapshots (option ProjectSnapshotRow) :=
  sn_statement (fun v => (v, List.find (has_snapshot_id id) (sn_rows v))).

Definition delete (id : string) : snapshots bool :=
  sn_statement (fun v =>
    (put_sn_rows (List.filter (fun r => negb (has_snapshot_id id r)) (sn_rows v)) v,
     existsb (has_snapshot_id id) (sn_rows v))).

Definition count : snapshots Z := sn_statement (fun v => (v, Z.of_nat (List.length (sn_rows v)))).
End SnapshotsStore.

(** ** project-snapshots.service.ts *)

Module ProjectSnapshots.
Section Service.
Context `{Api : AuditApi} `{Crypto : NodeCrypto} (zod_messages : json -> string).

Definition OWNER_ACTOR : string := "owner:api".

(** [CreateSnapshotSchema.safeParse], with the messages of the issues joined. *)
Definition CreateSnapshotSchema (v : json) : string + CreateSnapshotInput :=
  match read_snapshot v with
  | None => inl (zod_messages v)
  | Some input =>
      match file_issues (cs_files input) with
      | [] => inr input
      | issues => inl (join " " issues)
      end
  end.

Definition record_snapshot_call (toolName : string) (inputs : json) (planSummary : string) : snapshots unit :=
  requestId <- sn_service randomUUID ;;
  sn_service (audit_toolCall requestId OWNER_ACTOR toolName (computeInputsHash (Some inputs)) (Some planSummary) "auto" None) ;;;
  Ret tt.

Definition save_summary (name : string) (fileCount totalBytes : Z) : string :=
  "Respaldar el proyecto «" +:+ name +:+ "» (" +:+ pretty fileCount +:+ " archivo" +:+
  (if fileCount =? 1 then "" else "s") +:+ ", " +:+ pretty totalBytes +:+ " bytes)".

Definition create (body : json) : snapshots ProjectSnapshotRow :=
  match CreateSnapshotSchema body with
  | inl message => Throw (BadRequestException message)
  | inr input =>
      total <- SnapshotsStore.count ;;
      if SNAPSHOT_MAX_COUNT <=? total then
        Throw (ConflictException ("Ya hay " +:+ pretty SNAPSHOT_MAX_COUNT +:+ " respaldos: borra alguno antes de guardar otro."))
      else
        let totalBytes := snapshotBytes (cs_files input) in
        let fileCount := Z.of_nat (List.length (keys (cs_files input))) in
        row <- SnapshotsStore.insert (cs_name input) (cs_note input) (cs_files input) (cs_config input) fileCount totalBytes ;;
        record_snapshot_call "saveProjectSnapshot"
          (JObj [("id", JStr (psr_id row)); ("name", JStr (cs_name input)); ("fileCount", JNum fileCount);
                 ("totalBytes", JNum totalBytes)])
          (save_summary (cs_name input) fileCount totalBytes) ;;;
        Ret row
  end.

Definition list : snapshots (list ProjectSnapshotSummaryRow) := SnapshotsStore.list.

Definition get (id : string) : snapshots ProjectSnapshotRow :=
  row <- SnapshotsStore.get id ;;
  match row with
  | None => Throw (NotFoundException "Respaldo no encontrado.")
  | Some row =>
      record_snapshot_call "restoreProjectSnapshot" (JObj [("id", JStr id)])
        ("Restaurar el respaldo «" +:+ psr_name row +:+ "» al editor") ;;;
      Ret row
  end.

Definition delete (id : string) : snapshots unit :=
  existing <- SnapshotsStore.get id ;;
  match existing with
  | None => Throw (NotFoundException "Respaldo no encontrado.")
  | Some existing =>
      deleted <- SnapshotsStore.delete id ;;
      if deleted : bool then
        record_snapshot_call "deleteProjectSnapshot" (JObj [("id", JStr id)])
          ("Borrar el respaldo «" +:+ psr_name existing +:+ "»")
      else Throw (NotFoundException "Respaldo no encontrado.")
  end.

(** ** project-snapshots.controller.ts *)

Definition config_json (c : SnapshotConfig) : json :=
  JObj ([("template", JStr (sc_template c))] ++
        match sc_database c with
        | None => [] | Some None => [("database", JNull)] | Some (Some db) => [("database", JStr db)]
        end ++
        [("mailEgress", JBool (sc_mailEgress c)); ("ttlSeconds", JNum (sc_ttlSeconds c));
         ("envNames", JArr (map JStr (sc_envNames c)))]).

(** The body that the schema hands to the handler. *)
Definition input_json (i : CreateSnapshotInput) : json :=
  JObj ([("name", JStr (cs_name i))] ++
        match cs_note i with Some note => [("note", JStr note)] | None => [] end ++
        [("files", strings_json (cs_files i))] ++
        match cs_config i with Some c => [("config", config_json c)] | None => [] end).

Definition toSummary (row : ProjectSnapshotSummaryRow) : json := JObj [
  ("id", JStr (pss_id row)); ("name", JStr (pss_name row));
  ("note", match pss_note row with Some n => JStr n | None => JNull end);
  ("createdAt", JStr (to_iso_string (pss_createdAt row))); ("fileCount", JNum (pss_fileCount row));
  ("totalBytes", JNum (pss_totalBytes row));
  ("config", match pss_config row with Some c => config_json c | None => JObj [] end)].

Definition with_field (key : string) (value v : json) : json :=
  match v with JObj fields => JObj (fields ++ [(key, value)]) | _ => v end.

(** [None] is a body or an identifier that the pipes refuse. *)
Definition post_snapshot (body : json) : snapshots (option json) :=
  match CreateSnapshotSchema body with
  | inl _ => Ret None
  | inr input => row <- create (input_json input) ;; Ret (Some (toSummary (snapshot_summary row)))
  end.

Definition get_snapshots : snapshots json :=
  rows <- list ;; Ret (JObj [("snapshots", JArr (map toSummary rows))]).

Context (is_uuid : string -> bool).

Definition get_snapshot (id : string) : snapshots (option json) :=
  if is_uuid id then
    row <- get id ;; Ret (Some (with_field "files" (strings_json (psr_files row)) (toSummary (snapshot_summary row))))
  else Ret None.

Definition delete_snapshot (id : string) : snapshots (option json) :=
  if is_uuid id then delete id ;;; Ret (Some (JObj [("ok", JBool true)])) else Ret None.
End Service.
End ProjectSnapshots.

(** ** What the table holds *)

(** A row is a copy that the rules accept, with its size. *)
Definition clean_row (r : ProjectSnapshotRow) : Prop :=
  file_issues (psr_files r) = [] /\ psr_fileCount r = Z.of_nat (List.length (psr_files r)) /\
  psr_totalBytes r = snapshotBytes (psr_files r).

Definition clean (v : SnapshotWorld) : Prop := Forall clean_row (sn_rows v).

Lemma clean_row_spec r :
  clean_row r ->
  (1 <= List.length (psr_files r) <= SNAPSHOT_MAX_FILES)%nat /\ psr_totalBytes r <= SNAPSHOT_MAX_TOTAL_BYTES /\
  findSecretFiles (psr_files r) = [] /\ forall path, path ∈ keys (psr_files r) -> isSafePath path = true.
Proof.
  intros (H & _ & ->). unfold file_issues in H.
  apply app_eq_nil in H as [H1 H]. apply app_eq_nil in H as [H2 H]. apply app_eq_nil in H as [H3 H4].
  unfold keys in H1. rewrite length_map in H1.
  destruct (_ || _) eqn:E in H1; [done|]. apply orb_false_iff in E as [E1 E2].
  apply Nat.eqb_neq in E1. apply Nat.ltb_ge in E2.
  destruct (SNAPSHOT_MAX_TOTAL_BYTES <? _) eqn:E3 in H3; [done|]. apply Z.ltb_ge in E3.
  splits; [lia|done|exact E3|by destruct (findSecretFiles _)|].
  intros path Hin. destruct (isSafePath path) eqn:Ep; [done|].
  destruct (List.filter _ _) as [|x l] eqn:Ef in H2; [|done].
  assert (Hf : In path (List.filter (fun path => negb (isSafePath path)) (keys (psr_files r)))).
  { apply List.filter_In. split; [by apply list_elem_of_In|by rewrite Ep]. }
  by rewrite Ef in Hf.
Qed.

Section Clean.
Context `{Laws : AuditApiLaws} `{Crypto : NodeCrypto} (zod_messages : json -> string).

(** What each statement does to the table. *)
Definition keeps_clean (v v' : SnapshotWorld) : Prop := clean v -> clean v'.

Lemma clean_service {A} (p : jin A) : steps (fun _ _ => True) p -> steps keeps_clean (sn_service p).
Proof. intros H. eapply steps_zoom; [|exact H]. intros w' v _ Hv; exact Hv. Qed.

Lemma anything {A} (p : jin A) : steps (fun _ _ => True) p.
Proof. induction p as [a|e|X f c IH]; cbn; [done|done|]. split; [done|exact IH]. Qed.

Lemma clean_statement {X} (f : SnapshotWorld -> SnapshotWorld * X) :
  (forall v, clean v -> clean (f v).1) -> steps keeps_clean (sn_statement f).
Proof. intros Hf. apply steps_statement_on; [by intros v H|]. intros v H. by apply Hf. Qed.

Lemma clean_record_call toolName inputs summary :
  steps keeps_clean (ProjectSnapshots.record_snapshot_call toolName inputs summary).
Proof. repeat (apply steps_bind; [apply clean_service, anything|intros ?]). done. Qed.

Lemma clean_create body : steps keeps_clean (ProjectSnapshots.create zod_messages body).
Proof.
  unfold ProjectSnapshots.create, ProjectSnapshots.CreateSnapshotSchema.
  destruct (read_snapshot body) as [input|]; [|done].
  destruct (file_issues (cs_files input)) eqn:Ef; [|done].
  apply steps_bind; [by apply clean_statement|]. intros total. destruct (_ <=? total); [done|]. cbv zeta.
  apply steps_bind; [|intros row; apply steps_bind; [apply clean_record_call|done]].
  apply steps_bind; [apply clean_service, anything|]. intros id. apply clean_statement. intros v Hv. cbn.
  apply Forall_app. split; [exact Hv|]. repeat constructor; [exact Ef|]. cbn. unfold keys. by rewrite length_map.
Qed.

Lemma clean_get id : steps keeps_clean (ProjectSnapshots.get id).
Proof.
  apply steps_bind; [by apply clean_statement|]. intros [row|]; [|done].
  apply steps_bind; [apply clean_record_call|done].
Qed.

Lemma clean_delete id : steps keeps_clean (ProjectSnapshots.delete id).
Proof.
  apply steps_bind; [by apply clean_statement|]. intros [row|]; [|done].
  apply steps_bind; [|intros []; [apply clean_record_call|done]].
  apply clean_statement. intros v Hv. cbn. apply Forall_forall. intros r Hr%list_elem_of_In.
  apply List.filter_In in Hr as [Hr _]. unfold clean in Hv. rewrite Forall_forall in Hv. by apply Hv, list_elem_of_In.
Qed.

(** The requests that reach the service. *)
Inductive snapshot_request : snapshots unit -> Prop :=
| request_create body : snapshot_request (ProjectSnapshots.create zod_messages body ;;; Ret tt)
| request_list : snapshot_request (ProjectSnapshots.list ;;; Ret tt)
| request_get id : snapshot_request (ProjectSnapshots.get id ;;; Ret tt)
| request_delete id : snapshot_request (ProjectSnapshots.delete id).

Definition sn_time_passes (v v' : SnapshotWorld) : Prop :=
  exists w, time_passes (sn_world v) w /\ v' = put_sn_world w v.

(** However requests interleave and fail, every copy in the table is one that the rules
    accept: between one and fifty files and 256 KB, none that looks like a secret, none at a
    path that could leave the project, with its count and its size as recorded. *)
Lemma every_snapshot_is_clean v0 (cf : Effects.config SnapshotWorld JinError unit) row :
  clean v0 -> reachable sn_time_passes snapshot_request v0 cf -> row ∈ sn_rows (c_store cf) ->
  (1 <= List.length (psr_files row) <= SNAPSHOT_MAX_FILES)%nat /\ psr_totalBytes row <= SNAPSHOT_MAX_TOTAL_BYTES /\
  findSecretFiles (psr_files row) = [] /\ forall path, path ∈ keys (psr_files row) -> isSafePath path = true.
Proof.
  intros H0 Hr Hin. apply clean_row_spec.
  assert (Hc : clean (c_store cf)); [|by unfold clean in Hc; rewrite Forall_forall in Hc; apply Hc].
  eapply (steps_to_invariant sn_time_passes snapshot_request clean); [| |exact H0|exact Hr].
  - intros p Hp. apply steps_to_steps.
    destruct Hp; [|apply steps_bind; [by apply clean_statement|done]| |apply clean_delete].
    + apply steps_bind; [apply clean_create|done].
    + apply steps_bind; [apply clean_get|done].
  - by intros v v' (w & _ & ->).
Qed.
End Clean.

(** *** A copy and its restoration *)
Module SnapshotExamples.
#[local] Existing Instance toy_crypto.
#[local] Existing Instance auditService.

Definition empty : SnapshotWorld := {| sn_world := empty_world 0; sn_rows := [] |}.

Definition body (files : list (string * string)) : json :=
  JObj [("name", JStr "  Reservas "); ("files", strings_json files)].

Definition texts (v : json) : string := "zod".

Definition saved := run (ProjectSnapshots.create texts (body [("index.html", "hola"); ("server/start.mjs", "x")])) empty.

(** The copy that comes back has its files, and both requests are recorded. *)
Example a_snapshot_comes_back :
  match saved with
  | (v, inr row) =>
      psr_name row = "Reservas" /\
      match run (ProjectSnapshots.get (psr_id row)) v with
      | (v', inr row') => psr_files row' = [("index.html", "hola"); ("server/start.mjs", "x")] /\
                          List.length (audit_log (w_audit (sn_world v'))) = 2%nat
      | _ => False
      end
  | _ => False
  end.
Proof. vm_compute. done. Qed.

Example secrets_are_refused :
  run (ProjectSnapshots.create texts (body [("a/.env", "A=1"); ("../x", "")])) empty =
  (empty, inl (BadRequestException ("Rutas no válidas: ../x. Estos archivos parecen secretos y no se respaldan: a/.env. " +:+
    "Las claves van como variables de entorno."))).
Proof. vm_compute. reflexivity. Qed.

(** A request of the deletion that finds nothing. *)
Example an_unknown_snapshot : (run (ProjectSnapshots.delete "x") empty).2 = inl (NotFoundException "Respaldo no encontrado.").
Proof. vm_compute. reflexivity. Qed.
End SnapshotExamples.

Lemma every_snapshot_is_clean_witness :
  clean SnapshotExamples.empty /\
  forall row, row ∈ sn_rows (run (@ProjectSnapshots.create (@auditService toy_crypto) toy_crypto SnapshotExamples.texts
    (SnapshotExamples.body [("index.html", "hola"); ("server/start.mjs", "x")])) SnapshotExamples.empty).1 ->
  findSecretFiles (psr_files row) = [].
Proof.
  assert (H0 : clean SnapshotExamples.empty) by constructor. split; [exact H0|]. intros row Hin.
  set (p := @ProjectSnapshots.create (@auditService toy_crypto) toy_crypto SnapshotExamples.texts
    (SnapshotExamples.body [("index.html", "hola"); ("server/start.mjs", "x")])) in *.
  destruct (@every_snapshot_is_clean (@auditService toy_crypto) toy_crypto SnapshotExamples.texts SnapshotExamples.empty
    (Config (run p SnapshotExamples.empty).1 ([] ++ Ret tt :: [])) row H0) as (_ & _ & H & _); [|exact Hin|exact H].
  eapply reachable_run1 with (p := p ;;; Ret tt).
  - eapply reach_step; [apply reach_init|]. apply (step_spawn _ _ _ []). apply request_create.
  - rewrite run_bind.
    assert (Hs : match run p SnapshotExamples.empty with (_, inr _) => True | _ => False end) by (vm_compute; exact I).
    by destruct (run p SnapshotExamples.empty) as [v [e|x]].
Defined.
