(* ===== verification/Mcp.v ===== *)
(** * Mcp: the client of the documentation servers

    [src/mcp]: [mcp-client.service.ts] with its cache of connections, and the executor of
    [queryExternalDocs] that [mcp.module.ts] registers.  The servers and the SDK are an
    oracle: the outcome of each connection and the answer to each request.  A connection is
    a promise that the requests share: it settles at the first action that waits for it. *)
From S2P Require Import Prelude Effects Js Text Regex Registry Store TelegramFormat Configs.
From Stdlib Require Import String.
Local Open Scope stdpp_scope.
Local Open Scope Z_scope.
Local Open Scope jin_scope.

Definition RESOLVE_LIBRARY_TOOL : string := "resolve-library-id".
Definition GET_DOCS_TOOL : string := "get-library-docs".

(** A unit, whatever its case: the flag [i] for ASCII letters. *)
Definition ascii_lower (c : Z) : Z := if (65 <=? c) && (c <=? 90) then c + 32 else c.
Fixpoint lit_any_case (s : text) : regex :=
  match s with
  | [] => Empty
  | c :: s' => Cat (One (fun x => ascii_lower x =? ascii_lower c)) (lit_any_case s')
  end.

(** [/Context7-compatible library ID:\s*(\S+)/i] *)
Definition LIBRARY_ID_LINE_RE : regex :=
  Cat (lit_any_case (units "Context7-compatible library ID:"))
    (Cat (star is_space) (Group 1 (plus (not_in is_space)))).

(** [r.exec(s)]: the first place that matches. *)
Fixpoint first_match (r : regex) (before s : text) : option Cursor :=
  match exec r before s with
  | Some y => Some y
  | None => match s with [] => None | c :: s' => first_match r (c :: before) s' end
  end.

Definition library_id (resolveText : string) : option string :=
  y ← first_match LIBRARY_ID_LINE_RE [] (text_of resolveText);
  match group 1 y with [] => None | id => Some (written id) end.

(** The text of a block; the SDK checks that it is one. *)
Definition block_text_of (b : json) : option string :=
  match json_field "type" b with
  | Some (JStr t) => if String.eqb t "text" then Some (default "" (json_string "text" b)) else None
  | _ => None
  end.

Definition extractTextContent (result : json) : string :=
  match json_field "content" result with
  | Some (JArr content) => join newline (omap block_text_of content)
  | _ => ""
  end.

(** ** The servers and the cache *)

Inductive McpRequest :=
| mcp_connect (url : string)
| mcp_listTools (connection : nat)
| mcp_callTool (connection : nat) (name : string) (arguments : json).

Record McpWorld := {
  mc_clients : gmap string nat;                 (* [clients]: the connection of each server *)
  mc_urls : list string;                        (* the connections so far, by number *)
  mc_log : list McpRequest
}.

Abbreviation mcp := (prog McpWorld JinError).

Class McpNetwork := {
  connection_fails : nat -> option JinError;      (* of the n-th connection *)
  tools_answer : nat -> JinError + list string;   (* of the n-th request *)
  call_answer : nat -> JinError + json
}.

Definition log_mcp_request (r : McpRequest) (v : McpWorld) : McpWorld :=
  {| mc_clients := mc_clients v; mc_urls := mc_urls v; mc_log := mc_log v ++ [r] |}.

Section Client.
Context {Network : McpNetwork} (servers : list McpServerConfig).

Definition resolveServerConfig (serverName : option string) : JinError + McpServerConfig :=
  match serverName with
  | None => match servers with [] => inl (UnknownMcpServerError "(ninguno configurado)") | first :: _ => inr first end
  | Some serverName =>
      match List.find (fun s => String.eqb (mcp_name s) serverName) servers with
      | None => inl (UnknownMcpServerError serverName)
      | Some found => inr found
      end
  end.

(** The cached connection, or a new one. *)
Definition getOrConnect (serverName url : string) : mcp nat :=
  Act (fun v =>
    match mc_clients v !! serverName with
    | Some cached => (v, cached)
    | None =>
        let n := List.length (mc_urls v) in
        ({| mc_clients := <[serverName := n]> (mc_clients v); mc_urls := mc_urls v ++ [url];
            mc_log := mc_log v ++ [mcp_connect url] |}, n)
    end) Ret.

(** [await] of a connection: when it failed, its [catch] has removed it from the cache. *)
Definition await_connection (serverName : string) (n : nat) : mcp unit :=
  match connection_fails n with
  | None => Ret tt
  | Some err =>
      writes (fun v => {| mc_clients := if decide (mc_clients v !! serverName = Some n)
                                        then delete serverName (mc_clients v) else mc_clients v;
                          mc_urls := mc_urls v; mc_log := mc_log v |}) ;;;
      Throw err
  end.

Definition ask {A} (r : McpRequest) (answer : nat -> JinError + A) : mcp A :=
  Act (fun v => (log_mcp_request r v, answer (List.length (mc_log v))))
      (fun a => match a with inl e => Throw e | inr a => Ret a end).

Definition opt_argument (key : string) (v : option json) : list (string * json) :=
  match v with Some v => [(key, v)] | None => [] end.

Definition lift_mcp {A} (r : JinError + A) : mcp A := match r with inl e => Throw e | inr a => Ret a end.

Definition queryDocs (library topic : option json) (serverName : option string) : mcp string :=
  server <- lift_mcp (resolveServerConfig serverName) ;;
  client <- getOrConnect (mcp_name server) (mcp_url server) ;;
  await_connection (mcp_name server) client ;;;
  tools <- ask (mcp_listTools client) tools_answer ;;
  if negb (existsb (String.eqb RESOLVE_LIBRARY_TOOL) tools) || negb (existsb (String.eqb GET_DOCS_TOOL) tools)
  then Throw (McpUnsupportedServerError (mcp_name server) tools)
  else
    resolveResult <- ask (mcp_callTool client RESOLVE_LIBRARY_TOOL (JObj (opt_argument "libraryName" library))) call_answer ;;
    match library_id (extractTextContent resolveResult) with
    | None => Throw (McpUnexpectedResponseError (mcp_name server) RESOLVE_LIBRARY_TOOL)
    | Some libraryId =>
        docsResult <- ask (mcp_callTool client GET_DOCS_TOOL
                             (JObj (("context7CompatibleLibraryID", JStr libraryId) :: opt_argument "topic" topic))) call_answer ;;
        Ret (extractTextContent docsResult)
    end.

(** ** mcp.module.ts *)

(** The executor of [queryExternalDocs]. *)
Definition queryExternalDocs (payload : json) : mcp string :=
  match payload with
  | JNull => Throw (PlainError "Cannot destructure property 'library' of 'payload' as it is null.")
  | _ => queryDocs (json_field "library" payload) (json_field "query" payload) None
  end.

(** ** What reaches a server *)

(** A connection to a declared server, or one of the two tools. *)
Definition allowed_request (r : McpRequest) : Prop :=
  match r with
  | mcp_connect url => exists server, server ∈ servers /\ mcp_url server = url
  | mcp_listTools _ => True
  | mcp_callTool _ name _ => name = RESOLVE_LIBRARY_TOOL \/ name = GET_DOCS_TOOL
  end.

Definition allowed_log (v : McpWorld) : Prop := Forall allowed_request (mc_log v).
Definition keeps_allowed (v v' : McpWorld) : Prop := allowed_log v -> allowed_log v'.

Lemma allowed_ask {A} r (answer : nat -> JinError + A) : allowed_request r -> steps keeps_allowed (ask r answer).
Proof.
  intros Hr. split; [|by intros [e|a]]. intros v Hv. apply Forall_app. split; [exact Hv|]. by repeat constructor.
Qed.

Lemma resolved_is_declared serverName server :
  resolveServerConfig serverName = inr server -> server ∈ servers.
Proof.
  unfold resolveServerConfig. destruct serverName as [name|].
  - destruct (List.find _ _) eqn:E; [|done]. intros [= <-]. apply List.find_some in E as [E _].
    by apply list_elem_of_In.
  - destruct servers as [|s l]; [done|]. intros [= <-]. by left.
Qed.

Lemma allowed_queryDocs library topic serverName : steps keeps_allowed (queryDocs library topic serverName).
Proof.
  unfold queryDocs. destruct (resolveServerConfig serverName) as [e|server] eqn:E; [done|]. cbn [lift_mcp bind].
  apply resolved_is_declared in E.
  apply steps_bind; [|intros n; apply steps_bind].
  - split; [|done]. intros v Hv. cbn. destruct (mc_clients v !! _); [exact Hv|].
    apply Forall_app. split; [exact Hv|]. repeat constructor. by exists server.
  - unfold await_connection. destruct (connection_fails n); [|done]. split; [by intros v Hv|done].
  - intros _. apply steps_bind; [by apply allowed_ask|]. intros tools. destruct (_ || _); [done|].
    apply steps_bind; [apply allowed_ask; by left|]. intros r. destruct (library_id _); [|done].
    apply steps_bind; [apply allowed_ask; by right|done].
Qed.

(** C31. The model cannot choose what is called: however the calls of [queryExternalDocs] and of
    [queryDocs] interleave, with any arguments, a connection goes to a server of
    [config/mcp-servers.yaml] and the only tools that are called are the two that the client
    knows, whatever the server says that it offers. *)
Theorem only_the_two_tools_are_called v0 (cf : Effects.config McpWorld JinError unit) :
  allowed_log v0 ->
  reachable (fun v v' => v = v') (fun p =>
    (exists payload, p = discard (queryExternalDocs payload)) \/
    (exists library topic serverName, p = discard (queryDocs library topic serverName))) v0 cf ->
  Forall allowed_request (mc_log (c_store cf)).
Proof.
  intros H0 Hr. eapply (steps_to_invariant (fun v v' => v = v') _ allowed_log); [| |exact H0|exact Hr].
  - intros p Hp. apply steps_to_steps.
    destruct Hp as [(payload & ->)|(library & topic & serverName & ->)]; apply steps_bind;
      [|done|apply allowed_queryDocs|done].
    unfold queryExternalDocs. destruct payload; try done; apply allowed_queryDocs.
  - by intros v v' <-.
Qed.

(** A failed connection is forgotten, so that the next call tries again. *)
Lemma a_failed_connection_is_forgotten library topic serverName server err v :
  resolveServerConfig serverName = inr server -> mc_clients v !! mcp_name server = None ->
  connection_fails (List.length (mc_urls v)) = Some err ->
  let '(v', r) := run (queryDocs library topic serverName) v in
  r = inl err /\ mc_clients v' !! mcp_name server = None.
Proof.
  intros Hs Hc He. unfold queryDocs. rewrite Hs. cbn [lift_mcp bind run getOrConnect]. rewrite Hc.
  rewrite run_bind. unfold await_connection. rewrite He, run_bind, run_writes. cbn [run mc_clients].
  rewrite decide_True by (apply lookup_insert_eq). split; [done|]. apply lookup_delete_eq.
Qed.

(** One that was made is kept, also when the server stops answering on it. *)
Lemma a_lost_session_is_kept library topic serverName server n err v :
  resolveServerConfig serverName = inr server -> mc_clients v !! mcp_name server = Some n ->
  connection_fails n = None -> tools_answer (List.length (mc_log v)) = inl err ->
  let '(v', r) := run (queryDocs library topic serverName) v in
  r = inl err /\ mc_clients v' = mc_clients v /\ mc_urls v' = mc_urls v.
Proof.
  intros Hs Hc He Ht. unfold queryDocs. rewrite Hs. cbn [lift_mcp bind run getOrConnect]. rewrite Hc.
  rewrite run_bind. unfold await_connection. rewrite He. cbn [run]. rewrite run_bind. cbn [ask run]. rewrite Ht. done.
Qed.
End Client.

(** *** A query *)
Module McpExamples.
Definition context7 : McpServerConfig := {|
  mcp_name := "context7"; mcp_url := "https://mcp.context7.com/mcp"; mcp_description := "docs" |}.

Definition text_result (s : string) : json :=
  JObj [("content", JArr [JObj [("type", JStr "text"); ("text", JStr s)]; JObj [("type", JStr "image")]])].

#[local] Instance network : McpNetwork := {|
  connection_fails := fun n => if (n =? 0)%nat then Some (PlainError "ECONNREFUSED") else None;
  tools_answer := fun _ => inr ["resolve-library-id"; "get-library-docs"; "delete-everything"];
  call_answer := fun n =>
    inr (text_result (if (n =? 3)%nat then "- context7-compatible library id:  /facebook/react
- Title: React" else "useState")) |}.

Definition no_clients : McpWorld := {| mc_clients := ∅; mc_urls := []; mc_log := [] |}.
Definition query : json := JObj [("library", JStr "react"); ("query", JStr "hooks")].

(** The first connection fails and the second call makes another one. *)
Example the_second_call_connects :
  let '(v, r) := run (queryExternalDocs [context7] query) no_clients in
  let '(v', r') := run (queryExternalDocs [context7] query) v in
  r = inl (PlainError "ECONNREFUSED") /\ r' = inr "useState" /\
  mc_log v' =
    [mcp_connect "https://mcp.context7.com/mcp"; mcp_connect "https://mcp.context7.com/mcp"; mcp_listTools 1;
     mcp_callTool 1 "resolve-library-id" (JObj [("libraryName", JStr "react")]);
     mcp_callTool 1 "get-library-docs"
       (JObj [("context7CompatibleLibraryID", JStr "/facebook/react"); ("topic", JStr "hooks")])].
Proof. vm_compute. done. Qed.

Definition after_failure : McpWorld := {|
  mc_clients := ∅; mc_urls := [mcp_url context7]; mc_log := [mcp_connect (mcp_url context7)] |}.
End McpExamples.

Lemma only_the_two_tools_are_called_witness :
  allowed_log [McpExamples.context7] McpExamples.after_failure /\
  Forall (allowed_request [McpExamples.context7])
    (mc_log (run (@queryExternalDocs McpExamples.network [McpExamples.context7] McpExamples.query) McpExamples.after_failure).1).
Proof.
  assert (H0 : allowed_log [McpExamples.context7] McpExamples.after_failure).
  { repeat constructor. exists McpExamples.context7. by split; [left|]. }
  split; [exact H0|].
  set (p := @queryExternalDocs McpExamples.network [McpExamples.context7] McpExamples.query).
  apply (@only_the_two_tools_are_called McpExamples.network [McpExamples.context7] McpExamples.after_failure
    (Config (run p McpExamples.after_failure).1 ([] ++ Ret tt :: [])) H0).
  eapply reachable_run1 with (p := discard p).
  - eapply reach_step; [apply reach_init|]. apply (step_spawn _ _ _ []). left. by exists McpExamples.query.
  - assert (Hs : match run p McpExamples.after_failure with (_, inr _) => True | _ => False end) by (vm_compute; exact I).
    unfold discard. rewrite run_bind. by destruct (run p McpExamples.after_failure) as [v [e|x]].
Defined.
