(* ===== verification/Endpoints.v ===== *)
(** * Endpoints: the requests of the app that read and set the services

    [audit.controller.ts], [orchestrator.controller.ts] with [listRuns] of the ledger,
    [chat-model-preference.controller.ts], [autonomy.controller.ts], [memory.controller.ts] and
    [relay-dashboard.controller.ts]: what each request takes, what it asks of its service and
    what it answers.  A body of an answer that its own schema refuses is an error of HTTP
    500. *)
From stdpp Require Import sorting.
From S2P Require Import Prelude Effects Js Text Registry Store AuditApi AuditLog Hitl Autonomy FeatureFlags Models Budget Sanitizer TelegramFormat Relay Memory Agent Orchestrator TerminalClient Previews Integrations.
From Stdlib Require Import Ascii String.
Local Open Scope stdpp_scope.
Local Open Scope Z_scope.
Local Open Scope jin_scope.

(** What a request gets: a refusal of its schema, an answer, or the error of an answer that the
    schema of the endpoint does not take. *)
Inductive Reply (A : Type) :=
| reply_refused
| reply_ok (body : A)
| reply_unserializable.
Arguments reply_refused {A}. Arguments reply_ok {A}. Arguments reply_unserializable {A}.

(** [z.coerce.number().int().positive().max(most).default(least)] of a parameter of the query. *)
Definition coerced_limit (most default_limit : Z) (v : option string) : option nat :=
  match v with
  | None => Some (Z.to_nat default_limit)
  | Some s => n ← Number_integer (text_of s); if (0 <? n) && (n <=? most) then Some (Z.to_nat n) else None
  end.

Lemma coerced_limit_bounds most d v n : 0 < d <= most -> coerced_limit most d v = Some n -> 0 < Z.of_nat n <= most.
Proof.
  intros Hd. unfold coerced_limit. destruct v as [s|]; [|intros [= <-]; lia].
  intros H. apply bind_Some in H as (z & _ & H). destruct (_ && _) eqn:E; [|done]. injection H as <-.
  apply andb_true_iff in E as [E1 E2]. apply Z.ltb_lt in E1. apply Z.leb_le in E2. lia.
Qed.

Definition nullable {A} (f : A -> json) (o : option A) : json := match o with Some a => f a | None => JNull end.

(** ** audit.controller.ts *)

Module AuditController.
Section Controller.
Context (is_uuid : string -> bool).

Record ListQuery := { lq_limit : nat; lq_cursor : option string; lq_requestId : option string }.

Definition ListQuerySchema (limit cursor requestId : option string) : option ListQuery :=
  limit ← coerced_limit 200 50 limit;
  requestId ← match requestId with None => Some None | Some r => if is_uuid r then Some (Some r) else None end;
  Some {| lq_limit := limit; lq_cursor := cursor; lq_requestId := requestId |}.

Definition entry_json (row : AuditLogRow) : json :=
  let c := al_content row in
  JObj [("id", JStr (pretty (al_id row))); ("requestId", JStr (hr_requestId c));
        ("timestamp", JStr (to_iso_string (hr_timestamp c))); ("actor", JStr (hr_actor c));
        ("actionType", JStr (hr_actionType c)); ("toolName", nullable JStr (hr_toolName c));
        ("inputsHash", JStr (hr_inputsHash c)); ("planSummary", nullable JStr (hr_planSummary c));
        ("approvalStatus", JStr (hr_approvalStatus c)); ("approver", nullable JStr (hr_approver c));
        ("externalInputsSummary", nullable JStr (hr_externalInputsSummary c));
        ("prevHash", JStr (al_prevHash row)); ("currentHash", JStr (al_currentHash row))].

Definition list (limit cursor requestId : option string) : jin (Reply json) :=
  match ListQuerySchema limit cursor requestId with
  | None => Ret reply_refused
  | Some query =>
      result <- listRecent (lq_limit query) (lq_cursor query) (lq_requestId query) ;;
      Ret (reply_ok (JObj [("items", JArr (map entry_json result.1)); ("nextCursor", nullable JStr result.2)]))
  end.
End Controller.
End AuditController.

(** ** The runs of the ledger, and orchestrator.controller.ts *)

Definition newer_run (a b : RunSummary) : Prop := run_createdAt (rs_row b) <= run_createdAt (rs_row a).
#[export] Instance newer_run_dec a b : Decision (newer_run a b).
Proof. unfold newer_run. apply _. Defined.

Definition run_status_text (s : AgentRunStatus) : string :=
  match s with
  | run_running => "running" | run_blocked => "blocked" | run_done => "done" | run_failed => "failed" | run_killed => "killed"
  end.

Module OrchestratorController.
Section Controller.
Context `{DateParse}.

Definition summaries (l : LedgerDb) : list RunSummary :=
  map (fun kv => {| rs_id := kv.1; rs_row := kv.2 |}) (map_to_list (agentOrchestrationRuns l)).

(** [input.cursor ? lt(createdAt, new Date(input.cursor)) : undefined]: a date that is not one
    throws when the query is built. *)
Definition before_cursor (cursor : option string) : JinError + option Z :=
  match cursor with
  | Some c => if truthy c then match new_Date c with Some t => inr (Some t) | None => inl (PlainError "Invalid time value") end
              else inr None
  | None => inr None
  end.

Definition run_page (limit : nat) (before : option Z) (l : LedgerDb) : list RunSummary * option string :=
  let rows := take (limit + 1) (merge_sort newer_run
    (List.filter (fun r => match before with Some t => run_createdAt (rs_row r) <? t | None => true end) (summaries l))) in
  let hasMore := (limit <? List.length rows)%nat in
  let items := if hasMore then take limit rows else rows in
  (items, if hasMore then option_map (fun r => to_iso_string (run_createdAt (rs_row r))) (last items) else None).

(** [LedgerRepository.listRuns] *)
Definition listRuns (limit : nat) (cursor : option string) : jin (list RunSummary * option string) :=
  match before_cursor cursor with
  | inl e => Throw e
  | inr before => db_read (fun w => run_page limit before (w_ledger w))
  end.

Definition run_json (r : RunSummary) : json :=
  let row := rs_row r in
  JObj [("id", JStr (rs_id r)); ("objective", JStr (run_objective row)); ("status", JStr (run_status_text (run_status row)));
        ("parentSessionId", JStr (run_parentSessionId row)); ("finalResponse", nullable JStr (run_finalResponse row));
        ("createdAt", JStr (to_iso_string (run_createdAt row)));
        ("completedAt", nullable (fun t => JStr (to_iso_string t)) (run_completedAt row))].

Definition list_runs (limit cursor : option string) : jin (Reply json) :=
  match coerced_limit 200 20 limit with
  | None => Ret reply_refused
  | Some limit =>
      result <- listRuns limit cursor ;;
      Ret (reply_ok (JObj [("items", JArr (map run_json result.1)); ("nextCursor", nullable JStr result.2)]))
  end.

Definition comment_json (c : TicketComment) : json :=
  JObj [("id", JStr (pretty (tc_id c))); ("ticketId", JStr (tc_ticketId c)); ("authorType", JStr (tc_authorType c));
        ("authorId", nullable JStr (tc_authorId c)); ("kind", JStr (tc_kind c)); ("body", JStr (tc_body c))].

Definition ticket_json (t : Ticket) (comments : list TicketComment) : json :=
  JObj [("id", JStr (t_id t)); ("runId", JStr (t_runId t)); ("description", JStr (t_description t));
        ("status", JStr (ticket_status_name (t_status t))); ("assignedSubAgentId", nullable JStr (t_assignedSubAgentId t));
        ("allowedTools", JArr (map JStr (t_allowedTools t))); ("dependsOn", JArr (map (nullable JStr) (t_dependsOn t)));
        ("result", nullable JStr (t_result t)); ("comments", JArr (map comment_json comments))].

(** [RunDetailResponseSchema]: the dependencies of a ticket are strings. *)
Definition ticket_serializable (t : Ticket) : bool :=
  forallb (fun d => match d with Some _ => true | None => false end) (t_dependsOn t).

(** The comments of each ticket, one read after another. *)
Fixpoint with_comments (tickets : list Ticket) : jin (list (Ticket * list TicketComment)) :=
  match tickets with
  | [] => Ret []
  | t :: tickets' =>
      comments <- Ledger.getComments (t_id t) ;;
      rest <- with_comments tickets' ;;
      Ret ((t, comments) :: rest)
  end.

Definition get_run (runId : string) : jin (Reply json) :=
  run <- Ledger.getRun runId ;;
  match run with
  | None => Throw (RunNotFoundError runId)
  | Some run =>
      tickets <- Ledger.getTickets runId ;;
      ticketsWithComments <- with_comments tickets ;;
      if forallb ticket_serializable tickets then
        Ret (reply_ok (JObj [("run", run_json run);
                             ("tickets", JArr (map (fun tc => ticket_json tc.1 tc.2) ticketsWithComments))]))
      else Ret reply_unserializable
  end.
End Controller.
End OrchestratorController.

(** ** chat-model-preference.controller.ts *)

Module ChatModelPreferenceController.
Section Controller.
Context (catalog : list ChatModelOption).

Definition REQUESTED_BY : string := "owner:api".

Definition VendorSchema (v : json) : option string := one_of_names ["anthropic"; "google"; "openai"] v.
Definition EffortSchema (v : json) : option string := one_of_names ["low"; "medium"; "high"] v.

Record SetPreference := { sp_vendor : string; sp_modelId : string; sp_effort : option string }.

(** [effort] may be absent or [null]. *)
Definition SetPreferenceBodySchema (v : json) : option SetPreference :=
  vendor ← json_field "vendor" v ≫= VendorSchema;
  modelId ← json_field "modelId" v ≫= (fun x => refine (fun s => 1 <=? js_length s) (as_string x));
  effort ← optional "effort" (fun x => match x with JNull => Some None | _ => Some <$> EffortSchema x end) v;
  Some {| sp_vendor := vendor; sp_modelId := modelId; sp_effort := default None effort |}.

Definition option_json (o : ChatModelOption) : json :=
  JObj [("vendor", JStr (vendor_name (cmo_vendor o))); ("modelId", JStr (cmo_modelId o)); ("label", JStr (cmo_label o));
        ("supportsEffort", JBool (cmo_supportsEffort o))].

Definition preference_json (p : ChatModelPreference) : json :=
  JObj [("vendor", JStr (cmp_vendor p)); ("modelId", JStr (cmp_modelId p)); ("effort", nullable JStr (cmp_effort p));
        ("setBy", JStr (cmp_setBy p)); ("changedAt", JStr (cmp_changedAt p))].

(** [ChatModelPreferenceSchema]: what is in the database was not always written by this version. *)
Definition preference_serializable (p : ChatModelPreference) : bool :=
  existsb (String.eqb (cmp_vendor p)) ["anthropic"; "google"; "openai"] &&
  match cmp_effort p with Some e => existsb (String.eqb e) ["low"; "medium"; "high"] | None => true end.

Definition describe : jin (Reply json) :=
  preference <- ChatPreference.getPreference ;;
  if match preference with Some p => preference_serializable p | None => true end then
    Ret (reply_ok (JObj [("catalog", JArr (map option_json (ChatPreference.listCatalog catalog)));
                         ("preference", nullable preference_json preference)]))
  else Ret reply_unserializable.

Definition getStatus : jin (Reply json) := ChatPreference.refresh ;;; describe.

Definition setPreference (body : json) : jin (Reply json) :=
  match SetPreferenceBodySchema body with
  | None => Ret reply_refused
  | Some body =>
      ChatPreference.setPreference catalog (sp_vendor body) (sp_modelId body) (sp_effort body) REQUESTED_BY ;;;
      describe
  end.

Definition clearPreference : jin (Reply json) := ChatPreference.clearPreference REQUESTED_BY ;;; describe.
End Controller.
End ChatModelPreferenceController.

(** ** autonomy.controller.ts *)

Module AutonomyController.
Section Controller.
Context `{Api : AuditApi} `{Crypto : NodeCrypto} (autonomy : AutonomyConfig).

Definition limits_json (l : ModeLimits) : json :=
  JObj [("defaultHours", JNum (ml_defaultHours l)); ("maxHours", JNum (ml_maxHours l))].

Definition status_json (d : AutonomyDescription) : json :=
  JObj [("mode", JStr (mode_name (ad_mode d))); ("expiresAt", nullable JStr (ad_expiresAt d));
        ("remainingSeconds", nullable JNum (ad_remainingSeconds d)); ("setBy", JStr (ad_setBy d));
        ("limits", JObj [("semiAuto", limits_json (ac_semiAuto (ad_limits d))); ("auto", limits_json (ac_auto (ad_limits d)));
                         ("maxRelaxedActionsPerHour", JNum (ac_maxRelaxedActionsPerHour (ad_limits d)))]);
        ("guardedInSemiAuto", JArr (map JStr (ad_guardedInSemiAuto d)))].

Definition getStatus : jin (Reply json) := d <- Autonomy.describe autonomy ;; Ret (reply_ok (status_json d)).

Definition ChangeModeBodySchema (v : json) : option (AutonomyMode * option Z) :=
  mode ← json_field "mode" v ≫= (fun x => as_string x ≫= parseAutonomyMode);
  hours ← optional "hours" (fun x => refine (fun n => 0 <? n) (as_number x)) v;
  Some (mode, hours).

Definition result_json (r : ModeChangeResult) : json :=
  match r with
  | mc_applied mode expiresAt =>
      JObj [("status", JStr "applied"); ("mode", JStr (mode_name mode)); ("expiresAt", nullable JStr expiresAt)]
  | mc_pending_approval requestId mode hours =>
      JObj [("status", JStr "pending-approval"); ("requestId", JStr requestId); ("mode", JStr (mode_name mode));
            ("hours", JNum hours)]
  end.

Definition changeMode (body : json) : jin (Reply json) :=
  match ChangeModeBodySchema body with
  | None => Ret reply_refused
  | Some (mode, hours) =>
      result <- Autonomy.requestModeChange autonomy mode hours "owner:api" ;; Ret (reply_ok (result_json result))
  end.
End Controller.
End AutonomyController.

(** ** memory.controller.ts *)

Module MemoryController.
Section Controller.
Context {Space : VectorSpace} (embeddings_create : string -> jin (list Vec)).

Record RecallBody := { rb_query : string; rb_k : nat; rb_filters : option RecallFilters }.

(** The filters that the body has, which are those of [buildRecallFilters]. *)
Definition buildRecallFilters (v : json) : option RecallFilters :=
  match v with
  | JObj _ =>
      tipo ← optional "tipo" (fun x => as_string x ≫= parseMemoryEntryType) v;
      fuente ← optional "fuente" as_string v;
      sessionId ← optional "sessionId" as_string v;
      Some {| rf_tipo := tipo; rf_fuente := fuente; rf_sessionId := sessionId |}
  | _ => None
  end.

Definition RecallBodySchema (v : json) : option RecallBody :=
  query ← json_field "query" v ≫= (fun x => refine (fun s => 1 <=? js_length s) (as_string x));
  k ← optional "k" (fun x => refine (fun n => (0 <? n) && (n <=? 50)) (as_number x)) v;
  filters ← optional "filters" buildRecallFilters v;
  Some {| rb_query := query; rb_k := Z.to_nat (default 5 k); rb_filters := filters |}.

Definition recall (body : json) : prog KnowledgeWorld JinError (Reply (list MemoryEntry)) :=
  match RecallBodySchema body with
  | None => Ret reply_refused
  | Some body => entries <- Memory.recall embeddings_create (rb_query body) (rb_k body) (rb_filters body) ;;
                 Ret (reply_ok entries)
  end.
End Controller.
End MemoryController.

(** ** relay-dashboard.controller.ts *)

Module RelayDashboardController.
Section Controller.
Context `{!UnicodeTable} (is_uuid : string -> bool).

Definition messages (limit : option string) : prog RelayWorld JinError (Reply (list RelayHistoryMessage)) :=
  match coerced_limit 500 50 limit with
  | None => Ret reply_refused
  | Some limit => messages <- RelayService.history limit ;; Ret (reply_ok messages)
  end.

Definition RelayReplySchema (v : json) : option (text * option string) :=
  body ← json_field "body" v ≫= (fun x => refine (length_between 1 MAX_BODY_LENGTH) (as_string x));
  answerTo ← optional "answerTo" (fun x => refine is_uuid (as_string x)) v;
  Some (text_of body, answerTo).

Definition reply (v : json) : prog RelayWorld JinError (Reply json) :=
  match RelayReplySchema v with
  | None => Ret reply_refused
  | Some (body, answerTo) =>
      id <- RelayService.reply body answerTo ;; Ret (reply_ok (JObj [("id", JStr id)]))
  end.
End Controller.
End RelayDashboardController.

(** ** The pages of the runs *)

Section Pages.
Context `{DateParse} (parse_iso : forall t, new_Date (to_iso_string t) = Some t).

Definition date_of (r : RunSummary) : Z := run_createdAt (rs_row r).
Definition sorted_runs (l : LedgerDb) : list RunSummary := merge_sort newer_run (OrchestratorController.summaries l).

(** The client that follows the cursors. *)
Fixpoint all_run_pages (fuel limit : nat) (before : option Z) (l : LedgerDb) : list RunSummary :=
  match fuel with
  | O => []
  | S fuel' =>
      let '(items, cursor) := OrchestratorController.run_page limit before l in
      items ++ match cursor with
               | None => []
               | Some c => match OrchestratorController.before_cursor (Some c) with
                           | inr before => all_run_pages fuel' limit before l
                           | inl _ => []
                           end
               end
  end.

(** The runs of a page that begins before [t] are those that follow in the order. *)
Lemma filter_before_drop (l : list RunSummary) j r :
  StronglySorted (fun a b => date_of b < date_of a) l -> l !! j = Some r ->
  List.filter (fun x => date_of x <? date_of r) l = drop (S j) l.
Proof.
  intros Hd. revert j. induction Hd as [|x l Hd IH Hx]; intros j Hj; [done|].
  rewrite List.Forall_forall in Hx. destruct j as [|j]; cbn in Hj.
  - injection Hj as ->. cbn [List.filter drop]. rewrite Z.ltb_irrefl, drop_0.
    clear -Hx. induction l as [|y l IH]; [done|]. cbn [List.filter].
    rewrite (proj2 (Z.ltb_lt _ _)) by (by apply Hx; left). f_equal. apply IH. intros z Hz. apply Hx. by right.
  - cbn [List.filter drop]. rewrite (IH j Hj).
    assert (date_of r < date_of x) by (apply Hx, list_elem_of_In, list_elem_of_lookup; eauto).
    destruct (Z.ltb_spec (date_of x) (date_of r)); [lia|done].
Qed.

#[local] Instance newer_run_total : Total newer_run.
Proof. intros a b. unfold newer_run. lia. Qed.
#[local] Instance newer_run_transitive : Transitive newer_run.
Proof. intros a b c. unfold newer_run. lia. Qed.

(** Distinct dates make the order strict. *)
Lemma strictly_sorted l : NoDup (map date_of l) -> StronglySorted newer_run l ->
  StronglySorted (fun a b => date_of b < date_of a) l.
Proof.
  intros Hd Hs. induction Hs as [|x l Hs IH Hx]; [constructor|]. cbn in Hd. apply NoDup_cons in Hd as [Hn Hd].
  constructor; [by apply IH|]. rewrite List.Forall_forall in Hx |- *. intros y Hy.
  specialize (Hx y Hy). unfold newer_run in Hx. change (date_of y <= date_of x) in Hx.
  assert (date_of y <> date_of x); [|lia]. intros E. apply Hn. rewrite <- E. apply list_elem_of_fmap_2, list_elem_of_In, Hy.
Qed.

Lemma strict_filter p l : StronglySorted (fun a b => date_of b < date_of a) l ->
  StronglySorted (fun a b => date_of b < date_of a) (List.filter p l).
Proof.
  induction 1 as [|x l Hs IH Hx]; [constructor|]. cbn. destruct (p x); [|done].
  constructor; [done|]. rewrite List.Forall_forall in Hx |- *. intros y [Hy _]%List.filter_In. auto.
Qed.

Lemma strict_is_later l : StronglySorted (fun a b => date_of b < date_of a) l -> StronglySorted newer_run l.
Proof.
  induction 1 as [|x l Hs IH Hx]; constructor; [done|]. rewrite List.Forall_forall in Hx |- *.
  intros y Hy. specialize (Hx y Hy). unfold newer_run. change (date_of y <= date_of x). lia.
Qed.

Lemma filter_permutation {A} p (l1 l2 : list A) : l1 ≡ₚ l2 -> List.filter p l1 ≡ₚ List.filter p l2.
Proof.
  induction 1; cbn; [done| | |by etrans]; repeat case_match; try done; by constructor.
Qed.

Lemma distinct_filter p l : NoDup (map date_of l) -> NoDup (map date_of (List.filter p l)).
Proof.
  induction l as [|x l IH]; [done|]. cbn. intros [Hn Hd]%NoDup_cons. destruct (p x); [|by apply IH].
  cbn. apply NoDup_cons. split; [|by apply IH]. intros Hin. apply Hn.
  apply list_elem_of_fmap in Hin as (y & -> & Hy%list_elem_of_In). apply List.filter_In in Hy as [Hy _].
  by apply list_elem_of_fmap_2, list_elem_of_In.
Qed.

Lemma merge_sort_strict l : NoDup (map date_of l) ->
  StronglySorted (fun a b => date_of b < date_of a) (merge_sort newer_run l).
Proof.
  intros Hd. apply strictly_sorted; [|apply StronglySorted_merge_sort; apply _].
  eapply NoDup_Permutation_proper; [|exact Hd]. apply Permutation_map, merge_sort_Permutation.
Qed.

(** Sorting what begins before an instant is what the order has from there on. *)
Lemma sorted_filter p l : NoDup (map date_of l) ->
  merge_sort newer_run (List.filter p l) = List.filter p (merge_sort newer_run l).
Proof.
  intros Hd. apply (StronglySorted_unique_strong (fun a b => date_of b < date_of a)).
  - intros x1 x2 _ _. lia.
  - by apply merge_sort_strict, distinct_filter.
  - by apply strict_filter, merge_sort_strict.
  - etrans; [apply merge_sort_Permutation|]. symmetry. apply filter_permutation, merge_sort_Permutation.
Qed.

(** One page, from the [k]-th run of the order. *)
Lemma run_page_at limit before l k :
  NoDup (map date_of (OrchestratorController.summaries l)) ->
  List.filter (fun r => match before with Some t => date_of r <? t | None => true end) (sorted_runs l) = drop k (sorted_runs l) ->
  OrchestratorController.run_page limit before l =
  if (k + limit <? List.length (sorted_runs l))%nat
  then (take limit (drop k (sorted_runs l)),
        option_map (fun r => to_iso_string (date_of r)) (last (take limit (drop k (sorted_runs l)))))
  else (drop k (sorted_runs l), None).
Proof.
  intros Hd Hk. unfold OrchestratorController.run_page. rewrite sorted_filter by done.
  change (List.filter _ (merge_sort newer_run _)) with
    (List.filter (fun r => match before with Some t => date_of r <? t | None => true end) (sorted_runs l)).
  rewrite Hk, length_take, length_drop.
  destruct (Nat.ltb_spec (k + limit) (List.length (sorted_runs l))) as [Hlt|Hge].
  - rewrite (proj2 (Nat.ltb_lt _ _)) by lia. rewrite take_take. by replace (limit `min` (limit + 1))%nat with limit by lia.
  - rewrite (proj2 (Nat.ltb_ge _ _)) by lia. rewrite take_ge; [done|]. rewrite length_drop. lia.
Qed.

Lemma truthy_iso t : truthy (to_iso_string t) = true.
Proof.
  unfold to_iso_string. destruct (civil_of_days _) as [[y m] d]. by destruct (year_string y).
Qed.

(** Following the cursors lists every run once, when no two began at the same instant. *)
Lemma every_run_is_listed fuel limit before l k :
  (0 < limit)%nat -> NoDup (map date_of (OrchestratorController.summaries l)) ->
  List.filter (fun r => match before with Some t => date_of r <? t | None => true end) (sorted_runs l) = drop k (sorted_runs l) ->
  (List.length (sorted_runs l) < k + fuel)%nat -> (0 < fuel)%nat ->
  all_run_pages fuel limit before l = drop k (sorted_runs l).
Proof.
  intros Hlim Hd. revert before k. induction fuel as [|fuel IH]; intros before k Hk Hf Hf0; [lia|].
  cbn [all_run_pages]. rewrite (run_page_at limit before l k Hd Hk).
  destruct (Nat.ltb_spec (k + limit) (List.length (sorted_runs l))) as [Hlt|Hge]; [|apply app_nil_r].
  assert (Hlast : exists r, sorted_runs l !! (k + limit - 1)%nat = Some r) by (apply lookup_lt_is_Some_2; lia).
  destruct Hlast as [r Hr].
  assert (last (take limit (drop k (sorted_runs l))) = Some r) as ->.
  { rewrite last_lookup, length_take, length_drop, lookup_take_lt by lia.
    rewrite lookup_drop, <- Hr. f_equal. lia. }
  cbn [option_map]. unfold OrchestratorController.before_cursor.
  rewrite truthy_iso, parse_iso.
  rewrite <- (take_drop limit (drop k (sorted_runs l))) at 2. rewrite drop_drop. f_equal.
  replace (k + limit)%nat with (S (k + limit - 1)) by lia.
  apply IH; [|lia|lia]. by apply filter_before_drop; [apply merge_sort_strict|].
Qed.
End Pages.

(** *** Runs that began together *)
Module EndpointExamples.
#[local] Instance epoch : DateParse := {| date_parse := fun _ => Some 0 |}.

Definition run_at_0 : AgentOrchestrationRunRow := {|
  run_objective := "o"; run_status := run_running; run_parentSessionId := "s"; run_finalResponse := None;
  run_createdAt := 0; run_completedAt := None |}.

Definition together : LedgerDb := {|
  agentOrchestrationRuns := {[ "a" := run_at_0; "b" := run_at_0; "c" := run_at_0 ]};
  agentTickets := []; agentTicketComments := [] |}.

(** Two of the three are on no page. *)
Example some_runs_are_not_listed :
  List.length (sorted_runs together) = 3%nat /\ List.length (all_run_pages 5 1 None together) = 1%nat.
Proof. vm_compute. done. Qed.

(** A ticket with a dependency that does not exist hides its run. *)
Definition dangling : World :=
  upd_ledger (fun _ => {| agentOrchestrationRuns := {[ "a" := run_at_0 ]};
    agentTickets := [{| t_id := "t"; t_runId := "a"; t_description := "d"; t_status := tk_pending;
                        t_assignedSubAgentId := None; t_allowedTools := []; t_dependsOn := [None]; t_result := None |}];
    agentTicketComments := [] |}) (empty_world 0).

Example a_dangling_dependency_hides_its_run :
  (run (OrchestratorController.get_run "a") dangling).2 = inr reply_unserializable.
Proof. vm_compute. reflexivity. Qed.

Example an_unknown_run : (run (OrchestratorController.get_run "x") dangling).2 = inl (RunNotFoundError "x").
Proof. vm_compute. reflexivity. Qed.

Example limits : coerced_limit 200 50 (Some "") = None /\ coerced_limit 200 50 (Some " 0x10 ") = Some 16%nat /\
  coerced_limit 200 50 (Some "201") = None /\ coerced_limit 200 50 None = Some 50%nat.
Proof. vm_compute. done. Qed.
End EndpointExamples.
