(* ===== verification/Migrations.v ===== *)
(** * Migrations: undoing the last migration of the database

    [src/db/migrate-down.ts], and the migrations it undoes ([drizzle/]): the journal, and the
    statements of each script and of its [.down.sql].  A schema is the columns of each table
    and the tables its foreign keys name; an index goes with its table, and the rows the
    scripts put in their own tables are left out.  Postgres is the connection of the pool
    that the statements share: what it commits, and what it forgets.  Applying the migrations
    ([migrate.ts]) is a call of drizzle, which is not modelled. *)
From S2P Require Import Prelude Effects Store.
From Stdlib Require Import Sorted String.
Local Open Scope stdpp_scope.
Local Open Scope Z_scope.
Local Open Scope jin_scope.

(** ** Scripts *)

Record Table := { tb_columns : gset string; tb_references : gset string }.
#[global] Instance Table_eq_dec : EqDecision Table. Proof. solve_decision. Defined.
Abbreviation Schema := (gmap string Table).

Inductive Statement :=
| CREATE_TABLE (if_not_exists : bool) (name : string) (columns references : list string)
| ADD_COLUMN (if_not_exists : bool) (table column : string)
| ADD_FOREIGN_KEY (table target : string)
| DROP_TABLE (name : string)                     (* [IF EXISTS], without [CASCADE] *)
| DROP_COLUMN (if_exists : bool) (table column : string).

(** Some other table has a foreign key to this one. *)
Definition is_referenced (name : string) (s : Schema) : bool :=
  existsb (fun kt => negb (String.eqb (fst kt) name) && bool_decide (name ∈ tb_references (snd kt))) (map_to_list s).

(** A statement, or [None] where Postgres refuses it. *)
Definition execute (q : Statement) (s : Schema) : option Schema :=
  match q with
  | CREATE_TABLE quiet name columns references =>
      match s !! name with
      | Some _ => if quiet then Some s else None
      | None => if forallb (fun r => bool_decide (is_Some (s !! r))) references
                then Some (<[name := {| tb_columns := list_to_set columns; tb_references := list_to_set references |}]> s)
                else None
      end
  | ADD_COLUMN quiet table column =>
      t ← s !! table;
      if bool_decide (column ∈ tb_columns t) then (if quiet then Some s else None)
      else Some (<[table := {| tb_columns := {[column]} ∪ tb_columns t; tb_references := tb_references t |}]> s)
  | ADD_FOREIGN_KEY table target =>
      t ← s !! table; _ ← s !! target;
      Some (<[table := {| tb_columns := tb_columns t; tb_references := {[target]} ∪ tb_references t |}]> s)
  | DROP_TABLE name => if is_referenced name s then None else Some (delete name s)
  | DROP_COLUMN quiet table column =>
      t ← s !! table;
      if bool_decide (column ∈ tb_columns t)
      then Some (<[table := {| tb_columns := tb_columns t ∖ {[column]}; tb_references := tb_references t |}]> s)
      else (if quiet then Some s else None)
  end.

Definition run_script (script : list Statement) (s : Schema) : option Schema :=
  fold_left (fun s q => s ≫= execute q) script (Some s).

(** ** The connection *)

(** [drizzle.__drizzle_migrations] has the [created_at] of each migration applied. *)
Record Database := { schema : Schema; applied : list Z }.
#[global] Instance Database_eq_dec : EqDecision Database. Proof. solve_decision. Defined.

(** A session of Postgres: what is committed, and its open transaction, [Some None] after a
    statement that failed. *)
Record Pool := { committed : Database; transaction : option (option Database) }.

Inductive Query := BEGIN | SCRIPT (sql : list Statement) | DELETE_MIGRATION (created_at : Z) | COMMIT | ROLLBACK.

Definition connected (db : Database) : Pool := {| committed := db; transaction := None |}.

(** What a statement does to the database it sees. *)
Definition effect (q : Query) (db : Database) : option Database :=
  match q with
  | SCRIPT sql => s ← run_script sql (schema db); Some {| schema := s; applied := applied db |}
  | DELETE_MIGRATION at_ => Some {| schema := schema db; applied := filter (fun a => a <> at_) (applied db) |}
  | _ => Some db
  end.

Abbreviation migration := (prog Pool JinError).

Section Down.
(** A statement that fails for a reason of its own: a lock, a time limit, the network. *)
Context (fails : Query -> bool).

(** The session after a statement, and whether it succeeded. *)
Definition answer_of (q : Query) (p : Pool) : Pool * bool :=
  if fails q then ({| committed := committed p; transaction := (fun _ => None) <$> transaction p |}, false)
  else
    match q, transaction p with
    | BEGIN, None => ({| committed := committed p; transaction := Some (Some (committed p)) |}, true)
    | COMMIT, Some (Some db) => (connected db, true)
    | COMMIT, _ | ROLLBACK, _ => (connected (committed p), true)
    | _, None =>
        match effect q (committed p) with Some db => (connected db, true) | None => (p, false) end
    | _, Some None => (p, false)
    | _, Some (Some db) =>
        ({| committed := committed p; transaction := Some (effect q db) |}, bool_decide (is_Some (effect q db)))
    end.

(** [await pool.query(q)] *)
Definition query (q : Query) : migration unit :=
  Act (answer_of q) (fun ok : bool => if ok then Ret tt else Throw (PlainError "query")).

(** [await pool.end()]: an open transaction is forgotten with its session. *)
Definition pool_end : migration unit := writes (fun p => connected (committed p)).

(** [try { p } finally { last }] *)
Definition finally {A} (p : migration A) (last : migration unit) : migration A :=
  try_with p (fun a => last ;;; Ret a) (fun e => last ;;; Throw e).

Record JournalEntry := { tag : string; when : Z }.

(** [readFileSync] of [<tag>.down.sql] *)
Context (downFile : string -> JinError + list Statement).

(** The migration that is said to be undone, [None] when the journal has none. *)
Definition main (journal : list JournalEntry) : migration (option string) :=
  match last journal with
  | None => Ret None
  | Some last =>
      match downFile (tag last) with
      | inl e => Throw e
      | inr downSql =>
          finally
            (catch
               (query BEGIN ;;;
                query (SCRIPT downSql) ;;;
                query (DELETE_MIGRATION (when last)) ;;;
                query COMMIT ;;;
                Ret (Some (tag last)))
               (fun error => query ROLLBACK ;;; Throw error))
            pool_end
      end
  end.

(** *** All or nothing *)

Lemma run_finally {A} (p : migration A) (fin : migration unit) w :
  run (finally p fin) w =
  let '(w', r) := run p w in let '(w'', f) := run fin w' in
  (w'', match f with inl e => inl e | inr _ => r end).
Proof.
  unfold finally. rewrite run_try_with. destruct (run p w) as [w' [e|a]]; rewrite run_bind;
    by destruct (run fin w') as [w'' [e'|[]]].
Qed.

Lemma run_query q p :
  run (query q) p = (fst (answer_of q p), if snd (answer_of q p) then inr tt else inl (PlainError "query")).
Proof. unfold query. cbn [run]. by destruct (answer_of q p) as [p' []]. Qed.

(** What the last migration leaves, when its script can run. *)
Definition undone (entry : JournalEntry) (db : Database) : option Database :=
  match downFile (tag entry) with
  | inl _ => None
  | inr sql => effect (SCRIPT sql) db ≫= effect (DELETE_MIGRATION (when entry))
  end.

(** A failed statement ends the transaction: only [COMMIT] changes what is committed. *)
Lemma rolled_back db t :
  run (query ROLLBACK ;;; @Throw Pool JinError (option string) (PlainError "query"))
    {| committed := db; transaction := t |} =
  ({| committed := db; transaction := if fails ROLLBACK then (fun _ => None) <$> t else None |}, inl (PlainError "query")).
Proof.
  rewrite run_bind, run_query. unfold answer_of. destruct (fails ROLLBACK); [done|]. by destruct t as [[?|]|].
Qed.

(** Whatever statement fails, the script and the row of the migration go together: the
    command says that it undid the last migration and it did, or it fails and the database
    is what it was; no transaction stays open. *)
Lemma reverting_is_all_or_nothing journal db :
  let '(p, r) := run (main journal) (connected db) in
  transaction p = None /\
  match r, last journal with
  | inr None, None => committed p = db
  | inr (Some t), Some entry => t = tag entry /\ undone entry db = Some (committed p)
  | inl _, Some _ => committed p = db
  | _, _ => False
  end.
Proof.
  unfold main. destruct (last journal) as [entry|]; [|done].
  unfold undone. destruct (downFile (tag entry)) as [e|sql] eqn:Hf; [done|].
  rewrite run_finally, run_catch.
  rewrite run_bind, run_query. unfold answer_of, connected. cbn [committed transaction].
  destruct (fails BEGIN); cbn [fst snd fmap]; [by rewrite rolled_back|].
  rewrite run_bind, run_query. unfold answer_of. cbn [committed transaction].
  destruct (fails (SCRIPT sql)); cbn [fst snd fmap]; [by rewrite rolled_back|].
  destruct (effect (SCRIPT sql) db) as [db'|]; cbn [mbind option_bind]; case_bool_decide as Hs;
    [|by destruct Hs|by destruct Hs|by rewrite rolled_back].
  rewrite run_bind, run_query. unfold answer_of. cbn [committed transaction].
  destruct (fails (DELETE_MIGRATION _)); cbn [fst snd fmap]; [by rewrite rolled_back|].
  cbn [effect]. rewrite bool_decide_true by done.
  rewrite run_bind, run_query. unfold answer_of. cbn [committed transaction].
  by destruct (fails COMMIT); cbn [fst snd fmap]; [rewrite rolled_back|].
Qed.
End Down.

(** ** The migrations of the repository *)
Module Drizzle.
Definition journal : list JournalEntry :=
  [{| tag := "0000_init_audit_log"; when := 1784677930051 |};
   {| tag := "0001_wandering_demogoblin"; when := 1784866996872 |};
   {| tag := "0002_complete_hedge_knight"; when := 1784872000824 |};
   {| tag := "0003_google_oauth_state"; when := 1784880000000 |};
   {| tag := "0004_agent_ledger"; when := 1784900000000 |};
   {| tag := "0005_telegram_sessions"; when := 1784910000000 |};
   {| tag := "0006_pending_approval_provenance"; when := 1785887805568 |};
   {| tag := "0007_audit_chain_lock"; when := 1785905941188 |};
   {| tag := "0008_feature_flag_hitl_overrides"; when := 1789360048621 |};
   {| tag := "0009_corpus_pgvector"; when := 1789450000000 |};
   {| tag := "0010_pending_approval_claim"; when := 1789540000000 |};
   {| tag := "0011_autonomy_mode_state"; when := 1789630000000 |};
   {| tag := "0012_shadowing_runs"; when := 1789720000000 |};
   {| tag := "0013_relay_messages"; when := 1789810000000 |};
   {| tag := "0014_push_devices"; when := 1790460000000 |};
   {| tag := "0015_chat_model_preference"; when := 1790650000000 |};
   {| tag := "0016_project_snapshots"; when := 1790740000000 |}].

Definition up_0000 : list Statement :=
  [CREATE_TABLE false "audit_log" ["id"; "request_id"; "timestamp"; "actor"; "action_type"; "tool_name";
     "inputs_hash"; "plan_summary"; "approval_status"; "approver"; "external_inputs_summary"; "prev_hash";
     "current_hash"] [];
   CREATE_TABLE false "pending_approvals" ["request_id"; "tool_name"; "level"; "inputs_hash"; "plan_summary";
     "created_at"; "first_approved_at"; "first_approver"; "available_at"; "escalated_at"] []].
Definition down_0000 : list Statement :=
  [DROP_TABLE "pending_approvals";
   DROP_TABLE "audit_log"].

Definition up_0001 : list Statement :=
  [CREATE_TABLE false "budget_daily_usage" ["date"; "input_tokens"; "output_tokens"; "cost_usd"; "updated_at"] [];
   CREATE_TABLE false "budget_hourly_usage" ["hour_bucket"; "input_tokens"; "output_tokens"; "cost_usd"] [];
   CREATE_TABLE false "budget_kill_switch" ["id"; "active"; "activated_at"; "reason"] []].
Definition down_0001 : list Statement :=
  [DROP_TABLE "budget_kill_switch";
   DROP_TABLE "budget_hourly_usage";
   DROP_TABLE "budget_daily_usage"].

Definition up_0002 : list Statement :=
  [ADD_COLUMN false "pending_approvals" "payload"].
Definition down_0002 : list Statement :=
  [DROP_COLUMN false "pending_approvals" "payload"].

Definition up_0003 : list Statement :=
  [CREATE_TABLE true "google_oauth_token_state" ["id"; "last_refreshed_at"; "updated_at"] []].
Definition down_0003 : list Statement :=
  [DROP_TABLE "google_oauth_token_state"].

Definition up_0004 : list Statement :=
  [CREATE_TABLE true "agent_orchestration_runs" ["id"; "objective"; "status"; "parent_session_id";
     "final_response"; "created_at"; "completed_at"] [];
   CREATE_TABLE true "agent_tickets" ["id"; "run_id"; "description"; "status"; "assigned_sub_agent_id";
     "allowed_tools"; "depends_on"; "result"; "created_at"; "updated_at"] ["agent_orchestration_runs"];
   CREATE_TABLE true "agent_ticket_comments" ["id"; "ticket_id"; "author_type"; "author_id"; "kind"; "body";
     "created_at"] ["agent_tickets"]].
Definition down_0004 : list Statement :=
  [DROP_TABLE "agent_ticket_comments";
   DROP_TABLE "agent_tickets";
   DROP_TABLE "agent_orchestration_runs"].

Definition up_0005 : list Statement :=
  [CREATE_TABLE true "telegram_sessions" ["id"; "transcript"; "status"; "last_activity_at"; "created_at"] []].
Definition down_0005 : list Statement :=
  [DROP_TABLE "telegram_sessions"].

Definition up_0006 : list Statement :=
  [ADD_COLUMN true "pending_approvals" "actor";
   ADD_COLUMN true "pending_approvals" "external_inputs_summary"].
Definition down_0006 : list Statement :=
  [DROP_COLUMN true "pending_approvals" "external_inputs_summary";
   DROP_COLUMN true "pending_approvals" "actor"].

Definition up_0007 : list Statement :=
  [CREATE_TABLE true "audit_chain_lock" ["id"; "locked"; "locked_at"; "reason"] []].
Definition down_0007 : list Statement :=
  [DROP_TABLE "audit_chain_lock"].

Definition up_0008 : list Statement :=
  [CREATE_TABLE true "feature_flag_hitl_overrides" ["tool_name"; "level"; "approved_at"; "approver"] []].
Definition down_0008 : list Statement :=
  [DROP_TABLE "feature_flag_hitl_overrides"].

Definition up_0009 : list Statement :=
  [CREATE_TABLE true "corpus_entries" ["id"; "source"; "source_id"; "content"; "metadata"; "created_at"] [];
   CREATE_TABLE true "corpus_embeddings" ["id"; "entry_id"; "embedding"; "modelo_embedding"] [];
   ADD_FOREIGN_KEY "corpus_embeddings" "corpus_entries"].
Definition down_0009 : list Statement :=
  [DROP_TABLE "corpus_embeddings";
   DROP_TABLE "corpus_entries"].

Definition up_0010 : list Statement :=
  [ADD_COLUMN true "pending_approvals" "executing_at";
   ADD_COLUMN true "pending_approvals" "execution_error"].
Definition down_0010 : list Statement :=
  [DROP_COLUMN true "pending_approvals" "execution_error";
   DROP_COLUMN true "pending_approvals" "executing_at"].

Definition up_0011 : list Statement :=
  [CREATE_TABLE true "autonomy_mode_state" ["id"; "mode"; "expires_at"; "set_by"; "approval_request_id";
     "changed_at"; "relaxed_count"; "window_started_at"] []].
Definition down_0011 : list Statement :=
  [DROP_TABLE "autonomy_mode_state"].

Definition up_0012 : list Statement :=
  [CREATE_TABLE true "shadowing_runs" ["id"; "ran_at"; "status"; "error"; "summary_markdown"; "courses_checked";
     "announcements_count"; "assignments_count"; "model_id"] []].
Definition down_0012 : list Statement :=
  [DROP_TABLE "shadowing_runs"].

Definition up_0013 : list Statement :=
  [CREATE_TABLE true "relay_messages" ["id"; "direction"; "body"; "options"; "answer_to"; "telegram_message_id";
     "created_at"; "consumed_at"] []].
Definition down_0013 : list Statement :=
  [DROP_TABLE "relay_messages"].

Definition up_0014 : list Statement :=
  [CREATE_TABLE true "push_devices" ["token"; "environment"; "preferences"; "created_at"; "last_seen_at"] [];
   CREATE_TABLE true "push_activity_tokens" ["token"; "environment"; "purpose"; "kind"; "reference_id";
     "created_at"] []].
Definition down_0014 : list Statement :=
  [DROP_TABLE "push_activity_tokens";
   DROP_TABLE "push_devices"].

Definition up_0015 : list Statement :=
  [CREATE_TABLE true "chat_model_preference" ["id"; "vendor"; "model_id"; "effort"; "set_by"; "changed_at"] []].
Definition down_0015 : list Statement :=
  [DROP_TABLE "chat_model_preference"].

Definition up_0016 : list Statement :=
  [CREATE_TABLE true "project_snapshots" ["id"; "name"; "note"; "created_at"; "file_count"; "total_bytes";
     "files"; "config"] []].
Definition down_0016 : list Statement :=
  [DROP_TABLE "project_snapshots"].

Definition up_sql : list (string * list Statement) :=
  [("0000_init_audit_log", up_0000);
   ("0001_wandering_demogoblin", up_0001);
   ("0002_complete_hedge_knight", up_0002);
   ("0003_google_oauth_state", up_0003);
   ("0004_agent_ledger", up_0004);
   ("0005_telegram_sessions", up_0005);
   ("0006_pending_approval_provenance", up_0006);
   ("0007_audit_chain_lock", up_0007);
   ("0008_feature_flag_hitl_overrides", up_0008);
   ("0009_corpus_pgvector", up_0009);
   ("0010_pending_approval_claim", up_0010);
   ("0011_autonomy_mode_state", up_0011);
   ("0012_shadowing_runs", up_0012);
   ("0013_relay_messages", up_0013);
   ("0014_push_devices", up_0014);
   ("0015_chat_model_preference", up_0015);
   ("0016_project_snapshots", up_0016)].

Definition down_sql : list (string * list Statement) :=
  [("0000_init_audit_log", down_0000);
   ("0001_wandering_demogoblin", down_0001);
   ("0002_complete_hedge_knight", down_0002);
   ("0003_google_oauth_state", down_0003);
   ("0004_agent_ledger", down_0004);
   ("0005_telegram_sessions", down_0005);
   ("0006_pending_approval_provenance", down_0006);
   ("0007_audit_chain_lock", down_0007);
   ("0008_feature_flag_hitl_overrides", down_0008);
   ("0009_corpus_pgvector", down_0009);
   ("0010_pending_approval_claim", down_0010);
   ("0011_autonomy_mode_state", down_0011);
   ("0012_shadowing_runs", down_0012);
   ("0013_relay_messages", down_0013);
   ("0014_push_devices", down_0014);
   ("0015_chat_model_preference", down_0015);
   ("0016_project_snapshots", down_0016)].

(** [readFileSync] of a script, which throws when there is no file. *)
Definition file (files : list (string * list Statement)) (name : string) : JinError + list Statement :=
  match find (fun f => String.eqb (fst f) name) files with
  | Some f => inr (snd f)
  | None => inl (PlainError "ENOENT")
  end.

(** The database once the first [n] migrations are applied. *)
Definition after (n : nat) : option Database :=
  fold_left (fun db entry =>
      db ← db; sql ← match file up_sql (tag entry) with inr sql => Some sql | inl _ => None end;
      db' ← effect (SCRIPT sql) db; Some {| schema := schema db'; applied := applied db' ++ [when entry] |})
    (take n journal) (Some {| schema := ∅; applied := [] |}).

(** The [n]-th migration can be applied where the ones before it are, and then undone. *)
Definition is_undone (n : nat) : bool :=
  match journal !! n, after n, after (S n) with
  | Some entry, Some before_, Some db => bool_decide (undone (file down_sql) entry db = Some before_)
  | _, _, _ => false
  end.

Lemma all_are_undone : forallb is_undone (seq 0 (List.length journal)) = true.
Proof. vm_compute. reflexivity. Qed.

(** Every migration can be applied where the ones before it are, and its [.down.sql] takes
    the database back to them: their tables, columns and foreign keys, and their rows. *)
Lemma every_migration_is_undone n :
  (n < List.length journal)%nat ->
  exists entry before_ db, journal !! n = Some entry /\ after n = Some before_ /\ after (S n) = Some db /\
    undone (file down_sql) entry db = Some before_.
Proof.
  intros Hn. pose proof all_are_undone as H. rewrite forallb_forall in H.
  specialize (H n). rewrite in_seq in H. specialize (H ltac:(lia)). unfold is_undone in H.
  destruct (journal !! n) as [entry|]; [|done]. destruct (after n) as [before_|]; [|done].
  destruct (after (S n)) as [db|]; [|done]. apply bool_decide_eq_true in H. by exists entry, before_, db.
Qed.

(** The instants grow: a migration is newer than the ones before it. *)
Example the_journal_is_in_order : StronglySorted Z.lt (map when journal).
Proof. repeat constructor. Qed.

Definition revert (db : Database) := run (main (fun _ => false) (file down_sql) journal) (connected db).

(** Undoing twice: the journal still ends in the migration that was undone, so the second
    command undoes that one again, says so, and the one before it stays. *)
Example the_second_revert_does_nothing :
  match after 17, after 16 with
  | Some all, Some all_but_one =>
      map (fun db => bool_decide (committed (fst (revert db)) = all_but_one)) [all; all_but_one] = [true; true] /\
      map snd (map revert [all; all_but_one]) =
        [inr (Some "0016_project_snapshots"); inr (Some "0016_project_snapshots")]
  | _, _ => False
  end.
Proof. vm_compute. done. Qed.
End Drizzle.
